(* ===== verification/_CoqProject ===== *)
-Q . S2P
Prelude.v
JsNumber.v
JsFloat.v
NodeBuffer.v
Opcodes.v
PushData.v
ScriptNumber.v
Externals.v
BufferUtils.v
Crypto.v
Curve.v
Script.v
MinimalData.v
Asm.v
Templates.v
TemplateLaws.v
Transaction.v
TransactionLaws.v
Sighash.v
Block.v
ECSignature.v
Ecdsa.v
Encodings.v
JsString.v
Utf8.v
JsDecimal.v
JsText.v
Regex.v
Tickers.v
Base64.v
BigNumber.v
OpReturn.v
WalletExternals.v
WalletAddress.v
Address.v
ECPair.v
TransactionBuilder.v
TransactionBuilderLaws.v
HDNode.v
Wallet.v
Amounts.v
TxBuilder.v
CashMethods.v
Drafts.v
Payments.v
Signing.v
Built.v
Send.v
SendLaws.v
ChronikUtils.v
History.v
HistoryLaws.v
TokenLaws.v
Message.v
Validation.v
App.v
Accounts.v
SavedWallets.v
SavedWalletsLaws.v
Settings.v
Update.v
WalletForms.v
Websocket.v
SendForm.v
Airdrop.v
SignVerify.v
Extension.v
Contacts.v
TokenForms.v
Formatting.v
Home.v
Receive.v
Shell.v
CurrencyHelpers.v
PayButton.v
PayButtonLaws.v
Widgets.v
Explorer.v
ExplorerLaws.v
