(* ===== verification/Prelude.v ===== *)
(** * A verification development of the eCash JavaScript libraries and wallet

    ** The program

    [src/web] holds the JavaScript side of the eCash repository: libraries for
    scripts, transactions and keys, the wallet [cashtab] on top of them, its
    browser extension, a payment button for web pages, and the scripts of the
    block explorer.

    - [ecash-ops] is the table of opcodes, [pushdata-ecash] the length prefix of
      a push, [ecash-minimaldata] the rule that pushes be minimal.
    - [ecashjs-lib] has scripts ([script.js], [templates/]), transactions and
      the hashes that signatures sign ([transaction.js]), blocks, signatures
      ([ecdsa.js], [schnorr.js], [rfc6979.js], [ecsignature.js]), keys and
      addresses ([ecpair.js], [hdnode.js], [address.js]), and the transaction
      builder that ties them together.
    - [xecjs-message] signs and verifies texts.
    - [cashtab/src/utils] builds the payments of the wallet: [cashMethods.js]
      chooses coins, computes fees and writes OP_RETURN outputs, [txBuilder.js]
      and [transactions.js] build, sign and broadcast; [chronik.js] turns the
      answers of a server into balances, tokens and a history; [validation.js]
      checks what the user enters and what was stored.
    - [cashtab/src/hooks/useWallet.js] is the state of the application: the
      active wallet and the saved ones, contacts, settings, cache and price, the
      update from a server, and the websocket.
    - The pages in [cashtab/src/components] are forms and views over that state:
      balances and history, sending, receiving, tokens, airdrops, contacts and
      saved wallets, signed messages; [App.js] has the routes and the menu.
    - [cashtab/extension] lets a web page ask for the address of the wallet or
      for a payment; [cashtab-components] is the button and the widgets that such
      a page uses.
    - [explorer/explorer-server/code] are the scripts of the pages of the
      explorer: pages of blocks, of transactions and of the coins of an address.

    ** The files

    The language and the packages that are not in the repository:

    - [Prelude]: exceptions, [result] and [promise] with their monads, byte
      strings, little- and big-endian numbers, tactics and hints.
    - [JsNumber], [JsFloat], [JsString], [Utf8], [JsDecimal], [JsText], [Regex],
      [Base64]: the operators on 32 bits, the numbers (as IEEE doubles), strings and their
      methods, decimal texts ([parseFloat], [Number], [toFixed],
      [URLSearchParams]), regular expressions, base 64; [NodeBuffer]: Node's
      [Buffer] with its range checks.  [Buffer.allocUnsafe] takes its content
      from the class [UninitMem], so that theorems hold whatever the memory held.
    - [Externals], [Curve], [Encodings], [BigNumber], [WalletExternals]: the npm
      packages, as classes: [typeforce], [varuint-bitcoin], [bip66],
      [create-hash]; [bigi], [ecurve], [create-hmac]; [bs58check], [bech32],
      [wif]; [bignumber.js]; [ecashaddrjs], [bs58], [slp-mdm], [ecies-lite],
      [bip39].  Others stand where they are used: [merkle-lib] in [Block],
      [secp256k1] in [Message], the chronik client in [Wallet] and [Update], its
      websocket in [Websocket], the price service in [Settings], [etoken-list]
      in [Airdrop], the word list of [bip39] in [WalletForms], the formats of the
      locale in [Formatting], [PayButton] and [Explorer], the rounding of
      [bignumber.js] in [PayButton], [react-router] in [Shell].  Each operational
      class that a theorem reasons about has a class of laws that states what
      the package documents, and each law class has an instance (the modules
      [Concrete], [ConcreteCurve], [ConcreteText], [ConcreteBn],
      [ConcreteWallet], [ConcreteRound], [ConcreteIntl], [ConcreteFloor],
      [ConcreteRouter]) at which the examples run.

    The libraries:

    - [Opcodes], [PushData], [MinimalData], [ScriptNumber], [BufferUtils],
      [Crypto] ([types.js], [crypto.js], [networks.js]).
    - [Script] and [Asm] ([script.js]); [Templates] and [TemplateLaws].
    - [Transaction], [TransactionLaws], [Sighash] ([transaction.js]); [Block].
    - [ECSignature], [Ecdsa], [Address], [ECPair], [HDNode].
    - [TransactionBuilder] and [TransactionBuilderLaws]; [Message]
      ([xecjs-message/index.js]).

    The wallet ([cashtab/src]):

    - [Wallet], [Tickers]: constants and networks ([Ticker.js], [coininfo.js],
      [ecashCoinInfo.js]) and the records that the functions pass around.
    - [OpReturn], [WalletAddress], [Amounts], [CashMethods] ([cashMethods.js]);
      [TxBuilder] ([txBuilder.js]); [Send] ([transactions.js]); the laws in
      [Drafts], [Payments], [Signing], [Built], [SendLaws] and [TokenLaws].
    - [ChronikUtils], [History] ([chronik.js]) and [HistoryLaws];
      [Validation] ([validation.js]).
    - [App]: the state of the application with the database behind it, and the
      monad [app] of its functions with a weakest precondition [wp];
      [Accounts], [SavedWallets], [Settings], [Update], [Websocket]: the
      functions of [useWallet.js].
    - The pages: [SendForm] ([Send.js]), [TokenForms] ([SendToken.js],
      [CreateTokenForm.js]), [Airdrop] ([Airdrop.js]), [WalletForms] and
      [Contacts] ([Configure.js]), [SignVerify] ([SignVerifyMsg.js]);
      [Extension] ([cashtab/extension]).
    - The views: [Formatting] ([formatting.js]); [Home] ([Home.js], [Tx.js], [TxHistory.js], [TokenList.js] and the headers with the
      balance); [Receive] ([Receive.js], [QRCode.js], [ScanQRCode.js]);
      [Shell] ([App.js], [OnBoarding.js],
      [Tokens.js], [Notifications.js], the inputs for amounts and currencies).

    The payment library and the explorer:

    - [CurrencyHelpers] ([currency-helpers.ts]); [PayButton] and [PayButtonLaws]
      ([cashtab-helpers.ts], [CashtabBase.tsx], the address of [ButtonQR.tsx]);
      [Widgets] ([Button.tsx], [ButtonQR.tsx],
      [PriceDisplay.tsx], [CashtabButton.tsx], [CashtabBadge.tsx],
      [GetAddress.tsx]).
    - [Explorer] and [ExplorerLaws] ([common.js], [timestamps.js], [blocks.js],
      [txs.js], [address.js]).

    The laws of a component [X] are in the module [XLaws], in the file of the
    component or, where that is long, in a file of their own
    ([SavedWalletsLaws], [HistoryLaws], [PayButtonLaws], [ExplorerLaws]).

    A definition has the name of the function it models; what the source does in
    a closure or a loop body has a name of its own beside it.  A function that
    can throw returns a [result], an asynchronous one a [promise], which may stay
    pending; [sign] of the builder, which changes the builder even when it
    throws, returns the new builder and a [result].  A function of the hook is a
    computation in [app], in which each call of the database may fail; a page is
    a record of its [useState] values with one function per handler, and a
    session is a sequence of the events that the controls of the page allow.  A
    view is a function from the state to the list of what it shows.  Components
    with timers and requests ([PayButton], [ScanQRCode], [GetAddress]) are machines
    whose events are clicks, ticks and answers in any order.
    Each function runs to its end before the next one starts, unless a theorem
    says otherwise ([late_update_reverts], [late_subscription]).  Objects with
    optional fields are records of options.  A byte is an integer in [0, 256), a
    JavaScript number that the code treats as an integer is [Z].  Where an array
    is shared and changed in place the sharing is part of the state
    ([Contacts.page]).

    ** The theorems

    - Payments ([SendLaws], [TokenLaws]): what [sendXec] broadcasts pays exactly
      the recipients, spends outputs of the wallet that are not token outputs,
      returns the rest to the wallet and is signed by the keys of its inputs; it
      is broadcast whenever the amount and the fee are covered, and refused
      otherwise; tokens that are transferred are neither lost nor mixed up.
    - The builder ([TransactionBuilderLaws]): its public operations are a step
      relation.  In every reachable state every signature commits to the
      transaction as it is now, no output is spent twice, and signatures are
      never lost; what [build] returns is the same transaction with scripts
      filled in; signing a public-key-hash input goes through.
    - Keys, signatures and messages: what [sign] returns [verify] accepts, for
      ECDSA (with the low-S rule), for Schnorr up to a reduction the source gets
      wrong, and for texts signed on the page of the wallet; public derivation
      of hierarchical keys agrees with private derivation; the wallet of a
      mnemonic has the keys of its addresses.
    - Transactions, blocks and scripts: serialisation is read back, whatever is
      accepted is well formed, signature hashes are those of the standard
      preimages; exact behaviour of [compile], [decompile], [bip62], the script
      numbers, the prefixes and the classifiers.
    - The state of the application: no saved wallet is lost in a session, the
      settings stay valid, an update either replaces the state of the wallet or
      marks an error and goes on to the next server, one of which is found, the
      websocket follows the wallet, and balances that grow are announced.
    - The pages: a payment that comes from a link is confirmed by the user, a
      private message is encrypted, an accepted form is sent as it shows, tokens
      are burnt after their phrase, saved wallets change as confirmed, the list
      of contacts is an address book that survives a restart, an airdrop pays
      the total up to rounding.
    - Received data: messages that are sent are read by their receiver, balances
      of tokens are the sums of their outputs, the history is sorted; the first
      page shows every wallet with valid settings without an exception, and hides
      messages of strangers until they are asked for.
    - Between pages: the code of a wallet, read by the camera of another, fills
      its form; the address and the amount of a payment button reach the form of
      the wallet, and the address of the wallet reaches the page that asked; the
      buttons of the menu lead to their pages.
    - The payment button: what makes it complete, that a button is paid once,
      which of its timers are cleared, and the amount it shows and asks for.
    - The explorer: the list of pages has the first, the current and the last
      page in order, up to a named exception; pages of blocks cover the chain and
      pages of coins are the coins.
    - Where the code does not do what it means to, a theorem says what it does
      ([page_approves_itself], [blank_contact_added], [late_update_reverts],
      [second_burn_unasked], [same_name_overwritten], [payment_missed],
      [interval_leaks], [click_and_code_disagree], [camera_left_on], [drawn_page],
      [stale_pages] and others).

    ** Fuel

    [decompile] and [bip62] get as much fuel as the script has bytes, plus one;
    each step consumes a byte, and [decompile_returns] and [bip62_exact] show
    that it is enough.  The loops of [rfc6979.js] and [makeRandom], whose bound
    depends on a hash or on randomness, and [derive], which retries with the next
    index, take the fuel as an argument: the theorems say that they return as
    soon as the fuel exceeds the position of the first acceptable candidate, and
    [derive_terminates] that fuel for the remaining indices is enough.  The
    functions of the wallet that sign or derive pass this fuel on;
    [payment_made] has the bound for a payment.

    ** What is not modelled

    Styles, icons and layout, which are not functions of the state that anything
    else reads; the rendering of the pages that are forms, of which the model has
    the handlers and which controls are enabled; the icon of a new token, which is
    an image that is cropped and uploaded; the position of the windows of the
    extension; the library that draws the tables of the explorer, of which the
    model has what it is told; the server of the explorer and the indexer (Rust)
    and the node (C++), which the JavaScript code reaches over the network only.
    Of the modelled pages, switches that only set one field ([Airdrop.js],
    [Configure.js]) and the note that a signature was copied are left out.  Two
    asynchronous functions of the wallet are not interleaved in general.  The text
    of error messages is kept up to the values that the source inserts into it. *)

From stdpp Require Import base tactics list numbers strings.
Open Scope Z_scope.

(** ** Exceptions and results

    A JavaScript function that can throw returns a [result].  The exception
    keeps the constructor and the constant part of the message of the source. *)

Inductive js_exn : Type :=
| RangeError                      (** thrown by Node's Buffer accessors *)
| TypeforceError                  (** thrown by a failed [typeforce] check *)
| TypeError (msg : string)
| Error (msg : string)
| OutOfFuel.                      (** never a JavaScript value: a loop bound of the model *)

Inductive result (A : Type) : Type :=
| Ok (a : A)
| Throw (e : js_exn).
Arguments Ok {A} a.
Arguments Throw {A} e.

#[export] Instance js_exn_eq_dec : EqDecision js_exn.
Proof. solve_decision. Defined.

#[export] Instance result_eq_dec {A} `{EqDecision A} : EqDecision (result A).
Proof. solve_decision. Defined.

#[export] Instance result_ret : MRet result := @Ok.
#[export] Instance result_bind : MBind result := fun A B f r =>
  match r with Ok a => f a | Throw e => Throw e end.

Definition is_ok {A} (r : result A) : bool :=
  match r with Ok _ => true | Throw _ => false end.

(** [xs.length] of an array *)
Definition len {A} (xs : list A) : Z := Z.of_nat (length xs).

(** [guard_js b e] is [if (!b) throw e]. *)
Definition guard_js (b : bool) (e : js_exn) : result unit :=
  if b then Ok tt else Throw e.

(** ** Promises *)

(** A promise that is awaited: it may also stay pending for ever. *)
Inductive promise (A : Type) :=
| Resolved (a : A)
| Rejected (e : js_exn)
| Pending.
Arguments Resolved {A} a.
Arguments Rejected {A} e.
Arguments Pending {A}.

Definition is_rejected {A} (p : promise A) : bool := match p with Rejected _ => true | _ => false end.

(** [Promise.all]: one rejection is enough, even if others are pending.  The
    rejection that came first is taken to be the first in the array. *)
Fixpoint promise_all {A} (ps : list (promise A)) : promise (list A) :=
  match ps with
  | [] => Resolved []
  | p :: ps =>
      match p, promise_all ps with
      | Rejected e, _ | _, Rejected e => Rejected e
      | Resolved a, Resolved l => Resolved (a :: l)
      | _, _ => Pending
      end
  end.

(** [await p], of a promise *)
#[export] Instance promise_bind : MBind promise := fun A B f p =>
  match p with Resolved a => f a | Rejected e => Rejected e | Pending => Pending end.

(** What an asynchronous function gives when its body returns or throws. *)
Definition settle {A} (r : result A) : promise A := match r with Ok a => Resolved a | Throw e => Rejected e end.

(** ** Bytes and little-endian integers

    A byte is a [Z] in [0, 256); a Node Buffer is a list of bytes. *)

Definition is_byte (b : Z) : Prop := 0 <= b < 256.
Abbreviation buffer := (list Z).
Definition bytes_ok (bs : buffer) : Prop := Forall is_byte bs.
Definition blen (bs : buffer) : Z := Z.of_nat (length bs).

Fixpoint le_bytes (n : nat) (v : Z) : buffer :=
  match n with
  | O => []
  | S n => (v mod 256) :: le_bytes n (v / 256)
  end.

Fixpoint le_val (bs : buffer) : Z :=
  match bs with
  | [] => 0
  | b :: rest => b + 256 * le_val rest
  end.

Definition be_bytes (n : nat) (v : Z) : buffer := reverse (le_bytes n v).
Definition be_val (bs : buffer) : Z := le_val (reverse bs).

(** ** Tactics and hints *)

Create HintDb js.
Create Rewrite HintDb blen.

(** Splits the conjunctions and boolean tests of the context into facts that
    [lia] understands. *)
Ltac bool_facts :=
  repeat match goal with
  | H : (_ && _)%bool = true |- _ => apply andb_true_iff in H; destruct H
  | H : (_ || _)%bool = false |- _ => apply orb_false_iff in H; destruct H
  | H : negb _ = true |- _ => apply negb_true_iff in H
  | H : negb _ = false |- _ => apply negb_false_iff in H
  | H : (_ <? _) = true |- _ => apply Z.ltb_lt in H
  | H : (_ <? _) = false |- _ => apply Z.ltb_ge in H
  | H : (_ <=? _) = true |- _ => apply Z.leb_le in H
  | H : (_ <=? _) = false |- _ => apply Z.leb_gt in H
  | H : (_ =? _) = true |- _ => apply Z.eqb_eq in H
  | H : (_ =? _) = false |- _ => apply Z.eqb_neq in H
  end.

(** Case split on the first boolean test of the goal (or of [H]), recording the
    outcome, and [lia] where the branch is impossible. *)
Ltac split_if :=
  match goal with
  | |- context [if ?b then _ else _] =>
      let E := fresh "E" in destruct b eqn:E; bool_facts; try lia
  end.
Ltac split_ifs := repeat split_if.

(** Runs a monadic hypothesis [c ≫= k = Ok r] backwards: one fact per step. *)
Ltac inv_result :=
  repeat match goal with
  | H : Ok _ = Ok _ |- _ => injection H as H; try subst
  | H : Throw _ = Ok _ |- _ => discriminate H
  | H : Ok _ = Throw _ |- _ => discriminate H
  | H : (?c ≫= _) = Ok _ |- _ =>
      let E := fresh "E" in
      destruct c eqn:E; cbn [mbind result_bind] in H; [| discriminate H]
  | H : guard_js ?b _ = Ok _ |- _ =>
      unfold guard_js in H; let E := fresh "E" in
      destruct b eqn:E; [| discriminate H]
  | H : (if ?b then _ else Throw _) = Ok _ |- _ =>
      let E := fresh "E" in destruct b eqn:E; [| discriminate H]
  | H : (if ?b then Throw _ else _) = Ok _ |- _ =>
      let E := fresh "E" in destruct b eqn:E; [discriminate H |]
  end.

(** ** Results *)

Lemma bind_ok {A B} (r : result A) (k : A → result B) b :
  r ≫= k = Ok b ↔ ∃ a, r = Ok a ∧ k a = Ok b.
Proof. destruct r; split; [eauto|by intros (? & [= <-] & ?)|done|by intros (? & ? & ?)]. Qed.

Lemma guard_ok {A} (b : bool) e (k : result A) a :
  (_ ← guard_js b e; k) = Ok a → b = true ∧ k = Ok a.
Proof. destruct b; [done|discriminate]. Qed.

Lemma bind_assoc {A B C} (r : result A) (f : A → result B) (g : B → result C) :
  (r ≫= f) ≫= g = r ≫= (λ a, f a ≫= g).
Proof. by destruct r. Qed.

(** ** Lists *)

Lemma len_nonneg {A} (xs : list A) : 0 <= len xs.
Proof. unfold len. lia. Qed.

Lemma len_app {A} (xs ys : list A) : len (xs ++ ys) = len xs + len ys.
Proof. unfold len. rewrite length_app. lia. Qed.

Lemma len_cons {A} (x : A) xs : len (x :: xs) = 1 + len xs.
Proof. unfold len. cbn. lia. Qed.

Lemma len_map {A B} (f : A → B) xs : len (map f xs) = len xs.
Proof. unfold len. by rewrite length_map. Qed.

Lemma lookup_map {A B} (f : A → B) xs j : map f xs !! j = f <$> xs !! j.
Proof. apply list_lookup_fmap. Qed.

Lemma len_to_nat {A} (xs : list A) : Z.to_nat (len xs) = length xs.
Proof. unfold len. lia. Qed.

#[export] Hint Resolve len_nonneg : js.

(** The sum of a list of amounts. *)
Definition zsum (l : list Z) : Z := foldr Z.add 0 l.

Lemma zsum_app l k : zsum (l ++ k) = zsum l + zsum k.
Proof. unfold zsum. induction l as [|x l IH]; cbn; [done|]. rewrite IH. lia. Qed.

Lemma fold_left_zsum l a : fold_left Z.add l a = a + zsum l.
Proof. revert a. unfold zsum. induction l as [|x l IH]; intros a; cbn; [lia|]. rewrite IH. lia. Qed.

Lemma zsum_nonneg l : Forall (Z.le 0) l → 0 <= zsum l.
Proof. unfold zsum. induction 1; cbn; lia. Qed.

Lemma zsum_take_S l n x : l !! n = Some x → zsum (take (S n) l) = zsum (take n l) + x.
Proof. intros H. rewrite (take_S_r _ _ _ H), zsum_app. cbn. lia. Qed.

Lemma zsum_take_le l n : Forall (Z.le 0) l → 0 <= zsum (take n l) <= zsum l.
Proof.
  intros H. split; [by apply zsum_nonneg, Forall_take|]. rewrite <- (take_drop n l) at 2. rewrite zsum_app.
  pose proof (zsum_nonneg _ (Forall_drop _ n _ H)). lia.
Qed.

(** A call that does not throw. *)
Definition returns {A} (r : result A) : Prop := ∃ a, r = Ok a.

Lemma returns_ok {A} (a : A) : returns (Ok a).
Proof. by exists a. Qed.

Lemma returns_bind {A B} (r : result A) (k : A → result B) :
  returns r → (∀ a, r = Ok a → returns (k a)) → returns (r ≫= k).
Proof. intros [a ->] Hk. by apply Hk. Qed.

#[export] Hint Resolve returns_ok : js.

Lemma mapM_map_ok {A B C} (f : B → result C) (g : A → B) (h : A → C) (l : list A) :
  Forall (λ x, f (g x) = Ok (h x)) l → mapM f (map g l) = Ok (map h l).
Proof. induction 1 as [|x l Hx _ IH]; [done|]. cbn. rewrite Hx. cbn in *. by rewrite IH. Qed.

Lemma drop_app_blen (xs ys : buffer) : drop (Z.to_nat (blen xs)) (xs ++ ys) = ys.
Proof. unfold blen. rewrite Nat2Z.id. apply drop_app_length. Qed.

Lemma take_app_blen (xs ys : buffer) : take (Z.to_nat (blen xs)) (xs ++ ys) = xs.
Proof. unfold blen. rewrite Nat2Z.id. apply take_app_length. Qed.

Lemma blen_nil : blen [] = 0.
Proof. done. Qed.

Lemma blen_cons x xs : blen (x :: xs) = 1 + blen xs.
Proof. unfold blen. cbn [length]. lia. Qed.

Lemma blen_app xs ys : blen (xs ++ ys) = blen xs + blen ys.
Proof. unfold blen. rewrite length_app. lia. Qed.

Lemma blen_nonneg xs : 0 <= blen xs.
Proof. unfold blen. lia. Qed.

Lemma blen_0_nil xs : blen xs = 0 → xs = [].
Proof. destruct xs; [done|]. rewrite blen_cons. pose proof (blen_nonneg xs). lia. Qed.

Lemma blen_drop n xs : 0 <= n <= blen xs → blen (drop (Z.to_nat n) xs) = blen xs - n.
Proof. unfold blen. rewrite length_drop. lia. Qed.

Lemma blen_reverse xs : blen (reverse xs) = blen xs.
Proof. unfold blen. by rewrite length_reverse. Qed.

#[export] Hint Resolve blen_nonneg : js.
#[export] Hint Rewrite blen_nil blen_cons blen_app blen_reverse : blen.

(** Settles a closed statement made of [Forall], connectives, and decidable
    comparisons, by evaluation. *)
Ltac concrete :=
  match goal with
  | |- _ ∧ _ => split; concrete
  | |- Forall _ [] => constructor
  | |- Forall _ (_ :: _) => constructor; [concrete|concrete]
  | |- Forall ?P ?l => let l' := eval vm_compute in l in progress change (Forall P l'); concrete
  | |- _ ∨ _ => first [left; concrete | right; concrete]
  | |- True => exact I
  | |- _ => first [ reflexivity | solve [vm_compute; intuition (discriminate || reflexivity)]
                  | progress hnf; concrete ]
  end.

(** Normalises lengths of concatenations in the goal, then [lia]. *)
Ltac blen_lia :=
  autorewrite with blen in *;
  repeat match goal with
  | |- context [blen ?x] => assert_fails (assert (0 <= blen x) by assumption); pose proof (blen_nonneg x)
  | _ : context [blen ?x] |- _ => assert_fails (assert (0 <= blen x) by assumption); pose proof (blen_nonneg x)
  end;
  lia.

Lemma bytes_ok_app xs ys : bytes_ok (xs ++ ys) ↔ bytes_ok xs ∧ bytes_ok ys.
Proof. apply Forall_app. Qed.

Lemma bytes_ok_cons x xs : bytes_ok (x :: xs) ↔ is_byte x ∧ bytes_ok xs.
Proof. apply Forall_cons. Qed.

Lemma bytes_ok_nil : bytes_ok [].
Proof. constructor. Qed.

Lemma bytes_ok_take n xs : bytes_ok xs → bytes_ok (take n xs).
Proof. apply Forall_take. Qed.

Lemma bytes_ok_drop n xs : bytes_ok xs → bytes_ok (drop n xs).
Proof. apply Forall_drop. Qed.

#[export] Hint Resolve bytes_ok_nil bytes_ok_take bytes_ok_drop : js.

(** ** Little-endian integers *)

Lemma length_le_bytes n v : length (le_bytes n v) = n.
Proof. revert v. induction n; intros v; cbn; [done|]. by rewrite IHn. Qed.

Lemma blen_le_bytes n v : blen (le_bytes n v) = Z.of_nat n.
Proof. unfold blen. by rewrite length_le_bytes. Qed.
#[export] Hint Rewrite blen_le_bytes : blen.

Lemma bytes_ok_le_bytes n v : bytes_ok (le_bytes n v).
Proof.
  revert v. induction n; intros v; cbn; constructor; [|apply IHn].
  apply Z.mod_pos_bound. lia.
Qed.
#[export] Hint Resolve bytes_ok_le_bytes : js.

Lemma pow256_succ n : 256 ^ Z.of_nat (S n) = 256 * 256 ^ Z.of_nat n.
Proof. rewrite Nat2Z.inj_succ, Z.pow_succ_r; lia. Qed.

Lemma pow256_pos n : 0 < 256 ^ Z.of_nat n.
Proof. apply Z.pow_pos_nonneg; lia. Qed.

Lemma le_val_le_bytes n v : le_val (le_bytes n v) = v mod 256 ^ Z.of_nat n.
Proof.
  revert v. induction n as [|n IH]; intros v; cbn [le_bytes le_val].
  - by rewrite Z.mod_1_r.
  - rewrite IH, pow256_succ. pose proof (pow256_pos n).
    rewrite Z.rem_mul_r by lia. lia.
Qed.

Lemma le_val_le_bytes_small n v : 0 <= v < 256 ^ Z.of_nat n → le_val (le_bytes n v) = v.
Proof. intros H. rewrite le_val_le_bytes. by apply Z.mod_small. Qed.

Lemma le_val_bound bs : bytes_ok bs → 0 <= le_val bs < 256 ^ blen bs.
Proof.
  induction 1 as [|b bs Hb _ IH]; cbn [le_val]; [done|].
  unfold blen in *. cbn [length]. rewrite pow256_succ. unfold is_byte in Hb. lia.
Qed.

Lemma le_bytes_le_val bs : bytes_ok bs → le_bytes (length bs) (le_val bs) = bs.
Proof.
  induction 1 as [|b bs Hb _ IH]; cbn [length le_bytes le_val]; [done|].
  unfold is_byte in Hb.
  rewrite (Z.mul_comm 256), Z.mod_add, Z.mod_small by lia.
  rewrite Z.div_add, Z.div_small, Z.add_0_l by lia. by rewrite IH.
Qed.

Lemma le_val_app xs ys : le_val (xs ++ ys) = le_val xs + 256 ^ blen xs * le_val ys.
Proof.
  induction xs as [|x xs IH]; [rewrite blen_nil, Z.pow_0_r; cbn [app le_val]; lia|].
  cbn [le_val app]. rewrite IH. unfold blen. cbn [length]. rewrite pow256_succ. ring.
Qed.

(** A decidable fact of every byte, by enumeration. *)
Lemma byte_forall (P : Z → bool) b :
  forallb P (map Z.of_nat (seq 0 256)) = true → is_byte b → P b = true.
Proof.
  intros H Hb. rewrite forallb_forall in H. apply H. unfold is_byte in Hb.
  apply in_map_iff. exists (Z.to_nat b). rewrite in_seq. lia.
Qed.

Lemma le_val_snoc xs x : le_val (xs ++ [x]) = le_val xs + 256 ^ blen xs * x.
Proof. rewrite le_val_app. cbn [le_val]. by rewrite Z.mul_0_r, Z.add_0_r. Qed.

Lemma pow256_2 k : 0 <= k → 256 ^ k = 2 ^ (8 * k).
Proof. intros. by rewrite Z.pow_mul_r by lia. Qed.

Lemma le_bytes_snoc k v : le_bytes (S k) v = le_bytes k v ++ [(v / 256 ^ Z.of_nat k) mod 256].
Proof.
  revert v. induction k as [|k IH]; intros v.
  - cbn. by rewrite Z.div_1_r.
  - change (le_bytes (S (S k)) v) with (v mod 256 :: le_bytes (S k) (v / 256)).
    rewrite IH. cbn [le_bytes app]. rewrite Z.div_div, <- pow256_succ; [done|lia|apply pow256_pos].
Qed.

Lemma le_bytes_mod k v : le_bytes k (v mod 256 ^ Z.of_nat k) = le_bytes k v.
Proof.
  rewrite <- le_val_le_bytes. rewrite <- (length_le_bytes k v) at 1.
  apply le_bytes_le_val, bytes_ok_le_bytes.
Qed.

Lemma le_bytes_app j k v : le_bytes (j + k) v = le_bytes j v ++ le_bytes k (v / 256 ^ Z.of_nat j).
Proof.
  revert v. induction j as [|j IH]; intros v; [by rewrite Z.div_1_r|].
  cbn [Nat.add le_bytes app]. by rewrite IH, pow256_succ, Z.div_div by (pose proof (pow256_pos j); lia).
Qed.

Lemma le_bytes_add_high k v c : le_bytes k (v + c * 256 ^ Z.of_nat k) = le_bytes k v.
Proof.
  rewrite <- le_bytes_mod, Z.mod_add by (pose proof (pow256_pos k); lia). apply le_bytes_mod.
Qed.

(** A buffer seen from an offset. *)
Lemma split_at (b : buffer) off : 0 <= off <= blen b →
  ∃ pre rest, b = pre ++ rest ∧ blen pre = off ∧ blen rest = blen b - off.
Proof.
  intros H. exists (take (Z.to_nat off) b), (drop (Z.to_nat off) b). unfold blen in *.
  rewrite take_drop, length_take, length_drop. split_and!; [done|lia|lia].
Qed.

(** ** Big-endian integers *)

Lemma be_val_be_bytes n v : be_val (be_bytes n v) = v mod 256 ^ Z.of_nat n.
Proof. unfold be_val, be_bytes. rewrite reverse_involutive. apply le_val_le_bytes. Qed.

Lemma blen_be_bytes n v : blen (be_bytes n v) = Z.of_nat n.
Proof. unfold be_bytes. rewrite blen_reverse. apply blen_le_bytes. Qed.

Lemma bytes_ok_reverse b : bytes_ok b → bytes_ok (reverse b).
Proof. apply Forall_reverse. Qed.

Lemma bytes_ok_be_bytes n v : bytes_ok (be_bytes n v).
Proof. apply bytes_ok_reverse, bytes_ok_le_bytes. Qed.

Lemma be_val_bound bs : bytes_ok bs → 0 <= be_val bs < 256 ^ blen bs.
Proof. intros H. unfold be_val. rewrite <- (blen_reverse bs). by apply le_val_bound, bytes_ok_reverse. Qed.

Lemma be_bytes_be_val bs : bytes_ok bs → be_bytes (length bs) (be_val bs) = bs.
Proof.
  intros H. unfold be_bytes, be_val. rewrite <- (length_reverse bs).
  rewrite le_bytes_le_val by by apply bytes_ok_reverse. apply reverse_involutive.
Qed.

Lemma be_bytes_S k v : be_bytes (S k) v = (v / 256 ^ Z.of_nat k) mod 256 :: be_bytes k v.
Proof. unfold be_bytes. by rewrite le_bytes_snoc, reverse_snoc. Qed.

Lemma be_val_cons b bs : be_val (b :: bs) = b * 256 ^ blen bs + be_val bs.
Proof. unfold be_val. rewrite reverse_cons, le_val_app, blen_reverse. cbn [le_val]. lia. Qed.

Lemma be_val_0 bs : be_val (0 :: bs) = be_val bs.
Proof. unfold be_val. rewrite reverse_cons, le_val_app. cbn [le_val]. lia. Qed.

#[export] Hint Resolve bytes_ok_reverse bytes_ok_be_bytes : js.
