(* ===== verification/JsNumber.v ===== *)
(** * JavaScript numbers used as integers

    The bit operators of JavaScript convert their operands to 32-bit integers
    ([ToInt32], [ToUint32]) and take shift counts modulo 32.  Arithmetic
    ([+], [-], [*]) on the integers the sources handle stays below 2^53 in
    absolute value, where a double is exact, and is modelled by [Z]. *)

From stdpp Require Import base tactics list numbers.
From S2P Require Import Prelude.
Open Scope Z_scope.

Definition to_uint32 (x : Z) : Z := x mod 2 ^ 32.
Definition to_int32 (x : Z) : Z :=
  let m := x mod 2 ^ 32 in if m <? 2 ^ 31 then m else m - 2 ^ 32.

Definition js_and (a b : Z) : Z := Z.land (to_int32 a) (to_int32 b).
Definition js_or (a b : Z) : Z := Z.lor (to_int32 a) (to_int32 b).
Definition js_not (a : Z) : Z := Z.lnot (to_int32 a).
Definition js_shl (a n : Z) : Z := to_int32 (Z.shiftl (to_int32 a) (n mod 32)).
Definition js_shr (a n : Z) : Z := Z.shiftr (to_int32 a) (n mod 32).
Definition js_ushr (a n : Z) : Z := Z.shiftr (to_uint32 a) (n mod 32).

(** [Number.MAX_SAFE_INTEGER] *)
Definition MAX_SAFE_INTEGER : Z := 2 ^ 53 - 1.

(** [x] as a condition: [0] is falsy. *)
Definition truthy (x : Z) : bool := negb (x =? 0).

(** [undefined] becomes 0 under a bit operator. *)
Definition bits_of (x : option Z) : Z := default 0 x.

(** ** Facts *)

Lemma to_int32_small x : - 2 ^ 31 <= x < 2 ^ 31 → to_int32 x = x.
Proof.
  intros H. unfold to_int32. destruct (Z.ltb_spec (x mod 2 ^ 32) (2 ^ 31)) as [L|L].
  - destruct (Z_lt_le_dec x 0) as [N|N].
    + rewrite <- (Z.mod_unique x (2 ^ 32) (-1) (x + 2 ^ 32)) in L; lia.
    + rewrite Z.mod_small; lia.
  - destruct (Z_lt_le_dec x 0) as [N|N].
    + rewrite <- (Z.mod_unique x (2 ^ 32) (-1) (x + 2 ^ 32)); lia.
    + rewrite Z.mod_small in L; lia.
Qed.

Lemma to_int32_range x : - 2 ^ 31 <= to_int32 x < 2 ^ 31.
Proof.
  unfold to_int32. pose proof (Z.mod_pos_bound x (2 ^ 32) ltac:(lia)).
  destruct (Z.ltb_spec (x mod 2 ^ 32) (2 ^ 31)); lia.
Qed.

Lemma to_int32_mod x : to_int32 x mod 2 ^ 32 = x mod 2 ^ 32.
Proof.
  unfold to_int32. pose proof (Z.mod_pos_bound x (2 ^ 32) ltac:(lia)).
  destruct (Z.ltb_spec (x mod 2 ^ 32) (2 ^ 31)).
  - apply Z.mod_small; lia.
  - rewrite <- (Z.mod_add _ 1) by lia. rewrite Z.mod_small; lia.
Qed.

(** The low bits of [ToInt32 x] are the low bits of [x]. *)
Lemma to_int32_low_bits x k : 0 <= k <= 32 → to_int32 x mod 2 ^ k = x mod 2 ^ k.
Proof.
  intros Hk. pose proof (to_int32_mod x) as E.
  assert (D : (2 ^ k | 2 ^ 32)).
  { exists (2 ^ (32 - k)). rewrite <- Z.pow_add_r by lia. f_equal; lia. }
  rewrite <- (Z.mod_mod_divide (to_int32 x) (2 ^ 32)), <- (Z.mod_mod_divide x (2 ^ 32)) by done.
  by rewrite E.
Qed.

(** Masking by [2^k - 1] is reduction modulo [2^k]. *)
Lemma js_and_ones x k : 0 <= k <= 31 → js_and x (2 ^ k - 1) = x mod 2 ^ k.
Proof.
  intros Hk. unfold js_and.
  assert (2 ^ k <= 2 ^ 31) by (apply Z.pow_le_mono_r; lia).
  assert (0 < 2 ^ k) by (apply Z.pow_pos_nonneg; lia).
  rewrite (to_int32_small (2 ^ k - 1)) by lia.
  replace (2 ^ k - 1) with (Z.ones k) by (rewrite Z.ones_equiv; lia).
  rewrite Z.land_ones by lia. apply to_int32_low_bits. lia.
Qed.

Lemma js_and_small a b :
  0 <= a < 2 ^ 31 → 0 <= b < 2 ^ 31 → js_and a b = Z.land a b.
Proof. intros. unfold js_and. rewrite !to_int32_small; lia. Qed.

Lemma js_shr_small x n : 0 <= x < 2 ^ 31 → 0 <= n < 32 → js_shr x n = x / 2 ^ n.
Proof.
  intros Hx Hn. unfold js_shr. rewrite to_int32_small by lia.
  rewrite (Z.mod_small n) by lia. apply Z.shiftr_div_pow2. lia.
Qed.

(** ** Bits *)

Lemma testbit_above_signed l a i : 0 <= l <= i → - 2 ^ l <= a < 2 ^ l → Z.testbit a i = (a <? 0).
Proof.
  intros Hi Ha. assert (2 ^ l <= 2 ^ i) by (apply Z.pow_le_mono_r; lia).
  rewrite Z.testbit_odd, Z.shiftr_div_pow2 by lia.
  destruct (Z.ltb_spec a 0) as [N|N].
  - replace (a / 2 ^ i) with (-1); [done|].
    apply (Z.div_unique a (2 ^ i) (-1) (a + 2 ^ i)); lia.
  - by rewrite Z.div_small by lia.
Qed.

Lemma to_int32_testbit x i : 0 <= i → Z.testbit (to_int32 x) i = Z.testbit x (Z.min i 31).
Proof.
  intros Hi. pose proof (to_int32_range x) as R. pose proof (to_int32_mod x) as M.
  assert (L : ∀ j, 0 <= j < 32 → Z.testbit (to_int32 x) j = Z.testbit x j).
  { intros j Hj. rewrite <- (Z.mod_pow2_bits_low (to_int32 x) 32), <- (Z.mod_pow2_bits_low x 32) by lia.
    by rewrite M. }
  destruct (Z.min_spec i 31) as [[? ->]|[? ->]]; [apply L; lia|].
  rewrite <- L by lia. by rewrite !(testbit_above_signed 31) by lia.
Qed.

Lemma js_or_spec a b : js_or a b = to_int32 (Z.lor a b).
Proof.
  apply Z.bits_inj'. intros i Hi. unfold js_or.
  by rewrite to_int32_testbit, !Z.lor_spec, !to_int32_testbit.
Qed.

Lemma js_and_spec a b : js_and a b = to_int32 (Z.land a b).
Proof.
  apply Z.bits_inj'. intros i Hi. unfold js_and.
  by rewrite to_int32_testbit, !Z.land_spec, !to_int32_testbit.
Qed.

Lemma to_int32_idem x : to_int32 (to_int32 x) = to_int32 x.
Proof. apply to_int32_small, to_int32_range. Qed.

(** [ToInt32] depends on the value modulo [2^32] only. *)
Lemma to_int32_congr x y : x mod 2 ^ 32 = y mod 2 ^ 32 → to_int32 x = to_int32 y.
Proof. intros H. unfold to_int32. by rewrite H. Qed.

Lemma to_int32_high x : 2 ^ 31 <= x < 2 ^ 32 → to_int32 x = x - 2 ^ 32.
Proof. intros. unfold to_int32. rewrite Z.mod_small by lia. split_ifs. Qed.

Lemma js_shl_spec a n : 0 <= n < 32 → js_shl a n = to_int32 (a * 2 ^ n).
Proof.
  intros. unfold js_shl. rewrite (Z.mod_small n), Z.shiftl_mul_pow2 by lia.
  apply to_int32_congr. rewrite Z.mul_mod, to_int32_mod by lia. by rewrite <- Z.mul_mod by lia.
Qed.

(** [lor] of disjoint ranges is addition. *)
Lemma lor_add_disjoint a b k : 0 <= k → 0 <= a < 2 ^ k → Z.lor a (b * 2 ^ k) = a + b * 2 ^ k.
Proof.
  intros Hk Ha. symmetry. rewrite <- Z.lxor_lor; [apply Z.add_nocarry_lxor|];
    (apply Z.bits_inj'; intros i Hi; rewrite Z.land_spec, Z.bits_0;
     destruct (Z_lt_le_dec i k);
     [ rewrite Z.mul_pow2_bits_low by lia; apply andb_false_r
     | rewrite (testbit_above_signed k a i) by lia;
       by rewrite (proj2 (Z.ltb_ge _ _)) by lia ]).
Qed.

(** [x & ~(1 << j)] clears the top bit of [x]. *)
Lemma js_and_not_bit v j :
  0 <= j < 32 → 2 ^ j <= v < 2 ^ (j + 1) → js_and v (js_not (2 ^ j)) = to_int32 (v - 2 ^ j).
Proof.
  intros Hj Hv. rewrite Z.pow_add_r, Z.pow_1_r in Hv by lia.
  assert (Hbit : Z.testbit v j = true).
  { rewrite Z.testbit_true by lia. replace (v / 2 ^ j) with 1; [done|].
    apply (Z.div_unique v (2 ^ j) 1 (v - 2 ^ j)); lia. }
  assert (Hd : Z.ldiff (2 ^ j) v = 0).
  { apply Z.bits_inj'. intros i Hi. rewrite Z.ldiff_spec, Z.pow2_bits_eqb, Z.bits_0 by lia.
    destruct (Z.eqb_spec j i); [subst; by rewrite Hbit|done]. }
  rewrite (Z.sub_nocarry_ldiff v) by done.
  apply Z.bits_inj'. intros i Hi. unfold js_and, js_not.
  rewrite to_int32_testbit, Z.land_spec, Z.ldiff_spec by lia.
  rewrite !to_int32_testbit, Z.lnot_spec, to_int32_testbit by lia.
  by rewrite (Z.min_l (Z.min i 31) 31) by lia.
Qed.

Lemma js_and_idem_l a b : js_and (to_int32 a) b = js_and a b.
Proof. unfold js_and. by rewrite to_int32_idem. Qed.

Lemma js_not_idem a : js_not (to_int32 a) = js_not a.
Proof. unfold js_not. by rewrite to_int32_idem. Qed.

Lemma js_or_idem a b : js_or (to_int32 a) (to_int32 b) = js_or a b.
Proof. unfold js_or. by rewrite !to_int32_idem. Qed.

(** Sign and magnitude bits of a byte. *)
Lemma byte_sign_bit b : is_byte b → truthy (js_and b 0x80) = (128 <=? b).
Proof.
  intros Hb. apply eqb_prop.
  by apply (byte_forall (λ b, eqb (truthy (js_and b 0x80)) (128 <=? b))).
Qed.

Lemma byte_magnitude b : is_byte b → js_and b 0x7f = b mod 128.
Proof. intros Hb. apply (js_and_ones b 7). lia. Qed.

Lemma byte_set_sign b : is_byte b → b < 128 → js_or b 0x80 = b + 128.
Proof.
  intros Hb Hl. apply Z.eqb_eq.
  pose proof (byte_forall (λ b, (128 <=? b) || (js_or b 0x80 =? b + 128))%bool b eq_refl Hb) as H.
  cbn beta in H. by rewrite (proj2 (Z.leb_gt _ _)) in H by lia.
Qed.

Lemma byte_clear_sign b : is_byte b → 128 <= b → js_and b (js_not 0x80) = b - 128.
Proof.
  intros Hb Hl. apply Z.eqb_eq.
  pose proof (byte_forall (λ b, (b <? 128) || (js_and b (js_not 0x80) =? b - 128))%bool b eq_refl Hb) as H.
  cbn beta in H. by rewrite (proj2 (Z.ltb_ge _ _)) in H by lia.
Qed.
