(* ===== verification/JsFloat.v ===== *)
(** * Numbers that are not integers

    A JavaScript number is an IEEE 754 double.  Where the wallet multiplies a fee
    rate it does so on doubles; the operations here are those of the
    specification of floating point arithmetic in the Standard Library, at 53
    bits of precision. *)

From stdpp Require Import base tactics list numbers.
From Stdlib Require Import SpecFloat.
From S2P Require Import Prelude.
Open Scope Z_scope.

Abbreviation number := spec_float.

Definition num_of_Z (z : Z) : number := binary_normalize 53 1024 z 0 false.

(** [a * b] and [a / b] *)
Definition num_mul : number → number → number := SFmul 53 1024.
Definition num_div : number → number → number := SFdiv 53 1024.

(** [Math.ceil(a)], when it is an integer: not of [NaN] and the infinities *)
Definition num_ceil (a : number) : option Z :=
  match a with
  | S754_zero _ => Some 0
  | S754_finite s m e =>
      let m := if s then Zneg m else Zpos m in
      Some (if 0 <=? e then m * 2 ^ e else - ((- m) / 2 ^ (- e)))
  | _ => None
  end.

(** [Math.ceil(a)], as a number *)
Definition num_Ceil (a : number) : number :=
  match num_ceil a with Some z => num_of_Z z | None => a end.

(** [!a] is false *)
Definition num_truthy (a : number) : bool :=
  match a with
  | S754_zero _ | S754_nan => false
  | _ => true
  end.

(** The literal [2.01] is the double nearest to the quotient. *)
Definition num_2_01 : number := num_div (num_of_Z 201) (num_of_Z 100).

(** ** Rounding *)

Lemma digits_bounds p : 2 ^ (Zdigits2 (Zpos p) - 1) <= Zpos p < 2 ^ Zdigits2 (Zpos p).
Proof.
  cbn [Zdigits2]. induction p as [p IH|p IH|]; cbn [digits2_pos]; [| |done];
    rewrite Pos2Z.inj_succ; replace (Z.succ _ - 1) with (Z.pos (digits2_pos p) - 1 + 1) by lia;
    rewrite Z.pow_add_r, Z.pow_succ_r by lia; lia.
Qed.

Lemma digits_le m k : 0 <= k → 0 < m < 2 ^ k → Zdigits2 m <= k.
Proof.
  intros Hk Hm. destruct m as [|p|p]; [lia| |lia]. pose proof (digits_bounds p).
  destruct (Z.le_gt_cases (Zdigits2 (Z.pos p)) k) as [|Hlt]; [done|].
  assert (2 ^ k <= 2 ^ (Zdigits2 (Z.pos p) - 1)) by (apply Z.pow_le_mono_r; lia). lia.
Qed.

Lemma shr_1_div r : 0 <= shr_m r → shr_m (shr_1 r) = shr_m r / 2.
Proof. rewrite <- Z.div2_div. destruct r as [[|[p|p|]|p] r s]; intros H; [done..|]. cbn in H. lia. Qed.

Lemma shr_iter n r : 0 <= shr_m r → shr_m (iter_pos shr_1 n r) = shr_m r / 2 ^ Zpos n.
Proof.
  assert (Hd : ∀ m a, 0 <= m → 0 <= m / 2 ^ Z.pos a) by (intros; apply Z.div_pos; lia).
  revert r. induction n as [n IH|n IH|]; intros r Hr; cbn [iter_pos].
  - assert (H1 : shr_m (shr_1 r) = shr_m r / 2 ^ 1) by by apply shr_1_div.
    assert (0 <= shr_m (shr_1 r)) by (rewrite H1; apply Hd, Hr).
    assert (H2 := IH (shr_1 r) ltac:(done)). rewrite IH by (rewrite H2; by apply Hd). rewrite H2, H1, !Z.div_div by lia.
    f_equal. rewrite <- !Z.pow_add_r by lia. f_equal. lia.
  - assert (H2 := IH r Hr). rewrite IH by (rewrite H2; by apply Hd). rewrite H2, Z.div_div by lia.
    f_equal. rewrite <- Z.pow_add_r by lia. f_equal. lia.
  - by apply shr_1_div.
Qed.

Lemma round_near m l : round_nearest_even m l = m ∨ round_nearest_even m l = m + 1.
Proof. destruct l as [|[]]; cbn; auto. destruct (Z.even m); auto. Qed.

Lemma shr_fexp_eq m e l :
  shr_fexp 53 1024 m e l = shr (shr_record_of_loc m l) e (Z.max (Zdigits2 m - 53) (-1074 - e)).
Proof.
  transitivity (shr (shr_record_of_loc m l) e (Z.max (Zdigits2 m + e - 53) (-1074) - e)); [done|]. f_equal. lia.
Qed.

(** The result of rounding a positive number [p * 2 ^ e] of any size in range:
    one of the two neighbours on the grid of 53 digits, itself if it has no more
    than 53. *)
Lemma round_aux p e : -1074 <= e → Zdigits2 (Zpos p) + e <= 900 →
  let k := Z.max 0 (Zdigits2 (Zpos p) - 53) in
  ∃ q m e', binary_round_aux 53 1024 false (Zpos p) e loc_Exact = S754_finite false m e' ∧
    (q = Zpos p / 2 ^ k ∨ k ≠ 0 ∧ q = Zpos p / 2 ^ k + 1) ∧
    (Zpos m = q ∧ e' = e + k ∨ q = 2 ^ 53 ∧ Zpos m = 2 ^ 52 ∧ e' = e + k + 1).
Proof.
  intros He Hd k. pose proof (digits_bounds p) as Hp. remember (Zdigits2 (Zpos p)) as d eqn:Ed.
  assert (Hkd : k = Z.max 0 (d - 53)) by done. clearbody k.
  assert (Hd1 : 1 <= d) by (rewrite Ed; cbn [Zdigits2]; lia).
  assert (H1 : ∃ r, shr_fexp 53 1024 (Zpos p) e loc_Exact = (r, e + k) ∧ shr_m r = Zpos p / 2 ^ k ∧
    (k = 0 → loc_of_shr_record r = loc_Exact)).
  { rewrite shr_fexp_eq, <- Ed. cbn [shr_record_of_loc].
    destruct (Z.max (d - 53) (-1074 - e)) as [|n|n] eqn:E; cbn [shr].
    - replace k with 0 by lia. eexists. rewrite Z.add_0_r, Z.div_1_r. done.
    - replace k with (Zpos n) by lia. eexists. split; [reflexivity|]. split; [by apply shr_iter|done].
    - replace k with 0 by lia. eexists. rewrite Z.add_0_r, Z.div_1_r. done. }
  destruct H1 as (r & Er & Hm & Hx). unfold binary_round_aux. rewrite Er.
  set (q := round_nearest_even (shr_m r) (loc_of_shr_record r)).
  assert (Hq : q = Zpos p / 2 ^ k ∨ k ≠ 0 ∧ q = Zpos p / 2 ^ k + 1).
  { destruct (decide (k = 0)) as [Hk|Hk]; subst q; [rewrite Hx by done; cbn; by left|].
    rewrite <- Hm. destruct (round_near (shr_m r) (loc_of_shr_record r)); auto. }
  assert (Hk0 : 0 < 2 ^ k) by (apply Z.pow_pos_nonneg; lia).
  assert (Hlo : 1 <= Zpos p / 2 ^ k).
  { apply Z.div_le_lower_bound; [done|]. transitivity (2 ^ (d - 1)); [|lia]. rewrite Z.mul_1_r.
    destruct (decide (d <= 53)) as [|]; [replace k with 0 by lia; apply (Z.pow_le_mono_r 2 0); lia|].
    apply Z.pow_le_mono_r; lia. }
  assert (Hhi : Zpos p / 2 ^ k < 2 ^ 53).
  { apply Z.div_lt_upper_bound; [done|]. rewrite <- Z.pow_add_r by lia.
    apply Z.lt_le_trans with (2 ^ d); [lia|]. apply Z.pow_le_mono_r; lia. }
  destruct q as [|m|m] eqn:Eq; [lia| |lia]. fold q.
  rewrite shr_fexp_eq. cbn [shr_record_of_loc].
  destruct (decide (Zpos m = 2 ^ 53)) as [E53|N53].
  - assert (m = (2 ^ 53)%positive) as -> by lia. change (Zdigits2 (Z.pos (2 ^ 53))) with 54.
    replace (Z.max (54 - 53) (-1074 - (e + k))) with 1 by lia.
    exists (2 ^ 53), (2 ^ 52)%positive, (e + k + 1). change (shr _ (e + k) 1) with (Build_shr_record (Zpos (2 ^ 52)) false false, e + k + 1).
    cbn [shr_m]. rewrite (proj2 (Z.leb_le _ _)) by lia. split; [done|]. split; [lia|]. right. done.
  - pose proof (digits_le (Zpos m) 53 ltac:(lia) ltac:(lia)) as Hdm.
    replace (shr _ _ _) with (Build_shr_record (Zpos m) false false, e + k).
    2: { assert (Hle : Z.max (Zdigits2 (Zpos m) - 53) (-1074 - (e + k)) <= 0) by lia.
         destruct (Z.max (Zdigits2 (Zpos m) - 53) (-1074 - (e + k))); [reflexivity|lia|reflexivity]. }
    cbn [shr_m]. rewrite (proj2 (Z.leb_le _ _)) by lia. exists (Zpos m), m, (e + k). split; [done|]. split; [lia|]. by left.
Qed.

(** ** Integers *)

Lemma num_of_pos n : Zpos n < 2 ^ 53 →
  ∃ m, num_of_Z (Zpos n) = S754_finite false m (Zdigits2 (Zpos n) - 53) ∧
    Zpos m = Zpos n * 2 ^ (53 - Zdigits2 (Zpos n)) ∧ 2 ^ 52 <= Zpos m < 2 ^ 53.
Proof.
  intros Hn. pose proof (digits_bounds n) as Hb. pose proof (digits_le (Zpos n) 53 ltac:(lia) ltac:(lia)) as Hd.
  remember (Zdigits2 (Zpos n)) as d eqn:Ed.
  assert (1 <= d) by (rewrite Ed; cbn [Zdigits2]; lia).
  assert (∃ z, shl_align n 0 (fexp 53 1024 (Zpos (digits2_pos n) + 0)) = (z, d - 53) ∧ Zpos z = Zpos n * 2 ^ (53 - d))
    as (z & Ez & Hz).
  { cbn [Zdigits2] in Ed. rewrite <- Ed. unfold shl_align.
    replace (fexp 53 1024 (d + 0) - 0) with (d - 53) by (unfold fexp, emin; lia).
    destruct (d - 53) as [|k|k] eqn:Ek; [|lia|].
    - exists n. split; [done|]. replace (53 - d) with 0 by lia. lia.
    - exists (shift_pos k n). split; [f_equal; unfold fexp, emin; lia|].
      rewrite shift_pos_correct. replace (53 - d) with (Zpos k) by lia. rewrite Z.pow_pos_fold. lia. }
  unfold num_of_Z, binary_normalize, binary_round. rewrite Ez.
  assert (Hz53 : 2 ^ 52 <= Zpos z < 2 ^ 53).
  { rewrite Hz. split.
    - replace 52 with (d - 1 + (53 - d)) by lia. rewrite Z.pow_add_r by lia. apply Z.mul_le_mono_nonneg_r; [|lia].
      apply Z.pow_nonneg. lia.
    - replace (2 ^ 53) with (2 ^ d * 2 ^ (53 - d)) by (rewrite <- Z.pow_add_r by lia; f_equal; lia).
      apply Z.mul_lt_mono_pos_r; [apply Z.pow_pos_nonneg; lia|lia]. }
  pose proof (digits_le (Zpos z) 53 ltac:(lia) ltac:(lia)) as Hdz.
  destruct (round_aux z (d - 53) ltac:(lia) ltac:(lia)) as (q & m & e' & -> & Hq & Hm).
  replace (Z.max 0 _) with 0 in * by lia. rewrite Z.div_1_r in Hq.
  destruct Hq as [->|[? _]]; [|lia]. destruct Hm as [[Hm ->]|[? _]]; [|lia].
  exists m. split_and!; [f_equal; lia|lia|lia|lia].
Qed.

(** ** The default fee *)

Lemma ceil_neg m e c : 0 < e → (c - 1) * 2 ^ e < Zpos m <= c * 2 ^ e →
  num_ceil (S754_finite false m (- e)) = Some c.
Proof.
  intros He Hm. cbn [num_ceil]. rewrite (proj2 (Z.leb_gt _ _)), Z.opp_involutive by lia. f_equal.
  assert (0 < 2 ^ e) by (apply Z.pow_pos_nonneg; lia).
  change (- Z.pos m) with (Z.neg m). assert (Z.neg m / 2 ^ e = - c); [|lia].
  symmetry. apply Z.div_unique with (c * 2 ^ e - Zpos m); lia.
Qed.

(** The arithmetic of rounding the product of 2.01 and [n]: [q] is one of the two
    neighbours of [p / K] and [p / K] is the product scaled by [E]. *)
Lemma fee_bounds n p K E q : 0 < n < 2 ^ 30 → 0 < K → 2 ^ 21 <= E → p * 2 ^ 51 = 4526117625507348 * n * (K * E) →
  q = p / K ∨ q = p / K + 1 →
  let c := (201 * n + 99) / 100 in (c - 1) * E < q <= c * E.
Proof.
  intros Hn HK HE Hp Hq c.
  assert (Hc : 100 * (c - 1) <= 201 * n - 1 ∧ 201 * n <= 100 * c).
  { pose proof (Z_div_mod_eq_full (201 * n + 99) 100). pose proof (Z.mod_pos_bound (201 * n + 99) 100). lia. }
  assert (Hlo : ((c - 1) * E + 1) * K <= p).
  { apply Z.mul_le_mono_pos_r with (p := 2 ^ 51); [done|]. rewrite Hp.
    transitivity (K * (E * (4526117625507348 * n))); [|lia].
    replace (((c - 1) * E + 1) * K * 2 ^ 51) with (K * (E * ((c - 1) * 2 ^ 51) + 2 ^ 51)) by ring.
    apply Z.mul_le_mono_nonneg_l; [lia|]. assert (2 ^ 51 <= E * 2 ^ 30) by lia.
    assert ((c - 1) * 2 ^ 51 + 2 ^ 30 <= 4526117625507348 * n) by lia. nia. }
  assert (Hhi : p < c * E * K).
  { apply Z.mul_lt_mono_pos_r with (p := 2 ^ 51); [done|]. rewrite Hp.
    replace (c * E * K * 2 ^ 51) with (c * 2 ^ 51 * (K * E)) by ring. apply Z.mul_lt_mono_pos_r; [nia|lia]. }
  assert ((c - 1) * E + 1 <= p / K) by (apply Z.div_le_lower_bound; lia).
  assert (p / K < c * E) by (apply Z.div_lt_upper_bound; lia). lia.
Qed.

(** At the default fee rate the product of doubles rounds up to what the exact
    product rounds up to. *)
Lemma fee_exact n : 0 <= n < 2 ^ 30 → num_ceil (num_mul num_2_01 (num_of_Z n)) = Some ((201 * n + 99) / 100).
Proof.
  intros Hn. assert (Ef : num_2_01 = S754_finite false 4526117625507348 (-51)) by (vm_compute; reflexivity).
  destruct n as [|n|n]; [rewrite Ef; reflexivity| |lia]. destruct (num_of_pos n ltac:(lia)) as (m & -> & Hm & Hm53).
  pose proof (digits_le (Zpos n) 30 ltac:(lia) ltac:(lia)) as Hd.
  assert (Hd1 : 1 <= Zdigits2 (Zpos n)) by (cbn [Zdigits2]; lia). set (d := Zdigits2 (Zpos n)) in *. clearbody d.
  rewrite Ef. unfold num_mul, SFmul. cbn [xorb].
  remember (4526117625507348 * m)%positive as p eqn:Ep.
  assert (Hp : Zpos p = 4526117625507348 * Zpos m) by (subst p; lia). clear Ep.
  pose proof (digits_bounds p) as Hb. pose proof (digits_le (Zpos p) 106 ltac:(lia) ltac:(lia)) as HD.
  assert (HD1 : 105 <= Zdigits2 (Zpos p)).
  { destruct (Z.le_gt_cases 105 (Zdigits2 (Zpos p))) as [|Hlt]; [done|].
    assert (2 ^ Zdigits2 (Zpos p) <= 2 ^ 104) by (apply Z.pow_le_mono_r; lia). lia. }
  destruct (round_aux p (-51 + (d - 53)) ltac:(lia) ltac:(lia)) as (q & m' & e' & -> & Hq & Hm').
  set (D := Zdigits2 (Zpos p)) in *. clearbody D. replace (Z.max 0 (D - 53)) with (D - 53) in * by lia.
  pose (f := 157 - d - D). assert (Hf : 21 <= f) by (subst f; lia).
  assert (Hc := fee_bounds (Zpos n) (Zpos p) (2 ^ (D - 53)) (2 ^ f) q ltac:(lia) ltac:(apply Z.pow_pos_nonneg; lia)
    ltac:(apply Z.pow_le_mono_r; lia)).
  cbv zeta in Hc. specialize (Hc ltac:(rewrite Hp, Hm, <- Z.pow_add_r by lia; rewrite <- !Z.mul_assoc, <- Z.pow_add_r by lia;
    do 3 f_equal; subst f; lia) ltac:(destruct Hq as [|[_ ?]]; auto)).
  destruct Hm' as [[Hm' ->]|(Eq & Hm' & ->)].
  - replace (-51 + (d - 53) + (D - 53)) with (- f) by (subst f; lia). apply ceil_neg; lia.
  - replace (-51 + (d - 53) + (D - 53) + 1) with (- (f - 1)) by (subst f; lia). apply ceil_neg; [lia|].
    replace (2 ^ f) with (2 * 2 ^ (f - 1)) in Hc by (rewrite <- Z.pow_succ_r by lia; f_equal; lia). lia.
Qed.

(** A positive integer is true. *)
Lemma num_of_Z_truthy n : 0 < n < 2 ^ 53 → num_truthy (num_of_Z n) = true.
Proof. intros Hn. destruct n as [|p|p]; [lia| |lia]. destruct (num_of_pos p ltac:(lia)) as (m & -> & _). done. Qed.
