(* ===== verification/NodeBuffer.v ===== *)
(** * Node's Buffer

    The part of Node's [Buffer] class the sources use: indexed reads, slices,
    copies, and the fixed-width readers and writers with the [RangeError] they
    throw on a value or an offset out of range.  A buffer is the list of its
    bytes; a write returns the new contents.

    Writers that advance a shared [offset] are [writer]s, readers that do are
    [reader]s; [writes w bs] and [reads r bs a] are their contracts over an
    arbitrary surrounding buffer, and they compose. *)

From stdpp Require Import base tactics list numbers.
From S2P Require Import Prelude JsNumber.
Open Scope Z_scope.

(** ** Element access, slices, copies *)

(** [buffer[i]]; [None] is [undefined]. *)
Definition get (b : buffer) (i : Z) : option Z :=
  if 0 <=? i then b !! Z.to_nat i else None.

(** [buffer[i] === v] *)
Definition byte_is (b : buffer) (i v : Z) : bool :=
  match get b i with Some x => x =? v | None => false end.

(** A slice bound: negative bounds count from the end, both ends are clamped. *)
Definition clamp_index (len i : Z) : Z :=
  if i <? 0 then Z.max 0 (len + i) else Z.min i len.

(** [xs.slice(s, e)], of buffers and of arrays *)
Definition slice {A} (xs : list A) (s e : Z) : list A :=
  let n := Z.of_nat (length xs) in
  let s' := clamp_index n s in
  let e' := clamp_index n e in
  take (Z.to_nat (e' - s')) (drop (Z.to_nat s') xs).

(** [xs.slice(s)] *)
Definition slice_from {A} (xs : list A) (s : Z) : list A :=
  slice xs s (Z.of_nat (length xs)).

(** [a.equals(b)] *)
Definition buf_equals (a b : buffer) : bool := bool_decide (a = b).

Definition in_range (b : buffer) (off n : Z) : bool :=
  (0 <=? off) && (off + n <=? blen b).

(** Overwrites [blen bs] bytes of [b] from [off]. *)
Definition splice (b : buffer) (off : Z) (bs : buffer) : buffer :=
  take (Z.to_nat off) b ++ bs ++ drop (Z.to_nat (off + blen bs)) b.

(** [src.copy(b, off)]: copies what fits; the number of bytes copied comes second. *)
Definition copy (src b : buffer) (off : Z) : result (buffer * Z) :=
  if off <? 0 then Throw RangeError
  else if blen b <=? off then Ok (b, 0)
  else
    let n := Z.min (blen src) (blen b - off) in
    Ok (splice b off (take (Z.to_nat n) src), n).

(** [Buffer.alloc(n, v)] *)
Definition alloc (n v : Z) : buffer := replicate (Z.to_nat n) v.

(** [Buffer.allocUnsafe(n)] leaves the memory as it finds it: [mem] gives the
    bytes found there. *)
Class UninitMem := uninit_byte : nat → Z.
Definition allocUnsafe {Mem : UninitMem} (n : Z) : buffer :=
  map uninit_byte (seq 0 (Z.to_nat n)).

(** Memory that happens to be zero, for evaluation on concrete inputs. *)
Definition zero_mem : UninitMem := λ _, 0.

(** ** Fixed-width accessors *)

Definition readUIntLE (n : nat) (b : buffer) (off : Z) : result Z :=
  if in_range b off (Z.of_nat n)
  then Ok (le_val (take n (drop (Z.to_nat off) b)))
  else Throw RangeError.

Definition readUInt8 : buffer → Z → result Z := readUIntLE 1.
Definition readUInt16LE : buffer → Z → result Z := readUIntLE 2.
Definition readUInt32LE : buffer → Z → result Z := readUIntLE 4.

Definition readInt32LE (b : buffer) (off : Z) : result Z :=
  v ← readUInt32LE b off; Ok (to_int32 v).

Definition readUInt32BE (b : buffer) (off : Z) : result Z :=
  if in_range b off 4
  then Ok (be_val (take 4 (drop (Z.to_nat off) b)))
  else Throw RangeError.

Definition writeUIntLE (n : nat) (b : buffer) (v off : Z) : result buffer :=
  if (0 <=? v) && (v <? 256 ^ Z.of_nat n)
  then if in_range b off (Z.of_nat n)
       then Ok (splice b off (le_bytes n v))
       else Throw RangeError
  else Throw RangeError.

Definition writeUInt8 : buffer → Z → Z → result buffer := writeUIntLE 1.
Definition writeUInt16LE : buffer → Z → Z → result buffer := writeUIntLE 2.
Definition writeUInt32LE : buffer → Z → Z → result buffer := writeUIntLE 4.

Definition writeInt32LE (b : buffer) (v off : Z) : result buffer :=
  if (- 2 ^ 31 <=? v) && (v <? 2 ^ 31)
  then if in_range b off 4
       then Ok (splice b off (le_bytes 4 v))
       else Throw RangeError
  else Throw RangeError.

Definition writeUInt32BE (b : buffer) (v off : Z) : result buffer :=
  if (0 <=? v) && (v <? 2 ^ 32)
  then if in_range b off 4
       then Ok (splice b off (be_bytes 4 v))
       else Throw RangeError
  else Throw RangeError.

(** ** Closures over a buffer and an offset *)

(** A closure that writes at [offset] and advances it. *)
Definition writer : Type := buffer → Z → result (buffer * Z).

Definition wskip : writer := λ b off, Ok (b, off).
Definition wthen (w1 w2 : writer) : writer := λ b off,
  match w1 b off with
  | Ok (b', off') => w2 b' off'
  | Throw e => Throw e
  end.

(** [xs.forEach(f)] *)
Fixpoint wforEach {A} (f : A → writer) (xs : list A) : writer :=
  match xs with
  | [] => wskip
  | x :: xs' => wthen (f x) (wforEach f xs')
  end.

(** A closure that reads at [offset] and advances it. *)
Definition reader (A : Type) : Type := buffer → Z → result (A * Z).

#[export] Instance reader_ret : MRet reader := λ A a b off, Ok (a, off).
#[export] Instance reader_bind : MBind reader := λ A B k r b off,
  match r b off with
  | Ok (a, off') => k a b off'
  | Throw e => Throw e
  end.

(** [for (i = 0; i < n; ++i) push(r())] *)
Fixpoint rtimes {A} (r : reader A) (n : nat) : reader (list A) :=
  match n with
  | O => mret []
  | S n => x ← r; xs ← rtimes r n; mret (x :: xs)
  end.

Declare Scope writer_scope.
Delimit Scope writer_scope with writer.
Notation "w1 ;; w2" := (wthen w1 w2) (at level 100, right associativity) : writer_scope.

(** ** Contracts *)

Definition writes (w : writer) (bs : buffer) : Prop :=
  ∀ pre rest, blen bs <= blen rest →
    w (pre ++ rest) (blen pre)
    = Ok ((pre ++ bs) ++ drop (length bs) rest, blen (pre ++ bs)).

Definition reads {A} (r : reader A) (bs : buffer) (a : A) : Prop :=
  ∀ pre post, r (pre ++ bs ++ post) (blen pre) = Ok (a, blen (pre ++ bs)).

(** ** Slices *)

Lemma blen_allocUnsafe {Mem : UninitMem} n : 0 <= n → blen (allocUnsafe n) = n.
Proof. intros. unfold allocUnsafe, blen. rewrite length_map, length_seq. lia. Qed.

Lemma blen_alloc n v : 0 <= n → blen (alloc n v) = n.
Proof. intros. unfold alloc, blen. rewrite length_replicate. lia. Qed.

Lemma clamp_index_in n i : 0 <= i <= n → clamp_index n i = i.
Proof. intros. unfold clamp_index. split_ifs. Qed.

Lemma slice_in {A} (xs : list A) s e :
  0 <= s <= e → e <= Z.of_nat (length xs) →
  slice xs s e = take (Z.to_nat (e - s)) (drop (Z.to_nat s) xs).
Proof. intros. unfold slice. rewrite !clamp_index_in by lia. done. Qed.

(** A slice stops at the end of what there is. *)
Lemma slice_past {A} (xs : list A) s e :
  0 <= s <= Z.of_nat (length xs) → Z.of_nat (length xs) <= e →
  slice xs s e = drop (Z.to_nat s) xs.
Proof.
  intros. unfold slice. rewrite (clamp_index_in _ s) by lia.
  replace (clamp_index _ e) with (Z.of_nat (length xs)) by (unfold clamp_index; split_ifs).
  apply take_ge. rewrite length_drop. lia.
Qed.

Lemma slice_app (pre bs post : buffer) :
  slice (pre ++ bs ++ post) (blen pre) (blen pre + blen bs) = bs.
Proof.
  pose proof (blen_nonneg pre). pose proof (blen_nonneg bs).
  rewrite slice_in; unfold blen in *; rewrite ?length_app; try lia.
  rewrite Nat2Z.id, drop_app_length.
  replace (Z.to_nat _) with (length bs) by lia. apply take_app_length.
Qed.

Lemma slice_all {A} (xs : list A) : slice xs 0 (Z.of_nat (length xs)) = xs.
Proof. rewrite slice_in by lia. rewrite Z.sub_0_r, Nat2Z.id, drop_0. by apply take_ge. Qed.

Lemma slice_from_app (pre post : buffer) : slice_from (pre ++ post) (blen pre) = post.
Proof.
  unfold slice_from. rewrite slice_in by (unfold blen; rewrite ?length_app; lia).
  unfold blen. rewrite Nat2Z.id, drop_app_length.
  apply take_ge. rewrite length_app. lia.
Qed.

Lemma bytes_ok_slice xs s e : bytes_ok xs → bytes_ok (slice xs s e).
Proof. intros. unfold slice. auto with js. Qed.
#[export] Hint Resolve bytes_ok_slice : js.

(** [xs.slice(0, -1)] drops the last element. *)
Lemma slice_init {A} (xs : list A) x : slice (xs ++ [x]) 0 (-1) = xs.
Proof.
  unfold slice. rewrite length_app, Nat2Z.inj_add. cbn [length].
  replace (clamp_index _ 0) with 0 by (unfold clamp_index; split_ifs).
  replace (clamp_index _ (-1)) with (Z.of_nat (length xs)) by (unfold clamp_index; split_ifs).
  rewrite Z.sub_0_r, Nat2Z.id, drop_0. apply take_app_length.
Qed.

Lemma get_app_len (pre post : buffer) x : get (pre ++ x :: post) (blen pre) = Some x.
Proof.
  unfold get. rewrite (proj2 (Z.leb_le _ _)) by auto with js.
  unfold blen. rewrite Nat2Z.id. by apply list_lookup_middle.
Qed.

Lemma get_nonneg (b : buffer) i : 0 <= i → get b i = b !! Z.to_nat i.
Proof. intros. unfold get. by rewrite (proj2 (Z.leb_le _ _)). Qed.

Lemma byte_is_get b i v : byte_is b i v = true ↔ get b i = Some v.
Proof.
  unfold byte_is. destruct (get b i); [rewrite Z.eqb_eq|]; naive_solver.
Qed.

(** ** Writers *)

Lemma splice_app pre rest bs :
  splice (pre ++ rest) (blen pre) bs = (pre ++ bs) ++ drop (length bs) rest.
Proof.
  unfold splice. rewrite take_app_blen, <- app_assoc. do 2 f_equal.
  replace (Z.to_nat _) with (length pre + length bs)%nat by (unfold blen; lia).
  by rewrite <- drop_drop, drop_app_length.
Qed.

Lemma in_range_app pre rest n : 0 <= n <= blen rest → in_range (pre ++ rest) (blen pre) n = true.
Proof.
  intros. unfold in_range. rewrite blen_app.
  pose proof (blen_nonneg pre). apply andb_true_iff. rewrite !Z.leb_le. lia.
Qed.

Lemma blen_splice b off bs :
  0 <= off → off + blen bs <= blen b → blen (splice b off bs) = blen b.
Proof.
  intros. unfold splice, blen in *. rewrite !length_app, length_take, length_drop. lia.
Qed.

Lemma writes_skip : writes wskip [].
Proof. intros pre rest _. unfold wskip. by rewrite app_nil_r. Qed.

Lemma writes_then w1 w2 b1 b2 :
  writes w1 b1 → writes w2 b2 → writes (wthen w1 w2) (b1 ++ b2).
Proof.
  intros H1 H2 pre rest Hlen. rewrite blen_app in Hlen.
  pose proof (blen_nonneg b1). pose proof (blen_nonneg b2).
  unfold wthen. rewrite H1 by lia. rewrite H2.
  - by rewrite drop_drop, <- !app_assoc, length_app.
  - unfold blen in *. rewrite length_drop. lia.
Qed.

Lemma writes_forEach {A} (f : A → writer) (g : A → buffer) xs :
  Forall (λ x, writes (f x) (g x)) xs → writes (wforEach f xs) (concat (map g xs)).
Proof.
  induction 1; cbn; [apply writes_skip|]. by apply writes_then.
Qed.

(** A writer that fills a buffer exactly leaves only what it wrote. *)
Lemma writes_fill w bs b : writes w bs → blen b = blen bs → w b 0 = Ok (bs, blen bs).
Proof.
  intros H E. specialize (H [] b). cbn [app] in H. rewrite blen_nil in H. rewrite H by lia.
  rewrite drop_ge, app_nil_r; [done|]. unfold blen in E. lia.
Qed.

(** The same behind a prefix that is already written. *)
Lemma writes_fill_at w bs pre rest : writes w bs → blen rest = blen bs →
  w (pre ++ rest) (blen pre) = Ok (pre ++ bs, blen (pre ++ bs)).
Proof.
  intros H E. rewrite H by lia. rewrite drop_ge, app_nil_r; [done|]. unfold blen in E. lia.
Qed.

Lemma writeUIntLE_app n pre rest v :
  0 <= v < 256 ^ Z.of_nat n → Z.of_nat n <= blen rest →
  writeUIntLE n (pre ++ rest) v (blen pre) = Ok ((pre ++ le_bytes n v) ++ drop n rest).
Proof.
  intros Hv Hn. unfold writeUIntLE.
  rewrite (proj2 (Z.leb_le _ _)), (proj2 (Z.ltb_lt _ _)) by lia. cbn [andb].
  rewrite in_range_app by lia. by rewrite splice_app, length_le_bytes.
Qed.

Lemma writeUInt8_first x rest v : 0 <= v < 256 → writeUInt8 (x :: rest) v 0 = Ok (v :: rest).
Proof.
  intros Hv. pose proof (writeUIntLE_app 1 [] (x :: rest) v) as W. rewrite blen_nil in W. cbn [app drop] in W.
  unfold writeUInt8. rewrite W by (rewrite ?blen_cons; pose proof (blen_nonneg rest); cbn; lia).
  cbn [le_bytes app]. by rewrite Z.mod_small.
Qed.

Lemma writeInt32LE_app pre rest v :
  - 2 ^ 31 <= v < 2 ^ 31 → 4 <= blen rest →
  writeInt32LE (pre ++ rest) v (blen pre) = Ok ((pre ++ le_bytes 4 v) ++ drop 4 rest).
Proof.
  intros Hv Hn. unfold writeInt32LE.
  rewrite (proj2 (Z.leb_le _ _)), (proj2 (Z.ltb_lt _ _)) by lia. cbn [andb].
  rewrite in_range_app by lia. by rewrite splice_app, length_le_bytes.
Qed.

Lemma copy_app s pre rest : blen s <= blen rest →
  copy s (pre ++ rest) (blen pre) = Ok ((pre ++ s) ++ drop (length s) rest, blen s).
Proof.
  intros H. unfold copy. pose proof (blen_nonneg pre). pose proof (blen_nonneg s).
  rewrite (proj2 (Z.ltb_ge _ _)), blen_app by lia.
  destruct (Z.leb_spec (blen pre + blen rest) (blen pre)).
  - rewrite (blen_0_nil s), (blen_0_nil rest) by lia. cbn. by rewrite !app_nil_r.
  - rewrite Z.min_l by lia. rewrite take_ge by (unfold blen; lia). by rewrite splice_app.
Qed.

(** What a read returns fits its width. *)
Lemma readUIntLE_range n b off v :
  bytes_ok b → readUIntLE n b off = Ok v → 0 <= v < 256 ^ Z.of_nat n.
Proof.
  intros Hok. unfold readUIntLE, in_range. destruct (_ && _) eqn:E; [|discriminate]. intros [= <-].
  bool_facts. pose proof (le_val_bound (take n (drop (Z.to_nat off) b)) ltac:(auto with js)) as L.
  replace (blen (take n (drop (Z.to_nat off) b))) with (Z.of_nat n) in L; [done|].
  unfold blen in *. rewrite length_take, length_drop. lia.
Qed.

Definition wUIntLE (n : nat) (v : Z) : writer := λ b off,
  b' ← writeUIntLE n b v off; Ok (b', off + Z.of_nat n).

Lemma writes_uint n v : 0 <= v < 256 ^ Z.of_nat n → writes (wUIntLE n v) (le_bytes n v).
Proof.
  intros Hv pre rest Hlen. rewrite blen_le_bytes in Hlen. unfold wUIntLE.
  rewrite writeUIntLE_app by done. cbn [mbind result_bind].
  by rewrite length_le_bytes, blen_app, blen_le_bytes.
Qed.

Lemma writes_ext w w' bs : (∀ b off, w b off = w' b off) → writes w bs → writes w' bs.
Proof. intros E H pre rest Hl. rewrite <- E. by apply H. Qed.

#[export] Hint Resolve writes_skip writes_then writes_forEach writes_uint : js.

(** ** Readers *)

Lemma reads_ret {A} (a : A) : reads (mret a) [] a.
Proof. intros pre post. cbn. by rewrite app_nil_r. Qed.

Lemma reads_bind {A B} (r : reader A) (k : A → reader B) b1 b2 a b :
  reads r b1 a → reads (k a) b2 b → reads (r ≫= k) (b1 ++ b2) b.
Proof.
  intros H1 H2 pre post. unfold mbind, reader_bind.
  rewrite <- app_assoc, H1. rewrite (app_assoc pre), H2. by rewrite <- app_assoc.
Qed.

Lemma rbind_inv {A B} (r : reader A) (k : A → reader B) b off c :
  (r ≫= k) b off = Ok c → ∃ a off1, r b off = Ok (a, off1) ∧ k a b off1 = Ok c.
Proof. unfold mbind, reader_bind. destruct (r b off) as [[a off1]|]; [eauto|discriminate]. Qed.

Lemma reads_times {A} (r : reader A) (g : A → buffer) xs :
  Forall (λ x, reads r (g x) x) xs → reads (rtimes r (length xs)) (concat (map g xs)) xs.
Proof.
  induction 1 as [|x xs Hx _ IH]; cbn [rtimes length map concat]; [apply reads_ret|].
  eapply reads_bind; [done|]. rewrite <- (app_nil_r (concat _)).
  eapply reads_bind; [done|]. apply reads_ret.
Qed.

Lemma readUIntLE_app n pre bs post : length bs = n →
  readUIntLE n (pre ++ bs ++ post) (blen pre) = Ok (le_val bs).
Proof.
  intros <-. unfold readUIntLE. rewrite in_range_app.
  - by rewrite drop_app_blen, take_app_length.
  - rewrite blen_app. pose proof (blen_nonneg post). unfold blen. lia.
Qed.

Lemma readUInt8_app pre b post :
  readUInt8 (pre ++ b :: post) (blen pre) = Ok b.
Proof.
  unfold readUInt8. change (b :: post) with ([b] ++ post).
  rewrite readUIntLE_app by done. cbn. f_equal. lia.
Qed.

Lemma readUIntLE_app1 k pre b bs post : length bs = k →
  readUIntLE k (pre ++ b :: bs ++ post) (blen pre + 1) = Ok (le_val bs).
Proof.
  intros. rewrite (cons_middle b pre), app_assoc.
  replace (blen pre + 1) with (blen (pre ++ [b])) by (rewrite blen_app; done).
  by apply readUIntLE_app.
Qed.

Definition rUIntLE (n : nat) : reader Z := λ b off,
  v ← readUIntLE n b off; Ok (v, off + Z.of_nat n).

Lemma reads_uint n v : 0 <= v < 256 ^ Z.of_nat n → reads (rUIntLE n) (le_bytes n v) v.
Proof.
  intros Hv pre post. unfold rUIntLE.
  rewrite readUIntLE_app by apply length_le_bytes. cbn [mbind result_bind].
  by rewrite le_val_le_bytes_small, blen_app, blen_le_bytes.
Qed.

(** ** Signed words and slices *)

Definition wInt32 (v : Z) : writer := λ b off, b' ← writeInt32LE b v off; Ok (b', off + 4).
Definition rInt32 : reader Z := λ b off, v ← readInt32LE b off; Ok (v, off + 4).

(** [offset += slice.copy(buffer, offset)] *)
Definition wSlice (s : buffer) : writer := λ b off, '(b', n) ← copy s b off; Ok (b', off + n).
(** [offset += n; return buffer.slice(offset - n, offset)] *)
Definition rSlice (n : Z) : reader buffer := λ b off, Ok (slice b off (off + n), off + n).

Lemma writes_int32 v : - 2 ^ 31 <= v < 2 ^ 31 → writes (wInt32 v) (le_bytes 4 v).
Proof.
  intros Hv pre rest Hlen. rewrite blen_le_bytes in Hlen. unfold wInt32.
  rewrite writeInt32LE_app by lia. cbn [mbind result_bind].
  by rewrite blen_app, blen_le_bytes, length_le_bytes.
Qed.

Lemma to_int32_unsigned v : - 2 ^ 31 <= v < 2 ^ 31 → to_int32 (v mod 2 ^ 32) = v.
Proof.
  intros Hv. rewrite <- (to_int32_small v Hv) at 2. apply to_int32_congr. by rewrite Z.mod_mod by lia.
Qed.

Lemma reads_int32 v : - 2 ^ 31 <= v < 2 ^ 31 → reads rInt32 (le_bytes 4 v) v.
Proof.
  intros Hv pre post. unfold rInt32, readInt32LE, readUInt32LE.
  rewrite readUIntLE_app by apply length_le_bytes. cbn [mbind result_bind].
  rewrite le_val_le_bytes. change (256 ^ Z.of_nat 4) with (2 ^ 32).
  by rewrite to_int32_unsigned, blen_app, blen_le_bytes.
Qed.

Lemma writes_slice s : writes (wSlice s) s.
Proof.
  intros pre rest Hlen. unfold wSlice. rewrite copy_app by done. cbn [mbind result_bind].
  by rewrite blen_app.
Qed.

Lemma reads_slice bs n : blen bs = n → reads (rSlice n) bs bs.
Proof. intros <- pre post. unfold rSlice. by rewrite slice_app, blen_app. Qed.

#[export] Hint Resolve writes_int32 writes_slice reads_int32 reads_slice : js.

(** ** Writes and reads at a known offset *)

Lemma writeUInt32BE_at pre rest v off : blen pre = off → 0 <= v < 2 ^ 32 → 4 <= blen rest →
  writeUInt32BE (pre ++ rest) v off = Ok ((pre ++ be_bytes 4 v) ++ drop 4 rest).
Proof.
  intros <- Hv Hn. unfold writeUInt32BE. rewrite (proj2 (Z.leb_le _ _)), (proj2 (Z.ltb_lt _ _)) by lia. cbn [andb].
  rewrite in_range_app by lia. by rewrite splice_app.
Qed.

Lemma writeUInt8_at pre rest v off : blen pre = off → 0 <= v < 256 → 1 <= blen rest →
  writeUInt8 (pre ++ rest) v off = Ok ((pre ++ [v]) ++ drop 1 rest).
Proof.
  intros <- Hv Hn. unfold writeUInt8. rewrite writeUIntLE_app by (cbn; lia).
  cbn [le_bytes]. by rewrite Z.mod_small.
Qed.

Lemma copy_at s pre rest off : blen pre = off → blen s <= blen rest →
  copy s (pre ++ rest) off = Ok ((pre ++ s) ++ drop (length s) rest, blen s).
Proof. intros <-. apply copy_app. Qed.

Lemma readUInt32BE_at pre v post off : blen pre = off → 0 <= v < 2 ^ 32 →
  readUInt32BE (pre ++ be_bytes 4 v ++ post) off = Ok v.
Proof.
  intros <- Hv. unfold readUInt32BE.
  rewrite in_range_app by (rewrite blen_app, blen_be_bytes; pose proof (blen_nonneg post); lia).
  rewrite drop_app_blen. replace 4%nat with (length (be_bytes 4 v)) at 1
    by (unfold be_bytes; by rewrite length_reverse, length_le_bytes).
  rewrite take_app_length, be_val_be_bytes. by rewrite Z.mod_small.
Qed.

Lemma slice_at pre s post a b : blen pre = a → a + blen s = b → slice (pre ++ s ++ post) a b = s.
Proof. intros <- <-. apply slice_app. Qed.
