(* ===== verification/PushData.v ===== *)
(** * pushdata-ecash: the length prefix of a script push

    [web/pushdata-ecash/index.js]: a push of [n] bytes is announced by one, two,
    three or five bytes.  [prefix] is the prefix as a byte string; [encode]
    writes exactly it, and [decode] reads it back. *)

From stdpp Require Import base tactics list numbers strings.
From S2P Require Import Prelude JsNumber NodeBuffer Opcodes.
Open Scope Z_scope.

Module PushData.

Definition encodingLength (i : Z) : Z :=
  if i <? OP_PUSHDATA1 then 1
  else if i <=? 0xff then 2
  else if i <=? 0xffff then 3
  else 5.

(** [encode(buffer, number, offset)]: the buffer after the writes, and the size returned. *)
Definition encode (buf : buffer) (number offset : Z) : result (buffer * Z) :=
  let size := encodingLength number in
  if size =? 1 then
    b ← writeUInt8 buf number offset;
    Ok (b, size)
  else if size =? 2 then
    b ← writeUInt8 buf OP_PUSHDATA1 offset;
    b ← writeUInt8 b number (offset + 1);
    Ok (b, size)
  else if size =? 3 then
    b ← writeUInt8 buf OP_PUSHDATA2 offset;
    b ← writeUInt16LE b number (offset + 1);
    Ok (b, size)
  else
    b ← writeUInt8 buf OP_PUSHDATA4 offset;
    b ← writeUInt32LE b number (offset + 1);
    Ok (b, size).

Record decoded := { d_opcode : Z; d_number : Z; d_size : Z }.

(** [decode(buffer, offset)]; [None] is [null]. *)
Definition decode (buf : buffer) (offset : Z) : result (option decoded) :=
  opcode ← readUInt8 buf offset;
  if opcode <? OP_PUSHDATA1 then
    Ok (Some {| d_opcode := opcode; d_number := opcode; d_size := 1 |})
  else if opcode =? OP_PUSHDATA1 then
    if blen buf <? offset + 2 then Ok None
    else
      number ← readUInt8 buf (offset + 1);
      Ok (Some {| d_opcode := opcode; d_number := number; d_size := 2 |})
  else if opcode =? OP_PUSHDATA2 then
    if blen buf <? offset + 3 then Ok None
    else
      number ← readUInt16LE buf (offset + 1);
      Ok (Some {| d_opcode := opcode; d_number := number; d_size := 3 |})
  else
    if blen buf <? offset + 5 then Ok None
    else if negb (opcode =? OP_PUSHDATA4) then Throw (Error "Unexpected opcode")
    else
      number ← readUInt32LE buf (offset + 1);
      Ok (Some {| d_opcode := opcode; d_number := number; d_size := 5 |}).

(** ** Specification: the prefix of a push of [n] bytes *)

Definition prefix (n : Z) : buffer :=
  if n <? 76 then [n]
  else if n <? 2 ^ 8 then 76 :: le_bytes 1 n
  else if n <? 2 ^ 16 then 77 :: le_bytes 2 n
  else 78 :: le_bytes 4 n.

(** ** Lemmas *)

Lemma blen_prefix n : blen (prefix n) = encodingLength n.
Proof.
  unfold prefix, encodingLength, OP_PUSHDATA1. split_ifs; done.
Qed.
#[export] Hint Rewrite blen_prefix : blen.

Lemma encodingLength_pos n : 1 <= encodingLength n <= 5.
Proof. unfold encodingLength. split_ifs. Qed.

Lemma bytes_ok_prefix n : 0 <= n → bytes_ok (prefix n).
Proof.
  intros. unfold prefix.
  split_ifs; rewrite bytes_ok_cons; unfold is_byte; (split; [lia | auto with js]).
Qed.

(** Two writes in sequence behind [pre]: the opcode byte, then the number. *)
Lemma write_op_number (op n : Z) (k : nat) pre rest (size : Z) :
  0 <= op < 256 → 0 <= n < 256 ^ Z.of_nat k → 1 + Z.of_nat k <= blen rest →
  (b ← writeUInt8 (pre ++ rest) op (blen pre);
   b ← writeUIntLE k b n (blen pre + 1);
   Ok (b, size))
  = Ok ((pre ++ op :: le_bytes k n) ++ drop (S k) rest, size).
Proof.
  intros Hop Hn Hk. unfold writeUInt8. rewrite writeUIntLE_app by lia. cbn [mbind result_bind].
  replace (blen pre + 1) with (blen (pre ++ le_bytes 1 op))
    by (rewrite blen_app, blen_le_bytes; lia).
  rewrite writeUIntLE_app.
  - cbn [mbind result_bind le_bytes]. rewrite Z.mod_small by lia.
    by rewrite drop_drop, <- (app_assoc pre [op]).
  - lia.
  - unfold blen in *. rewrite length_drop. lia.
Qed.

Lemma encode_app n pre rest :
  0 <= n < 2 ^ 32 → encodingLength n <= blen rest →
  encode (pre ++ rest) n (blen pre)
  = Ok ((pre ++ prefix n) ++ drop (length (prefix n)) rest, encodingLength n).
Proof.
  intros Hn Hlen. unfold encode, prefix, encodingLength, OP_PUSHDATA1 in *.
  unfold writeUInt16LE, writeUInt32LE.
  repeat split_if; cbn [Z.eqb Pos.eqb] in *; try lia.
  - unfold writeUInt8. rewrite writeUIntLE_app by lia. cbn. by rewrite Z.mod_small by lia.
  - by rewrite (write_op_number 76 n 1) by lia.
  - by rewrite (write_op_number _ n 2) by (unfold OP_PUSHDATA2; lia).
  - by rewrite (write_op_number _ n 4) by (unfold OP_PUSHDATA4; lia).
Qed.

Lemma decode_app n pre post :
  0 <= n < 2 ^ 32 →
  decode (pre ++ prefix n ++ post) (blen pre)
  = Ok (Some {| d_opcode := hd 0 (prefix n); d_number := n; d_size := encodingLength n |}).
Proof.
  intros Hn. unfold decode, prefix, encodingLength.
  unfold OP_PUSHDATA1, OP_PUSHDATA2, OP_PUSHDATA4, readUInt16LE, readUInt32LE.
  pose proof (blen_nonneg pre). pose proof (blen_nonneg post).
  destruct (Z.ltb_spec n 76); [|destruct (Z.ltb_spec n (2 ^ 8)); [|destruct (Z.ltb_spec n (2 ^ 16))]];
    cbn [app]; rewrite readUInt8_app; cbn [mbind result_bind hd].
  - by rewrite (proj2 (Z.ltb_lt _ _)) by lia.
  - change (76 <? 76) with false; change (76 =? 76) with true; cbn iota.
    rewrite (proj2 (Z.ltb_ge _ _)) by blen_lia. rewrite (proj2 (Z.leb_le n _)) by lia.
    unfold readUInt8. rewrite readUIntLE_app1 by apply length_le_bytes. cbn [mbind result_bind].
    by rewrite le_val_le_bytes_small by lia.
  - change (77 <? 76) with false; change (77 =? 76) with false; change (77 =? 77) with true; cbn iota.
    rewrite (proj2 (Z.ltb_ge _ _)) by blen_lia.
    rewrite (proj2 (Z.leb_gt n _)), (proj2 (Z.leb_le n _)) by lia.
    rewrite readUIntLE_app1 by apply length_le_bytes. cbn [mbind result_bind].
    by rewrite le_val_le_bytes_small by lia.
  - change (78 <? 76) with false; change (78 =? 76) with false; change (78 =? 77) with false.
    change (negb (78 =? 78)) with false; cbn iota.
    rewrite (proj2 (Z.ltb_ge _ _)) by blen_lia.
    rewrite !(proj2 (Z.leb_gt n _)) by lia.
    rewrite readUIntLE_app1 by apply length_le_bytes. cbn [mbind result_bind].
    by rewrite le_val_le_bytes_small by lia.
Qed.

(** What a successful [decode] read. *)
Lemma decode_inv pre rest d :
  bytes_ok rest → decode (pre ++ rest) (blen pre) = Ok (Some d) →
  0 <= d_number d < 2 ^ 32 ∧ encodingLength (d_number d) <= d_size d ∧
  ∃ hdr post, rest = hdr ++ post ∧ blen hdr = d_size d ∧ hd_error hdr = Some (d_opcode d) ∧
    ((d_size d = 1 ∧ hdr = [d_number d] ∧ d_number d < 76)
     ∨ (d_opcode d = 76 ∧ hdr = 76 :: le_bytes 1 (d_number d) ∧ d_number d < 2 ^ 8)
     ∨ (d_opcode d = 77 ∧ hdr = 77 :: le_bytes 2 (d_number d) ∧ d_number d < 2 ^ 16)
     ∨ (d_opcode d = 78 ∧ hdr = 78 :: le_bytes 4 (d_number d))).
Proof.
  intros Hok. destruct rest as [|op rest'].
  { rewrite app_nil_r. unfold decode, readUInt8, readUIntLE, in_range.
    rewrite (proj2 (Z.leb_gt (blen pre + _) _)) by lia. rewrite andb_false_r. discriminate. }
  apply bytes_ok_cons in Hok as [Hop Hok]. unfold is_byte in Hop.
  unfold decode. rewrite readUInt8_app. cbn [mbind result_bind].
  unfold OP_PUSHDATA1, OP_PUSHDATA2, OP_PUSHDATA4, readUInt8, readUInt16LE, readUInt32LE.
  rewrite !blen_app, !blen_cons.
  assert (Hsplit : ∀ k, Z.of_nat k <= blen rest' →
    ∃ w post, rest' = w ++ post ∧ length w = k ∧ bytes_ok w).
  { intros k Hk. exists (take k rest'), (drop k rest'). unfold blen in Hk.
    rewrite take_drop, length_take. split_and!; [done|lia|auto with js]. }
  assert (Hnum : ∀ k w, length w = k → bytes_ok w → 0 <= le_val w < 256 ^ Z.of_nat k ∧ le_bytes k (le_val w) = w).
  { intros k w <- Hw. split; [by apply le_val_bound|by apply le_bytes_le_val]. }
  destruct (Z.ltb_spec op 76) as [L|L].
  { intros [= <-]. cbn. split_and!; [lia|lia|unfold encodingLength, OP_PUSHDATA1; split_ifs|].
    exists [op], rest'. split_and!; [done|done|done|]. left. split_and!; [done|done|lia]. }
  destruct (Z.eqb_spec op 76) as [->|N1]; [|destruct (Z.eqb_spec op 77) as [->|N2]];
    (match goal with |- context [if ?x <? ?y then _ else _] => destruct (Z.ltb_spec x y) end; [discriminate|]);
    [destruct (Hsplit 1%nat) as (w & post & -> & Lw & Ow)
    |destruct (Hsplit 2%nat) as (w & post & -> & Lw & Ow)
    |destruct (Z.eqb_spec op 78) as [->|]; [|discriminate]; destruct (Hsplit 4%nat) as (w & post & -> & Lw & Ow)];
    try lia; rewrite readUIntLE_app1 by done; cbn [mbind result_bind negb]; intros [= <-];
    destruct (Hnum _ _ Lw Ow) as [B E]; cbn [d_number d_size d_opcode] in *;
    (split; [cbn in B; lia|]); (split; [unfold encodingLength, OP_PUSHDATA1; cbn in B; split_ifs|]);
    eexists (_ :: w), post; rewrite E; (split; [reflexivity|]); unfold blen; cbn [length]; rewrite Lw;
    (split; [lia|]); (split; [done|]); right;
    first [ left; split_and!; [done|done|cbn in B; lia]
          | right; left; split_and!; [done|done|cbn in B; lia]
          | right; right; split_and!; done ].
Qed.

(** A push opcode inside the buffer never makes [decode] throw. *)
Lemma decode_total pre op rest : op <= 78 → ∃ o, decode (pre ++ op :: rest) (blen pre) = Ok o.
Proof.
  intros Hop. pose proof (blen_nonneg pre).
  unfold decode, OP_PUSHDATA1, OP_PUSHDATA2, OP_PUSHDATA4. rewrite readUInt8_app. cbn [mbind result_bind].
  assert (R : ∀ k, blen pre + 1 + Z.of_nat k <= blen (pre ++ op :: rest) →
    ∃ v, readUIntLE k (pre ++ op :: rest) (blen pre + 1) = Ok v).
  { intros k Hk. unfold readUIntLE, in_range.
    rewrite !(proj2 (Z.leb_le _ _)) by lia. by eexists. }
  repeat split_if; try (by eexists); unfold readUInt8, readUInt16LE, readUInt32LE;
    [destruct (R 1%nat) as [v ->]|destruct (R 2%nat) as [v ->]|destruct (R 4%nat) as [v ->]];
    try lia; by eexists.
Qed.

Lemma pushdata_encode_range b n off :
  n < 0 ∨ 2 ^ 32 <= n → encode b n off = Throw RangeError.
Proof.
  intros Hn. unfold encode, encodingLength, OP_PUSHDATA1. destruct Hn as [Hn|Hn].
  - rewrite (proj2 (Z.ltb_lt _ _)) by lia. cbn [Z.eqb Pos.eqb]. unfold writeUInt8, writeUIntLE.
    by rewrite (proj2 (Z.leb_gt _ _)) by lia.
  - rewrite (proj2 (Z.ltb_ge _ _)), !(proj2 (Z.leb_gt _ _)) by lia. cbn [Z.eqb Pos.eqb].
    unfold writeUInt8 at 1, writeUIntLE. destruct (in_range b off (Z.of_nat 1)); [|done].
    cbn [mbind result_bind]. unfold writeUInt32LE, writeUIntLE.
    by rewrite (proj2 (Z.ltb_ge n _)), andb_false_r by lia.
Qed.

(** ** Properties *)

(** What [encode] writes, [decode] reads back, for every push length below 2^32 at
    every offset with room; bytes outside the prefix are left alone. *)
Theorem pushdata_roundtrip b n off :
  0 <= n < 2 ^ 32 → 0 <= off → off + encodingLength n <= blen b →
  ∃ b' op, encode b n off = Ok (b', encodingLength n) ∧
    decode b' off = Ok (Some {| d_opcode := op; d_number := n; d_size := encodingLength n |}) ∧
    take (Z.to_nat off) b' = take (Z.to_nat off) b ∧
    drop (Z.to_nat (off + encodingLength n)) b' = drop (Z.to_nat (off + encodingLength n)) b.
Proof.
  intros Hn Hoff Hroom. pose proof (encodingLength_pos n).
  destruct (split_at b off) as (pre & rest & -> & Hpre & Hrest); [lia|]. subst off.
  rewrite encode_app by lia. eexists _, _. split; [done|]. split.
  { rewrite <- app_assoc. by apply decode_app. }
  split; [by rewrite <- app_assoc, !take_app_blen|].
  rewrite <- (blen_prefix n), <- blen_app, drop_app_blen.
  unfold blen. rewrite Nat2Z.id, length_app. by rewrite <- drop_drop, drop_app_length.
Qed.

Lemma pushdata_roundtrip_witness :
  ∃ b' op, encode (replicate 8 0) 300 2 = Ok (b', 3) ∧
    decode b' 2 = Ok (Some {| d_opcode := op; d_number := 300; d_size := 3 |}) ∧
    take 2 b' = take 2 (replicate 8 0) ∧ drop 5 b' = drop 5 (replicate 8 0).
Proof. apply (pushdata_roundtrip (replicate 8 0) 300 2); vm_compute; intuition discriminate. Defined.

(** The prefix [encode] chooses is the shortest one: whatever byte string [decode]
    accepts as a push of [n] bytes is at least [encodingLength n] bytes long. *)
Theorem pushdata_shortest b off d :
  bytes_ok b → decode b off = Ok (Some d) → encodingLength (d_number d) <= d_size d.
Proof.
  intros Hok Hd. destruct (Z_lt_le_dec off 0) as [N|N]; [|destruct (Z_lt_le_dec (blen b) off) as [M|M]].
  1, 2: unfold decode, readUInt8, readUIntLE, in_range in Hd;
    replace ((0 <=? off) && (off + Z.of_nat 1 <=? blen b)) with false in Hd by
      (symmetry; apply andb_false_iff; rewrite !Z.leb_gt; lia); discriminate.
  destruct (split_at b off) as (pre & rest & -> & Hpre & Hrest); [lia|]. subst off.
  apply bytes_ok_app in Hok as [_ Hok]. by apply decode_inv in Hd as (_ & ? & _).
Qed.

Lemma pushdata_shortest_witness :
  encodingLength (d_number {| d_opcode := 78; d_number := 5; d_size := 5 |}) <= 5.
Proof.
  apply (pushdata_shortest [78; 5; 0; 0; 0] 0 {| d_opcode := 78; d_number := 5; d_size := 5 |});
    [repeat constructor; vm_compute; (discriminate || reflexivity)|reflexivity].
Defined.

(** A length that no prefix can carry is refused: [encode] throws a [RangeError] for
    every negative length and for every length from 2^32 on. *)
Theorem pushdata_encode_out_of_range b n off :
  n < 0 ∨ 2 ^ 32 <= n → encode b n off = Throw RangeError.
Proof. apply pushdata_encode_range. Qed.

Lemma pushdata_encode_out_of_range_witness : encode (replicate 8 0) (2 ^ 32) 0 = Throw RangeError.
Proof. apply pushdata_encode_out_of_range. right. vm_compute. discriminate. Defined.

End PushData.
