(* ===== verification/ScriptNumber.v ===== *)
(** * Script numbers

    [ecashjs-lib/src/script_number.js]: integers on the script stack, little
    endian with the sign in the top bit of the last byte.  [sm_val] is the
    value of such a byte string; [decode] computes it with 32-bit operators,
    and [encode] is its inverse below [2^32]. *)

From stdpp Require Import base tactics list numbers strings.
From S2P Require Import Prelude JsNumber NodeBuffer.
Open Scope Z_scope.

Module ScriptNumber.

(** [for (i...) result |= buffer[i] << (8 * i)] *)
Fixpoint decode_loop (bs : buffer) (i res : Z) : Z :=
  match bs with
  | [] => res
  | b :: bs' => decode_loop bs' (i + 1) (js_or res (js_shl b (8 * i)))
  end.

(** [decode(buffer, maxLength, minimal)]; [None] is an omitted argument. *)
Definition decode (buf : buffer) (maxLength : option Z) (minimal : option bool) : result Z :=
  let maxLength := match maxLength with Some m => if m =? 0 then 4 else m | None => 4 end in
  let minimal := default true minimal in
  let len := blen buf in
  if len =? 0 then Ok 0
  else if maxLength <? len then Throw (TypeError "Script number overflow")
  else if minimal && (js_and (bits_of (get buf (len - 1))) 0x7f =? 0)
          && ((len <=? 1) || (js_and (bits_of (get buf (len - 2))) 0x80 =? 0))
  then Throw (Error "Non-minimally encoded script number")
  else if len =? 5 then
    a ← readUInt32LE buf 0;
    b ← readUInt8 buf 4;
    if truthy (js_and b 0x80)
    then Ok (- (js_and b (js_not 0x80) * 0x100000000 + a))
    else Ok (b * 0x100000000 + a)
  else
    let res := decode_loop buf 0 0 in
    if truthy (js_and (bits_of (get buf (len - 1))) 0x80)
    then Ok (- (js_and res (js_not (js_shl 0x80 (8 * (len - 1))))))
    else Ok res.

Definition scriptNumSize (i : Z) : Z :=
  if 0x7fffffff <? i then 5
  else if 0x7fffff <? i then 4
  else if 0x7fff <? i then 3
  else if 0x7f <? i then 2
  else if 0x00 <? i then 1
  else 0.

(** [for (i...) { buffer.writeUInt8(value & 0xff, i); value >>= 8 }] *)
Fixpoint encode_loop (k : nat) (i value : Z) (buf : buffer) : result buffer :=
  match k with
  | O => Ok buf
  | S k =>
      b ← writeUInt8 buf (js_and value 0xff) i;
      encode_loop k (i + 1) (js_shr value 8) b
  end.

(** [buffer[i] = v] on a byte array: out of range nothing is stored. *)
Definition set_byte (buf : buffer) (i v : Z) : buffer :=
  if in_range buf i 1 then splice buf i [v mod 256] else buf.

Definition encode {Mem : UninitMem} (number : Z) : result buffer :=
  let value := Z.abs number in
  let size := scriptNumSize value in
  let buf := allocUnsafe size in
  let negative := number <? 0 in
  b ← encode_loop (Z.to_nat size) 0 value buf;
  if truthy (js_and (bits_of (get b (size - 1))) 0x80)
  then writeUInt8 b (if negative then 0x80 else 0x00) (size - 1)
  else if negative
  then Ok (set_byte b (size - 1) (js_or (bits_of (get b (size - 1))) 0x80))
  else Ok b.

(** ** Specification *)

(** The value of a sign-and-magnitude little-endian byte string. *)
Definition sm_val (bs : buffer) : Z :=
  let v := le_val bs in
  let top := 128 * 256 ^ (blen bs - 1) in
  if top <=? v then - (v - top) else v.

(** The shortest such string: of a magnitude [m] on [k] bytes. *)
Definition sm_bytes (k : nat) (negative : bool) (m : Z) : buffer :=
  le_bytes k (if negative then m + 128 * 256 ^ (Z.of_nat k - 1) else m).

(** BIP62: no byte could be dropped. *)
Definition minimal_number (bs : buffer) : Prop :=
  bs = [] ∨
  ∃ pre b, bs = pre ++ [b] ∧
    (b mod 128 ≠ 0 ∨ ∃ pre' b', pre = pre' ++ [b'] ∧ 128 <= b').

(** ** The decoder *)

Lemma decode_loop_spec bs i r :
  bytes_ok bs → 0 <= i → i + blen bs <= 4 → 0 <= r < 256 ^ i →
  decode_loop bs i (to_int32 r) = to_int32 (r + 256 ^ i * le_val bs).
Proof.
  intros Hbs. revert i r. induction Hbs as [|b bs Hb Hbs IH]; intros i r Hi Hlen Hr; cbn [decode_loop le_val].
  - by rewrite Z.mul_0_r, Z.add_0_r.
  - rewrite blen_cons in Hlen. pose proof (blen_nonneg bs). unfold is_byte in Hb.
    rewrite pow256_2 in * by lia.
    rewrite js_shl_spec, js_or_idem, js_or_spec, lor_add_disjoint by lia.
    assert (E : 2 ^ (8 * (i + 1)) = 256 * 2 ^ (8 * i)).
    { replace (8 * (i + 1)) with (8 * i + 8) by lia. rewrite Z.pow_add_r; lia. }
    rewrite IH; rewrite ?pow256_2, ?E; try lia; try nia.
    f_equal. ring.
Qed.

Lemma sm_val_snoc pre b : bytes_ok (pre ++ [b]) →
  sm_val (pre ++ [b]) =
    if 128 <=? b then - (le_val pre + 256 ^ blen pre * (b - 128)) else le_val (pre ++ [b]).
Proof.
  intros [Hp Hb]%bytes_ok_app. apply bytes_ok_cons in Hb as [Hb _]. unfold is_byte in Hb.
  pose proof (le_val_bound pre Hp) as Hv.
  unfold sm_val. rewrite blen_app, blen_cons, blen_nil, le_val_snoc.
  replace (blen pre + (1 + 0) - 1) with (blen pre) by lia.
  destruct (Z.leb_spec 128 b), (Z.leb_spec (128 * 256 ^ blen pre) (le_val pre + 256 ^ blen pre * b)); nia.
Qed.

(** A nonempty string the minimality test of [decode] lets through. *)
Definition passes_minimal (pre : buffer) (b : Z) : bool :=
  negb (b mod 128 =? 0) || negb (match last pre with Some b' => b' <? 128 | None => true end).

Lemma get_last (pre : buffer) b : get (pre ++ [b]) (blen (pre ++ [b]) - 1) = Some b.
Proof. rewrite blen_app, blen_cons, blen_nil. rewrite <- (get_app_len pre [] b). f_equal. lia. Qed.

Lemma minimal_test pre b : bytes_ok (pre ++ [b]) →
  let bs := pre ++ [b] in
  (js_and (bits_of (get bs (blen bs - 1))) 0x7f =? 0)
    && ((blen bs <=? 1) || (js_and (bits_of (get bs (blen bs - 2))) 0x80 =? 0))
  = negb (passes_minimal pre b).
Proof.
  intros [Hp Hb]%bytes_ok_app bs. apply bytes_ok_cons in Hb as [Hb _]. unfold bs, passes_minimal.
  rewrite get_last. cbn [bits_of default from_option id]. rewrite byte_magnitude by done.
  rewrite negb_orb, !negb_involutive. f_equal.
  destruct pre as [|b' pre' _] using rev_ind; [done|]. rewrite last_snoc.
  apply bytes_ok_app in Hp as [_ Hb']. apply bytes_ok_cons in Hb' as [Hb' _].
  replace (get _ _) with (Some b').
  - cbn [bits_of default from_option id]. pose proof (byte_sign_bit b' Hb') as S. unfold truthy in S.
    rewrite (proj2 (Z.leb_gt _ 1)) by blen_lia. cbn [orb].
    destruct (Z.leb_spec 128 b'); destruct (Z.eqb_spec (js_and b' 128) 0);
      [done| rewrite (proj2 (Z.ltb_ge _ _)) by lia; done | rewrite (proj2 (Z.ltb_lt _ _)) by lia; done | done].
  - rewrite <- app_assoc. cbn [app]. rewrite <- (get_app_len pre' [b] b'). f_equal. blen_lia.
Qed.

Lemma decode_snoc pre b m minimal :
  bytes_ok (pre ++ [b]) → blen (pre ++ [b]) <= Z.min m 5 →
  (minimal = true → passes_minimal pre b = true) →
  decode (pre ++ [b]) (Some m) (Some minimal) = Ok (sm_val (pre ++ [b])).
Proof.
  intros Hok Hlen Hmin. rewrite sm_val_snoc by done. unfold decode.
  pose proof (blen_nonneg pre) as Hp0.
  assert (E1 : blen (pre ++ [b]) = blen pre + 1) by blen_lia.
  rewrite (proj2 (Z.eqb_neq (blen _) 0)) by lia.
  rewrite (proj2 (Z.eqb_neq m 0)) by lia. rewrite (proj2 (Z.ltb_ge m _)) by lia.
  cbn [default from_option id]. rewrite <- andb_assoc, minimal_test by done.
  replace (minimal && negb (passes_minimal pre b)) with false by (destruct minimal; [by rewrite Hmin|done]).
  rewrite get_last. cbn [bits_of default from_option id].
  pose proof Hok as [Hp Hb]%bytes_ok_app. apply bytes_ok_cons in Hb as [Hb _].
  rewrite byte_sign_bit by done. destruct (Z.eqb_spec (blen (pre ++ [b])) 5) as [E5|N5].
  - assert (L4 : length pre = 4%nat) by (unfold blen in *; lia).
    unfold readUInt32LE. pose proof (readUIntLE_app 4 [] pre [b] L4) as R. cbn [app] in R.
    rewrite blen_nil in R. rewrite R. cbn [mbind result_bind].
    pose proof (readUInt8_app pre b []) as R8. replace (blen pre) with 4 in R8 by lia. rewrite R8.
    cbn [mbind result_bind]. rewrite byte_sign_bit, le_val_snoc by done.
    replace (blen pre) with 4 by lia. change (256 ^ 4) with 0x100000000.
    destruct (Z.leb_spec 128 b); f_equal; [rewrite byte_clear_sign by done|]; lia.
  - pose proof (decode_loop_spec (pre ++ [b]) 0 0 Hok ltac:(lia) ltac:(lia) ltac:(done)) as L.
    change (to_int32 0) with 0 in L. rewrite L, Z.pow_0_r, Z.mul_1_l, Z.add_0_l. clear L.
    rewrite le_val_snoc. pose proof (le_val_bound pre Hp) as Hv. unfold is_byte in Hb.
    assert (P : 256 ^ blen pre <= 256 ^ 3) by (apply Z.pow_le_mono_r; lia). change (256 ^ 3) with (2 ^ 24) in P.
    destruct (Z.leb_spec 128 b); f_equal.
    + rewrite js_shl_spec by lia. rewrite js_and_idem_l, js_not_idem.
      replace (0x80 * 2 ^ _) with (2 ^ (8 * blen pre + 7)) by (rewrite Z.pow_add_r by lia; replace (8 * (blen (pre ++ [b]) - 1)) with (8 * blen pre) by lia; lia).
      rewrite pow256_2 in * by lia.
      rewrite js_and_not_bit; [|lia|].
      * rewrite Z.pow_add_r by lia. rewrite to_int32_small by nia. lia.
      * replace (8 * blen pre + 7 + 1) with (8 * blen pre + 8) by lia. rewrite !Z.pow_add_r by lia. nia.
    + apply to_int32_small. nia.
Qed.

(** ** The encoder *)

Lemma encode_loop_spec k pre rest v :
  Z.of_nat k <= blen rest →
  encode_loop k (blen pre) v (pre ++ rest) = Ok (pre ++ le_bytes k (to_int32 v) ++ drop k rest).
Proof.
  revert pre rest v. induction k as [|k IH]; intros pre rest v Hk; cbn [encode_loop]; [done|].
  change 0xff with (2 ^ 8 - 1). rewrite (js_and_ones v 8) by lia. pose proof (Z.mod_pos_bound v (2 ^ 8) ltac:(lia)).
  unfold writeUInt8. rewrite writeUIntLE_app by (cbn; lia). cbn [mbind result_bind].
  replace (blen pre + 1) with (blen (pre ++ le_bytes 1 (v mod 2 ^ 8))) by blen_lia.
  rewrite IH by (unfold blen in *; rewrite length_drop; lia).
  assert (Hs : js_shr v 8 = to_int32 v / 256) by (unfold js_shr; by rewrite Z.shiftr_div_pow2).
  rewrite Hs. pose proof (to_int32_range v) as R.
  rewrite (to_int32_small (to_int32 v / 256)).
  - cbn [le_bytes]. rewrite drop_drop, <- app_assoc. cbn [app].
    pose proof (to_int32_low_bits v 8 ltac:(lia)) as <-. change (2 ^ 8) with 256. by rewrite Z.mod_mod by lia.
  - split; [apply Z.div_le_lower_bound; lia|apply Z.div_lt_upper_bound; lia].
Qed.

(** The sizes [scriptNumSize] chooses are the shortest that leave the sign bit free. *)
Lemma scriptNumSize_spec m : 0 < m < 2 ^ 39 →
  ∃ k : nat, (k <= 4)%nat ∧ scriptNumSize m = Z.of_nat (S k) ∧
    m < 128 * 256 ^ Z.of_nat k ∧ (k = O ∨ 128 * 256 ^ Z.of_nat k <= 256 * m).
Proof.
  intros Hm. unfold scriptNumSize.
  destruct (Z.ltb_spec 0x7fffffff m); [exists 4%nat; cbn; lia|].
  destruct (Z.ltb_spec 0x7fffff m); [exists 3%nat; cbn; lia|].
  destruct (Z.ltb_spec 0x7fff m); [exists 2%nat; cbn; lia|].
  destruct (Z.ltb_spec 0x7f m); [exists 1%nat; cbn; lia|].
  destruct (Z.ltb_spec 0x00 m); [exists 0%nat; cbn; lia|lia].
Qed.

Lemma sm_bytes_snoc k neg m :
  0 <= m < 128 * 256 ^ Z.of_nat k →
  sm_bytes (S k) neg m
  = le_bytes k m ++ [m / 256 ^ Z.of_nat k + (if neg then 128 else 0)].
Proof.
  intros Hm. pose proof (pow256_pos k).
  assert (0 <= m / 256 ^ Z.of_nat k < 128).
  { split; [apply Z.div_pos; lia|apply Z.div_lt_upper_bound; lia]. }
  unfold sm_bytes. rewrite le_bytes_snoc. destruct neg.
  - replace (Z.of_nat (S k) - 1) with (Z.of_nat k) by lia.
    rewrite le_bytes_add_high, Z.div_add by lia. rewrite Z.mod_small by lia. done.
  - rewrite Z.mod_small by lia. by rewrite Z.add_0_r.
Qed.

Lemma set_byte_last pre x v : set_byte (pre ++ [x]) (blen pre) v = pre ++ [v mod 256].
Proof. unfold set_byte. rewrite in_range_app by done. by rewrite splice_app, app_nil_r. Qed.

Lemma writeUInt8_last pre x v : is_byte v → writeUInt8 (pre ++ [x]) v (blen pre) = Ok (pre ++ [v]).
Proof.
  intros Hv. unfold writeUInt8, is_byte in *. rewrite writeUIntLE_app by (rewrite ?blen_cons, ?blen_nil; lia).
  cbn. by rewrite app_nil_r, Z.mod_small by lia.
Qed.

Section WithMem.
Context `{Mem : UninitMem}.

Lemma encode_small number :
  0 < Z.abs number < 2 ^ 32 →
  encode number
  = Ok (sm_bytes (Z.to_nat (scriptNumSize (Z.abs number))) (number <? 0) (Z.abs number)).
Proof.
  intros Hn. set (m := Z.abs number) in *.
  destruct (scriptNumSize_spec m ltac:(lia)) as (k & Hk & Es & Hlt & _).
  unfold encode. fold m. rewrite Es, Nat2Z.id. rewrite sm_bytes_snoc by lia.
  pose proof (blen_allocUnsafe (Z.of_nat (S k)) ltac:(lia)) as La.
  pose proof (encode_loop_spec (S k) [] (allocUnsafe (Z.of_nat (S k))) m ltac:(lia)) as L.
  cbn [app] in L. rewrite blen_nil in L. rewrite L. clear L.
  rewrite drop_ge, app_nil_r by (unfold blen in La; lia). cbn [mbind result_bind].
  rewrite le_bytes_snoc.
  replace (Z.of_nat (S k) - 1) with (blen (le_bytes k (to_int32 m))) by blen_lia.
  rewrite get_app_len. cbn [bits_of default from_option id].
  rewrite byte_sign_bit by (apply Z.mod_pos_bound; lia).
  assert (Hm32 : m < 2 ^ 31 ∨ (2 ^ 31 <= m ∧ k = 4%nat)).
  { destruct (Z_lt_le_dec m (2 ^ 31)); [by left|right; split; [done|]].
    unfold scriptNumSize in Es. rewrite (proj2 (Z.ltb_lt 0x7fffffff m)) in Es by lia. lia. }
  pose proof (pow256_pos k). destruct Hm32 as [Hs|[Hb ->]].
  - rewrite to_int32_small by lia.
    assert (0 <= m / 256 ^ Z.of_nat k < 128).
    { split; [apply Z.div_pos; lia|apply Z.div_lt_upper_bound; lia]. }
    rewrite (Z.mod_small (m / _)) by lia. rewrite (proj2 (Z.leb_gt _ _)) by lia.
    destruct (number <? 0); [|by rewrite Z.add_0_r].
    rewrite set_byte_last, byte_set_sign by (unfold is_byte; lia). by rewrite Z.mod_small by lia.
  - rewrite to_int32_high by lia. change (256 ^ Z.of_nat 4) with (2 ^ 32).
    replace ((m - 2 ^ 32) / 2 ^ 32) with (-1)
      by (apply (Z.div_unique (m - 2 ^ 32) (2 ^ 32) (-1) m); lia).
    change (-1 mod 256) with 255. change (128 <=? 255) with true. cbn iota.
    rewrite writeUInt8_last by (unfold is_byte; destruct (number <? 0); lia).
    replace (m - 2 ^ 32) with (m + (-1) * 256 ^ Z.of_nat 4) by (cbn; lia).
    rewrite le_bytes_add_high, (Z.div_small m (2 ^ 32)) by lia. by destruct (number <? 0).
Qed.

Lemma encode_0 : encode 0 = Ok [].
Proof. done. Qed.

End WithMem.

(** The shortest string decodes to the number it stands for. *)
Lemma decode_sm_bytes k (neg : bool) m mx :
  (k <= 4)%nat → Z.of_nat (S k) <= mx → 0 < m < 128 * 256 ^ Z.of_nat k →
  (k = O ∨ 128 * 256 ^ Z.of_nat k <= 256 * m) →
  decode (sm_bytes (S k) neg m) (Some mx) (Some true) = Ok (if neg then - m else m).
Proof.
  intros Hk Hmx Hm Hmin. rewrite sm_bytes_snoc by lia. pose proof (pow256_pos k).
  set (t := m / 256 ^ Z.of_nat k).
  assert (Ht : 0 <= t < 128).
  { unfold t. split; [apply Z.div_pos; lia|apply Z.div_lt_upper_bound; lia]. }
  assert (Hok : bytes_ok (le_bytes k m ++ [t + (if neg then 128 else 0)])).
  { apply bytes_ok_app. split; [auto with js|]. repeat constructor; destruct neg; lia. }
  assert (Em : m mod 256 ^ Z.of_nat k + 256 ^ Z.of_nat k * t = m).
  { unfold t. pose proof (Z.div_mod m (256 ^ Z.of_nat k)). lia. }
  rewrite decode_snoc; [|done|blen_lia|].
  - rewrite sm_val_snoc, le_val_snoc, le_val_le_bytes, blen_le_bytes by done. f_equal.
    destruct neg; [rewrite (proj2 (Z.leb_le _ _)) by lia|rewrite (proj2 (Z.leb_gt _ _)) by lia]; lia.
  - intros _. unfold passes_minimal.
    replace ((t + (if neg then 128 else 0)) mod 128) with t.
    2:{ destruct neg; [rewrite <- (Z.mul_1_l 128) at 1; rewrite Z.mod_add by lia|rewrite Z.add_0_r];
        by rewrite Z.mod_small by lia. }
    destruct (Z.eqb_spec t 0) as [E|]; [|done]. cbn [negb orb].
    destruct k as [|k].
    + exfalso. unfold t in E. cbn in E. rewrite Z.div_1_r in E. lia.
    + destruct Hmin as [?|Hmin]; [done|]. rewrite le_bytes_snoc, last_snoc.
      rewrite pow256_succ in Hmin. unfold t in E. rewrite pow256_succ in E. pose proof (pow256_pos k).
      assert (m < 256 * 256 ^ Z.of_nat k) by (apply Z.div_small_iff in E; lia).
      assert (128 <= m / 256 ^ Z.of_nat k < 256).
      { split; [apply Z.div_le_lower_bound; lia|apply Z.div_lt_upper_bound; lia]. }
      rewrite Z.mod_small, (proj2 (Z.ltb_ge _ _)) by lia. done.
Qed.

(** ** Properties *)

(** What [encode] returns above 32 bits: the low 32 bits and a fifth byte that
    is cleared. *)
Lemma encode_high {Mem : UninitMem} n : 2 ^ 32 <= n →
  encode n = Ok (le_bytes 4 (to_int32 n) ++ [0]).
Proof.
  intros Hn. unfold encode. rewrite Z.abs_eq by lia.
  unfold scriptNumSize. rewrite (proj2 (Z.ltb_lt 0x7fffffff n)) by lia.
  pose proof (blen_allocUnsafe 5 ltac:(lia)) as La.
  pose proof (encode_loop_spec 5 [] (allocUnsafe 5) n ltac:(lia)) as L.
  cbn [app] in L. rewrite blen_nil in L. change (Z.to_nat 5) with 5%nat. rewrite L. clear L.
  rewrite drop_ge, app_nil_r by (unfold blen in La; lia). cbn [mbind result_bind].
  rewrite (proj2 (Z.ltb_ge n 0)) by lia. rewrite le_bytes_snoc.
  change (5 - 1) with (Z.of_nat 4). rewrite <- (blen_le_bytes 4 (to_int32 n)).
  rewrite get_app_len. cbn [bits_of default from_option id].
  rewrite byte_sign_bit by (apply Z.mod_pos_bound; lia).
  pose proof (to_int32_range n) as R. rewrite blen_le_bytes.
  destruct (Z_lt_le_dec (to_int32 n) 0).
  - replace (to_int32 n / 256 ^ Z.of_nat 4) with (-1)
      by (apply (Z.div_unique _ _ (-1) (to_int32 n + 2 ^ 32)); cbn; lia).
    change (128 <=? -1 mod 256) with true. cbn iota.
    rewrite <- (blen_le_bytes 4 (to_int32 n)). by rewrite writeUInt8_last by (unfold is_byte; lia).
  - rewrite (Z.div_small _ (256 ^ _)) by (cbn; lia). done.
Qed.

(** What a successful [decode] tells of its input. *)
Lemma decode_ok_inv pre b m n : 0 < m →
  bytes_ok (pre ++ [b]) → decode (pre ++ [b]) (Some m) (Some true) = Ok n → blen (pre ++ [b]) <= m ∧
    passes_minimal pre b = true ∧ (blen (pre ++ [b]) <= 5 → n = sm_val (pre ++ [b])).
Proof.
  intros Hm Hok Hd. pose proof Hd as Hd'. unfold decode in Hd.
  rewrite (proj2 (Z.eqb_neq (blen _) 0)) in Hd by blen_lia.
  rewrite (proj2 (Z.eqb_neq m 0)) in Hd by lia.
  destruct (Z.ltb_spec m (blen (pre ++ [b]))) as [Hl|Hl]; [discriminate|].
  cbn [default from_option id] in Hd. rewrite <- andb_assoc, minimal_test in Hd by done.
  destruct (passes_minimal pre b) eqn:Hpm; [|discriminate]. split_and!; [done|done|].
  intros H5. rewrite decode_snoc in Hd'; [by injection Hd'|done|lia|done].
Qed.

Lemma scriptNumSize_unique (k : nat) m : (k <= 4)%nat → 0 < m < 128 * 256 ^ Z.of_nat k →
  (k = O ∨ 128 * 256 ^ Z.of_nat k <= 256 * m) → scriptNumSize m = Z.of_nat (S k).
Proof.
  intros Hk Hm Hmin. unfold scriptNumSize.
  destruct k as [|[|[|[|[|]]]]]; try lia; cbn in *; split_ifs.
Qed.

(** A minimal string is the shortest string of its value. *)
Lemma sm_bytes_complete pre b :
  bytes_ok (pre ++ [b]) → passes_minimal pre b = true →
  let v := sm_val (pre ++ [b]) in
  0 < Z.abs v < 128 * 256 ^ Z.of_nat (length pre) ∧
  (length pre = O ∨ 128 * 256 ^ Z.of_nat (length pre) <= 256 * Z.abs v) ∧
  (v <? 0) = (128 <=? b) ∧
  sm_bytes (S (length pre)) (128 <=? b) (Z.abs v) = pre ++ [b].
Proof.
  intros Hok Hpm v. pose proof Hok as [Hp Hb]%bytes_ok_app. apply bytes_ok_cons in Hb as [Hb _].
  pose proof (le_val_bound pre Hp) as Hv. unfold is_byte in Hb. change (blen pre) with (Z.of_nat (length pre)) in Hv.
  set (P := 256 ^ Z.of_nat (length pre)) in *. set (t := b mod 128).
  assert (Et : t = if 128 <=? b then b - 128 else b).
  { unfold t. destruct (Z.leb_spec 128 b); [symmetry; apply (Z.mod_unique b 128 1); lia|apply Z.mod_small; lia]. }
  assert (Ht : 0 <= t < 128) by (apply Z.mod_pos_bound; lia).
  set (m := le_val pre + P * t).
  assert (Ev : v = if 128 <=? b then - m else m).
  { unfold v, m. rewrite sm_val_snoc, le_val_snoc, Et by done. fold P. by destruct (128 <=? b). }
  assert (Hm : 0 < m ∧ (length pre = O ∨ 128 * P <= 256 * m)).
  { unfold passes_minimal in Hpm. fold t in Hpm. destruct (Z.eqb_spec t 0) as [E0|E0].
    - cbn [negb orb] in Hpm. clearbody v t. destruct pre as [|b' pre' _] using rev_ind; [discriminate|].
      rewrite last_snoc in Hpm. bool_facts. unfold m, P in *. rewrite le_val_snoc.
      apply bytes_ok_app in Hp as [Hp' _]. pose proof (le_val_bound pre' Hp').
      rewrite length_app, Nat.add_1_r, pow256_succ in *. unfold blen. split; [|right]; nia.
    - assert (P <= m) by (unfold m; nia). split; [|right]; nia. }
  assert (HmP : m < 128 * P) by (unfold m; nia).
  assert (Ea : Z.abs v = m) by (rewrite Ev; destruct (128 <=? b); lia).
  rewrite Ea. split_and!; [lia|lia|tauto| |].
  - rewrite Ev. destruct (128 <=? b); [apply Z.ltb_lt|apply Z.ltb_ge]; lia.
  - rewrite sm_bytes_snoc by (fold P; lia). fold P.
    replace (m / P) with t by (apply (Z.div_unique m P t (le_val pre)); unfold m; lia).
    unfold m. rewrite (Z.mul_comm P). unfold P. rewrite le_bytes_add_high, le_bytes_le_val by done.
    do 2 f_equal. rewrite Et. destruct (128 <=? b); lia.
Qed.

(** Every integer of absolute value below 2^32 survives a round trip: [encode]
    yields at most five bytes, which [decode] (minimality enforced, five bytes
    allowed) reads back as the same integer; below 2^31 four bytes and the
    default arguments of [decode] are enough. *)
Theorem number_roundtrip {Mem : UninitMem} n :
  Z.abs n < 2 ^ 32 →
  ∃ bs, encode n = Ok bs ∧ decode bs (Some 5) (Some true) = Ok n ∧
    (Z.abs n < 2 ^ 31 → blen bs <= 4 ∧ decode bs None None = Ok n).
Proof.
  intros Hn. destruct (Z.eq_dec n 0) as [->|Hn0]; [by exists []|].
  rewrite encode_small by lia.
  destruct (scriptNumSize_spec (Z.abs n) ltac:(lia)) as (k & Hk & Es & Hlt & Hmin).
  rewrite Es, Nat2Z.id. eexists. split; [done|].
  assert (Hs : (if n <? 0 then - Z.abs n else Z.abs n) = n) by split_ifs.
  split; [rewrite decode_sm_bytes by lia; by f_equal|]. intros Hs31.
  assert (Hk3 : (k <= 3)%nat).
  { unfold scriptNumSize in Es. rewrite (proj2 (Z.ltb_ge 0x7fffffff _)) in Es by lia.
    revert Es. split_ifs; lia. }
  split; [unfold sm_bytes; blen_lia|].
  change (decode ?b None None) with (decode b (Some 4) (Some true)).
  rewrite decode_sm_bytes by lia. by f_equal.
Qed.

Lemma number_roundtrip_witness :
  ∃ bs, encode (Mem := zero_mem) (-300) = Ok bs ∧ decode bs (Some 5) (Some true) = Ok (-300) ∧
    (Z.abs (-300) < 2 ^ 31 → blen bs <= 4 ∧ decode bs None None = Ok (-300)).
Proof. apply (number_roundtrip (Mem := zero_mem) (-300)). reflexivity. Defined.

(** The exact behaviour of [decode] on up to five bytes, errors included: the
    empty string is 0, too long a string and a non-minimal one are refused, and
    every other string has its sign-and-magnitude value. *)
Theorem decode_refines_sm_val pre b m (minimal : bool) :
  bytes_ok (pre ++ [b]) → blen pre <= 4 → 0 < m →
  decode (pre ++ [b]) (Some m) (Some minimal) =
    if m <? blen (pre ++ [b]) then Throw (TypeError "Script number overflow")
    else if minimal && negb (passes_minimal pre b)
    then Throw (Error "Non-minimally encoded script number")
    else Ok (sm_val (pre ++ [b])).
Proof.
  intros Hok Hlen Hm. destruct (Z.ltb_spec m (blen (pre ++ [b]))) as [Hl|Hl].
  - unfold decode. rewrite (proj2 (Z.eqb_neq (blen _) 0)) by blen_lia.
    rewrite (proj2 (Z.eqb_neq m 0)), (proj2 (Z.ltb_lt m _)) by lia. done.
  - destruct (minimal && negb (passes_minimal pre b)) eqn:E.
    + unfold decode. rewrite (proj2 (Z.eqb_neq (blen _) 0)) by blen_lia.
      rewrite (proj2 (Z.eqb_neq m 0)), (proj2 (Z.ltb_ge m _)) by lia.
      cbn [default from_option id]. rewrite <- andb_assoc, minimal_test by done. by rewrite E.
    + apply decode_snoc; [done|blen_lia|]. intros ->. by destruct (passes_minimal pre b).
Qed.

Lemma decode_refines_sm_val_witness :
  decode ([0x2c] ++ [0x81]) (Some 4) (Some true) = Ok (-300).
Proof.
  rewrite (decode_refines_sm_val [0x2c] 0x81 4 true); [reflexivity| | reflexivity || (vm_compute; discriminate) | reflexivity].
  repeat constructor; vm_compute; (discriminate || reflexivity).
Defined.

(** [decode] accepts only canonical strings: what it reads from at most four
    bytes with its default arguments, [encode] writes back byte for byte. *)
Theorem decode_canonical {Mem : UninitMem} bs n :
  bytes_ok bs → decode bs None None = Ok n → encode n = Ok bs.
Proof.
  intros Hok Hd. destruct bs as [|b pre _] using rev_ind.
  { injection Hd as <-. apply encode_0. }
  change (decode (pre ++ [b]) None None) with (decode (pre ++ [b]) (Some 4) (Some true)) in Hd.
  apply decode_ok_inv in Hd as (Hlen & Hpm & Hn); [|lia|done]. rewrite Hn by lia. clear n Hn.
  destruct (sm_bytes_complete pre b Hok Hpm) as (Hm & Hmin & Hneg & Heq).
  assert (Hl : (length pre <= 3)%nat) by (unfold blen in Hlen; rewrite length_app in Hlen; cbn in Hlen; lia).
  rewrite encode_small.
  - rewrite (scriptNumSize_unique (length pre)) by (done || lia). by rewrite Nat2Z.id, Hneg, Heq.
  - assert (256 ^ Z.of_nat (length pre) <= 256 ^ 3) by (apply Z.pow_le_mono_r; lia).
    change (256 ^ 3) with (2 ^ 24) in *. lia.
Qed.

Lemma decode_canonical_witness :
  decode [0x2c; 0x81] None None = Ok (-300) ∧ encode (Mem := zero_mem) (-300) = Ok [0x2c; 0x81].
Proof.
  split; [reflexivity|]. apply (decode_canonical (Mem := zero_mem)); [|reflexivity].
  repeat constructor; vm_compute; (discriminate || reflexivity).
Defined.

(** From 2^32 on [encode] loses the number although [decode] accepts 40-bit
    script numbers: [value >>= 8] keeps 32 bits only, so the bytes written never
    decode to the number that was encoded. *)
Theorem encode_loses_above_32_bits {Mem : UninitMem} n m :
  2 ^ 32 <= n → ∃ bs, encode n = Ok bs ∧ decode bs (Some m) None ≠ Ok n.
Proof.
  intros Hn. exists (le_bytes 4 (to_int32 n) ++ [0]). split; [by apply encode_high|].
  intros Hd. assert (Hok : bytes_ok (le_bytes 4 (to_int32 n) ++ [0])).
  { apply bytes_ok_app. split; [auto with js|]. by repeat constructor. }
  set (pre := le_bytes 4 (to_int32 n)) in *.
  assert (Hm : ∃ m', 0 < m' ∧ decode (pre ++ [0]) (Some m') (Some true) = Ok n).
  { destruct (Z.eqb_spec m 0) as [->|]; [by exists 4|]. exists m. split; [|done].
    unfold decode in Hd. rewrite (proj2 (Z.eqb_neq (blen _) 0)) in Hd by blen_lia.
    rewrite (proj2 (Z.eqb_neq m 0)) in Hd by done.
    destruct (Z.ltb_spec m (blen (pre ++ [0]))); [discriminate|]. blen_lia. }
  destruct Hm as (m' & Hm' & Hd'). apply decode_ok_inv in Hd' as (_ & _ & Hn'); [|done|done].
  assert (L4 : blen pre = 4) by (unfold pre; blen_lia).
  rewrite sm_val_snoc in Hn' by done. change (128 <=? 0) with false in Hn'. cbn iota in Hn'.
  rewrite le_val_snoc, Z.mul_0_r, Z.add_0_r in Hn'.
  pose proof (le_val_bound pre ltac:(unfold pre; auto with js)) as B. rewrite L4 in B.
  change (256 ^ 4) with (2 ^ 32) in B. specialize (Hn' ltac:(blen_lia)). lia.
Qed.

Lemma encode_loses_above_32_bits_witness :
  ∃ bs, encode (Mem := zero_mem) (2 ^ 32) = Ok bs ∧ decode bs (Some 5) None ≠ Ok (2 ^ 32).
Proof. apply (encode_loses_above_32_bits (Mem := zero_mem)). vm_compute. discriminate. Defined.

End ScriptNumber.
