(* ===== verification/Externals.v ===== *)
(** * Packages outside the repository

    The sources call npm packages that are not part of the repository.  Each is
    an operational class, a parameter of the definitions that call it, and a
    class of laws that states the documented behaviour the proofs use.  The last
    section gives a concrete instance of each, so that every hypothesis of the
    development can be seen to hold. *)

From stdpp Require Import base tactics list numbers strings.
From S2P Require Import Prelude JsNumber NodeBuffer.
Open Scope Z_scope.

(** ** typeforce: run-time type checks on numbers and buffers

    The checks on the JavaScript type of an argument (array, buffer, string)
    are the types of the model; what remains are the checks on values. *)
Class Typeforce := {
  tf_UInt8 : Z → bool;
  tf_UInt32 : Z → bool;
  tf_UInt53 : Z → bool;
  tf_BufferN : Z → buffer → bool;
}.
Class TypeforceSpec `{!Typeforce} : Prop := {
  tf_UInt8_spec n : tf_UInt8 n = true ↔ 0 <= n <= 0xff;
  tf_UInt32_spec n : tf_UInt32 n = true ↔ 0 <= n <= 0xffffffff;
  tf_UInt53_spec n : tf_UInt53 n = true ↔ 0 <= n <= MAX_SAFE_INTEGER;
  tf_BufferN_spec n b : tf_BufferN n b = true ↔ blen b = n;
}.

(** ** varuint-bitcoin: Bitcoin's variable-length integers

    [vu_encode number buffer offset] is the buffer after the call and
    [encode.bytes]; [vu_decode buffer offset] is the number and [decode.bytes].
    The sources ask for the encoding length of array and buffer lengths only. *)
Class VarUint := {
  vu_encode : Z → buffer → Z → result (buffer * Z);
  vu_decode : buffer → Z → result (Z * Z);
  vu_encodingLength : Z → Z;
}.
Class VarUintSpec `{!VarUint} := {
  (** the bytes of a number, whatever the buffer and the offset *)
  vu_bytes : Z → buffer;
  vu_bytes_len n : 0 <= n <= MAX_SAFE_INTEGER → blen (vu_bytes n) = vu_encodingLength n;
  vu_bytes_ok n : 0 <= n <= MAX_SAFE_INTEGER → bytes_ok (vu_bytes n);
  (** one byte below 0xfd, a marker byte otherwise: only 0 starts with a zero byte *)
  vu_bytes_hd n : 0 <= n <= MAX_SAFE_INTEGER → ∃ b r, vu_bytes n = b :: r ∧ (b = 0 → n = 0);
  vu_bytes_small n : 0 <= n < 0xfd → vu_bytes n = [n];
  vu_encode_spec n : 0 <= n <= MAX_SAFE_INTEGER →
    writes (λ b off, '(b', k) ← vu_encode n b off; Ok (b', off + k)) (vu_bytes n);
  vu_decode_spec n : 0 <= n <= MAX_SAFE_INTEGER →
    reads (λ b off, '(v, k) ← vu_decode b off; Ok (v, off + k)) (vu_bytes n) n;
  (** a number that cannot be represented is refused *)
  vu_decode_range b off n k : bytes_ok b → 0 <= off → vu_decode b off = Ok (n, k) →
    0 <= n <= MAX_SAFE_INTEGER ∧ 0 <= k;
}.

(** ** bip66: strict DER signatures *)

(** A DER integer of at most 33 bytes: not negative, and not padded in vain. *)
Definition der_int (b : buffer) : bool :=
  match b with
  | [] => false
  | [x] => x <? 128
  | x :: y :: _ => (blen b <=? 33) && (x <? 128) && (negb (x =? 0) || (128 <=? y))
  end.

Class Bip66 := {
  bip66_check : buffer → bool;
  bip66_encode : buffer → buffer → result buffer;
  bip66_decode : buffer → result (buffer * buffer);
}.
Class Bip66Spec `{!Bip66} : Prop := {
  bip66_check_len b : bip66_check b = true → 8 <= blen b <= 72;
  bip66_roundtrip r s : bytes_ok r → bytes_ok s → der_int r = true → der_int s = true →
    ∃ e, bip66_encode r s = Ok e ∧ bytes_ok e ∧ bip66_decode e = Ok (r, s) ∧ bip66_check e = true;
  (** a tag and a length for the sequence and for each integer *)
  bip66_encode_len r s e : bip66_encode r s = Ok e → blen e = 6 + blen r + blen s;
}.

(** ** create-hash *)
Class CreateHash := {
  ch_ripemd160 : buffer → buffer;
  ch_sha1 : buffer → buffer;
  ch_sha256 : buffer → buffer;
}.
Class CreateHashSpec `{!CreateHash} : Prop := {
  ch_ripemd160_ok b : blen (ch_ripemd160 b) = 20 ∧ bytes_ok (ch_ripemd160 b);
  ch_sha256_ok b : blen (ch_sha256 b) = 32 ∧ bytes_ok (ch_sha256 b);
}.

(** ** Concrete instances *)

Module Concrete.

#[export] Instance typeforce : Typeforce := {
  tf_UInt8 n := (0 <=? n) && (n <=? 0xff);
  tf_UInt32 n := (0 <=? n) && (n <=? 0xffffffff);
  tf_UInt53 n := (0 <=? n) && (n <=? MAX_SAFE_INTEGER);
  tf_BufferN n b := blen b =? n;
}.

#[export] Instance typeforce_spec : TypeforceSpec.
Proof.
  split; intros; cbn [tf_UInt8 tf_UInt32 tf_UInt53 tf_BufferN typeforce];
    rewrite ?andb_true_iff, ?Z.leb_le, ?Z.eqb_eq; lia.
Qed.

(** CompactSize integers. *)
Definition compact_bytes (n : Z) : buffer :=
  if n <? 0xfd then [n]
  else if n <=? 0xffff then 0xfd :: le_bytes 2 n
  else if n <=? 0xffffffff then 0xfe :: le_bytes 4 n
  else 0xff :: le_bytes 8 n.

Definition compact_decode (b : buffer) (off : Z) : result (Z * Z) :=
  first ← readUInt8 b off;
  if first <? 0xfd then Ok (first, 1)
  else if first =? 0xfd then v ← readUIntLE 2 b (off + 1); Ok (v, 3)
  else if first =? 0xfe then v ← readUIntLE 4 b (off + 1); Ok (v, 5)
  else v ← readUIntLE 8 b (off + 1); if v <=? MAX_SAFE_INTEGER then Ok (v, 9) else Throw RangeError.

#[export] Instance varuint : VarUint := {
  vu_encode n b off :=
    if in_range b off (blen (compact_bytes n))
    then Ok (splice b off (compact_bytes n), blen (compact_bytes n)) else Throw RangeError;
  vu_decode := compact_decode;
  vu_encodingLength n := blen (compact_bytes n);
}.

Lemma compact_bytes_ok n : 0 <= n <= MAX_SAFE_INTEGER → bytes_ok (compact_bytes n).
Proof.
  intros Hn. unfold compact_bytes. split_ifs; rewrite bytes_ok_cons; unfold is_byte;
    (split; [lia|auto with js]).
Qed.

Lemma compact_bytes_hd n : 0 <= n <= MAX_SAFE_INTEGER →
  ∃ b r, compact_bytes n = b :: r ∧ (b = 0 → n = 0).
Proof. intros Hn. unfold compact_bytes. split_ifs; eexists _, _; (split; [done|lia]). Qed.

Lemma compact_bytes_small n : 0 <= n < 0xfd → compact_bytes n = [n].
Proof. intros Hn. unfold compact_bytes. by rewrite (proj2 (Z.ltb_lt _ _)) by lia. Qed.

Lemma compact_writes n :
  writes (λ b off, '(b', k) ← vu_encode n b off; Ok (b', off + k)) (compact_bytes n).
Proof.
  intros pre rest Hlen. cbn [vu_encode varuint].
  rewrite in_range_app by auto with js. cbn [mbind result_bind].
  by rewrite splice_app, blen_app.
Qed.

Lemma compact_reads n : 0 <= n <= MAX_SAFE_INTEGER →
  reads (λ b off, '(v, k) ← vu_decode b off; Ok (v, off + k)) (compact_bytes n) n.
Proof.
  intros Hn pre post. unfold MAX_SAFE_INTEGER in Hn. cbn [vu_decode varuint]. unfold compact_decode, compact_bytes.
  rewrite blen_app. destruct (Z.ltb_spec n 0xfd) as [|L1];
    [|destruct (Z.leb_spec n 0xffff); [|destruct (Z.leb_spec n 0xffffffff)]];
    cbn [app]; rewrite readUInt8_app; cbn [mbind result_bind].
  - rewrite (proj2 (Z.ltb_lt n _)) by lia. done.
  - change (253 <? 253) with false. change (253 =? 253) with true. cbn iota.
    rewrite readUIntLE_app1 by apply length_le_bytes. cbn [mbind result_bind].
    by rewrite le_val_le_bytes_small by (cbn; lia).
  - change (254 <? 253) with false. change (254 =? 253) with false. change (254 =? 254) with true. cbn iota.
    rewrite readUIntLE_app1 by apply length_le_bytes. cbn [mbind result_bind].
    by rewrite le_val_le_bytes_small by (cbn; lia).
  - change (255 <? 253) with false. change (255 =? 253) with false. change (255 =? 254) with false. cbn iota.
    rewrite readUIntLE_app1 by apply length_le_bytes. cbn [mbind result_bind].
    rewrite le_val_le_bytes_small by (cbn; lia).
    by rewrite (proj2 (Z.leb_le n _)) by (unfold MAX_SAFE_INTEGER; lia).
Qed.

Lemma compact_range b off n k : bytes_ok b → 0 <= off → compact_decode b off = Ok (n, k) →
  0 <= n <= MAX_SAFE_INTEGER ∧ 0 <= k.
Proof.
  intros Hok Hoff. unfold compact_decode, MAX_SAFE_INTEGER.
  assert (R : ∀ j o v, readUIntLE j b o = Ok v → 0 <= v < 256 ^ Z.of_nat j).
  { intros j o v. by apply readUIntLE_range. }
  unfold readUInt8. destruct (readUIntLE 1 b off) as [first|] eqn:E1; [|discriminate].
  apply R in E1. cbn [mbind result_bind].
  repeat match goal with |- context [if ?c then _ else _] => destruct c eqn:? end;
    try (intros [= <- <-]; bool_facts; lia).
  all: match goal with |- context [readUIntLE ?j ?b ?o] => destruct (readUIntLE j b o) as [v|] eqn:E end;
    [|discriminate]; apply R in E; cbn [mbind result_bind].
  3: destruct (Z.leb_spec v (2 ^ 53 - 1)); [|discriminate].
  all: intros [= <- <-]; cbn in E; lia.
Qed.

#[export] Instance varuint_spec : VarUintSpec := {
  vu_bytes := compact_bytes;
  vu_bytes_len n _ := eq_refl;
  vu_bytes_ok := compact_bytes_ok;
  vu_bytes_hd := compact_bytes_hd;
  vu_bytes_small := compact_bytes_small;
  vu_encode_spec n _ := compact_writes n;
  vu_decode_spec := compact_reads;
  vu_decode_range := compact_range;
}.

(** Strict DER: a sequence of two integers and nothing else. *)
Definition der_encode (r s : buffer) : buffer :=
  0x30 :: (4 + blen r + blen s) :: 0x02 :: blen r :: r ++ 0x02 :: blen s :: s.

Definition der_decode (b : buffer) : result (buffer * buffer) :=
  match b with
  | _ :: _ :: _ :: rl :: rest =>
      let r := take (Z.to_nat rl) rest in
      let s := drop 2 (drop (Z.to_nat rl) rest) in
      if bool_decide (der_encode r s = b) && der_int r && der_int s then Ok (r, s)
      else Throw (Error "Invalid DER")
  | _ => Throw (Error "Invalid DER")
  end.

#[export] Instance bip66 : Bip66 := {
  bip66_check b := is_ok (der_decode b);
  bip66_encode r s := Ok (der_encode r s);
  bip66_decode := der_decode;
}.

Lemma der_int_len b : der_int b = true → 1 <= blen b <= 33.
Proof.
  destruct b as [|x [|y b]]; cbn [der_int]; [discriminate|intros _; change (blen [x]) with 1; lia|].
  intros E. bool_facts. rewrite !blen_cons in *. pose proof (blen_nonneg b). lia.
Qed.

Lemma blen_der_encode r s : blen (der_encode r s) = 6 + blen r + blen s.
Proof. unfold der_encode. rewrite !blen_cons, blen_app, !blen_cons. lia. Qed.

Lemma der_decode_encode r s : der_int r = true → der_int s = true → der_decode (der_encode r s) = Ok (r, s).
Proof.
  intros Hr Hs. unfold der_decode. unfold der_encode at 1. cbv zeta.
  rewrite take_app_blen, drop_app_blen. cbn [drop].
  rewrite bool_decide_true, Hr by done. cbn [andb]. change (drop 0 s) with s. by rewrite Hs.
Qed.

#[export] Instance bip66_spec : Bip66Spec.
Proof.
  split.
  - intros b. cbn [bip66_check bip66]. unfold der_decode.
    destruct b as [|a0 [|a1 [|a2 [|rl rest]]]]; try discriminate.
    cbv zeta. set (r := take _ rest). set (s := drop 2 _).
    destruct (bool_decide _) eqn:E1, (der_int r) eqn:E2, (der_int s) eqn:E3; try discriminate. intros _.
    apply bool_decide_eq_true in E1. rewrite <- E1, blen_der_encode.
    apply der_int_len in E2, E3. lia.
  - intros r s Hrok Hsok Hr Hs. exists (der_encode r s). cbn [bip66_encode bip66_decode bip66_check bip66].
    rewrite der_decode_encode by done. split_and!; [done| |done|done].
    apply der_int_len in Hr, Hs. unfold der_encode.
    repeat (apply bytes_ok_cons; split; [unfold is_byte; lia|]).
    apply bytes_ok_app. split; [done|]. repeat (apply bytes_ok_cons; split; [unfold is_byte; lia|]). done.
  - intros r s e [= <-]. apply blen_der_encode.
Qed.

(** Not a hash function, but one with the documented output sizes. *)
#[export] Instance create_hash : CreateHash := {
  ch_ripemd160 b := le_bytes 20 (le_val b);
  ch_sha1 b := le_bytes 20 (le_val b);
  ch_sha256 b := le_bytes 32 (le_val b);
}.

#[export] Instance create_hash_spec : CreateHashSpec.
Proof. split; intros; cbn [ch_ripemd160 ch_sha256 create_hash]; rewrite blen_le_bytes; auto with js. Qed.

End Concrete.
