(* ===== verification/BufferUtils.v ===== *)
(** * 64-bit amounts and variable-length integers in buffers

    [ecashjs-lib/src/bufferutils.js].  A JavaScript number holds the integers up
    to [2^53 - 1] exactly; [readUInt64LE] and [writeUInt64LE] work on eight bytes
    and refuse what lies above.  A sum of two words that a double would round is
    at least [2^53], also after rounding, so that the integers of the model
    decide the range check the same way. *)

From stdpp Require Import base tactics list numbers strings.
From S2P Require Import Prelude JsNumber NodeBuffer Externals.
Open Scope Z_scope.

Module BufferUtils.

(** [None] is a value that is not a number. *)
Definition verifuint (value : option Z) (max : Z) : result unit :=
  match value with
  | None => Throw (Error "cannot write a non-number as a number")
  | Some value =>
      if value <? 0 then Throw (Error "specified a negative value for writing an unsigned value")
      else if value >? max then Throw (Error "RangeError: value out of range")
      else Ok tt
  end.

Definition readUInt64LE (b : buffer) (offset : Z) : result Z :=
  lo ← readUInt32LE b offset;
  hi ← readUInt32LE b (offset + 4);
  let hi := hi * 0x100000000 in
  _ ← verifuint (Some (hi + lo)) 0x001fffffffffffff;
  Ok (hi + lo).

(** The offset behind the written bytes is returned with the buffer. *)
Definition writeUInt64LE (b : buffer) (value : option Z) (offset : Z) : result (buffer * Z) :=
  _ ← verifuint value 0x001fffffffffffff;
  let value := default 0 value in
  b ← writeInt32LE b (js_and value (-1)) offset;
  b ← writeUInt32LE b (value / 0x100000000) (offset + 4);
  Ok (b, offset + 8).

Section VarInt.
Context `{!VarUint}.

Definition readVarInt (b : buffer) (offset : Z) : result (Z * Z) := vu_decode b offset.
Definition writeVarInt (b : buffer) (number offset : Z) : result (buffer * Z) :=
  vu_encode number b offset.

End VarInt.

(** ** Lemmas *)

Lemma verifuint_ok v : 0 <= v <= MAX_SAFE_INTEGER → verifuint (Some v) 0x001fffffffffffff = Ok tt.
Proof.
  unfold MAX_SAFE_INTEGER. intros. unfold verifuint. rewrite Z.gtb_ltb.
  by rewrite (proj2 (Z.ltb_ge v 0)), (proj2 (Z.ltb_ge _ v)) by lia.
Qed.

Lemma le_bytes_8_split v : le_bytes 8 v = le_bytes 4 (js_and v (-1)) ++ le_bytes 4 (v / 0x100000000).
Proof.
  rewrite (le_bytes_app 4 4). f_equal.
  assert (E : js_and v (-1) = to_int32 v).
  { unfold js_and. rewrite (to_int32_small (-1)) by lia. apply Z.land_m1_r. }
  rewrite E. pose proof (le_bytes_mod 4 (to_int32 v)) as M. change (256 ^ Z.of_nat 4) with (2 ^ 32) in M.
  rewrite to_int32_mod in M. rewrite <- M. symmetry. apply (le_bytes_mod 4).
Qed.

Lemma writes_uint64 v : 0 <= v <= MAX_SAFE_INTEGER →
  writes (λ b off, writeUInt64LE b (Some v) off) (le_bytes 8 v).
Proof.
  intros Hv pre rest Hlen. change (blen (le_bytes 8 v)) with 8 in Hlen.
  unfold writeUInt64LE. rewrite verifuint_ok by done. cbn [mbind result_bind default from_option id].
  rewrite le_bytes_8_split. set (lo := js_and v (-1)).
  assert (Hlo : - 2 ^ 31 <= lo < 2 ^ 31).
  { unfold lo. rewrite js_and_spec. apply to_int32_range. }
  rewrite writeInt32LE_app by lia. cbn [mbind result_bind].
  replace (blen pre + 4) with (blen (pre ++ le_bytes 4 lo)) by (by rewrite blen_app, blen_le_bytes).
  unfold writeUInt32LE, MAX_SAFE_INTEGER in *. rewrite writeUIntLE_app.
  - cbn [mbind result_bind]. rewrite drop_drop, !blen_app, !blen_le_bytes, length_app, !length_le_bytes.
    by rewrite <- !app_assoc.
  - change (256 ^ Z.of_nat 4) with (2 ^ 32).
    split; [apply Z.div_pos; lia|apply Z.div_lt_upper_bound; lia].
  - unfold blen in *. rewrite length_drop. lia.
Qed.

(** [readUInt64LE] on any eight bytes. *)
Lemma readUInt64LE_app pre bs post : length bs = 8%nat → bytes_ok bs →
  readUInt64LE (pre ++ bs ++ post) (blen pre) =
    if le_val bs <=? MAX_SAFE_INTEGER then Ok (le_val bs)
    else Throw (Error "RangeError: value out of range").
Proof.
  intros Hl Hok. rewrite <- (take_drop 4 bs) in Hok |- *.
  set (lo := take 4 bs) in *. set (hi := drop 4 bs) in *.
  assert (Llo : length lo = 4%nat) by (unfold lo; rewrite length_take; lia).
  assert (Lhi : length hi = 4%nat) by (unfold hi; rewrite length_drop; lia).
  apply bytes_ok_app in Hok as [Hlo Hhi]. unfold readUInt64LE, readUInt32LE.
  rewrite <- app_assoc, readUIntLE_app by done. cbn [mbind result_bind].
  rewrite (app_assoc pre). replace (blen pre + 4) with (blen (pre ++ lo)) by (unfold blen; rewrite length_app; lia).
  rewrite readUIntLE_app by done. cbn [mbind result_bind].
  apply le_val_bound in Hlo, Hhi. rewrite le_val_app. unfold blen. rewrite Llo.
  change (256 ^ Z.of_nat 4) with 0x100000000. rewrite (Z.add_comm (le_val lo)), (Z.mul_comm _ (le_val hi)).
  set (v := le_val hi * 0x100000000 + le_val lo).
  unfold verifuint. rewrite Z.gtb_ltb, (proj2 (Z.ltb_ge v 0)) by lia.
  unfold MAX_SAFE_INTEGER. destruct (Z.leb_spec v (2 ^ 53 - 1)).
  - by rewrite (proj2 (Z.ltb_ge _ v)) by lia.
  - by rewrite (proj2 (Z.ltb_lt _ v)) by lia.
Qed.

Definition rUInt64 : reader Z := λ b off, v ← readUInt64LE b off; Ok (v, off + 8).

Lemma reads_uint64 v : 0 <= v <= MAX_SAFE_INTEGER → reads rUInt64 (le_bytes 8 v) v.
Proof.
  intros Hv pre post. unfold rUInt64. rewrite readUInt64LE_app by auto with js.
  rewrite le_val_le_bytes_small by (unfold MAX_SAFE_INTEGER in Hv; cbn; lia).
  rewrite (proj2 (Z.leb_le _ _)) by lia. cbn [mbind result_bind]. by rewrite blen_app, blen_le_bytes.
Qed.

Section VarInt.
Context `{!VarUint} `{!VarUintSpec}.

Definition wVarInt (n : Z) : writer := λ b off, '(b', k) ← vu_encode n b off; Ok (b', off + k).
Definition rVarInt : reader Z := λ b off, '(v, k) ← vu_decode b off; Ok (v, off + k).

End VarInt.

(** ** Properties *)

(** [writeUInt64LE] on every number and every place with eight bytes: amounts up to
    2^53 - 1 are written and read back, every other number is refused. *)
Theorem uint64_exact pre rest v : 8 <= blen rest →
  writeUInt64LE (pre ++ rest) (Some v) (blen pre) =
    (if v <? 0 then Throw (Error "specified a negative value for writing an unsigned value")
     else if MAX_SAFE_INTEGER <? v then Throw (Error "RangeError: value out of range")
     else Ok ((pre ++ le_bytes 8 v) ++ drop 8 rest, blen pre + 8)) ∧
  (0 <= v <= MAX_SAFE_INTEGER → readUInt64LE ((pre ++ le_bytes 8 v) ++ drop 8 rest) (blen pre) = Ok v).
Proof.
  intros Hr. split.
  - destruct (Z.ltb_spec v 0) as [N|N]; [|destruct (Z.ltb_spec MAX_SAFE_INTEGER v) as [M|M]].
    + unfold writeUInt64LE, verifuint. by rewrite (proj2 (Z.ltb_lt v 0)).
    + unfold writeUInt64LE, verifuint, MAX_SAFE_INTEGER in *. rewrite Z.gtb_ltb.
      by rewrite (proj2 (Z.ltb_ge v 0)), (proj2 (Z.ltb_lt _ v)) by lia.
    + pose proof (writes_uint64 v ltac:(lia) pre rest ltac:(done)) as W. cbn beta in W. rewrite W.
      by rewrite blen_app, blen_le_bytes.
  - intros Hv. rewrite <- app_assoc, readUInt64LE_app by auto with js.
    rewrite le_val_le_bytes_small by (unfold MAX_SAFE_INTEGER in Hv; cbn; lia).
    by rewrite (proj2 (Z.leb_le _ _)) by lia.
Qed.

Lemma uint64_exact_witness :
  let v := 2 ^ 53 - 1 in
  writeUInt64LE ([7] ++ replicate 9 0) (Some v) (blen [7]) =
    (if v <? 0 then Throw (Error "specified a negative value for writing an unsigned value")
     else if MAX_SAFE_INTEGER <? v then Throw (Error "RangeError: value out of range")
     else Ok (([7] ++ le_bytes 8 v) ++ drop 8 (replicate 9 0), blen [7] + 8)) ∧
  (0 <= v <= MAX_SAFE_INTEGER → readUInt64LE (([7] ++ le_bytes 8 v) ++ drop 8 (replicate 9 0)) (blen [7]) = Ok v).
Proof. apply uint64_exact. vm_compute. discriminate. Defined.

End BufferUtils.
