(* ===== verification/Crypto.v ===== *)
(** * Types, hashes and networks

    [ecashjs-lib/src/types.js], [crypto.js] and [networks.js]: the value types
    the library adds to typeforce, the two composed hashes, and the constants of
    the networks. *)

From stdpp Require Import base tactics list numbers strings.
From S2P Require Import Prelude JsNumber NodeBuffer Externals.
Open Scope Z_scope.

Module Types.

Definition UINT31_MAX : Z := 2 ^ 31 - 1.
Definition SATOSHI_MAX : Z := 21 * 10 ^ 14.

Section Types.
Context `{!Typeforce}.

Definition UInt31 (value : Z) : bool := tf_UInt32 value && (value <=? UINT31_MAX).
Definition Satoshi (value : Z) : bool := tf_UInt53 value && (value <=? SATOSHI_MAX).
Definition Hash160bit (b : buffer) : bool := tf_BufferN 20 b.
Definition Hash256bit (b : buffer) : bool := tf_BufferN 32 b.
Definition Buffer256bit (b : buffer) : bool := tf_BufferN 32 b.

Context `{!TypeforceSpec}.

Lemma UInt31_spec n : UInt31 n = true ↔ 0 <= n < 2 ^ 31.
Proof. unfold UInt31, UINT31_MAX. rewrite andb_true_iff, tf_UInt32_spec, Z.leb_le. lia. Qed.

Lemma Satoshi_spec n : Satoshi n = true ↔ 0 <= n <= SATOSHI_MAX.
Proof.
  unfold Satoshi, SATOSHI_MAX. rewrite andb_true_iff, tf_UInt53_spec, Z.leb_le.
  unfold MAX_SAFE_INTEGER. lia.
Qed.

Lemma Hash160bit_spec b : Hash160bit b = true ↔ blen b = 20.
Proof. apply tf_BufferN_spec. Qed.

Lemma Hash256bit_spec b : Hash256bit b = true ↔ blen b = 32.
Proof. apply tf_BufferN_spec. Qed.

End Types.
End Types.

Module Crypto.
Section Crypto.
Context `{!CreateHash}.

Definition ripemd160 : buffer → buffer := ch_ripemd160.
Definition sha1 : buffer → buffer := ch_sha1.
Definition sha256 : buffer → buffer := ch_sha256.
Definition hash160 (b : buffer) : buffer := ripemd160 (sha256 b).
Definition hash256 (b : buffer) : buffer := sha256 (sha256 b).

Context `{!CreateHashSpec}.

Lemma hash160_ok b : blen (hash160 b) = 20 ∧ bytes_ok (hash160 b).
Proof. apply ch_ripemd160_ok. Qed.

Lemma hash256_ok b : blen (hash256 b) = 32 ∧ bytes_ok (hash256 b).
Proof. apply ch_sha256_ok. Qed.

End Crypto.
End Crypto.

Module Networks.

Record bip32_versions := { bip32_public : Z; bip32_private : Z }.

Record network := {
  messagePrefix : buffer;
  bech32 : option string;
  bip32 : bip32_versions;
  pubKeyHash : Z;
  scriptHash : Z;
  wif : Z;
}.

(** The bytes of [Bitcoin Signed Message] and [Litecoin Signed Message] with the
    length byte before them and the line feed behind. *)
Definition bitcoin_prefix : buffer :=
  [0x18; 0x42; 0x69; 0x74; 0x63; 0x6f; 0x69; 0x6e; 0x20; 0x53; 0x69; 0x67; 0x6e; 0x65; 0x64;
   0x20; 0x4d; 0x65; 0x73; 0x73; 0x61; 0x67; 0x65; 0x3a; 0x0a].
Definition litecoin_prefix : buffer :=
  [0x19; 0x4c; 0x69; 0x74; 0x65; 0x63; 0x6f; 0x69; 0x6e; 0x20; 0x53; 0x69; 0x67; 0x6e; 0x65; 0x64;
   0x20; 0x4d; 0x65; 0x73; 0x73; 0x61; 0x67; 0x65; 0x3a; 0x0a].

Definition bitcoin : network := {|
  messagePrefix := bitcoin_prefix; bech32 := Some "bc"%string;
  bip32 := {| bip32_public := 0x0488b21e; bip32_private := 0x0488ade4 |};
  pubKeyHash := 0x00; scriptHash := 0x05; wif := 0x80 |}.

Definition testnet : network := {|
  messagePrefix := bitcoin_prefix; bech32 := Some "tb"%string;
  bip32 := {| bip32_public := 0x043587cf; bip32_private := 0x04358394 |};
  pubKeyHash := 0x6f; scriptHash := 0xc4; wif := 0xef |}.

Definition litecoin : network := {|
  messagePrefix := litecoin_prefix; bech32 := None;
  bip32 := {| bip32_public := 0x019da462; bip32_private := 0x019d9cfe |};
  pubKeyHash := 0x30; scriptHash := 0x32; wif := 0xb0 |}.

End Networks.
