(* ===== verification/Curve.v ===== *)
(** * Packages for elliptic-curve cryptography

    [bigi] (arbitrary-precision integers), [ecurve] (points of secp256k1) and
    [create-hmac] are npm packages outside the repository.  As in Externals they
    are operational classes with classes of laws.  The laws of [ecurve] are those
    of a cyclic group of prime order: [ec_dl] is the multiple of the generator
    that a point is, and the coordinates of a point are functions of it.  The
    last section has a concrete instance: the same laws in a group of order 7. *)

From stdpp Require Import base tactics list numbers strings.
From Stdlib Require Import Zdivisibility Zcong.
From S2P Require Import Prelude JsNumber NodeBuffer Externals.
Open Scope Z_scope.

(** ** bigi *)
Class Bigi := {
  bi : Type;
  bi_fromBuffer : buffer → bi;
  bi_toBuffer : bi → Z → buffer;
  bi_fromDERInteger : buffer → bi;
  bi_toDERInteger : bi → buffer;
  bi_valueOf : Z → bi;
  bi_signum : bi → Z;
  bi_compareTo : bi → bi → Z;
  bi_equals : bi → bi → bool;
  bi_add : bi → bi → bi;
  bi_subtract : bi → bi → bi;
  bi_multiply : bi → bi → bi;
  bi_divide : bi → bi → bi;
  bi_mod : bi → bi → bi;
  bi_modInverse : bi → bi → bi;
  bi_modPow : bi → bi → bi → bi;
  bi_shiftRight : bi → Z → bi;
  bi_intValue : bi → Z;
  bi_isEven : bi → bool;
}.

Class BigiSpec `{!Bigi} := {
  (** the integer a value stands for *)
  bi_Z : bi → Z;
  bi_fromBuffer_spec b : bytes_ok b → bi_Z (bi_fromBuffer b) = be_val b;
  bi_toBuffer_spec a n : 0 <= n → 0 <= bi_Z a < 256 ^ n → bi_toBuffer a n = be_bytes (Z.to_nat n) (bi_Z a);
  bi_DERInteger_spec a : 0 <= bi_Z a → bi_Z (bi_fromDERInteger (bi_toDERInteger a)) = bi_Z a;
  bi_DERInteger_der a : 0 < bi_Z a < 256 ^ 32 →
    bytes_ok (bi_toDERInteger a) ∧ der_int (bi_toDERInteger a) = true;
  (** no more bytes than the digits and the sign need *)
  bi_DERInteger_len a k : 1 <= k → 0 < bi_Z a < 2 ^ (8 * k - 1) → blen (bi_toDERInteger a) <= k;
  bi_valueOf_spec n : bi_Z (bi_valueOf n) = n;
  bi_signum_spec a : bi_signum a = Z.sgn (bi_Z a);
  bi_compareTo_spec a b : Z.sgn (bi_compareTo a b) = Z.sgn (bi_Z a - bi_Z b);
  bi_equals_spec a b : bi_equals a b = true ↔ bi_Z a = bi_Z b;
  bi_add_spec a b : bi_Z (bi_add a b) = bi_Z a + bi_Z b;
  bi_subtract_spec a b : bi_Z (bi_subtract a b) = bi_Z a - bi_Z b;
  bi_multiply_spec a b : bi_Z (bi_multiply a b) = bi_Z a * bi_Z b;
  bi_divide_spec a b : 0 <= bi_Z a → 0 < bi_Z b → bi_Z (bi_divide a b) = bi_Z a / bi_Z b;
  bi_mod_spec a m : 0 < bi_Z m → bi_Z (bi_mod a m) = bi_Z a mod bi_Z m;
  bi_modInverse_spec a m : 1 < bi_Z m → Z.coprime (bi_Z a) (bi_Z m) →
    0 <= bi_Z (bi_modInverse a m) < bi_Z m ∧ (bi_Z a * bi_Z (bi_modInverse a m)) mod bi_Z m = 1;
  bi_modPow_spec a e m : 0 <= bi_Z e → 0 < bi_Z m → bi_Z (bi_modPow a e m) = (bi_Z a ^ bi_Z e) mod bi_Z m;
  bi_shiftRight_spec a n : 0 <= n → bi_Z (bi_shiftRight a n) = bi_Z a / 2 ^ n;
  bi_intValue_spec a : bi_intValue a = to_int32 (bi_Z a);
  bi_isEven_spec a : bi_isEven a = Z.even (bi_Z a);
}.

(** ** ecurve: the curve secp256k1 and its points *)
Class Ecurve `{!Bigi} := {
  point : Type;
  ec_n : bi;
  ec_p : bi;
  ec_G : point;
  pt_multiply : point → bi → point;
  pt_multiplyTwo : point → bi → point → bi → point;
  pt_add : point → point → point;
  pt_affineX : point → bi;
  pt_affineY : point → bi;
  pt_compressed : point → bool;
  pt_getEncoded : point → bool → buffer;
  pt_decodeFrom : buffer → result point;
  ec_isInfinity : point → bool;
  ec_isOnCurve : point → bool;
  ec_validate : point → result unit;
  ec_pointFromX : bool → bi → result point;
}.

Class EcurveSpec `{!Bigi} `{!BigiSpec} `{!Ecurve} := {
  ec_dl : point → Z;
  ec_n_prime : Z.prime (bi_Z ec_n);
  ec_n_odd : 2 < bi_Z ec_n;
  ec_n_256 : bi_Z ec_n < 256 ^ 32;
  ec_p_256 : 2 < bi_Z ec_p < 256 ^ 32;
  (** the order of the field is a prime that is 3 modulo 4 *)
  ec_p_prime : Z.prime (bi_Z ec_p);
  ec_p_3mod4 : bi_Z ec_p mod 4 = 3;
  ec_p_fermat a : 0 < a < bi_Z ec_p → a ^ (bi_Z ec_p - 1) mod bi_Z ec_p = 1;
  dl_range P : 0 <= ec_dl P < bi_Z ec_n;
  dl_G : ec_dl ec_G = 1;
  dl_multiply P k : 0 <= bi_Z k → ec_dl (pt_multiply P k) = (ec_dl P * bi_Z k) mod bi_Z ec_n;
  dl_multiplyTwo P j Q k : 0 <= bi_Z j → 0 <= bi_Z k →
    ec_dl (pt_multiplyTwo P j Q k) = (ec_dl P * bi_Z j + ec_dl Q * bi_Z k) mod bi_Z ec_n;
  dl_add P Q : ec_dl (pt_add P Q) = (ec_dl P + ec_dl Q) mod bi_Z ec_n;
  dl_infinity P : ec_isInfinity P = true ↔ ec_dl P = 0;
  (** coordinates of points that are equal or opposite *)
  affineX_range P : ec_dl P ≠ 0 → 0 <= bi_Z (pt_affineX P) < bi_Z ec_p;
  affineY_range P : ec_dl P ≠ 0 → 0 < bi_Z (pt_affineY P) < bi_Z ec_p;
  affineX_eq P Q : ec_dl P = ec_dl Q → bi_Z (pt_affineX P) = bi_Z (pt_affineX Q);
  affineX_opp P Q : ec_dl P ≠ 0 → ec_dl P = bi_Z ec_n - ec_dl Q → bi_Z (pt_affineX P) = bi_Z (pt_affineX Q);
  affineY_eq P Q : ec_dl P = ec_dl Q → bi_Z (pt_affineY P) = bi_Z (pt_affineY Q);
  affineY_opp P Q : ec_dl P ≠ 0 → ec_dl P = bi_Z ec_n - ec_dl Q →
    bi_Z (pt_affineY P) = bi_Z ec_p - bi_Z (pt_affineY Q);
  isOnCurve_spec P : ec_isOnCurve P = true;
  validate_spec P : ec_dl P ≠ 0 → ec_validate P = Ok tt;
  getEncoded_eq P Q c : ec_dl P = ec_dl Q → pt_getEncoded P c = pt_getEncoded Q c;
  getEncoded_len P c : ec_dl P ≠ 0 → bytes_ok (pt_getEncoded P c) ∧ blen (pt_getEncoded P c) = (if c then 33 else 65);
  (** the tag of SEC 1: the sign of the ordinate, or none *)
  getEncoded_tag P c : ec_dl P ≠ 0 → ∃ t r, pt_getEncoded P c = t :: r ∧ if c then t = 2 ∨ t = 3 else t = 4;
  decodeFrom_spec P c : ec_dl P ≠ 0 →
    ∃ Q, pt_decodeFrom (pt_getEncoded P c) = Ok Q ∧ ec_dl Q = ec_dl P ∧ pt_compressed Q = c;
}.

(** ** create-hmac: [createHmac(algo, key).update(d1).update(d2).digest()] is the
    code of the concatenation [d1 ++ d2] *)
Class CreateHmac := {
  hm_sha256 : buffer → buffer → buffer;
  hm_sha512 : buffer → buffer → buffer;
}.
Class CreateHmacSpec `{!CreateHmac} : Prop := {
  hm_sha256_ok k d : blen (hm_sha256 k d) = 32 ∧ bytes_ok (hm_sha256 k d);
  hm_sha512_ok k d : blen (hm_sha512 k d) = 64 ∧ bytes_ok (hm_sha512 k d);
}.

(** ** A concrete instance *)
Module ConcreteCurve.

(** The shortest big-endian form with a clear sign bit. *)
Definition der_bytes (a : Z) : buffer :=
  match be_bytes (Z.to_nat (Z.log2 a / 8 + 1)) a with
  | [] => []
  | x :: v => if x <? 128 then x :: v else 0 :: x :: v
  end.

#[export] Instance bigi : Bigi := {
  bi := Z;
  bi_fromBuffer := be_val;
  bi_toBuffer a n := be_bytes (Z.to_nat n) a;
  bi_fromDERInteger := be_val;
  bi_toDERInteger := der_bytes;
  bi_valueOf n := n;
  bi_signum := Z.sgn;
  bi_compareTo a b := a - b;
  bi_equals := Z.eqb;
  bi_add := Z.add;
  bi_subtract := Z.sub;
  bi_multiply := Z.mul;
  bi_divide := Z.div;
  bi_mod := Z.modulo;
  bi_modInverse := Z.invmod;
  bi_modPow a e m := (a ^ e) mod m;
  bi_shiftRight a n := a / 2 ^ n;
  bi_intValue := to_int32;
  bi_isEven := Z.even;
}.

Lemma inverse_spec a m : 1 < m → Z.coprime a m →
  0 <= Z.invmod a m < m ∧ (a * Z.invmod a m) mod m = 1.
Proof.
  intros Hm Hc. split; [rewrite <- Z.mod_invmod; apply Z.mod_pos_bound; lia|].
  rewrite Z.mul_comm. apply Z.invmod_coprime; [lia|done].
Qed.

Lemma log2_bytes a k : k = Z.to_nat (Z.log2 a / 8) → 0 < a →
  256 ^ Z.of_nat k <= a < 256 ^ Z.of_nat (S k).
Proof.
  intros -> Ha. pose proof (Z.log2_nonneg a). pose proof (Z.log2_spec a Ha) as [L1 L2].
  pose proof (Z.div_pos (Z.log2 a) 8 ltac:(lia) ltac:(lia)).
  rewrite Nat2Z.inj_succ, Z2Nat.id by done. change 256 with (2 ^ 8). rewrite <- !Z.pow_mul_r by lia.
  pose proof (Z.mul_div_le (Z.log2 a) 8 ltac:(lia)). pose proof (Z.mul_succ_div_gt (Z.log2 a) 8 ltac:(lia)).
  split.
  - etransitivity; [|exact L1]. apply Z.pow_le_mono_r; lia.
  - eapply Z.lt_le_trans; [exact L2|]. apply Z.pow_le_mono_r; lia.
Qed.

(** The bytes of a positive number, the first of which is not zero. *)
Lemma der_bytes_form a : 0 < a → ∃ x v, be_bytes (Z.to_nat (Z.log2 a / 8 + 1)) a = x :: v ∧
  0 < x < 256 ∧ bytes_ok v ∧ be_val (x :: v) = a ∧ blen v = Z.log2 a / 8.
Proof.
  intros Ha. pose proof (Z.log2_nonneg a). pose proof (Z.div_pos (Z.log2 a) 8 ltac:(lia) ltac:(lia)).
  set (k := Z.to_nat (Z.log2 a / 8)). replace (Z.to_nat _) with (S k) by lia.
  destruct (log2_bytes a k eq_refl Ha) as [L1 L2]. pose proof (be_bytes_S k a) as E.
  exists ((a / 256 ^ Z.of_nat k) mod 256), (be_bytes k a). split; [exact E|].
  assert (0 < a / 256 ^ Z.of_nat k < 256).
  { split; [apply Z.div_str_pos; pose proof (pow256_pos k); lia|].
    apply Z.div_lt_upper_bound; [apply pow256_pos|]. rewrite pow256_succ in L2. lia. }
  rewrite Z.mod_small in * by lia. split_and!; [lia|lia|auto with js| |rewrite blen_be_bytes; lia].
  rewrite <- E, be_val_be_bytes. apply Z.mod_small. lia.
Qed.

Lemma der_spec a : 0 <= a → be_val (der_bytes a) = a.
Proof.
  intros Ha. destruct (Z.eq_dec a 0) as [->|]; [done|]. unfold der_bytes.
  destruct (der_bytes_form a ltac:(lia)) as (x & v & -> & Hx & Hv & E & _).
  destruct (x <? 128); [done|]. by rewrite be_val_0.
Qed.

Lemma der_bytes_der a : 0 < a < 256 ^ 32 → bytes_ok (der_bytes a) ∧ der_int (der_bytes a) = true.
Proof.
  intros Ha. unfold der_bytes. destruct (der_bytes_form a ltac:(lia)) as (x & v & -> & Hx & Hv & _ & L).
  assert (Hl : blen v <= 31).
  { rewrite L. assert (Z.log2 a < 256) by (apply Z.log2_lt_pow2; lia).
    pose proof (Z.div_lt_upper_bound (Z.log2 a) 8 32). lia. }
  destruct (Z.ltb_spec x 128).
  - split; [by apply bytes_ok_cons; unfold is_byte; split; [lia|]|].
    destruct v as [|y v]; cbn [der_int]; [lia|]. rewrite blen_cons.
    rewrite (proj2 (Z.leb_le _ _)), (proj2 (Z.ltb_lt _ _)), (proj2 (Z.eqb_neq _ _)) by lia. done.
  - split; [repeat (apply bytes_ok_cons; unfold is_byte; split; [lia|]); done|].
    cbn [der_int]. rewrite !blen_cons.
    rewrite (proj2 (Z.leb_le (1 + _) _)), (proj2 (Z.leb_le 128 x)) by lia. done.
Qed.

Lemma der_bytes_len a k : 1 <= k → 0 < a < 2 ^ (8 * k - 1) → blen (der_bytes a) <= k.
Proof.
  intros Hk Ha. unfold der_bytes. destruct (der_bytes_form a ltac:(lia)) as (x & v & -> & Hx & Hv & E & L).
  assert (H1 : Z.log2 a < 8 * k - 1) by (apply Z.log2_lt_pow2; lia).
  pose proof (Z.mul_div_le (Z.log2 a) 8 ltac:(lia)). rewrite <- L in *. pose proof (blen_nonneg v).
  destruct (Z.ltb_spec x 128); rewrite !blen_cons; [lia|].
  assert (7 + 8 * blen v <= Z.log2 a); [|lia]. apply Z.log2_le_pow2; [lia|]. rewrite <- E, be_val_cons.
  rewrite Z.pow_add_r, Z.pow_mul_r by lia. change (2 ^ 7) with 128. change (2 ^ 8) with 256. pose proof (be_val_bound v Hv).
  unfold blen in *. nia.
Qed.

#[export] Instance bigi_spec : BigiSpec := {
  bi_Z := λ a : Z, a;
  bi_fromBuffer_spec b _ := eq_refl;
  bi_toBuffer_spec a n _ _ := eq_refl;
  bi_DERInteger_spec := der_spec;
  bi_DERInteger_der := der_bytes_der;
  bi_DERInteger_len := der_bytes_len;
  bi_valueOf_spec n := eq_refl;
  bi_signum_spec a := eq_refl;
  bi_compareTo_spec a b := eq_refl;
  bi_equals_spec := Z.eqb_eq;
  bi_add_spec a b := eq_refl;
  bi_subtract_spec a b := eq_refl;
  bi_multiply_spec a b := eq_refl;
  bi_divide_spec a b _ _ := eq_refl;
  bi_mod_spec a m _ := eq_refl;
  bi_modInverse_spec := inverse_spec;
  bi_modPow_spec a e m _ _ := eq_refl;
  bi_shiftRight_spec a n _ := eq_refl;
  bi_intValue_spec a := eq_refl;
  bi_isEven_spec a := eq_refl;
}.

(** The group of order 7: a point is its multiple of the generator, and the flag
    that remembers how it was encoded. *)
Definition encode7 (a : Z) (c : bool) : buffer :=
  if c then (if Z.even a then 2 else 3) :: be_bytes 32 ((a * a) mod 7)
  else 4 :: be_bytes 32 ((a * a) mod 7) ++ be_bytes 32 a.

Definition decode7 (b : buffer) : result (Z * bool) :=
  match list_find (λ p : Z * bool, encode7 p.1 p.2 = b)
          (list_prod (map Z.of_nat (seq 1 6)) [true; false]) with
  | Some (_, p) => Ok p
  | None => Throw (Error "Invalid sequence tag")
  end.

#[export] Instance ecurve : Ecurve := {
  point := Z * bool;
  ec_n := 7;
  ec_p := 7;
  ec_G := (1, true);
  pt_multiply P k := ((P.1 * k) mod 7, true);
  pt_multiplyTwo P j Q k := ((P.1 * j + Q.1 * k) mod 7, true);
  pt_add P Q := ((P.1 + Q.1) mod 7, true);
  pt_affineX P := (P.1 mod 7 * (P.1 mod 7)) mod 7;
  pt_affineY P := P.1 mod 7;
  pt_compressed P := P.2;
  pt_getEncoded P c := encode7 (P.1 mod 7) c;
  pt_decodeFrom := decode7;
  ec_isInfinity P := P.1 mod 7 =? 0;
  ec_isOnCurve P := true;
  ec_validate P := Ok tt;
  ec_pointFromX odd x :=
    match list_find (λ a, (a * a) mod 7 = x ∧ Z.odd a = odd) (map Z.of_nat (seq 1 6)) with
    | Some (_, a) => Ok (a, true)
    | None => Throw (Error "Invalid point")
    end;
}.

Lemma prime_7 : Z.prime 7.
Proof.
  split; [lia|]. intros n Hn [k Hk]. assert (k = 1 ∨ k = 2 ∨ k = 3 ∨ 3 < k ∨ k < 1) by lia. nia.
Qed.

Lemma double_opp7 a b : (a mod 7) ≠ 0 → a mod 7 = 7 - b mod 7 →
  (a mod 7 * (a mod 7)) mod 7 = (b mod 7 * (b mod 7)) mod 7.
Proof.
  intros Ha E. rewrite E. replace ((7 - b mod 7) * (7 - b mod 7)) with (b mod 7 * (b mod 7) + (7 - 2 * (b mod 7)) * 7) by lia.
  apply Z.mod_add. lia.
Qed.

Lemma decode7_spec a c : 0 < a < 7 → decode7 (encode7 a c) = Ok (a, c).
Proof.
  intros Ha. assert (Hin : a ∈ map Z.of_nat (seq 1 6)).
  { apply list_elem_of_In, in_map_iff. exists (Z.to_nat a). rewrite in_seq. lia. }
  repeat (apply elem_of_cons in Hin as [->|Hin]; [destruct c; vm_compute; reflexivity|]).
  by apply elem_of_nil in Hin.
Qed.

Lemma encode7_ok a c : bytes_ok (encode7 a c) ∧ blen (encode7 a c) = (if c then 33 else 65).
Proof.
  unfold encode7. destruct c.
  - split; [|rewrite blen_cons, blen_be_bytes; done]. apply bytes_ok_cons.
    split; [destruct (Z.even a); unfold is_byte; lia|auto with js].
  - split; [|rewrite blen_cons, blen_app, !blen_be_bytes; done]. apply bytes_ok_cons.
    split; [unfold is_byte; lia|]. apply bytes_ok_app. auto with js.
Qed.

#[export] Instance ecurve_spec : EcurveSpec.
Proof.
  unshelve refine {| ec_dl := λ P : point, (P : Z * bool).1 mod 7 |}; cbn; try (intros; lia); try done.
  - apply prime_7.
  - apply prime_7.
  - intros a Ha. assert (Hin : a ∈ map Z.of_nat (seq 1 6)).
    { apply list_elem_of_In, in_map_iff. exists (Z.to_nat a). rewrite in_seq. lia. }
    repeat (apply elem_of_cons in Hin as [->|Hin]; [reflexivity|]). by apply elem_of_nil in Hin.
  - intros P. apply Z.mod_pos_bound. lia.
  - intros P k _. by rewrite Z.mod_mod, Z.mul_mod_idemp_l.
  - intros P j Q k _ _. rewrite Z.mod_mod by done.
    by rewrite <- Z.add_mod_idemp_l, <- Z.add_mod_idemp_r, <- (Z.mul_mod_idemp_l P.1), <- (Z.mul_mod_idemp_l Q.1),
      Z.add_mod_idemp_r, Z.add_mod_idemp_l.
  - intros P Q. by rewrite Z.mod_mod, <- Z.add_mod.
  - intros P _. apply Z.mod_pos_bound. lia.
  - intros P H. pose proof (Z.mod_pos_bound P.1 7). lia.
  - intros P Q ->. done.
  - intros P Q. apply double_opp7.
  - intros P Q c ->. done.
  - intros P c _. apply encode7_ok.
  - intros P c _. unfold encode7. destruct c; eexists _, _; (split; [reflexivity|]); [destruct (Z.even _); auto|done].
  - intros P c H. exists (P.1 mod 7, c). split; [|split; [apply Z.mod_mod; lia|done]].
    apply decode7_spec. pose proof (Z.mod_pos_bound P.1 7). lia.
Qed.

#[export] Instance create_hmac : CreateHmac := {
  hm_sha256 k d := be_bytes 32 ((le_val k + le_val d + 3) mod 7);
  hm_sha512 k d := be_bytes 32 ((le_val k + le_val d + 3) mod 7) ++ be_bytes 32 (le_val d);
}.

#[export] Instance create_hmac_spec : CreateHmacSpec.
Proof.
  split; intros; cbn [hm_sha256 hm_sha512 create_hmac]; rewrite ?blen_app, !blen_be_bytes; [auto with js|].
  split; [done|]. apply bytes_ok_app. auto with js.
Qed.

End ConcreteCurve.
