(* ===== verification/Script.v ===== *)
(** * Scripts

    [ecashjs-lib/src/script.js]: a script is either a Buffer or the array of its
    chunks, opcodes and data.  [serialize] is the byte string of a list of
    chunks; [compile], which sizes a buffer first and then fills it, computes
    it, and [decompile] inverts it up to [minimalize]. *)

From stdpp Require Import base tactics list gmap numbers strings.
From S2P Require Import Prelude JsNumber NodeBuffer Opcodes PushData ScriptNumber Externals.
Open Scope Z_scope.

Inductive chunk : Type :=
| COp (op : Z)
| CBuf (b : buffer).

(** The argument of [compile] and [decompile]: a Buffer or an array. *)
Inductive script : Type :=
| SBuf (b : buffer)
| SArr (cs : list chunk).

#[export] Instance chunk_eq_dec : EqDecision chunk.
Proof. solve_decision. Defined.

Module Script.

Definition OP_INT_BASE : Z := OP_RESERVED.

Definition isOPInt (value : chunk) : bool :=
  match value with
  | COp v => (v =? OP_0) || ((OP_1 <=? v) && (v <=? OP_16)) || (v =? OP_1NEGATE)
  | CBuf _ => false
  end.

Definition isPushOnlyChunk (value : chunk) : bool :=
  match value with CBuf _ => true | COp _ => isOPInt value end.

Definition isPushOnly (value : list chunk) : bool := forallb isPushOnlyChunk value.

(** [None] is [undefined]. *)
Definition asMinimalOP (buf : buffer) : option Z :=
  if blen buf =? 0 then Some OP_0
  else if negb (blen buf =? 1) then None
  else
    let b0 := bits_of (get buf 0) in
    if (1 <=? b0) && (b0 <=? 16) then Some (OP_INT_BASE + b0)
    else if b0 =? 0x81 then Some OP_1NEGATE
    else None.

Section WithMem.
Context `{Mem : UninitMem}.

(** The size [compile] reserves for a chunk. *)
Definition compile_size (accum : Z) (c : chunk) : Z :=
  match c with
  | CBuf b =>
      if (blen b =? 1) && bool_decide (is_Some (asMinimalOP b)) then accum + 1
      else accum + PushData.encodingLength (blen b) + blen b
  | COp _ => accum + 1
  end.

(** Writes a push of [b] and advances the offset. *)
Definition push_data (b : buffer) : writer := λ buf offset,
  '(buf, size) ← PushData.encode buf (blen b) offset;
  let offset := offset + size in
  '(buf, _) ← copy b buf offset;
  Ok (buf, offset + blen b).

(** The callback of [chunks.forEach] in [compile]. *)
Definition compile_chunk (c : chunk) : writer := λ buf offset,
  match c with
  | CBuf b =>
      match asMinimalOP b with
      | Some opcode => buf ← writeUInt8 buf opcode offset; Ok (buf, offset + 1)
      | None => push_data b buf offset
      end
  | COp op => buf ← writeUInt8 buf op offset; Ok (buf, offset + 1)
  end.

Definition compile (chunks : script) : result buffer :=
  match chunks with
  | SBuf b => Ok b
  | SArr cs =>
      let bufferSize := fold_left compile_size cs 0 in
      let buf := allocUnsafe bufferSize in
      '(buf, offset) ← wforEach compile_chunk cs buf 0;
      if negb (offset =? blen buf) then Throw (Error "Could not decode chunks") else Ok buf
  end.

(** [compile2]: every data chunk is pushed as it is. *)
Definition compile2_size (accum : Z) (c : chunk) : Z :=
  match c with
  | CBuf b => accum + PushData.encodingLength (blen b) + blen b
  | COp _ => accum + 1
  end.

Definition compile2_chunk (c : chunk) : writer := λ buf offset,
  match c with
  | CBuf b => push_data b buf offset
  | COp op => buf ← writeUInt8 buf op offset; Ok (buf, offset + 1)
  end.

Definition compile2 (chunks : script) : result buffer :=
  match chunks with
  | SBuf b => Ok b
  | SArr cs =>
      let bufferSize := fold_left compile2_size cs 0 in
      let buf := allocUnsafe bufferSize in
      '(buf, offset) ← wforEach compile2_chunk cs buf 0;
      if negb (offset =? blen buf) then Throw (Error "Could not decode chunks") else Ok buf
  end.

End WithMem.

(** The loop of [decompile]; every turn advances [i], so [blen buf + 1] turns
    are enough. *)
Fixpoint decompile_loop (fuel : nat) (buf : buffer) (i : Z) (chunks : list chunk)
    : result (list chunk) :=
  match fuel with
  | O => Throw OutOfFuel
  | S fuel =>
      if i <? blen buf then
        let opcode := bits_of (get buf i) in
        if (OP_0 <? opcode) && (opcode <=? OP_PUSHDATA4) then
          d ← PushData.decode buf i;
          match d with
          | None => Ok []
          | Some d =>
              let i := i + PushData.d_size d in
              let data := slice buf i (i + PushData.d_number d) in
              let i := i + PushData.d_number d in
              match asMinimalOP data with
              | Some op => decompile_loop fuel buf i (chunks ++ [COp op])
              | None => decompile_loop fuel buf i (chunks ++ [CBuf data])
              end
          end
        else decompile_loop fuel buf (i + 1) (chunks ++ [COp opcode])
      else Ok chunks
  end.

Definition decompile (s : script) : result (list chunk) :=
  match s with
  | SArr cs => Ok cs
  | SBuf b => decompile_loop (S (length b)) b 0 []
  end.

Definition toStack {Mem : UninitMem} (s : script) : result (list buffer) :=
  chunks ← decompile s;
  _ ← guard_js (isPushOnly chunks) TypeforceError;
  mapM (λ op, match op with
              | CBuf b => Ok b
              | COp v => if v =? OP_0 then Ok [] else ScriptNumber.encode (v - OP_INT_BASE)
              end) chunks.

Definition isCanonicalPubKey (c : chunk) : bool :=
  match c with
  | COp _ => false
  | CBuf b =>
      if blen b <? 33 then false
      else
        let b0 := bits_of (get b 0) in
        if (b0 =? 0x02) || (b0 =? 0x03) then blen b =? 33
        else if b0 =? 0x04 then blen b =? 65
        else false
  end.

Definition isDefinedHashType (hashType : option Z) : bool :=
  let hashTypeMod := js_and (bits_of hashType) (js_not 0xc0) in
  (0x00 <? hashTypeMod) && (hashTypeMod <? 0x04).

Definition isCanonicalSignature `{!Bip66} (c : chunk) : bool :=
  match c with
  | COp _ => false
  | CBuf b =>
      if negb (isDefinedHashType (get b (blen b - 1))) then false
      else if blen b =? 65 then true
      else bip66_check (slice b 0 (-1))
  end.

(** ** Specification *)

Definition chunk_bytes (c : chunk) : buffer :=
  match c with
  | COp op => [op]
  | CBuf b => match asMinimalOP b with
              | Some op => [op]
              | None => PushData.prefix (blen b) ++ b
              end
  end.

Definition serialize (cs : list chunk) : buffer := concat (map chunk_bytes cs).

(** The bytes [compile2] gives a chunk. *)
Definition chunk_bytes2 (c : chunk) : buffer :=
  match c with
  | COp op => [op]
  | CBuf b => PushData.prefix (blen b) ++ b
  end.

Definition serialize2 (cs : list chunk) : buffer := concat (map chunk_bytes2 cs).

(** Data that has an opcode of its own is that opcode after a round trip. *)
Definition minimalize (c : chunk) : chunk :=
  match c with
  | COp op => COp op
  | CBuf b => match asMinimalOP b with Some op => COp op | None => CBuf b end
  end.

(** A chunk that has a byte string: opcodes are bytes, data is below 4 GiB. *)
Definition chunk_wf (c : chunk) : Prop :=
  match c with
  | COp op => is_byte op
  | CBuf b => bytes_ok b ∧ blen b < 2 ^ 32
  end.

(** A chunk as [decompile] makes them: no bare push opcode. *)
Definition chunk_decodable (c : chunk) : Prop :=
  match c with
  | COp op => op = 0 ∨ 78 < op < 256
  | CBuf b => bytes_ok b ∧ blen b < 2 ^ 32
  end.

(** ** Minimal opcodes *)

Lemma asMinimalOP_one x : asMinimalOP [x] =
  if (1 <=? x) && (x <=? 16) then Some (80 + x) else if x =? 0x81 then Some 79 else None.
Proof. done. Qed.

Lemma asMinimalOP_long x y b : asMinimalOP (x :: y :: b) = None.
Proof.
  unfold asMinimalOP. rewrite !blen_cons. pose proof (blen_nonneg b).
  by rewrite (proj2 (Z.eqb_neq _ 0)), (proj2 (Z.eqb_neq _ 1)) by lia.
Qed.

Lemma asMinimalOP_Some b op : asMinimalOP b = Some op →
  (b = [] ∧ op = 0) ∨ (∃ x, b = [x] ∧ 1 <= x <= 16 ∧ op = 80 + x) ∨ (b = [0x81] ∧ op = 79).
Proof.
  destruct b as [|x [|y b]].
  - change (asMinimalOP []) with (Some 0). intros [= <-]. by left.
  - rewrite asMinimalOP_one. destruct (Z.leb_spec 1 x), (Z.leb_spec x 16); cbn [andb];
      [intros [= <-]; right; left; exists x; split_and!; (done || lia)|..];
      (destruct (Z.eqb_spec x 0x81) as [->|]; [intros [= <-]; by right; right|discriminate]).
  - by rewrite asMinimalOP_long.
Qed.

Lemma asMinimalOP_None b : asMinimalOP b = None → 0 < blen b.
Proof. destruct b; [discriminate|]. intros _. blen_lia. Qed.

Lemma asMinimalOP_range b op : asMinimalOP b = Some op → op = 0 ∨ 78 < op < 97.
Proof. intros [[_ ->]|[(x & _ & ? & ->)|[_ ->]]]%asMinimalOP_Some; lia. Qed.

Lemma asMinimalOP_short b op : asMinimalOP b = Some op → blen b <= 1.
Proof. intros [[-> _]|[(x & -> & _)|[-> _]]]%asMinimalOP_Some; done. Qed.

Lemma chunk_decodable_wf c : chunk_decodable c → chunk_wf c.
Proof. destruct c; cbn; unfold is_byte; [lia|done]. Qed.

Lemma minimalize_idem c : minimalize (minimalize c) = minimalize c.
Proof. destruct c as [|b]; cbn; [done|]. destruct (asMinimalOP b) eqn:E; cbn; [done|by rewrite E]. Qed.

Lemma chunk_bytes_minimalize c : chunk_bytes (minimalize c) = chunk_bytes c.
Proof. destruct c as [|b]; cbn; [done|]. destruct (asMinimalOP b) eqn:E; cbn; [done|by rewrite E]. Qed.

Lemma serialize_minimalize cs : serialize (map minimalize cs) = serialize cs.
Proof. unfold serialize. rewrite map_map. f_equal. apply map_ext, chunk_bytes_minimalize. Qed.

Lemma serialize_cons c cs : serialize (c :: cs) = chunk_bytes c ++ serialize cs.
Proof. done. Qed.

Lemma serialize_app cs cs' : serialize (cs ++ cs') = serialize cs ++ serialize cs'.
Proof. unfold serialize. by rewrite map_app, concat_app. Qed.

Lemma serialize2_cons c cs : serialize2 (c :: cs) = chunk_bytes2 c ++ serialize2 cs.
Proof. done. Qed.

Lemma bytes_ok_chunk_bytes c : chunk_wf c → bytes_ok (chunk_bytes c).
Proof.
  destruct c as [op|b]; cbn; intros H; [by constructor|]. destruct (asMinimalOP b) eqn:E.
  - apply asMinimalOP_range in E. constructor; [unfold is_byte; lia|done].
  - apply bytes_ok_app. split; [|tauto]. apply PushData.bytes_ok_prefix. auto with js.
Qed.

(** ** compile *)

Lemma writes_byte op : is_byte op →
  writes (λ b off, b' ← writeUInt8 b op off; Ok (b', off + 1)) [op].
Proof.
  intros H. unfold is_byte in H. pose proof (writes_uint 1 op) as W. cbn [le_bytes] in W.
  rewrite Z.mod_small in W by lia. apply W. cbn. lia.
Qed.

Lemma writes_push_data b : blen b < 2 ^ 32 → writes (push_data b) (PushData.prefix (blen b) ++ b).
Proof.
  intros Hb pre rest Hlen. rewrite blen_app, PushData.blen_prefix in Hlen.
  pose proof (blen_nonneg b). pose proof (PushData.encodingLength_pos (blen b)).
  unfold push_data. rewrite PushData.encode_app by lia. cbn [mbind result_bind].
  rewrite <- (PushData.blen_prefix (blen b)), <- blen_app.
  rewrite copy_app.
  - cbn [mbind result_bind]. rewrite drop_drop, <- !app_assoc, length_app, !blen_app.
    by rewrite Z.add_assoc.
  - rewrite <- (PushData.blen_prefix (blen b)) in Hlen. unfold blen in *. rewrite length_drop. lia.
Qed.

Lemma writes_compile_chunk c : chunk_wf c → writes (compile_chunk c) (chunk_bytes c).
Proof.
  destruct c as [op|b]; cbn [chunk_wf chunk_bytes]; intros H; [by apply writes_byte|].
  unfold compile_chunk. destruct (asMinimalOP b) eqn:E.
  - apply writes_byte. apply asMinimalOP_range in E. unfold is_byte. lia.
  - apply writes_push_data, H.
Qed.

Lemma writes_compile2_chunk c : chunk_wf c → writes (compile2_chunk c) (chunk_bytes2 c).
Proof.
  destruct c as [op|b]; cbn [chunk_wf chunk_bytes2]; intros H; [by apply writes_byte|].
  apply writes_push_data, H.
Qed.

(** The size reserved for a chunk is the length of its bytes. *)
Lemma compile_size_chunk n c : compile_size n c = n + blen (chunk_bytes c).
Proof.
  destruct c as [op|b]; cbn [compile_size chunk_bytes]; [done|]. destruct (asMinimalOP b) eqn:E.
  - rewrite bool_decide_true, andb_true_r, blen_cons, blen_nil by done.
    apply asMinimalOP_short in E. destruct (Z.eqb_spec (blen b) 1); [lia|].
    pose proof (blen_nonneg b). replace (blen b) with 0 by lia.
    change (PushData.encodingLength 0) with 1. lia.
  - rewrite bool_decide_false, andb_false_r by (by intros []).
    rewrite blen_app, PushData.blen_prefix. lia.
Qed.

Lemma compile_size_sum cs n : fold_left compile_size cs n = n + blen (serialize cs).
Proof.
  revert n. induction cs as [|c cs IH]; intros n; cbn [fold_left]; [change (blen (serialize [])) with 0; lia|].
  rewrite IH, compile_size_chunk, serialize_cons, blen_app. lia.
Qed.

Lemma compile2_size_sum cs n : fold_left compile2_size cs n = n + blen (serialize2 cs).
Proof.
  revert n. induction cs as [|c cs IH]; intros n; cbn [fold_left]; [change (blen (serialize2 [])) with 0; lia|].
  rewrite IH, serialize2_cons, blen_app.
  destruct c; cbn [compile2_size chunk_bytes2]; [blen_lia|].
  rewrite blen_app, PushData.blen_prefix. lia.
Qed.

Section CompileSpec.
Context `{Mem : UninitMem}.

Lemma compile_serialize cs : Forall chunk_wf cs → compile (SArr cs) = Ok (serialize cs).
Proof.
  intros Hwf. unfold compile. rewrite compile_size_sum, Z.add_0_l.
  rewrite (writes_fill _ (serialize cs)).
  - cbn [mbind result_bind]. by rewrite Z.eqb_refl.
  - apply writes_forEach. eapply Forall_impl; [done|]. apply writes_compile_chunk.
  - apply blen_allocUnsafe. auto with js.
Qed.

Lemma compile2_serialize2 cs : Forall chunk_wf cs → compile2 (SArr cs) = Ok (serialize2 cs).
Proof.
  intros Hwf. unfold compile2. rewrite compile2_size_sum, Z.add_0_l.
  rewrite (writes_fill _ (serialize2 cs)).
  - cbn [mbind result_bind]. by rewrite Z.eqb_refl.
  - apply writes_forEach. eapply Forall_impl; [done|]. apply writes_compile2_chunk.
  - apply blen_allocUnsafe. auto with js.
Qed.

End CompileSpec.

(** ** decompile *)

(** One turn of the loop on an opcode that is not a push. *)
Lemma decompile_step_op fuel pre op rest acc :
  op = 0 ∨ 78 < op →
  decompile_loop (S fuel) (pre ++ op :: rest) (blen pre) acc
  = decompile_loop fuel (pre ++ op :: rest) (blen (pre ++ [op])) (acc ++ [COp op]).
Proof.
  intros Hop. cbn [decompile_loop]. rewrite (proj2 (Z.ltb_lt _ _)) by blen_lia.
  rewrite get_app_len. cbn [bits_of default from_option id]. unfold OP_0, OP_PUSHDATA4.
  replace ((0 <? op) && (op <=? 78)) with false
    by (symmetry; apply andb_false_iff; rewrite Z.ltb_ge, Z.leb_gt; lia).
  f_equal. blen_lia.
Qed.

Lemma prefix_hd n : 0 < n < 2 ^ 32 → ∃ op r, PushData.prefix n = op :: r ∧ 0 < op <= 78.
Proof. intros. unfold PushData.prefix. split_ifs; eexists _, _; (split; [done|lia]). Qed.

(** One turn of the loop on the push of [b]. *)
Lemma decompile_step_push fuel pre b rest acc :
  0 < blen b < 2 ^ 32 →
  decompile_loop (S fuel) (pre ++ (PushData.prefix (blen b) ++ b) ++ rest) (blen pre) acc
  = decompile_loop fuel (pre ++ (PushData.prefix (blen b) ++ b) ++ rest)
      (blen (pre ++ PushData.prefix (blen b) ++ b)) (acc ++ [minimalize (CBuf b)]).
Proof.
  intros Hb. destruct (prefix_hd (blen b) Hb) as (op & r & Ep & Hop).
  set (buf := pre ++ (PushData.prefix (blen b) ++ b) ++ rest).
  assert (Eg : get buf (blen pre) = Some op).
  { unfold buf. rewrite Ep. cbn [app]. apply get_app_len. }
  assert (El : blen pre < blen buf) by (unfold buf; rewrite Ep; blen_lia).
  cbn [decompile_loop]. rewrite (proj2 (Z.ltb_lt _ _)), Eg by done.
  cbn [bits_of default from_option id]. unfold OP_0, OP_PUSHDATA4.
  rewrite (proj2 (Z.ltb_lt _ _)), (proj2 (Z.leb_le _ _)) by lia. cbn [andb].
  assert (Ed : PushData.decode buf (blen pre) = Ok (Some {| PushData.d_opcode := hd 0 (PushData.prefix (blen b));
     PushData.d_number := blen b; PushData.d_size := PushData.encodingLength (blen b) |})).
  { unfold buf. rewrite <- app_assoc. by apply PushData.decode_app; lia. }
  rewrite Ed. cbn [mbind result_bind PushData.d_number PushData.d_size].
  rewrite <- (PushData.blen_prefix (blen b)), <- blen_app.
  replace (slice _ _ _) with b.
  2:{ unfold buf. rewrite <- (app_assoc _ b), (app_assoc pre). symmetry. apply slice_app. }
  rewrite <- blen_app, <- app_assoc. cbn [minimalize]. by destruct (asMinimalOP b).
Qed.

(** The two ways the bytes of a chunk can look. *)
Definition reads_as (c : chunk) (bs : buffer) : Prop :=
  (∃ op, bs = [op] ∧ (op = 0 ∨ 78 < op) ∧ minimalize c = COp op) ∨
  (∃ b, bs = PushData.prefix (blen b) ++ b ∧ 0 < blen b < 2 ^ 32 ∧ minimalize c = minimalize (CBuf b)).

Lemma reads_as_chunk_bytes c : chunk_decodable c → reads_as c (chunk_bytes c).
Proof.
  destruct c as [op|b]; cbn; intros H; [left; exists op; split_and!; [done|lia|done]|].
  unfold reads_as. cbn. destruct (asMinimalOP b) eqn:E.
  - left. exists z. apply asMinimalOP_range in E. split_and!; [done|lia|done].
  - right. exists b. apply asMinimalOP_None in E as ?. rewrite E. split_and!; [done|lia|lia|done].
Qed.

Lemma reads_as_chunk_bytes2 c : chunk_decodable c → reads_as c (chunk_bytes2 c).
Proof.
  destruct c as [op|b]; cbn; intros H; [left; exists op; split_and!; [done|lia|done]|].
  destruct (Z.eq_dec (blen b) 0) as [E|E].
  - apply blen_0_nil in E as ->. left. exists 0. split_and!; [done|lia|done].
  - right. exists b. pose proof (blen_nonneg b). split_and!; [done|lia|lia|done].
Qed.

Lemma reads_as_pos c bs : reads_as c bs → 1 <= blen bs.
Proof.
  intros [(op & -> & _)|(b & -> & _)]; [done|].
  pose proof (PushData.encodingLength_pos (blen b)). pose proof (blen_nonneg b).
  rewrite blen_app, PushData.blen_prefix. lia.
Qed.

Lemma decompile_loop_reads (g : chunk → buffer) cs fuel pre acc :
  Forall (λ c, reads_as c (g c)) cs → (length cs < fuel)%nat →
  decompile_loop fuel (pre ++ concat (map g cs)) (blen pre) acc = Ok (acc ++ map minimalize cs).
Proof.
  intros H. revert fuel pre acc. induction H as [|c cs Hc _ IH]; intros fuel pre acc Hf;
    (destruct fuel as [|fuel]; [cbn in Hf; lia|]); cbn [map concat length] in *.
  - rewrite !app_nil_r. cbn. by rewrite (proj2 (Z.ltb_ge _ _)) by lia.
  - destruct Hc as [(op & Eg & Hop & Em)|(b & Eg & Hb & Em)]; rewrite Eg, Em.
    + cbn [app]. rewrite decompile_step_op by done.
      rewrite (cons_middle op pre), app_assoc, IH by lia. by rewrite <- app_assoc.
    + rewrite decompile_step_push by done.
      rewrite app_assoc, IH by lia. by rewrite <- app_assoc.
Qed.

Lemma decompile_reads (g : chunk → buffer) cs :
  Forall (λ c, reads_as c (g c)) cs → decompile (SBuf (concat (map g cs))) = Ok (map minimalize cs).
Proof.
  intros H. cbn [decompile]. change (concat (map g cs)) with ([] ++ concat (map g cs)) at 2.
  rewrite <- blen_nil. apply (decompile_loop_reads g cs _ [] []); [done|].
  induction H as [|c cs Hc _ IH]; cbn in *; [lia|].
  apply reads_as_pos in Hc. unfold blen in Hc. rewrite length_app. lia.
Qed.

(** Chunks in the form [decompile] returns them. *)
Definition canonical (c : chunk) : Prop := chunk_decodable c ∧ minimalize c = c.

Lemma canonical_minimalize c : chunk_decodable c → canonical (minimalize c).
Proof.
  intros H. split; [|apply minimalize_idem]. destruct c as [|b]; cbn; [done|].
  destruct (asMinimalOP b) eqn:E; [|done]. apply asMinimalOP_range in E. cbn. lia.
Qed.

Lemma blen_slice_le b s n : 0 <= s → 0 <= n → blen (slice b s (s + n)) <= n.
Proof.
  intros. unfold slice, clamp_index, blen. cbv zeta. rewrite length_take.
  repeat match goal with |- context [if ?x <? ?y then _ else _] => destruct (Z.ltb_spec x y) end; lia.
Qed.

Lemma decompile_loop_total fuel buf i acc :
  bytes_ok buf → 0 <= i → (0 < fuel)%nat → blen buf - i < Z.of_nat fuel → Forall canonical acc →
  ∃ cs, decompile_loop fuel buf i acc = Ok cs ∧ Forall canonical cs.
Proof.
  intros Hok. revert i acc. induction fuel as [|fuel IH]; intros i acc Hi Hpos Hf Hacc; [lia|].
  cbn [decompile_loop]. destruct (Z.ltb_spec i (blen buf)) as [Hlt|]; [|by eexists].
  destruct (split_at buf i) as (pre & rest & -> & <- & Hrest); [lia|].
  destruct rest as [|op rest]; [rewrite blen_nil in Hrest; lia|].
  apply bytes_ok_app in Hok as Hok'. destruct Hok' as [_ Hrok].
  pose proof Hrok as [Hop _]%bytes_ok_cons. unfold is_byte in Hop.
  rewrite get_app_len. cbn [bits_of default from_option id]. unfold OP_0, OP_PUSHDATA4.
  destruct ((0 <? op) && (op <=? 78)) eqn:E; bool_facts.
  - destruct (PushData.decode_total pre op rest) as [o Ho]; [lia|]. rewrite Ho. cbn [mbind result_bind].
    destruct o as [d|]; [|by eexists].
    destruct (PushData.decode_inv _ _ _ Hrok Ho) as (Hn & Hs & _).
    pose proof (PushData.encodingLength_pos (PushData.d_number d)).
    set (data := slice _ _ _).
    assert (Hc : canonical (minimalize (CBuf data))).
    { apply canonical_minimalize. split; [unfold data; auto with js|].
      unfold data. pose proof (blen_slice_le (pre ++ op :: rest) (blen pre + PushData.d_size d)
        (PushData.d_number d) ltac:(lia) ltac:(lia)). lia. }
    cbn [minimalize] in Hc.
    destruct (asMinimalOP data); apply IH; try lia; apply Forall_app; auto.
  - apply IH; try lia. apply Forall_app. split; [done|]. apply Forall_singleton. split; [cbn|done].
    apply andb_false_iff in E. rewrite Z.ltb_ge, Z.leb_gt in E. lia.
Qed.

Lemma decompile_total b : bytes_ok b → ∃ cs, decompile (SBuf b) = Ok cs ∧ Forall canonical cs.
Proof. intros. apply decompile_loop_total; auto with lia; unfold blen; lia. Qed.

Lemma map_minimalize_canonical cs : Forall canonical cs → map minimalize cs = cs.
Proof. induction 1 as [|c cs [_ E]]; cbn; congruence. Qed.

Lemma canonical_decodable cs : Forall canonical cs → Forall chunk_decodable cs.
Proof. intros H. eapply Forall_impl; [done|]. by intros c []. Qed.

Lemma decodable_wf cs : Forall chunk_decodable cs → Forall chunk_wf cs.
Proof. intros H. eapply Forall_impl; [done|]. apply chunk_decodable_wf. Qed.

Lemma decompile_serialize cs :
  Forall chunk_decodable cs → decompile (SBuf (serialize cs)) = Ok (map minimalize cs).
Proof.
  intros H. apply decompile_reads. eapply Forall_impl; [done|]. apply reads_as_chunk_bytes.
Qed.

Lemma decompile_serialize2 cs :
  Forall chunk_decodable cs → decompile (SBuf (serialize2 cs)) = Ok (map minimalize cs).
Proof.
  intros H. apply decompile_reads. eapply Forall_impl; [done|]. apply reads_as_chunk_bytes2.
Qed.

(** ** Every input of compile *)

(** What [compile] can write: an opcode that is a byte, data whose length a
    prefix can carry. *)
Definition writable (c : chunk) : bool :=
  match c with
  | COp op => (0 <=? op) && (op <? 256)
  | CBuf b => blen b <? 2 ^ 32
  end.

Lemma writes_writable c : writable c = true → writes (compile_chunk c) (chunk_bytes c).
Proof.
  destruct c as [op|b]; cbn [writable chunk_bytes]; intros H; bool_facts.
  - by apply writes_byte.
  - unfold compile_chunk. destruct (asMinimalOP b) eqn:E.
    + apply writes_byte. apply asMinimalOP_range in E. unfold is_byte. lia.
    + by apply writes_push_data.
Qed.

Lemma unwritable_throws c buf off : writable c = false → compile_chunk c buf off = Throw RangeError.
Proof.
  destruct c as [op|b]; cbn [writable compile_chunk]; intros H.
  - unfold writeUInt8, writeUIntLE. change (256 ^ Z.of_nat 1) with 256. by rewrite H.
  - bool_facts. destruct (asMinimalOP b) eqn:E.
    + apply asMinimalOP_short in E. lia.
    + unfold push_data. by rewrite PushData.pushdata_encode_range by lia.
Qed.

Lemma compile_loop_exact cs pre rest : blen (serialize cs) <= blen rest →
  wforEach compile_chunk cs (pre ++ rest) (blen pre) =
    if forallb writable cs
    then Ok ((pre ++ serialize cs) ++ drop (length (serialize cs)) rest, blen (pre ++ serialize cs))
    else Throw RangeError.
Proof.
  revert pre rest. induction cs as [|c cs IH]; intros pre rest Hlen; cbn [wforEach forallb].
  - cbn. by rewrite app_nil_r.
  - rewrite serialize_cons, blen_app in Hlen. pose proof (blen_nonneg (serialize cs)).
    unfold wthen. destruct (writable c) eqn:Hc; cbn [andb].
    + rewrite (writes_writable c Hc) by lia. rewrite IH.
      * destruct (forallb writable cs); [|done]. rewrite serialize_cons.
        by rewrite drop_drop, <- !app_assoc, length_app.
      * unfold blen in *. rewrite length_drop. lia.
    + by rewrite unwritable_throws.
Qed.

Lemma compile_spec {Mem : UninitMem} cs :
  compile (SArr cs) = if forallb writable cs then Ok (serialize cs) else Throw RangeError.
Proof.
  unfold compile. rewrite compile_size_sum, Z.add_0_l.
  pose proof (blen_allocUnsafe (blen (serialize cs)) ltac:(auto with js)) as La.
  pose proof (compile_loop_exact cs [] (allocUnsafe (blen (serialize cs)))) as L.
  cbn [app] in L. rewrite blen_nil in L. rewrite L by lia. clear L.
  destruct (forallb writable cs); [|done]. cbn [mbind result_bind].
  rewrite drop_ge, app_nil_r by (apply Nat2Z.inj_le; fold (blen (serialize cs)); unfold blen in La at 1; lia).
  by rewrite Z.eqb_refl.
Qed.

Lemma compile_writable {Mem : UninitMem} cs :
  forallb writable cs = true → compile (SArr cs) = Ok (serialize cs).
Proof. intros H. by rewrite compile_spec, H. Qed.

Lemma chunk_bytes_push h : 1 < blen h < 76 → chunk_bytes (CBuf h) = blen h :: h.
Proof.
  intros H. cbn [chunk_bytes]. destruct (asMinimalOP h) eqn:E.
  - apply asMinimalOP_short in E. lia.
  - unfold PushData.prefix. by rewrite (proj2 (Z.ltb_lt _ _)) by lia.
Qed.

(** ** Properties *)

(** The exact behaviour of [compile] on every array of chunks: the byte string of
    the chunks, whatever the uninitialised memory held, or a [RangeError] when
    an opcode is not a byte or a push is too long; the final consistency check
    (offset against size) never fails. *)
Theorem compile_exact {Mem : UninitMem} cs :
  compile (SArr cs) = if forallb writable cs then Ok (serialize cs) else Throw RangeError.
Proof. apply compile_spec. Qed.

(** [decompile] terminates without throwing on every buffer, and the chunks it
    returns are canonical: opcodes are not push opcodes, and no data chunk has
    an opcode of its own. *)
Theorem decompile_returns b :
  bytes_ok b → ∃ cs, decompile (SBuf b) = Ok cs ∧ Forall canonical cs.
Proof. apply decompile_total. Qed.

Lemma decompile_returns_witness :
  ∃ cs, decompile (SBuf [0x01; 0x05; 0x6a; 0x4c]) = Ok cs ∧ Forall canonical cs.
Proof. apply decompile_returns. concrete. Defined.

(** [decompile] inverts [compile] and [compile2]: it returns the chunks that were
    compiled, data with an opcode of its own as that opcode. *)
Theorem decompile_compile {Mem : UninitMem} cs :
  Forall chunk_decodable cs →
  (b ← compile (SArr cs); decompile (SBuf b)) = Ok (map minimalize cs) ∧
  (b ← compile2 (SArr cs); decompile (SBuf b)) = Ok (map minimalize cs).
Proof.
  intros H. rewrite compile_serialize, compile2_serialize2 by by apply decodable_wf.
  cbn [mbind result_bind]. split; [by apply decompile_serialize|by apply decompile_serialize2].
Qed.

Lemma decompile_compile_witness :
  (b ← compile (Mem := zero_mem) (SArr [COp 0x6a; CBuf [7]; CBuf [1; 2; 3]]); decompile (SBuf b))
  = Ok (map minimalize [COp 0x6a; CBuf [7]; CBuf [1; 2; 3]]) ∧
  (b ← compile2 (Mem := zero_mem) (SArr [COp 0x6a; CBuf [7]; CBuf [1; 2; 3]]); decompile (SBuf b))
  = Ok (map minimalize [COp 0x6a; CBuf [7]; CBuf [1; 2; 3]]).
Proof.
  apply (decompile_compile (Mem := zero_mem)).
  concrete.
Defined.

(** Compiling what was decompiled loses nothing that [decompile] can see: the
    compiled script decompiles to the same chunks. *)
Theorem decompile_normal_form {Mem : UninitMem} b :
  bytes_ok b → ∃ cs b', decompile (SBuf b) = Ok cs ∧ compile (SArr cs) = Ok b' ∧
    decompile (SBuf b') = Ok cs.
Proof.
  intros Hb. destruct (decompile_total b Hb) as (cs & E & Hc). exists cs, (serialize cs).
  split; [done|]. apply canonical_decodable in Hc as Hd.
  split; [by apply compile_serialize, decodable_wf|].
  rewrite decompile_serialize by done. by rewrite map_minimalize_canonical.
Qed.

Lemma decompile_normal_form_witness :
  ∃ cs b', decompile (SBuf [0x4c; 0x01; 0x05]) = Ok cs ∧
    compile (Mem := zero_mem) (SArr cs) = Ok b' ∧ decompile (SBuf b') = Ok cs.
Proof.
  apply (decompile_normal_form (Mem := zero_mem)).
  concrete.
Defined.

(** A push that announces more bytes than the script holds is not refused: the
    bytes that are there become a data chunk, as if they had been announced. *)
Theorem decompile_truncated_push n b :
  1 < blen b < n → n < 76 → decompile (SBuf (n :: b)) = Ok [CBuf b].
Proof.
  intros Hb Hn. cbn [decompile length]. set (buf := n :: b).
  assert (Eg : get buf 0 = Some n) by done.
  assert (El : blen buf = 1 + blen b) by (unfold buf; by rewrite blen_cons).
  cbn [decompile_loop]. rewrite (proj2 (Z.ltb_lt 0 _)), Eg by lia.
  cbn [bits_of default from_option id]. unfold OP_0, OP_PUSHDATA4.
  rewrite (proj2 (Z.ltb_lt 0 n)), (proj2 (Z.leb_le n 78)) by lia. cbn [andb].
  replace (PushData.decode buf 0) with (Ok (A := option PushData.decoded) (Some (PushData.Build_decoded n n 1))).
  2:{ unfold PushData.decode, OP_PUSHDATA1. pose proof (readUInt8_app [] n b) as R.
      rewrite blen_nil in R. unfold buf. cbn [app] in R. rewrite R. cbn [mbind result_bind].
      by rewrite (proj2 (Z.ltb_lt n 76)) by lia. }
  cbn [mbind result_bind PushData.d_size PushData.d_number].
  replace (slice buf (0 + 1) (0 + 1 + n)) with b.
  - assert (Em : asMinimalOP b = None).
    { destruct (asMinimalOP b) eqn:E; [|done]. apply asMinimalOP_short in E. lia. }
    rewrite Em. destruct b as [|x b']; [rewrite blen_nil in Hb; lia|]. cbn [length decompile_loop].
    by rewrite (proj2 (Z.ltb_ge _ (blen buf))) by lia.
  - rewrite slice_past by (fold (blen buf); lia). done.
Qed.

Lemma decompile_truncated_push_witness : decompile (SBuf [0x14; 1; 2; 3]) = Ok [CBuf [1; 2; 3]].
Proof. apply (decompile_truncated_push 0x14 [1; 2; 3]); vm_compute; intuition discriminate. Defined.

Lemma encode_minimal_op {Mem : UninitMem} b op : asMinimalOP b = Some op →
  (if op =? OP_0 then Ok [] else ScriptNumber.encode (op - OP_INT_BASE)) = Ok b.
Proof.
  intros [[-> ->]|[(x & -> & Hx & ->)|[-> ->]]]%asMinimalOP_Some; unfold OP_0, OP_INT_BASE, OP_RESERVED.
  - done.
  - rewrite (proj2 (Z.eqb_neq _ _)) by lia. replace (80 + x - 80) with x by lia.
    assert (Hr : x ∈ map Z.of_nat (seq 1 16)).
    { apply list_elem_of_In, in_map_iff. exists (Z.to_nat x). rewrite in_seq. lia. }
    rewrite ScriptNumber.encode_small by lia.
    repeat (apply elem_of_cons in Hr as [->|Hr]; [reflexivity|]). by apply elem_of_nil in Hr.
  - change (79 =? 0) with false. cbn iota. by rewrite ScriptNumber.encode_small.
Qed.

(** A stack of byte strings pushed by a compiled script is the stack [toStack]
    reads from it, for data of every kind: empty, small integers, -1, anything. *)
Theorem toStack_compile {Mem : UninitMem} stack :
  Forall (λ b, bytes_ok b ∧ blen b < 2 ^ 32) stack →
  (b ← compile (SArr (map CBuf stack)); toStack (SBuf b)) = Ok stack.
Proof.
  intros H. assert (Hd : Forall chunk_decodable (map CBuf stack)) by (by apply Forall_map).
  rewrite compile_serialize by by apply decodable_wf. cbn [mbind result_bind].
  unfold toStack. rewrite decompile_serialize by done. cbn [mbind result_bind].
  rewrite map_map. assert (Hp : isPushOnly (map (λ b, minimalize (CBuf b)) stack) = true).
  { apply forallb_forall. intros c (b & <- & _)%in_map_iff. cbn.
    destruct (asMinimalOP b) eqn:E; [|done]. cbn. unfold OP_0, OP_1, OP_16, OP_1NEGATE.
    apply asMinimalOP_Some in E as [[-> ->]|[(x & -> & Hx & ->)|[-> ->]]]; [done| |done].
    rewrite (proj2 (Z.leb_le 81 _)), (proj2 (Z.leb_le _ 96)) by lia. by rewrite orb_true_r. }
  rewrite Hp. cbn [guard_js mbind result_bind].
  rewrite (mapM_map_ok _ _ id); [by rewrite map_id|]. apply Forall_true. intros b. cbn [minimalize].
  destruct (asMinimalOP b) eqn:E; [by apply encode_minimal_op|done].
Qed.

Lemma toStack_compile_witness :
  (b ← compile (Mem := zero_mem) (SArr (map CBuf [[]; [16]; [0x81]; [0]; [1; 2]]));
   toStack (Mem := zero_mem) (SBuf b)) = Ok [[]; [16]; [0x81]; [0]; [1; 2]].
Proof.
  apply (toStack_compile (Mem := zero_mem)).
  concrete.
Defined.

End Script.
