(* ===== verification/MinimalData.v ===== *)
(** * Minimal pushes

    [ecash-minimaldata/index.js]: [bip62] scans a script and refuses a push
    that could have been shorter.  [bip62_exact] says which scripts pass, as the
    byte strings of lists of chunks; the other theorems compare it with what
    [Script.compile] writes. *)

From stdpp Require Import base tactics list gmap numbers strings.
From S2P Require Import Prelude JsNumber NodeBuffer Opcodes PushData ScriptNumber Script.
Open Scope Z_scope.

Module MinimalData.

Definition MAX_SCRIPT_ELEMENT_SIZE : Z := 520.

Definition checkMinimalPush (opcode : Z) (data : buffer) : bool :=
  let data0 := bits_of (get data 0) in
  if blen data =? 0 then opcode =? OP_0
  else if (blen data =? 1) && (data0 >=? 1) && (data0 <=? 16) then opcode =? OP_1 + (opcode - 1)
  else if (blen data =? 1) && (opcode =? 0x81) then opcode =? OP_1NEGATE
  else if blen data <=? 75 then opcode =? blen data
  else if blen data <=? 255 then opcode =? OP_PUSHDATA1
  else if blen data <=? 65535 then opcode =? OP_PUSHDATA2
  else false.

(** The loop of [bip62]; every turn advances [i]. *)
Fixpoint bip62_loop (fuel : nat) (b : buffer) (i : Z) : result bool :=
  match fuel with
  | O => Throw OutOfFuel
  | S fuel =>
      if i <? blen b then
        let opcode := bits_of (get b i) in
        if (opcode >=? 0) && (opcode <=? OP_PUSHDATA4) then
          d ← PushData.decode b i;
          match d with
          | None => Ok false
          | Some d =>
              let i := i + PushData.d_size d in
              if i + PushData.d_number d >? blen b then Ok false
              else
                let data := slice b i (i + PushData.d_number d) in
                let i := i + PushData.d_number d in
                if PushData.d_number d >? MAX_SCRIPT_ELEMENT_SIZE then Ok false
                else if negb (checkMinimalPush opcode data) then Ok false
                else bip62_loop fuel b i
          end
        else bip62_loop fuel b (i + 1)
      else Ok true
  end.

Definition bip62 (b : buffer) : result bool := bip62_loop (S (length b)) b 0.

(** ** Specification *)

(** The chunks a passing script is made of: opcodes, and pushes of 1 to 520
    bytes other than the bytes 1 to 16. *)
Definition passes (c : chunk) : Prop :=
  match c with
  | COp op => op = 0 ∨ 78 < op < 256
  | CBuf b => bytes_ok b ∧ 0 < blen b <= 520 ∧ (∀ x, b = [x] → ~ (1 <= x <= 16))
  end.

(** ** Lemmas *)

Lemma small_byte_dec (b : buffer) :
  (blen b =? 1) && (bits_of (get b 0) >=? 1) && (bits_of (get b 0) <=? 16) = false ↔
  (∀ x, b = [x] → ~ (1 <= x <= 16)).
Proof.
  destruct b as [|x [|y b]].
  - split; [by intros _ x|done].
  - rewrite Z.geb_leb. change (blen [x] =? 1) with true. change (bits_of (get [x] 0)) with x.
    cbn [andb]. split.
    + intros E y [= <-] [H1 H2]. by rewrite (proj2 (Z.leb_le 1 x)), (proj2 (Z.leb_le x 16)) in E by lia.
    + intros H. apply andb_false_iff. rewrite !Z.leb_gt. specialize (H x eq_refl). lia.
  - split; [by intros _ z|]. intros _. rewrite !blen_cons. pose proof (blen_nonneg b).
    by rewrite (proj2 (Z.eqb_neq _ 1)) by lia.
Qed.

(** The check passes exactly the opcode of the shortest prefix. *)
Lemma check_spec opcode data : opcode <= 78 → 0 < blen data <= 520 →
  checkMinimalPush opcode data = true ↔
  opcode = hd 0 (PushData.prefix (blen data)) ∧ (∀ x, data = [x] → ~ (1 <= x <= 16)).
Proof.
  intros Hop Hd. unfold checkMinimalPush, OP_1, OP_PUSHDATA1, OP_PUSHDATA2, PushData.prefix.
  rewrite <- small_byte_dec, (proj2 (Z.eqb_neq (blen data) 0)), (proj2 (Z.eqb_neq opcode 0x81)) by lia.
  rewrite andb_false_r. destruct (_ && _ && _).
  - split; [intros E; bool_facts; lia|by intros []].
  - split_ifs; rewrite Z.eqb_eq; cbn [hd]; split; try intros []; try split; try done; lia.
Qed.

Lemma check_empty opcode : checkMinimalPush opcode [] = (opcode =? 0).
Proof. done. Qed.

(** One turn of the loop. *)
Lemma step_op fuel pre op rest : op = 0 ∨ 78 < op →
  bip62_loop (S fuel) (pre ++ op :: rest) (blen pre) =
  bip62_loop fuel (pre ++ op :: rest) (blen (pre ++ [op])).
Proof.
  intros H. set (buf := pre ++ op :: rest).
  assert (El : blen pre < blen buf) by (unfold buf; blen_lia).
  cbn [bip62_loop]. rewrite (proj2 (Z.ltb_lt _ _)) by done.
  assert (Eg : get buf (blen pre) = Some op) by apply get_app_len. rewrite Eg.
  cbn [bits_of default from_option id]. rewrite Z.geb_leb, blen_app. change (blen [op]) with 1.
  destruct H as [->|H].
  - change ((0 <=? 0) && (0 <=? OP_PUSHDATA4)) with true. cbn iota.
    pose proof (PushData.decode_app 0 pre rest ltac:(lia)) as D.
    change (PushData.prefix 0 ++ rest) with (0 :: rest) in D. fold buf in D. rewrite D.
    cbn [mbind result_bind PushData.d_size PushData.d_number].
    change (PushData.encodingLength 0) with 1. rewrite !Z.add_0_r, Z.gtb_ltb.
    rewrite (proj2 (Z.ltb_ge (blen buf) _)) by lia.
    rewrite slice_in by (fold (blen buf); pose proof (blen_nonneg pre); lia).
    by rewrite Z.sub_diag.
  - unfold OP_PUSHDATA4. by rewrite (proj2 (Z.leb_gt op 78)), andb_false_r by lia.
Qed.

Lemma step_push fuel pre d rest : passes (CBuf d) →
  bip62_loop (S fuel) (pre ++ (PushData.prefix (blen d) ++ d) ++ rest) (blen pre) =
  bip62_loop fuel (pre ++ (PushData.prefix (blen d) ++ d) ++ rest)
    (blen (pre ++ PushData.prefix (blen d) ++ d)).
Proof.
  intros (Hok & Hd & Hx). destruct (Script.prefix_hd (blen d)) as (op & r & Ep & Hop); [lia|].
  set (buf := pre ++ (PushData.prefix (blen d) ++ d) ++ rest).
  assert (Eg : get buf (blen pre) = Some op).
  { unfold buf. rewrite Ep. cbn [app]. apply get_app_len. }
  assert (El : blen pre < blen buf) by (unfold buf; rewrite Ep; blen_lia).
  cbn [bip62_loop]. rewrite (proj2 (Z.ltb_lt _ _)), Eg by done.
  cbn [bits_of default from_option id]. unfold OP_PUSHDATA4. rewrite Z.geb_leb.
  rewrite (proj2 (Z.leb_le _ op)), (proj2 (Z.leb_le _ _)) by lia. cbn [andb].
  pose proof (PushData.decode_app (blen d) pre (d ++ rest) ltac:(lia)) as D.
  rewrite (app_assoc (PushData.prefix _)) in D. fold buf in D. rewrite D. clear D.
  cbn [mbind result_bind PushData.d_size PushData.d_number].
  rewrite <- (PushData.blen_prefix (blen d)), <- blen_app, !Z.gtb_ltb.
  assert (Es : slice buf (blen (pre ++ PushData.prefix (blen d)))
                 (blen (pre ++ PushData.prefix (blen d)) + blen d) = d).
  { unfold buf. rewrite <- (app_assoc _ d), (app_assoc pre). apply slice_app. }
  rewrite Es. rewrite (proj2 (Z.ltb_ge (blen buf) _)) by (unfold buf; blen_lia).
  unfold MAX_SCRIPT_ELEMENT_SIZE. rewrite (proj2 (Z.ltb_ge 520 _)) by lia.
  rewrite (proj2 (check_spec op d ltac:(lia) Hd)) by (by rewrite Ep).
  cbn [negb]. by rewrite <- blen_app, <- app_assoc.
Qed.

Lemma loop_passes cs fuel pre : Forall passes cs → (length cs < fuel)%nat →
  bip62_loop fuel (pre ++ Script.serialize2 cs) (blen pre) = Ok true.
Proof.
  intros H. revert fuel pre. induction H as [|c cs Hc _ IH]; intros fuel pre Hf;
    (destruct fuel as [|fuel]; [cbn in Hf; lia|]); cbn [length] in *.
  - cbn. by rewrite app_nil_r, (proj2 (Z.ltb_ge _ _)) by lia.
  - rewrite Script.serialize2_cons. destruct c as [op|d]; cbn [Script.chunk_bytes2].
    + cbn [app]. cbn in Hc. rewrite step_op by lia. rewrite (cons_middle op pre), app_assoc. apply IH. lia.
    + rewrite step_push by done. rewrite app_assoc. apply IH. lia.
Qed.

(** A header whose opcode byte is the one of the shortest prefix is that prefix. *)
Lemma header_prefix op n hdr : 0 < n →
  hd_error hdr = Some op → op = hd 0 (PushData.prefix n) →
  ((blen hdr = 1 ∧ hdr = [n] ∧ n < 76)
   ∨ (hdr = 76 :: le_bytes 1 n ∧ n < 2 ^ 8)
   ∨ (hdr = 77 :: le_bytes 2 n ∧ n < 2 ^ 16)
   ∨ hdr = 78 :: le_bytes 4 n) → hdr = PushData.prefix n.
Proof.
  intros Hn Eo Ep Hcases. unfold PushData.prefix in *.
  destruct Hcases as [(_ & -> & ?)|[(-> & ?)|[(-> & ?)| ->]]]; injection Eo as <-;
    split_ifs; cbn [hd] in Ep; congruence || lia.
Qed.

(** A turn that does not end the scan read one passing chunk. *)
Lemma loop_step fuel pre rest : bytes_ok rest → 0 < blen rest →
  (bip62_loop (S fuel) (pre ++ rest) (blen pre) = Ok false) ∨
  (∃ c rest', passes c ∧ rest = Script.chunk_bytes2 c ++ rest' ∧
     bip62_loop (S fuel) (pre ++ rest) (blen pre)
     = bip62_loop fuel (pre ++ rest) (blen (pre ++ Script.chunk_bytes2 c))).
Proof.
  intros Hok Hlen. destruct rest as [|op rest]; [rewrite blen_nil in Hlen; lia|].
  pose proof Hok as [Hop _]%bytes_ok_cons. unfold is_byte in Hop.
  destruct (decide (op = 0 ∨ 78 < op)) as [H|H].
  { right. exists (COp op), rest. split; [cbn; lia|]. split; [done|by apply step_op]. }
  cbn [bip62_loop]. rewrite get_app_len. cbn [bits_of default from_option id].
  rewrite (proj2 (Z.ltb_lt _ _)) by blen_lia. unfold OP_PUSHDATA4. rewrite Z.geb_leb.
  rewrite (proj2 (Z.leb_le _ op)), (proj2 (Z.leb_le _ _)) by lia. cbn [andb].
  destruct (PushData.decode_total pre op rest) as [[d|] Ho]; [lia| |]; rewrite Ho;
    cbn [mbind result_bind]; [|by left].
  rewrite !Z.gtb_ltb.
  destruct (PushData.decode_inv _ _ _ Hok Ho) as (Hn & _ & hdr & post & E & Eh & Eo & Hcases).
  destruct (Z.ltb_spec (blen (pre ++ op :: rest)) (blen pre + PushData.d_size d + PushData.d_number d))
    as [|Hfit]; [by left|].
  destruct (Z.ltb_spec MAX_SCRIPT_ELEMENT_SIZE (PushData.d_number d)) as [|Hmax]; [by left|].
  unfold MAX_SCRIPT_ELEMENT_SIZE in Hmax. rewrite E in Hfit, Hok |- *. rewrite !blen_app in Hfit.
  destruct (split_at post (PushData.d_number d)) as (data & rest' & -> & Ed & _); [lia|].
  rewrite <- Eh, <- Ed, <- blen_app, (app_assoc pre), slice_app.
  destruct (checkMinimalPush op data) eqn:Ec; [|by left]. right.
  rewrite E in Ho. destruct (Z.eq_dec (blen data) 0) as [Z0|Z0].
  { apply blen_0_nil in Z0 as ->. rewrite check_empty in Ec. bool_facts. lia. }
  pose proof (blen_nonneg data).
  apply check_spec in Ec as [Ep Hx]; [|lia|lia].
  assert (Ehd : hdr = PushData.prefix (blen data)).
  { apply (header_prefix op); [lia| |done|rewrite Ed; rewrite Eh; tauto].
    destruct hdr; [discriminate|]. injection E as <- _. done. }
  exists (CBuf data), rest'. rewrite bytes_ok_app, (bytes_ok_app data) in Hok. cbn [Script.chunk_bytes2 passes].
  rewrite <- Ehd. split_and!; [tauto|lia|lia|done| |].
  - by rewrite <- app_assoc.
  - cbn [negb]. by rewrite <- !app_assoc, !blen_app, Z.add_assoc.
Qed.

Lemma chunk_bytes2_pos c : 1 <= blen (Script.chunk_bytes2 c).
Proof.
  destruct c as [op|d]; cbn [Script.chunk_bytes2]; [done|].
  pose proof (PushData.encodingLength_pos (blen d)). rewrite blen_app, PushData.blen_prefix.
  pose proof (blen_nonneg d). lia.
Qed.

(** With enough fuel the scan answers, and a positive answer names the chunks. *)
Lemma loop_answers fuel pre rest : bytes_ok rest → blen rest < Z.of_nat fuel →
  (bip62_loop fuel (pre ++ rest) (blen pre) = Ok false) ∨
  (bip62_loop fuel (pre ++ rest) (blen pre) = Ok true ∧
   ∃ cs, Forall passes cs ∧ rest = Script.serialize2 cs).
Proof.
  revert pre rest. induction fuel as [|fuel IH]; intros pre rest Hok Hf; [pose proof (blen_nonneg rest); lia|].
  destruct (Z.eq_dec (blen rest) 0) as [Z0|Z0].
  { right. apply blen_0_nil in Z0 as ->. rewrite app_nil_r. cbn [bip62_loop].
    rewrite (proj2 (Z.ltb_ge _ _)) by lia. split; [done|]. by exists []. }
  pose proof (blen_nonneg rest).
  destruct (loop_step fuel pre rest Hok ltac:(lia)) as [E|(c & rest' & Hc & -> & E)]; [by left|].
  rewrite E. apply bytes_ok_app in Hok as [_ Hok]. pose proof (chunk_bytes2_pos c). rewrite blen_app in Hf.
  rewrite app_assoc. destruct (IH (pre ++ Script.chunk_bytes2 c) rest') as [E'|[E' (cs & Hcs & ->)]];
    [done|lia|by left|]. right. split; [done|]. exists (c :: cs). by split; [constructor|].
Qed.

Lemma length_serialize2 cs : (length cs <= length (Script.serialize2 cs))%nat.
Proof.
  induction cs as [|c cs IH]; [done|]. rewrite Script.serialize2_cons, length_app. cbn [length].
  pose proof (chunk_bytes2_pos c). unfold blen in *. lia.
Qed.

Lemma bip62_serialize2 cs : Forall passes cs → bip62 (Script.serialize2 cs) = Ok true.
Proof.
  intros H. apply (loop_passes cs _ []); [done|]. pose proof (length_serialize2 cs). lia.
Qed.

Lemma bip62_true b : bytes_ok b → bip62 b = Ok true →
  ∃ cs, Forall passes cs ∧ b = Script.serialize2 cs.
Proof.
  intros Hok H. destruct (loop_answers (S (length b)) [] b) as [E|[_ ?]]; [done|unfold blen; lia| |done].
  unfold bip62 in H. cbn [app] in E. rewrite blen_nil in E. congruence.
Qed.

(** What [compile] writes are passing chunks. *)
Lemma passes_minimalize c : Script.chunk_decodable c →
  match c with CBuf d => blen d <= 520 | COp _ => True end →
  passes (Script.minimalize c) ∧ Script.chunk_bytes2 (Script.minimalize c) = Script.chunk_bytes c.
Proof.
  destruct c as [op|d]; cbn; [auto|]. intros [Hok _] Hd. destruct (Script.asMinimalOP d) eqn:E.
  - split; [|done]. apply Script.asMinimalOP_range in E. cbn. lia.
  - split; [|done]. cbn. apply Script.asMinimalOP_None in E as ?. split_and!; [done|lia|lia|].
    intros x -> Hx. rewrite Script.asMinimalOP_one in E.
    by rewrite (proj2 (Z.leb_le 1 x)), (proj2 (Z.leb_le x 16)) in E by lia.
Qed.

Lemma serialize2_minimalize cs :
  Forall (λ c, Script.chunk_decodable c ∧ match c with CBuf d => blen d <= 520 | COp _ => True end) cs →
  Forall passes (map Script.minimalize cs) ∧
  Script.serialize2 (map Script.minimalize cs) = Script.serialize cs.
Proof.
  induction 1 as [|c cs [Hc Hd] _ [IH1 IH2]]; [done|]. cbn [map].
  destruct (passes_minimalize c Hc Hd) as [Hp E].
  rewrite Script.serialize2_cons, Script.serialize_cons, E, IH2. by split; [constructor|].
Qed.

Lemma passes_decodable cs : Forall passes cs → Forall Script.chunk_decodable cs.
Proof.
  intros H. eapply Forall_impl; [done|]. intros [op|d]; cbn; [done|]. intros (? & ? & _). split; [done|lia].
Qed.

(** Without -1, a passing chunk is written the same way by [compile]. *)
Lemma serialize_passes cs : Forall passes cs → COp OP_1NEGATE ∉ map Script.minimalize cs →
  Script.serialize cs = Script.serialize2 cs.
Proof.
  induction 1 as [|c cs Hc _ IH]; [done|]. cbn [map]. rewrite not_elem_of_cons. intros [Hn Hns].
  rewrite Script.serialize_cons, Script.serialize2_cons, IH by done. f_equal.
  destruct c as [op|d]; [done|]. cbn in *. destruct (Script.asMinimalOP d) eqn:E; [|done].
  exfalso. destruct Hc as (_ & Hd & Hx).
  apply Script.asMinimalOP_Some in E as [[-> ->]|[(x & -> & ? & ->)|[-> ->]]].
  - rewrite blen_nil in Hd. lia.
  - by apply (Hx x).
  - by apply Hn.
Qed.

(** ** Properties *)

(** [bip62] answers on every script, and says [true] exactly for the
    concatenations of opcodes and shortest-prefix pushes of at most 520 bytes
    whose data is not one of the bytes 1 to 16. *)
Theorem bip62_exact b : bytes_ok b →
  (∃ r, bip62 b = Ok r) ∧
  (bip62 b = Ok true ↔ ∃ cs, Forall passes cs ∧ b = Script.serialize2 cs).
Proof.
  intros Hok. split.
  - destruct (loop_answers (S (length b)) [] b Hok) as [E|[E _]]; [unfold blen; lia| |];
      rewrite blen_nil in E; eexists; exact E.
  - split; [by apply bip62_true|]. intros (cs & H & ->). by apply bip62_serialize2.
Qed.

Lemma bip62_exact_witness :
  (∃ r, bip62 [0x01; 0x07; 0x4c] = Ok r) ∧
  (bip62 [0x01; 0x07; 0x4c] = Ok true ↔ ∃ cs, Forall passes cs ∧ [0x01; 0x07; 0x4c] = Script.serialize2 cs).
Proof. apply bip62_exact. concrete. Defined.

(** Every script [compile] makes of pushes of at most 520 bytes is minimal. *)
Theorem compile_is_minimal {Mem : UninitMem} cs :
  Forall (λ c, Script.chunk_decodable c ∧ match c with CBuf d => blen d <= 520 | COp _ => True end) cs →
  (b ← Script.compile (SArr cs); bip62 b) = Ok true.
Proof.
  intros H. rewrite Script.compile_serialize.
  2:{ apply Script.decodable_wf. eapply Forall_impl; [done|]. by intros c []. }
  cbn [mbind result_bind]. destruct (serialize2_minimalize cs H) as [Hp <-]. by apply bip62_serialize2.
Qed.

Lemma compile_is_minimal_witness :
  (b ← Script.compile (Mem := zero_mem) (SArr [COp 0x6a; CBuf [5]; CBuf [0x81]; CBuf [1; 2]]); bip62 b) = Ok true.
Proof. apply (compile_is_minimal (Mem := zero_mem)). concrete. Defined.

(** A script that passes [bip62] comes back byte for byte from [decompile] and
    [compile], unless it holds -1, which has two encodings that pass. *)
Theorem minimal_recompiles {Mem : UninitMem} b :
  bytes_ok b → bip62 b = Ok true →
  ∃ cs, Script.decompile (SBuf b) = Ok cs ∧
    (COp OP_1NEGATE ∉ cs → Script.compile (SArr cs) = Ok b).
Proof.
  intros Hok H. destruct (bip62_true b Hok H) as (cs & Hcs & ->).
  exists (map Script.minimalize cs). split.
  { apply Script.decompile_serialize2, (passes_decodable _ Hcs). }
  intros Hneg. rewrite Script.compile_serialize.
  - by rewrite Script.serialize_minimalize, serialize_passes.
  - apply Script.decodable_wf, Forall_map. eapply Forall_impl; [apply (passes_decodable _ Hcs)|].
    intros c Hc. by apply Script.canonical_minimalize.
Qed.

Lemma minimal_recompiles_witness :
  ∃ cs, Script.decompile (SBuf [0x76; 0x02; 1; 2]) = Ok cs ∧
    (COp OP_1NEGATE ∉ cs → Script.compile (Mem := zero_mem) (SArr cs) = Ok [0x76; 0x02; 1; 2]).
Proof. apply (minimal_recompiles (Mem := zero_mem)); [concrete|reflexivity]. Defined.

(** The two-byte push of -1 passes [bip62] although the one-byte opcode exists and
    [compile] uses it; the push of 1, which the README shows as minimal, does not pass. *)
Theorem bip62_push_of_minus_one {Mem : UninitMem} :
  bip62 [0x01; 0x81] = Ok true ∧
  (cs ← Script.decompile (SBuf [0x01; 0x81]); Script.compile (SArr cs)) = Ok [0x4f] ∧
  bip62 [0x01; 0x01] = Ok false.
Proof.
  split; [reflexivity|]. split; [|reflexivity].
  assert (E : Script.decompile (SBuf [0x01; 0x81]) = Ok [COp 0x4f]) by reflexivity.
  rewrite E. cbn [mbind result_bind]. rewrite Script.compile_serialize; [done|]. by repeat constructor.
Qed.

End MinimalData.
