(* ===== verification/Asm.v ===== *)
(** * Hexadecimal strings and script assembly

    The ['hex'] encoding of Node buffers, and [toASM] and [fromASM] of
    [ecashjs-lib/src/script.js]. *)

From stdpp Require Import base tactics list gmap numbers strings.
From S2P Require Import Prelude JsNumber NodeBuffer Opcodes PushData ScriptNumber Script.
Open Scope Z_scope.

Module Hex.

Definition digit (n : Z) : Ascii.ascii :=
  Ascii.ascii_of_N (Z.to_N (if n <? 10 then 48 + n else 87 + n)).

(** The value of a digit of either case. *)
Definition value (c : Ascii.ascii) : option Z :=
  let n := Z.of_N (Ascii.N_of_ascii c) in
  if (48 <=? n) && (n <=? 57) then Some (n - 48)
  else if (97 <=? n) && (n <=? 102) then Some (n - 87)
  else if (65 <=? n) && (n <=? 70) then Some (n - 55)
  else None.

(** [buffer.toString('hex')] *)
Fixpoint toHex (b : buffer) : string :=
  match b with
  | [] => EmptyString
  | x :: b => String (digit (x / 16)) (String (digit (x mod 16)) (toHex b))
  end.

(** [Buffer.from(s, 'hex')] stops at the first pair that is not hexadecimal. *)
Fixpoint fromHex (s : string) : buffer :=
  match s with
  | String c1 (String c2 s) =>
      match value c1, value c2 with
      | Some h, Some l => (16 * h + l) :: fromHex s
      | _, _ => []
      end
  | _ => []
  end.

Lemma value_digit n : 0 <= n < 16 → value (digit n) = Some n.
Proof.
  intros H. assert (Hn : n ∈ map Z.of_nat (seq 0 16)).
  { apply list_elem_of_In, in_map_iff. exists (Z.to_nat n). rewrite in_seq. lia. }
  repeat (apply elem_of_cons in Hn as [->|Hn]; [reflexivity|]). by apply elem_of_nil in Hn.
Qed.

Lemma fromHex_toHex b : bytes_ok b → fromHex (toHex b) = b.
Proof.
  induction 1 as [|x b Hx _ IH]; [done|]. cbn. unfold is_byte in Hx.
  rewrite !value_digit, IH by (pose proof (Z.mod_pos_bound x 16); pose proof (Z.div_lt_upper_bound x 16 16);
    pose proof (Z.div_pos x 16); lia).
  f_equal. pose proof (Z.div_mod x 16). lia.
Qed.

Lemma fromHex_ok s : bytes_ok (fromHex s).
Proof.
  assert (Hv : ∀ c v, value c = Some v → 0 <= v < 16).
  { intros c v. unfold value. set (n := Z.of_N (Ascii.N_of_ascii c)). clearbody n.
    intros H. repeat case_match; bool_facts; try discriminate H; injection H as <-; lia. }
  revert s. fix IH 1. intros [|c1 [|c2 s]]; cbn [fromHex]; [constructor..|].
  destruct (value c1) as [h|] eqn:E1; [|constructor]. destruct (value c2) as [l|] eqn:E2; [|constructor].
  apply Hv in E1, E2. constructor; [unfold is_byte; lia|apply IH].
Qed.

End Hex.

Module Asm.

Definition space : Ascii.ascii := Ascii.ascii_of_nat 32.

(** [words.join(' ')] *)
Fixpoint join (words : list string) : string :=
  match words with
  | [] => EmptyString
  | [w] => w
  | w :: ws => String.append w (String space (join ws))
  end.

(** [s.split(' ')] *)
Fixpoint split (s : string) : list string :=
  match s with
  | EmptyString => [EmptyString]
  | String c s =>
      if bool_decide (c = space) then EmptyString :: split s
      else
        match split s with
        | w :: ws => String c w :: ws
        | [] => [String c EmptyString]
        end
  end.

(** The word of a chunk; [join] prints [undefined] as nothing. *)
Definition word (chunk : chunk) : string :=
  let name op := default EmptyString (REVERSE_OPS !! op) in
  match chunk with
  | CBuf b =>
      match Script.asMinimalOP b with
      | None => Hex.toHex b
      | Some op => name op
      end
  | COp op => name op
  end.

Definition toASM (s : script) : result string :=
  cs ← Script.decompile s; Ok (join (map word cs)).

Definition parse_word (chunkStr : string) : chunk :=
  match ops chunkStr with
  | Some op => COp op
  | None => CBuf (Hex.fromHex chunkStr)
  end.

Definition fromASM {Mem : UninitMem} (asm : string) : result buffer :=
  Script.compile (SArr (map parse_word (split asm))).

(** ** Lemmas *)

Fixpoint no_space (s : string) : bool :=
  match s with
  | EmptyString => true
  | String c s => negb (bool_decide (c = space)) && no_space s
  end.

Lemma split_word w : no_space w = true → split w = [w].
Proof.
  induction w as [|c w IH]; [done|]. cbn. intros [Hc Hw]%andb_true_iff. rewrite IH by done.
  by destruct (bool_decide (c = space)).
Qed.

Lemma split_append w s : no_space w = true → split (String.append w (String space s)) = w :: split s.
Proof.
  induction w as [|c w IH]; cbn [String.append split no_space].
  - intros _. done.
  - intros [Hc Hw]%andb_true_iff.
    change (String.append (String c w) (String space s)) with (String c (String.append w (String space s))).
    cbn [split]. rewrite IH by done. by destruct (bool_decide (c = space)).
Qed.

Lemma split_join ws : ws ≠ [] → Forall (λ w, no_space w = true) ws → split (join ws) = ws.
Proof.
  intros Hne H. induction H as [|w ws Hw Hws IH]; [done|]. destruct ws as [|w' ws].
  - by apply split_word.
  - change (join (w :: w' :: ws)) with (String.append w (String space (join (w' :: ws)))).
    rewrite split_append by done. f_equal. by apply IH.
Qed.

Lemma no_space_hex b : bytes_ok b → no_space (Hex.toHex b) = true.
Proof.
  induction 1 as [|x b Hx _ IH]; [done|]. cbn [Hex.toHex no_space]. rewrite IH.
  assert (D : ∀ n, 0 <= n < 16 → negb (bool_decide (Hex.digit n = space)) = true).
  { intros n Hn. apply negb_true_iff, bool_decide_eq_false. intros E.
    pose proof (Hex.value_digit n Hn) as V. rewrite E in V. discriminate. }
  unfold is_byte in Hx. rewrite !D; [done| |]; (split; [try apply Z.div_pos; try apply Z.mod_pos_bound; lia|]);
    [apply Z.mod_pos_bound; lia|apply Z.div_lt_upper_bound; lia].
Qed.

(** The names of the table start with a letter that is not a digit. *)
Lemma ops_capital c s op : ops (String c s) = Some op → Hex.value c = None.
Proof.
  unfold ops. destruct (list_find _ OPS) as [[i [n v]]|] eqn:E; [|discriminate]. intros _.
  apply list_find_Some in E as (El & En & _). cbn in En. subst n.
  assert (F : Forall (λ p : string * Z, match p.1 with String c _ => Hex.value c = None | EmptyString => False end) OPS)
    by concrete.
  apply (Forall_lookup_1 _ _ _ _ F El).
Qed.

Lemma parse_hex b : bytes_ok b → b ≠ [] → parse_word (Hex.toHex b) = CBuf b.
Proof.
  intros Hok Hne. unfold parse_word. destruct (ops (Hex.toHex b)) eqn:E; [|by rewrite Hex.fromHex_toHex].
  destruct b as [|x b]; [done|]. cbn in E. apply ops_capital in E.
  apply bytes_ok_cons in Hok as [Hx _]. unfold is_byte in Hx.
  rewrite Hex.value_digit in E; [discriminate|]. split; [apply Z.div_pos|apply Z.div_lt_upper_bound]; lia.
Qed.

Definition named_ok (op : Z) : bool :=
  match REVERSE_OPS !! op with
  | Some n => bool_decide (ops n = Some op) && no_space n
  | None => true
  end.

Lemma named_roundtrip op n : 0 <= op < 256 → REVERSE_OPS !! op = Some n →
  ops n = Some op ∧ no_space n = true.
Proof.
  intros Hop En. pose proof (byte_forall named_ok op ltac:(vm_compute; reflexivity) Hop) as H.
  unfold named_ok in H. rewrite En in H. apply andb_true_iff in H as [H1 H2]. split; [|done].
  by apply bool_decide_eq_true in H1.
Qed.

(** A chunk whose word says what it is. *)
Definition has_word (c : chunk) : Prop :=
  Script.canonical c ∧ match c with COp op => is_Some (REVERSE_OPS !! op) | CBuf _ => True end.

Lemma word_roundtrip c : has_word c → parse_word (word c) = c ∧ no_space (word c) = true.
Proof.
  intros [[Hd Hm] Hn]. destruct c as [op|b]; cbn in *.
  - destruct Hn as [n En]. destruct (named_roundtrip op n ltac:(lia) En) as [E1 E2].
    unfold parse_word. rewrite En. cbn [default from_option id]. by rewrite E1.
  - destruct (Script.asMinimalOP b) eqn:E; [discriminate|]. destruct Hd as [Hok _].
    split; [apply parse_hex; [done|by intros ->]|by apply no_space_hex].
Qed.

(** ** Properties *)

(** Assembly is faithful: the text of a script, given its chunks or its bytes, is read
    back as that script, provided there is a chunk and its opcodes have names. *)
Theorem asm_roundtrip {Mem : UninitMem} cs : cs ≠ [] → Forall has_word cs →
  (asm ← toASM (SArr cs); fromASM asm) = Ok (Script.serialize cs) ∧
  (asm ← toASM (SBuf (Script.serialize cs)); fromASM asm) = Ok (Script.serialize cs).
Proof.
  intros Hne H.
  assert (Hc : Forall Script.canonical cs) by (eapply Forall_impl; [exact H|by intros c []]).
  assert (E : fromASM (join (map word cs)) = Ok (Script.serialize cs)).
  { unfold fromASM. rewrite split_join.
    - replace (map parse_word (map word cs)) with cs.
      2:{ clear -H. induction H as [|c cs Hc _ IH]; [done|]. cbn. by rewrite (proj1 (word_roundtrip c Hc)), <- IH. }
      by apply Script.compile_serialize, Script.decodable_wf, Script.canonical_decodable.
    - destruct cs; [done|discriminate].
    - apply Forall_map. eapply Forall_impl; [exact H|]. intros c Hw. by apply word_roundtrip. }
  unfold toASM. rewrite Script.decompile_serialize by by apply Script.canonical_decodable.
  rewrite Script.map_minimalize_canonical by done. split; exact E.
Qed.

Lemma asm_roundtrip_witness :
  (asm ← toASM (SArr [COp 0x6a; CBuf [1; 2]; COp 0x51]); fromASM (Mem := zero_mem) asm)
    = Ok (Script.serialize [COp 0x6a; CBuf [1; 2]; COp 0x51]) ∧
  (asm ← toASM (SBuf (Script.serialize [COp 0x6a; CBuf [1; 2]; COp 0x51])); fromASM (Mem := zero_mem) asm)
    = Ok (Script.serialize [COp 0x6a; CBuf [1; 2]; COp 0x51]).
Proof.
  apply (asm_roundtrip (Mem := zero_mem)); [discriminate|].
  apply Forall_cons; split; [|apply Forall_cons; split; [|apply Forall_singleton]].
  1, 3: split; [concrete|vm_compute; by eexists].
  concrete.
Defined.

(** A word that is neither an opcode nor hexadecimal is not refused: a misspelt opcode
    is read as an empty push. *)
Theorem asm_unknown_word {Mem : UninitMem} c w :
  no_space (String c w) = true → ops (String c w) = None → Hex.value c = None →
  fromASM (String c w) = Ok [0].
Proof.
  intros Hs Ho Hv. unfold fromASM. rewrite split_word by done. cbn [map]. unfold parse_word. rewrite Ho.
  replace (Hex.fromHex (String c w)) with (@nil Z).
  - rewrite Script.compile_serialize; [done|]. concrete.
  - destruct w; cbn; [done|]. by rewrite Hv.
Qed.

Lemma asm_unknown_word_witness : fromASM (Mem := zero_mem) "OP_RETRUN" = Ok [0].
Proof. apply (asm_unknown_word (Mem := zero_mem)); vm_compute; reflexivity. Defined.

End Asm.
