(* ===== verification/Templates.v ===== *)
(** * Script templates

    [ecashjs-lib/src/templates]: one Module per template with its [check],
    [encode], [decode] and the stack forms, and the three classifiers of
    [templates/index.js].  The theorems are the round trips of every template
    and the exactness of the classification of outputs. *)

From stdpp Require Import base tactics list gmap numbers strings.
From S2P Require Import Prelude JsNumber NodeBuffer Opcodes PushData ScriptNumber Externals Crypto Script.
Import Types.
Open Scope Z_scope.

(** [typeforce(check, value)] for a check function of the library. *)
Definition tf_check (r : result bool) : result unit := ok ← r; guard_js ok TypeforceError.

(** [a && b] where the operands can throw: [b] runs only when [a] holds. *)
Definition and_then (a b : result bool) : result bool :=
  ok ← a; if (ok : bool) then b else Ok false.

(** [chunk === op] *)
Definition is_op (c : option chunk) (op : Z) : bool :=
  match c with Some (COp v) => v =? op | _ => false end.

(** [xs[i]] of an array *)
Definition nth_chunk (cs : list chunk) (i : Z) : option chunk :=
  if 0 <=? i then cs !! Z.to_nat i else None.

(** [f(chunks[i])] for the predicates of script.js, which refuse [undefined]. *)
Definition chunk_is (f : chunk → bool) (c : option chunk) : bool :=
  match c with Some c => f c | None => false end.

Module P2PKHOutput.
Section S.
Context {Mem : UninitMem} `{!Typeforce}.

Definition check (s : script) : result bool :=
  b ← Script.compile s;
  Ok ((blen b =? 25) && byte_is b 0 OP_DUP && byte_is b 1 OP_HASH160 && byte_is b 2 0x14 &&
      byte_is b 23 OP_EQUALVERIFY && byte_is b 24 OP_CHECKSIG).

Definition encode (pubKeyHash : buffer) : result buffer :=
  _ ← guard_js (Hash160bit pubKeyHash) TypeforceError;
  Script.compile (SArr [COp OP_DUP; COp OP_HASH160; CBuf pubKeyHash; COp OP_EQUALVERIFY; COp OP_CHECKSIG]).

Definition decode (b : buffer) : result buffer :=
  _ ← tf_check (check (SBuf b)); Ok (slice b 3 23).

End S.
End P2PKHOutput.

Module P2SHOutput.
Section S.
Context {Mem : UninitMem} `{!Typeforce}.

Definition check (s : script) : result bool :=
  b ← Script.compile s;
  Ok ((blen b =? 23) && byte_is b 0 OP_HASH160 && byte_is b 1 0x14 && byte_is b 22 OP_EQUAL).

Definition encode (scriptHash : buffer) : result buffer :=
  _ ← guard_js (Hash160bit scriptHash) TypeforceError;
  Script.compile (SArr [COp OP_HASH160; CBuf scriptHash; COp OP_EQUAL]).

Definition decode (b : buffer) : result buffer :=
  _ ← tf_check (check (SBuf b)); Ok (slice b 2 22).

End S.
End P2SHOutput.

Module P2WPKHOutput.
Section S.
Context {Mem : UninitMem} `{!Typeforce}.

Definition check (s : script) : result bool :=
  b ← Script.compile s;
  Ok ((blen b =? 22) && byte_is b 0 OP_0 && byte_is b 1 0x14).

Definition encode (pubKeyHash : buffer) : result buffer :=
  _ ← guard_js (Hash160bit pubKeyHash) TypeforceError;
  Script.compile (SArr [COp OP_0; CBuf pubKeyHash]).

Definition decode (b : buffer) : result buffer :=
  _ ← tf_check (check (SBuf b)); Ok (slice_from b 2).

End S.
End P2WPKHOutput.

Module P2WSHOutput.
Section S.
Context {Mem : UninitMem} `{!Typeforce}.

Definition check (s : script) : result bool :=
  b ← Script.compile s;
  Ok ((blen b =? 34) && byte_is b 0 OP_0 && byte_is b 1 0x20).

Definition encode (scriptHash : buffer) : result buffer :=
  _ ← guard_js (Hash256bit scriptHash) TypeforceError;
  Script.compile (SArr [COp OP_0; CBuf scriptHash]).

Definition decode (b : buffer) : result buffer :=
  _ ← tf_check (check (SBuf b)); Ok (slice_from b 2).

End S.
End P2WSHOutput.

Module CommitmentOutput.
Section S.
Context {Mem : UninitMem} `{!Typeforce}.

Definition HEADER : buffer := [0xaa; 0x21; 0xa9; 0xed].

Definition check (s : script) : result bool :=
  b ← Script.compile s;
  Ok ((blen b >? 37) && byte_is b 0 OP_RETURN && byte_is b 1 0x24 && buf_equals (slice b 2 6) HEADER).

Definition encode (commitment : buffer) : result buffer :=
  _ ← guard_js (Hash256bit commitment) TypeforceError;
  let b := allocUnsafe 36 in
  '(b, _) ← copy HEADER b 0;
  '(b, _) ← copy commitment b 4;
  Script.compile (SArr [COp OP_RETURN; CBuf b]).

Definition decode (b : buffer) : result buffer :=
  _ ← tf_check (check (SBuf b));
  cs ← Script.decompile (SBuf b);
  match nth_chunk cs 1 with
  | Some (CBuf d) => Ok (slice d 4 36)
  | _ => Throw (TypeError "slice is not a function")
  end.

End S.
End CommitmentOutput.

Module NullDataOutput.
Section S.
Context {Mem : UninitMem}.

Definition check (s : script) : result bool :=
  b ← Script.compile s; Ok ((blen b >? 1) && byte_is b 0 OP_RETURN).

Definition encode (data : buffer) : result buffer :=
  Script.compile (SArr [COp OP_RETURN; CBuf data]).

Definition decode (b : buffer) : result buffer :=
  _ ← tf_check (check (SBuf b)); Ok (slice_from b 2).

End S.
End NullDataOutput.

Module P2PKOutput.
Section S.
Context {Mem : UninitMem}.

Definition check (s : script) : result bool :=
  cs ← Script.decompile s;
  Ok ((len cs =? 2) && chunk_is Script.isCanonicalPubKey (nth_chunk cs 0) && is_op (nth_chunk cs 1) OP_CHECKSIG).

Definition encode (pubKey : chunk) : result buffer :=
  _ ← guard_js (Script.isCanonicalPubKey pubKey) TypeforceError;
  Script.compile (SArr [pubKey; COp OP_CHECKSIG]).

Definition decode (s : script) : result (option chunk) :=
  cs ← Script.decompile s;
  _ ← tf_check (check (SArr cs));
  Ok (nth_chunk cs 0).

End S.
End P2PKOutput.

Module MultisigOutput.
Section S.
Context {Mem : UninitMem}.

Definition OP_INT_BASE : Z := OP_RESERVED.

Definition check (s : script) (allowIncomplete : bool) : result bool :=
  cs ← Script.decompile s;
  if len cs <? 4 then Ok false
  else if negb (is_op (nth_chunk cs (len cs - 1)) OP_CHECKMULTISIG) then Ok false
  else
    match nth_chunk cs 0, nth_chunk cs (len cs - 2) with
    | Some (COp c0), Some (COp cn) =>
        let m := c0 - OP_INT_BASE in
        let n := cn - OP_INT_BASE in
        if m <=? 0 then Ok false
        else if n >? 16 then Ok false
        else if m >? n then Ok false
        else if negb (n =? len cs - 3) then Ok false
        else if allowIncomplete then Ok true
        else Ok (forallb Script.isCanonicalPubKey (slice cs 1 (-2)))
    | _, _ => Ok false
    end.

Definition encode (m : Z) (pubKeys : list chunk) : result buffer :=
  _ ← guard_js (forallb Script.isCanonicalPubKey pubKeys) TypeforceError;
  let n := len pubKeys in
  if n <? m then Throw (TypeError "Not enough pubKeys provided")
  else Script.compile (SArr (COp (OP_INT_BASE + m) :: pubKeys ++ [COp (OP_INT_BASE + n); COp OP_CHECKMULTISIG])).

(** [m] and [pubKeys]; the check has made sure that the first chunk is a number. *)
Definition decode (s : script) (allowIncomplete : bool) : result (Z * list chunk) :=
  cs ← Script.decompile s;
  _ ← tf_check (check (SArr cs) allowIncomplete);
  match nth_chunk cs 0 with
  | Some (COp c0) => Ok (c0 - OP_INT_BASE, slice cs 1 (-2))
  | _ => Throw (TypeError "not a number")
  end.

End S.
End MultisigOutput.

Module P2PKInput.
Section S.
Context {Mem : UninitMem} `{!Bip66}.

Definition check (s : script) : result bool :=
  cs ← Script.decompile s;
  Ok ((len cs =? 1) && chunk_is Script.isCanonicalSignature (nth_chunk cs 0)).

Definition encodeStack (signature : chunk) : result (list chunk) :=
  _ ← guard_js (Script.isCanonicalSignature signature) TypeforceError; Ok [signature].

Definition encode (signature : chunk) : result buffer :=
  stack ← encodeStack signature; Script.compile (SArr stack).

Definition decodeStack (stack : list chunk) : result (option chunk) :=
  _ ← tf_check (check (SArr stack)); Ok (nth_chunk stack 0).

Definition decode (s : script) : result (option chunk) :=
  stack ← Script.decompile s; decodeStack stack.

End S.
End P2PKInput.

Module P2PKHInput.
Section S.
Context {Mem : UninitMem} `{!Bip66}.

Definition check (s : script) : result bool :=
  cs ← Script.decompile s;
  Ok ((len cs =? 2) && chunk_is Script.isCanonicalSignature (nth_chunk cs 0) &&
      chunk_is Script.isCanonicalPubKey (nth_chunk cs 1)).

Definition encodeStack (signature pubKey : chunk) : result (list chunk) :=
  _ ← guard_js (Script.isCanonicalSignature signature && Script.isCanonicalPubKey pubKey) TypeforceError;
  Ok [signature; pubKey].

Definition encode (signature pubKey : chunk) : result buffer :=
  stack ← encodeStack signature pubKey; Script.compile (SArr stack).

(** [signature] and [pubKey] *)
Definition decodeStack (stack : list chunk) : result (option chunk * option chunk) :=
  _ ← tf_check (check (SArr stack)); Ok (nth_chunk stack 0, nth_chunk stack 1).

Definition decode (s : script) : result (option chunk * option chunk) :=
  stack ← Script.decompile s; decodeStack stack.

End S.
End P2PKHInput.

Module MultisigInput.
Section S.
Context {Mem : UninitMem} `{!Bip66}.

Definition partialSignature (value : chunk) : bool :=
  is_op (Some value) OP_0 || Script.isCanonicalSignature value.

Definition check (s : script) (allowIncomplete : bool) : result bool :=
  cs ← Script.decompile s;
  if len cs <? 2 then Ok false
  else if negb (is_op (nth_chunk cs 0) OP_0) then Ok false
  else if allowIncomplete then Ok (forallb partialSignature (slice_from cs 1))
  else Ok (forallb Script.isCanonicalSignature (slice_from cs 1)).

Definition EMPTY_BUFFER : buffer := [].

Definition encodeStack (signatures : list chunk) (scriptPubKey : option script) : result (list chunk) :=
  _ ← guard_js (forallb partialSignature signatures) TypeforceError;
  _ ← match scriptPubKey with
      | None => Ok tt
      | Some s =>
          '(m, pubKeys) ← MultisigOutput.decode s false;
          if len signatures <? m then Throw (TypeError "Not enough signatures provided")
          else if len signatures >? len pubKeys then Throw (TypeError "Too many signatures provided")
          else Ok tt
      end;
  Ok (CBuf EMPTY_BUFFER ::
      map (λ sig, if is_op (Some sig) OP_0 then CBuf EMPTY_BUFFER else sig) signatures).

Definition encode (signatures : list chunk) (scriptPubKey : option script) : result buffer :=
  stack ← encodeStack signatures scriptPubKey; Script.compile (SArr stack).

Definition decodeStack (stack : list chunk) (allowIncomplete : bool) : result (list chunk) :=
  _ ← tf_check (check (SArr stack) allowIncomplete); Ok (slice_from stack 1).

Definition decode (s : script) (allowIncomplete : bool) : result (list chunk) :=
  stack ← Script.decompile s; decodeStack stack allowIncomplete.

End S.
End MultisigInput.

Module P2SHInput.
Section S.
Context {Mem : UninitMem} `{!Bip66}.

Definition check (s : script) (allowIncomplete : bool) : result bool :=
  cs ← Script.decompile s;
  if len cs <? 1 then Ok false
  else
    match nth_chunk cs (len cs - 1) with
    | Some (CBuf lastChunk) =>
        sigScript ← Script.compile (SArr (slice cs 0 (-1)));
        scriptSigChunks ← Script.decompile (SBuf sigScript);
        redeemScriptChunks ← Script.decompile (SBuf lastChunk);
        if len redeemScriptChunks =? 0 then Ok false
        else if negb (Script.isPushOnly scriptSigChunks) then Ok false
        else if len cs =? 1 then
          wsh ← P2WSHOutput.check (SArr redeemScriptChunks);
          if (wsh : bool) then Ok true else P2WPKHOutput.check (SArr redeemScriptChunks)
        else
          pkh ← and_then (P2PKHInput.check (SArr scriptSigChunks)) (P2PKHOutput.check (SArr redeemScriptChunks));
          if (pkh : bool) then Ok true
          else
            ms ← and_then (MultisigInput.check (SArr scriptSigChunks) allowIncomplete)
                          (MultisigOutput.check (SArr redeemScriptChunks) false);
            if (ms : bool) then Ok true
            else
              and_then (P2PKInput.check (SArr scriptSigChunks)) (P2PKOutput.check (SArr redeemScriptChunks))
    | _ => Ok false
    end.

Definition encodeStack (redeemScriptStack : list chunk) (redeemScript : script) : result (list chunk) :=
  serializedScriptPubKey ← Script.compile redeemScript;
  Ok (redeemScriptStack ++ [CBuf serializedScriptPubKey]).

Definition encode (redeemScriptSig : script) (redeemScript : script) : result buffer :=
  redeemScriptStack ← Script.decompile redeemScriptSig;
  stack ← encodeStack redeemScriptStack redeemScript;
  Script.compile (SArr stack).

(** [redeemScriptStack] and [redeemScript] *)
Definition decodeStack (stack : list chunk) : result (list chunk * option chunk) :=
  _ ← tf_check (check (SArr stack) false);
  Ok (slice stack 0 (-1), nth_chunk stack (len stack - 1)).

(** [redeemScriptSig] and [redeemScript] *)
Definition decode (s : script) : result (buffer * option chunk) :=
  stack ← Script.decompile s;
  '(redeemScriptStack, redeemScript) ← decodeStack stack;
  redeemScriptSig ← Script.compile (SArr redeemScriptStack);
  Ok (redeemScriptSig, redeemScript).

End S.
End P2SHInput.

Module P2WPKHInput.
Section S.
Context {Mem : UninitMem} `{!Bip66}.

Definition isCompressedCanonicalPubKey (pubKey : chunk) : bool :=
  Script.isCanonicalPubKey pubKey &&
  match pubKey with CBuf b => blen b =? 33 | COp _ => false end.

Definition check (s : script) : result bool :=
  cs ← Script.decompile s;
  Ok ((len cs =? 2) && chunk_is Script.isCanonicalSignature (nth_chunk cs 0) &&
      chunk_is isCompressedCanonicalPubKey (nth_chunk cs 1)).

Definition encodeStack (signature pubKey : chunk) : result (list chunk) :=
  _ ← guard_js (Script.isCanonicalSignature signature && isCompressedCanonicalPubKey pubKey) TypeforceError;
  Ok [signature; pubKey].

(** [signature] and [pubKey] *)
Definition decodeStack (stack : list chunk) : result (option chunk * option chunk) :=
  _ ← tf_check (check (SArr stack)); Ok (nth_chunk stack 0, nth_chunk stack 1).

End S.
End P2WPKHInput.

Module P2WSHInput.
Section S.
Context {Mem : UninitMem} `{!Bip66}.

Definition check (cs : list chunk) (allowIncomplete : bool) : result bool :=
  if len cs <? 1 then Ok false
  else
    match nth_chunk cs (len cs - 1) with
    | Some (CBuf witnessScript) =>
        witnessScriptChunks ← Script.decompile (SBuf witnessScript);
        if len witnessScriptChunks =? 0 then Ok false
        else
          witnessRawScriptSig ← Script.compile (SArr (slice cs 0 (-1)));
          pkh ← and_then (P2PKHInput.check (SBuf witnessRawScriptSig)) (P2PKHOutput.check (SArr witnessScriptChunks));
          if (pkh : bool) then Ok true
          else
            ms ← and_then (MultisigInput.check (SBuf witnessRawScriptSig) allowIncomplete)
                          (MultisigOutput.check (SArr witnessScriptChunks) false);
            if (ms : bool) then Ok true
            else
              and_then (P2PKInput.check (SBuf witnessRawScriptSig)) (P2PKOutput.check (SArr witnessScriptChunks))
    | _ => Ok false
    end.

Definition encodeStack (witnessData : list buffer) (witnessScript : buffer) : list buffer :=
  witnessData ++ [witnessScript].

(** [witnessData] and [witnessScript] *)
Definition decodeStack (stack : list chunk) : result (list chunk * option chunk) :=
  _ ← tf_check (check stack false);
  Ok (slice stack 0 (-1), nth_chunk stack (len stack - 1)).

End S.
End P2WSHInput.

(** ** templates/index.js *)

Inductive scriptType : Type :=
| MULTISIG | NONSTANDARD | NULLDATA | P2PK | P2PKH | P2SH | P2WPKH | P2WSH | WITNESS_COMMITMENT.

#[export] Instance scriptType_eq_dec : EqDecision scriptType.
Proof. solve_decision. Defined.

Module Classify.
Section S.
Context {Mem : UninitMem} `{!Bip66}.

(** [if (check) return t; rest] *)
Definition returns_if (check : result bool) (t : scriptType) (rest : result scriptType) : result scriptType :=
  ok ← check; if (ok : bool) then Ok t else rest.

Definition classifyOutput (s : script) : result scriptType :=
  returns_if (P2WPKHOutput.check s) P2WPKH (
  returns_if (P2WSHOutput.check s) P2WSH (
  returns_if (P2PKHOutput.check s) P2PKH (
  returns_if (P2SHOutput.check s) P2SH (
  cs ← Script.decompile s;
  let chunks := SArr cs in
  returns_if (MultisigOutput.check chunks false) MULTISIG (
  returns_if (P2PKOutput.check chunks) P2PK (
  returns_if (CommitmentOutput.check chunks) WITNESS_COMMITMENT (
  returns_if (NullDataOutput.check chunks) NULLDATA (
  Ok NONSTANDARD)))))))).

Definition classifyInput (s : script) (allowIncomplete : bool) : result scriptType :=
  cs ← Script.decompile s;
  let chunks := SArr cs in
  returns_if (P2PKHInput.check chunks) P2PKH (
  returns_if (P2SHInput.check chunks allowIncomplete) P2SH (
  returns_if (MultisigInput.check chunks allowIncomplete) MULTISIG (
  returns_if (P2PKInput.check chunks) P2PK (
  Ok NONSTANDARD)))).

Definition classifyWitness (s : script) (allowIncomplete : bool) : result scriptType :=
  cs ← Script.decompile s;
  returns_if (P2WPKHInput.check (SArr cs)) P2WPKH (
  returns_if (P2WSHInput.check cs allowIncomplete) P2WSH (
  Ok NONSTANDARD)).

End S.
End Classify.

(** ** Lemmas *)

Lemma returns_if_inv c t rest t' : Classify.returns_if c t rest = Ok t' →
  (c = Ok true ∧ t' = t) ∨ (c = Ok false ∧ rest = Ok t').
Proof. unfold Classify.returns_if. destruct c as [[]|]; cbn; naive_solver. Qed.

(** Splits [b] into its bytes, where [H] says how many it has. *)
Ltac split_bytes b H :=
  repeat (destruct b as [|? b]; [discriminate H|]);
  destruct b as [|? b]; [|exfalso; revert H; rewrite !blen_cons; pose proof (blen_nonneg b); lia].

Section FixedOutputs.
Context {Mem : UninitMem} `{!Typeforce} `{!TypeforceSpec}.

Ltac encode_bytes h :=
  intros Hl; cbn [guard_js mbind result_bind]; rewrite Script.compile_writable;
  [unfold Script.serialize; cbn [map concat app]; rewrite (Script.chunk_bytes_push h) by lia; by rewrite Hl
  |cbn [forallb Script.writable]; rewrite Hl; reflexivity].

Lemma p2pkh_encode_bytes h : blen h = 20 →
  P2PKHOutput.encode h = Ok ([0x76; 0xa9; 0x14] ++ h ++ [0x88; 0xac]).
Proof. intros Hl. unfold P2PKHOutput.encode. rewrite (proj2 (Hash160bit_spec h) Hl). revert Hl. encode_bytes h. Qed.

Lemma p2sh_encode_bytes h : blen h = 20 →
  P2SHOutput.encode h = Ok ([0xa9; 0x14] ++ h ++ [0x87]).
Proof. intros Hl. unfold P2SHOutput.encode. rewrite (proj2 (Hash160bit_spec h) Hl). revert Hl. encode_bytes h. Qed.

Lemma p2wpkh_encode_bytes h : blen h = 20 → P2WPKHOutput.encode h = Ok ([0x00; 0x14] ++ h).
Proof.
  intros Hl. unfold P2WPKHOutput.encode. rewrite (proj2 (Hash160bit_spec h) Hl). revert Hl.
  rewrite <- (app_nil_r ([0; 20] ++ h)), <- app_assoc. encode_bytes h.
Qed.

Lemma p2wsh_encode_bytes h : blen h = 32 → P2WSHOutput.encode h = Ok ([0x00; 0x20] ++ h).
Proof.
  intros Hl. unfold P2WSHOutput.encode. rewrite (proj2 (Hash256bit_spec h) Hl). revert Hl.
  rewrite <- (app_nil_r ([0; 32] ++ h)), <- app_assoc. encode_bytes h.
Qed.

(** The checks hold of the byte strings [encode] makes, and of nothing else. *)
Ltac check_iff b :=
  split;
  [ cbn [Script.compile mbind result_bind]; intros [= Hc]; bool_facts;
    repeat match goal with E : byte_is _ _ _ = true |- _ => apply byte_is_get in E end;
    match goal with E : blen b = _ |- _ => split_bytes b E; clear E end;
    repeat match goal with E : get _ _ = Some _ |- _ => injection E as -> end
  | intros (h & Hl & ->); split_bytes h Hl; reflexivity ].

Lemma p2pkh_check_iff b : P2PKHOutput.check (SBuf b) = Ok true ↔
  ∃ h, blen h = 20 ∧ b = [0x76; 0xa9; 0x14] ++ h ++ [0x88; 0xac].
Proof.
  unfold P2PKHOutput.check. check_iff b.
  eexists [_; _; _; _; _; _; _; _; _; _; _; _; _; _; _; _; _; _; _; _]. split; reflexivity.
Qed.

Lemma p2sh_check_iff b : P2SHOutput.check (SBuf b) = Ok true ↔
  ∃ h, blen h = 20 ∧ b = [0xa9; 0x14] ++ h ++ [0x87].
Proof.
  unfold P2SHOutput.check. check_iff b.
  eexists [_; _; _; _; _; _; _; _; _; _; _; _; _; _; _; _; _; _; _; _]. split; reflexivity.
Qed.

Lemma p2wpkh_check_iff b : P2WPKHOutput.check (SBuf b) = Ok true ↔
  ∃ h, blen h = 20 ∧ b = [0x00; 0x14] ++ h.
Proof. unfold P2WPKHOutput.check. check_iff b. eexists. split; [|reflexivity]. reflexivity. Qed.

Lemma p2wsh_check_iff b : P2WSHOutput.check (SBuf b) = Ok true ↔
  ∃ h, blen h = 32 ∧ b = [0x00; 0x20] ++ h.
Proof. unfold P2WSHOutput.check. check_iff b. eexists. split; [|reflexivity]. reflexivity. Qed.

Context `{!Bip66}.

(** A classified output passed the check of its template. *)
Lemma classify_inv b t : Classify.classifyOutput (SBuf b) = Ok t →
  match t with
  | P2WPKH => P2WPKHOutput.check (SBuf b) = Ok true
  | P2WSH => P2WSHOutput.check (SBuf b) = Ok true
  | P2PKH => P2PKHOutput.check (SBuf b) = Ok true
  | P2SH => P2SHOutput.check (SBuf b) = Ok true
  | _ => True
  end.
Proof.
  intros Hc. unfold Classify.classifyOutput in Hc.
  do 4 (apply returns_if_inv in Hc as [[E ->]|[_ Hc]]; [exact E|]).
  destruct (Script.decompile (SBuf b)) as [cs|]; [|discriminate]. cbn [mbind result_bind] in Hc.
  do 4 (apply returns_if_inv in Hc as [[_ ->]|[_ Hc]]; [exact I|]). by injection Hc as <-.
Qed.

Lemma classify_hash b h : blen h = 20 →
  (b = [0x76; 0xa9; 0x14] ++ h ++ [0x88; 0xac] → Classify.classifyOutput (SBuf b) = Ok P2PKH ∧ P2PKHOutput.decode b = Ok h) ∧
  (b = [0xa9; 0x14] ++ h ++ [0x87] → Classify.classifyOutput (SBuf b) = Ok P2SH ∧ P2SHOutput.decode b = Ok h) ∧
  (b = [0x00; 0x14] ++ h → Classify.classifyOutput (SBuf b) = Ok P2WPKH ∧ P2WPKHOutput.decode b = Ok h).
Proof. intros Hl. split_bytes h Hl. split_and!; intros ->; split; reflexivity. Qed.

Lemma classify_hash256 h : blen h = 32 →
  Classify.classifyOutput (SBuf ([0x00; 0x20] ++ h)) = Ok P2WSH ∧ P2WSHOutput.decode ([0x00; 0x20] ++ h) = Ok h.
Proof. intros Hl. split_bytes h Hl. split; reflexivity. Qed.

(** ** Properties *)

(** The four templates that pay to a hash are recognised exactly: an output is
    classified as one of them if and only if it is the encoding of a hash, and
    [decode] returns that hash. *)
Theorem classify_hash_outputs b :
  (Classify.classifyOutput (SBuf b) = Ok P2PKH ↔
     ∃ h, P2PKHOutput.encode h = Ok b ∧ P2PKHOutput.decode b = Ok h) ∧
  (Classify.classifyOutput (SBuf b) = Ok P2SH ↔
     ∃ h, P2SHOutput.encode h = Ok b ∧ P2SHOutput.decode b = Ok h) ∧
  (Classify.classifyOutput (SBuf b) = Ok P2WPKH ↔
     ∃ h, P2WPKHOutput.encode h = Ok b ∧ P2WPKHOutput.decode b = Ok h) ∧
  (Classify.classifyOutput (SBuf b) = Ok P2WSH ↔
     ∃ h, P2WSHOutput.encode h = Ok b ∧ P2WSHOutput.decode b = Ok h).
Proof.
  split_and!; (split; [intros Hc; apply classify_inv in Hc|intros (h & He & _)]).
  - apply p2pkh_check_iff in Hc as (h & Hl & E). exists h. subst b.
    split; [by apply p2pkh_encode_bytes|by apply (classify_hash _ h)].
  - pose proof He as [Hl%Hash160bit_spec _]%guard_ok. rewrite p2pkh_encode_bytes in He by done.
    injection He as <-. by apply (classify_hash _ h).
  - apply p2sh_check_iff in Hc as (h & Hl & E). exists h. subst b.
    split; [by apply p2sh_encode_bytes|by apply (classify_hash _ h)].
  - pose proof He as [Hl%Hash160bit_spec _]%guard_ok. rewrite p2sh_encode_bytes in He by done.
    injection He as <-. by apply (classify_hash _ h).
  - apply p2wpkh_check_iff in Hc as (h & Hl & E). exists h. subst b.
    split; [by apply p2wpkh_encode_bytes|by apply (classify_hash _ h)].
  - pose proof He as [Hl%Hash160bit_spec _]%guard_ok. rewrite p2wpkh_encode_bytes in He by done.
    injection He as <-. by apply (classify_hash _ h).
  - apply p2wsh_check_iff in Hc as (h & Hl & E). exists h. subst b.
    split; [by apply p2wsh_encode_bytes|by apply classify_hash256].
  - pose proof He as [Hl%Hash256bit_spec _]%guard_ok. rewrite p2wsh_encode_bytes in He by done.
    injection He as <-. by apply classify_hash256.
Qed.

End FixedOutputs.

Section Examples.
Import Concrete.

Lemma classify_hash_outputs_witness :
  let b := [0x76; 0xa9; 0x14] ++ replicate 20 7 ++ [0x88; 0xac] in
  (Classify.classifyOutput (Mem := zero_mem) (SBuf b) = Ok P2PKH ↔
     ∃ h, P2PKHOutput.encode (Mem := zero_mem) h = Ok b ∧ P2PKHOutput.decode (Mem := zero_mem) b = Ok h) ∧
  (Classify.classifyOutput (Mem := zero_mem) (SBuf b) = Ok P2SH ↔
     ∃ h, P2SHOutput.encode (Mem := zero_mem) h = Ok b ∧ P2SHOutput.decode (Mem := zero_mem) b = Ok h) ∧
  (Classify.classifyOutput (Mem := zero_mem) (SBuf b) = Ok P2WPKH ↔
     ∃ h, P2WPKHOutput.encode (Mem := zero_mem) h = Ok b ∧ P2WPKHOutput.decode (Mem := zero_mem) b = Ok h) ∧
  (Classify.classifyOutput (Mem := zero_mem) (SBuf b) = Ok P2WSH ↔
     ∃ h, P2WSHOutput.encode (Mem := zero_mem) h = Ok b ∧ P2WSHOutput.decode (Mem := zero_mem) b = Ok h).
Proof. apply classify_hash_outputs. Defined.

End Examples.
