(* ===== verification/TemplateLaws.v ===== *)
(** * Laws of the script templates

    The classifiers return on every script, and the round trips of the templates
    whose form varies: multisig outputs, data outputs, and the inputs. *)

From stdpp Require Import base tactics list gmap numbers strings.
From S2P Require Import Prelude JsNumber NodeBuffer Opcodes PushData ScriptNumber Externals Crypto Script Templates.
Import Types.
Open Scope Z_scope.

(** ** Arrays *)

Lemma Forall_slice {A} (P : A → Prop) xs s e : Forall P xs → Forall P (slice xs s e).
Proof. intros. unfold slice. by apply Forall_take, Forall_drop. Qed.

Lemma nth_chunk_Forall (P : chunk → Prop) cs i c : Forall P cs → nth_chunk cs i = Some c → P c.
Proof.
  intros Hc. unfold nth_chunk. destruct (0 <=? i); [|discriminate]. intros E.
  eapply Forall_lookup_1; eauto.
Qed.

Lemma nth_chunk_app cs c rest : nth_chunk (cs ++ c :: rest) (len cs) = Some c.
Proof.
  unfold nth_chunk, len. rewrite (proj2 (Z.leb_le _ _)) by lia. rewrite Nat2Z.id. by apply list_lookup_middle.
Qed.

Lemma slice_inner {A} (x : A) xs y z : slice (x :: xs ++ [y; z]) 1 (-2) = xs.
Proof.
  unfold slice. set (n := Z.of_nat _). assert (En : n = 3 + len xs).
  { unfold n, len. cbn [length]. rewrite length_app. cbn [length]. lia. }
  replace (clamp_index n 1) with 1 by (unfold clamp_index, len in *; split_ifs).
  replace (clamp_index n (-2)) with (1 + len xs) by (unfold clamp_index, len in *; split_ifs).
  change (Z.to_nat 1) with 1%nat. cbn [drop]. apply take_app_length'. unfold len. lia.
Qed.

Lemma slice_from_1 {A} (x : A) xs : slice_from (x :: xs) 1 = xs.
Proof.
  unfold slice_from. rewrite slice_past by (cbn [length]; lia). done.
Qed.

(** ** The checks return *)

Section Returns.
Context {Mem : UninitMem} `{!Bip66}.

Definition canonical_script (s : script) : Prop :=
  match s with SBuf b => bytes_ok b | SArr cs => Forall Script.canonical cs end.

Lemma canonical_writable cs : Forall Script.canonical cs → forallb Script.writable cs = true.
Proof.
  intros Hc. apply forallb_forall. intros c Hin. apply list_elem_of_In in Hin.
  rewrite Forall_forall in Hc. destruct (Hc c Hin) as [Hd _]. destruct c; cbn in *.
  - rewrite andb_true_iff, Z.leb_le, Z.ltb_lt. lia.
  - rewrite Z.ltb_lt. tauto.
Qed.

Lemma compile_returns s : canonical_script s → returns (Script.compile s).
Proof.
  destruct s as [b|cs]; cbn [canonical_script]; intros Hc; [apply returns_ok|].
  rewrite Script.compile_writable by by apply canonical_writable. apply returns_ok.
Qed.

Lemma compile_bytes_ok cs b :
  Forall Script.canonical cs → Script.compile (SArr cs) = Ok b → bytes_ok b.
Proof.
  intros Hc. rewrite Script.compile_writable by by apply canonical_writable. intros [= <-].
  unfold Script.serialize. apply Forall_concat, Forall_map. eapply Forall_impl; [exact Hc|].
  intros c [Hd _]. by apply Script.bytes_ok_chunk_bytes, Script.chunk_decodable_wf.
Qed.

Lemma decompile_canonical s cs :
  canonical_script s → Script.decompile s = Ok cs → Forall Script.canonical cs.
Proof.
  destruct s as [b|cs']; cbn [canonical_script]; intros Hs E.
  - destruct (Script.decompile_total b Hs) as (cs'' & E' & ?). congruence.
  - by injection E as <-.
Qed.

Lemma decompile_ok s : canonical_script s → returns (Script.decompile s).
Proof.
  destruct s as [b|cs']; intros Hs; [|apply returns_ok].
  destruct (Script.decompile_total b Hs) as (cs & E & ?). by exists cs.
Qed.

Ltac returns_check :=
  intros; repeat first
    [ apply returns_ok
    | apply returns_bind; [first [apply compile_returns | apply decompile_ok]; assumption|intros ? ?]
    | match goal with |- returns (if ?b then _ else _) => destruct b end
    | match goal with |- returns (match ?x with _ => _ end) => destruct x end ].

Lemma p2wpkho_returns s : canonical_script s → returns (P2WPKHOutput.check s).
Proof. unfold P2WPKHOutput.check. returns_check. Qed.
Lemma p2wsho_returns s : canonical_script s → returns (P2WSHOutput.check s).
Proof. unfold P2WSHOutput.check. returns_check. Qed.
Lemma p2pkho_returns s : canonical_script s → returns (P2PKHOutput.check s).
Proof. unfold P2PKHOutput.check. returns_check. Qed.
Lemma p2sho_returns s : canonical_script s → returns (P2SHOutput.check s).
Proof. unfold P2SHOutput.check. returns_check. Qed.
Lemma commitment_returns s : canonical_script s → returns (CommitmentOutput.check s).
Proof. unfold CommitmentOutput.check. returns_check. Qed.
Lemma nulldata_returns s : canonical_script s → returns (NullDataOutput.check s).
Proof. unfold NullDataOutput.check. returns_check. Qed.
Lemma p2pko_returns s : canonical_script s → returns (P2PKOutput.check s).
Proof. unfold P2PKOutput.check. returns_check. Qed.
Lemma p2mso_returns s i : canonical_script s → returns (MultisigOutput.check s i).
Proof. unfold MultisigOutput.check. returns_check. Qed.
Lemma p2pki_returns s : canonical_script s → returns (P2PKInput.check s).
Proof. unfold P2PKInput.check. returns_check. Qed.
Lemma p2pkhi_returns s : canonical_script s → returns (P2PKHInput.check s).
Proof. unfold P2PKHInput.check. returns_check. Qed.
Lemma p2wpkhi_returns s : canonical_script s → returns (P2WPKHInput.check s).
Proof. unfold P2WPKHInput.check. returns_check. Qed.
Lemma p2msi_returns s i : canonical_script s → returns (MultisigInput.check s i).
Proof. unfold MultisigInput.check. returns_check. Qed.

Lemma and_then_returns a b : returns a → returns b → returns (and_then a b).
Proof. intros [[] ->] Hb; [done|apply returns_ok]. Qed.

Lemma returns_if_returns c t rest :
  returns c → returns rest → returns (Classify.returns_if c t rest).
Proof. intros [[] ->] Hr; [apply returns_ok|done]. Qed.

#[local] Hint Resolve p2wpkho_returns p2wsho_returns p2pkho_returns p2sho_returns commitment_returns
  nulldata_returns p2pko_returns p2mso_returns p2pki_returns p2pkhi_returns p2wpkhi_returns p2msi_returns
  and_then_returns returns_if_returns : core.

(** The last step of both script-hash inputs: the three redeem types. *)
Lemma match_types_returns s1 s2 i : canonical_script s1 → canonical_script s2 →
  returns (pkh ← and_then (P2PKHInput.check s1) (P2PKHOutput.check s2);
           if (pkh : bool) then Ok true
           else
             ms ← and_then (MultisigInput.check s1 i) (MultisigOutput.check s2 false);
             if (ms : bool) then Ok true
             else and_then (P2PKInput.check s1) (P2PKOutput.check s2)).
Proof.
  intros. apply returns_bind; [auto|intros [] _; [apply returns_ok|]].
  apply returns_bind; [auto|intros [] _; [apply returns_ok|auto]].
Qed.

Lemma p2shi_returns s i : canonical_script s → returns (P2SHInput.check s i).
Proof.
  intros Hs. unfold P2SHInput.check. apply returns_bind; [by apply decompile_ok|].
  intros cs Ecs. pose proof (decompile_canonical _ _ Hs Ecs) as Hc.
  destruct (len cs <? 1); [apply returns_ok|].
  destruct (nth_chunk cs (len cs - 1)) as [[op|lastChunk]|] eqn:El; try apply returns_ok.
  destruct (nth_chunk_Forall _ _ _ _ Hc El) as [[Hl _] _].
  pose proof (Forall_slice _ _ 0 (-1) Hc) as Hi.
  apply returns_bind; [by apply compile_returns|]. intros b1 E1. apply compile_bytes_ok in E1; [|done].
  apply returns_bind; [by apply decompile_ok|]. intros c2 E2. apply decompile_canonical in E2; [|done].
  apply returns_bind; [by apply decompile_ok|]. intros c3 E3. apply decompile_canonical in E3; [|done].
  destruct (len c3 =? 0); [apply returns_ok|].
  destruct (negb (Script.isPushOnly c2)); [apply returns_ok|].
  destruct (len cs =? 1).
  - apply returns_bind; [auto|intros [] _; [apply returns_ok|auto]].
  - by apply match_types_returns.
Qed.

Lemma p2wshi_returns cs i : Forall Script.canonical cs → returns (P2WSHInput.check cs i).
Proof.
  intros Hc. unfold P2WSHInput.check. destruct (len cs <? 1); [apply returns_ok|].
  destruct (nth_chunk cs (len cs - 1)) as [[op|lastChunk]|] eqn:El; try apply returns_ok.
  destruct (nth_chunk_Forall _ _ _ _ Hc El) as [[Hl _] _].
  apply returns_bind; [by apply decompile_ok|]. intros c3 E3. apply decompile_canonical in E3; [|done].
  destruct (len c3 =? 0); [apply returns_ok|].
  pose proof (Forall_slice _ _ 0 (-1) Hc) as Hi.
  apply returns_bind; [by apply compile_returns|]. intros b1 E1. apply compile_bytes_ok in E1; [|done].
  by apply match_types_returns.
Qed.

(** The classifiers are total: on every byte string they return a type, none of the
    calls they make throws. *)
Theorem classify_total b i : bytes_ok b →
  returns (Classify.classifyOutput (SBuf b)) ∧ returns (Classify.classifyInput (SBuf b) i) ∧
  returns (Classify.classifyWitness (SBuf b) i).
Proof.
  intros Hb. assert (Hs : canonical_script (SBuf b)) by done.
  assert (Hcs : ∀ cs, Script.decompile (SBuf b) = Ok cs → canonical_script (SArr cs)).
  { intros cs E. exact (decompile_canonical _ _ Hs E). }
  pose proof p2shi_returns. pose proof p2wshi_returns.
  unfold Classify.classifyOutput, Classify.classifyInput, Classify.classifyWitness. split_and!.
  - do 4 (apply returns_if_returns; [auto|]). apply returns_bind; [by apply decompile_ok|].
    intros cs E%Hcs. repeat (apply returns_if_returns; [auto|]). apply returns_ok.
  - apply returns_bind; [by apply decompile_ok|].
    intros cs E%Hcs. repeat (apply returns_if_returns; [auto|]). apply returns_ok.
  - apply returns_bind; [by apply decompile_ok|].
    intros cs E%Hcs. repeat (apply returns_if_returns; [auto|]). apply returns_ok.
Qed.

End Returns.

Section Examples.
Import Concrete.

Lemma classify_total_witness :
  returns (Classify.classifyOutput (Mem := zero_mem) (SBuf [0x6a; 0x05])) ∧
  returns (Classify.classifyInput (Mem := zero_mem) (SBuf [0x6a; 0x05]) true) ∧
  returns (Classify.classifyWitness (Mem := zero_mem) (SBuf [0x6a; 0x05]) true).
Proof. apply classify_total. concrete. Defined.

End Examples.

(** ** Keys and signatures *)

Lemma canonical_pubkey_len c : Script.isCanonicalPubKey c = true →
  ∃ b, c = CBuf b ∧ (blen b = 33 ∨ blen b = 65).
Proof.
  destruct c as [op|b]; [discriminate|]. cbn. intros E. exists b. split; [done|].
  destruct (blen b <? 33); [discriminate|].
  destruct ((_ =? 2) || (_ =? 3)); [left; lia|]. destruct (_ =? 4); [right; lia|discriminate].
Qed.

(** A data chunk that [compile] pushes and [decompile] returns unchanged. *)
Definition plain (c : chunk) : Prop := ∃ b, c = CBuf b ∧ bytes_ok b ∧ 1 < blen b < 2 ^ 32.

Lemma plain_canonical c : plain c → Script.canonical c.
Proof.
  intros (b & -> & Hok & Hb). split; [split; [done|lia]|]. cbn.
  destruct (Script.asMinimalOP b) eqn:E; [apply Script.asMinimalOP_short in E; lia|done].
Qed.

Lemma plain_pubkey c : Script.isCanonicalPubKey c = true →
  match c with CBuf b => bytes_ok b | COp _ => True end → plain c.
Proof. intros (b & -> & Hb)%canonical_pubkey_len Hok. exists b. split_and!; [done|done|lia|lia]. Qed.

Lemma canonical_op op : op = 0 ∨ 78 < op < 256 → Script.canonical (COp op).
Proof. intros. split; [done|done]. Qed.

(** What is compiled from canonical chunks decompiles to them. *)
Lemma compile_decompile {Mem : UninitMem} cs : Forall Script.canonical cs →
  Script.compile (SArr cs) = Ok (Script.serialize cs) ∧
  Script.decompile (SBuf (Script.serialize cs)) = Ok cs.
Proof.
  intros Hc. split; [by apply Script.compile_writable, canonical_writable|].
  rewrite Script.decompile_serialize by by apply Script.canonical_decodable.
  by rewrite Script.map_minimalize_canonical.
Qed.

Section Laws.
Context {Mem : UninitMem} `{!Bip66}.

(** No script that starts with another byte pays to a hash. *)
Lemma not_hash_output x r : x ≠ 0 → x ≠ 0x76 → x ≠ 0xa9 →
  P2WPKHOutput.check (SBuf (x :: r)) = Ok false ∧ P2WSHOutput.check (SBuf (x :: r)) = Ok false ∧
  P2PKHOutput.check (SBuf (x :: r)) = Ok false ∧ P2SHOutput.check (SBuf (x :: r)) = Ok false.
Proof.
  intros H0 H1 H2.
  assert (B : ∀ v, x ≠ v → byte_is (x :: r) 0 v = false) by (intros v Hv; by apply Z.eqb_neq).
  unfold P2WPKHOutput.check, P2WSHOutput.check, P2PKHOutput.check, P2SHOutput.check, OP_0, OP_DUP, OP_HASH160.
  cbn [Script.compile mbind result_bind].
  rewrite !B by done. by rewrite !andb_false_r.
Qed.

Definition multisig_chunks (m : Z) (pubKeys : list chunk) : list chunk :=
  COp (80 + m) :: pubKeys ++ [COp (80 + len pubKeys); COp OP_CHECKMULTISIG].

Lemma multisig_check m pubKeys i :
  1 <= m <= len pubKeys → len pubKeys <= 16 →
  forallb Script.isCanonicalPubKey pubKeys = true →
  MultisigOutput.check (SArr (multisig_chunks m pubKeys)) i = Ok true.
Proof.
  intros Hm Hn Hk. unfold MultisigOutput.check, MultisigOutput.OP_INT_BASE, OP_RESERVED.
  cbn [Script.decompile mbind result_bind].
  assert (El : len (multisig_chunks m pubKeys) = len pubKeys + 3).
  { unfold multisig_chunks. rewrite len_cons, len_app. change (len [_; _]) with 2. lia. }
  assert (E1 : nth_chunk (multisig_chunks m pubKeys) (len pubKeys + 3 - 1) = Some (COp OP_CHECKMULTISIG)).
  { unfold multisig_chunks.
    replace (len pubKeys + 3 - 1) with (len (COp (80 + m) :: pubKeys ++ [COp (80 + len pubKeys)]))
      by (rewrite len_cons, len_app; change (len [_]) with 1; lia).
    rewrite <- (nth_chunk_app (COp (80 + m) :: pubKeys ++ [COp (80 + len pubKeys)]) (COp OP_CHECKMULTISIG) []).
    cbn [app]. by rewrite <- app_assoc. }
  assert (E2 : nth_chunk (multisig_chunks m pubKeys) (len pubKeys + 3 - 2) = Some (COp (80 + len pubKeys))).
  { replace (len pubKeys + 3 - 2) with (len (COp (80 + m) :: pubKeys)) by (rewrite len_cons; lia).
    apply (nth_chunk_app (COp (80 + m) :: pubKeys)). }
  rewrite El, E1, E2. change (nth_chunk (multisig_chunks m pubKeys) 0) with (Some (COp (80 + m))).
  rewrite (proj2 (Z.ltb_ge _ 4)) by lia. cbn [is_op negb]. rewrite Z.eqb_refl. cbn [negb].
  rewrite !Z.gtb_ltb, (proj2 (Z.leb_gt (80 + m - 80) 0)) by lia.
  rewrite !(proj2 (Z.ltb_ge _ _)) by lia. rewrite (proj2 (Z.eqb_eq _ _)) by lia. cbn [negb].
  destruct i; [done|]. unfold multisig_chunks. by rewrite slice_inner, Hk.
Qed.

Lemma multisig_canonical m pubKeys : 1 <= m <= len pubKeys → len pubKeys <= 16 →
  Forall plain pubKeys → Forall Script.canonical (multisig_chunks m pubKeys).
Proof.
  intros Hm Hn Hp. unfold multisig_chunks, OP_CHECKMULTISIG. constructor; [apply canonical_op; lia|].
  apply Forall_app. split; [|repeat constructor; lia].
  eapply Forall_impl; [exact Hp|apply plain_canonical].
Qed.

(** An m-of-n multisig output, with 1 <= m <= n <= 16, is encoded, decoded to the
    same [m] and keys, and classified as multisig; with fewer keys than
    signatures [encode] throws. *)
Theorem multisig_roundtrip m pubKeys :
  forallb Script.isCanonicalPubKey pubKeys = true →
  Forall (λ c, match c with CBuf b => bytes_ok b | COp _ => True end) pubKeys →
  (1 <= m <= len pubKeys → len pubKeys <= 16 →
   ∃ b, MultisigOutput.encode m pubKeys = Ok b ∧
     MultisigOutput.decode (SBuf b) false = Ok (m, pubKeys) ∧
     Classify.classifyOutput (SBuf b) = Ok MULTISIG) ∧
  (len pubKeys < m → MultisigOutput.encode m pubKeys = Throw (TypeError "Not enough pubKeys provided")).
Proof.
  intros Hk Hok. unfold MultisigOutput.encode. rewrite Hk. cbn [guard_js mbind result_bind]. split.
  2:{ intros Hm. by rewrite (proj2 (Z.ltb_lt _ _)) by lia. }
  intros Hm Hn. rewrite (proj2 (Z.ltb_ge _ _)) by lia.
  assert (Hp : Forall plain pubKeys).
  { rewrite Forall_forall in Hok |- *. intros c Hc. apply plain_pubkey; [|by apply Hok].
    rewrite forallb_forall in Hk. by apply Hk, list_elem_of_In. }
  destruct (compile_decompile _ (multisig_canonical m pubKeys Hm Hn Hp)) as [Ec Ed].
  exists (Script.serialize (multisig_chunks m pubKeys)). split; [exact Ec|].
  pose proof (multisig_check m pubKeys false Hm Hn Hk) as Ek. split.
  - unfold MultisigOutput.decode. rewrite Ed. cbn [mbind result_bind]. rewrite Ek.
    cbn [tf_check mbind result_bind guard_js]. unfold multisig_chunks. rewrite slice_inner.
    cbn [nth_chunk]. unfold MultisigOutput.OP_INT_BASE, OP_RESERVED.
    change (nth_chunk _ 0) with (Some (COp (80 + m))). cbn iota. do 2 f_equal. lia.
  - unfold Classify.classifyOutput. rewrite Ed. cbn [mbind result_bind]. rewrite Ek.
    unfold Script.serialize, multisig_chunks. cbn [map concat Script.chunk_bytes app].
    edestruct (not_hash_output (80 + m)) as (-> & -> & -> & ->); [lia..|]. done.
Qed.

(** A data output returns its data only if the push has a one-byte prefix: the round
    trip of [encode] and [decode] holds exactly for the empty string and for
    strings of at most 75 bytes that have no opcode of their own. *)
Theorem nulldata_roundtrip_iff data : blen data < 2 ^ 32 →
  (b ← NullDataOutput.encode data; NullDataOutput.decode b) = Ok data ↔
  data = [] ∨ (blen data <= 75 ∧ Script.asMinimalOP data = None).
Proof.
  intros Hd. unfold NullDataOutput.encode. rewrite Script.compile_writable.
  2:{ cbn. by rewrite (proj2 (Z.ltb_lt _ _)). }
  cbn [mbind result_bind]. unfold Script.serialize. cbn [map concat]. rewrite app_nil_r.
  change (Script.chunk_bytes (COp OP_RETURN)) with [OP_RETURN]. cbn [app].
  set (push := Script.chunk_bytes (CBuf data)).
  assert (Hpush : push = match Script.asMinimalOP data with
    | Some op => [op] | None => PushData.prefix (blen data) ++ data end) by done.
  assert (E : NullDataOutput.decode (OP_RETURN :: push) = Ok (drop 1 push)).
  { unfold NullDataOutput.decode, NullDataOutput.check. cbn [Script.compile mbind result_bind].
    rewrite Z.gtb_ltb. assert (0 < blen push).
    { rewrite Hpush. destruct (Script.asMinimalOP data); [done|].
      pose proof (PushData.encodingLength_pos (blen data)). rewrite blen_app, PushData.blen_prefix.
      pose proof (blen_nonneg data). lia. }
    rewrite (proj2 (Z.ltb_lt 1 _)) by (rewrite blen_cons; lia).
    change (byte_is (OP_RETURN :: push) 0 OP_RETURN) with true.
    cbn [andb tf_check guard_js mbind result_bind]. unfold slice_from.
    rewrite slice_past by (unfold blen in *; cbn [length]; lia). done. }
  rewrite E, Hpush. clear E Hpush push. split.
  - intros [= E]. destruct (Script.asMinimalOP data) eqn:Em; [by left|].
    right. split; [|done]. destruct (Z.le_gt_cases (blen data) 75) as [|Hl]; [done|exfalso].
    apply (f_equal length) in E. rewrite length_drop, length_app in E.
    pose proof (PushData.blen_prefix (blen data)) as L. unfold PushData.encodingLength, OP_PUSHDATA1 in L.
    rewrite (proj2 (Z.ltb_ge _ 76)) in L by lia. unfold blen in L at 1.
    destruct (blen data <=? 0xff); [|destruct (blen data <=? 0xffff)]; lia.
  - intros [->|[Hl Em]]; [done|]. rewrite Em. unfold PushData.prefix.
    by rewrite (proj2 (Z.ltb_lt _ _)) by lia.
Qed.

(** ** Inputs *)

Context `{!Bip66Spec}.

Lemma blen_slice_init b : blen (slice b 0 (-1)) = Z.max 0 (blen b - 1).
Proof.
  destruct (Z.eq_dec (blen b) 0) as [E|E]; [by apply blen_0_nil in E as ->|].
  destruct (exists_last (l := b)) as (b' & x & ->); [by intros ->|].
  rewrite slice_init, blen_app. change (blen [x]) with 1. pose proof (blen_nonneg b'). lia.
Qed.

Lemma canonical_signature_len b : Script.isCanonicalSignature (CBuf b) = true → 1 < blen b < 2 ^ 32.
Proof.
  cbn. intros E. destruct (Script.isDefinedHashType _); [|discriminate]. cbn [negb] in E.
  destruct (Z.eqb_spec (blen b) 65); [lia|]. apply bip66_check_len in E. rewrite blen_slice_init in E. lia.
Qed.

Lemma plain_signature c : Script.isCanonicalSignature c = true →
  match c with CBuf b => bytes_ok b | COp _ => True end → plain c.
Proof.
  destruct c as [op|b]; [discriminate|]. intros E Hok. exists b. split; [done|]. split; [done|].
  by apply canonical_signature_len.
Qed.

(** A pay-to-pubkey-hash input, signature and key, survives [encode] and [decode], is
    classified as such, and does not pass for another type. *)
Theorem p2pkh_input_roundtrip sig pk i :
  Script.isCanonicalSignature (CBuf sig) = true → Script.isCanonicalPubKey (CBuf pk) = true →
  bytes_ok sig → bytes_ok pk →
  ∃ b, P2PKHInput.encode (CBuf sig) (CBuf pk) = Ok b ∧
    P2PKHInput.decode (SBuf b) = Ok (Some (CBuf sig), Some (CBuf pk)) ∧
    Classify.classifyInput (SBuf b) i = Ok P2PKH.
Proof.
  intros Hs Hp Hsok Hpok.
  destruct (compile_decompile [CBuf sig; CBuf pk]) as [Ec Ed].
  { apply Forall_cons. split; [by apply plain_canonical, plain_signature|].
    by apply Forall_singleton, plain_canonical, plain_pubkey. }
  assert (Ek : P2PKHInput.check (SArr [CBuf sig; CBuf pk]) = Ok true).
  { unfold P2PKHInput.check. cbn [Script.decompile mbind result_bind].
    change (nth_chunk _ 0) with (Some (CBuf sig)). change (nth_chunk _ 1) with (Some (CBuf pk)).
    cbn [chunk_is]. by rewrite Hs, Hp. }
  eexists. split; [|split].
  - unfold P2PKHInput.encode, P2PKHInput.encodeStack. rewrite Hs, Hp. exact Ec.
  - unfold P2PKHInput.decode, P2PKHInput.decodeStack. rewrite Ed. cbn [mbind result_bind].
    by rewrite Ek.
  - unfold Classify.classifyInput. rewrite Ed. cbn [mbind result_bind]. by rewrite Ek.
Qed.

(** The form of multisig signatures after a round trip: a missing one is [OP_0]. *)
Lemma partial_canonical c : MultisigInput.partialSignature c = true →
  match c with CBuf b => bytes_ok b | COp _ => True end →
  Script.canonical c ∧
  Script.minimalize (if is_op (Some c) OP_0 then CBuf MultisigInput.EMPTY_BUFFER else c) = c ∧
  Script.chunk_decodable (if is_op (Some c) OP_0 then CBuf MultisigInput.EMPTY_BUFFER else c).
Proof.
  unfold MultisigInput.partialSignature. destruct c as [op|b]; cbn [is_op]; intros Hp Hok.
  - rewrite orb_false_r in Hp. bool_facts. subst. split; [by apply canonical_op; left|].
    split; [done|]. split; [constructor|done].
  - destruct (plain_canonical (CBuf b)) as [Hd Em]; [by apply plain_signature|done].
Qed.

(** The signatures of a multisig input, missing ones included, survive [encode] and
    [decode]. *)
Theorem multisig_input_roundtrip sigs :
  sigs ≠ [] → forallb MultisigInput.partialSignature sigs = true →
  Forall (λ c, match c with CBuf b => bytes_ok b | COp _ => True end) sigs →
  ∃ b, MultisigInput.encode sigs None = Ok b ∧ MultisigInput.decode (SBuf b) true = Ok sigs.
Proof.
  intros Hne Hp Hok. unfold MultisigInput.encode, MultisigInput.encodeStack. rewrite Hp.
  cbn [guard_js mbind result_bind]. set (g := λ sig : chunk, if is_op _ _ then _ else sig).
  assert (Hs : Forall (λ c, Script.minimalize (g c) = c ∧ Script.chunk_decodable (g c)) sigs).
  { rewrite Forall_forall in Hok |- *. intros c Hc. apply partial_canonical; [|by apply Hok].
    rewrite forallb_forall in Hp. by apply Hp, list_elem_of_In. }
  assert (Hd : Forall Script.chunk_decodable (CBuf MultisigInput.EMPTY_BUFFER :: map g sigs)).
  { constructor; [split; [constructor|done]|]. apply Forall_map. eapply Forall_impl; [exact Hs|]. by intros c []. }
  exists (Script.serialize (CBuf MultisigInput.EMPTY_BUFFER :: map g sigs)). split.
  { by apply Script.compile_serialize, Script.decodable_wf. }
  unfold MultisigInput.decode, MultisigInput.decodeStack. rewrite Script.decompile_serialize by done.
  cbn [mbind result_bind map]. rewrite map_map.
  replace (map (λ x, Script.minimalize (g x)) sigs) with sigs.
  2:{ clear -Hs. induction Hs as [|c cs [E _] _ IH]; cbn; [done|]. by rewrite E, <- IH. }
  change (Script.minimalize (CBuf MultisigInput.EMPTY_BUFFER)) with (COp OP_0).
  unfold MultisigInput.check. cbn [Script.decompile mbind result_bind].
  rewrite (proj2 (Z.ltb_ge _ 2)) by (destruct sigs; [done|rewrite !len_cons; unfold len; lia]).
  change (nth_chunk (COp OP_0 :: sigs) 0) with (Some (COp OP_0)). cbn [is_op negb].
  change (OP_0 =? OP_0) with true. cbn [negb]. rewrite slice_from_1, Hp.
  done.
Qed.

(** A script-hash input made of a stack and a redeem script decodes to the compiled
    stack and the same redeem script, whenever the stack passes the check. *)
Theorem p2sh_input_roundtrip cs r :
  Forall Script.canonical cs → bytes_ok r → 1 < blen r < 2 ^ 32 →
  P2SHInput.check (SArr (cs ++ [CBuf r])) false = Ok true →
  ∃ b, P2SHInput.encode (SArr cs) (SBuf r) = Ok b ∧
    P2SHInput.decode (SBuf b) = Ok (Script.serialize cs, Some (CBuf r)).
Proof.
  intros Hc Hok Hr Hk.
  assert (Hcs : Forall Script.canonical (cs ++ [CBuf r])).
  { apply Forall_app. split; [done|]. apply Forall_singleton, plain_canonical. by exists r. }
  destruct (compile_decompile _ Hcs) as [Ec Ed]. eexists. split; [exact Ec|].
  unfold P2SHInput.decode, P2SHInput.decodeStack. rewrite Ed. cbn [mbind result_bind]. rewrite Hk.
  cbn [tf_check mbind result_bind guard_js]. rewrite slice_init.
  destruct (compile_decompile _ Hc) as [-> _]. cbn [mbind result_bind].
  replace (len (cs ++ [CBuf r]) - 1) with (len cs) by (rewrite len_app; change (len [_]) with 1; lia).
  by rewrite nth_chunk_app.
Qed.

End Laws.

Section Examples.
Import Concrete.

(** A key and a signature. *)
Definition a_key : buffer := 2 :: replicate 32 9.
Definition a_signature : buffer := [0x30; 8; 0x02; 2; 1; 5; 0x02; 2; 2; 9; 0x41].

Lemma multisig_roundtrip_witness :
  (1 <= 1 <= len [CBuf a_key; CBuf a_key] → len [CBuf a_key; CBuf a_key] <= 16 →
   ∃ b, MultisigOutput.encode (Mem := zero_mem) 1 [CBuf a_key; CBuf a_key] = Ok b ∧
     MultisigOutput.decode (SBuf b) false = Ok (1, [CBuf a_key; CBuf a_key]) ∧
     Classify.classifyOutput (Mem := zero_mem) (SBuf b) = Ok MULTISIG) ∧
  (len [CBuf a_key; CBuf a_key] < 1 →
   MultisigOutput.encode (Mem := zero_mem) 1 [CBuf a_key; CBuf a_key] = Throw (TypeError "Not enough pubKeys provided")).
Proof. apply (multisig_roundtrip (Mem := zero_mem)); concrete. Defined.

Lemma nulldata_roundtrip_iff_witness :
  (b ← NullDataOutput.encode (Mem := zero_mem) (replicate 76 1); NullDataOutput.decode (Mem := zero_mem) b)
    = Ok (replicate 76 1) ↔
  replicate 76 1 = [] ∨ (blen (replicate 76 1) <= 75 ∧ Script.asMinimalOP (replicate 76 1) = None).
Proof. apply (nulldata_roundtrip_iff (Mem := zero_mem)). reflexivity. Defined.

Lemma p2pkh_input_roundtrip_witness :
  ∃ b, P2PKHInput.encode (Mem := zero_mem) (CBuf a_signature) (CBuf a_key) = Ok b ∧
    P2PKHInput.decode (SBuf b) = Ok (Some (CBuf a_signature), Some (CBuf a_key)) ∧
    Classify.classifyInput (Mem := zero_mem) (SBuf b) false = Ok P2PKH.
Proof. apply (p2pkh_input_roundtrip (Mem := zero_mem)); concrete. Defined.

Lemma multisig_input_roundtrip_witness :
  ∃ b, MultisigInput.encode (Mem := zero_mem) [COp 0; CBuf a_signature] None = Ok b ∧
    MultisigInput.decode (SBuf b) true = Ok [COp 0; CBuf a_signature].
Proof. apply (multisig_input_roundtrip (Mem := zero_mem)); [discriminate|concrete|concrete]. Defined.

Lemma p2sh_input_roundtrip_witness :
  ∃ b, P2SHInput.encode (Mem := zero_mem) (SArr [CBuf a_signature]) (SBuf (33 :: a_key ++ [172])) = Ok b ∧
    P2SHInput.decode (Mem := zero_mem) (SBuf b)
    = Ok (Script.serialize [CBuf a_signature], Some (CBuf (33 :: a_key ++ [172]))).
Proof. apply (p2sh_input_roundtrip (Mem := zero_mem)); concrete. Defined.

End Examples.
