(* ===== verification/Transaction.v ===== *)
(** * Transactions

    [ecashjs-lib/src/transaction.js]: building, sizing, serialising and parsing
    transactions, and the hashes that signatures commit to.  The closures over
    [buffer] and [offset] of the source are the writers and readers of
    NodeBuffer; [tx_bytes] is the serialisation they compute. *)

From stdpp Require Import base tactics list gmap numbers strings.
From S2P Require Import Prelude JsNumber NodeBuffer Opcodes Externals BufferUtils Crypto Script Asm.
Import Types.
Open Scope Z_scope.

Record txin := mkTxin {
  in_hash : buffer;
  in_index : Z;
  in_script : buffer;
  in_sequence : Z;
  in_witness : list buffer;
}.

(** An output has a [value], or, in the blank outputs of a signature hash, a
    [valueBuffer] instead. *)
Record txout := mkTxout {
  out_value : option Z;
  out_valueBuffer : option buffer;
  out_script : buffer;
}.

Record transaction := mkTransaction {
  version : Z;
  locktime : Z;
  ins : list txin;
  outs : list txout;
}.

#[export] Instance txin_eq_dec : EqDecision txin.
Proof. solve_decision. Defined.
#[export] Instance txout_eq_dec : EqDecision txout.
Proof. solve_decision. Defined.
#[export] Instance transaction_eq_dec : EqDecision transaction.
Proof. solve_decision. Defined.

(** [xs[i] = f(xs[i])], and the [TypeError] of an index without an element. *)
Definition modify_at {A} (i : Z) (f : A → A) (xs : list A) : result (list A) :=
  if (0 <=? i) && (i <? len xs) then Ok (alter f (Z.to_nat i) xs)
  else Throw (TypeError "Cannot set properties of undefined").

Module Transaction.

(** [new Transaction()] *)
Definition new : transaction := {| version := 2; locktime := 0; ins := []; outs := [] |}.

Definition DEFAULT_SEQUENCE : Z := 0xffffffff.
Definition SIGHASH_ALL : Z := 0x01.
Definition SIGHASH_NONE : Z := 0x02.
Definition SIGHASH_SINGLE : Z := 0x03.
Definition SIGHASH_ANYONECANPAY : Z := 0x80.
Definition SIGHASH_BITCOINCASHBIP143 : Z := 0x40.
Definition ADVANCED_TRANSACTION_MARKER : Z := 0x00.
Definition ADVANCED_TRANSACTION_FLAG : Z := 0x01.

Definition EMPTY_SCRIPT : buffer := [].
Definition EMPTY_WITNESS : list buffer := [].
Definition ZERO : buffer := replicate 32 0.
Definition ONE : buffer := replicate 31 0 ++ [1].
Definition VALUE_UINT64_MAX : buffer := replicate 8 0xff.
Definition BLANK_OUTPUT : txout :=
  {| out_value := None; out_valueBuffer := Some VALUE_UINT64_MAX; out_script := EMPTY_SCRIPT |}.

Definition hasWitnesses (tx : transaction) : bool :=
  existsb (λ x, negb (len (in_witness x) =? 0)) (ins tx).

Section Tx.
Context {Mem : UninitMem} `{!Typeforce} `{!VarUint} `{!CreateHash}.

(** ** Sizes *)

Definition varSliceSize (someScript : buffer) : Z :=
  vu_encodingLength (blen someScript) + blen someScript.

Definition vectorSize (someVector : list buffer) : Z :=
  vu_encodingLength (len someVector) + fold_left (λ sum w, sum + varSliceSize w) someVector 0.

Definition __byteLength (tx : transaction) (__allowWitness : bool) : Z :=
  let hasWitnesses := __allowWitness && hasWitnesses tx in
  (if hasWitnesses then 10 else 8) +
  vu_encodingLength (len (ins tx)) +
  vu_encodingLength (len (outs tx)) +
  fold_left (λ sum input, sum + 40 + varSliceSize (in_script input)) (ins tx) 0 +
  fold_left (λ sum output, sum + 8 + varSliceSize (out_script output)) (outs tx) 0 +
  (if hasWitnesses then fold_left (λ sum input, sum + vectorSize (in_witness input)) (ins tx) 0 else 0).

Definition byteLength (tx : transaction) : Z := __byteLength tx true.

Definition weight (tx : transaction) : Z :=
  let base := __byteLength tx false in
  let total := __byteLength tx true in
  base * 3 + total.

(** [Math.ceil(x / 4)] *)
Definition virtualSize (tx : transaction) : Z := - (- weight tx / 4).

(** ** Parsing *)

Definition readSlice (n : Z) : reader buffer := rSlice n.
Definition readUInt32 : reader Z := rUIntLE 4.
Definition readInt32 : reader Z := rInt32.
Definition readUInt64 : reader Z := BufferUtils.rUInt64.
Definition readVarInt : reader Z := BufferUtils.rVarInt.
Definition readVarSlice : reader buffer := n ← readVarInt; readSlice n.
Definition readVector : reader (list buffer) :=
  count ← readVarInt; rtimes readVarSlice (Z.to_nat count).

Definition readTxin : reader txin :=
  hash ← readSlice 32;
  index ← readUInt32;
  script ← readVarSlice;
  sequence ← readUInt32;
  mret (mkTxin hash index script sequence EMPTY_WITNESS).

Definition readTxout : reader txout :=
  value ← readUInt64;
  script ← readVarSlice;
  mret (mkTxout (Some value) None script).

(** The marker and the flag are looked at without moving the offset, and skipped
    when they are the two bytes of a transaction with witnesses. *)
Definition readMarker : reader bool := λ b off,
  marker ← readUInt8 b off;
  flag ← readUInt8 b (off + 1);
  if (marker =? ADVANCED_TRANSACTION_MARKER) && (flag =? ADVANCED_TRANSACTION_FLAG)
  then Ok (true, off + 2) else Ok (false, off).

Definition set_witness (x : txin) (w : list buffer) : txin :=
  mkTxin (in_hash x) (in_index x) (in_script x) (in_sequence x) w.

Definition rthrow {A} (e : js_exn) : reader A := λ _ _, Throw e.

(** The body of [fromBuffer], up to the check of what is left over. *)
Definition readTransaction : reader transaction :=
  version ← readInt32;
  hasWitness ← readMarker;
  vinLen ← readVarInt;
  ins ← rtimes readTxin (Z.to_nat vinLen);
  voutLen ← readVarInt;
  outs ← rtimes readTxout (Z.to_nat voutLen);
  ins ← (if (hasWitness : bool) then
           ws ← rtimes readVector (Z.to_nat vinLen);
           let ins := zip_with set_witness ins ws in
           if negb (hasWitnesses (mkTransaction version 0 ins outs))
           then rthrow (Error "Transaction has superfluous witness data")
           else mret ins
         else mret ins);
  locktime ← readUInt32;
  mret (mkTransaction version locktime ins outs).

Definition fromBuffer (b : buffer) (__noStrict : bool) : result transaction :=
  '(tx, offset) ← readTransaction b 0;
  if __noStrict then Ok tx
  else if negb (offset =? blen b) then Throw (Error "Transaction has unexpected data")
  else Ok tx.

(** ** Building *)

Definition isCoinbaseHash (b : buffer) : result bool :=
  _ ← guard_js (Hash256bit b) TypeforceError;
  Ok (forallb (λ i, byte_is b (Z.of_nat i) 0) (seq 0 32)).

Definition isCoinbase (tx : transaction) : result bool :=
  match ins tx with
  | [x] => isCoinbaseHash (in_hash x)
  | _ => Ok false
  end.

(** The new transaction and the index of the input. *)
Definition addInput (tx : transaction) (hash : buffer) (index : Z) (sequence : option Z)
    (scriptSig : option buffer) : result (transaction * Z) :=
  _ ← guard_js (Hash256bit hash && tf_UInt32 index &&
                match sequence with Some s => tf_UInt32 s | None => true end) TypeforceError;
  let sequence := default DEFAULT_SEQUENCE sequence in
  let input := mkTxin hash index (default EMPTY_SCRIPT scriptSig) sequence EMPTY_WITNESS in
  Ok (mkTransaction (version tx) (locktime tx) (ins tx ++ [input]) (outs tx), len (ins tx)).

Definition addOutput (tx : transaction) (scriptPubKey : buffer) (value : Z) : result (transaction * Z) :=
  _ ← guard_js (Satoshi value) TypeforceError;
  Ok (mkTransaction (version tx) (locktime tx) (ins tx)
        (outs tx ++ [mkTxout (Some value) None scriptPubKey]), len (outs tx)).

(** A clone has [value] and [script] of an output, not its [valueBuffer]. *)
Definition clone_out (o : txout) : txout := mkTxout (out_value o) None (out_script o).
Definition clone (tx : transaction) : transaction :=
  mkTransaction (version tx) (locktime tx)
    (map (λ i, mkTxin (in_hash i) (in_index i) (in_script i) (in_sequence i) (in_witness i)) (ins tx))
    (map clone_out (outs tx)).

Definition set_script (s : buffer) (x : txin) : txin :=
  mkTxin (in_hash x) (in_index x) s (in_sequence x) (in_witness x).

Definition setInputScript (tx : transaction) (index : Z) (scriptSig : buffer) : result transaction :=
  ins' ← modify_at index (set_script scriptSig) (ins tx);
  Ok (mkTransaction (version tx) (locktime tx) ins' (outs tx)).

Definition setWitness (tx : transaction) (index : Z) (witness : list buffer) : result transaction :=
  ins' ← modify_at index (λ x, set_witness x witness) (ins tx);
  Ok (mkTransaction (version tx) (locktime tx) ins' (outs tx)).

(** ** Serialising *)

Definition writeSlice (s : buffer) : writer := wSlice s.
Definition writeUInt8 (i : Z) : writer := wUIntLE 1 i.
Definition writeUInt32 (i : Z) : writer := wUIntLE 4 i.
Definition writeInt32 (i : Z) : writer := wInt32 i.
Definition writeUInt64 (i : option Z) : writer := λ b off, BufferUtils.writeUInt64LE b i off.
Definition writeVarInt (i : Z) : writer := BufferUtils.wVarInt i.
Definition writeVarSlice (s : buffer) : writer := (writeVarInt (blen s) ;; writeSlice s)%writer.
Definition writeVector (v : list buffer) : writer :=
  (writeVarInt (len v) ;; wforEach writeVarSlice v)%writer.

Definition writeTxin (i : txin) : writer :=
  (writeSlice (in_hash i) ;; writeUInt32 (in_index i) ;;
   writeVarSlice (in_script i) ;; writeUInt32 (in_sequence i))%writer.

Definition writeTxout (o : txout) : writer :=
  ((match out_valueBuffer o with
    | None => writeUInt64 (out_value o)
    | Some v => writeSlice v
    end) ;; writeVarSlice (out_script o))%writer.

(** The calls of [__toBuffer] on the buffer. *)
Definition writeTransaction (tx : transaction) (__allowWitness : bool) : writer :=
  let hasWitnesses := __allowWitness && hasWitnesses tx in
  (writeInt32 (version tx) ;;
   (if hasWitnesses
    then writeUInt8 ADVANCED_TRANSACTION_MARKER ;; writeUInt8 ADVANCED_TRANSACTION_FLAG
    else wskip) ;;
   writeVarInt (len (ins tx)) ;;
   wforEach writeTxin (ins tx) ;;
   writeVarInt (len (outs tx)) ;;
   wforEach writeTxout (outs tx) ;;
   (if hasWitnesses then wforEach (λ i, writeVector (in_witness i)) (ins tx) else wskip) ;;
   writeUInt32 (locktime tx))%writer.

(** The buffer as it is left, which the caller may hold, and the result. *)
Definition __toBuffer (tx : transaction) (b : option buffer) (initialOffset : option Z)
    (__allowWitness : bool) : result (buffer * buffer) :=
  let b := default (allocUnsafe (__byteLength tx __allowWitness)) b in
  '(b, offset) ← writeTransaction tx __allowWitness b (default 0 initialOffset);
  match initialOffset with
  | Some o => Ok (b, slice b o offset)
  | None => Ok (b, b)
  end.

Definition toBuffer (tx : transaction) (b : option buffer) (initialOffset : option Z) : result (buffer * buffer) :=
  __toBuffer tx b initialOffset true.

Definition getHash (tx : transaction) : result buffer :=
  '(_, b) ← __toBuffer tx None None false; Ok (Crypto.hash256 b).

(** The bytes whose hexadecimal form is the id. *)
Definition getId (tx : transaction) : result buffer :=
  h ← getHash tx; Ok (reverse h).

Definition toHex (tx : transaction) : result string :=
  '(_, b) ← toBuffer tx None None; Ok (Hex.toHex b).

Definition fromHex (hex : string) : result transaction := fromBuffer (Hex.fromHex hex) false.

End Tx.
End Transaction.
