(* ===== verification/TransactionLaws.v ===== *)
(** * Laws of transactions: sizes, serialisation, parsing

    [tx_bytes] is the serialisation of a transaction, written as a
    concatenation.  [__toBuffer] computes it in a buffer of exactly
    [__byteLength] bytes, and [fromBuffer] inverts it. *)

From stdpp Require Import base tactics list gmap numbers strings.
From S2P Require Import Prelude JsNumber NodeBuffer Opcodes Externals BufferUtils Crypto Script Transaction.
Import Types.
Open Scope Z_scope.

Module TransactionLaws.

Section Spec.
Context `{!VarUint} `{!VarUintSpec}.

Definition varslice_bytes (s : buffer) : buffer := vu_bytes (blen s) ++ s.
Definition vector_bytes (v : list buffer) : buffer :=
  vu_bytes (len v) ++ concat (map varslice_bytes v).

Definition in_bytes (i : txin) : buffer :=
  in_hash i ++ le_bytes 4 (in_index i) ++ varslice_bytes (in_script i) ++ le_bytes 4 (in_sequence i).

Definition amount_bytes (o : txout) : buffer :=
  match out_valueBuffer o with
  | Some v => v
  | None => le_bytes 8 (default 0 (out_value o))
  end.

Definition out_bytes (o : txout) : buffer := amount_bytes o ++ varslice_bytes (out_script o).

Definition tx_bytes (tx : transaction) (allowWitness : bool) : buffer :=
  let w := allowWitness && Transaction.hasWitnesses tx in
  le_bytes 4 (version tx) ++
  (if w then [0; 1] else []) ++
  vu_bytes (len (ins tx)) ++ concat (map in_bytes (ins tx)) ++
  vu_bytes (len (outs tx)) ++ concat (map out_bytes (outs tx)) ++
  (if w then concat (map (λ i, vector_bytes (in_witness i)) (ins tx)) else []) ++
  le_bytes 4 (locktime tx).

End Spec.

(** ** Well-formed transactions *)

Definition uint32 (n : Z) : Prop := 0 <= n < 2 ^ 32.
Definition short (s : buffer) : Prop := blen s <= MAX_SAFE_INTEGER.

Record in_wf (i : txin) : Prop := {
  in_wf_hash : blen (in_hash i) = 32;
  in_wf_index : uint32 (in_index i);
  in_wf_script : short (in_script i);
  in_wf_sequence : uint32 (in_sequence i);
  in_wf_witness : len (in_witness i) <= MAX_SAFE_INTEGER ∧ Forall short (in_witness i);
}.

(** An output with an amount, as parsing and [addOutput] make them. *)
Definition valued (o : txout) : Prop :=
  out_valueBuffer o = None ∧ ∃ v, out_value o = Some v ∧ 0 <= v <= MAX_SAFE_INTEGER.

(** An output that can be written: one with an amount, or a blank one. *)
Definition out_wf (o : txout) : Prop :=
  (valued o ∨ ∃ v, out_valueBuffer o = Some v ∧ blen v = 8) ∧ short (out_script o).

Record tx_wf (tx : transaction) : Prop := {
  wf_version : - 2 ^ 31 <= version tx < 2 ^ 31;
  wf_locktime : uint32 (locktime tx);
  wf_ins_len : len (ins tx) <= MAX_SAFE_INTEGER;
  wf_outs_len : len (outs tx) <= MAX_SAFE_INTEGER;
  wf_ins : Forall in_wf (ins tx);
  wf_outs : Forall out_wf (outs tx);
}.

(** ** Writing *)

Section Laws.
Context {Mem : UninitMem} `{TF : !Typeforce} `{VU : !VarUint} `{VS : !VarUintSpec} `{CH : !CreateHash}.

Lemma writes_varint n : 0 <= n <= MAX_SAFE_INTEGER → writes (Transaction.writeVarInt n) (vu_bytes n).
Proof. apply vu_encode_spec. Qed.

Lemma writes_varslice s : short s → writes (Transaction.writeVarSlice s) (varslice_bytes s).
Proof.
  intros Hs. apply writes_then; [apply writes_varint|apply writes_slice].
  split; [auto with js|done].
Qed.

Lemma writes_vector v : len v <= MAX_SAFE_INTEGER → Forall short v →
  writes (Transaction.writeVector v) (vector_bytes v).
Proof.
  intros Hl Hs. apply writes_then; [apply writes_varint; split; [auto with js|done]|].
  apply writes_forEach. eapply Forall_impl; [exact Hs|]. apply writes_varslice.
Qed.

Lemma writes_uint32 n : uint32 n → writes (Transaction.writeUInt32 n) (le_bytes 4 n).
Proof. intros H. by apply writes_uint. Qed.

Lemma writes_txin i : in_wf i → writes (Transaction.writeTxin i) (in_bytes i).
Proof.
  intros []. apply writes_then; [apply writes_slice|]. apply writes_then; [by apply writes_uint32|].
  apply writes_then; [by apply writes_varslice|by apply writes_uint32].
Qed.

Lemma writes_txout o : out_wf o → writes (Transaction.writeTxout o) (out_bytes o).
Proof.
  intros [[[Ev (v & Ea & Hv)]|(v & Ev & Hv)] Hs]; unfold Transaction.writeTxout, out_bytes, amount_bytes;
    rewrite Ev; (apply writes_then; [|by apply writes_varslice]).
  - rewrite Ea. by apply BufferUtils.writes_uint64.
  - apply writes_slice.
Qed.

Lemma writes_transaction tx w : tx_wf tx → writes (Transaction.writeTransaction tx w) (tx_bytes tx w).
Proof.
  intros []. unfold Transaction.writeTransaction, tx_bytes. cbv zeta.
  apply writes_then; [by apply writes_int32|].
  apply writes_then.
  { destruct (w && _); [|apply writes_skip].
    apply (writes_then _ _ (le_bytes 1 0) (le_bytes 1 1)); apply (writes_uint 1); cbn; lia. }
  apply writes_then; [apply writes_varint; auto with js|].
  apply writes_then; [apply writes_forEach; eapply Forall_impl; [done|apply writes_txin]|].
  apply writes_then; [apply writes_varint; auto with js|].
  apply writes_then; [apply writes_forEach; eapply Forall_impl; [done|apply writes_txout]|].
  apply writes_then; [|by apply writes_uint32].
  destruct (w && _); [|apply writes_skip]. apply writes_forEach.
  eapply Forall_impl; [done|]. intros i []. destruct in_wf_witness0. by apply writes_vector.
Qed.

(** ** Sizes *)

Lemma fold_sum {A} (f : A → Z) xs n :
  fold_left (λ sum x, sum + f x) xs n = n + fold_right Z.add 0 (map f xs).
Proof. revert n. induction xs as [|x xs IH]; intros n; cbn; [lia|]. rewrite IH. lia. Qed.

Lemma fold_sum2 {A} (k : Z) (f : A → Z) xs n :
  fold_left (λ sum x, sum + k + f x) xs n = n + fold_right Z.add 0 (map (λ x, k + f x) xs).
Proof. revert n. induction xs as [|x xs IH]; intros n; cbn; [lia|]. rewrite IH. lia. Qed.

Lemma blen_concat {A} (g : A → buffer) (f : A → Z) xs :
  Forall (λ x, blen (g x) = f x) xs → blen (concat (map g xs)) = fold_right Z.add 0 (map f xs).
Proof. induction 1 as [|x xs Hx _ IH]; cbn; [done|]. by rewrite blen_app, Hx, IH. Qed.

Lemma blen_varslice s : short s → blen (varslice_bytes s) = Transaction.varSliceSize s.
Proof.
  intros. unfold varslice_bytes, Transaction.varSliceSize. rewrite blen_app, vu_bytes_len; [done|].
  split; [auto with js|done].
Qed.

Lemma blen_vector v : len v <= MAX_SAFE_INTEGER → Forall short v →
  blen (vector_bytes v) = Transaction.vectorSize v.
Proof.
  intros Hl Hs. unfold vector_bytes, Transaction.vectorSize. rewrite blen_app, vu_bytes_len by auto with js.
  rewrite fold_sum, (blen_concat _ Transaction.varSliceSize); [lia|].
  eapply Forall_impl; [exact Hs|apply blen_varslice].
Qed.

Lemma blen_in i : in_wf i → blen (in_bytes i) = 40 + Transaction.varSliceSize (in_script i).
Proof.
  intros []. unfold in_bytes. rewrite !blen_app, !blen_le_bytes, blen_varslice by done. lia.
Qed.

Lemma blen_out o : out_wf o → blen (out_bytes o) = 8 + Transaction.varSliceSize (out_script o).
Proof.
  intros [[[Ev (v & Ea & Hv)]|(v & Ev & Hv)] Hs]; unfold out_bytes, amount_bytes; rewrite Ev, blen_app, blen_varslice by done.
  - by rewrite blen_le_bytes.
  - lia.
Qed.

Lemma blen_tx_bytes tx w : tx_wf tx → blen (tx_bytes tx w) = Transaction.__byteLength tx w.
Proof.
  intros []. unfold tx_bytes, Transaction.__byteLength. cbv zeta.
  rewrite !blen_app, !blen_le_bytes, !vu_bytes_len by auto with js.
  rewrite !fold_sum2, fold_sum.
  rewrite (blen_concat in_bytes (λ i, 40 + Transaction.varSliceSize (in_script i)))
    by (eapply Forall_impl; [done|apply blen_in]).
  rewrite (blen_concat out_bytes (λ o, 8 + Transaction.varSliceSize (out_script o)))
    by (eapply Forall_impl; [done|apply blen_out]).
  destruct (w && _).
  - rewrite (blen_concat _ (λ i, Transaction.vectorSize (in_witness i))).
    + change (blen [0; 1]) with 2. lia.
    + eapply Forall_impl; [done|]. intros i []. destruct in_wf_witness0. by apply blen_vector.
  - change (blen []) with 0. lia.
Qed.

(** ** Reading what was written *)

Lemma reads_varint n : 0 <= n <= MAX_SAFE_INTEGER → reads Transaction.readVarInt (vu_bytes n) n.
Proof. apply vu_decode_spec. Qed.

Lemma reads_varslice s : short s → reads Transaction.readVarSlice (varslice_bytes s) s.
Proof.
  intros Hs. eapply reads_bind; [apply reads_varint; split; [auto with js|done]|]. by apply reads_slice.
Qed.

Lemma reads_uint32 n : uint32 n → reads Transaction.readUInt32 (le_bytes 4 n) n.
Proof. intros H. by apply reads_uint. Qed.

Lemma reads_vector v : len v <= MAX_SAFE_INTEGER → Forall short v →
  reads Transaction.readVector (vector_bytes v) v.
Proof.
  intros Hl Hs. eapply reads_bind; [apply reads_varint; split; [auto with js|done]|].
  unfold len. rewrite Nat2Z.id. apply reads_times. eapply Forall_impl; [exact Hs|apply reads_varslice].
Qed.

Lemma reads_txin i : in_wf i →
  reads Transaction.readTxin (in_bytes i) (Transaction.set_witness i Transaction.EMPTY_WITNESS).
Proof.
  intros []. unfold in_bytes. rewrite <- (app_nil_r (le_bytes 4 (in_sequence i))).
  eapply reads_bind; [by apply reads_slice|]. eapply reads_bind; [by apply reads_uint32|].
  eapply reads_bind; [by apply reads_varslice|]. eapply reads_bind; [by apply reads_uint32|].
  apply reads_ret.
Qed.

Lemma reads_txout o : valued o → short (out_script o) → reads Transaction.readTxout (out_bytes o) o.
Proof.
  intros [Eb (v & Ev & Hv)] Hs. destruct o as [ov ob os]; cbn in *; subst.
  unfold out_bytes, amount_bytes. cbn [out_valueBuffer out_value out_script default from_option id].
  rewrite <- (app_nil_r (varslice_bytes os)).
  eapply reads_bind; [by apply BufferUtils.reads_uint64|].
  eapply reads_bind; [by apply reads_varslice|]. apply reads_ret.
Qed.

Lemma reads_txins xs : Forall in_wf xs →
  reads (rtimes Transaction.readTxin (length xs)) (concat (map in_bytes xs))
    (map (λ i, Transaction.set_witness i Transaction.EMPTY_WITNESS) xs).
Proof.
  intros Hw. set (f := λ i, Transaction.set_witness i Transaction.EMPTY_WITNESS).
  rewrite <- (length_map f xs). replace (map in_bytes xs) with (map in_bytes (map f xs)) by by rewrite map_map.
  apply reads_times, Forall_map. eapply Forall_impl; [exact Hw|].
  intros i Hi. change (in_bytes (f i)) with (in_bytes i). by apply reads_txin.
Qed.

Lemma zip_witness xs : 
  zip_with Transaction.set_witness (map (λ i, Transaction.set_witness i Transaction.EMPTY_WITNESS) xs)
    (map in_witness xs) = xs.
Proof. induction xs as [|[] xs IH]; cbn; [done|]. by rewrite IH. Qed.

Lemma no_witness_map xs v l os :
  Transaction.hasWitnesses (mkTransaction v l xs os) = false →
  map (λ i, Transaction.set_witness i Transaction.EMPTY_WITNESS) xs = xs.
Proof.
  unfold Transaction.hasWitnesses. cbn [ins]. intros H. induction xs as [|[h i sc sq w] xs IH]; [done|].
  cbn in *. destruct w; [|discriminate]. by rewrite IH.
Qed.

(** Looking for a marker where there is none. *)
Lemma reads_marker_false {A} (k : bool → reader A) bs a :
  (∃ x y bs', bs = x :: y :: bs' ∧ x ≠ 0) → reads (k false) bs a →
  reads (w ← Transaction.readMarker; k w) bs a.
Proof.
  intros (x & y & bs' & -> & Hx) Hk pre post. unfold mbind, reader_bind, Transaction.readMarker.
  cbn [app]. rewrite readUInt8_app. cbn [mbind result_bind].
  replace (readUInt8 (pre ++ x :: y :: bs' ++ post) (blen pre + 1)) with (Ok y).
  2:{ rewrite (cons_middle x pre), app_assoc. replace (blen pre + 1) with (blen (pre ++ [x])) by blen_lia.
      by rewrite readUInt8_app. }
  cbn [mbind result_bind]. unfold Transaction.ADVANCED_TRANSACTION_MARKER.
  rewrite (proj2 (Z.eqb_neq x 0)) by done. apply (Hk pre post).
Qed.

Lemma reads_marker_true : reads Transaction.readMarker [0; 1] true.
Proof.
  intros pre post. unfold Transaction.readMarker. cbn [app]. rewrite readUInt8_app. cbn [mbind result_bind].
  rewrite (cons_middle 0 pre), app_assoc. replace (blen pre + 1) with (blen (pre ++ [0])) by blen_lia.
  rewrite readUInt8_app. cbn. by rewrite blen_app.
Qed.

(** The count of a non-empty array is not a marker. *)
Lemma count_not_marker {A} (xs : list A) r : xs ≠ [] → len xs <= MAX_SAFE_INTEGER → r ≠ [] →
  ∃ x y bs', vu_bytes (len xs) ++ r = x :: y :: bs' ∧ x ≠ 0.
Proof.
  intros Hne Hl Hr. destruct (vu_bytes_hd (len xs)) as (x & t & -> & Hx); [auto with js|].
  assert (x ≠ 0). { intros ->. specialize (Hx eq_refl). destruct xs; [done|]. rewrite len_cons in Hx.
    pose proof (len_nonneg xs). lia. }
  destruct t as [|y t]; [|by eexists _, _, _].
  destruct r as [|y r]; [done|]. by eexists _, _, _.
Qed.

(** The part of [fromBuffer] behind the marker. *)
Definition readBody (version : Z) (hasWitness : bool) : reader transaction :=
  vinLen ← Transaction.readVarInt;
  ins ← rtimes Transaction.readTxin (Z.to_nat vinLen);
  voutLen ← Transaction.readVarInt;
  outs ← rtimes Transaction.readTxout (Z.to_nat voutLen);
  ins ← (if (hasWitness : bool) then
           ws ← rtimes Transaction.readVector (Z.to_nat vinLen);
           let ins := zip_with Transaction.set_witness ins ws in
           if negb (Transaction.hasWitnesses (mkTransaction version 0 ins outs))
           then Transaction.rthrow (Error "Transaction has superfluous witness data")
           else mret ins
         else mret ins);
  locktime ← Transaction.readUInt32;
  mret (mkTransaction version locktime ins outs).

Lemma reads_body tx : tx_wf tx → Forall valued (outs tx) →
  reads (readBody (version tx) (Transaction.hasWitnesses tx))
    (vu_bytes (len (ins tx)) ++ concat (map in_bytes (ins tx)) ++
     vu_bytes (len (outs tx)) ++ concat (map out_bytes (outs tx)) ++
     (if Transaction.hasWitnesses tx then concat (map (λ i, vector_bytes (in_witness i)) (ins tx)) else []) ++
     le_bytes 4 (locktime tx)) tx.
Proof.
  intros [] Hv. destruct tx as [vn lt xs os]; cbn [version locktime ins outs] in *.
  rewrite <- (app_nil_r (le_bytes 4 lt)).
  eapply reads_bind; [apply reads_varint; split; [auto with js|done]|]. cbv beta. rewrite !len_to_nat.
  eapply reads_bind; [by apply reads_txins|].
  eapply reads_bind; [apply reads_varint; split; [auto with js|done]|]. cbv beta. rewrite !len_to_nat.
  eapply reads_bind; [apply (reads_times _ out_bytes)|].
  { rewrite Forall_forall in Hv, wf_outs0 |- *. intros o Ho.
    apply reads_txout; [by apply Hv|by apply wf_outs0]. }
  eapply (reads_bind _ _ _ _ xs).
  - destruct (Transaction.hasWitnesses _) eqn:Ew.
    + rewrite <- (app_nil_r (concat _)). eapply reads_bind.
      * rewrite <- (length_map in_witness xs), <- (map_map in_witness vector_bytes).
        apply reads_times, Forall_map. eapply Forall_impl; [exact wf_ins0|].
        intros i []. destruct in_wf_witness0. by apply reads_vector.
      * cbv zeta. rewrite zip_witness. unfold Transaction.hasWitnesses in *. cbn [ins] in *. rewrite Ew.
        apply reads_ret.
    + rewrite (no_witness_map xs vn lt os Ew). apply reads_ret.
  - eapply reads_bind; [by apply reads_uint32|]. apply reads_ret.
Qed.

Lemma reads_transaction tx : tx_wf tx → Forall valued (outs tx) → ins tx ≠ [] →
  reads Transaction.readTransaction (tx_bytes tx true) tx.
Proof.
  intros Hw Hv Hne. pose proof (reads_body tx Hw Hv) as Hb. destruct Hw.
  unfold tx_bytes. cbn [andb]. cbv zeta.
  change Transaction.readTransaction with
    (v ← Transaction.readInt32; w ← Transaction.readMarker; readBody v w).
  eapply reads_bind; [by apply reads_int32|]. destruct (Transaction.hasWitnesses tx).
  - eapply reads_bind; [apply reads_marker_true|]. exact Hb.
  - cbn [app] in *. apply reads_marker_false; [|exact Hb]. apply count_not_marker; [done|done|].
    intros E. apply (f_equal length) in E. rewrite !length_app, length_le_bytes in E. cbn [length] in E. lia.
Qed.

(** ** What parsing can return

    [yields r P]: a successful [r] moves the offset forward, and if it has not
    left the buffer its result satisfies [P].  A slice may end outside the
    buffer; the reads behind it decide whether it was complete. *)
Definition yields {A} (r : reader A) (P : A → Prop) : Prop :=
  ∀ b off a off', bytes_ok b → 0 <= off → r b off = Ok (a, off') →
    off <= off' ∧ (off' <= blen b → P a).

Lemma yields_ret {A} (a : A) : yields (mret a) (λ a', a' = a).
Proof. intros b off a' off' _ Hoff [= <- <-]. split; [lia|done]. Qed.

Lemma yields_bind {A B} (r : reader A) (k : A → reader B) P Q :
  yields r P → (∀ a, yields (k a) (Q a)) → yields (r ≫= k) (λ c, ∃ a, P a ∧ Q a c).
Proof.
  intros Hr Hk b off c off' Hok Hoff. unfold mbind, reader_bind.
  destruct (r b off) as [[a off1]|] eqn:E1; [|discriminate]. intros E2.
  destruct (Hr _ _ _ _ Hok Hoff E1) as [L1 P1]. destruct (Hk a b off1 c off' Hok ltac:(lia) E2) as [L2 P2].
  split; [lia|]. intros Hin. exists a. split; [apply P1; lia|by apply P2].
Qed.

Lemma yields_weaken {A} (r : reader A) (P Q : A → Prop) : (∀ a, P a → Q a) → yields r P → yields r Q.
Proof. intros HPQ Hr b off a off' Hok Hoff E. destruct (Hr _ _ _ _ Hok Hoff E). split; [done|eauto]. Qed.

Lemma yields_times {A} (r : reader A) P n :
  yields r P → yields (rtimes r n) (λ xs, length xs = n ∧ Forall P xs).
Proof.
  intros Hr. induction n as [|n IH]; cbn [rtimes].
  - eapply yields_weaken; [|apply yields_ret]. intros xs ->. by split.
  - eapply yields_weaken; [|apply yields_bind; [exact Hr|intros x; apply yields_bind; [exact IH|intros xs; apply yields_ret]]].
    intros ys (x & Hx & xs & [Hl Hxs] & ->). cbn. split; [lia|by constructor].
Qed.

Lemma yields_slice n : 0 <= n → yields (Transaction.readSlice n) (λ s, blen s = n ∧ bytes_ok s).
Proof.
  intros Hn b off s off' Hok Hoff [= <- <-]. split; [lia|]. intros Hin. split; [|auto with js].
  rewrite slice_in by (unfold blen in Hin; lia). unfold blen in *. rewrite length_take, length_drop. lia.
Qed.

Lemma yields_uint32 : yields Transaction.readUInt32 uint32.
Proof.
  intros b off v off' Hok Hoff. unfold Transaction.readUInt32, rUIntLE.
  destruct (readUIntLE 4 b off) as [v'|] eqn:E; [|discriminate]. intros [= <- <-].
  split; [lia|]. intros _. by apply (readUIntLE_range 4 b off).
Qed.

Lemma yields_int32 : yields Transaction.readInt32 (λ v, - 2 ^ 31 <= v < 2 ^ 31).
Proof.
  intros b off v off' Hok Hoff. unfold Transaction.readInt32, rInt32, readInt32LE.
  destruct (readUInt32LE b off) as [v'|] eqn:E; [|discriminate]. intros [= <- <-].
  split; [lia|]. intros _. apply to_int32_range.
Qed.

Lemma yields_uint64 : yields Transaction.readUInt64 (λ v, 0 <= v <= MAX_SAFE_INTEGER).
Proof.
  intros b off v off' Hok Hoff. unfold Transaction.readUInt64, BufferUtils.rUInt64, BufferUtils.readUInt64LE.
  destruct (readUInt32LE b off) as [lo|] eqn:E1; [|discriminate]. cbn [mbind result_bind].
  destruct (readUInt32LE b (off + 4)) as [hi|] eqn:E2; [|discriminate]. cbn [mbind result_bind].
  unfold BufferUtils.verifuint. rewrite Z.gtb_ltb.
  destruct (Z.ltb_spec (hi * 0x100000000 + lo) 0); [discriminate|].
  destruct (Z.ltb_spec 0x001fffffffffffff (hi * 0x100000000 + lo)); [discriminate|].
  intros [= <- <-]. split; [lia|]. intros _. unfold MAX_SAFE_INTEGER. lia.
Qed.

Lemma yields_varint : yields Transaction.readVarInt (λ n, 0 <= n <= MAX_SAFE_INTEGER).
Proof.
  intros b off v off' Hok Hoff. unfold Transaction.readVarInt, BufferUtils.rVarInt.
  destruct (vu_decode b off) as [[n k]|] eqn:E; [|discriminate]. intros [= <- <-].
  destruct (vu_decode_range _ _ _ _ Hok Hoff E). split; [lia|done].
Qed.

Lemma yields_marker : yields Transaction.readMarker (λ _, True).
Proof.
  intros b off v off' Hok Hoff. unfold Transaction.readMarker.
  destruct (readUInt8 b off); [|discriminate]. cbn [mbind result_bind].
  destruct (readUInt8 b (off + 1)); [|discriminate]. cbn [mbind result_bind].
  destruct (_ && _); intros [= <- <-]; (split; [lia|done]).
Qed.

(** A slice is read only with a length that is a number. *)
Lemma yields_varslice : yields Transaction.readVarSlice (λ s, short s ∧ bytes_ok s).
Proof.
  intros b off s off' Hok Hoff. unfold Transaction.readVarSlice, mbind, reader_bind.
  destruct (Transaction.readVarInt b off) as [[n off1]|] eqn:E1; [|discriminate]. intros E2.
  unfold Transaction.readVarInt, BufferUtils.rVarInt in E1.
  destruct (vu_decode b off) as [[n' k]|] eqn:E; [|discriminate]. injection E1 as -> <-.
  destruct (vu_decode_range _ _ _ _ Hok Hoff E) as [Hn Hk].
  destruct (yields_slice n ltac:(lia) b (off + k) s off' Hok ltac:(lia) E2) as [L2 P2].
  split; [lia|]. intros Hin. destruct (P2 Hin). unfold short. split; [lia|done].
Qed.

Lemma yields_vector : yields Transaction.readVector
  (λ v, len v <= MAX_SAFE_INTEGER ∧ Forall (λ s, short s ∧ bytes_ok s) v).
Proof.
  eapply yields_weaken; [|apply yields_bind; [apply yields_varint|intros n; apply yields_times, yields_varslice]].
  intros v (n & Hn & Hl & Hv). split; [unfold len; lia|done].
Qed.

Lemma yields_txin : yields Transaction.readTxin (λ i, in_wf i ∧ in_witness i = []).
Proof.
  eapply yields_weaken; [|apply yields_bind; [apply (yields_slice 32); lia|intros h;
    apply yields_bind; [apply yields_uint32|intros n;
    apply yields_bind; [apply yields_varslice|intros sc;
    apply yields_bind; [apply yields_uint32|intros sq; apply yields_ret]]]]].
  intros i (h & [Hh _] & n & Hn & sc & [Hsc _] & sq & Hsq & ->).
  split; [|done]. by split.
Qed.

Lemma yields_txout : yields Transaction.readTxout (λ o, valued o ∧ short (out_script o)).
Proof.
  eapply yields_weaken; [|apply yields_bind; [apply yields_uint64|intros v;
    apply yields_bind; [apply yields_varslice|intros sc; apply yields_ret]]].
  intros o (v & Hv & sc & [Hsc _] & ->). split; [|done]. split; [done|]. by exists v.
Qed.

Lemma set_witness_wf xs ws :
  Forall (λ i, in_wf i ∧ in_witness i = []) xs →
  Forall (λ v, len v <= MAX_SAFE_INTEGER ∧ Forall (λ s, short s ∧ bytes_ok s) v) ws →
  Forall in_wf (zip_with Transaction.set_witness xs ws).
Proof.
  intros Hx. revert ws. induction Hx as [|x xs [[] _] _ IH]; intros [|w ws] Hw; try constructor; cbn.
  - inversion_clear Hw as [|? ? [Hl Hs] _]. split; cbn; try done. split; [done|].
    eapply Forall_impl; [exact Hs|]. by intros s [].
  - inversion_clear Hw. by apply IH.
Qed.

(** The witnesses, when there are any. *)
Lemma yields_witnesses version outs xs n :
  yields (ws ← rtimes Transaction.readVector n;
          let ins := zip_with Transaction.set_witness xs ws in
          if negb (Transaction.hasWitnesses (mkTransaction version 0 ins outs))
          then Transaction.rthrow (Error "Transaction has superfluous witness data")
          else mret ins)
    (λ xs', length xs = n → Forall (λ i, in_wf i ∧ in_witness i = []) xs →
       Forall in_wf xs' ∧ length xs' = n ∧ Transaction.hasWitnesses (mkTransaction version 0 xs' outs) = true).
Proof.
  eapply yields_weaken; [|apply yields_bind with
    (Q := λ ws xs', Transaction.hasWitnesses (mkTransaction version 0 xs' outs) = true ∧
                    xs' = zip_with Transaction.set_witness xs ws);
    [apply yields_times, yields_vector|]].
  - intros xs' (ws & [Hwl Hws] & Hw & ->) Hl Hx. split_and!; [by apply set_witness_wf| |done].
    rewrite length_zip_with. lia.
  - intros ws b off xs' off' Hok Hoff. cbv zeta. destruct (Transaction.hasWitnesses _) eqn:Ew; [|discriminate].
    intros [= <- <-]. split; [lia|done].
Qed.

Lemma yields_body v w : - 2 ^ 31 <= v < 2 ^ 31 →
  yields (readBody v w) (λ tx, tx_wf tx ∧ Forall valued (outs tx) ∧ (w = true → Transaction.hasWitnesses tx = true)).
Proof.
  intros Hv. eapply yields_weaken; [|
    apply yields_bind; [apply yields_varint|intros vinLen];
    apply yields_bind; [apply yields_times, yields_txin|intros xs];
    apply yields_bind; [apply yields_varint|intros voutLen];
    apply yields_bind; [apply yields_times, yields_txout|intros os];
    apply yields_bind with (P := λ xs', length xs = Z.to_nat vinLen →
      Forall (λ i, in_wf i ∧ in_witness i = []) xs →
      Forall in_wf xs' ∧ length xs' = Z.to_nat vinLen ∧
      (w = true → Transaction.hasWitnesses (mkTransaction v 0 xs' os) = true));
    [|intros xs'; apply yields_bind; [apply yields_uint32|intros lt; apply yields_ret]]].
  - intros tx (vinLen & Hvin & xs & [Hl Hx] & voutLen & Hvout & os & [Hol Ho] & xs' & Hx' & lt & Hlt & ->).
    destruct (Hx' Hl Hx) as (Hwf & Hl' & Hw). split_and!.
    + split; cbn; [done|done|unfold len; lia|unfold len; lia|done|].
      eapply Forall_impl; [exact Ho|]. intros o [Hval Hs]. split; [by left|done].
    + cbn. eapply Forall_impl; [exact Ho|]. by intros o [].
    + exact Hw.
  - destruct w.
    + eapply yields_weaken; [|apply yields_witnesses]. intros xs' Hx' Hl Hx. by destruct (Hx' Hl Hx) as (? & ? & ?).
    + eapply yields_weaken; [|apply yields_ret]. intros xs' -> Hl Hx. split_and!; [|done|done].
      eapply Forall_impl; [exact Hx|]. by intros i [].
Qed.

Lemma yields_transaction :
  yields Transaction.readTransaction (λ tx, tx_wf tx ∧ Forall valued (outs tx)).
Proof.
  change Transaction.readTransaction with
    (v ← Transaction.readInt32; w ← Transaction.readMarker; readBody v w).
  intros b off tx off' Hok Hoff. unfold mbind at 1, reader_bind at 1.
  destruct (Transaction.readInt32 b off) as [[v off1]|] eqn:E1; [|discriminate].
  assert (Hv : - 2 ^ 31 <= v < 2 ^ 31 ∧ off <= off1).
  { unfold Transaction.readInt32, rInt32, readInt32LE in E1.
    destruct (readUInt32LE b off) as [v'|]; [|discriminate]. injection E1 as <- <-.
    split; [apply to_int32_range|lia]. }
  intros E2. destruct (yields_bind _ (readBody v) _ _ yields_marker (λ w, yields_body v w (proj1 Hv))
    b off1 tx off' Hok ltac:(lia) E2) as [L2 P2].
  split; [lia|]. intros Hin. destruct (P2 Hin) as (w & _ & ? & ? & _). done.
Qed.

Lemma fromBuffer_wf b tx : bytes_ok b → Transaction.fromBuffer b false = Ok tx →
  tx_wf tx ∧ Forall valued (outs tx).
Proof.
  intros Hok. unfold Transaction.fromBuffer.
  destruct (Transaction.readTransaction b 0) as [[tx' off]|] eqn:E; [|discriminate]. cbn [mbind result_bind].
  destruct (Z.eqb_spec off (blen b)); [|discriminate]. intros [= <-].
  apply (yields_transaction b 0 tx' off); [done|lia|done|lia].
Qed.

(** ** Serialising *)

Lemma toBuffer_fresh tx w : tx_wf tx →
  Transaction.__toBuffer tx None None w = Ok (tx_bytes tx w, tx_bytes tx w).
Proof.
  intros Hw. unfold Transaction.__toBuffer. cbn [default from_option].
  erewrite (writes_fill _ (tx_bytes tx w)); [done|by apply writes_transaction|].
  rewrite blen_tx_bytes by done. apply blen_allocUnsafe. rewrite <- blen_tx_bytes by done. auto with js.
Qed.

Lemma toBuffer_into tx w pre rest : tx_wf tx → blen (tx_bytes tx w) <= blen rest →
  Transaction.__toBuffer tx (Some (pre ++ rest)) (Some (blen pre)) w
  = Ok ((pre ++ tx_bytes tx w) ++ drop (length (tx_bytes tx w)) rest, tx_bytes tx w).
Proof.
  intros Hw Hl. unfold Transaction.__toBuffer. cbn [default from_option id].
  rewrite (writes_transaction tx w Hw) by done. cbn [mbind result_bind].
  by rewrite blen_app, <- app_assoc, slice_app.
Qed.

Lemma fromBuffer_bytes tx ns : tx_wf tx → Forall valued (outs tx) → ins tx ≠ [] →
  Transaction.fromBuffer (tx_bytes tx true) ns = Ok tx.
Proof.
  intros Hw Hv Hne. unfold Transaction.fromBuffer.
  pose proof (reads_transaction tx Hw Hv Hne [] []) as R. rewrite app_nil_r in R. cbn [app] in R.
  rewrite blen_nil in R. rewrite R. cbn [mbind result_bind]. rewrite Z.eqb_refl. by destruct ns.
Qed.

(** ** Properties *)

(** [__toBuffer] computes the serialisation [tx_bytes]: in a buffer of its own it fills
    exactly the [__byteLength] bytes it reserved, whatever the memory held, and
    in the caller's buffer it writes at the offset and nothing else. *)
Theorem toBuffer_exact tx w pre rest : tx_wf tx →
  Transaction.__toBuffer tx None None w = Ok (tx_bytes tx w, tx_bytes tx w) ∧
  blen (tx_bytes tx w) = Transaction.__byteLength tx w ∧
  (Transaction.__byteLength tx w <= blen rest →
   Transaction.__toBuffer tx (Some (pre ++ rest)) (Some (blen pre)) w
   = Ok ((pre ++ tx_bytes tx w) ++ drop (length (tx_bytes tx w)) rest, tx_bytes tx w)).
Proof.
  intros Hw. split_and!; [by apply toBuffer_fresh|by apply blen_tx_bytes|].
  intros Hl. apply toBuffer_into; [done|by rewrite blen_tx_bytes].
Qed.

(** C25: a transaction with inputs is parsed back from its serialisation: versions, amounts,
    scripts and witnesses come back, and no byte is left over. *)
Theorem transaction_roundtrip tx :
  tx_wf tx → Forall valued (outs tx) → ins tx ≠ [] →
  ('(_, b) ← Transaction.toBuffer tx None None; Transaction.fromBuffer b false) = Ok tx.
Proof.
  intros Hw Hv Hne. unfold Transaction.toBuffer. rewrite toBuffer_fresh by done.
  cbn [mbind result_bind]. by apply fromBuffer_bytes.
Qed.

(** C26: what [fromBuffer] accepts is well formed, whatever the bytes: 32-byte hashes, 32-bit
    fields, amounts below 2^53, complete scripts.  Hence it can be serialised, and,
    with inputs, that serialisation is read as the same transaction. *)
Theorem parsed_is_wellformed b tx : bytes_ok b → Transaction.fromBuffer b false = Ok tx →
  tx_wf tx ∧ Forall valued (outs tx) ∧
  ∃ b', Transaction.toBuffer tx None None = Ok (b', b') ∧
    (ins tx ≠ [] → Transaction.fromBuffer b' false = Ok tx).
Proof.
  intros Hok E. destruct (fromBuffer_wf b tx Hok E) as [Hw Hv]. split_and!; [done|done|].
  exists (tx_bytes tx true). split; [by apply toBuffer_fresh|]. by apply fromBuffer_bytes.
Qed.

(** What is parsed behind a marker has witnesses. *)
Lemma marker_witness v b off tx off' : readBody v true b off = Ok (tx, off') → Transaction.hasWitnesses tx = true.
Proof.
  intros E. unfold readBody in E. do 4 apply rbind_inv in E as (? & ? & _ & E).
  apply rbind_inv in E as (xs & ? & E1 & E). apply rbind_inv in E1 as (ws & ? & _ & E1).
  cbv zeta in E1. destruct (Transaction.hasWitnesses _) eqn:Ew; [|discriminate]. injection E1 as <- _.
  apply rbind_inv in E as (lt & ? & _ & [= <- _]). exact Ew.
Qed.

(** A transaction without inputs and with one output does not survive the round trip: its
    empty input count and its output count are taken for the marker and the flag. *)
Theorem no_input_ambiguity v l value script :
  - 2 ^ 31 <= v < 2 ^ 31 →
  let tx := mkTransaction v l [] [mkTxout (Some value) None script] in
  Transaction.fromBuffer (tx_bytes tx true) false ≠ Ok tx.
Proof.
  intros Hv tx E. unfold Transaction.fromBuffer in E.
  destruct (Transaction.readTransaction _ 0) as [[tx' off]|] eqn:R; [|discriminate].
  cbn [mbind result_bind] in E. destruct (negb _); [discriminate|]. injection E as ->.
  change Transaction.readTransaction with
    (v ← Transaction.readInt32; w ← Transaction.readMarker; readBody v w) in R.
  unfold tx, tx_bytes in R. change (Transaction.hasWitnesses _) with false in R. cbn [andb app] in R.
  cbn [ins outs version locktime map concat] in R. change (len []) with 0 in R. change (len [_]) with 1 in R.
  rewrite !vu_bytes_small in R by lia. cbn [app] in R. unfold mbind at 1, reader_bind at 1 in R.
  pose proof (reads_int32 v Hv []) as RV. cbn [app] in RV. rewrite blen_nil in RV.
  unfold Transaction.readInt32 in R. rewrite RV in R. clear RV.
  change (0 :: 1 :: ?r) with ([0; 1] ++ r) in R. unfold mbind at 1, reader_bind at 1 in R.
  rewrite reads_marker_true in R. apply marker_witness in R. discriminate.
Qed.

End Laws.

Section Examples.
Import Concrete.

Definition a_tx : transaction :=
  mkTransaction 2 0 [mkTxin (replicate 32 7) 1 [0x51] 0xffffffff [[1; 2]]] [mkTxout (Some 5000) None [0x6a]].

Lemma a_tx_valued : Forall valued (outs a_tx).
Proof. apply Forall_singleton. split; [done|]. exists 5000. concrete. Qed.

Lemma a_tx_wf : tx_wf a_tx.
Proof.
  split; [concrete|concrete|concrete|concrete| |].
  - apply Forall_singleton. split; concrete.
  - apply Forall_singleton. split; [left|concrete]. apply (Forall_inv a_tx_valued).
Qed.

Lemma toBuffer_exact_witness :
  Transaction.__toBuffer (Mem := zero_mem) a_tx None None true = Ok (tx_bytes a_tx true, tx_bytes a_tx true) ∧
  blen (tx_bytes a_tx true) = Transaction.__byteLength a_tx true ∧
  (Transaction.__byteLength a_tx true <= blen (replicate 100 0) →
   Transaction.__toBuffer (Mem := zero_mem) a_tx (Some ([9] ++ replicate 100 0)) (Some (blen [9])) true
   = Ok (([9] ++ tx_bytes a_tx true) ++ drop (length (tx_bytes a_tx true)) (replicate 100 0), tx_bytes a_tx true)).
Proof. apply (toBuffer_exact (Mem := zero_mem)), a_tx_wf. Defined.

Lemma transaction_roundtrip_witness :
  ('(_, b) ← Transaction.toBuffer (Mem := zero_mem) a_tx None None; Transaction.fromBuffer b false) = Ok a_tx.
Proof.
  apply (transaction_roundtrip (Mem := zero_mem)); [apply a_tx_wf|apply a_tx_valued|discriminate].
Defined.

Lemma parsed_is_wellformed_witness :
  tx_wf a_tx ∧ Forall valued (outs a_tx) ∧
  ∃ b', Transaction.toBuffer (Mem := zero_mem) a_tx None None = Ok (b', b') ∧
    (ins a_tx ≠ [] → Transaction.fromBuffer b' false = Ok a_tx).
Proof. apply (parsed_is_wellformed (Mem := zero_mem) (tx_bytes a_tx true)); [concrete|reflexivity]. Defined.

Lemma no_input_ambiguity_witness :
  let tx := mkTransaction 2 0 [] [mkTxout (Some 5000) None [0x6a]] in
  Transaction.fromBuffer (tx_bytes tx true) false ≠ Ok tx.
Proof. apply no_input_ambiguity. vm_compute. intuition discriminate. Defined.

End Examples.
End TransactionLaws.
