(* ===== verification/Sighash.v ===== *)
(** * Signature hashes

    The three hash functions of [ecashjs-lib/src/transaction.js].  Two sets of
    theorems: [hashForWitnessV0] and [hashForSignature] hash exactly the bytes
    of their specification, and each hash depends on a [view] of the transaction
    only, the part its hash type commits to. *)

From stdpp Require Import base tactics list gmap numbers strings.
From S2P Require Import Prelude JsNumber NodeBuffer Opcodes Externals BufferUtils Crypto Script.
From S2P Require Import Transaction TransactionLaws.
Import Types Transaction TransactionLaws.
Open Scope Z_scope.

Module Sighash.

(** [xs[i]] *)
Definition at_index {A} (xs : list A) (i : Z) : option A :=
  if 0 <=? i then xs !! Z.to_nat i else None.

Definition set_sequence (n : Z) (x : txin) : txin :=
  mkTxin (in_hash x) (in_index x) (in_script x) n (in_witness x).

Definition anyoneCanPay (hashType : Z) : bool := truthy (js_and hashType SIGHASH_ANYONECANPAY).
Definition baseType (hashType : Z) : Z := js_and hashType 0x1f.

Section Hash.
Context {Mem : UninitMem} `{TF : !Typeforce} `{VU : !VarUint} `{CH : !CreateHash}.

(** ** hashForSignature *)

(** The script without code separators. *)
Definition ourScript (prevOutScript : buffer) : result buffer :=
  cs ← Script.decompile (SBuf prevOutScript);
  Script.compile (SArr (List.filter (λ x, negb (bool_decide (x = COp OP_CODESEPARATOR))) cs)).

(** Sequence numbers are ignored, except at [inIndex]. *)
Definition ignore_sequences (inIndex : Z) (xs : list txin) : list txin :=
  imap (λ i input, if Z.of_nat i =? inIndex then input else set_sequence 0 input) xs.

(** The outputs of [SIGHASH_SINGLE]: truncated, and blank before [inIndex]. *)
Definition single_outs (inIndex : Z) (os : list txout) : list txout :=
  imap (λ i o, if Z.of_nat i <? inIndex then BLANK_OUTPUT else o) (take (Z.to_nat (inIndex + 1)) os).

(** [txTmp] after the branches on the base type; [None] is [return ONE]. *)
Definition sighash_outs (tx : transaction) (inIndex hashType : Z) (txTmp : transaction) : option transaction :=
  if baseType hashType =? SIGHASH_NONE then
    Some (mkTransaction (version txTmp) (locktime txTmp) (ignore_sequences inIndex (ins txTmp)) [])
  else if baseType hashType =? SIGHASH_SINGLE then
    if inIndex >=? len (outs tx) then None
    else Some (mkTransaction (version txTmp) (locktime txTmp) (ignore_sequences inIndex (ins txTmp))
                 (single_outs inIndex (outs txTmp)))
  else Some txTmp.

(** The inputs that are hashed. *)
Definition sighash_ins (inIndex hashType : Z) (script : buffer) (xs : list txin) : result (list txin) :=
  if anyoneCanPay hashType then
    match at_index xs inIndex with
    | Some x => Ok [set_script script x]
    | None => Throw (TypeError "Cannot set properties of undefined")
    end
  else modify_at inIndex (set_script script) (map (set_script EMPTY_SCRIPT) xs).

Definition hashForSignature (tx : transaction) (inIndex : Z) (prevOutScript : buffer) (hashType : Z)
    : result buffer :=
  _ ← guard_js (tf_UInt32 inIndex) TypeforceError;
  if inIndex >=? len (ins tx) then Ok ONE
  else
    script ← ourScript prevOutScript;
    match sighash_outs tx inIndex hashType (clone tx) with
    | None => Ok ONE
    | Some txTmp =>
        ins' ← sighash_ins inIndex hashType script (ins txTmp);
        let txTmp := mkTransaction (version txTmp) (locktime txTmp) ins' (outs txTmp) in
        let b := allocUnsafe (__byteLength txTmp false + 4) in
        b ← writeInt32LE b hashType (blen b - 4);
        '(b, _) ← __toBuffer txTmp (Some b) (Some 0) false;
        Ok (Crypto.hash256 b)
    end.

(** ** hashForWitnessV0 *)

(** [tbuffer = Buffer.allocUnsafe(n); toffset = 0; w; hash256(tbuffer)] *)
Definition hash_written (n : Z) (w : writer) : result buffer :=
  '(tbuffer, _) ← w (allocUnsafe n) 0; Ok (Crypto.hash256 tbuffer).

Definition hashPrevouts (tx : transaction) (hashType : Z) : result buffer :=
  if negb (anyoneCanPay hashType) then
    hash_written (36 * len (ins tx))
      (wforEach (λ txIn, writeSlice (in_hash txIn) ;; writeUInt32 (in_index txIn)) (ins tx))%writer
  else Ok ZERO.

Definition hashSequence (tx : transaction) (hashType : Z) : result buffer :=
  if negb (anyoneCanPay hashType) && negb (baseType hashType =? SIGHASH_SINGLE) &&
     negb (baseType hashType =? SIGHASH_NONE) then
    hash_written (4 * len (ins tx)) (wforEach (λ txIn, writeUInt32 (in_sequence txIn)) (ins tx))
  else Ok ZERO.

Definition writeOut (out : txout) : writer :=
  (writeUInt64 (out_value out) ;; writeVarSlice (out_script out))%writer.

Definition hashOutputs (tx : transaction) (inIndex hashType : Z) : result buffer :=
  if negb (baseType hashType =? SIGHASH_SINGLE) && negb (baseType hashType =? SIGHASH_NONE) then
    let txOutsSize := fold_left (λ sum output, sum + 8 + varSliceSize (out_script output)) (outs tx) 0 in
    hash_written txOutsSize (wforEach writeOut (outs tx))
  else
    match at_index (outs tx) inIndex with
    | Some output =>
        if baseType hashType =? SIGHASH_SINGLE
        then hash_written (8 + varSliceSize (out_script output)) (writeOut output)
        else Ok ZERO
    | None => Ok ZERO
    end.

Definition wthrow (e : js_exn) : writer := λ _ _, Throw e.

Definition hashForWitnessV0 (tx : transaction) (inIndex : Z) (prevOutScript : buffer) (value hashType : Z)
    : result buffer :=
  _ ← guard_js (tf_UInt32 inIndex && Satoshi value && tf_UInt32 hashType) TypeforceError;
  hashPrevouts ← hashPrevouts tx hashType;
  hashSequence ← hashSequence tx hashType;
  hashOutputs ← hashOutputs tx inIndex hashType;
  hash_written (156 + varSliceSize prevOutScript)
    (writeUInt32 (version tx) ;;
     writeSlice hashPrevouts ;;
     writeSlice hashSequence ;;
     match at_index (ins tx) inIndex with
     | None => wthrow (TypeError "Cannot read properties of undefined")
     | Some input =>
         writeSlice (in_hash input) ;;
         writeUInt32 (in_index input) ;;
         writeVarSlice prevOutScript ;;
         writeUInt64 (Some value) ;;
         writeUInt32 (in_sequence input) ;;
         writeSlice hashOutputs ;;
         writeUInt32 (locktime tx) ;;
         writeUInt32 hashType
     end)%writer.

(** ** hashForCashSignature: [None] is a missing amount, which is not a number *)
Definition hashForCashSignature (tx : transaction) (inIndex : Z) (prevOutScript : buffer)
    (inAmount : option Z) (hashType : Z) : result buffer :=
  _ ← guard_js (tf_UInt32 inIndex && bool_decide (is_Some inAmount) && tf_UInt53 hashType) TypeforceError;
  if truthy (js_and hashType SIGHASH_BITCOINCASHBIP143) then
    match inAmount with
    | None => Throw (Error "Bitcoin Cash sighash requires value of input to be signed.")
    | Some inAmount => hashForWitnessV0 tx inIndex prevOutScript inAmount hashType
    end
  else hashForSignature tx inIndex prevOutScript hashType.

End Hash.
(** ** Views *)

Inductive outs_view : Type :=
| AllOuts (os : list txout)
| OneOut (o : option txout)
| NoOuts.

(** What a hash type commits to: version and lock time, the signed input, the
    inputs and their sequence numbers, and the outputs. *)
Record view := mkView {
  vw_version : Z;
  vw_locktime : Z;
  vw_input : option (buffer * Z * Z);
  vw_prevouts : option (list (buffer * Z));
  vw_sequences : option (list Z);
  vw_outs : outs_view;
}.

Definition outpoint (x : txin) : buffer * Z := (in_hash x, in_index x).

Definition view_of (tx : transaction) (inIndex hashType : Z) : view :=
  let acp := anyoneCanPay hashType in
  let single := baseType hashType =? SIGHASH_SINGLE in
  let none := baseType hashType =? SIGHASH_NONE in
  {| vw_version := version tx;
     vw_locktime := locktime tx;
     vw_input := (λ x, (outpoint x, in_sequence x)) <$> at_index (ins tx) inIndex;
     vw_prevouts := if acp then None else Some (map outpoint (ins tx));
     vw_sequences := if acp || single || none then None else Some (map in_sequence (ins tx));
     vw_outs := if single then OneOut (at_index (outs tx) inIndex)
                else if none then NoOuts else AllOuts (outs tx) |}.

(** ** Arrays *)

Lemma at_index_len {A} (xs : list A) i : 0 <= i → at_index xs i = None ↔ len xs <= i.
Proof.
  intros Hi. unfold at_index. rewrite (proj2 (Z.leb_le _ _)), lookup_ge_None by done. unfold len. lia.
Qed.

Lemma wforEach_map {A B} (f : B → writer) (g : A → B) xs b off :
  wforEach f (map g xs) b off = wforEach (λ x, f (g x)) xs b off.
Proof.
  revert b off. induction xs as [|x xs IH]; intros b off; [done|]. cbn. unfold wthen.
  destruct (f (g x) b off) as [[b' off']|]; [apply IH|done].
Qed.

Lemma wforEach_ext {A} (f g : A → writer) xs b off :
  (∀ x b off, f x b off = g x b off) → wforEach f xs b off = wforEach g xs b off.
Proof.
  intros E. revert b off. induction xs as [|x xs IH]; intros b off; [done|]. cbn. unfold wthen. rewrite E.
  destruct (g x b off) as [[b' off']|]; [apply IH|done].
Qed.

Lemma map_len_eq {A B} (f : A → B) xs ys : map f xs = map f ys → len xs = len ys.
Proof. intros E. rewrite <- (len_map f xs), E. apply len_map. Qed.

Lemma clone_ins tx : ins (clone tx) = ins tx.
Proof. cbn. rewrite <- map_id. apply map_ext. by intros []. Qed.

Section ViewLaws.
Context {Mem : UninitMem} `{TF : !Typeforce} `{TS : !TypeforceSpec} `{VU : !VarUint} `{CH : !CreateHash}.

(** *** BIP143 *)

Lemma hashPrevouts_view tx tx' ht :
  (if anyoneCanPay ht then None else Some (map outpoint (ins tx)))
  = (if anyoneCanPay ht then None else Some (map outpoint (ins tx'))) →
  hashPrevouts tx ht = hashPrevouts tx' ht.
Proof.
  unfold hashPrevouts. destruct (anyoneCanPay ht); [done|]. intros [= E]. cbn [negb].
  rewrite (map_len_eq _ _ _ E). unfold hash_written.
  set (f := λ p : buffer * Z, (writeSlice p.1 ;; writeUInt32 p.2)%writer).
  rewrite <- (wforEach_map f outpoint (ins tx)), E. by rewrite wforEach_map.
Qed.

Lemma hashSequence_view tx tx' ht :
  vw_sequences (view_of tx 0 ht) = vw_sequences (view_of tx' 0 ht) →
  hashSequence tx ht = hashSequence tx' ht.
Proof.
  unfold hashSequence. cbn [vw_sequences view_of].
  destruct (anyoneCanPay ht), (baseType ht =? SIGHASH_SINGLE), (baseType ht =? SIGHASH_NONE); try done.
  intros [= E]. cbn [negb andb]. rewrite (map_len_eq _ _ _ E). unfold hash_written.
  rewrite <- (wforEach_map writeUInt32 in_sequence (ins tx)), E. by rewrite wforEach_map.
Qed.

Lemma hashOutputs_view tx tx' i ht :
  vw_outs (view_of tx i ht) = vw_outs (view_of tx' i ht) → hashOutputs tx i ht = hashOutputs tx' i ht.
Proof.
  unfold hashOutputs. cbn [vw_outs view_of].
  destruct (baseType ht =? SIGHASH_SINGLE), (baseType ht =? SIGHASH_NONE); cbn [negb andb].
  - intros [= ->]. done.
  - intros [= ->]. done.
  - intros _. by destruct (at_index (outs tx) i), (at_index (outs tx') i).
  - intros [= ->]. done.
Qed.

Lemma hashForWitnessV0_view tx tx' i s v ht :
  view_of tx i ht = view_of tx' i ht →
  hashForWitnessV0 tx i s v ht = hashForWitnessV0 tx' i s v ht.
Proof.
  intros E. unfold hashForWitnessV0.
  rewrite (hashPrevouts_view tx tx' ht) by apply (f_equal vw_prevouts E).
  rewrite (hashSequence_view tx tx' ht) by apply (f_equal vw_sequences E).
  rewrite (hashOutputs_view tx tx' i ht) by apply (f_equal vw_outs E).
  pose proof (f_equal vw_version E) as Ev. pose proof (f_equal vw_locktime E) as El.
  pose proof (f_equal vw_input E) as Ei. cbn in Ev, El, Ei. rewrite Ev, El.
  destruct (at_index (ins tx) i) as [[]|], (at_index (ins tx') i) as [[]|]; try discriminate; [|done].
  cbn in Ei. injection Ei as -> -> ->. done.
Qed.

(** *** Legacy *)

(** Without witnesses the serialisation does not look at them. *)
Definition unwitness (x : txin) : txin := set_witness x EMPTY_WITNESS.
Definition bare (x : txin) : txin := set_script EMPTY_SCRIPT (unwitness x).

Lemma fold_left_map {A B C} (f : C → B → C) (g : A → B) xs c :
  fold_left f (map g xs) c = fold_left (λ c x, f c (g x)) xs c.
Proof. revert c. induction xs as [|x xs IH]; intros c; cbn; [done|apply IH]. Qed.

Lemma byteLength_unwitness v l xs os :
  __byteLength (mkTransaction v l (map unwitness xs) os) false = __byteLength (mkTransaction v l xs os) false.
Proof. unfold __byteLength. cbn. by rewrite fold_left_map, len_map. Qed.

Lemma writeTransaction_unwitness v l xs os b off :
  writeTransaction (mkTransaction v l (map unwitness xs) os) false b off
  = writeTransaction (mkTransaction v l xs os) false b off.
Proof.
  unfold writeTransaction. cbn [andb version locktime ins outs]. rewrite len_map. unfold wthen.
  destruct (writeInt32 v b off) as [[b1 o1]|]; [|done]. unfold wskip.
  destruct (writeVarInt (len xs) b1 o1) as [[b2 o2]|]; [|done]. by rewrite wforEach_map.
Qed.

(** The end of [hashForSignature]. *)
Definition hash_tmp (txTmp : transaction) (hashType : Z) : result buffer :=
  let b := allocUnsafe (__byteLength txTmp false + 4) in
  b ← writeInt32LE b hashType (blen b - 4);
  '(b, _) ← __toBuffer txTmp (Some b) (Some 0) false;
  Ok (Crypto.hash256 b).

Lemma hash_tmp_unwitness v l xs os ht :
  hash_tmp (mkTransaction v l (map unwitness xs) os) ht = hash_tmp (mkTransaction v l xs os) ht.
Proof.
  unfold hash_tmp. rewrite byteLength_unwitness.
  destruct (writeInt32LE _ ht _) as [b|]; [|done]. cbn [mbind result_bind].
  unfold __toBuffer. cbn [default from_option]. by rewrite writeTransaction_unwitness.
Qed.

Lemma alter_fmap_comm {A B} (f : A → A) (g : B → B) (h : A → B) xs n :
  (∀ x, h (f x) = g (h x)) → map h (alter f n xs) = alter g n (map h xs).
Proof.
  intros E. revert n. induction xs as [|x xs IH]; intros [|n]; cbn; [done|done|by rewrite E|].
  f_equal. apply IH.
Qed.

Lemma unwitness_script sc x : unwitness (set_script sc x) = set_script sc (bare x).
Proof. done. Qed.

Lemma bare_script x : unwitness (set_script EMPTY_SCRIPT x) = bare x.
Proof. done. Qed.

(** The hashed inputs, up to witnesses, are a function of the bare inputs. *)
Lemma hash_ins_bare i ht sc v l xs xs' os :
  (if anyoneCanPay ht then bare <$> at_index xs i = bare <$> at_index xs' i else map bare xs = map bare xs') →
  (ins' ← sighash_ins i ht sc xs; hash_tmp (mkTransaction v l ins' os) ht) =
  (ins' ← sighash_ins i ht sc xs'; hash_tmp (mkTransaction v l ins' os) ht).
Proof.
  unfold sighash_ins. destruct (anyoneCanPay ht).
  - destruct (at_index xs i) as [x|], (at_index xs' i) as [x'|]; try discriminate; [|done].
    intros E. apply (inj (R := eq) Some (bare x) (bare x')) in E. cbn [mbind result_bind].
    rewrite <- hash_tmp_unwitness, <- (hash_tmp_unwitness _ _ [set_script sc x']). cbn [map].
    rewrite !unwitness_script. by rewrite E.
  - intros E. unfold modify_at. rewrite !len_map, (map_len_eq _ _ _ E).
    destruct (_ && _); [|done]. cbn [mbind result_bind].
    rewrite <- hash_tmp_unwitness, <- (hash_tmp_unwitness _ _ (alter _ _ (map _ xs'))).
    rewrite !(alter_fmap_comm _ (λ x, set_script sc (bare x)) unwitness) by done. rewrite !map_map.
    rewrite (map_ext _ bare bare_script xs), (map_ext _ bare bare_script xs'). by rewrite E.
Qed.

Lemma bare_eq x y : outpoint x = outpoint y → in_sequence x = in_sequence y → bare x = bare y.
Proof. destruct x, y; cbn. by intros [= -> ->] ->. Qed.

Lemma map_bare_eq xs ys :
  map outpoint xs = map outpoint ys → map in_sequence xs = map in_sequence ys → map bare xs = map bare ys.
Proof.
  revert ys. induction xs as [|x xs IH]; intros [|y ys] E1 E2; try discriminate; [done|]. cbn [map] in *.
  injection E1 as Eh Ei E1. injection E2 as Es E2. f_equal; [|by apply IH].
  apply bare_eq; [|done]. unfold outpoint. congruence.
Qed.

Lemma at_index_ignore i xs : at_index (ignore_sequences i xs) i = at_index xs i.
Proof.
  unfold at_index, ignore_sequences. destruct (Z.leb_spec 0 i) as [Hi|Hi]; [|done].
  rewrite list_lookup_imap. destruct (xs !! Z.to_nat i) as [x|]; [|done]. cbn.
  by rewrite Z2Nat.id, Z.eqb_refl.
Qed.

Lemma map_bare_ignore i xs ys : 0 <= i →
  map outpoint xs = map outpoint ys →
  (λ x, (outpoint x, in_sequence x)) <$> at_index xs i = (λ x, (outpoint x, in_sequence x)) <$> at_index ys i →
  map bare (ignore_sequences i xs) = map bare (ignore_sequences i ys).
Proof.
  intros Hi Eo Ei. apply list_eq. intros j. unfold ignore_sequences.
  assert (Ej : outpoint <$> xs !! j = outpoint <$> ys !! j).
  { transitivity (map outpoint xs !! j); [symmetry; apply lookup_map|]. rewrite Eo. apply lookup_map. }
  rewrite !lookup_map.
  rewrite !list_lookup_imap. unfold at_index in Ei. rewrite (proj2 (Z.leb_le _ _)) in Ei by done.
  destruct (Z.eqb_spec (Z.of_nat j) i) as [E|E].
  - assert (j = Z.to_nat i) as -> by lia. 
    destruct (xs !! Z.to_nat i) as [x|], (ys !! Z.to_nat i) as [y|]; try discriminate; [|done].
    cbn in *. f_equal. apply bare_eq; congruence.
  - destruct (xs !! j) as [x|], (ys !! j) as [y|]; try discriminate; [|done].
    cbn in *. f_equal. injection Ej as Eh En. unfold bare, unwitness, set_script, set_witness, set_sequence. cbn. congruence.
Qed.

Lemma single_outs_one i os o : at_index os i = Some o →
  single_outs i os = replicate (Z.to_nat i) BLANK_OUTPUT ++ [o].
Proof.
  unfold at_index. destruct (Z.leb_spec 0 i) as [Hi|]; [|done]. intros Ho.
  unfold single_outs. rewrite Z2Nat.inj_add, Nat.add_1_r by lia.
  rewrite (take_S_r _ _ _ Ho), imap_app. f_equal.
  - apply list_eq. intros j. rewrite list_lookup_imap. apply lookup_lt_Some in Ho.
    destruct (decide (j < Z.to_nat i)%nat) as [L|L].
    + rewrite lookup_take_lt, lookup_replicate_2 by done.
      destruct (lookup_lt_is_Some_2 os j ltac:(lia)) as [o' ->]. cbn.
      by rewrite (proj2 (Z.ltb_lt _ _)) by lia.
    + rewrite lookup_take_ge, lookup_ge_None_2 by (rewrite ?length_replicate; lia). done.
  - cbn. rewrite length_take_le by (apply lookup_lt_Some in Ho; lia).
    by rewrite (proj2 (Z.ltb_ge _ _)) by lia.
Qed.

Lemma sighash_outs_view tx tx' i ht : 0 <= i → view_of tx i ht = view_of tx' i ht →
  match sighash_outs tx i ht (clone tx), sighash_outs tx' i ht (clone tx') with
  | None, None => True
  | Some t, Some t' =>
      version t = version t' ∧ locktime t = locktime t' ∧ outs t = outs t' ∧
      (if anyoneCanPay ht then bare <$> at_index (ins t) i = bare <$> at_index (ins t') i
       else map bare (ins t) = map bare (ins t'))
  | _, _ => False
  end.
Proof.
  intros Hi E. pose proof (f_equal vw_version E) as Ev. pose proof (f_equal vw_locktime E) as El.
  pose proof (f_equal vw_input E) as Ei. pose proof (f_equal vw_prevouts E) as Ep.
  pose proof (f_equal vw_sequences E) as Es. pose proof (f_equal vw_outs E) as Eo. clear E.
  cbn [vw_version vw_locktime vw_input vw_prevouts vw_sequences vw_outs view_of] in *.
  assert (Eb : ∀ f, (f = id ∨ f = ignore_sequences i) →
    bare <$> at_index (f (ins tx)) i = bare <$> at_index (f (ins tx')) i).
  { intros f [->| ->]; rewrite ?at_index_ignore; cbn [id];
      destruct (at_index (ins tx) i) as [x|], (at_index (ins tx') i) as [x'|]; try discriminate; try done;
      cbn in *; f_equal; apply bare_eq; congruence. }
  unfold sighash_outs. rewrite !clone_ins. cbn [version locktime outs clone ins].
  destruct (baseType ht =? SIGHASH_NONE) eqn:Bn.
  { split_and!; [done|done|done|]. destruct (anyoneCanPay ht); [apply Eb; auto|].
    injection Ep as Ep. by apply map_bare_ignore. }
  destruct (baseType ht =? SIGHASH_SINGLE) eqn:Bs.
  - injection Eo as Eo. rewrite !Z.geb_leb.
    destruct (at_index (outs tx) i) as [o|] eqn:Eo1.
    + assert (L : ∀ os : list txout, at_index os i = Some o → (len os <=? i) = false).
      { intros os Ho. apply Z.leb_gt, Z.lt_nge. intros N. apply at_index_len in N; [congruence|done]. }
      rewrite !L by done. cbn [version locktime outs ins]. split_and!; [done|done| |].
      * assert (C : ∀ os, at_index os i = Some o → at_index (map clone_out os) i = Some (clone_out o)).
        { intros os. unfold at_index. destruct (0 <=? i); [|done]. intros Ho. by rewrite lookup_map, Ho. }
        by rewrite !(single_outs_one _ _ (clone_out o)) by by apply C.
      * destruct (anyoneCanPay ht); [apply Eb; auto|]. injection Ep as Ep. by apply map_bare_ignore.
    + symmetry in Eo. apply at_index_len in Eo1, Eo; [|done|done].
      by rewrite !(proj2 (Z.leb_le _ _)) by done.
  - injection Eo as Eo. cbn [version locktime outs ins]. rewrite !clone_ins. split_and!; [done|done|cbn; by rewrite Eo|].
    destruct (anyoneCanPay ht); [apply (Eb id); auto|]. injection Ep as Ep. injection Es as Es.
    by apply map_bare_eq.
Qed.

Lemma hashForSignature_view tx tx' i s ht :
  view_of tx i ht = view_of tx' i ht → hashForSignature tx i s ht = hashForSignature tx' i s ht.
Proof.
  intros E. unfold hashForSignature. destruct (tf_UInt32 i) eqn:Hi; [|done]. apply tf_UInt32_spec in Hi.
  cbn [guard_js mbind result_bind]. rewrite !Z.geb_leb.
  assert (El : (len (ins tx) <=? i) = (len (ins tx') <=? i)).
  { apply eq_true_iff_eq. rewrite !Z.leb_le, <- !at_index_len by lia.
    pose proof (f_equal vw_input E) as Ei. cbn in Ei.
    by destruct (at_index (ins tx) i), (at_index (ins tx') i). }
  rewrite El. destruct (len (ins tx') <=? i); [done|].
  destruct (ourScript s) as [sc|]; [|done]. cbn [mbind result_bind].
  pose proof (sighash_outs_view tx tx' i ht ltac:(lia) E) as V.
  destruct (sighash_outs tx i ht (clone tx)) as [t|], (sighash_outs tx' i ht (clone tx')) as [t'|]; try done.
  destruct V as (-> & -> & -> & Hb). apply (hash_ins_bare i ht sc _ _ _ _ _ Hb).
Qed.

Lemma hashForCashSignature_view tx tx' i s a ht :
  view_of tx i ht = view_of tx' i ht →
  hashForCashSignature tx i s a ht = hashForCashSignature tx' i s a ht.
Proof.
  intros E. unfold hashForCashSignature. rewrite (hashForSignature_view tx tx' i s ht E).
  destruct (guard_js _ _); [|done]. cbn [mbind result_bind].
  destruct (truthy _); [|done]. destruct a; [|done]. by apply hashForWitnessV0_view.
Qed.

End ViewLaws.

(** ** The hashed bytes *)

Section Exact.
Context {Mem : UninitMem} `{TF : !Typeforce} `{TS : !TypeforceSpec} `{VU : !VarUint} `{VS : !VarUintSpec}
  `{CH : !CreateHash} `{CS : !CreateHashSpec}.

Definition prevouts_hash (tx : transaction) (ht : Z) : buffer :=
  if anyoneCanPay ht then ZERO
  else Crypto.hash256 (concat (map (λ x, in_hash x ++ le_bytes 4 (in_index x)) (ins tx))).

Definition sequence_hash (tx : transaction) (ht : Z) : buffer :=
  if anyoneCanPay ht || (baseType ht =? SIGHASH_SINGLE) || (baseType ht =? SIGHASH_NONE) then ZERO
  else Crypto.hash256 (concat (map (λ x, le_bytes 4 (in_sequence x)) (ins tx))).

Definition outputs_hash (tx : transaction) (i ht : Z) : buffer :=
  if baseType ht =? SIGHASH_SINGLE then
    match at_index (outs tx) i with
    | Some o => Crypto.hash256 (out_bytes o)
    | None => ZERO
    end
  else if baseType ht =? SIGHASH_NONE then ZERO
  else Crypto.hash256 (concat (map out_bytes (outs tx))).

(** The preimage of BIP143. *)
Definition v0_preimage (tx : transaction) (i : Z) (input : txin) (prevOutScript : buffer) (value ht : Z) : buffer :=
  le_bytes 4 (version tx) ++ prevouts_hash tx ht ++ sequence_hash tx ht ++
  in_hash input ++ le_bytes 4 (in_index input) ++ varslice_bytes prevOutScript ++ le_bytes 8 value ++
  le_bytes 4 (in_sequence input) ++ outputs_hash tx i ht ++ le_bytes 4 (locktime tx) ++ le_bytes 4 ht.

Lemma hash_written_spec n w bs : writes w bs → blen bs = n → hash_written n w = Ok (Crypto.hash256 bs).
Proof.
  intros Hw <-. unfold hash_written.
  rewrite (writes_fill w bs) by (done || rewrite blen_allocUnsafe; auto with js). done.
Qed.

Lemma blen_concat_const {A} (g : A → buffer) k xs :
  Forall (λ x, blen (g x) = k) xs → blen (concat (map g xs)) = k * len xs.
Proof.
  induction 1 as [|x xs Hx _ IH]; [change (blen (concat (map g []))) with 0; change (len []) with 0; lia|].
  cbn [map concat]. rewrite blen_app, Hx, IH, len_cons. lia.
Qed.

Lemma hashPrevouts_spec tx ht : tx_wf tx → hashPrevouts tx ht = Ok (prevouts_hash tx ht).
Proof.
  intros []. unfold hashPrevouts, prevouts_hash. destruct (anyoneCanPay ht); [done|]. cbn [negb].
  apply hash_written_spec.
  - apply writes_forEach. eapply Forall_impl; [exact wf_ins0|]. intros x []. 
    apply writes_then; [apply writes_slice|by apply writes_uint32].
  - apply blen_concat_const. eapply Forall_impl; [exact wf_ins0|]. intros x []. rewrite blen_app, blen_le_bytes. lia.
Qed.

Lemma hashSequence_spec tx ht : tx_wf tx → hashSequence tx ht = Ok (sequence_hash tx ht).
Proof.
  intros []. unfold hashSequence, sequence_hash.
  destruct (anyoneCanPay ht), (baseType ht =? SIGHASH_SINGLE), (baseType ht =? SIGHASH_NONE); try done.
  cbn [negb andb orb]. apply hash_written_spec.
  - apply writes_forEach. eapply Forall_impl; [exact wf_ins0|]. intros x []. by apply writes_uint32.
  - apply blen_concat_const. eapply Forall_impl; [exact wf_ins0|]. intros x []. apply blen_le_bytes.
Qed.

Lemma writes_out o : valued o → short (out_script o) → writes (writeOut o) (out_bytes o).
Proof.
  intros [Eb (v & Ev & Hv)] Hs. unfold writeOut, out_bytes, amount_bytes. rewrite Eb, Ev.
  apply writes_then; [by apply BufferUtils.writes_uint64|by apply writes_varslice].
Qed.

Lemma hashOutputs_spec tx i ht : tx_wf tx → Forall valued (outs tx) →
  hashOutputs tx i ht = Ok (outputs_hash tx i ht).
Proof.
  intros [] Hv. assert (Hw : Forall (λ o, valued o ∧ out_wf o) (outs tx)) by (apply Forall_and; done).
  unfold hashOutputs, outputs_hash.
  destruct (baseType ht =? SIGHASH_SINGLE); cbn [negb andb].
  - destruct (at_index (outs tx) i) as [o|] eqn:Eo; [|done].
    assert (Ho : valued o ∧ out_wf o).
    { unfold at_index in Eo. destruct (0 <=? i); [|done]. exact (Forall_lookup_1 _ _ _ _ Hw Eo). }
    apply hash_written_spec; [apply writes_out; apply Ho|apply blen_out, Ho].
  - destruct (baseType ht =? SIGHASH_NONE); cbn [negb]; [by destruct (at_index (outs tx) i)|].
    apply hash_written_spec.
    + apply writes_forEach. eapply Forall_impl; [exact Hw|]. intros o [? [_ ?]]. by apply writes_out.
    + rewrite fold_sum2, (blen_concat out_bytes (λ o, 8 + varSliceSize (out_script o))); [done|].
      eapply Forall_impl; [exact Hw|]. intros o [_ ?]. by apply blen_out.
Qed.

Lemma blen_hash b : blen (Crypto.hash256 b) = 32.
Proof. apply Crypto.hash256_ok. Qed.

Lemma blen_prevouts_hash tx ht : blen (prevouts_hash tx ht) = 32.
Proof. unfold prevouts_hash. destruct (anyoneCanPay ht); [done|apply blen_hash]. Qed.
Lemma blen_sequence_hash tx ht : blen (sequence_hash tx ht) = 32.
Proof. unfold sequence_hash. destruct (_ || _); [done|apply blen_hash]. Qed.
Lemma blen_outputs_hash tx i ht : blen (outputs_hash tx i ht) = 32.
Proof.
  unfold outputs_hash. destruct (_ =? SIGHASH_SINGLE); [destruct (at_index _ _); [apply blen_hash|done]|].
  destruct (_ =? SIGHASH_NONE); [done|apply blen_hash].
Qed.

Lemma hashForWitnessV0_spec tx i input s v ht :
  tx_wf tx → Forall valued (outs tx) → 0 <= version tx →
  uint32 i → at_index (ins tx) i = Some input → short s → 0 <= v <= SATOSHI_MAX → uint32 ht →
  hashForWitnessV0 tx i s v ht = Ok (Crypto.hash256 (v0_preimage tx i input s v ht)).
Proof.
  intros Hw Hv Hver Hi Ei Hs Hval Hht. unfold hashForWitnessV0, uint32 in *.
  rewrite (proj2 (tf_UInt32_spec i)), (proj2 (tf_UInt32_spec ht)), (proj2 (Satoshi_spec v)) by lia.
  cbn [andb guard_js mbind result_bind].
  rewrite hashPrevouts_spec, hashSequence_spec, hashOutputs_spec by done. cbn [mbind result_bind].
  rewrite Ei. assert (Hin : in_wf input).
  { unfold at_index in Ei. destruct (0 <=? i); [|done]. eapply Forall_lookup_1; [apply Hw|exact Ei]. }
  destruct Hw, Hin. apply hash_written_spec.
  - apply writes_then; [apply writes_uint32; unfold uint32; lia|].
    apply writes_then; [apply writes_slice|]. apply writes_then; [apply writes_slice|].
    apply writes_then; [apply writes_slice|]. apply writes_then; [by apply writes_uint32|].
    apply writes_then; [by apply writes_varslice|].
    apply writes_then; [apply BufferUtils.writes_uint64; unfold SATOSHI_MAX, MAX_SAFE_INTEGER in *; lia|].
    apply writes_then; [by apply writes_uint32|]. apply writes_then; [apply writes_slice|].
    apply writes_then; by apply writes_uint32.
  - unfold v0_preimage. rewrite !blen_app, !blen_le_bytes, blen_prevouts_hash, blen_sequence_hash,
      blen_outputs_hash, blen_varslice, in_wf_hash0 by done. lia.
Qed.

(** *** Legacy *)

Lemma hash_tmp_spec t ht : tx_wf t → - 2 ^ 31 <= ht < 2 ^ 31 →
  hash_tmp t ht = Ok (Crypto.hash256 (tx_bytes t false ++ le_bytes 4 ht)).
Proof.
  intros Hw Hht. unfold hash_tmp. pose proof (blen_tx_bytes t false Hw) as El. rewrite <- El.
  set (bs := tx_bytes t false) in *. pose proof (blen_nonneg bs) as Hb.
  pose proof (blen_allocUnsafe (blen bs + 4) ltac:(lia)) as La. rewrite La.
  destruct (split_at (allocUnsafe (blen bs + 4)) (blen bs)) as (pre & rest & E & Hp & Hr); [lia|].
  rewrite La in Hr. rewrite E. replace (blen bs + 4 - 4) with (blen pre) by lia. rewrite writeInt32LE_app by lia. cbn [mbind result_bind].
  assert (Hr4 : length rest = 4%nat) by (unfold blen in Hr; lia). rewrite drop_ge, app_nil_r by lia.
  pose proof (toBuffer_into t false [] (pre ++ le_bytes 4 ht) Hw) as T. cbn [app] in T.
  rewrite blen_nil in T. rewrite T by (rewrite blen_app, blen_le_bytes; fold bs; lia).
  cbn [mbind result_bind]. fold bs.
  replace (length bs) with (length pre) by (unfold blen in Hp; lia). by rewrite drop_app_length.
Qed.

Lemma clone_valued tx : Forall valued (outs tx) → clone tx = tx.
Proof.
  intros Hv. destruct tx as [v l xs os]; cbn in *. pose proof (clone_ins (mkTransaction v l xs os)) as E. cbn in E.
  unfold clone. cbn. rewrite E. f_equal. induction Hv as [|[ov ob sc] os' [Eb _] _ IH]; [done|].
  cbn in *. subst. by rewrite IH.
Qed.

Lemma script_wf sc x : short sc → in_wf x → in_wf (set_script sc x).
Proof. intros Hs []. by split. Qed.

Lemma alter_Forall {A} (P : A → Prop) f xs n :
  (∀ x, P x → P (f x)) → Forall P xs → Forall P (alter f n xs).
Proof.
  intros Hf H. revert n. induction H as [|x xs Hx Hxs IH]; intros [|n]; cbn; constructor; auto.
Qed.

(** The transaction a SIGHASH_ALL signature hashes. *)
Definition scripts_blanked (tx : transaction) (i : Z) (sc : buffer) : transaction :=
  mkTransaction (version tx) (locktime tx)
    (alter (set_script sc) (Z.to_nat i) (map (set_script EMPTY_SCRIPT) (ins tx))) (outs tx).

Lemma scripts_blanked_wf tx i sc : tx_wf tx → short sc → tx_wf (scripts_blanked tx i sc).
Proof.
  intros [] Hs. split; cbn; try done.
  - unfold len in *. by rewrite length_alter, length_map.
  - apply alter_Forall; [by intros; apply script_wf|]. apply Forall_map.
    eapply Forall_impl; [exact wf_ins0|]. intros x Hx. by apply script_wf.
Qed.

End Exact.

Section Properties.
Context {Mem : UninitMem} `{TF : !Typeforce} `{TS : !TypeforceSpec} `{VU : !VarUint} `{VS : !VarUintSpec}
  `{CH : !CreateHash} `{CS : !CreateHashSpec}.

(** ** Properties *)

(** A signature hash depends on the view of its hash type only.  Whatever else differs
    between two transactions - input scripts and witnesses always; other inputs
    under ANYONECANPAY; outputs and other sequence numbers under NONE and SINGLE -
    the hash, or the error, is the same. *)
Theorem sighash_depends_on_view tx tx' i s a ht :
  view_of tx i ht = view_of tx' i ht →
  hashForCashSignature tx i s a ht = hashForCashSignature tx' i s a ht.
Proof. apply hashForCashSignature_view. Qed.

(** C29: with the BIP143 bit set, the signature hash is the double hash of the preimage of
    BIP143: every field is where the standard puts it and the buffer is filled
    exactly. *)
Theorem cash_sighash_preimage tx i input s v ht :
  tx_wf tx → Forall valued (outs tx) → 0 <= version tx →
  uint32 i → at_index (ins tx) i = Some input → short s → 0 <= v <= SATOSHI_MAX → uint32 ht →
  truthy (js_and ht SIGHASH_BITCOINCASHBIP143) = true →
  hashForCashSignature tx i s (Some v) ht = Ok (Crypto.hash256 (v0_preimage tx i input s v ht)).
Proof.
  intros Hw Hv Hver Hi Ei Hs Hval Hht Hb. unfold hashForCashSignature.
  rewrite (proj2 (tf_UInt32_spec i)), (proj2 (tf_UInt53_spec ht))
    by (unfold uint32, MAX_SAFE_INTEGER in *; lia).
  rewrite Hb. by apply hashForWitnessV0_spec.
Qed.

(** The legacy hash of a signature over everything is the double hash of the transaction
    with the scripts of the other inputs blanked, followed by the hash type; an
    input that does not exist hashes to the constant ONE. *)
Theorem legacy_sighash_preimage tx i s sc ht :
  tx_wf tx → Forall valued (outs tx) → uint32 i → ourScript s = Ok sc → short sc →
  - 2 ^ 31 <= ht < 2 ^ 31 → anyoneCanPay ht = false →
  baseType ht ≠ SIGHASH_NONE → baseType ht ≠ SIGHASH_SINGLE →
  hashForSignature tx i s ht =
    Ok (if i <? len (ins tx)
        then Crypto.hash256 (tx_bytes (scripts_blanked tx i sc) false ++ le_bytes 4 ht) else ONE).
Proof.
  intros Hw Hv Hi Es Hs Hht Ha Hn Hsg. unfold hashForSignature, uint32 in *.
  rewrite (proj2 (tf_UInt32_spec i)) by lia. cbn [guard_js mbind result_bind]. rewrite Z.geb_leb.
  destruct (Z.ltb_spec i (len (ins tx))) as [L|L].
  2:{ by rewrite (proj2 (Z.leb_le _ _)) by lia. }
  rewrite (proj2 (Z.leb_gt _ _)), Es by lia. cbn [mbind result_bind].
  unfold sighash_outs. rewrite !(proj2 (Z.eqb_neq _ _)) by done. rewrite clone_valued by done.
  unfold sighash_ins, modify_at. rewrite Ha, len_map.
  rewrite (proj2 (Z.leb_le _ _)), (proj2 (Z.ltb_lt _ _)) by lia. cbn [andb mbind result_bind].
  apply (hash_tmp_spec (scripts_blanked tx i sc) ht); [by apply scripts_blanked_wf|done].
Qed.

End Properties.

Section Examples.
Import Concrete.

Lemma sighash_depends_on_view_witness :
  hashForCashSignature (Mem := zero_mem) a_tx 0 [0x51] (Some 700) 0x41
  = hashForCashSignature (Mem := zero_mem)
      (mkTransaction 2 0 [mkTxin (replicate 32 7) 1 [] 0xffffffff []] (outs a_tx)) 0 [0x51] (Some 700) 0x41.
Proof. apply (sighash_depends_on_view (Mem := zero_mem)). reflexivity. Defined.

Lemma cash_sighash_preimage_witness :
  hashForCashSignature (Mem := zero_mem) a_tx 0 [0x51] (Some 700) 0x41
  = Ok (Crypto.hash256 (v0_preimage a_tx 0 (mkTxin (replicate 32 7) 1 [0x51] 0xffffffff [[1; 2]]) [0x51] 700 0x41)).
Proof.
  apply (cash_sighash_preimage (Mem := zero_mem)); [apply a_tx_wf|apply a_tx_valued|concrete..].
Defined.

Lemma legacy_sighash_preimage_witness :
  hashForSignature (Mem := zero_mem) a_tx 0 [0x51; 0xab] 1
  = Ok (if 0 <? len (ins a_tx)
        then Crypto.hash256 (tx_bytes (scripts_blanked a_tx 0 [0x51]) false ++ le_bytes 4 1) else ONE).
Proof.
  apply (legacy_sighash_preimage (Mem := zero_mem)); [apply a_tx_wf|apply a_tx_valued|concrete..].
Defined.

End Examples.
End Sighash.
