(* ===== verification/Block.v ===== *)
(** * Blocks

    [ecashjs-lib/src/block.js]: block headers and blocks, their bytes, the
    target that the compact field [bits] stands for, and proof of work.  The
    Merkle tree of [merkle-lib] is a parameter. *)

From stdpp Require Import base tactics list gmap numbers strings.
From S2P Require Import Prelude JsNumber NodeBuffer Externals BufferUtils Crypto Asm Transaction TransactionLaws.
Import TransactionLaws.
Open Scope Z_scope.

(** merkle-lib/fastRoot *)
Class MerkleLib := { fastMerkleRoot : list buffer → (buffer → buffer) → buffer }.

(** [a.compare(b)] *)
Fixpoint buf_compare (a b : buffer) : Z :=
  match a, b with
  | [], [] => 0
  | [], _ => -1
  | _, [] => 1
  | x :: a, y :: b => if x <? y then -1 else if y <? x then 1 else buf_compare a b
  end.

Record block := mkBlock {
  blk_version : Z;
  blk_prevHash : option buffer;
  blk_merkleRoot : option buffer;
  blk_timestamp : Z;
  blk_bits : Z;
  blk_nonce : Z;
  blk_transactions : option (list transaction);
}.

Module Block.

Definition new : block := mkBlock 1 None None 0 0 0 None.

Section S.
Context {Mem : UninitMem} `{TF : !Typeforce} `{VU : !VarUint} `{CH : !CreateHash} `{ML : !MerkleLib}.

Definition readTransaction : reader transaction := λ b offset,
  tx ← Transaction.fromBuffer (slice_from b offset) true;
  Ok (tx, offset + Transaction.byteLength tx).

Definition readHeader : reader block :=
  version ← rInt32;
  prevHash ← rSlice 32;
  merkleRoot ← rSlice 32;
  timestamp ← rUIntLE 4;
  bits ← rUIntLE 4;
  nonce ← rUIntLE 4;
  mret (mkBlock version (Some prevHash) (Some merkleRoot) timestamp bits nonce None).

Definition set_transactions (blk : block) (txs : list transaction) : block :=
  mkBlock (blk_version blk) (blk_prevHash blk) (blk_merkleRoot blk) (blk_timestamp blk) (blk_bits blk)
    (blk_nonce blk) (Some txs).

Definition readVarInt : reader Z := λ b offset,
  '(vi, n) ← vu_decode b offset; Ok (vi, offset + n).

Definition fromBuffer (b : buffer) : result block :=
  if blen b <? 80 then Throw (Error "Buffer too small (< 80 bytes)") else
  '(blk, offset) ← readHeader b 0;
  if blen b =? 80 then Ok blk
  else
    '(txs, _) ← (nTransactions ← readVarInt; rtimes readTransaction (Z.to_nat nTransactions)) b offset;
    Ok (set_transactions blk txs).

Definition byteLength (blk : block) (headersOnly : bool) : Z :=
  match blk_transactions blk with
  | Some txs =>
      if headersOnly then 80
      else 80 + vu_encodingLength (len txs) + fold_left (λ a x, a + Transaction.byteLength x) txs 0
  | None => 80
  end.

(** The offset moves by the length of the slice, copied or not; [null] has no
    [copy]. *)
Definition writeSlice (s : option buffer) : writer := λ b offset,
  match s with
  | Some s => '(b, _) ← copy s b offset; Ok (b, offset + blen s)
  | None => Throw (TypeError "Cannot read properties of null")
  end.

Definition writeTx (tx : transaction) : writer := λ b offset,
  let txSize := Transaction.byteLength tx in
  '(b, _) ← Transaction.toBuffer tx (Some b) (Some offset);
  Ok (b, offset + txSize).

Definition writeVarInt (n : Z) : writer := λ b offset,
  '(b, k) ← vu_encode n b offset; Ok (b, offset + k).

Definition writeHeader (blk : block) : writer :=
  (wInt32 (blk_version blk) ;; writeSlice (blk_prevHash blk) ;; writeSlice (blk_merkleRoot blk) ;;
   wUIntLE 4 (blk_timestamp blk) ;; wUIntLE 4 (blk_bits blk) ;; wUIntLE 4 (blk_nonce blk))%writer.

Definition toBuffer (blk : block) (headersOnly : bool) : result buffer :=
  let b := allocUnsafe (byteLength blk headersOnly) in
  '(b, offset) ← writeHeader blk b 0;
  match blk_transactions blk with
  | Some txs =>
      if headersOnly then Ok b
      else '(b, _) ← (writeVarInt (len txs) ;; wforEach writeTx txs)%writer b offset; Ok b
  | None => Ok b
  end.

Definition fromHex (hex : string) : result block := fromBuffer (Hex.fromHex hex).

Definition toHex (blk : block) (headersOnly : bool) : result string := b ← toBuffer blk headersOnly; Ok (Hex.toHex b).

(** The milliseconds of the date. *)
Definition getUTCDate (blk : block) : Z := 1000 * blk_timestamp blk.

Definition getHash (blk : block) : result buffer :=
  b ← toBuffer blk true; Ok (Crypto.hash256 b).

(** The bytes whose hexadecimal form is the id. *)
Definition getId (blk : block) : result buffer := h ← getHash blk; Ok (reverse h).

Definition calculateTarget (bits : Z) : result buffer :=
  let exponent := js_shr (js_and bits 0xff000000) 24 - 3 in
  let mantissa := js_and bits 0x007fffff in
  let target := alloc 32 0 in
  writeUInt32BE target mantissa (28 - exponent).

Definition calculateMerkleRoot (transactions : list transaction) : result buffer :=
  match transactions with
  | [] => Throw (TypeError "Cannot compute merkle root for zero transactions")
  | _ => hashes ← mapM Transaction.getHash transactions; Ok (fastMerkleRoot hashes Crypto.hash256)
  end.

Definition checkMerkleRoot (blk : block) : result bool :=
  match blk_transactions blk with
  | None => Ok false
  | Some txs =>
      actualMerkleRoot ← calculateMerkleRoot txs;
      match blk_merkleRoot blk with
      | Some r => Ok (buf_compare r actualMerkleRoot =? 0)
      | None => Throw (TypeError "Cannot read properties of null")
      end
  end.

Definition checkProofOfWork (blk : block) : result bool :=
  h ← getHash blk;
  let hash := reverse h in
  target ← calculateTarget (blk_bits blk);
  Ok (buf_compare hash target <=? 0).

(** ** Laws *)
Context `{TS : !TypeforceSpec} `{VS : !VarUintSpec} `{CS : !CreateHashSpec}.

Record header_ok (blk : block) : Prop := {
  ho_version : - 2 ^ 31 <= blk_version blk < 2 ^ 31;
  ho_prev : ∃ h, blk_prevHash blk = Some h ∧ blen h = 32;
  ho_root : ∃ h, blk_merkleRoot blk = Some h ∧ blen h = 32;
  ho_time : uint32 (blk_timestamp blk);
  ho_bits : uint32 (blk_bits blk);
  ho_nonce : uint32 (blk_nonce blk);
}.

Definition header_bytes (blk : block) : buffer :=
  le_bytes 4 (blk_version blk) ++ default [] (blk_prevHash blk) ++ default [] (blk_merkleRoot blk) ++
  le_bytes 4 (blk_timestamp blk) ++ le_bytes 4 (blk_bits blk) ++ le_bytes 4 (blk_nonce blk).

Definition block_bytes (blk : block) : buffer :=
  header_bytes blk ++
  match blk_transactions blk with
  | Some txs => vu_bytes (len txs) ++ concat (map (λ tx, tx_bytes tx true) txs)
  | None => []
  end.

(** A transaction that a block can carry: one with inputs and amounts. *)
Definition tx_ok (tx : transaction) : Prop := tx_wf tx ∧ Forall valued (outs tx) ∧ ins tx ≠ [].

Definition block_ok (blk : block) : Prop :=
  header_ok blk ∧ match blk_transactions blk with
                  | Some txs => Forall tx_ok txs ∧ len txs <= MAX_SAFE_INTEGER
                  | None => True
                  end.

Lemma writes_hash h : writes (writeSlice (Some h)) h.
Proof.
  intros pre rest Hl. unfold writeSlice. rewrite copy_app by done. cbn [mbind result_bind]. by rewrite blen_app.
Qed.

Lemma writes_header blk : header_ok blk → writes (writeHeader blk) (header_bytes blk).
Proof.
  intros [Hv (p & Ep & Lp) (r & Er & Lr) Ht Hb Hn]. unfold writeHeader, header_bytes. rewrite Ep, Er. cbn [default from_option id].
  repeat apply writes_then; auto using writes_hash with js; by apply writes_uint.
Qed.

Lemma writes_tx tx : tx_wf tx → writes (writeTx tx) (tx_bytes tx true).
Proof.
  intros Hw pre rest Hl. unfold writeTx, Transaction.toBuffer. rewrite toBuffer_into by done.
  cbn [mbind result_bind]. by rewrite blen_app, blen_tx_bytes by done.
Qed.

Lemma blen_header blk : header_ok blk → blen (header_bytes blk) = 80.
Proof.
  intros [_ (p & Ep & Lp) (r & Er & Lr) _ _ _]. unfold header_bytes. rewrite Ep, Er. cbn [default from_option id].
  rewrite !blen_app, !blen_le_bytes, Lp, Lr. done.
Qed.

Lemma blen_txs txs : Forall tx_ok txs →
  blen (concat (map (λ tx, tx_bytes tx true) txs)) = fold_left (λ a x, a + Transaction.byteLength x) txs 0.
Proof.
  intros H. rewrite (fold_sum Transaction.byteLength), Z.add_0_l. apply blen_concat.
  eapply Forall_impl; [exact H|]. intros tx (Hw & _). by apply blen_tx_bytes.
Qed.

Lemma blen_block blk : block_ok blk → blen (block_bytes blk) = byteLength blk false.
Proof.
  intros [Hh Ht]. unfold block_bytes, byteLength. rewrite blen_app, (blen_header _ Hh).
  destruct (blk_transactions blk) as [txs|]; [|done]. destruct Ht as [Ht Hl].
  rewrite blen_app, vu_bytes_len by (pose proof (len_nonneg txs); lia). rewrite blen_txs by done. lia.
Qed.

Lemma toBuffer_bytes blk : block_ok blk →
  toBuffer blk false = Ok (block_bytes blk) ∧ toBuffer blk true = Ok (header_bytes blk).
Proof.
  intros Hok. pose proof (blen_block _ Hok) as Lb. destruct Hok as [Hh Ht]. pose proof (blen_header _ Hh) as L8.
  assert (H80 : toBuffer blk true = Ok (header_bytes blk)).
  { unfold toBuffer. replace (byteLength blk true) with 80 by (unfold byteLength; by destruct (blk_transactions blk)).
    rewrite (writes_fill _ (header_bytes blk)); [by destruct (blk_transactions blk)|by apply writes_header|].
    by rewrite blen_allocUnsafe. }
  split; [|done]. unfold toBuffer. rewrite <- Lb. clear Lb H80. unfold block_bytes.
  destruct (blk_transactions blk) as [txs|]; cbn match.
  - destruct Ht as [Ht Hl]. set (body := vu_bytes _ ++ _).
    rewrite <- (app_nil_l (allocUnsafe _)). change 0 with (blen []) at 1.
    rewrite (writes_header _ Hh) by (rewrite blen_allocUnsafe, blen_app; pose proof (blen_nonneg body);
      pose proof (blen_nonneg (header_bytes blk)); rewrite ?blen_app; lia).
    cbn [mbind result_bind app].
    assert (W : writes (writeVarInt (len txs) ;; wforEach writeTx txs)%writer body).
    { apply writes_then; [apply vu_encode_spec; pose proof (len_nonneg txs); lia|].
      apply writes_forEach. eapply Forall_impl; [exact Ht|]. intros tx (Hw & _). by apply writes_tx. }
    rewrite (writes_fill_at _ body _ _ W); [done|].
    unfold blen. rewrite length_drop. pose proof (blen_allocUnsafe (blen (header_bytes blk ++ body)) (blen_nonneg _)) as L.
    rewrite blen_app in L at 2. unfold blen in *. lia.
  - rewrite app_nil_r. rewrite (writes_fill _ (header_bytes blk)); [done|by apply writes_header|].
    apply blen_allocUnsafe, blen_nonneg.
Qed.

(** ** Reading *)

Lemma reads_header blk : header_ok blk →
  reads readHeader (header_bytes blk)
    (mkBlock (blk_version blk) (blk_prevHash blk) (blk_merkleRoot blk) (blk_timestamp blk) (blk_bits blk) (blk_nonce blk) None).
Proof.
  intros [Hv (p & Ep & Lp) (r & Er & Lr) Ht Hb Hn]. unfold readHeader, header_bytes. rewrite Ep, Er. cbn [default from_option id].
  repeat (eapply reads_bind; [by (apply reads_int32 || apply reads_slice || apply reads_uint)|]).
  rewrite <- (app_nil_r (le_bytes 4 (blk_nonce blk))). eapply reads_bind; [by apply reads_uint|]. apply reads_ret.
Qed.

Lemma reads_tx tx : tx_ok tx → reads readTransaction (tx_bytes tx true) tx.
Proof.
  intros (Hw & Hv & Hne) pre post. unfold readTransaction, Transaction.fromBuffer. rewrite slice_from_app.
  pose proof (reads_transaction tx Hw Hv Hne [] post) as R. cbn [app] in R. rewrite blen_nil in R. rewrite R.
  cbn [mbind result_bind]. by rewrite blen_app, blen_tx_bytes.
Qed.

(** Blocks survive their bytes.  [toBuffer] of a header is 80 bytes and of a
    block exactly the [byteLength] bytes it reserved; [fromBuffer] reads back the
    header alone from the first and the whole block from the second. *)
Theorem block_roundtrip blk : block_ok blk →
  ∃ h b, toBuffer blk true = Ok h ∧ blen h = 80 ∧ toBuffer blk false = Ok b ∧ blen b = byteLength blk false ∧
    fromBuffer b = Ok blk ∧
    fromBuffer h = Ok (mkBlock (blk_version blk) (blk_prevHash blk) (blk_merkleRoot blk) (blk_timestamp blk)
                         (blk_bits blk) (blk_nonce blk) None).
Proof.
  intros Hok. destruct (toBuffer_bytes _ Hok) as [Eb Eh]. pose proof (blen_block _ Hok) as Lb.
  destruct Hok as [Hh Ht]. pose proof (blen_header _ Hh) as L8. pose proof (reads_header _ Hh []) as R.
  exists (header_bytes blk), (block_bytes blk).
  assert (Fh : fromBuffer (header_bytes blk) = Ok (mkBlock (blk_version blk) (blk_prevHash blk) (blk_merkleRoot blk)
    (blk_timestamp blk) (blk_bits blk) (blk_nonce blk) None)).
  { unfold fromBuffer. specialize (R []). cbn [app] in R. rewrite app_nil_r, blen_nil in R. by rewrite L8, R. }
  split_and!; try done. unfold fromBuffer, block_bytes in *.
  destruct blk as [ve ph mr ti bi no [txs|]]; cbn [blk_transactions] in *; [|by rewrite app_nil_r].
  destruct Ht as [Ht Hl]. set (body := vu_bytes (len txs) ++ _) in *. specialize (R body). cbn [app] in R. rewrite blen_nil in R.
  assert (0 < blen body).
  { pose proof (len_nonneg txs). destruct (vu_bytes_hd (len txs) ltac:(lia)) as (x & r & E & _).
    unfold body. rewrite E, blen_app, blen_cons. pose proof (blen_nonneg r).
    pose proof (blen_nonneg (concat (map (λ tx, tx_bytes tx true) txs))). lia. }
  rewrite blen_app, L8, (proj2 (Z.ltb_ge _ _)), R by lia. cbn [mbind result_bind].
  rewrite (proj2 (Z.eqb_neq _ _)) by lia.
  assert (RB : reads (n ← readVarInt; rtimes readTransaction (Z.to_nat n)) body txs).
  { eapply reads_bind; [apply vu_decode_spec; pose proof (len_nonneg txs); lia|]. rewrite len_to_nat.
    apply reads_times. eapply Forall_impl; [exact Ht|]. apply reads_tx. }
  specialize (RB (header_bytes (mkBlock ve ph mr ti bi no (Some txs))) []). rewrite app_nil_r in RB. by rewrite RB.
Qed.

(** ** Proof of work *)

(** The hexadecimal form of a block stands for its bytes. *)
Lemma hex_form blk headersOnly b : toBuffer blk headersOnly = Ok b → bytes_ok b → ∃ h, toHex blk headersOnly = Ok h ∧ fromHex h = fromBuffer b.
Proof. intros E Hb. unfold toHex, fromHex. rewrite E. eexists. split; [done|]. by rewrite Hex.fromHex_toHex. Qed.

(** Comparing buffers of the same length compares the numbers. *)
Lemma buf_compare_val a b : bytes_ok a → bytes_ok b → blen a = blen b →
  (buf_compare a b <=? 0) = (be_val a <=? be_val b).
Proof.
  intros Ha. revert b. induction Ha as [|x a Hx Ha IH]; intros [|y b] Hb Hl.
  - done.
  - rewrite blen_cons, blen_nil in Hl. pose proof (blen_nonneg b). lia.
  - rewrite blen_cons, blen_nil in Hl. pose proof (blen_nonneg a). lia.
  - apply bytes_ok_cons in Hb as [Hy Hb]. rewrite !blen_cons in Hl. cbn [buf_compare].
    rewrite !be_val_cons. pose proof (be_val_bound a Ha). pose proof (be_val_bound b Hb).
    assert (E : blen a = blen b) by lia. rewrite E in *. set (K := 256 ^ blen b) in *.
    destruct (Z.ltb_spec x y); [symmetry; apply Z.leb_le; nia|].
    destruct (Z.ltb_spec y x); [symmetry; apply Z.leb_gt; nia|].
    assert (x = y) as -> by lia. rewrite IH by done.
    destruct (Z.leb_spec (be_val a) (be_val b)); symmetry; [apply Z.leb_le|apply Z.leb_gt]; lia.
Qed.

Lemma be_val_app a b : be_val (a ++ b) = be_val a * 256 ^ blen b + be_val b.
Proof. unfold be_val. rewrite reverse_app, le_val_app, blen_reverse. lia. Qed.

Lemma le_val_zeros k : le_val (replicate k 0) = 0.
Proof. induction k; cbn; lia. Qed.

Lemma be_val_zeros k : be_val (replicate k 0) = 0.
Proof. unfold be_val. rewrite reverse_replicate. apply le_val_zeros. Qed.

Lemma land_high_byte a : Z.land a 0xff000000 = (a / 2 ^ 24) mod 256 * 2 ^ 24.
Proof.
  change 0xff000000 with (Z.shiftl (Z.ones 8) 24). change 256 with (2 ^ 8).
  rewrite <- Z.shiftl_mul_pow2, <- Z.land_ones, <- Z.shiftr_div_pow2 by lia.
  apply Z.bits_inj'. intros i Hi. rewrite Z.land_spec, !Z.shiftl_spec by lia.
  destruct (Z_lt_le_dec i 24).
  - rewrite !(Z.testbit_neg_r _ (i - 24)) by lia. apply andb_false_r.
  - rewrite Z.land_spec, Z.shiftr_spec by lia. f_equal. f_equal. lia.
Qed.

(** The exponent of the compact form, a signed byte. *)
Lemma exponent_spec bits : uint32 bits →
  js_shr (js_and bits 0xff000000) 24 = let e := bits / 2 ^ 24 in if e <? 128 then e else e - 256.
Proof.
  intros Hb. unfold uint32 in Hb. set (e := bits / 2 ^ 24).
  assert (0 <= e < 256) by (unfold e; split; [apply Z.div_pos|apply Z.div_lt_upper_bound]; lia).
  rewrite js_and_spec, land_high_byte. fold e. rewrite (Z.mod_small e) by lia.
  unfold js_shr. change (24 mod 32) with 24. rewrite to_int32_idem, Z.shiftr_div_pow2 by lia. cbn zeta.
  destruct (Z.ltb_spec e 128).
  - rewrite to_int32_small by lia. apply Z.div_mul. lia.
  - rewrite to_int32_high by lia. replace (e * 2 ^ 24 - 2 ^ 32) with ((e - 256) * 2 ^ 24) by lia. apply Z.div_mul. lia.
Qed.

Lemma target_spec bits : uint32 bits →
  let e := bits / 2 ^ 24 in
  (3 <= e <= 31 → ∃ t, calculateTarget bits = Ok t ∧ blen t = 32 ∧ bytes_ok t ∧
     be_val t = bits mod 2 ^ 23 * 256 ^ (e - 3)) ∧
  (¬ 3 <= e <= 31 → calculateTarget bits = Throw RangeError).
Proof.
  intros Hb e. pose proof (exponent_spec bits Hb) as E. cbn zeta in E. fold e in E. unfold calculateTarget. rewrite E.
  change 0x007fffff with (2 ^ 23 - 1). rewrite js_and_ones by lia. set (m := bits mod 2 ^ 23).
  assert (Hm : 0 <= m < 2 ^ 23) by (apply Z.mod_pos_bound; lia).
  assert (0 <= e < 256) by (unfold uint32 in Hb; unfold e; split; [apply Z.div_pos|apply Z.div_lt_upper_bound]; lia).
  split; intros He.
  - rewrite (proj2 (Z.ltb_lt _ _)) by lia. replace (28 - (e - 3)) with (31 - e) by lia.
    set (off := Z.to_nat (31 - e)). assert (Eoff : Z.of_nat off = 31 - e) by lia.
    assert (Ea : alloc 32 0 = replicate off 0 ++ replicate (32 - off) 0)
      by (unfold alloc; rewrite <- replicate_add; f_equal; lia).
    assert (Lr : ∀ k, blen (replicate k 0) = Z.of_nat k) by (intros k; unfold blen; by rewrite length_replicate).
    rewrite Ea, writeUInt32BE_at by (rewrite ?Lr; lia). eexists. split; [reflexivity|].
    rewrite drop_replicate. split_and!.
    + rewrite !blen_app, blen_be_bytes, !Lr. lia.
    + repeat (apply bytes_ok_app; split); auto with js; apply Forall_replicate; unfold is_byte; lia.
    + rewrite be_val_app, be_val_zeros, be_val_app, be_val_zeros, be_val_be_bytes, Lr.
      rewrite (Z.mod_small m) by (change (256 ^ Z.of_nat 4) with (2 ^ 32); lia).
      replace (Z.of_nat (32 - off - 4)) with (e - 3) by lia. lia.
  - unfold writeUInt32BE. rewrite (proj2 (Z.leb_le _ _)), (proj2 (Z.ltb_lt _ _)) by lia. cbn [andb].
    unfold in_range. rewrite blen_alloc by lia. destruct (Z.ltb_spec e 128);
      destruct (Z.leb_spec 0 (28 - (e - 3))); destruct (Z.leb_spec 0 (28 - (e - 256 - 3))); try done; try lia;
      cbn [andb]; rewrite (proj2 (Z.leb_gt _ _)) by lia; done.
Qed.

(** Proof of work is checked exactly.  Where the exponent byte of [bits] is
    between 3 and 31, [checkProofOfWork] compares the double hash of the header,
    as a little-endian number, with the mantissa times the power of 256 that
    [bits] stands for; for any other exponent it throws. *)
Theorem proof_of_work_exact blk : block_ok blk →
  let e := blk_bits blk / 2 ^ 24 in
  (3 <= e <= 31 → checkProofOfWork blk =
     Ok (le_val (Crypto.hash256 (header_bytes blk)) <=? blk_bits blk mod 2 ^ 23 * 256 ^ (e - 3))) ∧
  (¬ 3 <= e <= 31 → checkProofOfWork blk = Throw RangeError).
Proof.
  intros Hok e. destruct (toBuffer_bytes _ Hok) as [_ Eh]. destruct Hok as [Hh _].
  destruct (target_spec _ (ho_bits _ Hh)) as [Hin Hout]. fold e in Hin, Hout.
  unfold checkProofOfWork, getHash. rewrite Eh. cbn [mbind result_bind].
  destruct (Crypto.hash256_ok (header_bytes blk)) as [Lh Oh]. split; intros He.
  - destruct (Hin He) as (t & -> & Lt & Ot & <-). cbn [mbind result_bind].
    rewrite buf_compare_val; [|auto with js|done|rewrite blen_reverse; lia].
    unfold be_val at 1. by rewrite reverse_involutive.
  - by rewrite (Hout He).
Qed.

End S.

Section Examples.
Import Concrete.

Local Instance no_merkle : MerkleLib := {| fastMerkleRoot hs digest := digest (concat hs) |}.

Local Definition a_block : block := mkBlock 2 (Some (replicate 32 1)) (Some (replicate 32 2)) 1700000000 0x1d00ffff 7 (Some [a_tx]).

Local Lemma a_block_ok : block_ok a_block.
Proof.
  split.
  - split; [cbn; lia|by eexists|by eexists|cbn; unfold uint32; lia..].
  - split; [|vm_compute; discriminate]. apply Forall_singleton. split_and!; [apply a_tx_wf|apply a_tx_valued|done].
Qed.

Lemma block_roundtrip_witness : ∃ b, toBuffer (Mem := zero_mem) a_block false = Ok b ∧ fromBuffer b = Ok a_block.
Proof.
  destruct (block_roundtrip (Mem := zero_mem) a_block a_block_ok) as (h & b & _ & _ & E & _ & F & _).
  exists b. split; [exact E|exact F].
Defined.

Lemma proof_of_work_exact_witness : checkProofOfWork (Mem := zero_mem) a_block =
  Ok (le_val (Crypto.hash256 (header_bytes a_block)) <=? 0xffff * 256 ^ 26).
Proof.
  destruct (proof_of_work_exact (Mem := zero_mem) a_block a_block_ok) as [H _]. apply H. vm_compute. split; discriminate.
Defined.

End Examples.
End Block.
