(* ===== verification/ECSignature.v ===== *)
(** * Signatures

    [ecashjs-lib/src/ecsignature.js]: the pair of integers of a signature and its
    three encodings: two 32-byte words, the compact form with a recovery byte,
    and the script form with a hash type. *)

From stdpp Require Import base tactics list gmap numbers strings.
From S2P Require Import Prelude JsNumber NodeBuffer Externals Crypto Curve Script.
Import Types.
Open Scope Z_scope.

Record ecsig `{!Bigi} := mkSig { sig_r : bi; sig_s : bi }.
Arguments mkSig {_} _ _.

Module ECSignature.

Definition ECDSA : Z := 0x00.
Definition SCHNORR : Z := 0x01.

Section S.
Context {Mem : UninitMem} `{TF : !Typeforce} `{BI : !Bigi} `{B66 : !Bip66}.

Definition fromRSBuffer (b : buffer) : result ecsig :=
  _ ← guard_js (tf_BufferN 64 b) TypeforceError;
  Ok (mkSig (bi_fromBuffer (slice b 0 32)) (bi_fromBuffer (slice b 32 64))).

(** [compressed], [i] and [signature] *)
Definition parseCompact (b : buffer) : result (bool * Z * ecsig) :=
  _ ← guard_js (tf_BufferN 65 b) TypeforceError;
  flag ← readUInt8 b 0;
  let flagByte := flag - 27 in
  if negb (flagByte =? js_and flagByte 7) then Throw (Error "Invalid signature parameter")
  else
    let compressed := truthy (js_and flagByte 4) in
    let recoveryParam := js_and flagByte 3 in
    signature ← fromRSBuffer (slice_from b 1);
    Ok (compressed, recoveryParam, signature).

Definition fromDER (b : buffer) : result ecsig :=
  '(r, s) ← bip66_decode b; Ok (mkSig (bi_fromDERInteger r) (bi_fromDERInteger s)).

Definition hashTypeMod (hashType : Z) : Z := js_and hashType (js_not 0xc0).

(** [signature] and [hashType] *)
Definition parseScriptSignature (b : buffer) : result (ecsig * Z) :=
  hashType ← readUInt8 b (blen b - 1);
  if (hashTypeMod hashType <=? 0) || (hashTypeMod hashType >=? 4)
  then Throw (Error "Invalid hashType")
  else signature ← fromDER (slice b 0 (-1)); Ok (signature, hashType).

(** Writes into the caller's buffer, or into a fresh one of zeros. *)
Definition toRSBuffer (sig : ecsig) (b : option buffer) (offset : option Z) : result buffer :=
  let offset := default 0 offset in
  let b := default (alloc 64 0) b in
  '(b, _) ← copy (bi_toBuffer (sig_r sig) 32) b offset;
  '(b, _) ← copy (bi_toBuffer (sig_s sig) 32) b (offset + 32);
  Ok b.

Definition toCompact (sig : ecsig) (i : Z) (compressed : bool) : result buffer :=
  let i := if compressed then i + 4 else i in
  let i := i + 27 in
  let b := alloc 65 0 in
  b ← writeUInt8 b i 0;
  toRSBuffer sig (Some b) (Some 1).

Definition toDER (sig : ecsig) : result buffer :=
  bip66_encode (bi_toDERInteger (sig_r sig)) (bi_toDERInteger (sig_s sig)).

(** [None] is an algorithm that was not given. *)
Definition toScriptSignature (sig : ecsig) (hashType : Z) (signatureAlgorithm : option Z) : result buffer :=
  let alg := default ECDSA signatureAlgorithm in
  if (hashTypeMod hashType <=? 0) || (hashTypeMod hashType >=? 4)
  then Throw (Error "Invalid hashType")
  else
    hashTypeBuffer ← writeUInt8 (alloc 1 0) hashType 0;
    if alg =? ECDSA then der ← toDER sig; Ok (der ++ hashTypeBuffer)
    else if alg =? SCHNORR then rs ← toRSBuffer sig None None; Ok (rs ++ hashTypeBuffer)
    else Throw (Error "Invalid signature Algorithm").

End S.

(** ** Laws *)

Section Laws.
Context {Mem : UninitMem} `{TF : !Typeforce} `{TS : !TypeforceSpec} `{BI : !Bigi} `{BS : !BigiSpec}
  `{B66 : !Bip66} `{B66S : !Bip66Spec}.

(** A signature whose numbers are those of the curve. *)
Definition sig_wf (sig : ecsig) : Prop :=
  0 < bi_Z (sig_r sig) < 256 ^ 32 ∧ 0 < bi_Z (sig_s sig) < 256 ^ 32.

Definition sig_eq (a b : ecsig) : Prop :=
  bi_Z (sig_r a) = bi_Z (sig_r b) ∧ bi_Z (sig_s a) = bi_Z (sig_s b).

#[global] Instance sig_eq_equiv : Equivalence sig_eq.
Proof. split; unfold sig_eq; [done|intros ???|intros ?????]; intuition congruence. Qed.

Definition rs_bytes (sig : ecsig) : buffer :=
  be_bytes 32 (bi_Z (sig_r sig)) ++ be_bytes 32 (bi_Z (sig_s sig)).

Lemma blen_rs_bytes sig : blen (rs_bytes sig) = 64.
Proof. unfold rs_bytes. by rewrite blen_app, !blen_be_bytes. Qed.

Lemma toRSBuffer_app sig pre rest : sig_wf sig → blen rest = 64 →
  toRSBuffer sig (Some (pre ++ rest)) (Some (blen pre)) = Ok (pre ++ rs_bytes sig).
Proof.
  intros [Hr Hs] Hl. unfold toRSBuffer. cbn [default from_option id].
  rewrite !bi_toBuffer_spec by lia. change (Z.to_nat 32) with 32%nat.
  rewrite copy_app by (rewrite blen_be_bytes; lia). cbn [mbind result_bind].
  replace (blen pre + 32) with (blen (pre ++ be_bytes 32 (bi_Z (sig_r sig))))
    by (by rewrite blen_app, blen_be_bytes).
  assert (L : ∀ v, length (be_bytes 32 v) = 32%nat) by (intros v; pose proof (blen_be_bytes 32 v); unfold blen in *; lia).
  rewrite copy_app by (unfold blen in *; rewrite length_drop, !L; lia). cbn [mbind result_bind].
  rewrite drop_drop, !L, drop_ge, app_nil_r by (unfold blen in *; lia). by rewrite <- app_assoc.
Qed.

Lemma fromRSBuffer_rs sig : sig_wf sig →
  ∃ sig', fromRSBuffer (rs_bytes sig) = Ok sig' ∧ sig_eq sig' sig.
Proof.
  intros [Hr Hs]. unfold fromRSBuffer. rewrite (proj2 (tf_BufferN_spec _ _)) by apply blen_rs_bytes.
  eexists. split; [reflexivity|]. unfold rs_bytes. split; cbn [sig_r sig_s].
  - pose proof (slice_app [] (be_bytes 32 (bi_Z (sig_r sig))) (be_bytes 32 (bi_Z (sig_s sig)))) as E.
    cbn [app] in E. rewrite blen_nil, blen_be_bytes in E. change (0 + Z.of_nat 32) with 32 in E. rewrite E.
    rewrite bi_fromBuffer_spec, be_val_be_bytes by auto with js. apply Z.mod_small. change (Z.of_nat 32) with 32. lia.
  - pose proof (slice_app (be_bytes 32 (bi_Z (sig_r sig))) (be_bytes 32 (bi_Z (sig_s sig))) []) as E.
    rewrite app_nil_r, !blen_be_bytes in E. change (Z.of_nat 32 + Z.of_nat 32) with 64 in E.
    change (Z.of_nat 32) with 32 in E. rewrite E.
    rewrite bi_fromBuffer_spec, be_val_be_bytes by auto with js. apply Z.mod_small. change (Z.of_nat 32) with 32. lia.
Qed.

Lemma toDER_spec sig : sig_wf sig →
  ∃ e sig', toDER sig = Ok e ∧ bytes_ok e ∧ bip66_check e = true ∧ fromDER e = Ok sig' ∧ sig_eq sig' sig.
Proof.
  intros [Hr Hs]. destruct (bi_DERInteger_der _ Hr) as [Or Dr]. destruct (bi_DERInteger_der _ Hs) as [Os Ds].
  destruct (bip66_roundtrip _ _ Or Os Dr Ds) as (e & Ee & Hok & Ed & Ec).
  exists e. eexists. split_and!; [exact Ee|done|done|unfold fromDER; by rewrite Ed|].
  split; cbn [sig_r sig_s]; apply bi_DERInteger_spec; lia.
Qed.

(** The hash types with a base type between 1 and 3. *)
Lemma hashType_cases ht : is_byte ht → 0 < hashTypeMod ht < 4 → Script.isDefinedHashType (Some ht) = true.
Proof.
  intros Hb Hm. unfold Script.isDefinedHashType. cbn [bits_of default from_option id].
  fold (hashTypeMod ht). rewrite (proj2 (Z.ltb_lt _ _)), (proj2 (Z.ltb_lt _ _)) by lia. done.
Qed.

Lemma last_byte pre x : get (pre ++ [x]) (blen (pre ++ [x]) - 1) = Some x.
Proof. replace (blen (pre ++ [x]) - 1) with (blen pre) by blen_lia. apply get_app_len. Qed.

(** ** Properties *)

(** A signature survives its compact form, for every recovery parameter and both key
    formats. *)
Theorem compact_roundtrip sig i compressed : sig_wf sig → 0 <= i < 4 →
  ∃ b sig', toCompact sig i compressed = Ok b ∧ parseCompact b = Ok (compressed, i, sig') ∧ sig_eq sig' sig.
Proof.
  intros Hw Hi. set (flag := (if compressed then i + 4 else i) + 27).
  destruct (fromRSBuffer_rs sig Hw) as (sig' & Ef & Eq). exists (flag :: rs_bytes sig), sig'. split_and!; [| |done].
  - unfold toCompact. fold flag. assert (Hf : 0 <= flag < 256) by (unfold flag; destruct compressed; lia).
    change (alloc 65 0) with (0 :: replicate 64 0). rewrite writeUInt8_first by done. cbn [mbind result_bind].
    exact (toRSBuffer_app sig [flag] (replicate 64 0) Hw eq_refl).
  - unfold parseCompact.
    rewrite (proj2 (tf_BufferN_spec _ _)) by (rewrite blen_cons, blen_rs_bytes; done).
    cbn [guard_js mbind result_bind]. pose proof (readUInt8_app [] flag (rs_bytes sig)) as R.
    rewrite blen_nil in R. cbn [app] in R. rewrite R. cbn [mbind result_bind].
    assert (Es : slice_from (flag :: rs_bytes sig) 1 = rs_bytes sig).
    { unfold slice_from. rewrite slice_past by (cbn [length]; lia). done. }
    rewrite Es, Ef. cbn [mbind result_bind]. unfold flag.
    assert (Hin : i ∈ map Z.of_nat (seq 0 4)).
    { apply list_elem_of_In, in_map_iff. exists (Z.to_nat i). rewrite in_seq. lia. }
    repeat (apply elem_of_cons in Hin as [->|Hin]; [destruct compressed; reflexivity|]). by apply elem_of_nil in Hin.
Qed.

(** The script form of a signature: its DER form and the hash type. *)
Lemma script_signature_form sig ht : sig_wf sig → is_byte ht → 0 < hashTypeMod ht < 4 →
  ∃ e sig', toDER sig = Ok e ∧ bytes_ok e ∧ toScriptSignature sig ht None = Ok (e ++ [ht]) ∧
    Script.isCanonicalSignature (CBuf (e ++ [ht])) = true ∧
    parseScriptSignature (e ++ [ht]) = Ok (sig', ht) ∧ sig_eq sig' sig.
Proof.
  intros Hw Hb Hm. destruct (toDER_spec sig Hw) as (e & sig' & Et & Hok & Hc & Ef & Eq).
  assert (G : (hashTypeMod ht <=? 0) || (hashTypeMod ht >=? 4) = false).
  { rewrite Z.geb_leb, (proj2 (Z.leb_gt _ 0)), (proj2 (Z.leb_gt 4 _)) by lia. done. }
  exists e, sig'. split_and!; [done|done| | | |done].
  - unfold toScriptSignature. rewrite G. cbn [default from_option]. change (ECDSA =? ECDSA) with true.
    change (alloc 1 0) with [0]. rewrite writeUInt8_first by done. cbn [mbind result_bind].
    by rewrite Et.
  - unfold Script.isCanonicalSignature. rewrite last_byte, hashType_cases by done. cbn [negb].
    destruct (blen (e ++ [ht]) =? 65); [done|]. by rewrite slice_init.
  - unfold parseScriptSignature. pose proof (readUInt8_app e ht []) as R.
    replace (blen (e ++ [ht]) - 1) with (blen e) by blen_lia. rewrite R. cbn [mbind result_bind].
    rewrite G, slice_init, Ef. done.
Qed.

(** A low signature takes at most 71 bytes in DER. *)
Lemma toDER_low sig e : 0 < bi_Z (sig_r sig) < 2 ^ 256 → 0 < bi_Z (sig_s sig) < 2 ^ 255 → toDER sig = Ok e → blen e <= 71.
Proof.
  intros Hr Hs E. apply bip66_encode_len in E. pose proof (Z.pow_lt_mono_r 2 256 263 ltac:(lia) ltac:(lia) ltac:(lia)).
  assert (blen (bi_toDERInteger (sig_r sig)) <= 33) by (apply bi_DERInteger_len; [lia|change (8 * 33 - 1) with 263; lia]).
  assert (blen (bi_toDERInteger (sig_s sig)) <= 32) by (apply bi_DERInteger_len; [lia|change (8 * 32 - 1) with 255; lia]). lia.
Qed.

(** An ECDSA signature with a defined hash type is written in script form, passes the
    check of canonical signatures, and is parsed back with its hash type. *)
Theorem script_signature_roundtrip sig ht : sig_wf sig → is_byte ht → 0 < hashTypeMod ht < 4 →
  ∃ b sig', toScriptSignature sig ht None = Ok b ∧ Script.isCanonicalSignature (CBuf b) = true ∧
    parseScriptSignature b = Ok (sig', ht) ∧ sig_eq sig' sig.
Proof.
  intros Hw Hb Hm. destruct (script_signature_form sig ht Hw Hb Hm) as (e & sig' & _ & _ & H1 & H2 & H3 & H4).
  by exists (e ++ [ht]), sig'.
Qed.

(** A Schnorr signature in script form has 65 bytes and passes the same check; a hash type
    without a base type is refused in both algorithms. *)
Theorem schnorr_script_signature sig ht : sig_wf sig → is_byte ht →
  toScriptSignature sig ht (Some SCHNORR) =
    (if (0 <? hashTypeMod ht) && (hashTypeMod ht <? 4) then Ok (rs_bytes sig ++ [ht])
     else Throw (Error "Invalid hashType")) ∧
  (0 < hashTypeMod ht < 4 → Script.isCanonicalSignature (CBuf (rs_bytes sig ++ [ht])) = true).
Proof.
  intros Hw Hb. split.
  - unfold toScriptSignature. rewrite Z.geb_leb. destruct (Z.ltb_spec 0 (hashTypeMod ht)) as [L|L].
    2:{ by rewrite (proj2 (Z.leb_le _ 0)). }
    rewrite (proj2 (Z.leb_gt _ 0)) by done. destruct (Z.ltb_spec (hashTypeMod ht) 4) as [M|M].
    2:{ by rewrite (proj2 (Z.leb_le 4 _)). }
    rewrite (proj2 (Z.leb_gt 4 _)) by done. cbn [orb andb default from_option id].
    change (alloc 1 0) with [0]. rewrite writeUInt8_first by done. cbn [mbind result_bind].
    change (SCHNORR =? ECDSA) with false. change (SCHNORR =? SCHNORR) with true. cbn iota.
    pose proof (toRSBuffer_app sig [] (alloc 64 0) Hw eq_refl) as T.
    change (toRSBuffer sig None None) with (toRSBuffer sig (Some ([] ++ alloc 64 0)) (Some (blen []))).
    by rewrite T.
  - intros Hm. unfold Script.isCanonicalSignature. rewrite last_byte, hashType_cases by done. cbn [negb].
    replace (blen (rs_bytes sig ++ [ht])) with 65 by (by rewrite blen_app, blen_rs_bytes). done.
Qed.

End Laws.

Section Examples.
Import Concrete ConcreteCurve.

Definition a_sig : ecsig := mkSig (5 : bi) (300 : bi).

Lemma compact_roundtrip_witness :
  ∃ b sig', toCompact a_sig 2 true = Ok b ∧ parseCompact b = Ok (true, 2, sig') ∧ sig_eq sig' a_sig.
Proof. apply compact_roundtrip; concrete. Defined.

Lemma script_signature_roundtrip_witness :
  ∃ b sig', toScriptSignature a_sig 0x41 None = Ok b ∧ Script.isCanonicalSignature (CBuf b) = true ∧
    parseScriptSignature b = Ok (sig', 0x41) ∧ sig_eq sig' a_sig.
Proof. apply script_signature_roundtrip; concrete. Defined.

Lemma schnorr_script_signature_witness :
  toScriptSignature a_sig 0x41 (Some SCHNORR) =
    (if (0 <? hashTypeMod 0x41) && (hashTypeMod 0x41 <? 4) then Ok (rs_bytes a_sig ++ [0x41])
     else Throw (Error "Invalid hashType")) ∧
  (0 < hashTypeMod 0x41 < 4 → Script.isCanonicalSignature (CBuf (rs_bytes a_sig ++ [0x41])) = true).
Proof. apply schnorr_script_signature; concrete. Defined.

End Examples.
End ECSignature.
