(* ===== verification/Ecdsa.v ===== *)
(** * Deterministic nonces, ECDSA and Schnorr signatures

    [ecashjs-lib/src/rfc6979.js], [ecdsa.js] and [schnorr.js].  The loop of
    RFC 6979 runs on the output of an HMAC and has no bound of its own; the model
    gives it fuel, and [generateK_first] says that it returns the first
    acceptable candidate as soon as the fuel reaches it.  The main theorems are
    the correctness of both algorithms: what [sign] makes, [verify] accepts. *)

From stdpp Require Import base tactics list gmap numbers strings.
From Stdlib Require Import Zdivisibility Zcong.
From S2P Require Import Prelude JsNumber NodeBuffer Externals Crypto Curve Script ECSignature.
Import Types.
Open Scope Z_scope.

(** ** Congruence *)

Definition cong (m a b : Z) : Prop := a mod m = b mod m.

#[export] Instance cong_equiv m : Equivalence (cong m).
Proof. split; unfold cong; [done|by intros ?? ->|by intros ??? -> ->]. Qed.
#[export] Instance cong_add m : Proper (cong m ==> cong m ==> cong m) Z.add.
Proof. intros a b E c d F. unfold cong in *. by rewrite Zplus_mod, E, F, <- Zplus_mod. Qed.
#[export] Instance cong_mul m : Proper (cong m ==> cong m ==> cong m) Z.mul.
Proof. intros a b E c d F. unfold cong in *. by rewrite Zmult_mod, E, F, <- Zmult_mod. Qed.
#[export] Instance cong_opp m : Proper (cong m ==> cong m) Z.opp.
Proof. intros a b E. rewrite <- (Z.mul_1_l a), <- (Z.mul_1_l b), <- !Z.mul_opp_l. by apply cong_mul. Qed.
#[export] Instance cong_sub m : Proper (cong m ==> cong m ==> cong m) Z.sub.
Proof. intros a b E c d F. rewrite <- !Z.add_opp_r. by rewrite E, F. Qed.

Lemma cong_mod m a : cong m (a mod m) a.
Proof. unfold cong. apply Zmod_mod. Qed.

Lemma cong_small m a b : 0 <= a < m → 0 <= b < m → cong m a b → a = b.
Proof. unfold cong. intros Ha Hb. by rewrite !Z.mod_small. Qed.

Lemma cong_modulus m a : cong m (m - a) (- a).
Proof. unfold cong. rewrite <- (Z_mod_plus_full (- a) 1 m). f_equal. lia. Qed.

Module RFC6979.

Definition ZERO : buffer := alloc 1 0.
Definition ONE : buffer := alloc 1 1.

Section S.
Context `{TF : !Typeforce} `{BI : !Bigi} `{EC : !Ecurve} `{HM : !CreateHmac}.

(** Steps B to the first H2b: the state [k], [v] of the generator. *)
Definition init (hash x : buffer) (algo16 : option buffer) : buffer * buffer :=
  let k := alloc 32 0 in
  let v := alloc 32 1 in
  let k := hm_sha256 k (v ++ ZERO ++ x ++ hash ++ default [] algo16) in
  let v := hm_sha256 k v in
  let k := hm_sha256 k (v ++ ONE ++ x ++ hash) in
  let v := hm_sha256 k v in
  let v := hm_sha256 k v in
  (k, v).

(** The body of the loop. *)
Definition step (kv : buffer * buffer) : buffer * buffer :=
  let '(k, v) := kv in
  let k := hm_sha256 k (v ++ ZERO) in
  let v := hm_sha256 k v in
  let v := hm_sha256 k v in
  (k, v).

Section Search.
(** [checkSig] is a closure that leaves its results in variables of the caller
    and returns whether they are good; here it returns the results. *)
Context {A : Type} (checkSig : bi → option A).

Definition accept (T : bi) : option A :=
  if (bi_signum T <=? 0) || (bi_compareTo T ec_n >=? 0) then None else checkSig T.

Fixpoint search (fuel : nat) (kv : buffer * buffer) : result (bi * A) :=
  match fuel with
  | O => Throw OutOfFuel
  | S fuel =>
      let T := bi_fromBuffer kv.2 in
      match accept T with
      | Some a => Ok (T, a)
      | None => search fuel (step kv)
      end
  end.

Definition deterministicGenerateK (fuel : nat) (hash x : buffer) (algo16 : option buffer) : result (bi * A) :=
  _ ← guard_js (Hash256bit hash && Buffer256bit x) TypeforceError;
  _ ← guard_js (match algo16 with Some a => tf_BufferN 16 a | None => true end) TypeforceError;
  search fuel (init hash x algo16).

(** The candidates of the loop, in order. *)
Definition candidate (kv : buffer * buffer) (j : nat) : bi := bi_fromBuffer (Nat.iter j step kv).2.

Lemma search_first fuel kv j a :
  (j < fuel)%nat → (∀ i, (i < j)%nat → accept (candidate kv i) = None) → accept (candidate kv j) = Some a →
  search fuel kv = Ok (candidate kv j, a).
Proof.
  revert kv j. induction fuel as [|fuel IH]; intros kv j Hj Hnone Hsome; [lia|]. cbn [search].
  destruct j as [|j].
  - change (bi_fromBuffer kv.2) with (candidate kv 0). by rewrite Hsome.
  - pose proof (Hnone 0%nat ltac:(lia)) as H0. change (bi_fromBuffer kv.2) with (candidate kv 0). rewrite H0.
    assert (E : ∀ i, candidate (step kv) i = candidate kv (S i)) by (intros i; unfold candidate; by rewrite Nat.iter_succ_r).
    rewrite <- E. apply IH; [lia| |by rewrite E].
    intros i Hi. rewrite E. apply Hnone. lia.
Qed.

Lemma search_inv fuel kv T a : search fuel kv = Ok (T, a) → accept T = Some a.
Proof.
  revert kv. induction fuel as [|fuel IH]; intros kv; [discriminate|]. cbn [search].
  destruct (accept (bi_fromBuffer kv.2)) eqn:E; [|apply IH]. intros [= <- <-]. done.
Qed.

Lemma none_below kv j :
  (∀ l, (l < j)%nat → accept (candidate kv l) = None) ∨ ∃ l, (l < j)%nat ∧ is_Some (accept (candidate kv l)).
Proof.
  induction j as [|j [IH|(l & Hl & Hs)]]; [left; lia| |right; exists l; split; [lia|done]].
  destruct (accept (candidate kv j)) eqn:E; [right; exists j; split; [lia|by eexists]|left].
  intros l Hl. destruct (decide (l = j)) as [->|]; [done|]. apply IH. lia.
Qed.

(** An acceptable candidate has a first one before it. *)
Lemma first_accepted kv j : is_Some (accept (candidate kv j)) →
  ∃ i a, (i <= j)%nat ∧ accept (candidate kv i) = Some a ∧ ∀ l, (l < i)%nat → accept (candidate kv l) = None.
Proof.
  induction j as [j IH] using lt_wf_ind. intros [a Ha].
  destruct (none_below kv j) as [N|(l & Hl & Hs)].
  - by exists j, a.
  - destruct (IH l Hl Hs) as (i & b & Hi & Hb & Hn). exists i, b. split_and!; [lia|done|done].
Qed.

(** The search ends as soon as the fuel covers an acceptable candidate. *)
Lemma search_returns fuel kv j : (j < fuel)%nat → is_Some (accept (candidate kv j)) →
  ∃ i a, (i <= j)%nat ∧ (∀ l, (l < i)%nat → accept (candidate kv l) = None) ∧
    accept (candidate kv i) = Some a ∧ search fuel kv = Ok (candidate kv i, a).
Proof.
  intros Hj Hs. destruct (first_accepted kv j Hs) as (i & a & Hi & Ha & Hn).
  exists i, a. split_and!; [lia|done|done|]. apply search_first; [lia|done|done].
Qed.

End Search.

Context `{BS : !BigiSpec} `{ES : !EcurveSpec} `{HS : !CreateHmacSpec} `{TS : !TypeforceSpec}.

Lemma compare_ge a b : (bi_compareTo a b >=? 0) = (bi_Z b <=? bi_Z a).
Proof. pose proof (bi_compareTo_spec a b). apply eq_bool_prop_intro. rewrite !Is_true_true. lia. Qed.

Lemma compare_gt a b : (bi_compareTo a b >? 0) = (bi_Z b <? bi_Z a).
Proof. pose proof (bi_compareTo_spec a b). apply eq_bool_prop_intro. rewrite !Is_true_true. lia. Qed.

Lemma compare_le a b : (bi_compareTo a b <=? 0) = (bi_Z a <=? bi_Z b).
Proof. pose proof (bi_compareTo_spec a b). apply eq_bool_prop_intro. rewrite !Is_true_true. lia. Qed.

Lemma signum_le a : (bi_signum a <=? 0) = (bi_Z a <=? 0).
Proof. rewrite bi_signum_spec. apply eq_bool_prop_intro. rewrite !Is_true_true. lia. Qed.

Lemma signum_eq a : (bi_signum a =? 0) = (bi_Z a =? 0).
Proof. rewrite bi_signum_spec. apply eq_bool_prop_intro. rewrite !Is_true_true. lia. Qed.

Lemma accept_spec {A} (checkSig : bi → option A) T a :
  accept checkSig T = Some a ↔ 0 < bi_Z T < bi_Z ec_n ∧ checkSig T = Some a.
Proof.
  unfold accept. rewrite signum_le, compare_ge.
  destruct (Z.leb_spec (bi_Z T) 0), (Z.leb_spec (bi_Z ec_n) (bi_Z T)); cbn; split; try done; try lia; tauto.
Qed.

Lemma generateK_eq {A} (checkSig : bi → option A) fuel hash x algo16 :
  blen hash = 32 → blen x = 32 → default 16 (blen <$> algo16) = 16 →
  deterministicGenerateK checkSig fuel hash x algo16 = search checkSig fuel (init hash x algo16).
Proof.
  intros Hh Hx Ha. unfold deterministicGenerateK. unfold Hash256bit, Buffer256bit.
  rewrite !(proj2 (tf_BufferN_spec _ _)) by done.
  destruct algo16; cbn in *; [rewrite (proj2 (tf_BufferN_spec _ _)) by done|]; done.
Qed.

End S.
End RFC6979.

Module ECDSA.
Import RFC6979.
Section S.
Context `{TF : !Typeforce} `{BI : !Bigi} `{EC : !Ecurve} `{HM : !CreateHmac}.

Definition N_OVER_TWO : bi := bi_shiftRight ec_n 1.

(** The closure [sign] passes to the generator: [r] and [s] when it accepts. *)
Definition checkSig (e d k : bi) : option (bi * bi) :=
  let Q := pt_multiply ec_G k in
  if ec_isInfinity Q then None
  else
    let r := bi_mod (pt_affineX Q) ec_n in
    if bi_signum r =? 0 then None
    else
      let s := bi_mod (bi_multiply (bi_modInverse k ec_n) (bi_add e (bi_multiply d r))) ec_n in
      if bi_signum s =? 0 then None else Some (r, s).

Definition sign (fuel : nat) (hash : buffer) (d : bi) : result ecsig :=
  _ ← guard_js (Hash256bit hash) TypeforceError;
  let x := bi_toBuffer d 32 in
  let e := bi_fromBuffer hash in
  '(_, (r, s)) ← deterministicGenerateK (checkSig e d) fuel hash x None;
  let s := if bi_compareTo s N_OVER_TWO >? 0 then bi_subtract ec_n s else s in
  Ok (mkSig r s).

Definition verify (hash : buffer) (signature : ecsig) (Q : point) : result bool :=
  _ ← guard_js (Hash256bit hash) TypeforceError;
  let r := sig_r signature in
  let s := sig_s signature in
  if (bi_signum r <=? 0) || (bi_compareTo r ec_n >=? 0) then Ok false
  else if (bi_signum s <=? 0) || (bi_compareTo s ec_n >=? 0) then Ok false
  else
    let e := bi_fromBuffer hash in
    let sInv := bi_modInverse s ec_n in
    let u1 := bi_mod (bi_multiply e sInv) ec_n in
    let u2 := bi_mod (bi_multiply r sInv) ec_n in
    let R := pt_multiplyTwo ec_G u1 Q u2 in
    if ec_isInfinity R then Ok false
    else
      let xR := pt_affineX R in
      let v := bi_mod xR ec_n in
      Ok (bi_equals v r).

(** ** Laws *)
Context `{BS : !BigiSpec} `{ES : !EcurveSpec} `{HS : !CreateHmacSpec} `{TS : !TypeforceSpec}.
Local Abbreviation n := (bi_Z ec_n).
Infix "≡" := (cong n) (at level 70).

Lemma n_coprime a : 0 < a < n → Z.coprime a n.
Proof. intros Ha. unfold Z.coprime. rewrite Z.gcd_comm. apply Z.coprime_prime_small; [apply ec_n_prime|lia]. Qed.

Lemma modInverse_cong a : 0 < bi_Z a < n → bi_Z a * bi_Z (bi_modInverse a ec_n) ≡ 1.
Proof.
  intros Ha. pose proof ec_n_odd. destruct (bi_modInverse_spec a ec_n) as [_ E]; [lia|by apply n_coprime|].
  unfold cong. rewrite E, Z.mod_small; lia.
Qed.

Lemma dl_generator k : 0 < bi_Z k < n → ec_dl (pt_multiply ec_G k) = bi_Z k.
Proof. intros Hk. rewrite dl_multiply, dl_G, Z.mul_1_l by lia. apply Z.mod_small. lia. Qed.

(** What an accepted nonce gives: the equation of the signature. *)
Lemma checkSig_spec e d k r s : 0 < bi_Z k < n → checkSig e d k = Some (r, s) →
  bi_Z r = bi_Z (pt_affineX (pt_multiply ec_G k)) mod n ∧ 0 < bi_Z r < n ∧ 0 < bi_Z s < n ∧
  bi_Z k * bi_Z s ≡ bi_Z e + bi_Z d * bi_Z r.
Proof.
  intros Hk. unfold checkSig. pose proof ec_n_odd. rewrite !signum_eq, !bi_mod_spec by lia.
  destruct (ec_isInfinity _); [done|].
  set (x := bi_Z (pt_affineX (pt_multiply ec_G k))). set (m := bi_multiply _ _).
  assert (Hn : 0 < n) by lia. pose proof (Z.mod_pos_bound x n Hn). pose proof (Z.mod_pos_bound (bi_Z m) n Hn).
  destruct (Z.eqb_spec (x mod n) 0) as [|Hx]; [done|]. destruct (Z.eqb_spec (bi_Z m mod n) 0) as [|Hm]; [done|].
  intros [= <- <-]. rewrite !bi_mod_spec by lia. fold x. split_and!; try done; try lia.
  unfold m. rewrite cong_mod, bi_multiply_spec, bi_add_spec, bi_multiply_spec, bi_mod_spec, Z.mul_assoc by lia.
  by rewrite modInverse_cong, Z.mul_1_l.
Qed.

Lemma verify_eq hash sig Q : blen hash = 32 → 0 < bi_Z (sig_r sig) < n → 0 < bi_Z (sig_s sig) < n →
  ∃ R, ec_dl R ≡ bi_Z (bi_modInverse (sig_s sig) ec_n) * (bi_Z (bi_fromBuffer hash) + ec_dl Q * bi_Z (sig_r sig)) ∧
    verify hash sig Q = Ok (negb (ec_dl R =? 0) && (bi_Z (pt_affineX R) mod n =? bi_Z (sig_r sig))).
Proof.
  intros Hh Hr Hs. pose proof ec_n_odd. unfold verify, Hash256bit. rewrite (proj2 (tf_BufferN_spec _ _)) by done.
  cbn [guard_js mbind result_bind]. rewrite !signum_le, !compare_ge.
  rewrite !(proj2 (Z.leb_gt _ _)) by lia. cbn [orb].
  set (sInv := bi_modInverse _ _). set (u1 := bi_mod (bi_multiply (bi_fromBuffer hash) sInv) ec_n).
  set (u2 := bi_mod (bi_multiply (sig_r sig) sInv) ec_n). set (R := pt_multiplyTwo _ _ _ _).
  assert (0 <= bi_Z u1 ∧ 0 <= bi_Z u2) as [??].
  { unfold u1, u2. rewrite !bi_mod_spec by lia. split; apply Z.mod_pos_bound; lia. }
  exists R. split.
  - unfold R. rewrite dl_multiplyTwo, cong_mod, dl_G by done. unfold u1, u2.
    rewrite !bi_mod_spec, !cong_mod, !bi_multiply_spec by lia. unfold cong. f_equal. lia.
  - destruct (ec_isInfinity R) eqn:E.
    + apply dl_infinity in E. by rewrite E.
    + rewrite (proj2 (Z.eqb_neq (ec_dl R) 0)) by (intros F; apply dl_infinity in F; congruence). cbn [negb andb].
      f_equal. apply eq_bool_prop_intro. rewrite !Is_true_true, bi_equals_spec, bi_mod_spec, Z.eqb_eq; [done|lia].
Qed.

(** A point that is the nonce's or its opposite has the nonce's [r]. *)
Lemma affineX_pm R k : 0 < bi_Z k < n → ec_dl R ≡ bi_Z k ∨ ec_dl R ≡ - bi_Z k →
  ec_dl R ≠ 0 ∧ bi_Z (pt_affineX R) = bi_Z (pt_affineX (pt_multiply ec_G k)).
Proof.
  intros Hk HR. pose proof (dl_range R). pose proof (dl_generator k Hk) as Ek.
  destruct HR as [HR|HR].
  - apply cong_small in HR; [|lia|lia]. split; [lia|]. apply affineX_eq. lia.
  - rewrite <- cong_modulus in HR. apply cong_small in HR; [|lia|lia]. split; [lia|].
    apply affineX_opp; lia.
Qed.

Lemma verify_accepts hash d k r s s0 Q :
  blen hash = 32 → 0 < bi_Z k < n → ec_dl Q = bi_Z d → 0 < bi_Z s < n → 
  checkSig (bi_fromBuffer hash) d k = Some (r, s0) →
  bi_Z s ≡ bi_Z s0 ∨ bi_Z s ≡ - bi_Z s0 →
  verify hash (mkSig r s) Q = Ok true.
Proof.
  intros Hh Hk HQ Hs Hc Hpm. apply checkSig_spec in Hc as (Er & Hr & Hs0 & E); [|done].
  destruct (verify_eq hash (mkSig r s) Q Hh Hr Hs) as (R & ER & ->). cbn [sig_r sig_s] in *.
  rewrite HQ, <- E in ER. pose proof (modInverse_cong s Hs) as Ei. set (si := bi_Z (bi_modInverse s ec_n)) in *.
  assert (bi_Z s * si * bi_Z k ≡ bi_Z k) as F by (by rewrite Ei, Z.mul_1_l).
  destruct (affineX_pm R k Hk) as [Hz EX].
  { destruct Hpm as [P|P]; [left|right].
    - transitivity (bi_Z s * si * bi_Z k); [|exact F]. rewrite ER, P. unfold cong. f_equal. lia.
    - transitivity (- (bi_Z s * si * bi_Z k)); [|by rewrite F]. rewrite ER, P. unfold cong. f_equal. lia. }
  rewrite (proj2 (Z.eqb_neq _ _) Hz), EX, Er, Z.eqb_refl. done.
Qed.

Lemma lowS_spec s : 0 < bi_Z s < n →
  let s' := if bi_compareTo s N_OVER_TWO >? 0 then bi_subtract ec_n s else s in
  0 < bi_Z s' ∧ 2 * bi_Z s' <= n ∧ (bi_Z s' ≡ bi_Z s ∨ bi_Z s' ≡ - bi_Z s).
Proof.
  intros Hs. rewrite compare_gt. unfold N_OVER_TWO. rewrite bi_shiftRight_spec by lia. change (2 ^ 1) with 2.
  pose proof (Z_div_mod_eq_full n 2). pose proof (Z.mod_pos_bound n 2 eq_refl).
  destruct (Z.ltb_spec (n / 2) (bi_Z s)); cbn zeta; [|split_and!; [lia|lia|by left]].
  rewrite bi_subtract_spec. split_and!; [lia|lia|right; apply cong_modulus].
Qed.

(** What [sign] returns is in range, low, and verified, however it was found. *)
Lemma sign_sound fuel hash d sig : blen hash = 32 → 0 < bi_Z d < n → sign fuel hash d = Ok sig →
  0 < bi_Z (sig_r sig) < n ∧ 0 < bi_Z (sig_s sig) ∧ 2 * bi_Z (sig_s sig) <= n ∧
  ∀ Q, ec_dl Q = bi_Z d → verify hash sig Q = Ok true.
Proof.
  intros Hh Hd E. pose proof ec_n_256. unfold sign in E. apply guard_ok in E as [_ E].
  rewrite generateK_eq in E; [|done|rewrite bi_toBuffer_spec by lia; by rewrite blen_be_bytes|done].
  apply bind_ok in E as ([T [r s]] & Es & E). injection E as <-.
  apply search_inv, accept_spec in Es as [Hk Hc]. pose proof Hc as Hc'. apply checkSig_spec in Hc' as (_ & Hr & Hs & _); [|done].
  pose proof (lowS_spec s Hs) as (L1 & L2 & L3). cbn [sig_r sig_s]. split_and!; [lia|lia|lia|lia|].
  intros Q HQ. apply (verify_accepts _ d T r _ s); try done. lia.
Qed.

(** C23: ECDSA is correct.  For a private key in range, as soon as one of the
    first [fuel] candidates of the RFC 6979 generator is acceptable, [sign]
    returns a signature: it uses the first acceptable candidate, its [r] and [s]
    are in range, its [s] is not above half the order (BIP 62), and [verify]
    accepts it for every point that is the public key. *)
Theorem ecdsa_correct fuel hash d Q j :
  blen hash = 32 → 0 < bi_Z d < n → ec_dl Q = bi_Z d → (j < fuel)%nat →
  let kv := init hash (bi_toBuffer d 32) None in
  is_Some (accept (checkSig (bi_fromBuffer hash) d) (candidate kv j)) →
  ∃ i sig, (i <= j)%nat ∧ sign fuel hash d = Ok sig ∧
    bi_Z (sig_r sig) = bi_Z (pt_affineX (pt_multiply ec_G (candidate kv i))) mod n ∧
    (∀ l, (l < i)%nat → accept (checkSig (bi_fromBuffer hash) d) (candidate kv l) = None) ∧
    0 < bi_Z (sig_r sig) < n ∧ 0 < bi_Z (sig_s sig) ∧ 2 * bi_Z (sig_s sig) <= n ∧
    verify hash sig Q = Ok true.
Proof.
  intros Hh Hd HQ Hj kv Ha. pose proof ec_n_256.
  destruct (search_returns _ _ _ _ Hj Ha) as (i & [r s] & Hi & Hn & Hs & E).
  apply accept_spec in Hs as [Hk Hc]. pose proof Hc as Hc'. apply checkSig_spec in Hc' as (Er & Hr & Hs & _); [|done].
  pose proof (lowS_spec s Hs) as (L1 & L2 & L3).
  exists i. eexists. split; [done|]. split.
  { unfold sign, Hash256bit. rewrite (proj2 (tf_BufferN_spec _ _)) by done. cbn [guard_js mbind result_bind].
    rewrite generateK_eq; [fold kv; by rewrite E|done| |done].
    rewrite bi_toBuffer_spec by lia. by rewrite blen_be_bytes. }
  cbn [sig_r sig_s]. split_and!; [done|done|lia..|]. apply (verify_accepts _ d (candidate kv i) r _ s); try done. lia.
Qed.

End S.
End ECDSA.

Module Schnorr.
Import RFC6979.
Section S.
Context `{TF : !Typeforce} `{BI : !Bigi} `{EC : !Ecurve} `{HM : !CreateHmac} `{CH : !CreateHash}.

Definition jacobi (a p : bi) : Z :=
  bi_intValue (bi_modPow a (bi_divide (bi_subtract p (bi_valueOf 1)) (bi_valueOf 2)) p).

Definition toCompressedPoint (P : point) : buffer :=
  [if bi_isEven (pt_affineY P) then 0x02 else 0x03] ++ bi_toBuffer (pt_affineX P) 32.

Definition fromCompressedPoint (b : buffer) : result point :=
  _ ← guard_js (tf_BufferN 33 b) TypeforceError;
  if negb (blen b =? 33) then Throw (Error "Invalid length of buffer")
  else
    let first := b !! 0%nat in
    if negb (bool_decide (first = Some 0x2)) && negb (bool_decide (first = Some 0x3))
    then Throw (Error "Invalid signum byte")
    else
      let isOdd := bool_decide (first = Some 0x3) in
      let x := bi_fromBuffer (slice b 1 33) in
      ec_pointFromX isOdd x.

(** [signWithK]: the values it leaves in [r] and [s]; it accepts every nonce. *)
Definition signWithK (h : buffer) (x : bi) (P : point) (k : bi) : bi * bi :=
  let R := pt_multiply ec_G k in
  let flip := negb (jacobi (pt_affineY R) ec_p =? 1) in
  let k := if flip then bi_subtract ec_n k else k in
  let R := if flip then pt_multiply ec_G k else R in
  let r := bi_mod (pt_affineX R) ec_n in
  let BP := toCompressedPoint P in
  let Br := bi_toBuffer r 32 in
  let eh := Crypto.sha256 (Br ++ BP ++ h) in
  let e := bi_mod (bi_fromBuffer eh) ec_n in
  let s := bi_mod (bi_add k (bi_multiply e x)) ec_n in
  (r, s).

(** The bytes of [Schnorr+SHA256] and two spaces. *)
Definition algo16 : buffer :=
  [0x53; 0x63; 0x68; 0x6e; 0x6f; 0x72; 0x72; 0x2b; 0x53; 0x48; 0x41; 0x32; 0x35; 0x36; 0x20; 0x20].

Definition sign (USE_RFC6979 : bool) (fuel : nat) (h : buffer) (x : bi) : result ecsig :=
  _ ← guard_js (tf_BufferN 32 h) TypeforceError;
  if (bi_compareTo x (bi_valueOf 0) <=? 0) || (bi_compareTo x ec_n >=? 0)
  then Throw (Error "Private key x not in range")
  else
    let P := pt_multiply ec_G x in
    if USE_RFC6979 then
      '(_, (r, s)) ← deterministicGenerateK (λ k, Some (signWithK h x P k)) fuel h (bi_toBuffer x 32) (Some algo16);
      Ok (mkSig r s)
    else
      let kh := Crypto.sha256 (bi_toBuffer x 32 ++ h) in
      let k := bi_mod (bi_fromBuffer kh) ec_n in
      let '(r, s) := signWithK h x P k in
      Ok (mkSig r s).

Definition verify (h : buffer) (signature : ecsig) (P : point) : result bool :=
  _ ← guard_js (tf_BufferN 32 h) TypeforceError;
  let r := sig_r signature in
  let s := sig_s signature in
  if negb (ec_isOnCurve P) then Ok false
  else if ec_isInfinity P then Ok false
  else if bi_compareTo r ec_p >=? 0 then Ok false
  else if bi_compareTo s ec_n >=? 0 then Ok false
  else
    let BP := toCompressedPoint P in
    let Br := bi_toBuffer r 32 in
    let h := Crypto.sha256 (Br ++ BP ++ h) in
    let e := bi_mod (bi_fromBuffer h) ec_n in
    let R := pt_add (pt_multiply ec_G s) (pt_multiply P (bi_subtract ec_n e)) in
    if ec_isInfinity R then Ok false
    else if negb (bi_compareTo (pt_affineX R) r =? 0) then Ok false
    else if negb (jacobi (pt_affineY R) ec_p =? 1) then Ok false
    else Ok true.

(** ** Laws *)
Context `{BS : !BigiSpec} `{ES : !EcurveSpec} `{HS : !CreateHmacSpec} `{TS : !TypeforceSpec} `{CS : !CreateHashSpec}.
Local Abbreviation n := (bi_Z ec_n).
Local Abbreviation p := (bi_Z ec_p).

(** Euler's criterion: the power is 1 or -1 modulo the prime. *)
Definition euler (a : Z) : Z := a ^ ((p - 1) / 2) mod p.

Lemma half_p : p - 1 = 2 * ((p - 1) / 2) ∧ Z.odd ((p - 1) / 2) = true.
Proof.
  pose proof ec_p_3mod4 as H4. pose proof (Z_div_mod_eq_full p 4) as E. rewrite H4 in E.
  replace (p - 1) with ((2 * (p / 4) + 1) * 2) by lia. rewrite Z.div_mul by lia.
  split; [lia|]. by rewrite Z.add_comm, Z.odd_add_mul_2.
Qed.

Lemma euler_pm a : 0 < a < p → euler a = 1 ∨ euler a = p - 1.
Proof.
  intros Ha. pose proof (ec_p_fermat a Ha) as F. destruct half_p as [E _]. pose proof ec_p_256.
  rewrite E, Z.mul_comm, Z.pow_mul_r, Z.pow_2_r in F by lia.
  rewrite Zmult_mod in F. fold (euler a) in F. set (z := euler a) in *.
  assert (0 <= z < p) by (apply Z.mod_pos_bound; lia).
  assert (p | (z - 1) * (z + 1)) as D.
  { exists (z * z / p). pose proof (Z_div_mod_eq_full (z * z) p). lia. }
  apply Z.divide_prime_mul in D as [[q D]|[q D]]; [| |apply ec_p_prime].
  - left. assert (q = 0) by nia. lia.
  - right. assert (q = 1) by nia. lia.
Qed.

Lemma euler_opp a : 0 < a < p → euler (p - a) = (- euler a) mod p.
Proof.
  intros Ha. unfold euler. destruct half_p as [_ O]. pose proof ec_p_256.
  change (cong p ((p - a) ^ ((p - 1) / 2)) (- (a ^ ((p - 1) / 2) mod p))). rewrite cong_mod.
  transitivity ((- a) ^ ((p - 1) / 2)).
  - unfold cong. rewrite <- (Z.mod_pow_l (p - a)), <- (Z.mod_pow_l (- a)).
    do 2 f_equal. apply cong_modulus.
  - rewrite Z.pow_opp_odd; [reflexivity|by apply Z.odd_spec].
Qed.

Lemma jacobi_spec a : 0 < bi_Z a < p → (jacobi a ec_p =? 1) = (euler (bi_Z a) =? 1).
Proof.
  intros Ha. pose proof ec_p_256. unfold jacobi. set (e := bi_divide _ _).
  assert (Ee : bi_Z e = (p - 1) / 2).
  { unfold e. by rewrite bi_divide_spec, bi_subtract_spec, !bi_valueOf_spec
      by (rewrite ?bi_subtract_spec, !bi_valueOf_spec; lia). }
  assert (0 <= bi_Z e) by (rewrite Ee; apply Z.div_pos; lia).
  rewrite bi_intValue_spec, bi_modPow_spec, Ee by lia. fold (euler (bi_Z a)).
  destruct (euler_pm _ Ha) as [->| ->]; [done|].
  rewrite (proj2 (Z.eqb_neq (p - 1) 1)) by lia. apply Z.eqb_neq. intros E.
  pose proof (to_int32_low_bits (p - 1) 1 ltac:(lia)) as M. rewrite E in M. change (2 ^ 1) with 2 in M.
  destruct half_p as [H2 _]. by rewrite H2, Z.mul_comm, Z.mod_mul in M.
Qed.

(** One of a point and its opposite has a [y] with symbol 1. *)
Lemma euler_flip a : 0 < a < p → euler a ≠ 1 → euler (p - a) = 1.
Proof.
  intros Ha Hn. rewrite euler_opp by done. destruct (euler_pm a Ha) as [| ->]; [done|].
  pose proof ec_p_256. pose proof (cong_modulus p (p - 1)) as E. unfold cong in E. rewrite <- E.
  rewrite Z.mod_small; lia.
Qed.

(** The hash [e] of the signature, as an integer. *)
Definition challenge (r : bi) (P : point) (h : buffer) : Z :=
  bi_Z (bi_mod (bi_fromBuffer (Crypto.sha256 (bi_toBuffer r 32 ++ toCompressedPoint P ++ h))) ec_n).

Lemma challenge_range r P h : 0 <= challenge r P h < n.
Proof. pose proof ec_n_odd. unfold challenge. rewrite bi_mod_spec by lia. apply Z.mod_pos_bound. lia. Qed.

Lemma toCompressedPoint_eq P Q : ec_dl P ≠ 0 → ec_dl P = ec_dl Q → toCompressedPoint P = toCompressedPoint Q.
Proof.
  intros Hz E. unfold toCompressedPoint. pose proof ec_p_256.
  pose proof (affineX_range P Hz) as RP. opose proof* (affineX_range Q) as RQ; [lia|].
  rewrite !bi_isEven_spec, (affineY_eq P Q E), !bi_toBuffer_spec, (affineX_eq P Q E) by lia. done.
Qed.

(** The nonce [signWithK] settles on. *)
Definition nonce (k : bi) : bi :=
  if negb (jacobi (pt_affineY (pt_multiply ec_G k)) ec_p =? 1) then bi_subtract ec_n k else k.

Lemma nonce_spec k : 0 < bi_Z k < n →
  0 < bi_Z (nonce k) < n ∧ jacobi (pt_affineY (pt_multiply ec_G (nonce k))) ec_p = 1.
Proof.
  intros Hk. unfold nonce. set (R := pt_multiply ec_G k). pose proof (ECDSA.dl_generator k Hk) as ER.
  fold R in ER. opose proof* (affineY_range R) as YR; [lia|].
  destruct (Z.eqb_spec (jacobi (pt_affineY R) ec_p) 1) as [J|J]; cbn [negb]; [done|].
  set (k' := bi_subtract ec_n k). assert (Ek : bi_Z k' = n - bi_Z k) by apply bi_subtract_spec.
  split; [lia|]. opose proof* (ECDSA.dl_generator k') as ER'; [lia|].
  opose proof* (affineY_range (pt_multiply ec_G k')) as YR'; [lia|].
  apply Z.eqb_eq. rewrite jacobi_spec by done. rewrite (affineY_opp (pt_multiply ec_G k') R) by lia.
  apply Z.eqb_eq, euler_flip; [done|]. intros F. apply J, Z.eqb_eq. rewrite jacobi_spec by done. by apply Z.eqb_eq.
Qed.

Lemma signWithK_spec h x P k : signWithK h x P k =
  let r := bi_mod (pt_affineX (pt_multiply ec_G (nonce k))) ec_n in
  (r, bi_mod (bi_add (nonce k)
    (bi_multiply (bi_mod (bi_fromBuffer (Crypto.sha256 (bi_toBuffer r 32 ++ toCompressedPoint P ++ h))) ec_n) x)) ec_n).
Proof. unfold signWithK, nonce. by destruct (negb _). Qed.

(** The point [verify] computes is the nonce's. *)
Lemma verify_point k x e s P : 0 < bi_Z k < n → 0 <= bi_Z s → 0 <= bi_Z e < n →
  cong n (bi_Z s) (bi_Z k + bi_Z e * bi_Z x) → ec_dl P = bi_Z x →
  ec_dl (pt_add (pt_multiply ec_G s) (pt_multiply P (bi_subtract ec_n e))) = bi_Z k.
Proof.
  intros Hk Hs He Es EP. pose proof ec_n_odd. apply (cong_small n); [apply dl_range|lia|].
  rewrite dl_add, cong_mod, !dl_multiply, !cong_mod, dl_G, EP, Z.mul_1_l, bi_subtract_spec, Es, cong_modulus by
    (rewrite ?bi_subtract_spec; lia).
  unfold cong. f_equal. lia.
Qed.

(** [verify] of what an accepted nonce gives, on every point that is the key. *)
Lemma verify_signed h x k Q : blen h = 32 → 0 < bi_Z x < n → ec_dl Q = bi_Z x → 0 < bi_Z k < n →
  let '(r, s) := signWithK h x (pt_multiply ec_G x) k in
  verify h (mkSig r s) Q = Ok (bi_Z (pt_affineX (pt_multiply ec_G (nonce k))) <? n).
Proof.
  intros Hh Hx HQ Hk. rewrite signWithK_spec. destruct (nonce_spec k Hk) as [Hk' J].
  pose proof ec_n_odd. set (R := pt_multiply ec_G (nonce k)) in *. pose proof (ECDSA.dl_generator _ Hk') as ER. fold R in ER.
  pose proof (ECDSA.dl_generator _ Hx) as EP.
  rewrite (toCompressedPoint_eq (pt_multiply ec_G x) Q) by lia. cbn zeta.
  set (r := bi_mod (pt_affineX R) ec_n). set (e := bi_mod (bi_fromBuffer _) ec_n). set (s := bi_mod _ ec_n).
  opose proof* (affineX_range R) as RX; [lia|].
  assert (Er : bi_Z r = bi_Z (pt_affineX R) mod n) by (apply bi_mod_spec; lia).
  assert (Lr : bi_Z (pt_affineX R) mod n <= bi_Z (pt_affineX R)) by (apply Z.mod_le; lia).
  assert (Es : bi_Z s = (bi_Z (nonce k) + bi_Z e * bi_Z x) mod n)
    by (unfold s; rewrite bi_mod_spec, bi_add_spec, bi_multiply_spec by lia; done).
  assert (Rs : 0 <= bi_Z s < n) by (rewrite Es; apply Z.mod_pos_bound; lia).
  assert (Re : 0 <= bi_Z e < n) by (unfold e; rewrite bi_mod_spec by lia; apply Z.mod_pos_bound; lia).
  opose proof* (verify_point (nonce k) x e s Q) as D; [done|lia|done|rewrite Es; apply cong_mod|done|].
  unfold verify. cbn [sig_r sig_s]. fold e. set (R' := pt_add _ _) in *.
  rewrite (proj2 (tf_BufferN_spec _ _)) by done. cbn [guard_js mbind result_bind].
  rewrite isOnCurve_spec. cbn [negb].
  assert (I : ∀ P, ec_dl P ≠ 0 → ec_isInfinity P = false)
    by (intros P HP; destruct (ec_isInfinity P) eqn:E; [by apply dl_infinity in E|done]).
  rewrite !I, !compare_ge, !(proj2 (Z.leb_gt _ _)) by lia.
  opose proof* (affineX_eq R' R) as EX; [lia|]. opose proof* (affineY_eq R' R) as EY; [lia|].
  opose proof* (affineY_range R) as RY; [lia|].
  assert ((jacobi (pt_affineY R') ec_p =? 1) = true) as ->.
  { rewrite jacobi_spec, EY, <- jacobi_spec, J by lia. done. }
  assert ((bi_compareTo (pt_affineX R') r =? 0) = (bi_Z (pt_affineX R) <? n)) as ->; [|by destruct (_ <? n)].
  pose proof (bi_compareTo_spec (pt_affineX R') r). assert (bi_Z (pt_affineX R) mod n < n) by (apply Z.mod_pos_bound; lia).
  destruct (Z.ltb_spec (bi_Z (pt_affineX R)) n); [rewrite Z.mod_small in Er by lia|];
    [apply Z.eqb_eq|apply Z.eqb_neq]; lia.
Qed.

(** C24: Schnorr signatures are correct.  For a private key in range, as soon as
    one of the first [fuel] candidates is in range, [sign] returns a signature,
    made with the first such candidate or its opposite, whichever has a point
    with symbol 1, and [verify] accepts it for every point that is the public key
    exactly when the [x] of that point is below the order of the group.  ([sign]
    reduces [x] modulo the order, [verify] compares it unreduced.) *)
Theorem schnorr_correct fuel h x Q j :
  blen h = 32 → 0 < bi_Z x < n → ec_dl Q = bi_Z x → (j < fuel)%nat →
  let kv := init h (bi_toBuffer x 32) (Some algo16) in
  0 < bi_Z (candidate kv j) < n →
  ∃ i sig, (i <= j)%nat ∧ 0 < bi_Z (candidate kv i) < n ∧
    (∀ l, (l < i)%nat → ¬ 0 < bi_Z (candidate kv l) < n) ∧
    sign true fuel h x = Ok sig ∧
    verify h sig Q = Ok (bi_Z (pt_affineX (pt_multiply ec_G (nonce (candidate kv i)))) <? n).
Proof.
  intros Hh Hx HQ Hj kv Ha. pose proof ec_n_256.
  set (check := λ k, Some (signWithK h x (pt_multiply ec_G x) k)).
  destruct (search_returns check _ kv _ Hj) as (i & [r s] & Hi & Hn & Hs & E).
  { eexists. apply accept_spec. done. }
  apply accept_spec in Hs as [Hk Hc]. unfold check in Hc.
  exists i, (mkSig r s). split_and!; [done|lia|lia| | |].
  - intros l Hl F. specialize (Hn l Hl). by rewrite (proj2 (accept_spec check _ _) (conj F eq_refl)) in Hn.
  - unfold sign. rewrite (proj2 (tf_BufferN_spec _ _)) by done. cbn [guard_js mbind result_bind].
    rewrite compare_le, compare_ge, bi_valueOf_spec, !(proj2 (Z.leb_gt _ _)) by lia. cbn [orb].
    rewrite generateK_eq; [fold kv check; by rewrite E|done| |done].
    rewrite bi_toBuffer_spec by lia. by rewrite blen_be_bytes.
  - pose proof (verify_signed h x _ Q Hh Hx HQ Hk) as V.
    assert (signWithK h x (pt_multiply ec_G x) (candidate kv i) = (r, s)) as F by congruence. by rewrite F in V.
Qed.

End S.
End Schnorr.

Section Examples.
Import Concrete ConcreteCurve.

Lemma ecdsa_correct_witness : ∃ sig, ECDSA.sign 5 (repeat 3 32) (bi_valueOf 2) = Ok sig ∧
  ECDSA.verify (repeat 3 32) sig (pt_multiply ec_G (bi_valueOf 2)) = Ok true.
Proof.
  destruct (ECDSA.ecdsa_correct 5 (repeat 3 32) (bi_valueOf 2) (pt_multiply ec_G (bi_valueOf 2)) 2)
    as (i & sig & _ & E & _ & _ & _ & _ & _ & V).
  - reflexivity.
  - split; reflexivity.
  - apply ECDSA.dl_generator; split; reflexivity.
  - lia.
  - vm_compute. eexists. reflexivity.
  - exists sig. split; [exact E|exact V].
Defined.

Lemma schnorr_correct_witness : ∃ i sig, (i <= 2)%nat ∧ Schnorr.sign true 5 (repeat 3 32) (bi_valueOf 2) = Ok sig ∧
  Schnorr.verify (repeat 3 32) sig (pt_multiply ec_G (bi_valueOf 2)) = Ok true.
Proof.
  destruct (Schnorr.schnorr_correct 5 (repeat 3 32) (bi_valueOf 2) (pt_multiply ec_G (bi_valueOf 2)) 2)
    as (i & sig & Hi & _ & _ & E & V).
  - reflexivity.
  - split; reflexivity.
  - apply ECDSA.dl_generator; split; reflexivity.
  - lia.
  - vm_compute. split; reflexivity.
  - exists i, sig. split; [exact Hi|]. split; [exact E|]. rewrite V. f_equal. apply Z.ltb_lt, Z.mod_pos_bound. reflexivity.
Defined.

End Examples.
