(* ===== verification/Encodings.v ===== *)
(** * Packages for text encodings

    [bs58check], [bech32] and [wif] are npm packages outside the repository.
    They are operational classes with the laws their documentation gives: what is
    encoded decodes, how long the text is, which arguments are refused.  The last
    section has concrete instances with other alphabets and the same laws. *)

From stdpp Require Import base tactics list numbers strings.
From Stdlib Require Import Ascii.
From S2P Require Import Prelude JsNumber NodeBuffer.
Open Scope Z_scope.

(** [s.length] *)
Definition strlen (s : string) : Z := Z.of_nat (String.length s).

(** ** bs58check: base 58 with a 4-byte checksum *)
Class Bs58check := {
  bs58_encode : buffer → string;
  bs58_decode : string → result buffer;
}.
Class Bs58checkSpec `{!Bs58check} : Prop := {
  bs58_roundtrip b : bytes_ok b → bs58_decode (bs58_encode b) = Ok b;
  bs58_decode_ok s b : bs58_decode s = Ok b → bytes_ok b;
  (** a byte, with the 4 of the checksum, takes fewer than 1.38 characters *)
  bs58_length s b : bs58_decode s = Ok b → 100 * strlen s <= 138 * (blen b + 4) + 100;
}.

(** ** bech32 *)
Class Bech32 := {
  bech_toWords : buffer → list Z;
  bech_fromWords : list Z → result buffer;
  bech_encode : string → list Z → result string;
  bech_decode : string → result (string * list Z);
}.

Definition is_word (w : Z) : Prop := 0 <= w < 32.

(** A prefix in lower case of printable characters. *)
Definition prefix_char (c : ascii) : bool :=
  let n := Z.of_N (N_of_ascii c) in (33 <=? n) && (n <=? 126) && negb ((65 <=? n) && (n <=? 90)).
Definition prefix_ok (p : string) : bool :=
  negb (String.eqb p EmptyString) && forallb prefix_char (String.list_ascii_of_string p).

Class Bech32Spec `{!Bech32} : Prop := {
  bech_words_roundtrip d : bytes_ok d → bech_fromWords (bech_toWords d) = Ok d;
  bech_words_ok d : bytes_ok d → Forall is_word (bech_toWords d);
  bech_words_length d : len (bech_toWords d) = (8 * blen d + 4) / 5;
  bech_roundtrip p ws : prefix_ok p = true → Forall is_word ws → strlen p + len ws + 7 <= 90 →
    ∃ s, bech_encode p ws = Ok s ∧ bech_decode s = Ok (p, ws) ∧ strlen s = strlen p + len ws + 7;
}.

(** ** wif: the text form of a private key *)
Class Wif := {
  wif_encode : Z → buffer → bool → result string;
  (** version, private key and the flag of the compressed public key *)
  wif_decode : string → result (Z * buffer * bool);
}.
Class WifSpec `{!Wif} : Prop := {
  wif_roundtrip v d c : is_byte v → bytes_ok d → blen d = 32 →
    ∃ s, wif_encode v d c = Ok s ∧ wif_decode s = Ok (v, d, c);
}.

(** ** Concrete instances *)
Module ConcreteText.

Definition chr (b : Z) : ascii := ascii_of_N (Z.to_N b).
Definition ord (c : ascii) : Z := Z.of_N (N_of_ascii c).
Definition text (bs : buffer) : string := String.string_of_list_ascii (map chr bs).
Definition codes (s : string) : buffer := map ord (String.list_ascii_of_string s).

Lemma ord_chr b : is_byte b → ord (chr b) = b.
Proof. unfold is_byte, ord, chr. intros Hb. rewrite N_ascii_embedding by lia. lia. Qed.

Lemma chr_ord c : chr (ord c) = c.
Proof. unfold ord, chr. by rewrite N2Z.id, ascii_N_embedding. Qed.

Lemma codes_text bs : bytes_ok bs → codes (text bs) = bs.
Proof.
  intros H. unfold codes, text. rewrite String.list_ascii_of_string_of_list_ascii, map_map.
  induction H as [|b bs Hb _ IH]; [done|]. cbn. by rewrite ord_chr, IH.
Qed.

Lemma text_codes s : text (codes s) = s.
Proof.
  unfold codes, text. rewrite map_map, (map_ext _ id), map_id by apply chr_ord.
  apply String.string_of_list_ascii_of_string.
Qed.

Lemma codes_ok s : bytes_ok (codes s).
Proof.
  unfold codes. apply Forall_forall. intros b Hb. apply list_elem_of_In, in_map_iff in Hb as (c & <- & _).
  unfold is_byte, ord. pose proof (N_ascii_bounded c). lia.
Qed.

Lemma strlen_codes s : strlen s = blen (codes s).
Proof.
  unfold strlen, blen, codes. rewrite length_map. f_equal.
  induction s as [|c s IH]; [done|]. cbn. by rewrite IH.
Qed.

(** One character a byte, after a constant for the checksum. *)
#[export] Instance bs58check : Bs58check := {
  bs58_encode b := text (33 :: 33 :: 33 :: 33 :: b);
  bs58_decode s :=
    match codes s with
    | 33 :: 33 :: 33 :: 33 :: b => Ok b
    | _ => Throw (Error "Invalid checksum")
    end;
}.

Lemma bs58_decode_inv s b : bs58_decode s = Ok b → codes s = 33 :: 33 :: 33 :: 33 :: b.
Proof. cbn. intros H. repeat (case_match; try discriminate H). by injection H as <-. Qed.

#[export] Instance bs58check_spec : Bs58checkSpec.
Proof.
  split.
  - intros b Hb. cbn [bs58_decode bs58_encode bs58check]. rewrite codes_text; [done|]. repeat (apply bytes_ok_cons; split; [unfold is_byte; lia|]). done.
  - intros s b H. apply bs58_decode_inv in H. pose proof (codes_ok s) as O. rewrite H in O.
    by do 4 (apply bytes_ok_cons in O as [_ O]).
  - intros s b H. apply bs58_decode_inv in H. rewrite strlen_codes, H, !blen_cons.
    pose proof (blen_nonneg b). lia.
Qed.

(** Digits in base 32, the lowest first. *)
Fixpoint digits (k : nat) (v : Z) : list Z :=
  match k with O => [] | S k => v mod 32 :: digits k (v / 32) end.
Fixpoint undigits (ws : list Z) : Z :=
  match ws with [] => 0 | w :: ws => w + 32 * undigits ws end.

Lemma undigits_digits k v : 0 <= v < 32 ^ Z.of_nat k → undigits (digits k v) = v.
Proof.
  revert v. induction k as [|k IH]; intros v Hv; cbn [digits undigits]; [cbn in Hv; lia|].
  rewrite Nat2Z.inj_succ, Z.pow_succ_r in Hv by lia.
  rewrite IH; [pose proof (Z_div_mod_eq_full v 32); lia|].
  split; [apply Z.div_pos; lia|apply Z.div_lt_upper_bound; lia].
Qed.

Lemma length_digits k v : length (digits k v) = k.
Proof. revert v. induction k; intros v; cbn; [done|]. by rewrite IHk. Qed.

Lemma digits_ok k v : Forall is_word (digits k v).
Proof. revert v. induction k; intros v; cbn; constructor; [|done]. apply Z.mod_pos_bound. lia. Qed.

Definition words_for (n : Z) : Z := (8 * n + 4) / 5.

#[export] Instance bech32 : Bech32 := {
  bech_toWords d := digits (Z.to_nat (words_for (blen d))) (le_val d);
  bech_fromWords ws := Ok (le_bytes (Z.to_nat (5 * len ws / 8)) (undigits ws));
  bech_encode p ws :=
    if strlen p + len ws + 7 <=? 90 then Ok (text (strlen p :: codes p ++ ws ++ repeat 0 6))
    else Throw (TypeError "Exceeds length limit");
  bech_decode s :=
    match codes s with
    | n :: bs => Ok (text (slice bs 0 n), slice bs n (blen bs - 6))
    | [] => Throw (TypeError "too short")
    end;
}.

#[export] Instance bech32_spec : Bech32Spec.
Proof.
  assert (Hw : ∀ d, 0 <= words_for (blen d) ∧ 8 * blen d <= 5 * words_for (blen d) < 8 * blen d + 5).
  { intros d. pose proof (blen_nonneg d). unfold words_for. Z.to_euclidean_division_equations. lia. }
  split.
  - intros d Hd. cbn [bech_fromWords bech_toWords bech32]. unfold len. rewrite length_digits, Z2Nat.id by apply Hw. specialize (Hw d).
    pose proof (blen_nonneg d). set (w := words_for (blen d)) in *. replace (5 * w / 8) with (blen d) by (Z.to_euclidean_division_equations; lia).
    rewrite undigits_digits; [unfold blen; rewrite Nat2Z.id; by rewrite le_bytes_le_val|].
    pose proof (le_val_bound d Hd) as B. split; [lia|]. eapply Z.lt_le_trans; [apply B|].
    rewrite Z2Nat.id by lia. change 256 with (2 ^ 8). change 32 with (2 ^ 5).
    rewrite <- !Z.pow_mul_r by (pose proof (blen_nonneg d); lia). apply Z.pow_le_mono_r; lia.
  - intros d Hd. apply digits_ok.
  - intros d. cbn [bech_toWords bech32]. unfold len. rewrite length_digits, Z2Nat.id by apply Hw. done.
  - intros p ws Hp Hws Hl. cbn [bech_encode bech_decode bech32]. rewrite (proj2 (Z.leb_le _ _)) by done. eexists. split; [reflexivity|].
    assert (O : bytes_ok (strlen p :: codes p ++ ws ++ repeat 0 6)).
    { apply bytes_ok_cons. unfold is_byte, strlen in *. pose proof (len_nonneg ws). split; [lia|].
      apply bytes_ok_app. split; [apply codes_ok|]. apply bytes_ok_app. split; [|by repeat constructor].
      eapply Forall_impl; [exact Hws|]. unfold is_word, is_byte. lia. }
    rewrite !strlen_codes in *. rewrite codes_text by done. split.
    + rewrite !blen_app. pose proof (slice_app [] (codes p) (ws ++ repeat 0 6)) as E1.
      pose proof (slice_app (codes p) ws (repeat 0 6)) as E2. cbn [app] in E1. rewrite blen_nil, Z.add_0_l in E1.
      rewrite E1, text_codes. do 2 f_equal. change (blen (repeat 0 6)) with 6.
      replace (blen (codes p) + (blen ws + 6) - 6) with (blen (codes p) + blen ws) by lia. exact E2.
    + rewrite blen_cons, !blen_app. change (blen (repeat 0 6)) with 6. unfold len, blen. lia.
Qed.

#[export] Instance wif : Wif := {
  wif_encode v d c :=
    if blen d =? 32 then Ok (text (v :: (if c then 1 else 0) :: d)) else Throw (TypeError "Invalid privateKey length");
  wif_decode s :=
    match codes s with
    | v :: c :: d => Ok (v, d, c =? 1)
    | _ => Throw (Error "Invalid WIF length")
    end;
}.

#[export] Instance wif_spec : WifSpec.
Proof.
  split. intros v d c Hv Hd Hl. cbn [wif_encode wif_decode wif]. rewrite (proj2 (Z.eqb_eq _ _)) by done.
  eexists. split; [reflexivity|]. rewrite codes_text; [by destruct c|].
  apply bytes_ok_cons. split; [done|]. apply bytes_ok_cons. split; [|done]. destruct c; unfold is_byte; lia.
Qed.

End ConcreteText.
