(* ===== verification/JsString.v ===== *)
(** * Strings

    The methods of JavaScript strings that the wallet uses.  A string is the
    sequence of its characters; positions are integers, brought into range the
    way each method does. *)

From stdpp Require Import base tactics list numbers strings.
From Stdlib Require Import Ascii.
From S2P Require Import Prelude JsNumber NodeBuffer Asm Encodings.
Open Scope Z_scope.

(** ** Parts *)

Fixpoint str_take (n : nat) (s : string) : string :=
  match n, s with
  | S n, String c s => String c (str_take n s)
  | _, _ => EmptyString
  end.

Fixpoint str_drop (n : nat) (s : string) : string :=
  match n, s with
  | S n, String _ s => str_drop n s
  | _, _ => s
  end.

(** [s.substring(a, b)]: both ends are clamped to the string and then ordered. *)
Definition substring (s : string) (a b : Z) : string :=
  let clamp i := Z.max 0 (Z.min i (strlen s)) in
  let lo := Z.min (clamp a) (clamp b) in
  let hi := Z.max (clamp a) (clamp b) in
  str_take (Z.to_nat (hi - lo)) (str_drop (Z.to_nat lo) s).

(** [s.slice(a)]: a negative start counts from the end. *)
Definition str_slice (s : string) (a : Z) : string :=
  str_drop (Z.to_nat (if a <? 0 then strlen s + a else a)) s.

(** ** Search *)

Definition starts (p s : string) : bool := String.prefix p s.

(** [s.indexOf(p)] *)
Fixpoint indexOf (s p : string) : Z :=
  if starts p s then 0
  else match s with
       | EmptyString => -1
       | String _ s => let i := indexOf s p in if i <? 0 then -1 else 1 + i
       end.

(** [s.lastIndexOf(p)] *)
Fixpoint lastIndexOf (s p : string) : Z :=
  match s with
  | EmptyString => if starts p s then 0 else -1
  | String _ s' => let i := lastIndexOf s' p in if i <? 0 then if starts p s then 0 else -1 else 1 + i
  end.

(** [s.includes(p)] *)
Definition includes (s p : string) : bool := negb (indexOf s p <? 0).

(** [s.split(sep)] with a separator of one character *)
Fixpoint split_on (sep : ascii) (s : string) : list string :=
  match s with
  | EmptyString => [EmptyString]
  | String c s =>
      if bool_decide (c = sep) then EmptyString :: split_on sep s
      else
        match split_on sep s with
        | w :: ws => String c w :: ws
        | [] => [String c EmptyString]
        end
  end.

(** ** Characters *)

Definition code (c : ascii) : Z := Z.of_N (N_of_ascii c).

(** The white space of [trim] and [parseInt], as far as it is ASCII. *)
Definition is_space (c : ascii) : bool :=
  let n := code c in (n =? 32) || ((9 <=? n) && (n <=? 13)).

Fixpoint trim_left (s : string) : string :=
  match s with
  | String c s' => if is_space c then trim_left s' else s
  | EmptyString => EmptyString
  end.

Fixpoint trim_right (s : string) : string :=
  match s with
  | EmptyString => EmptyString
  | String c s =>
      match trim_right s with
      | EmptyString => if is_space c then EmptyString else String c EmptyString
      | s => String c s
      end
  end.

(** [s.trim()] *)
Definition trim (s : string) : string := trim_right (trim_left s).

Definition lower (c : ascii) : ascii :=
  let n := code c in if (65 <=? n) && (n <=? 90) then ascii_of_N (Z.to_N (n + 32)) else c.

(** [s.toLowerCase()] on the ASCII letters *)
Fixpoint toLowerCase (s : string) : string :=
  match s with
  | EmptyString => EmptyString
  | String c s => String (lower c) (toLowerCase s)
  end.

(** ** Numbers *)

(** The value of the longest prefix of digits, from the value [v] of those
    before; [None] when there is no digit at all. *)
Fixpoint digits_prefix (radix : Z) (v : option Z) (s : string) : option Z :=
  match s with
  | EmptyString => v
  | String c s =>
      match Hex.value c with
      | Some d => if d <? radix then digits_prefix radix (Some (default 0 v * radix + d)) s else v
      | None => v
      end
  end.

Definition sign_prefix (s : string) : Z * string :=
  match s with
  | String "-" s => (-1, s)
  | String "+" s => (1, s)
  | _ => (1, s)
  end.

(** In base 16 the digits may follow [0x]. *)
Definition strip_0x (radix : Z) (s : string) : string :=
  if radix =? 16 then
    match s with
    | String "0" (String c s') => if (code c =? 120) || (code c =? 88) then s' else s
    | _ => s
    end
  else s.

(** [parseInt(s, radix)] for radix 10 and 16; [None] is [NaN]. *)
Definition parseInt (s : string) (radix : Z) : option Z :=
  let '(sign, s) := sign_prefix (trim_left s) in
  Z.mul sign <$> digits_prefix radix None (strip_0x radix s).

(** ** Lemmas *)

#[local] Arguments String.append : simpl nomatch.

Lemma strlen_app s t : strlen (String.append s t) = strlen s + strlen t.
Proof.
  unfold strlen. rewrite <- Nat2Z.inj_add. f_equal. induction s as [|c s IH]; [done|]. cbn. by rewrite IH.
Qed.

Lemma append_assoc s t u : String.append (String.append s t) u = String.append s (String.append t u).
Proof. induction s as [|c s IH]; [done|]. cbn. by rewrite IH. Qed.

Lemma strlen_nonneg s : 0 <= strlen s.
Proof. unfold strlen. lia. Qed.

Lemma str_drop_app s t : str_drop (String.length s) (String.append s t) = t.
Proof. induction s as [|c s IH]; [by destruct t|done]. Qed.

Lemma str_take_app s t : str_take (String.length s) (String.append s t) = s.
Proof. induction s as [|c s IH]; [by destruct t|]. cbn. by rewrite IH. Qed.

Lemma str_take_all s n : (String.length s <= n)%nat → str_take n s = s.
Proof. revert n. induction s as [|c s IH]; intros [|n] H; cbn in *; try done; [lia|]. rewrite IH by lia. done. Qed.

Lemma length_str_drop n s : String.length (str_drop n s) = (String.length s - n)%nat.
Proof. revert n. induction s as [|c s IH]; intros [|n]; cbn; [done..|]. by rewrite IH. Qed.

Lemma strlen_drop n s : strlen (str_drop n s) = Z.max 0 (strlen s - Z.of_nat n).
Proof. unfold strlen. rewrite length_str_drop. lia. Qed.

Lemma substring_0 s n : 0 <= n → substring s 0 n = str_take (Z.to_nat n) s.
Proof.
  intros Hn. unfold substring. pose proof (strlen_nonneg s).
  replace (Z.min (Z.max 0 (Z.min 0 (strlen s))) (Z.max 0 (Z.min n (strlen s)))) with 0 by lia. replace (Z.to_nat 0) with O by done. cbn [str_drop].
  destruct (Z.le_gt_cases n (strlen s)).
  - by replace (Z.max _ _ - 0) with n by lia.
  - rewrite !str_take_all; [done|unfold strlen in *; lia..].
Qed.

Lemma substring_mid s a b : 0 <= a <= b → b <= strlen s →
  substring s a b = str_take (Z.to_nat (b - a)) (str_drop (Z.to_nat a) s).
Proof.
  intros H1 H2. unfold substring. replace (Z.max 0 (Z.min a (strlen s))) with a by lia.
  replace (Z.max 0 (Z.min b (strlen s))) with b by lia. by rewrite Z.min_l, Z.max_r by lia.
Qed.

Lemma str_slice_nat s n : 0 <= n → str_slice s n = str_drop (Z.to_nat n) s.
Proof. intros Hn. unfold str_slice. by rewrite (proj2 (Z.ltb_ge _ _)). Qed.

Lemma starts_app p s : starts p (String.append p s) = true.
Proof.
  unfold starts. induction p as [|c p IH]; [by destruct s|]. cbn. destruct (ascii_dec c c); [done|congruence].
Qed.

Lemma starts_inv p s : starts p s = true → ∃ t, s = String.append p t.
Proof.
  unfold starts. revert s. induction p as [|c p IH]; intros [|d s] H; cbn in H; try done; [by eexists..|].
  destruct (ascii_dec c d) as [->|]; [|done]. destruct (IH _ H) as [t ->]. by exists t.
Qed.

Lemma starts_str_take p s : str_take (String.length p) s = p ↔ starts p s = true.
Proof.
  unfold starts. revert s. induction p as [|c p IH]; intros s; [by destruct s|]. destruct s as [|d s]; [done|].
  cbn. destruct (ascii_dec c d) as [->|Hc].
  - rewrite <- IH. split; [by intros [= ->]|by intros ->].
  - split; [congruence|done].
Qed.

(** ** Hexadecimal text *)

Lemma toHex_app a b : Hex.toHex (a ++ b) = String.append (Hex.toHex a) (Hex.toHex b).
Proof. induction a as [|x a IH]; [done|]. cbn. by rewrite IH. Qed.

Lemma length_toHex b : String.length (Hex.toHex b) = (2 * length b)%nat.
Proof. induction b as [|x b IH]; [done|]. cbn [Hex.toHex String.length length]. rewrite IH. lia. Qed.

Lemma strlen_toHex b : strlen (Hex.toHex b) = 2 * blen b.
Proof. unfold strlen, blen. rewrite length_toHex. lia. Qed.

Lemma take_toHex a b n : n = (2 * length a)%nat → str_take n (Hex.toHex (a ++ b)) = Hex.toHex a.
Proof. intros ->. rewrite toHex_app, <- length_toHex. apply str_take_app. Qed.

Lemma drop_toHex a b n : n = (2 * length a)%nat → str_drop n (Hex.toHex (a ++ b)) = Hex.toHex b.
Proof. intros ->. rewrite toHex_app, <- length_toHex. apply str_drop_app. Qed.

Lemma toHex_inj a b : bytes_ok a → bytes_ok b → Hex.toHex a = Hex.toHex b → a = b.
Proof. intros Ha Hb E. by rewrite <- (Hex.fromHex_toHex a), <- (Hex.fromHex_toHex b), E. Qed.

(** The number that two digits of a byte stand for. *)
Lemma parseInt_byte x : is_byte x → parseInt (Hex.toHex [x]) 16 = Some x.
Proof.
  intros Hx. assert (In x (map Z.of_nat (seq 0 256))) as Hin.
  { apply in_map_iff. exists (Z.to_nat x). unfold is_byte in Hx. rewrite in_seq. lia. }
  assert (Hall : forallb (λ y, bool_decide (parseInt (Hex.toHex [y]) 16 = Some y)) (map Z.of_nat (seq 0 256)) = true)
    by (vm_compute; reflexivity).
  rewrite forallb_forall in Hall. exact (bool_decide_eq_true_1 _ (Hall x Hin)).
Qed.
