(* ===== verification/Utf8.v ===== *)
(** * Text of bytes

    [buffer.toString()] of Node: the bytes are read as UTF-8, and each maximal part
    that starts no character is replaced by U+FFFD.  A string is modelled by its
    UTF-8 bytes, so that the function goes from bytes to bytes. *)

From stdpp Require Import base tactics list numbers.
From S2P Require Import Prelude.
Open Scope Z_scope.

Module Utf8.

Definition replacement : list Z := [0xef; 0xbf; 0xbd].

Definition within (a b x : Z) : bool := (a <=? x) && (x <=? b).

(** The bytes that can follow a first byte, each as the bounds it is in. *)
Definition followers (b : Z) : option (list (Z * Z)) :=
  if within 0 0x7f b then Some []
  else if within 0xc2 0xdf b then Some [(0x80, 0xbf)]
  else if b =? 0xe0 then Some [(0xa0, 0xbf); (0x80, 0xbf)]
  else if b =? 0xed then Some [(0x80, 0x9f); (0x80, 0xbf)]
  else if within 0xe1 0xef b then Some [(0x80, 0xbf); (0x80, 0xbf)]
  else if b =? 0xf0 then Some [(0x90, 0xbf); (0x80, 0xbf); (0x80, 0xbf)]
  else if within 0xf1 0xf3 b then Some [(0x80, 0xbf); (0x80, 0xbf); (0x80, 0xbf)]
  else if b =? 0xf4 then Some [(0x80, 0x8f); (0x80, 0xbf); (0x80, 0xbf)]
  else None.

(** [seen]: the bytes of the character so far, [need]: those to come. *)
Fixpoint decode_from (seen : list Z) (need : list (Z * Z)) (bs : list Z) : list Z :=
  match bs with
  | [] => match need with [] => [] | _ => replacement end
  | b :: bs =>
      let start :=
        match followers b with
        | Some [] => b :: decode_from [] [] bs
        | Some need => decode_from [b] need bs
        | None => replacement ++ decode_from [] [] bs
        end in
      match need with
      | [] => start
      | (lo, hi) :: need =>
          if within lo hi b then
            match need with
            | [] => seen ++ [b] ++ decode_from [] [] bs
            | _ => decode_from (seen ++ [b]) need bs
            end
          else replacement ++ start
      end
  end.

Definition toString (bs : list Z) : list Z := decode_from [] [] bs.

(** ** Valid text *)

Definition fits (r : Z * Z) (x : Z) : Prop := within r.1 r.2 x = true.

(** The bytes of one character. *)
Definition character (cs : list Z) : Prop :=
  ∃ b need rest, cs = b :: rest ∧ followers b = Some need ∧ Forall2 fits need rest.

Inductive valid : list Z → Prop :=
| valid_nil : valid []
| valid_char cs bs : character cs → valid bs → valid (cs ++ bs).

Lemma replacement_character : character replacement.
Proof. eexists 0xef, _, _. split_and!; [reflexivity|reflexivity|]. repeat constructor. Qed.

Lemma decode_rest need rest : Forall2 fits need rest → ∀ seen bs, need ≠ [] →
  decode_from seen need (rest ++ bs) = seen ++ rest ++ toString bs.
Proof.
  induction 1 as [|[lo hi] x need rest Hx Hr IH]; intros seen bs Hn; [done|]. cbn [app decode_from].
  unfold fits in Hx. cbn [fst snd] in Hx. rewrite Hx. destruct need as [|r need].
  - apply Forall2_nil_inv_l in Hr as ->. done.
  - rewrite IH by done. by rewrite <- app_assoc.
Qed.

Lemma toString_char cs bs : character cs → toString (cs ++ bs) = cs ++ toString bs.
Proof.
  intros (b & need & rest & -> & Hf & Hr). unfold toString at 1. cbn [app decode_from]. rewrite Hf.
  destruct need as [|r need]; [apply Forall2_nil_inv_l in Hr as ->; done|]. by rewrite (decode_rest _ _ Hr [b]).
Qed.

Lemma toString_valid bs : valid bs → toString bs = bs.
Proof. induction 1 as [|cs bs Hc _ IH]; [done|]. by rewrite toString_char, IH. Qed.

(** What was read of a character, and what it still needs. *)
Definition partial (seen : list Z) (need : list (Z * Z)) : Prop :=
  need = [] ∨ ∀ rest, Forall2 fits need rest → character (seen ++ rest).

Lemma partial_start b need : followers b = Some need → partial [b] need.
Proof. intros Hf. right. intros rest Hr. by exists b, need, rest. Qed.

Lemma partial_step seen lo hi need b : partial seen ((lo, hi) :: need) → within lo hi b = true → need ≠ [] → partial (seen ++ [b]) need.
Proof.
  intros [H|H] Hb Hn; [done|]. right. intros rest Hr. rewrite <- app_assoc. apply H. by constructor.
Qed.

Lemma decode_from_valid bs : ∀ seen need, partial seen need → valid (decode_from seen need bs).
Proof.
  assert (Hempty : partial [] []) by by left.
  induction bs as [|b bs IH]; intros seen need Hp; cbn [decode_from].
  - destruct need; [constructor|]. rewrite <- (app_nil_r replacement). apply valid_char; [apply replacement_character|constructor].
  - set (start := match followers b with Some _ => _ | None => _ end).
    assert (Hs : valid start).
    { unfold start. destruct (followers b) as [[|r l]|] eqn:Ef.
      - apply (valid_char [b]); [|by apply IH]. exists b, [], []. by split_and!.
      - apply IH. by apply partial_start.
      - apply valid_char; [apply replacement_character|by apply IH]. }
    destruct need as [|[lo hi] need]; [done|]. destruct (within lo hi b) eqn:Eb.
    + destruct need as [|r need]; [|apply IH; by eapply partial_step].
      rewrite app_assoc. apply valid_char; [|by apply IH]. destruct Hp as [Hp|Hp]; [done|]. apply Hp. by repeat constructor.
    + apply valid_char; [apply replacement_character|done].
Qed.

(** The text is valid whatever the bytes are, and is that of the bytes when they
    are valid. *)
Lemma toString_spec bs : valid (toString bs) ∧ (valid bs → toString bs = bs).
Proof. split; [apply decode_from_valid; by left|apply toString_valid]. Qed.

End Utf8.
