(* ===== verification/JsDecimal.v ===== *)
(** * Numbers as text

    [Number(s)], [parseFloat(s)] and [toFixed] on the doubles of [JsFloat], and the query
    strings of [URLSearchParams].  A decimal is rounded once, to the nearest double. *)

From stdpp Require Import base tactics list numbers strings pretty.
From Stdlib Require Import Ascii SpecFloat.
From S2P Require Import Prelude JsNumber JsFloat NodeBuffer Asm Encodings JsString Utf8.
Open Scope Z_scope.

(** ** Rounding *)

(** The double next to [m * 10 ^ e], for [m] of [d] digits at most.  A quotient is
    computed to more bits than a double has; its last bit is set when there is a
    remainder. *)
Definition num_of_decimal (neg : bool) (m e d : Z) : number :=
  let signed z := if neg then - z else z in
  if m =? 0 then S754_zero neg
  else if 310 <? e then S754_infinity neg
  else if e + d <? -330 then S754_zero neg
  else if 0 <=? e then binary_normalize 53 1024 (signed (m * 10 ^ e)) 0 neg
  else
    let s := 64 + 4 * - e in
    let q := m * 2 ^ s / 10 ^ (- e) in
    let sticky := if m * 2 ^ s mod 10 ^ (- e) =? 0 then 0 else 1 in
    binary_normalize 53 1024 (signed (2 * q + sticky)) (- (s + 1)) neg.

(** ** Literals *)

(** The digits at the start: their value after [v], their number after [n], the rest. *)
Fixpoint scan_digits (v n : Z) (s : string) : Z * Z * string :=
  match s with
  | String c s' => if (48 <=? code c) && (code c <=? 57) then scan_digits (10 * v + (code c - 48)) (n + 1) s' else (v, n, s)
  | EmptyString => (v, n, s)
  end.

(** An exponent, if there is one. *)
Definition scan_exponent (s : string) : Z * string :=
  match s with
  | String c s' =>
      if bool_decide (lower c = "e"%char) then
        let '(sign, s'') := sign_prefix s' in
        let '(v, n, rest) := scan_digits 0 0 s'' in
        if n =? 0 then (0, s) else (sign * v, rest)
      else (0, s)
  | EmptyString => (0, s)
  end.

(** The longest prefix that is a decimal literal: its value and the rest. *)
Definition decimal_literal (s : string) : option (number * string) :=
  let '(sign, s) := sign_prefix s in
  let neg := sign <? 0 in
  if starts "Infinity" s then Some (S754_infinity neg, str_drop 8 s)
  else
    let '(v1, n1, s1) := scan_digits 0 0 s in
    let '(v, n, k, s2) :=
      match s1 with
      | String "." s1' => let '(v2, n2, s2) := scan_digits v1 0 s1' in if (n1 =? 0) && (n2 =? 0) then (v1, 0, 0, s1) else (v2, n1 + n2, n2, s2)
      | _ => (v1, n1, 0, s1)
      end in
    if n =? 0 then None
    else let '(e, rest) := scan_exponent s2 in Some (num_of_decimal neg v (e - k) n, rest).

(** The digits of another base, to the end. *)
Fixpoint all_digits (radix v : Z) (s : string) : option Z :=
  match s with
  | EmptyString => Some v
  | String c s => match Hex.value c with Some d => if d <? radix then all_digits radix (radix * v + d) s else None | None => None end
  end.

Definition radix_of (c : ascii) : option Z :=
  if bool_decide (lower c = "x"%char) then Some 16 else if bool_decide (lower c = "o"%char) then Some 8 else if bool_decide (lower c = "b"%char) then Some 2 else None.

(** [parseFloat(s)] *)
Definition parseFloat (s : string) : number := match decimal_literal (trim_left s) with Some (x, _) => x | None => S754_nan end.

(** [Number(s)] *)
Definition Number (s : string) : number :=
  let decimal s := match decimal_literal s with Some (x, EmptyString) => x | _ => S754_nan end in
  match trim s with
  | EmptyString => S754_zero false
  | String "0" (String c (String d s)) as t =>
      match radix_of c with
      | Some radix => match all_digits radix 0 (String d s) with Some v => binary_normalize 53 1024 v 0 false | None => S754_nan end
      | None => decimal t
      end
  | t => decimal t
  end.

Definition num_isNaN (x : number) : bool := match x with S754_nan => true | _ => false end.
(** [x - y], [x <= y], [x < y] *)
Definition num_sub : number → number → number := SFsub 53 1024.
Definition num_leb : number → number → bool := SFleb.
Definition num_ltb : number → number → bool := SFltb.

(** ** Fixed places *)

Fixpoint zeros (n : nat) : string := match n with O => EmptyString | S n => String "0" (zeros n) end.

(** [n / 10 ^ k] with its [k] places *)
Definition fixed_text (n k : Z) : string :=
  let f := pretty (n mod 10 ^ k) in
  String.append (pretty (n / 10 ^ k)) (if k =? 0 then EmptyString else String "." (String.append (zeros (Z.to_nat (k - strlen f))) f)).

(** [x.toFixed(k)], rounded half up in absolute value; [None] is a text with an exponent,
    from [10 ^ 21] on. *)
Definition toFixed (x : number) (k : Z) : option string :=
  match x with
  | S754_nan => Some "NaN"%string
  | S754_infinity s => Some (if s then "-Infinity" else "Infinity")%string
  | S754_zero _ => Some (fixed_text 0 k)
  | S754_finite s m e =>
      let n := if 0 <=? e then Zpos m * 2 ^ e * 10 ^ k else (2 * (Zpos m * 10 ^ k) + 2 ^ (- e)) / (2 * 2 ^ (- e)) in
      if 10 ^ 21 * 10 ^ k <=? n then None
      else Some (if s then String "-" (fixed_text n k) else fixed_text n k)
  end.

(** ** Query strings *)

(** [%XX] and [+] of a form that is encoded in a URL; a sign that is not followed by two
    digits stays. *)
Fixpoint percent_decode (s : string) : string :=
  match s with
  | EmptyString => EmptyString
  | String "+" s => String " " (percent_decode s)
  | String "%" (String a (String b s') as s0) =>
      match Hex.value a, Hex.value b with
      | Some x, Some y => String (ascii_of_N (Z.to_N (16 * x + y))) (percent_decode s')
      | _, _ => String "%" (percent_decode s0)
      end
  | String c s => String c (percent_decode s)
  end.

(** The text before the first separator and the text after it. *)
Fixpoint split_first (sep : ascii) (s : string) : string * string :=
  match s with
  | EmptyString => (EmptyString, EmptyString)
  | String c s => if bool_decide (c = sep) then (EmptyString, s) else let '(a, b) := split_first sep s in (String c a, b)
  end.

Definition strip_question (s : string) : string := match s with String "?" s => s | _ => s end.

(** The text whose UTF-8 bytes these are, with what is not UTF-8 replaced. *)
Definition read_utf8 (s : string) : string :=
  String.string_of_list_ascii (map (λ b, ascii_of_N (Z.to_N b)) (Utf8.toString (map code (String.list_ascii_of_string s)))).

(** [new URLSearchParams(s)]; the bytes of a name and a value are read as UTF-8. *)
Definition URLSearchParams (s : string) : list (string * string) :=
  let read s := read_utf8 (percent_decode s) in
  map (λ p, let '(a, b) := split_first "=" p in (read a, read b)) (List.filter (λ p, negb (String.eqb p EmptyString)) (split_on "&" (strip_question s))).

(** [params.get(name)]: the first value. *)
Fixpoint params_get (params : list (string * string)) (name : string) : option string :=
  match params with
  | [] => None
  | (n, v) :: params => if String.eqb n name then Some v else params_get params name
  end.

