(* ===== verification/JsText.v ===== *)
(** * Texts of numbers

    [String(x)] of a double, and [x.toFixed(k)] for every double.  The digits are the
    fewest that are read as the same double, and among those the closest. *)

From stdpp Require Import base tactics list numbers strings pretty.
From Stdlib Require Import Ascii SpecFloat.
From S2P Require Import Prelude JsNumber JsFloat NodeBuffer Encodings JsString JsDecimal.
Open Scope Z_scope.

(** ** Digits *)

(** [num_same x y]: the same double. *)
Definition num_same (x y : number) : bool :=
  match x, y with
  | S754_zero s, S754_zero t | S754_infinity s, S754_infinity t => Bool.eqb s t
  | S754_nan, S754_nan => true
  | S754_finite s m e, S754_finite t n f => Bool.eqb s t && Pos.eqb m n && (e =? f)
  | _, _ => false
  end.

(** A positive double as a fraction. *)
Definition num_fraction (m : positive) (e : Z) : Z * Z :=
  if 0 <=? e then (Zpos m * 2 ^ e, 1) else (Zpos m, 2 ^ (- e)).

(** The least [j] from [from] on with [b <= a * 10 ^ (j + 1)]; every positive double is
    above [10 ^ (-324)]. *)
Fixpoint leading_zeros (fuel : nat) (a b from : Z) : Z :=
  match fuel with
  | O => from
  | S fuel => if b <=? a * 10 ^ (from + 1) then from else leading_zeros fuel a b (from + 1)
  end.

(** [n] with [10 ^ (n - 1) <= a / b < 10 ^ n] *)
Definition decimal_exponent (a b : Z) : Z :=
  if b <=? a then strlen (pretty (a / b)) else - leading_zeros 330 a b 0.

(** The [k] digits next to [a / b] from below and from above, as integers with their
    exponent; of those that are read as [x] the closer one, which is the even one when they
    are as close. *)
Definition with_digits (x : number) (a b n k : Z) : option (Z * Z) :=
  let e := n - k in
  let '(p, q) := if 0 <=? e then (a, b * 10 ^ e) else (a * 10 ^ (- e), b) in
  let s := p / q in
  let reads s := num_same (num_of_decimal false s e (k + 1)) x in
  match reads s, reads (s + 1) with
  | false, false => None
  | true, false => Some (s, e)
  | false, true => Some (s + 1, e)
  | true, true =>
      Some (match Z.compare (2 * (p - s * q)) q with Lt => s | Gt => s + 1 | Eq => if Z.even s then s else s + 1 end, e)
  end.

(** The first [k] that does; 17 digits are enough for a double. *)
Fixpoint shortest (fuel : nat) (x : number) (a b n k : Z) : Z * Z :=
  match with_digits x a b n k with
  | Some r => r
  | None =>
      match fuel with
      | O => (a * 10 ^ Z.max 0 (k - n) / (b * 10 ^ Z.max 0 (n - k)), n - k)
      | S fuel => shortest fuel x a b n (k + 1)
      end
  end.

(** Without zeros at the end. *)
Fixpoint strip_zeros (fuel : nat) (s e : Z) : Z * Z :=
  match fuel with
  | O => (s, e)
  | S fuel => if (s mod 10 =? 0) && negb (s =? 0) then strip_zeros fuel (s / 10) (e + 1) else (s, e)
  end.

(** ** The text *)

Definition exponent_text (n : Z) : string :=
  String.append (if n <? 0 then "e-" else "e+") (pretty (Z.abs n)).

(** The digits [s] of [s * 10 ^ e], where the point or an exponent goes. *)
Definition decimal_text (s e : Z) : string :=
  let digits := pretty s in
  let k := strlen digits in
  let n := e + k in
  if (k <=? n) && (n <=? 21) then String.append digits (zeros (Z.to_nat (n - k)))
  else if (0 <? n) && (n <=? 21) then String.append (str_take (Z.to_nat n) digits) (String "." (str_drop (Z.to_nat n) digits))
  else if (-6 <? n) && (n <=? 0) then String.append "0." (String.append (zeros (Z.to_nat (- n))) digits)
  else if k =? 1 then String.append digits (exponent_text (n - 1))
  else String.append (str_take 1 digits) (String "." (String.append (str_drop 1 digits) (exponent_text (n - 1)))).

(** [String(x)] *)
Definition num_toString (x : number) : string :=
  match x with
  | S754_nan => "NaN"
  | S754_infinity s => if s then "-Infinity" else "Infinity"
  | S754_zero _ => "0"
  | S754_finite sign m e =>
      let '(a, b) := num_fraction m e in
      let '(s, e10) := shortest 16 (S754_finite false m e) a b (decimal_exponent a b) 1 in
      let '(s, e10) := strip_zeros 20 s e10 in
      String.append (if sign then "-" else "") (decimal_text s e10)
  end%string.

(** [x.toFixed(k)]; from [10 ^ 21] on it is [String(x)]. *)
Definition num_toFixed (x : number) (k : Z) : string := default (num_toString x) (toFixed x k).

(** The integer that a double is, where its text is that of the integer. *)
Definition num_integer (x : number) : option Z :=
  match x with
  | S754_zero _ => Some 0
  | S754_finite sign m e =>
      let '(a, b) := num_fraction m e in
      if (a mod b =? 0) && (a / b <=? 2 ^ 53) then Some (if sign then - (a / b) else a / b) else None
  | _ => None
  end.

(** ** Characters *)

Definition number_char (c : ascii) : Prop := c ∈ String.list_ascii_of_string "0123456789.+-eINaifnty".
Definition number_chars (s : string) : Prop := Forall number_char (String.list_ascii_of_string s).

(** A decidable fact about constants. *)
Ltac decided := apply (bool_decide_unpack _); vm_compute; exact I.

Lemma pretty_go_all (P : ascii → Prop) n s : (∀ d, (d < 10)%N → P (pretty_N_char d)) → Forall P (String.list_ascii_of_string s) → Forall P (String.list_ascii_of_string (pretty_N_go n s)).
Proof.
  intros HP. revert s. induction (N.lt_wf_0 n) as [n _ IH]. intros s Hs. destruct (decide (n = 0)%N) as [->|Hn]; [by rewrite pretty_N_go_0|].
  rewrite pretty_N_go_step by lia. apply IH; [apply N.div_lt; lia|]. cbn [String.list_ascii_of_string]. constructor; [|done]. apply HP, N.mod_lt. lia.
Qed.

Lemma pretty_all (P : ascii → Prop) (z : Z) : P "-"%char → (∀ d, (d < 10)%N → P (pretty_N_char d)) → Forall P (String.list_ascii_of_string (pretty z)).
Proof.
  intros Hm Hd. assert (HN : ∀ n : N, Forall P (String.list_ascii_of_string (pretty n))).
  { intros n. unfold pretty, pretty_N. destruct (decide _); [constructor; [apply (Hd 0%N); lia|constructor]|]. apply pretty_go_all; [done|constructor]. }
  destruct z as [|p|p]; [apply (HN 0%N)|apply (HN (Npos p))|]. change (pretty (Zneg p)) with (String "-" (pretty (Npos p))). constructor; [done|apply HN].
Qed.

Lemma digit_cases (P : ascii → Prop) : Forall P (String.list_ascii_of_string "0123456789") → ∀ d, (d < 10)%N → P (pretty_N_char d).
Proof.
  intros H d Hd. rewrite Forall_forall in H. apply H. destruct d as [|[[[[]|[]|]|[[]|[]|]|]|[[[]|[]|]|[[]|[]|]|]|]]; try lia; decided.
Qed.

Lemma pretty_chars (z : Z) : number_chars (pretty z).
Proof. apply (pretty_all number_char); [decided|]. apply (digit_cases number_char). decided. Qed.

Lemma chars_app s t : number_chars s → number_chars t → number_chars (String.append s t).
Proof.
  unfold number_chars. induction s as [|c s IH]; [done|]. change (String.append (String c s) t) with (String c (String.append s t)).
  cbn [String.list_ascii_of_string]. intros [Hc H]%Forall_cons Ht. constructor; [done|by apply IH].
Qed.

Lemma chars_cons c s : number_char c → number_chars s → number_chars (String c s).
Proof. intros Hc H. by constructor. Qed.

Lemma chars_take n s : number_chars s → number_chars (str_take n s).
Proof.
  unfold number_chars. revert s. induction n as [|n IH]; intros [|c s] H; try constructor; cbn [String.list_ascii_of_string] in H; apply Forall_cons in H as [Hc H]; [done|by apply IH].
Qed.

Lemma chars_drop n s : number_chars s → number_chars (str_drop n s).
Proof. unfold number_chars. revert s. induction n as [|n IH]; intros [|c s] H; try done. cbn [String.list_ascii_of_string] in H. apply Forall_cons in H as [_ H]. by apply IH. Qed.

Lemma chars_zeros n : number_chars (zeros n).
Proof. induction n as [|n IH]; [constructor|]. apply chars_cons; [decided|done]. Qed.

Create HintDb chars.
#[export] Hint Resolve pretty_chars chars_app chars_cons chars_take chars_drop chars_zeros : chars.

Lemma decimal_chars s e : number_chars (decimal_text s e).
Proof.
  assert (He : ∀ n, number_chars (exponent_text n)). { intros n. unfold exponent_text. apply chars_app; [destruct (n <? 0); decided|auto with chars]. }
  assert (Hp : number_char "."%char) by decided. assert (H0 : number_chars "0.") by decided.
  unfold decimal_text. repeat match goal with |- context [if ?b then _ else _] => destruct b end; eauto 6 with chars.
Qed.

(** The text of a number is made of digits, signs, points and the letters of an exponent,
    of [NaN] and of [Infinity]. *)
Lemma num_toString_chars x : number_chars (num_toString x).
Proof.
  destruct x as [s|s| |s m e]; cbn [num_toString]; [decided|destruct s; decided|decided|].
  destruct (num_fraction m e) as [a b], (shortest _ _ _ _ _ _) as [d e1], (strip_zeros _ _ _) as [d2 e2]. apply chars_app; [destruct s; [decided|constructor]|apply decimal_chars].
Qed.

(** ** Reading digits *)

Lemma digit_char d : (d < 10)%N → 48 <= code (pretty_N_char d) <= 57 ∧ code (pretty_N_char d) - 48 = Z.of_N d.
Proof. intros Hd. destruct d as [|[[[[]|[]|]|[[]|[]|]|]|[[[]|[]|]|[[]|[]|]|]|]]; try lia; vm_compute; repeat split; congruence. Qed.

Lemma scan_digit v k d s : (d < 10)%N → scan_digits v k (String (pretty_N_char d) s) = scan_digits (10 * v + Z.of_N d) (k + 1) s.
Proof.
  intros Hd. destruct (digit_char d Hd) as [Hc Hv]. cbn [scan_digits]. rewrite (proj2 (Z.leb_le 48 _)), (proj2 (Z.leb_le _ 57)) by lia. cbn [andb]. by rewrite Hv.
Qed.

Lemma scan_pretty_go n s v k : (0 < n)%N →
  ∃ j, 1 <= j ∧ strlen (pretty_N_go n s) = j + strlen s ∧ 10 ^ (j - 1) <= Z.of_N n ∧ scan_digits v k (pretty_N_go n s) = scan_digits (v * 10 ^ j + Z.of_N n) (k + j) s.
Proof.
  revert s. induction (N.lt_wf_0 n) as [n _ IH]. intros s Hn. rewrite pretty_N_go_step by lia.
  pose proof (N.mod_lt n 10 ltac:(lia)) as Hm. set (q := (n / 10)%N). set (r := (n `mod` 10)%N). assert (Hdm : Z.of_N n = 10 * Z.of_N q + Z.of_N r) by (subst q r; pose proof (N.div_mod n 10); lia).
  destruct (decide (q = 0)%N) as [Hz|Hz].
  - rewrite Hz, pretty_N_go_0. exists 1. rewrite scan_digit by done. unfold strlen. cbn [String.length]. split_and!; [lia|lia|change (10 ^ (1 - 1)) with 1; lia|]. f_equal. lia.
  - destruct (IH q ltac:(apply N.div_lt; lia) (String (pretty_N_char r) s) ltac:(lia)) as (j & Hj & Hl & Hlt & E). exists (j + 1). rewrite E, scan_digit by done.
    unfold strlen in *. cbn [String.length] in Hl. replace (10 ^ (j + 1)) with (10 ^ j * 10) by (rewrite Z.pow_add_r by lia; lia). clearbody q r.
    split_and!; [lia|lia| |f_equal; lia]. replace (j + 1 - 1) with (Z.succ (j - 1)) by lia. rewrite Z.pow_succ_r by lia. lia.
Qed.

Lemma scan_pretty (n : Z) t v k : 0 <= n →
  ∃ j, 1 <= j ∧ strlen (pretty n) = j ∧ (j = 1 ∨ 10 ^ (j - 1) <= n) ∧ scan_digits v k (String.append (pretty n) t) = scan_digits (v * 10 ^ j + n) (k + j) t.
Proof.
  intros Hn. destruct n as [|p|p]; [| |lia].
  - exists 1. split_and!; [lia|done|lia|]. change (String.append (pretty 0) t) with (String (pretty_N_char 0) t). rewrite scan_digit by lia. f_equal. lia.
  - assert (Ha : ∀ n s, String.append (pretty_N_go n s) t = pretty_N_go n (String.append s t)).
    { intros n. induction (N.lt_wf_0 n) as [n _ IH]. intros s. destruct (decide (n = 0)%N) as [->|Hz]; [by rewrite !pretty_N_go_0|]. rewrite !(pretty_N_go_step n) by lia. rewrite IH by (apply N.div_lt; lia). done. }
    destruct (scan_pretty_go (Npos p) t v k ltac:(lia)) as (j & Hj & Hl & Hp & E). exists j. split; [done|]. change (pretty (Z.pos p)) with (pretty_N_go (Npos p) EmptyString). split.
    + assert (Hs : strlen (String.append (pretty_N_go (Npos p) EmptyString) t) = j + strlen t) by (by rewrite Ha). rewrite strlen_app in Hs. lia.
    + split; [right; lia|]. rewrite Ha. exact E.
Qed.

Lemma scan_zeros n v k s : scan_digits v k (String.append (zeros n) s) = scan_digits (v * 10 ^ Z.of_nat n) (k + Z.of_nat n) s.
Proof.
  revert v k. induction n as [|n IH]; intros v k; [cbn [zeros]; change (String.append EmptyString s) with s; f_equal; lia|].
  change (String.append (zeros (S n)) s) with (String (pretty_N_char 0) (String.append (zeros n) s)). rewrite scan_digit, IH by lia. rewrite Nat2Z.inj_succ, Z.pow_succ_r by lia. f_equal; lia.
Qed.

Lemma pretty_digits n : 0 <= n → Forall (λ c, 48 <= code c <= 57) (String.list_ascii_of_string (pretty n)).
Proof.
  intros Hn. destruct n as [|p|p]; [repeat constructor; done| |lia]. change (pretty (Z.pos p)) with (pretty_N_go (Npos p) EmptyString).
  apply pretty_go_all; [|constructor]. intros d Hd. by apply digit_char.
Qed.

Lemma pretty_head (n : Z) t : 0 <= n → ∃ c s, String.append (pretty n) t = String c s ∧ 48 <= code c <= 57.
Proof.
  intros Hn. pose proof (pretty_digits n Hn) as H.
  destruct (scan_pretty n EmptyString 0 0 Hn) as (j & Hj & Hl & _). destruct (pretty n) as [|c s]; [unfold strlen in Hl; cbn in Hl; lia|].
  cbn [String.list_ascii_of_string] in H. apply Forall_cons in H as [H _]. by exists c, (String.append s t).
Qed.

Lemma decimal_start c s : 48 <= code c <= 57 → trim_left (String c s) = String c s ∧ sign_prefix (String c s) = (1, String c s) ∧ starts "Infinity" (String c s) = false.
Proof.
  intros Hc. assert (Hs : is_space c = false). { destruct c as [[] [] [] [] [] [] [] []]; vm_compute in Hc; destruct Hc; try congruence; done. }
  split; [cbn [trim_left]; by rewrite Hs|]. destruct c as [[] [] [] [] [] [] [] []]; vm_compute in Hc; destruct Hc; try congruence; done.
Qed.

Lemma append_empty s : String.append s EmptyString = s.
Proof. induction s as [|c s IH]; [done|]. change (String.append (String c s) EmptyString) with (String c (String.append s EmptyString)). by rewrite IH. Qed.

(** A fixed number of places is read as the decimal that it is. *)
Lemma parse_fixed n k : 0 <= n → 0 < k → ∃ d, 0 <= d ∧ parseFloat (fixed_text n k) = num_of_decimal false n (- k) (d + k).
Proof.
  intros Hn Hk. assert (Hp : 0 < 10 ^ k) by (apply Z.pow_pos_nonneg; lia). pose proof (Z.mod_pos_bound n (10 ^ k) Hp) as Hm. assert (Hd : 0 <= n / 10 ^ k) by (apply Z.div_pos; lia).
  unfold parseFloat, fixed_text. rewrite (proj2 (Z.eqb_neq k 0)) by lia. set (f := pretty (n mod 10 ^ k)). set (u := String "." _).
  destruct (pretty_head (n / 10 ^ k) u Hd) as (c & s & E & Hc). destruct (decimal_start c s Hc) as (E1 & E2 & E3). rewrite E, E1. unfold decimal_literal. rewrite E2, E3, <- E.
  destruct (scan_pretty (n / 10 ^ k) u 0 0 Hd) as (j & Hj & Hl & _ & ->).
  destruct (scan_pretty (n mod 10 ^ k) EmptyString (n / 10 ^ k * 10 ^ (k - strlen f)) (k - strlen f) ltac:(lia)) as (j2 & Hj2 & Hl2 & Hb & E4). fold f in Hl2, E4.
  assert (Hle : strlen f <= k). { rewrite Hl2. destruct Hb as [->|Hb]; [lia|]. destruct (Z.le_gt_cases j2 k) as [|Hgt]; [done|]. assert (10 ^ k <= 10 ^ (j2 - 1)) by (apply Z.pow_le_mono_r; lia). lia. }
  unfold u. cbn [scan_digits]. change ((48 <=? code ".") && (code "." <=? 57)) with false. cbv iota.
  assert (E5 : scan_digits (0 * 10 ^ j + n / 10 ^ k) 0 (String.append (zeros (Z.to_nat (k - strlen f))) f) = (n, k, EmptyString)).
  { rewrite scan_zeros, Z2Nat.id by lia. rewrite Z.mul_0_l, !Z.add_0_l. rewrite append_empty in E4. rewrite E4. cbn [scan_digits].
    rewrite <- Z.mul_assoc, <- Z.pow_add_r by lia. replace (k - strlen f + j2) with k by lia. pose proof (Z_div_mod_eq_full n (10 ^ k)). repeat f_equal; lia. }
  rewrite E5, Z.add_0_l. rewrite (proj2 (Z.eqb_neq k 0)) by lia. rewrite andb_false_r. rewrite (proj2 (Z.eqb_neq (j + k) 0)) by lia. cbn [scan_exponent]. exists j. split; [lia|]. f_equal.
Qed.

Lemma trim_right_digits s : Forall (λ c, 48 <= code c <= 57) (String.list_ascii_of_string s) → trim_right s = s.
Proof.
  induction s as [|c s IH]; [done|]. cbn [String.list_ascii_of_string]. intros [Hc H]%Forall_cons. cbn [trim_right]. rewrite IH by done. destruct s; [|done].
  assert (Hs : is_space c = false). { unfold is_space. repeat match goal with |- context [?a <=? ?b] => destruct (Z.leb_spec a b) | |- context [?a =? ?b] => destruct (Z.eqb_spec a b) end; cbn; lia. }
  by rewrite Hs.
Qed.

(** [Number] and [parseFloat] of the digits of an integer *)
Lemma literal_pretty n : 0 <= n → decimal_literal (pretty n) = Some (num_of_Z n, EmptyString).
Proof.
  intros Hn. destruct (pretty_head n EmptyString Hn) as (c & s & E & Hc). rewrite append_empty in E. destruct (decimal_start c s Hc) as (_ & E2 & E3). unfold decimal_literal. rewrite E, E2, E3, <- E.
  destruct (scan_pretty n EmptyString 0 0 Hn) as (j & Hj & Hl & _ & Es). rewrite append_empty in Es. rewrite Es. cbn [scan_digits]. rewrite Z.mul_0_l, !Z.add_0_l.
  rewrite (proj2 (Z.eqb_neq j 0)) by lia. cbn [scan_exponent]. change (0 - 0) with 0. change (1 <? 0) with false. unfold num_of_decimal.
  destruct (Z.eqb_spec n 0) as [->|Hz]; [done|]. change (310 <? 0) with false. rewrite (proj2 (Z.ltb_ge (0 + j) (-330))) by lia. change (0 <=? 0) with true. cbv iota. by rewrite Z.pow_0_r, Z.mul_1_r.
Qed.

Lemma Number_pretty n : 0 <= n → Number (pretty n) = num_of_Z n.
Proof.
  intros Hn. pose proof (literal_pretty n Hn) as El. destruct (pretty_head n EmptyString Hn) as (c & s & E & Hc). rewrite append_empty in E. destruct (decimal_start c s Hc) as (E1 & _ & _).
  pose proof (pretty_digits n Hn) as Hd. unfold Number, trim. rewrite E in *. rewrite E1, trim_right_digits by done.
  assert (Er : ∀ d t, s = String d t → radix_of d = None).
  { intros d t ->. cbn [String.list_ascii_of_string] in Hd. apply Forall_cons in Hd as [_ Hd]. apply Forall_cons in Hd as [Hd _]. destruct d as [[] [] [] [] [] [] [] []]; vm_compute in Hd; destruct Hd; try congruence; done. }
  destruct c as [[] [] [] [] [] [] [] []]; try (by rewrite El). destruct s as [|d [|d' t]]; try (by rewrite El). by rewrite (Er d _ eq_refl), El.
Qed.

(** ** Hundredths *)

(** The arithmetic of rounding: [q] is next to [p / K], and [p / K] is [n] times the double
    0.01, scaled by [E]. *)
Lemma hundredth_bounds n p K E q : 0 < n < 2 ^ 40 → 0 < K → 2 ^ 19 <= E → p * 2 ^ 59 = 5764607523034235 * n * (K * E) →
  q = p / K ∨ q = p / K + 1 → (2 * (q * 100) + E) / (2 * E) = n.
Proof.
  intros Hn HK HE Hp Hq. set (W := K * E) in *. set (Y := n * W).
  assert (HW : 2 ^ 19 * K <= W) by (subst W; rewrite Z.mul_comm; apply Z.mul_le_mono_nonneg_l; lia).
  assert (HY : W <= Y <= 2 ^ 40 * W) by (subst Y; split; [rewrite <- (Z.mul_1_l W) at 1|]; apply Z.mul_le_mono_nonneg_r; lia).
  assert (HpY : p * 2 ^ 59 = 5764607523034235 * Y) by (subst Y; lia).
  assert (Hb : Y <= 100 * p ∧ 2 ^ 15 * (100 * p) <= 2 ^ 15 * Y + W) by lia.
  assert (Hq' : p - K < q * K <= p + K).
  { pose proof (Z_div_mod_eq_full p K). pose proof (Z.mod_pos_bound p K HK). destruct Hq as [->| ->]; lia. }
  assert (H : 2 * n * W <= (2 * (q * 100) + E) * K < 2 * (n + 1) * W).
  { replace ((2 * (q * 100) + E) * K) with (200 * (q * K) + W) by (subst W; ring). replace (2 * n * W) with (2 * Y) by (subst Y; ring). replace (2 * (n + 1) * W) with (2 * Y + 2 * W) by (subst Y; ring). lia. }
  assert (H1 : 2 * n * E <= 2 * (q * 100) + E) by (apply Z.mul_le_mono_pos_r with (p := K); [done|]; subst W; lia).
  assert (H2 : 2 * (q * 100) + E < 2 * (n + 1) * E) by (apply Z.mul_lt_mono_pos_r with (p := K); [done|]; subst W; lia).
  symmetry. apply Z.div_unique_pos with (2 * (q * 100) + E - 2 * n * E); lia.
Qed.

Lemma toFixed_neg m f n k : 0 < f → 0 <= k → n < 10 ^ 21 * 10 ^ k → (2 * (Zpos m * 10 ^ k) + 2 ^ f) / (2 * 2 ^ f) = n → toFixed (S754_finite false m (- f)) k = Some (fixed_text n k).
Proof.
  intros Hf Hk Hn H. cbn [toFixed]. rewrite (proj2 (Z.leb_gt 0 (- f))), Z.opp_involutive by lia. cbv zeta. rewrite H, (proj2 (Z.leb_gt _ n)) by lia. done.
Qed.

(** An integer times 0.01 has the hundredths of the integer. *)
Lemma hundredth_fixed n : 0 < n < 2 ^ 40 → toFixed (num_mul (num_of_Z n) (num_div (num_of_Z 1) (num_of_Z 100))) 2 = Some (fixed_text n 2).
Proof.
  intros Hn. assert (Ef : num_div (num_of_Z 1) (num_of_Z 100) = S754_finite false 5764607523034235 (-59)) by (vm_compute; reflexivity).
  destruct n as [|n|n]; [lia| |lia]. destruct (num_of_pos n ltac:(lia)) as (m & -> & Hm & Hm53).
  pose proof (digits_le (Zpos n) 40 ltac:(lia) ltac:(lia)) as Hd. assert (Hd1 : 1 <= Zdigits2 (Zpos n)) by (cbn [Zdigits2]; lia). set (d := Zdigits2 (Zpos n)) in *. clearbody d.
  rewrite Ef. unfold num_mul, SFmul. cbn [xorb]. remember (m * 5764607523034235)%positive as p eqn:Ep. assert (Hp : Zpos p = 5764607523034235 * Zpos m) by (subst p; lia). clear Ep.
  pose proof (digits_bounds p) as Hb. pose proof (digits_le (Zpos p) 106 ltac:(lia) ltac:(lia)) as HD.
  assert (HD1 : 105 <= Zdigits2 (Zpos p)). { destruct (Z.le_gt_cases 105 (Zdigits2 (Zpos p))) as [|Hlt]; [done|]. assert (2 ^ Zdigits2 (Zpos p) <= 2 ^ 104) by (apply Z.pow_le_mono_r; lia). lia. }
  destruct (round_aux p (d - 53 + -59) ltac:(lia) ltac:(lia)) as (q & m' & e' & -> & Hq & Hm').
  set (D := Zdigits2 (Zpos p)) in *. clearbody D. replace (Z.max 0 (D - 53)) with (D - 53) in * by lia.
  pose (f := 165 - d - D). assert (Hf : 19 <= f) by (subst f; lia).
  assert (Hc := hundredth_bounds (Zpos n) (Zpos p) (2 ^ (D - 53)) (2 ^ f) q ltac:(lia) ltac:(apply Z.pow_pos_nonneg; lia) ltac:(apply Z.pow_le_mono_r; lia)).
  specialize (Hc ltac:(rewrite Hp, Hm, <- Z.pow_add_r by lia; rewrite <- !Z.mul_assoc, <- Z.pow_add_r by lia; do 3 f_equal; subst f; lia) ltac:(destruct Hq as [|[_ ?]]; auto)).
  destruct Hm' as [[Hm' ->]|(Eq & Hm' & ->)].
  - replace (d - 53 + -59 + (D - 53)) with (- f) by (subst f; lia). apply toFixed_neg; [lia..|]. rewrite Hm'. exact Hc.
  - replace (d - 53 + -59 + (D - 53) + 1) with (- (f - 1)) by (subst f; lia). apply toFixed_neg; [lia..|]. rewrite Hm'. rewrite Eq in Hc. replace (2 ^ f) with (2 * 2 ^ (f - 1)) in Hc by (rewrite <- Z.pow_succ_r by lia; f_equal; lia).
    rewrite <- Hc. assert (0 < 2 ^ (f - 1)) by (apply Z.pow_pos_nonneg; lia). set (F := 2 ^ (f - 1)) in *.
    replace (2 * (2 ^ 53 * 100) + 2 * F) with (2 * (2 * (2 ^ 52 * 10 ^ 2) + F)) by lia. by rewrite Z.div_mul_cancel_l by lia.
Qed.
