(* ===== verification/Regex.v ===== *)
(** * Regular expressions

    What [isValidTokenDocumentUrl] of [cashtab/src/utils/validation.js] needs of
    JavaScript's regular expressions: an anchored pattern of classes of characters,
    sequences, alternatives and repetitions.  [matches] computes by derivatives, and
    is proved to decide the language of the pattern. *)

From stdpp Require Import base tactics list numbers strings.
From Stdlib Require Import Ascii.
From S2P Require Import Prelude.

Module Regex.

Inductive regex :=
| Empty
| Eps
| Char (f : ascii → bool)
| Seq (r s : regex)
| Alt (r s : regex)
| Star (r : regex).

Definition plus (r : regex) : regex := Seq r (Star r).
Definition opt (r : regex) : regex := Alt Eps r.
Fixpoint times (n : nat) (r : regex) : regex := match n with O => Eps | S n => Seq r (times n r) end.
(** At most [n] times. *)
Fixpoint upto (n : nat) (r : regex) : regex := match n with O => Eps | S n => opt (Seq r (upto n r)) end.

(** ** The language *)

Inductive lang : regex → list ascii → Prop :=
| lang_eps : lang Eps []
| lang_char f c : f c = true → lang (Char f) [c]
| lang_seq r s x y : lang r x → lang s y → lang (Seq r s) (x ++ y)
| lang_left r s x : lang r x → lang (Alt r s) x
| lang_right r s x : lang s x → lang (Alt r s) x
| lang_nil r : lang (Star r) []
| lang_star r x y : lang r x → lang (Star r) y → lang (Star r) (x ++ y).

(** ** The matcher *)

Fixpoint nullable (r : regex) : bool :=
  match r with
  | Empty | Char _ => false
  | Eps | Star _ => true
  | Seq r s => nullable r && nullable s
  | Alt r s => nullable r || nullable s
  end.

(** Constructors that leave out what matches nothing. *)
Definition seq (r s : regex) : regex :=
  match r, s with
  | Empty, _ | _, Empty => Empty
  | Eps, s => s
  | r, s => Seq r s
  end.
Definition alt (r s : regex) : regex :=
  match r, s with
  | Empty, s => s
  | r, Empty => r
  | r, s => Alt r s
  end.

Fixpoint deriv (c : ascii) (r : regex) : regex :=
  match r with
  | Empty | Eps => Empty
  | Char f => if f c then Eps else Empty
  | Seq r s => if nullable r then alt (seq (deriv c r) s) (deriv c s) else seq (deriv c r) s
  | Alt r s => alt (deriv c r) (deriv c s)
  | Star r => seq (deriv c r) (Star r)
  end.

Definition matches (r : regex) (s : list ascii) : bool := nullable (fold_left (λ r c, deriv c r) s r).

(** ** Correctness *)

Lemma lang_empty x : ~ lang Empty x.
Proof. inversion 1. Qed.

Lemma lang_eps_iff x : lang Eps x ↔ x = [].
Proof. split; [by inversion 1|intros ->; constructor]. Qed.

Lemma lang_char_iff f x : lang (Char f) x ↔ ∃ c, x = [c] ∧ f c = true.
Proof. split; [inversion 1; by eexists|intros (c & -> & H); by constructor]. Qed.

Lemma lang_seq_iff r s x : lang (Seq r s) x ↔ ∃ y z, x = y ++ z ∧ lang r y ∧ lang s z.
Proof. split; [inversion 1; by eexists _, _|intros (y & z & -> & H1 & H2); by constructor]. Qed.

Lemma lang_alt_iff r s x : lang (Alt r s) x ↔ lang r x ∨ lang s x.
Proof. split; [inversion 1; auto|intros [H|H]; [by apply lang_left|by apply lang_right]]. Qed.

Lemma lang_seq_smart r s x : lang (seq r s) x ↔ lang (Seq r s) x.
Proof.
  rewrite lang_seq_iff. assert (E : ∀ s, lang s x ↔ ∃ y z, x = y ++ z ∧ lang Eps y ∧ lang s z).
  { intros s'. split; [intros H; exists [], x; split_and!; [done|constructor|done]|]. intros (y & z & -> & ->%lang_eps_iff & H). done. }
  assert (Z : ∀ P : Prop, ~ P → lang Empty x ↔ P) by (intros P Hn; split; [by intros ?%lang_empty|done]).
  destruct r; destruct s; cbn [seq]; try (by rewrite lang_seq_iff); try (by apply E); apply Z; intros (y & z & _ & H1 & H2);
    (by apply lang_empty in H1) || (by apply lang_empty in H2).
Qed.

Lemma lang_alt_smart r s x : lang (alt r s) x ↔ lang (Alt r s) x.
Proof.
  rewrite lang_alt_iff. destruct r; destruct s; cbn [alt]; rewrite ?lang_alt_iff; pose proof (lang_empty x); tauto.
Qed.

Lemma nullable_iff r : nullable r = true ↔ lang r [].
Proof.
  induction r as [| |f|r IH1 s IH2|r IH1 s IH2|r IH]; cbn [nullable].
  - split; [done|by intros ?%lang_empty].
  - split; [intros _; constructor|done].
  - rewrite lang_char_iff. split; [done|by intros (c & ? & _)].
  - rewrite andb_true_iff, IH1, IH2, lang_seq_iff. split; [intros [H1 H2]; by exists [], []|].
    by intros (y & z & [-> ->]%eq_sym%app_nil & H1 & H2).
  - by rewrite orb_true_iff, IH1, IH2, lang_alt_iff.
  - split; [intros _; constructor|done].
Qed.

(** A repetition that starts with a character starts with a part that does. *)
Lemma lang_star_cons r c x : lang (Star r) (c :: x) ↔ ∃ y z, x = y ++ z ∧ lang r (c :: y) ∧ lang (Star r) z.
Proof.
  split.
  - intros H. remember (Star r) as s eqn:Es. remember (c :: x) as w eqn:Ew. revert c x Ew.
    induction H as [| | | | | |r' a b Ha _ Hb IH]; intros c0 x0 Ew; try done. injection Es as ->. destruct a as [|d a]; cbn in Ew; [by apply IH|].
    injection Ew as -> <-. by exists a, b.
  - intros (y & z & -> & H1 & H2). by apply (lang_star r (c :: y) z).
Qed.

Lemma lang_deriv r c x : lang (deriv c r) x ↔ lang r (c :: x).
Proof.
  revert x. induction r as [| |f|r IH1 s IH2|r IH1 s IH2|r IH]; intros x; cbn [deriv].
  - split; by intros ?%lang_empty.
  - split; [by intros ?%lang_empty|by intros ?%lang_eps_iff].
  - rewrite lang_char_iff. destruct (f c) eqn:E.
    + rewrite lang_eps_iff. split; [intros ->; by exists c|by intros (d & [= _ ->] & _)].
    + split; [by intros ?%lang_empty|]. intros (d & [= <- _] & H). congruence.
  - assert (S : lang (seq (deriv c r) s) x ↔ ∃ y z, x = y ++ z ∧ lang r (c :: y) ∧ lang s z).
    { rewrite lang_seq_smart, lang_seq_iff. by setoid_rewrite IH1. }
    rewrite lang_seq_iff. destruct (nullable r) eqn:E.
    + rewrite lang_alt_smart, lang_alt_iff, S, IH2. split.
      * intros [(y & z & -> & H1 & H2)|H]; [by exists (c :: y), z|]. exists [], (c :: x). split_and!; [done|by apply nullable_iff|done].
      * intros ([|d y] & z & Hx & H1 & H2); cbn in Hx; [subst z; by right|]. injection Hx as -> ->. left. by exists y, z.
    + rewrite S. split; [intros (y & z & -> & H1 & H2); by exists (c :: y), z|].
      intros ([|d y] & z & Hx & H1 & H2); [apply nullable_iff in H1; congruence|]. injection Hx as -> ->. by exists y, z.
  - by rewrite lang_alt_smart, !lang_alt_iff, IH1, IH2.
  - rewrite lang_seq_smart, lang_seq_iff, lang_star_cons. by setoid_rewrite IH.
Qed.

(** The matcher decides the language. *)
Lemma matches_iff r s : matches r s = true ↔ lang r s.
Proof.
  unfold matches. revert r. induction s as [|c s IH]; intros r; cbn [fold_left]; [apply nullable_iff|]. by rewrite IH, lang_deriv.
Qed.

End Regex.
