(* ===== verification/Base64.v ===== *)
(** * Base 64

    The encoding ['base64'] of Node's [Buffer]: [buffer.toString('base64')] and
    [Buffer.from(text, 'base64')].  Reading skips characters that are not digits, takes
    [-] and [_] for [+] and [/], and needs no padding; padding inside a text is
    skipped like the rest. *)

From stdpp Require Import base tactics list numbers strings.
From Stdlib Require Import Ascii.
From S2P Require Import Prelude JsNumber NodeBuffer Asm Encodings JsString.
Open Scope Z_scope.

Module Base64.

Definition digit (n : Z) : ascii :=
  ascii_of_N (Z.to_N (if n <? 26 then 65 + n else if n <? 52 then 71 + n else if n <? 62 then n - 4 else if n =? 62 then 43 else 47)).

Definition value (c : ascii) : option Z :=
  let n := code c in
  if (65 <=? n) && (n <=? 90) then Some (n - 65)
  else if (97 <=? n) && (n <=? 122) then Some (n - 71)
  else if (48 <=? n) && (n <=? 57) then Some (n + 4)
  else if (n =? 43) || (n =? 45) then Some 62
  else if (n =? 47) || (n =? 95) then Some 63
  else None.

(** The digits of a buffer, without padding. *)
Fixpoint digits (b : buffer) : list Z :=
  match b with
  | x :: y :: z :: b =>
      let v := x * 65536 + y * 256 + z in
      v / 262144 :: v / 4096 mod 64 :: v / 64 mod 64 :: v mod 64 :: digits b
  | [x; y] => let v := x * 1024 + y * 4 in [v / 4096; v / 64 mod 64; v mod 64]
  | [x] => [x / 4; x mod 4 * 16]
  | [] => []
  end.

Definition padding (b : buffer) : string :=
  match blen b mod 3 with 1 => "==" | 2 => "=" | _ => EmptyString end.

(** [b.toString('base64')] *)
Definition toBase64 (b : buffer) : string :=
  String.append (String.string_of_list_ascii (map digit (digits b))) (padding b).

(** The bytes of digits; one digit that is left over has no byte. *)
Fixpoint bytes (ds : list Z) : buffer :=
  match ds with
  | p :: q :: r :: s :: ds =>
      let v := p * 262144 + q * 4096 + r * 64 + s in
      v / 65536 :: v / 256 mod 256 :: v mod 256 :: bytes ds
  | [p; q; r] => let v := p * 4096 + q * 64 + r in [v / 1024; v / 4 mod 256]
  | [p; q] => [(p * 64 + q) / 16]
  | _ => []
  end.

(** [Buffer.from(s, 'base64')] *)
Definition fromBase64 (s : string) : buffer := bytes (omap value (String.list_ascii_of_string s)).

Lemma value_sextet n : 0 <= n < 64 → value (digit n) = Some n.
Proof.
  intros H. assert (forallb (λ n, bool_decide (value (digit n) = Some n)) (map Z.of_nat (seq 0 64)) = true) as F by (vm_compute; reflexivity).
  rewrite forallb_forall in F. specialize (F n). rewrite bool_decide_eq_true in F. apply F, in_map_iff. exists (Z.to_nat n). split; [lia|apply in_seq; lia].
Qed.

Lemma bytes_ind (P : buffer → Prop) : P [] → (∀ x, P [x]) → (∀ x y, P [x; y]) → (∀ x y z b, P b → P (x :: y :: z :: b)) → ∀ b, P b.
Proof.
  intros H0 H1 H2 H3. fix IH 1. intros [|x [|y [|z b]]]; [exact H0|apply H1|apply H2|apply H3, IH].
Qed.

Lemma sextets_ok b : bytes_ok b → Forall (λ d, 0 <= d < 64) (digits b) ∧ bytes (digits b) = b.
Proof.
  induction b as [|x|x y|x y z b IH] using bytes_ind; intros Hb; repeat (apply Forall_cons in Hb as [?Hx Hb]); unfold is_byte in *; cbn [digits bytes]; cbv zeta.
  - by split; [constructor|].
  - split; [repeat (apply Forall_cons; split); [| |by apply Forall_nil]|f_equal]; Z.to_euclidean_division_equations; lia.
  - split; [repeat (apply Forall_cons; split); [| | |by apply Forall_nil]|repeat f_equal]; Z.to_euclidean_division_equations; lia.
  - destruct (IH Hb) as [I1 I2]. split.
    + repeat (apply Forall_cons; split); try done; Z.to_euclidean_division_equations; lia.
    + rewrite I2. clear I1 I2 IH. repeat f_equal; Z.to_euclidean_division_equations; lia.
Qed.

Lemma values_digits ds : Forall (λ d, 0 <= d < 64) ds → omap value (map digit ds) = ds.
Proof. induction 1 as [|d ds Hd _ IH]; [done|]. cbn. by rewrite value_sextet, IH. Qed.

(** What is written is read back. *)
Lemma fromBase64_toBase64 b : bytes_ok b → fromBase64 (toBase64 b) = b.
Proof.
  intros Hb. destruct (sextets_ok b Hb) as [H1 H2]. unfold fromBase64, toBase64.
  assert (Happ : ∀ s t, String.list_ascii_of_string (String.append s t) = String.list_ascii_of_string s ++ String.list_ascii_of_string t).
  { intros s t. induction s as [|c s IH]; [done|]. change (String.append (String c s) t) with (String c (String.append s t)). cbn. by rewrite IH. }
  rewrite Happ, omap_app, String.list_ascii_of_string_of_list_ascii, values_digits by done.
  assert (omap value (String.list_ascii_of_string (padding b)) = []) as ->.
  { unfold padding. destruct (blen b mod 3) as [|[[]|[]|]|]; reflexivity. }
  by rewrite app_nil_r.
Qed.

End Base64.
