(* ===== verification/BigNumber.v ===== *)
(** * Decimal numbers

    [bignumber.js] is an npm package outside the repository: decimal numbers of
    arbitrary precision.  It is an operational class with the laws that its
    documentation gives: sums, differences and products are exact, comparisons
    with [NaN] are false, an integer prints as its digits.  The last section has a
    concrete instance, decimals as an integer and a number of places. *)

From stdpp Require Import base tactics list numbers strings pretty.
From Stdlib Require Import Ascii QArith Qpower Lqa SpecFloat.
From S2P Require Import Prelude JsFloat Asm Encodings JsString.
Open Scope Z_scope.

Class BigNumber := {
  bn : Type;
  (** [new BigNumber(s)], of a string *)
  bn_of_string : string → bn;
  (** [new BigNumber(n)], of an integer number *)
  bn_of_Z : Z → bn;
  (** [new BigNumber(n)], of any number *)
  bn_of_number : number → bn;
  (** [new BigNumber(10 ** k)] *)
  bn_pow10 : Z → bn;
  bn_plus : bn → bn → bn;
  bn_minus : bn → bn → bn;
  bn_times : bn → bn → bn;
  bn_div : bn → bn → bn;
  bn_shiftedBy : bn → Z → bn;
  (** [integerValue(BigNumber.ROUND_CEIL)] *)
  bn_ceil : bn → bn;
  bn_NaN : bn;
  bn_isNaN : bn → bool;
  bn_lt : bn → bn → bool;
  bn_lte : bn → bn → bool;
  (** [dp()], the number of decimal places; [None] is [null] *)
  bn_dp : bn → option Z;
  bn_toString : bn → string;
  (** [toFixed(k)], rounded to [k] places *)
  bn_toFixed : bn → Z → string;
  (** [Number(x)] *)
  bn_toNumber : bn → number;
  (** [bn_is x q]: the number [x] is finite and stands for [q]. *)
  bn_is : bn → Q → Prop;
}.

(** [x.gt(y)] and [x.gte(y)] *)
Definition bn_gt `{!BigNumber} (x y : bn) : bool := bn_lt y x.
Definition bn_gte `{!BigNumber} (x y : bn) : bool := bn_lte y x.
(** [new BigNumber(s)] of a text that may be [undefined] *)
Definition bn_of_option `{!BigNumber} (s : option string) : bn :=
  match s with Some s => bn_of_string s | None => bn_NaN end.
(** [parseInt(x)] goes through the text of the number. *)
Definition bn_parseInt `{!BigNumber} (x : bn) : option Z := parseInt (bn_toString x) 10.

(** [10 ^ k] as a rational *)
Definition ten (k : Z) : Q := Qpower (inject_Z 10) k.

Class BigNumberSpec `{!BigNumber} : Prop := {
  bn_is_proper x p q : Qeq p q → bn_is x p → bn_is x q;
  bn_is_unique x p q : bn_is x p → bn_is x q → Qeq p q;
  bn_is_not_NaN x p : bn_is x p → bn_isNaN x = false;
  bn_NaN_is : bn_isNaN bn_NaN = true;
  bn_of_Z_is n : bn_is (bn_of_Z n) (inject_Z n);
  bn_of_number_int n : 0 <= n < 2 ^ 53 → bn_is (bn_of_number (num_of_Z n)) (inject_Z n);
  bn_pow10_is k : -9 <= k <= 15 → bn_is (bn_pow10 k) (ten k);
  bn_plus_is x y p q : bn_is x p → bn_is y q → bn_is (bn_plus x y) (Qplus p q);
  bn_minus_is x y p q : bn_is x p → bn_is y q → bn_is (bn_minus x y) (Qminus p q);
  bn_times_is x y p q : bn_is x p → bn_is y q → bn_is (bn_times x y) (Qmult p q);
  (** division is exact when the quotient has at most 20 places *)
  bn_div_is x y p q r : bn_is x p → bn_is y q → ~ Qeq q 0 → Qeq (Qmult q r) p →
    (∃ n, Qeq (Qmult r (ten 20)) (inject_Z n)) → bn_is (bn_div x y) r;
  bn_shiftedBy_is x p k : bn_is x p → bn_is (bn_shiftedBy x k) (Qmult p (ten k));
  bn_ceil_is x n : bn_is x (inject_Z n) → bn_is (bn_ceil x) (inject_Z n);
  bn_lt_is x y p q : bn_is x p → bn_is y q → bn_lt x y = true ↔ Qlt p q;
  bn_lte_is x y p q : bn_is x p → bn_is y q → bn_lte x y = true ↔ Qle p q;
  bn_lt_NaN x y : bn_isNaN x = true ∨ bn_isNaN y = true → bn_lt x y = false;
  bn_lte_NaN x y : bn_isNaN x = true ∨ bn_isNaN y = true → bn_lte x y = false;
  (** a number less than another is neither greater nor equal *)
  bn_lt_gte x y : bn_lt x y = true → bn_lte y x = false ∧ bn_lt y x = false;
  (** [dp] is the least number of places at which the number is an integer *)
  bn_dp_is x p : bn_is x p → ∃ d, bn_dp x = Some d ∧
    ∀ k, 0 <= k → d <= k ↔ ∃ n, Qeq (Qmult p (ten k)) (inject_Z n);
  (** integers below 10^21 print as their digits *)
  bn_toString_int x n : bn_is x (inject_Z n) → Z.abs n < 10 ^ 21 → bn_toString x = pretty n;
  bn_of_string_int n : bn_is (bn_of_string (pretty n)) (inject_Z n);
  bn_of_toString x p : bn_is x p → bn_is (bn_of_string (bn_toString x)) p;
  bn_toFixed_is x p k : bn_is x p → 0 <= k → ∃ n, bn_is (bn_of_string (bn_toFixed x k)) (Qmult (inject_Z n) (ten (- k)));
  (** a number that is neither [NaN] nor out of finite bounds is finite *)
  bn_between x y z p q : bn_is y p → bn_is z q → bn_isNaN x = false → bn_lt x y = false → bn_lt z x = false → ∃ r, bn_is x r;
  bn_toNumber_int x n : bn_is x (inject_Z n) → Z.abs n < 2 ^ 53 → bn_toNumber x = num_of_Z n;
}.

(** ** The digits of an integer *)

Lemma value_char d : (d < 10)%N → Hex.value (pretty_N_char d) = Some (Z.of_N d).
Proof.
  intros H. destruct d as [|[[[[]|[]|]|[[]|[]|]|]|[[[]|[]|]|[[]|[]|]|]|]]; try reflexivity; exfalso; lia.
Qed.

Lemma digits_pretty_go n s : (0 < n)%N →
  digits_prefix 10 None (pretty_N_go n s) = digits_prefix 10 (Some (Z.of_N n)) s.
Proof.
  intros Hn0. revert s Hn0. induction (N.lt_wf_0 n) as [n _ IH]. intros s Hn. rewrite pretty_N_go_step by done.
  assert (Hm := N.mod_lt n 10 ltac:(lia)). assert (Hdm := N.div_mod n 10 ltac:(lia)).
  destruct (decide (n / 10 = 0)%N) as [E|E].
  - rewrite E, pretty_N_go_0. cbn [digits_prefix]. rewrite value_char by done.
    rewrite (proj2 (Z.ltb_lt _ _)) by lia. do 2 f_equal. cbn [from_option id]. rewrite E in Hdm. lia.
  - rewrite IH by (lia || apply N.div_lt; lia). cbn [digits_prefix]. rewrite value_char by done.
    rewrite (proj2 (Z.ltb_lt _ _)) by lia. do 2 f_equal. cbn [from_option id]. lia.
Qed.

Lemma digits_pretty_pos p : digits_prefix 10 None (pretty p) = Some (Zpos p).
Proof.
  change (pretty p) with (pretty (Npos p)). unfold pretty, pretty_N. cbn [decide N.eq_dec N_rec N_rect].
  destruct (decide _); [done|]. by rewrite digits_pretty_go.
Qed.

(** The first character of the digits of a positive number. *)
Lemma pretty_go_head n s : (0 < n)%N → ∃ c t, pretty_N_go n s = String c t ∧ is_Some (Hex.value c) ∧ 48 <= code c <= 57.
Proof.
  intros Hn0. revert s Hn0. induction (N.lt_wf_0 n) as [n _ IH]. intros s Hn. rewrite pretty_N_go_step by done.
  assert (Hm := N.mod_lt n 10 ltac:(lia)).
  destruct (decide (n / 10 = 0)%N) as [E|E]; [|apply (IH (n / 10)%N); [apply N.div_lt; lia|by apply N.neq_0_lt_0]].
  rewrite E, pretty_N_go_0. eexists _, _. split; [done|]. rewrite value_char by done. split; [by eexists|].
  revert Hm. generalize (n mod 10)%N. intros d Hd.
  destruct d as [|[[[[]|[]|]|[[]|[]|]|]|[[[]|[]|]|[[]|[]|]|]|]]; vm_compute; split; congruence || lia.
Qed.

Lemma parseInt_digits c t : 48 <= code c <= 57 → parseInt (String c t) 10 = digits_prefix 10 None (String c t).
Proof.
  intros H. assert (Hi : ∀ o : option Z, Z.mul 1 <$> o = o) by (intros [z|]; cbn; [f_equal; lia|done]).
  destruct c as [[] [] [] [] [] [] [] []]; vm_compute in H; try (exfalso; intuition congruence);
    rewrite <- (Hi (digits_prefix _ _ _)); reflexivity.
Qed.

(** [parseInt] reads back the digits of an integer. *)
Lemma parseInt_pretty z : parseInt (pretty z) 10 = Some z.
Proof.
  destruct z as [|p|p]; [done|..]; pose proof (digits_pretty_pos p) as Hd.
  - change (pretty (Zpos p)) with (pretty p). assert (pretty p = pretty_N_go (Npos p) EmptyString) as E by done. rewrite E in *.
    destruct (pretty_go_head (Npos p) EmptyString ltac:(lia)) as (c & t & Eg & _ & Hc). rewrite Eg in *.
    by rewrite parseInt_digits.
  - change (pretty (Zneg p)) with (String "-" (pretty p)).
    change (Z.mul (-1) <$> digits_prefix 10 None (pretty p) = Some (Zneg p)). by rewrite Hd.
Qed.

(** ** Integers among the numbers *)

Section Integers.
Context `{BN : !BigNumber} `{BNS : !BigNumberSpec}.

Lemma bn_plus_int x y m n : bn_is x (inject_Z m) → bn_is y (inject_Z n) → bn_is (bn_plus x y) (inject_Z (m + n)).
Proof. intros Hx Hy. eapply bn_is_proper; [|by apply bn_plus_is]. by rewrite inject_Z_plus. Qed.

Lemma bn_minus_int x y m n : bn_is x (inject_Z m) → bn_is y (inject_Z n) → bn_is (bn_minus x y) (inject_Z (m - n)).
Proof.
  intros Hx Hy. eapply bn_is_proper; [|by apply bn_minus_is]. unfold Qminus. by rewrite <- inject_Z_opp, <- inject_Z_plus.
Qed.

Lemma bn_times_int x y m n : bn_is x (inject_Z m) → bn_is y (inject_Z n) → bn_is (bn_times x y) (inject_Z (m * n)).
Proof. intros Hx Hy. eapply bn_is_proper; [|by apply bn_times_is]. by rewrite inject_Z_mult. Qed.

Lemma bn_int_unique x m n : bn_is x (inject_Z m) → bn_is x (inject_Z n) → m = n.
Proof. intros Hm Hn. apply inject_Z_injective. by apply (bn_is_unique x). Qed.

Lemma bn_lt_int x y m n : bn_is x (inject_Z m) → bn_is y (inject_Z n) → bn_lt x y = (m <? n).
Proof.
  intros Hx Hy. apply eq_true_iff_eq. rewrite (bn_lt_is _ _ _ _ Hx Hy), Z.ltb_lt, Zlt_Qlt. done.
Qed.

Lemma bn_lte_int x y m n : bn_is x (inject_Z m) → bn_is y (inject_Z n) → bn_lte x y = (m <=? n).
Proof.
  intros Hx Hy. apply eq_true_iff_eq. rewrite (bn_lte_is _ _ _ _ Hx Hy), Z.leb_le, Zle_Qle. done.
Qed.

Lemma bn_gte_int x y m n : bn_is x (inject_Z m) → bn_is y (inject_Z n) → bn_gte x y = (n <=? m).
Proof. intros Hx Hy. by apply bn_lte_int. Qed.

Lemma bn_parseInt_int x n : bn_is x (inject_Z n) → Z.abs n < 10 ^ 21 → bn_parseInt x = Some n.
Proof. intros Hx Hn. unfold bn_parseInt. rewrite (bn_toString_int _ _ Hx Hn). apply parseInt_pretty. Qed.

End Integers.

Lemma ten_nonneg k : 0 <= k → Qeq (ten k) (inject_Z (10 ^ k)).
Proof. intros Hk. unfold ten. by rewrite <- Zpower_Qpower. Qed.

Lemma ten_opp k : 0 <= k → Qeq (ten (- k)) (Qinv (inject_Z (10 ^ k))).
Proof. intros Hk. unfold ten. rewrite Qpower_opp. fold (ten k). by rewrite ten_nonneg. Qed.

Lemma ten_neg k : 0 <= k → Qeq (Qmult (ten k) (ten (- k))) 1.
Proof.
  intros Hk. rewrite ten_nonneg, ten_opp by done. apply Qmult_inv_r.
  intros E. assert (10 ^ k = 0) by by apply inject_Z_injective. assert (0 < 10 ^ k) by (apply Z.pow_pos_nonneg; lia). lia.
Qed.

(** ** A concrete instance *)
Module ConcreteBn.

(** [(m, s)] is [m] divided by the [s]-th power of ten; [None] is [NaN]. *)
Definition dec : Type := option (Z * nat).

Definition scale (s : nat) : positive := Z.to_pos (10 ^ Z.of_nat s).
Definition dval (d : Z * nat) : Q := Qmake d.1 (scale d.2).

Lemma scale_pos s : Zpos (scale s) = 10 ^ Z.of_nat s.
Proof. unfold scale. rewrite Z2Pos.id; [done|]. apply Z.pow_pos_nonneg; lia. Qed.

Lemma scale_add s t : Zpos (scale (s + t)) = Zpos (scale s) * Zpos (scale t).
Proof. rewrite !scale_pos, Nat2Z.inj_add, Z.pow_add_r by lia. done. Qed.

(** Without the zeros at the end. *)
Fixpoint norm (m : Z) (s : nat) : Z * nat :=
  match s with
  | O => (m, O)
  | S s' => if m mod 10 =? 0 then norm (m / 10) s' else (m, s)
  end.

Definition lift2 (f : Z * nat → Z * nat → Z * nat) (x y : dec) : dec :=
  match x, y with Some a, Some b => Some (f a b) | _, _ => None end.
Definition cmp (f : Z → Z → bool) (x y : dec) : bool :=
  match x, y with Some (m, s), Some (n, t) => f (m * Zpos (scale t)) (n * Zpos (scale s)) | _, _ => false end.

(** A point for each place, then the digits. *)
Definition print (d : Z * nat) : string :=
  let '(m, s) := norm d.1 d.2 in Nat.iter s (String "."%char) (pretty m).
Fixpoint read (s : string) : option (Z * nat) :=
  match s with
  | String "." s => '(m, k) ← read s; Some (m, S k)
  | _ => m ← parseInt s 10; Some (m, O)
  end.

#[export] Instance bignumber : BigNumber := {
  bn := dec;
  bn_of_string := read;
  bn_of_Z n := Some (n, O);
  bn_of_number a :=
    match a with
    | S754_zero _ => Some (0, O)
    | S754_finite s m e =>
        let m := if s then Zneg m else Zpos m in
        Some (if 0 <=? e then (m * 2 ^ e, O) else (m * 5 ^ (- e), Z.to_nat (- e)))
    | _ => None
    end;
  bn_pow10 k := Some (if 0 <=? k then (10 ^ k, O) else (1, Z.to_nat (- k)));
  bn_plus := lift2 (λ a b, (a.1 * Zpos (scale b.2) + b.1 * Zpos (scale a.2), (a.2 + b.2)%nat));
  bn_minus := lift2 (λ a b, (a.1 * Zpos (scale b.2) - b.1 * Zpos (scale a.2), (a.2 + b.2)%nat));
  bn_times := lift2 (λ a b, (a.1 * b.1, (a.2 + b.2)%nat));
  bn_div := lift2 (λ a b, ((a.1 * Zpos (scale b.2) * 10 ^ 20) / (b.1 * Zpos (scale a.2)), 20%nat));
  bn_shiftedBy x k := a ← x; Some (if 0 <=? k then (a.1 * 10 ^ k, a.2) else (a.1, (a.2 + Z.to_nat (- k))%nat));
  bn_ceil x := a ← x; Some (- ((- a.1) / Zpos (scale a.2)), O);
  bn_NaN := None;
  bn_isNaN x := match x with Some _ => false | None => true end;
  bn_lt := cmp Z.ltb;
  bn_lte := cmp Z.leb;
  bn_dp x := a ← x; Some (Z.of_nat (norm a.1 a.2).2);
  bn_toString x := match x with Some a => print a | None => "NaN"%string end;
  bn_toFixed x k :=
    match x with
    | Some a => print ((2 * a.1 * 10 ^ k + Zpos (scale a.2)) / (2 * Zpos (scale a.2)), Z.to_nat k)
    | None => "NaN"%string
    end;
  bn_toNumber x :=
    match x with
    | Some a => let '(m, s) := norm a.1 a.2 in
        if (s =? 0)%nat then num_of_Z m else num_div (num_of_Z m) (num_of_Z (Zpos (scale s)))
    | None => num_div (num_of_Z 0) (num_of_Z 0)
    end;
  bn_is x q := ∃ a, x = Some a ∧ Qeq (dval a) q;
}.

Lemma norm_val m s : Qeq (dval (norm m s)) (dval (m, s)).
Proof.
  revert m. induction s as [|s IH]; intros m; [done|]. cbn [norm].
  destruct (Z.eqb_spec (m mod 10) 0) as [E|]; [|done]. rewrite IH. unfold dval, Qeq. cbn [Qnum Qden fst snd].
  replace (S s) with (1 + s)%nat by lia. rewrite scale_add. change (Zpos (scale 1)) with 10.
  pose proof (Z_div_mod_eq_full m 10). rewrite E in *. lia.
Qed.

(** The number of places of the normal form is the least that gives an integer. *)
Lemma norm_least m s k : 0 <= k → Z.of_nat (norm m s).2 <= k ↔ ∃ n, m * 10 ^ k = n * 10 ^ Z.of_nat s.
Proof.
  revert m. induction s as [|s IH]; intros m Hk; cbn [norm].
  - cbn. split; [intros _; exists (m * 10 ^ k); lia|intros _; lia].
  - assert (Hp : 0 < 10 ^ Z.of_nat s) by (apply Z.pow_pos_nonneg; lia).
    rewrite Nat2Z.inj_succ, Z.pow_succ_r by lia. destruct (Z.eqb_spec (m mod 10) 0) as [E|N].
    + rewrite IH by done. pose proof (Z_div_mod_eq_full m 10). rewrite E in *. set (d := m / 10) in *. clearbody d.
      replace m with (10 * d) by lia. split; intros [n Hn]; exists n; lia.
    + cbn [snd]. rewrite Nat2Z.inj_succ. split.
      * intros Hs. exists (m * 10 ^ (k - Z.succ (Z.of_nat s))).
        rewrite <- Z.pow_succ_r, <- Z.mul_assoc, <- Z.pow_add_r by lia. f_equal. f_equal. lia.
      * intros [n Hn]. destruct (Z.le_gt_cases (Z.succ (Z.of_nat s)) k) as [|Hlt]; [done|]. exfalso. apply N.
        assert (m = n * 10 * 10 ^ (Z.of_nat s - k)) as ->.
        { apply Z.mul_reg_r with (10 ^ k); [pose proof (Z.pow_pos_nonneg 10 k); lia|].
          rewrite Hn. rewrite <- !Z.mul_assoc, <- Z.pow_add_r by lia. do 3 f_equal. lia. }
        rewrite <- Z.mul_assoc, (Z.mul_comm 10), Z.mul_assoc. apply Z.mod_mul. lia.
Qed.

Lemma norm_int m s n : Qeq (dval (m, s)) (inject_Z n) → norm m s = (n, O).
Proof.
  intros E. assert (Hs : Z.of_nat (norm m s).2 <= 0).
  { apply norm_least; [done|]. exists n. unfold dval, Qeq in E. cbn in E. rewrite scale_pos in E. lia. }
  pose proof (norm_val m s) as Hv. destruct (norm m s) as [m' [|s']]; [|cbn in Hs; lia].
  rewrite E in Hv. unfold dval, Qeq in Hv. cbn [Qnum Qden fst snd inject_Z] in Hv. rewrite scale_pos in Hv. f_equal.
  change (10 ^ Z.of_nat 0) with 1 in Hv. lia.
Qed.

Lemma read_pretty z : read (pretty z) = Some (z, O).
Proof.
  assert (∀ c t, c ≠ "."%char → read (String c t) = m ← parseInt (String c t) 10; Some (m, O)) as Hr.
  { intros c t Hc. destruct c as [[] [] [] [] [] [] [] []]; try reflexivity. done. }
  pose proof (parseInt_pretty z) as Hp. destruct z as [|p|p]; [done| |].
  - change (pretty (Zpos p)) with (pretty_N_go (Npos p) EmptyString) in *.
    destruct (pretty_go_head (Npos p) EmptyString ltac:(lia)) as (c & t & Eg & _ & Hc). rewrite Eg in *.
    rewrite Hr, Hp; [done|]. intros ->. vm_compute in Hc. intuition congruence.
  - change (pretty (Zneg p)) with (String "-" (pretty p)) in *. by rewrite Hr, Hp.
Qed.

Lemma read_print a : ∃ b, read (print a) = Some b ∧ Qeq (dval b) (dval a).
Proof.
  destruct a as [m s]. exists (norm m s). split; [|apply norm_val]. unfold print. cbn [fst snd].
  destruct (norm m s) as [m' s']. induction s' as [|s' IH]; [apply read_pretty|].
  change (('(m, k) ← read (Nat.iter s' (String ".") (pretty m')); Some (m, S k)) = Some (m', S s')). by rewrite IH.
Qed.

(** Comparisons of quotients, through the common denominator. *)
Lemma cmp_val a b p q : Qeq (dval a) p → Qeq (dval b) q →
  (a.1 * Zpos (scale b.2) < b.1 * Zpos (scale a.2) ↔ Qlt p q) ∧
  (a.1 * Zpos (scale b.2) <= b.1 * Zpos (scale a.2) ↔ Qle p q).
Proof. intros <- <-. done. Qed.

Lemma dval_times_ten m s k : 0 <= k → Qeq (Qmult (dval (m, s)) (ten k)) (Qmake (m * 10 ^ k) (scale s)).
Proof. intros Hk. rewrite ten_nonneg by done. unfold dval, Qeq. cbn [Qnum Qden Qmult inject_Z fst snd]. lia. Qed.

Lemma dval_div_ten m s k : Qeq (Qmult (dval (m, s)) (ten (- Z.of_nat k))) (dval (m, (s + k)%nat)).
Proof.
  rewrite ten_opp by lia. rewrite <- scale_pos. unfold dval, Qeq. cbn [Qnum Qden Qmult inject_Z fst snd Qinv].
  rewrite !Pos2Z.inj_mul, scale_add. lia.
Qed.

Lemma div_val a b p q r : Qeq (dval a) p → Qeq (dval b) q → ~ Qeq q 0 → Qeq (Qmult q r) p →
  (∃ n, Qeq (Qmult r (ten 20)) (inject_Z n)) →
  Qeq (dval ((a.1 * Zpos (scale b.2) * 10 ^ 20) / (b.1 * Zpos (scale a.2)), 20%nat)) r.
Proof.
  destruct a as [m s], b as [m' t]. intros Ha Hb Hq Hr (n & Hn). cbn [fst snd].
  assert (Hrn : Qeq r (Qmake n (scale 20))).
  { destruct r as [rn rd]. rewrite ten_nonneg in Hn by done. unfold Qeq in *.
    cbn [Qnum Qden Qmult inject_Z] in *. rewrite scale_pos. change (Z.of_nat 20) with 20. lia. }
  rewrite Hrn. rewrite <- Ha, <- Hb, Hrn in Hr. rewrite <- Hb in Hq.
  unfold dval, Qeq in *. cbn [Qnum Qden Qmult inject_Z fst snd] in *. rewrite Pos2Z.inj_mul in Hr.
  change (Zpos (scale 20)) with (10 ^ 20) in *. f_equal.
  replace (m * Zpos (scale t) * 10 ^ 20) with (n * (m' * Zpos (scale s))) by lia. apply Z.div_mul. lia.
Qed.

(** An integer as a double, read back through its binary digits. *)
Lemma of_number_pos p : Zpos p < 2 ^ 53 → ∃ m e, num_of_Z (Zpos p) = S754_finite false m e ∧ e <= 0 ∧ Zpos m = Zpos p * 2 ^ (- e).
Proof.
  intros Hp. destruct (num_of_pos p Hp) as (m & -> & Hm & _). pose proof (digits_le (Zpos p) 53 ltac:(lia) ltac:(lia)).
  eexists _, _. split; [reflexivity|]. split; [lia|]. by rewrite Hm, Z.opp_sub_distr, Z.add_comm.
Qed.

#[export] Instance bignumber_spec : BigNumberSpec.
Proof.
  split; cbn [bn_is bignumber].
  - intros x p q E (a & -> & Ha). exists a. split; [done|]. by rewrite Ha.
  - intros x p q (a & -> & Ha) (b & [= <-] & Hb). by rewrite <- Ha.
  - intros x p (a & -> & _). done.
  - done.
  - intros n. exists (n, O). done.
  - intros [|p|p] Hn; [by exists (0, O)| |lia]. destruct (of_number_pos p ltac:(lia)) as (m & e & E & He & Hm).
    cbn [bn_of_number bignumber]. rewrite E. eexists. split; [reflexivity|]. destruct (Z.leb_spec 0 e).
    + assert (e = 0) as -> by lia. unfold dval, Qeq. cbn [Qnum Qden fst snd inject_Z]. change (- 0) with 0 in Hm. change (2 ^ 0) with 1 in *. change (Zpos (scale 0)) with 1. lia.
    + unfold dval, Qeq. cbn [Qnum Qden fst snd inject_Z]. rewrite scale_pos, Z2Nat.id, Hm by lia.
      change 10 with (2 * 5). rewrite Z.pow_mul_l. lia.
  - intros k Hk. eexists. split; [done|]. destruct (Z.leb_spec 0 k).
    + rewrite ten_nonneg by done. done.
    + replace k with (- Z.of_nat (Z.to_nat (- k))) at 2 by lia. rewrite <- (Qmult_1_l (ten _)).
      change 1%Q with (dval (1, O)). by rewrite dval_div_ten.
  - intros x y p q (a & -> & Ha) (b & -> & Hb). eexists. split; [done|]. rewrite <- Ha, <- Hb.
    unfold dval, Qeq. cbn [Qnum Qden Qplus fst snd]. rewrite scale_add, Pos2Z.inj_mul. done.
  - intros x y p q (a & -> & Ha) (b & -> & Hb). eexists. split; [done|]. rewrite <- Ha, <- Hb.
    unfold dval, Qeq. cbn [Qnum Qden Qplus Qminus Qopp fst snd]. rewrite scale_add, Pos2Z.inj_mul. lia.
  - intros x y p q (a & -> & Ha) (b & -> & Hb). eexists. split; [done|]. rewrite <- Ha, <- Hb.
    unfold dval, Qeq. cbn [Qnum Qden Qmult fst snd]. rewrite scale_add, Pos2Z.inj_mul. done.
  - intros x y p q r (a & -> & Ha) (b & -> & Hb) Hq Hr (n & Hn). eexists. split; [done|].
    eapply div_val; eauto.
  - intros x p k (a & -> & Ha). eexists. split; [done|]. rewrite <- Ha. destruct a as [m s], (Z.leb_spec 0 k); cbn [fst snd].
    + rewrite dval_times_ten by done. reflexivity.
    + rewrite <- dval_div_ten. replace (- Z.of_nat _) with k by lia. reflexivity.
  - intros x n (a & -> & Ha). eexists. split; [done|]. unfold dval, Qeq in *. cbn [Qnum Qden fst snd inject_Z] in *.
    rewrite Z.mul_1_r in Ha. rewrite Ha, <- Z.mul_opp_l, Z.div_mul, Z.opp_involutive by lia. done.
  - intros x y p q (a & -> & Ha) (b & -> & Hb). destruct (cmp_val _ _ _ _ Ha Hb) as [<- _]. destruct a, b. apply Z.ltb_lt.
  - intros x y p q (a & -> & Ha) (b & -> & Hb). destruct (cmp_val _ _ _ _ Ha Hb) as [_ <-]. destruct a, b. apply Z.leb_le.
  - intros [a|] [b|] [H|H]; done || by destruct a.
  - intros [a|] [b|] [H|H]; done || by destruct a.
  - intros [[m s]|] [[n t]|]; cbn; try done. intros H%Z.ltb_lt. split; [apply Z.leb_gt|apply Z.ltb_ge]; lia.
  - intros x p ([m s] & -> & Ha). eexists. split; [done|]. intros k Hk. rewrite norm_least by done. cbn [fst snd].
    split; intros [n Hn]; exists n.
    + rewrite <- Ha, dval_times_ten by done. unfold Qeq. cbn [Qnum Qden inject_Z]. rewrite scale_pos. lia.
    + rewrite <- Ha, dval_times_ten in Hn by done. unfold Qeq in Hn. cbn [Qnum Qden inject_Z] in Hn. rewrite scale_pos in Hn. lia.
  - intros x n ([m s] & -> & Ha) _. cbn [bn_toString bignumber]. unfold print. cbn [fst snd]. by rewrite (norm_int _ _ _ Ha).
  - intros n. exists (n, O). split; [apply read_pretty|done].
  - intros x p (a & -> & Ha). destruct (read_print a) as (b & Eb & Hb). exists b. split; [done|]. by rewrite Hb.
  - intros x p k (a & -> & _) Hk. cbn [bn_toFixed bignumber]. set (n := _ / _). exists n. destruct (read_print (n, Z.to_nat k)) as (b & Eb & Hb).
    exists b. split; [done|]. rewrite Hb. replace k with (Z.of_nat (Z.to_nat k)) at 2 by lia.
    change (inject_Z n) with (dval (n, O)). by rewrite dval_div_ten.
  - intros [a|] y z p q _ _ Hn _ _; [|done]. by exists (dval a), a.
  - intros x n ([m s] & -> & Ha) _. cbn [bn_toNumber bignumber fst snd]. by rewrite (norm_int _ _ _ Ha).
Qed.

End ConcreteBn.
