(* ===== verification/OpReturn.v ===== *)
(** * Messages in outputs

    [generateOpReturnScript], [encodeOpReturnScript], [parseOpReturn] and
    [convertToEncryptStruct] of [cashtab/src/utils/cashMethods.js], with the
    constants of [currency.opReturn] in [cashtab/src/components/Common/Ticker.js].
    What the wallet writes into an output it reads back; the parser terminates
    on every text. *)

From stdpp Require Import base tactics list numbers strings.
From Stdlib Require Import Ascii.
From S2P Require Import Prelude JsNumber NodeBuffer Opcodes PushData Script Asm Encodings JsString.
Open Scope Z_scope.

Module OpReturn.

(** ** Constants *)

Definition opReturnPrefixHex : string := "6a".
(** The string ['106'] in the source; [writeUInt8] converts it to a number. *)
Definition opReturnPrefixDec : Z := 106.
Definition opPushDataOne : string := "4c".
Definition eToken : string := "534c5000".
Definition cashtab : string := "00746162".
Definition cashtabEncrypted : string := "65746162".
Definition airdrop : string := "64726f70".

(** [Buffer.from(s)]; a string is modelled by its UTF-8 bytes. *)
Definition bytes_of (s : string) : buffer := map code (String.list_ascii_of_string s).

Definition is_empty (s : string) : bool := String.eqb s EmptyString.

(** ** Writing *)

Section S.
Context {Mem : UninitMem}.

Definition encodeOpReturnScript (scriptChunks : list chunk) : result buffer :=
  Script.compile (SArr scriptChunks).

Definition generateOpReturnScript (optionalOpReturnMsg : option string) (encryptionFlag airdropFlag : bool)
    (airdropTokenId : option string) (encryptedEj : option buffer) : result buffer :=
  let tokenId := default EmptyString airdropTokenId in
  if (encryptionFlag && negb (bool_decide (is_Some encryptedEj))) || (airdropFlag && is_empty tokenId)
  then Throw (Error "Invalid OP RETURN script input") else
  let script := [COp opReturnPrefixDec] in
  let script :=
    if encryptionFlag then
      script ++ [CBuf (Hex.fromHex cashtabEncrypted); CBuf (default [] encryptedEj)]
    else
      let script :=
        if airdropFlag then script ++ [CBuf (Hex.fromHex airdrop); CBuf (Hex.fromHex tokenId)] else script in
      let script := script ++ [CBuf (Hex.fromHex cashtab)] in
      match optionalOpReturnMsg with
      | Some msg => if is_empty msg then script else script ++ [CBuf (bytes_of msg)]
      | None => script
      end in
  encodeOpReturnScript script.

End S.

(** ** Reading *)

(** The body of the loop: the size of the next message and what follows the size.
    [NaN] acts as 0 in [substring] and [slice]. *)
Definition message_size (hexStr : string) : Z * string :=
  if String.eqb (substring hexStr 0 2) opPushDataOne
  then (default 0 (parseInt (substring hexStr 2 4) 16), str_slice hexStr 4)
  else (default 0 (parseInt (substring hexStr 0 2) 16), str_slice hexStr 2).

(** Every branch of the source stores the message in [resultArray[i]]; the first
    one also leaves the loop. *)
Fixpoint parse_loop (fuel : nat) (i : nat) (hexStr : string) : result (list string) :=
  match fuel with
  | O => Throw OutOfFuel
  | S fuel =>
      if strlen hexStr =? 0 then Ok [] else
      let '(msgByteSize, hexStr) := message_size hexStr in
      let msgCharLength := 2 * msgByteSize in
      let message := substring hexStr 0 msgCharLength in
      if (i =? 0)%nat && String.eqb message eToken then Ok [eToken]
      else
        rest ← parse_loop fuel (S i) (str_slice hexStr msgCharLength);
        Ok (message :: rest)
  end.

(** [None] is [false]. *)
Definition parseOpReturn (hexStr : string) : result (option (list string)) :=
  if is_empty hexStr || negb (String.eqb (substring hexStr 0 2) opReturnPrefixHex) then Ok None
  else
    let hexStr := str_slice hexStr 2 in
    r ← parse_loop (S (String.length hexStr)) 0 hexStr; Ok (Some r).

(** ** Encrypted messages *)

Record encryptStruct := mkEncrypt { es_iv : buffer; es_epk : buffer; es_ct : buffer; es_mac : buffer }.

Definition convertToEncryptStruct (encryptionBuffer : buffer) : result encryptStruct :=
  publicKey ← (match encryptionBuffer !! 0%nat with
               | Some b =>
                   if b =? 4 then Ok (slice encryptionBuffer 0 65)
                   else if (b =? 3) || (b =? 2) then Ok (slice encryptionBuffer 0 33)
                   else Throw (Error "Invalid type: ")
               | None => Throw (Error "Invalid type: ")
               end : result buffer);
  let startOfBuf := blen publicKey in
  let encryptionTagLength := 32 in
  let ivCtSubstring := slice encryptionBuffer startOfBuf (blen encryptionBuffer - encryptionTagLength) in
  let ivbufParam := slice ivCtSubstring 0 16 in
  let ctbufParam := slice_from ivCtSubstring 16 in
  let macParam := slice encryptionBuffer (blen encryptionBuffer - encryptionTagLength) (blen encryptionBuffer) in
  Ok (mkEncrypt ivbufParam publicKey ctbufParam macParam).

(** [Buffer.concat([epk, iv, ct, mac])] in [sendXec] of [transactions.js] *)
Definition serializeEj (ej : encryptStruct) : buffer := es_epk ej ++ es_iv ej ++ es_ct ej ++ es_mac ej.

(** ** Termination *)

Lemma length_str_slice s a : (String.length (str_slice s a) <= String.length s)%nat.
Proof. unfold str_slice. rewrite length_str_drop. lia. Qed.

Lemma message_size_shorter s : s ≠ EmptyString → (String.length (message_size s).2 < String.length s)%nat.
Proof.
  intros Hs. assert (0 < String.length s)%nat by (destruct s; [done|cbn; lia]).
  unfold message_size. destruct (String.eqb _ _); cbn [snd]; rewrite str_slice_nat, length_str_drop by lia; lia.
Qed.

Lemma parse_loop_returns fuel i s : (String.length s < fuel)%nat → returns (parse_loop fuel i s).
Proof.
  revert i s. induction fuel as [|fuel IH]; intros i s Hf; [lia|]. cbn [parse_loop].
  destruct (Z.eqb_spec (strlen s) 0) as [|Hs]; [by eexists|].
  pose proof (message_size_shorter s) as Hm. destruct (message_size s) as [n t]. cbn [snd] in Hm.
  assert (s ≠ EmptyString) as Hne by (intros ->; done). specialize (Hm Hne).
  destruct (_ && _); [by eexists|]. apply returns_bind; [|by eexists].
  apply IH. pose proof (length_str_slice t (2 * n)). lia.
Qed.

(** ** What is written is read back *)

(** A push that has a one-byte length. *)
Definition short_push (b : buffer) : Prop := bytes_ok b ∧ blen b <= 255 ∧ Script.asMinimalOP b = None.

Lemma toHex_byte_ne x y : is_byte x → is_byte y → x ≠ y → String.eqb (Hex.toHex [x]) (Hex.toHex [y]) = false.
Proof.
  intros Hx Hy Hne. apply String.eqb_neq. intros E. apply Hne.
  apply toHex_inj in E; [congruence|by repeat constructor; apply Hx|by repeat constructor; apply Hy].
Qed.

Lemma message_size_push b rest : short_push b →
  message_size (Hex.toHex (Script.chunk_bytes (CBuf b) ++ rest)) = (blen b, Hex.toHex (b ++ rest)).
Proof.
  intros (Hb & Hl & Hm). pose proof (blen_nonneg b). cbn [Script.chunk_bytes]. rewrite Hm, <- app_assoc.
  unfold PushData.prefix, message_size. change opPushDataOne with (Hex.toHex [76]).
  destruct (Z.ltb_spec (blen b) 76).
  - rewrite substring_0, take_toHex, toHex_byte_ne, parseInt_byte by (done || unfold is_byte; lia).
    by rewrite str_slice_nat, drop_toHex.
  - rewrite (proj2 (Z.ltb_lt _ _)) by lia. cbn [le_bytes]. rewrite Z.mod_small by lia.
    change ((76 :: [blen b]) ++ b ++ rest) with ([76] ++ [blen b] ++ b ++ rest).
    rewrite (substring_0 _ 2), take_toHex, String.eqb_refl by done.
    rewrite substring_mid by (rewrite ?strlen_toHex; blen_lia).
    rewrite drop_toHex, take_toHex, parseInt_byte by (done || unfold is_byte; lia).
    rewrite str_slice_nat, app_assoc, drop_toHex by done. done.
Qed.

Lemma parse_loop_push fuel i b rest : short_push b →
  parse_loop (S fuel) i (Hex.toHex (Script.chunk_bytes (CBuf b) ++ rest)) =
  if (i =? 0)%nat && String.eqb (Hex.toHex b) eToken then Ok [eToken]
  else r ← parse_loop fuel (S i) (Hex.toHex rest); Ok (Hex.toHex b :: r).
Proof.
  intros Hp. pose proof (message_size_push b rest Hp) as Hms. destruct Hp as (Hb & Hl & Hm). pose proof (blen_nonneg b).
  cbn [parse_loop]. rewrite Hms, substring_0, take_toHex, str_slice_nat, drop_toHex
    by (unfold blen in *; lia).
  rewrite (proj2 (Z.eqb_neq _ _)); [done|]. rewrite strlen_toHex, blen_app. cbn [Script.chunk_bytes]. rewrite Hm, blen_app.
  pose proof (blen_nonneg rest). unfold PushData.prefix. split_ifs; blen_lia.
Qed.

Lemma pushes_length bs : Forall short_push bs → (length bs <= length (Script.serialize (map CBuf bs)))%nat.
Proof.
  induction 1 as [|b bs (Hb & Hl & Hm) _ IH]; [done|]. unfold Script.serialize in *. cbn [map concat].
  rewrite length_app. cbn [Script.chunk_bytes]. rewrite Hm, length_app. unfold PushData.prefix.
  cbn [length]. repeat case_match; cbn [length]; lia.
Qed.

Lemma parse_loop_pushes bs : ∀ fuel i, Forall short_push bs → (length bs < fuel)%nat → (0 < i)%nat →
  parse_loop fuel i (Hex.toHex (Script.serialize (map CBuf bs))) = Ok (map Hex.toHex bs).
Proof.
  induction bs as [|b bs IH]; intros [|fuel] i Hbs Hf Hi; cbn [length] in Hf; try lia; [done|].
  inversion_clear Hbs as [|? ? Hb Hbs']. cbn [map]. unfold Script.serialize. cbn [map concat].
  rewrite parse_loop_push by done. rewrite (proj2 (Nat.eqb_neq _ _)) by lia. cbn [andb].
  rewrite IH by (done || lia). done.
Qed.

(** The pushes of a script after [OP_RETURN], unless the first one is the prefix
    of tokens. *)
Lemma parseOpReturn_pushes b bs : Forall short_push (b :: bs) → Hex.toHex b ≠ eToken →
  parseOpReturn (Hex.toHex (Script.serialize (COp opReturnPrefixDec :: map CBuf (b :: bs)))) =
  Ok (Some (map Hex.toHex (b :: bs))).
Proof.
  intros Hbs Ht. pose proof (pushes_length _ Hbs) as Hlen. change (Script.serialize _) with ([106] ++ Script.serialize (map CBuf (b :: bs))).
  set (rest := Script.serialize _). unfold parseOpReturn.
  rewrite substring_0, take_toHex, str_slice_nat, drop_toHex by done. change (String.eqb _ opReturnPrefixHex) with true.
  replace (is_empty _) with false by done. cbn [negb orb].
  inversion_clear Hbs as [|? ? Hb Hbs']. subst rest. unfold Script.serialize. cbn [map concat].
  rewrite parse_loop_push by done. rewrite (proj2 (String.eqb_neq _ _)) by done. cbn [Nat.eqb andb].
  fold (Script.serialize (map CBuf bs)). unfold Script.serialize in Hlen. cbn [map concat length] in Hlen.
  rewrite length_app in Hlen. rewrite parse_loop_pushes; [done|done| |lia].
  rewrite length_toHex, length_app. unfold Script.serialize. lia.
Qed.

Lemma short_push_writable bs : Forall short_push bs →
  forallb Script.writable (COp opReturnPrefixDec :: map CBuf bs) = true.
Proof.
  intros H. cbn [forallb]. apply andb_true_iff. split; [done|]. apply forallb_forall. intros c Hc.
  apply in_map_iff in Hc as (b & <- & Hb). apply list_elem_of_In in Hb. rewrite Forall_forall in H.
  destruct (H b Hb) as (_ & Hl & _). apply Z.ltb_lt. lia.
Qed.

(** Data of more than one byte has no opcode of its own. *)
Lemma short_push_long b : bytes_ok b → 1 < blen b <= 255 → short_push b.
Proof.
  intros Hb Hl. split_and!; [done|lia|]. unfold Script.asMinimalOP. by rewrite !(proj2 (Z.eqb_neq _ _)) by lia.
Qed.

Section Laws.
Context {Mem : UninitMem}.

Lemma generate_then_parse pushes script :
  Forall short_push pushes → encodeOpReturnScript (COp opReturnPrefixDec :: map CBuf pushes) = Ok script →
  Hex.toHex (default [] (head pushes)) ≠ eToken → pushes ≠ [] →
  parseOpReturn (Hex.toHex script) = Ok (Some (map Hex.toHex pushes)).
Proof.
  intros Hp E Ht Hne. unfold encodeOpReturnScript in E. rewrite Script.compile_writable in E by by apply short_push_writable.
  injection E as <-. destruct pushes as [|b bs]; [done|]. by apply parseOpReturn_pushes.
Qed.

(** A message is read back from the output that carries it.  For a message
    whose bytes are a push with a one-byte length, the script of
    [generateOpReturnScript] exists and [parseOpReturn] of its hexadecimal text
    returns the prefix of the wallet and the message; an airdrop has its prefix and
    the token before them, an encrypted message its own prefix. *)
Lemma op_return_roundtrip msg tokenId ej : msg ≠ EmptyString → short_push (bytes_of msg) → bytes_ok tokenId → blen tokenId = 32 →
  bytes_ok ej → 1 < blen ej <= 255 →
  (∃ script, generateOpReturnScript (Some msg) false false None None = Ok script ∧
     parseOpReturn (Hex.toHex script) = Ok (Some [cashtab; Hex.toHex (bytes_of msg)])) ∧
  (∃ script, generateOpReturnScript (Some msg) false true (Some (Hex.toHex tokenId)) None = Ok script ∧
     parseOpReturn (Hex.toHex script) = Ok (Some [airdrop; Hex.toHex tokenId; cashtab; Hex.toHex (bytes_of msg)])) ∧
  (∃ script, generateOpReturnScript (Some msg) true false None (Some ej) = Ok script ∧
     parseOpReturn (Hex.toHex script) = Ok (Some [cashtabEncrypted; Hex.toHex ej])).
Proof.
  intros Hne Hm Hid Hl Hej Hejl. apply String.eqb_neq in Hne.
  assert (Hi : is_empty (Hex.toHex tokenId) = false).
  { apply String.eqb_neq. intros E. apply (f_equal strlen) in E. rewrite strlen_toHex, Hl in E. discriminate E. }
  assert (Hc : short_push (Hex.fromHex cashtab)) by (apply short_push_long; [concrete|vm_compute; split; congruence]).
  assert (Ha : short_push (Hex.fromHex airdrop)) by (apply short_push_long; [concrete|vm_compute; split; congruence]).
  assert (He : short_push (Hex.fromHex cashtabEncrypted)) by (apply short_push_long; [concrete|vm_compute; split; congruence]).
  pose proof (short_push_long tokenId Hid ltac:(lia)) as Hid'. pose proof (short_push_long ej Hej ltac:(lia)) as Hej'.
  assert (Hgo : ∀ p ps, Forall short_push (p :: ps) → Hex.toHex p ≠ eToken → ∃ script,
    encodeOpReturnScript (COp opReturnPrefixDec :: map CBuf (p :: ps)) = Ok script ∧
    parseOpReturn (Hex.toHex script) = Ok (Some (map Hex.toHex (p :: ps)))).
  { intros p ps Hp Ht. eexists. split; [apply Script.compile_writable; by apply short_push_writable|].
    by apply parseOpReturn_pushes. }
  unfold generateOpReturnScript. cbn [from_option id andb orb negb]. rewrite Hi. unfold is_empty. rewrite Hne. split_and!.
  - apply (Hgo (Hex.fromHex cashtab) [bytes_of msg]); [by auto using Forall_nil_2, Forall_cons_2|done].
  - rewrite (Hex.fromHex_toHex tokenId) by done.
    apply (Hgo (Hex.fromHex airdrop) [tokenId; Hex.fromHex cashtab; bytes_of msg]); [by auto using Forall_nil_2, Forall_cons_2|done].
  - rewrite bool_decide_true by by eexists. apply (Hgo (Hex.fromHex cashtabEncrypted) [ej]); [by auto using Forall_nil_2, Forall_cons_2|done].
Qed.

End Laws.

(** [parseOpReturn] terminates on every text, whatever the sizes in it say. *)
Theorem parse_terminates s : ∃ r, parseOpReturn s = Ok r.
Proof.
  unfold parseOpReturn. destruct (_ || _); [by eexists|].
  destruct (parse_loop_returns (S (String.length (str_slice s 2))) 0 (str_slice s 2)) as [r ->]; [lia|by eexists].
Qed.

(** The parts of an encrypted message are those that were concatenated, for
    both forms of the ephemeral key, a vector of 16 bytes and a tag of 32. *)
Lemma encrypt_struct_roundtrip ej : blen (es_iv ej) = 16 → blen (es_mac ej) = 32 →
  (∃ t k, es_epk ej = t :: k ∧ (t = 4 ∧ blen k = 64 ∨ (t = 2 ∨ t = 3) ∧ blen k = 32)) →
  convertToEncryptStruct (serializeEj ej) = Ok ej.
Proof.
  destruct ej as [iv epk ct mac]. cbn [es_iv es_epk es_ct es_mac]. intros Hi Hm (t & k & -> & Ht).
  unfold convertToEncryptStruct, serializeEj. cbn [es_iv es_epk es_ct es_mac].
  set (buf := (t :: k) ++ iv ++ ct ++ mac).
  assert (Hk : ∀ n, blen (t :: k) = n → slice buf 0 n = t :: k).
  { intros n Hn. subst buf. apply (slice_at [] (t :: k)); [done|lia]. }
  assert (Hb : blen buf = blen (t :: k) + 16 + blen ct + 32) by (subst buf; blen_lia).
  match goal with |- (?m ≫= _) = _ => assert (m = Ok (t :: k)) as -> end.
  { subst buf. cbn [app lookup list_lookup]. destruct Ht as [[-> Hl]|[[->| ->] Hl]]; cbn -[slice];
      rewrite Hk by (rewrite blen_cons; lia); done. }
  cbn [mbind result_bind]. rewrite Hb.
  replace (slice buf (blen (t :: k)) _) with (iv ++ ct).
  2: { symmetry. subst buf. rewrite (app_assoc iv). apply slice_at; [done|]. rewrite blen_app. lia. }
  replace (slice buf _ (_ + 32)) with mac.
  2: { symmetry. replace buf with (((t :: k) ++ iv ++ ct) ++ mac ++ []) by (subst buf; by rewrite app_nil_r, <- !app_assoc).
       apply slice_at; [rewrite !blen_app; lia|lia]. }
  assert (slice (iv ++ ct) 0 16 = iv) as -> by (apply (slice_at [] iv); [done|lia]).
  assert (slice_from (iv ++ ct) 16 = ct) as -> by (rewrite <- Hi; apply slice_from_app). done.
Qed.


End OpReturn.
