(* ===== verification/WalletExternals.v ===== *)
(** * Packages the wallet calls

    [ecashaddrjs] (addresses), [bs58] (base 58 without a checksum), [slp-mdm] (the
    scripts of tokens) and [ecies-lite] (encryption to a public key) are npm
    packages outside the repository: operational classes with the laws their
    documentation gives, and concrete instances at the end. *)

From stdpp Require Import base tactics list numbers strings.
From Stdlib Require Import Ascii.
From S2P Require Import Prelude JsNumber NodeBuffer Asm Encodings JsString BigNumber OpReturn.
Open Scope Z_scope.

(** ** ecashaddrjs *)
Class Cashaddr := {
  (** prefix, type and hash *)
  ca_decode : string → result (string * string * buffer);
  ca_encode : string → string → buffer → result string;
}.

(** The prefixes that occur in the wallet, among those the package knows. *)
Definition ca_prefixes : list string := ["ecash"; "etoken"; "bitcoincash"; "simpleledger"]%string.
Definition ca_types : list string := ["P2PKH"; "P2SH"]%string.

Class CashaddrSpec `{!Cashaddr} : Prop := {
  ca_roundtrip p t h : p ∈ ca_prefixes → t ∈ ca_types → bytes_ok h → blen h = 20 →
    ∃ a, ca_encode p t h = Ok (String.append p (String ":" a)) ∧
      ca_decode (String.append p (String ":" a)) = Ok (p, t, h) ∧ includes a ":" = false ∧ a ≠ EmptyString;
  (** an address in lower case starts with its prefix *)
  ca_decode_prefix s p t h : ca_decode s = Ok (p, t, h) → s = toLowerCase s → starts (String.append p ":") s = true;
  ca_decode_ok s p t h : ca_decode s = Ok (p, t, h) → bytes_ok h;
}.

(** ** bs58 *)
Class Bs58 := {
  b58_encode : buffer → string;
  b58_decode : string → result buffer;
}.
Class Bs58Spec `{!Bs58} : Prop := {
  b58_roundtrip b : bytes_ok b → b58_decode (b58_encode b) = Ok b;
}.

(** ** slp-mdm *)
Class SlpMdm `{!BigNumber} := {
  (** [TokenType1.send(tokenId, amounts)] *)
  slp_send : string → list bn → result buffer;
  (** [TokenType1.genesis(ticker, name, url, hash, decimals, baton, amount)] *)
  slp_genesis : string → string → string → string → Z → option Z → bn → result buffer;
}.

(** ** ecies-lite *)
Class Ecies := {
  (** [encrypt(publicKey, message, { compressEpk: true })]; the randomness it
      draws is part of the function *)
  ecies_encrypt : buffer → buffer → result OpReturn.encryptStruct;
  ecies_decrypt : buffer → OpReturn.encryptStruct → result buffer;
  (** [ecies_pair d Q]: the public key of [d] is [Q] *)
  ecies_pair : buffer → buffer → Prop;
}.
Class EciesSpec `{!Ecies} : Prop := {
  ecies_roundtrip d Q m ej : ecies_pair d Q → bytes_ok m → ecies_encrypt Q m = Ok ej → ecies_decrypt d ej = Ok m;
  ecies_shape Q m ej : ecies_encrypt Q m = Ok ej →
    bytes_ok (OpReturn.serializeEj ej) ∧ blen (OpReturn.es_iv ej) = 16 ∧ blen (OpReturn.es_mac ej) = 32 ∧
    ∃ t k, OpReturn.es_epk ej = t :: k ∧ (t = 2 ∨ t = 3) ∧ blen k = 32;
}.

(** ** bip39 *)
Class Bip39 := {
  (** [mnemonicToSeed(mnemonic, password)] *)
  b39_mnemonicToSeed : string → string → promise buffer;
}.
Class Bip39Spec `{!Bip39} : Prop := {
  (** a seed has 512 bits *)
  b39_seed m p b : b39_mnemonicToSeed m p = Resolved b → bytes_ok b ∧ blen b = 64;
}.

(** ** Concrete instances *)
Module ConcreteWallet.

(** The payload is the type and the hash in hexadecimal. *)
Fixpoint cut (s : string) : option (string * string) :=
  match s with
  | EmptyString => None
  | String ":" s => Some (EmptyString, s)
  | String c s => '(p, r) ← cut s; Some (String c p, r)
  end.

#[export] Instance cashaddr : Cashaddr := {
  ca_decode s :=
    match cut s with
    | Some (p, String "q" a) => Ok (p, "P2PKH"%string, Hex.fromHex a)
    | Some (p, String "p" a) => Ok (p, "P2SH"%string, Hex.fromHex a)
    | _ => Throw (Error "Invalid address")
    end;
  ca_encode p t h :=
    if bool_decide (t = "P2PKH"%string) then Ok (String.append p (String ":" (String "q" (Hex.toHex h))))
    else if bool_decide (t = "P2SH"%string) then Ok (String.append p (String ":" (String "p" (Hex.toHex h))))
    else Throw (Error "Invalid type");
}.

#[local] Arguments String.append : simpl nomatch.

Lemma includes_colon c s : includes (String c s) ":" = false ↔ c ≠ ":"%char ∧ includes s ":" = false.
Proof.
  unfold includes. cbn [indexOf starts String.prefix]. destruct (ascii_dec ":" c) as [<-|Hc].
  - destruct s; split; (done || by intros []).
  - destruct (indexOf s ":" <? 0) eqn:E; cbn; [by split; [split; congruence|]|].
    apply Z.ltb_ge in E. rewrite (proj2 (Z.ltb_ge _ _)) by lia. split; [done|by intros []].
Qed.

Lemma cut_app p a : includes p ":" = false → cut (String.append p (String ":" a)) = Some (p, a).
Proof.
  induction p as [|c p IH]; [done|]. intros [Hc Hp]%includes_colon.
  cbn [String.append]. destruct c as [[] [] [] [] [] [] [] []]; try done; cbn [cut]; by rewrite IH.
Qed.

Lemma cut_inv s p a : cut s = Some (p, a) → s = String.append p (String ":" a).
Proof.
  revert p. induction s as [|c s IH]; intros p H; [done|].
  destruct (decide (c = ":"%char)) as [->|Hc]; [by injection H as <- <-|].
  assert (H' : ('(q, r) ← cut s; Some (String c q, r)) = Some (p, a))
    by (destruct c as [[] [] [] [] [] [] [] []]; try exact H; done).
  destruct (cut s) as [[q r]|] eqn:E; [|done]. injection H' as <- <-. cbn [String.append]. f_equal. by apply IH.
Qed.

Lemma toHex_no_colon h : bytes_ok h → includes (Hex.toHex h) ":" = false.
Proof.
  assert (Hd : ∀ n, 0 <= n < 16 → Hex.digit n ≠ ":"%char).
  { intros n Hn E. pose proof (Hex.value_digit n Hn) as V. rewrite E in V. done. }
  induction 1 as [|x h Hx _ IH]; [done|]. cbn [Hex.toHex]. unfold is_byte in Hx.
  rewrite !includes_colon. split_and!; [apply Hd; split; [apply Z.div_pos|apply Z.div_lt_upper_bound]; lia| |done].
  apply Hd, Z.mod_pos_bound. lia.
Qed.

#[export] Instance cashaddr_spec : CashaddrSpec.
Proof.
  split.
  - intros p t h Hp Ht Hb Hl.
    assert (Hi : includes p ":" = false) by (repeat (apply elem_of_cons in Hp as [->|Hp]; [done|]); by apply elem_of_nil in Hp).
    apply elem_of_cons in Ht as [->|[->|[]%elem_of_nil]%elem_of_cons].
    + exists (String "q" (Hex.toHex h)). cbn [ca_encode ca_decode cashaddr]. split; [done|].
      rewrite cut_app, Hex.fromHex_toHex by done. split; [done|]. split; [|done]. apply includes_colon. split; [done|by apply toHex_no_colon].
    + exists (String "p" (Hex.toHex h)). cbn [ca_encode ca_decode cashaddr]. split; [done|].
      rewrite cut_app, Hex.fromHex_toHex by done. split; [done|]. split; [|done]. apply includes_colon. split; [done|by apply toHex_no_colon].
  - intros s p t h H _. cbn [ca_decode cashaddr] in H. destruct (cut s) as [[q r]|] eqn:E; [|done].
    assert (q = p) as -> by (repeat case_match; by inversion H). apply cut_inv in E as ->.
    change (String ":" r) with (String.append ":" r). rewrite <- append_assoc. apply starts_app.
  - intros s p t h H. cbn [ca_decode cashaddr] in H. repeat case_match; inversion H; apply Hex.fromHex_ok.
Qed.

#[export] Instance bs58 : Bs58 := { b58_encode := Hex.toHex; b58_decode s := Ok (Hex.fromHex s) }.

#[export] Instance bs58_spec : Bs58Spec.
Proof. split. intros b Hb. cbn. by rewrite Hex.fromHex_toHex. Qed.

(** The amounts as text. *)
#[export] Instance slpmdm `{!BigNumber} : SlpMdm := {
  slp_send tokenId amounts := Ok (Hex.fromHex tokenId ++ concat (map (λ a, OpReturn.bytes_of (bn_toString a)) amounts));
  slp_genesis ticker name url hash decimals baton amount := Ok (OpReturn.bytes_of (bn_toString amount));
}.

(** No secrecy, the same shape. *)
#[export] Instance ecies : Ecies := {
  ecies_encrypt Q m :=
    if bool_decide (Forall is_byte m) then Ok (OpReturn.mkEncrypt (repeat 1 16) (2 :: repeat 7 32) m (repeat 9 32))
    else Throw RangeError;
  ecies_decrypt d ej := Ok (OpReturn.es_ct ej);
  ecies_pair _ _ := True;
}.

#[export] Instance ecies_spec : EciesSpec.
Proof.
  split.
  - intros d Q m ej _ Hm H. cbn in H. rewrite bool_decide_true in H by done. by injection H as <-.
  - intros Q m ej H. cbn in H. destruct (bool_decide _) eqn:E; [|done]. apply bool_decide_eq_true in E. injection H as <-.
    split_and!; [|done|done|by exists 2, (repeat 7 32); auto].
    unfold OpReturn.serializeEj. cbn [OpReturn.es_epk OpReturn.es_iv OpReturn.es_ct OpReturn.es_mac].
    rewrite !bytes_ok_app. split_and!; [concrete|concrete|done|concrete].
Qed.

(** The seed has the last byte of the mnemonic. *)
Definition seed_of (m : string) : buffer := repeat 1 63 ++ [default 0 (last (map (λ c, code c mod 256) (String.list_ascii_of_string m)))].
#[export] Instance bip39 : Bip39 := { b39_mnemonicToSeed m p := Resolved (seed_of m) }.

#[export] Instance bip39_spec : Bip39Spec.
Proof.
  split. intros m p b [= <-]. unfold seed_of. split; [|rewrite blen_app; done]. apply bytes_ok_app. split; [concrete|].
  apply bytes_ok_cons. split; [|constructor]. unfold is_byte. destruct (last _) as [c|] eqn:E; cbn [from_option id]; [|lia].
  apply last_Some_elem_of, list_elem_of_fmap in E as (x & -> & _). apply Z.mod_pos_bound. lia.
Qed.

End ConcreteWallet.
