(* ===== verification/WalletAddress.v ===== *)
(** * Addresses in the wallet

    The address checks of [cashtab/src/utils/validation.js] and the conversions of
    [cashtab/src/utils/cashMethods.js]: the same hash under the prefixes of eCash,
    eTokens and Bitcoin Cash, with the prefix or without it. *)

From stdpp Require Import base tactics list numbers strings.
From Stdlib Require Import Ascii.
From S2P Require Import Prelude JsNumber NodeBuffer Asm Encodings JsString BigNumber OpReturn WalletExternals.
Open Scope Z_scope.

Module WalletAddress.
Section S.
Context `{CA : !Cashaddr}.

(** [cashaddr.decode(s).prefix === p]; an exception and another prefix, which
    leaves the result [undefined], count as [false]. *)
Definition decodes_with (p s : string) : bool :=
  match ca_decode s with
  | Ok (prefix, _, _) => String.eqb prefix p
  | Throw _ => false
  end.

Definition isValidXecAddress (addr : string) : bool :=
  if OpReturn.is_empty addr then false
  else if includes addr ":" then
    if negb (String.eqb (substring addr 0 6) "ecash:") then false
    else decodes_with "ecash" addr
  else decodes_with "ecash" (String.append "ecash:" addr).

Definition isValidBchAddress (addr : string) : bool :=
  if OpReturn.is_empty addr then false
  else if includes addr ":" then
    if negb (String.eqb (substring addr 0 12) "bitcoincash:") then false
    else decodes_with "bitcoincash" addr
  else decodes_with "bitcoincash" (String.append "bitcoincash:" addr).

Definition isValidEtokenAddress (addr : string) : bool :=
  if OpReturn.is_empty addr then false
  else if includes addr ":" then
    if negb (String.eqb (substring addr 0 7) "etoken:") then false
    else decodes_with "etoken" addr
  else decodes_with "etoken" (String.append "etoken:" addr).

(** The two conversions return an [Error] object instead of throwing it. *)
Definition convertEtokenToEcashAddr (eTokenAddress : string) : string + js_exn :=
  if OpReturn.is_empty eTokenAddress
  then inr (Error "cashMethods.convertToEcashAddr() error: No etoken address provided")
  else if negb (isValidEtokenAddress eTokenAddress)
  then inr (Error (String.append "cashMethods.convertToEcashAddr() error: " (String.append eTokenAddress " is not a valid etoken address")))
  else
    let testedEtokenAddr :=
      if String.eqb (substring eTokenAddress 0 7) "etoken:" then eTokenAddress
      else String.append "etoken:" eTokenAddress in
    match ('(_, type, hash) ← ca_decode testedEtokenAddr; ca_encode "ecash" type hash) with
    | Ok a => inl a
    | Throw e => inr e
    end.

Definition convertEcashtoEtokenAddr (eCashAddress : string) : string + js_exn :=
  if negb (isValidXecAddress eCashAddress) then inr (Error (String.append eCashAddress " is not a valid ecash address"))
  else
    let testedEcashAddr :=
      if String.eqb (substring eCashAddress 0 6) "ecash:" then eCashAddress
      else String.append "ecash:" eCashAddress in
    match ('(_, type, hash) ← ca_decode testedEcashAddr; ca_encode "etoken" type hash) with
    | Ok a => inl a
    | Throw _ => inr (Error "eCash to eToken address conversion error")
    end.

Definition convertToEcashPrefix (bitcoincashPrefixedAddress : string) : result string :=
  if includes bitcoincashPrefixedAddress ":" then
    '(prefix, type, hash) ← ca_decode bitcoincashPrefixedAddress;
    if String.eqb prefix "bitcoincash" then ca_encode "ecash" type hash
    else if String.eqb prefix "simpleledger" then ca_encode "etoken" type hash
    else Ok bitcoincashPrefixedAddress
  else Ok bitcoincashPrefixedAddress.

Definition toHash160 `{B58 : !Bs58} (addr : string) : result string :=
  '(_, _, hash) ← ca_decode addr;
  let legacyAdress := b58_encode hash in
  b ← b58_decode legacyAdress;
  Ok (Hex.toHex b).

(** The copy into a [Uint8Array] has the same bytes. *)
Definition hash160ToAddress (hash160 : string) : result string :=
  ca_encode "ecash" "P2PKH" (Hex.fromHex hash160).

(** ** Laws *)
Context `{CAS : !CashaddrSpec}.

#[local] Arguments String.append : simpl nomatch.

Lemma prefix_split p s : starts (String.append p ":") s = true → ∃ a, s = String.append p (String ":" a).
Proof. intros (a & ->)%starts_inv. exists a. by rewrite append_assoc. Qed.

Lemma includes_app p a : includes (String.append p (String ":" a)) ":" = true.
Proof.
  unfold includes. induction p as [|c p IH].
  - cbn. destruct a; done.
  - cbn [String.append indexOf]. destruct (starts _ _); [done|].
    destruct (indexOf (String.append p (String ":" a)) ":" <? 0) eqn:E; [done|].
    apply Z.ltb_ge in E. by rewrite (proj2 (Z.ltb_ge _ _)) by lia.
Qed.

Lemma substring_prefix p a n : n = strlen p + 1 → substring (String.append p (String ":" a)) 0 n = String.append p ":".
Proof.
  intros ->. pose proof (strlen_nonneg p). rewrite substring_0 by lia.
  change (String ":" a) with (String.append ":" a). rewrite <- append_assoc.
  replace (Z.to_nat (strlen p + 1)) with (String.length (String.append p ":")); [apply str_take_app|].
  pose proof (strlen_app p ":") as L. unfold strlen in *. cbn [String.length] in L. lia.
Qed.

(** The text that the checks and the conversions give to [decode]: the address as
    it is, or with the prefix it lacks. *)
Lemma tested_prefixed p a n : n = strlen p + 1 →
  includes (String.append p (String ":" a)) ":" = true ∧
  String.eqb (substring (String.append p (String ":" a)) 0 n) (String.append p ":") = true ∧
  OpReturn.is_empty (String.append p (String ":" a)) = false.
Proof.
  intros Hn. rewrite includes_app, substring_prefix by done. split_and!; [done|apply String.eqb_refl|].
  by destruct p.
Qed.

Lemma tested_bare p a n : n = strlen p + 1 → includes a ":" = false → a ≠ EmptyString →
  String.eqb (substring a 0 n) (String.append p ":") = false ∧ OpReturn.is_empty a = false.
Proof.
  intros Hn Hi Ha. split; [|by apply String.eqb_neq]. apply String.eqb_neq. intros E.
  pose proof (strlen_nonneg p). rewrite substring_0 in E by lia.
  assert (S : starts (String.append p ":") a = true).
  { apply starts_str_take. rewrite <- E at 2. f_equal. pose proof (strlen_app p ":") as L. unfold strlen in *.
    cbn [String.length] in L. lia. }
  apply prefix_split in S as (b & ->). by rewrite includes_app in Hi.
Qed.

Context `{B58 : !Bs58} `{B58S : !Bs58Spec}.

(** The addresses of a hash are converted into each other.  The eCash address
    of a hash of 20 bytes is valid with its prefix and without it, and is
    converted to the eToken address of the same hash, and back; the Bitcoin Cash
    address is converted to it; [toHash160] gives the hash and [hash160ToAddress]
    the address of a public key hash. *)
Theorem address_conversions t h : t ∈ ca_types → bytes_ok h → blen h = 20 → ∃ x e b,
  ca_encode "ecash" t h = Ok (String.append "ecash:" x) ∧ ca_encode "etoken" t h = Ok (String.append "etoken:" e) ∧
  ca_encode "bitcoincash" t h = Ok (String.append "bitcoincash:" b) ∧
  isValidXecAddress (String.append "ecash:" x) = true ∧ isValidXecAddress x = true ∧
  convertEcashtoEtokenAddr (String.append "ecash:" x) = inl (String.append "etoken:" e) ∧
  convertEcashtoEtokenAddr x = inl (String.append "etoken:" e) ∧
  convertEtokenToEcashAddr (String.append "etoken:" e) = inl (String.append "ecash:" x) ∧
  convertEtokenToEcashAddr e = inl (String.append "ecash:" x) ∧
  convertToEcashPrefix (String.append "bitcoincash:" b) = Ok (String.append "ecash:" x) ∧
  toHash160 (String.append "ecash:" x) = Ok (Hex.toHex h) ∧
  (t = "P2PKH"%string → hash160ToAddress (Hex.toHex h) = Ok (String.append "ecash:" x)).
Proof.
  intros Ht Hb Hl.
  destruct (ca_roundtrip "ecash" t h) as (x & Ex & Dx & Ix & Nx); [repeat constructor|done..|].
  destruct (ca_roundtrip "etoken" t h) as (e & Ee & De & Ie & Ne); [repeat constructor|done..|].
  destruct (ca_roundtrip "bitcoincash" t h) as (b & Eb & Db & Ib & Nb); [repeat constructor|done..|].
  destruct (tested_prefixed "ecash" x 6) as (Px & Qx & Zx); [done|]. destruct (tested_bare "ecash" x 6) as (Rx & Yx); [done..|].
  destruct (tested_prefixed "etoken" e 7) as (Pe & Qe & Ze); [done|]. destruct (tested_bare "etoken" e 7) as (Re & Ye); [done..|].
  change (String.append "ecash" (String ":" x)) with (String.append "ecash:" x) in *.
  change (String.append "etoken" (String ":" e)) with (String.append "etoken:" e) in *.
  change (String.append "bitcoincash" (String ":" b)) with (String.append "bitcoincash:" b) in *.
  change (String.append "ecash" ":") with "ecash:"%string in *. change (String.append "etoken" ":") with "etoken:"%string in *.
  exists x, e, b.
  assert (Vx : isValidXecAddress (String.append "ecash:" x) = true ∧ isValidXecAddress x = true).
  { unfold isValidXecAddress, decodes_with. rewrite Zx, Px, Qx, Yx, Ix, Dx. done. }
  assert (Ve : isValidEtokenAddress (String.append "etoken:" e) = true ∧ isValidEtokenAddress e = true).
  { unfold isValidEtokenAddress, decodes_with. rewrite Ze, Pe, Qe, Ye, Ie, De. done. }
  destruct Vx as [V1 V2], Ve as [V3 V4].
  unfold convertEcashtoEtokenAddr, convertEtokenToEcashAddr, convertToEcashPrefix, toHash160, hash160ToAddress.
  rewrite V1, V2, V3, V4, Qx, Rx, Qe, Re, Ze, Ye, Dx, De, Db. cbn [negb mbind result_bind]. rewrite Ex, Ee.
  replace (includes (String.append "bitcoincash:" b) ":") with true by (symmetry; apply (includes_app "bitcoincash")).
  rewrite b58_roundtrip, Hex.fromHex_toHex by done. split_and!; try done. by intros ->.
Qed.

(** An address with a prefix is of one kind only. *)
Theorem address_kinds_disjoint a : includes a ":" = true →
  (isValidXecAddress a = true → isValidEtokenAddress a = false ∧ isValidBchAddress a = false) ∧
  (isValidEtokenAddress a = true → isValidBchAddress a = false).
Proof.
  intros Hi.
  assert (K : ∀ p q n m, n = strlen p → m = strlen q → String.eqb (substring a 0 n) p = true →
    String.eqb (substring a 0 m) q = true → starts p q = true ∨ starts q p = true).
  { intros p q n m -> -> Hp Hq. apply String.eqb_eq in Hp, Hq. pose proof (strlen_nonneg p) as Sp. pose proof (strlen_nonneg q) as Sq.
    rewrite substring_0 in Hp, Hq by lia. unfold strlen in *. rewrite Nat2Z.id in Hp, Hq.
    apply starts_str_take in Hp, Hq. clear Hi Sp Sq. revert q a Hp Hq. induction p as [|c p IH]; intros q a Hp Hq; [left; by destruct q|].
    destruct q as [|d q]; [by right|]. destruct a as [|x a]; [done|]. unfold starts in *. cbn in *.
    destruct (ascii_dec c x) as [->|], (ascii_dec d x) as [->|]; try done. destruct (ascii_dec x x); [|done]. by apply (IH _ a). }
  unfold isValidXecAddress, isValidEtokenAddress, isValidBchAddress. rewrite Hi. destruct (OpReturn.is_empty a); [done|].
  destruct (String.eqb (substring a 0 6) "ecash:") eqn:E1, (String.eqb (substring a 0 7) "etoken:") eqn:E2,
    (String.eqb (substring a 0 12) "bitcoincash:") eqn:E3; cbn [negb]; try done.
  all: try (destruct (K _ _ _ _ eq_refl eq_refl E1 E2); done).
  all: try (destruct (K _ _ _ _ eq_refl eq_refl E1 E3); done).
  all: destruct (K _ _ _ _ eq_refl eq_refl E2 E3); done.
Qed.

End S.

Section Examples.
Import ConcreteWallet.

Lemma address_conversions_witness : ∃ x e,
  convertEcashtoEtokenAddr (String.append "ecash:" x) = inl (String.append "etoken:" e) ∧
  convertEtokenToEcashAddr (String.append "etoken:" e) = inl (String.append "ecash:" x).
Proof.
  destruct (address_conversions "P2PKH" (repeat 7 20)) as (x & e & b & _ & _ & _ & _ & _ & C & _ & D & _).
  - left.
  - concrete.
  - reflexivity.
  - exists x, e. split; [exact C|exact D].
Defined.

Lemma address_kinds_disjoint_witness :
  isValidEtokenAddress (String.append "ecash:q" (Hex.toHex (repeat 7 20))) = false.
Proof.
  destruct (address_kinds_disjoint (String.append "ecash:q" (Hex.toHex (repeat 7 20)))) as [H _].
  - vm_compute. reflexivity.
  - apply H. vm_compute. reflexivity.
Defined.

End Examples.
End WalletAddress.
