(* ===== verification/Address.v ===== *)
(** * Addresses

    [ecashjs-lib/src/address.js]: base-58 and bech32 addresses, and the outputs
    they stand for. *)

From stdpp Require Import base tactics list gmap numbers strings.
From S2P Require Import Prelude JsNumber NodeBuffer Opcodes Externals Encodings Crypto Script Asm Templates.
Import Types Networks.
Open Scope Z_scope.

Module Address.
Section S.
Context {Mem : UninitMem} `{TF : !Typeforce} `{B58 : !Bs58check} `{B32 : !Bech32}.

(** [version] and [hash] *)
Definition fromBase58Check (address : string) : result (Z * buffer) :=
  payload ← bs58_decode address;
  if blen payload <? 21 then Throw (TypeError " is too short")
  else if blen payload >? 21 then Throw (TypeError " is too long")
  else
    version ← readUInt8 payload 0;
    let hash := slice_from payload 1 in
    Ok (version, hash).

(** [version], [prefix] and [data]; the version of an empty list is [undefined]. *)
Definition fromBech32 (address : string) : result (option Z * string * buffer) :=
  '(prefix, words) ← bech_decode address;
  data ← bech_fromWords (slice_from words 1);
  Ok (words !! 0%nat, prefix, data).

Definition toBase58Check (hash : buffer) (version : Z) : result string :=
  _ ← guard_js (Hash160bit hash && tf_UInt8 version) TypeforceError;
  let payload := allocUnsafe 21 in
  payload ← writeUInt8 payload version 0;
  '(payload, _) ← copy hash payload 1;
  Ok (bs58_encode payload).

(** The prefix of a network without one is [undefined], which has no length. *)
Definition toBech32 (data : buffer) (version : Z) (prefix : option string) : result string :=
  let words := version :: bech_toWords data in
  match prefix with
  | Some prefix => bech_encode prefix words
  | None => Throw (TypeError "Cannot read properties of undefined")
  end.

Definition fromOutputScript (outputScript : script) (network : option network) : result string :=
  let network := default bitcoin network in
  p2pkh ← P2PKHOutput.check outputScript;
  if (p2pkh : bool) then b ← Script.compile outputScript; toBase58Check (slice b 3 23) (pubKeyHash network) else
  p2sh ← P2SHOutput.check outputScript;
  if (p2sh : bool) then b ← Script.compile outputScript; toBase58Check (slice b 2 22) (scriptHash network) else
  p2wpkh ← P2WPKHOutput.check outputScript;
  if (p2wpkh : bool) then b ← Script.compile outputScript; toBech32 (slice b 2 22) 0 (bech32 network) else
  p2wsh ← P2WSHOutput.check outputScript;
  if (p2wsh : bool) then b ← Script.compile outputScript; toBech32 (slice b 2 34) 0 (bech32 network) else
  _ ← Asm.toASM outputScript;
  Throw (Error " has no matching Address").

Definition no_script : result buffer := Throw (Error " has no matching Script").

Definition toOutputScript (address : string) (network : option network) : result buffer :=
  let network := default bitcoin network in
  match fromBase58Check address with
  | Ok (version, hash) =>
      if version =? pubKeyHash network then P2PKHOutput.encode hash
      else if version =? scriptHash network then P2SHOutput.encode hash
      else no_script
  | Throw _ =>
      match fromBech32 address with
      | Ok (version, prefix, data) =>
          if negb (bool_decide (Some prefix = bech32 network)) then Throw (Error " has an invalid prefix")
          else if bool_decide (version = Some 0) then
            if blen data =? 20 then P2WPKHOutput.encode data
            else if blen data =? 32 then P2WSHOutput.encode data
            else no_script
          else no_script
      | Throw _ => no_script
      end
  end.

(** ** Laws *)
Context `{TS : !TypeforceSpec} `{B58S : !Bs58checkSpec} `{B32S : !Bech32Spec}.

Lemma fromBase58Check_to hash version : bytes_ok hash → blen hash = 20 → is_byte version →
  ∃ a, toBase58Check hash version = Ok a ∧ fromBase58Check a = Ok (version, hash).
Proof.
  intros Hb Hl Hv. unfold toBase58Check. rewrite (proj2 (Hash160bit_spec hash) Hl).
  rewrite (proj2 (tf_UInt8_spec version)) by (unfold is_byte in Hv; lia). cbn [andb guard_js mbind result_bind].
  assert (∃ x r, allocUnsafe 21 = x :: r ∧ blen r = 20) as (x & r & -> & Hr).
  { pose proof (blen_allocUnsafe 21) as L. destruct (allocUnsafe 21) as [|x r]; [rewrite blen_nil in L; lia|].
    exists x, r. rewrite blen_cons in L. split; [done|lia]. }
  rewrite writeUInt8_first by done. cbn [mbind result_bind].
  pose proof (copy_app hash [version] r ltac:(lia)) as C. cbn [app] in C.
  change (blen [version]) with 1 in C. rewrite C. cbn [mbind result_bind].
  rewrite drop_ge, app_nil_r by (unfold blen in *; lia).
  eexists. split; [reflexivity|]. unfold fromBase58Check.
  rewrite bs58_roundtrip by (apply bytes_ok_cons; split; done). cbn [mbind result_bind]. rewrite blen_cons, Hl.
  change (1 + 20 <? 21) with false. change (1 + 20 >? 21) with false. cbv iota.
  pose proof (readUInt8_app [] version hash) as R. cbn [app] in R. change (blen []) with 0 in R. rewrite R by done.
  cbn [mbind result_bind]. do 2 f_equal. apply (slice_from_app [version] hash).
Qed.

(** A bech32 address is too long for base 58. *)
Lemma fromBase58Check_long a : 36 <= strlen a → ∃ e, fromBase58Check a = Throw e.
Proof.
  intros Hl. unfold fromBase58Check. destruct (bs58_decode a) as [b|] eqn:E; [|by eexists].
  pose proof (bs58_length a b E). cbn [mbind result_bind]. split_ifs; by eexists.
Qed.

Lemma fromBech32_to data p : bytes_ok data → 20 <= blen data <= 32 → prefix_ok p = true → strlen p <= 30 →
  ∃ a e, toBech32 data 0 (Some p) = Ok a ∧ fromBase58Check a = Throw e ∧ fromBech32 a = Ok (Some 0, p, data).
Proof.
  intros Hb Hl Hp Hs. unfold toBech32. pose proof (bech_words_length data) as W.
  assert (32 <= len (bech_toWords data) <= 52) by (rewrite W; Z.to_euclidean_division_equations; lia).
  assert (0 <= strlen p) by (unfold strlen; lia).
  destruct (bech_roundtrip p (0 :: bech_toWords data)) as (a & Ea & Da & La); [done| |rewrite len_cons; lia|].
  { constructor; [unfold is_word; lia|by apply bech_words_ok]. }
  destruct (fromBase58Check_long a) as [e Ee]; [rewrite len_cons in La; lia|].
  exists a, e. split_and!; [done|done|]. unfold fromBech32. rewrite Da. cbn [mbind result_bind].
  pose proof (slice_from_app [0] (bech_toWords data)) as S1. cbn [app] in S1. change (blen [0]) with 1 in S1.
  rewrite S1, bech_words_roundtrip by done. done.
Qed.

(** A network whose addresses can be told apart. *)
Record network_ok (n : network) : Prop := {
  nk_pkh : is_byte (pubKeyHash n);
  nk_sh : is_byte (scriptHash n);
  nk_distinct : pubKeyHash n ≠ scriptHash n;
  nk_prefix : ∃ p, bech32 n = Some p ∧ prefix_ok p = true ∧ strlen p <= 30;
}.

(** The address of each of the four outputs, read back. *)
Definition address_of (s : buffer) (n : network) : Prop :=
  ∃ a, fromOutputScript (SBuf s) (Some n) = Ok a ∧ toOutputScript a (Some n) = Ok s.

Lemma address_p2pkh h n : network_ok n → bytes_ok h → blen h = 20 →
  address_of ([0x76; 0xa9; 0x14] ++ h ++ [0x88; 0xac]) n.
Proof.
  intros Hn Hb Hl. destruct (fromBase58Check_to h (pubKeyHash n) Hb Hl (nk_pkh _ Hn)) as (a & Ea & Da).
  exists a. split.
  - unfold fromOutputScript. rewrite (proj2 (p2pkh_check_iff _)) by eauto. cbn [mbind result_bind Script.compile].
    rewrite <- Ea. f_equal. pose proof (slice_app [0x76; 0xa9; 0x14] h [0x88; 0xac]) as S1. by rewrite Hl in S1.
  - unfold toOutputScript. rewrite Da. cbn [default from_option id]. rewrite Z.eqb_refl. by apply p2pkh_encode_bytes.
Qed.

Lemma address_p2sh h n : network_ok n → bytes_ok h → blen h = 20 →
  address_of ([0xa9; 0x14] ++ h ++ [0x87]) n.
Proof.
  intros Hn Hb Hl. destruct (fromBase58Check_to h (scriptHash n) Hb Hl (nk_sh _ Hn)) as (a & Ea & Da).
  exists a. split.
  - unfold fromOutputScript. rewrite (proj2 (p2sh_check_iff _)) by eauto.
    replace (P2PKHOutput.check _) with (Ok false) by (split_bytes h Hl; reflexivity).
    cbn [mbind result_bind Script.compile].
    rewrite <- Ea. f_equal. pose proof (slice_app [0xa9; 0x14] h [0x87]) as S1. by rewrite Hl in S1.
  - unfold toOutputScript. rewrite Da. cbn [default from_option id].
    rewrite (proj2 (Z.eqb_neq _ _)), Z.eqb_refl by (pose proof (nk_distinct _ Hn); congruence).
    by apply p2sh_encode_bytes.
Qed.

Lemma address_p2w h n : network_ok n → bytes_ok h →
  (blen h = 20 → address_of ([0x00; 0x14] ++ h) n) ∧ (blen h = 32 → address_of ([0x00; 0x20] ++ h) n).
Proof.
  intros Hn Hb. destruct (nk_prefix _ Hn) as (p & Ep & Hp & Hs).
  split; intros Hl; (destruct (fromBech32_to h p Hb) as (a & e & Ea & Fa & Da); [lia|done|done|]); exists a.
  - split.
    + unfold fromOutputScript. rewrite (proj2 (p2wpkh_check_iff _)) by eauto.
      replace (P2PKHOutput.check _) with (Ok false) by (split_bytes h Hl; reflexivity).
      replace (P2SHOutput.check _) with (Ok false) by (split_bytes h Hl; reflexivity).
      cbn [mbind result_bind Script.compile default from_option id]. rewrite <- Ea, <- Ep. f_equal.
      pose proof (slice_app [0x00; 0x14] h []) as S1. rewrite app_nil_r, Hl in S1. exact S1.
    + unfold toOutputScript. rewrite Fa, Da. cbn [default from_option id]. rewrite Ep, !bool_decide_true by done.
      rewrite Hl. by apply p2wpkh_encode_bytes.
  - split.
    + unfold fromOutputScript. rewrite (proj2 (p2wsh_check_iff _)) by eauto.
      replace (P2PKHOutput.check _) with (Ok false) by (split_bytes h Hl; reflexivity).
      replace (P2SHOutput.check _) with (Ok false) by (split_bytes h Hl; reflexivity).
      replace (P2WPKHOutput.check _) with (Ok false) by (split_bytes h Hl; reflexivity).
      cbn [mbind result_bind Script.compile default from_option id]. rewrite <- Ea, <- Ep. f_equal.
      pose proof (slice_app [0x00; 0x20] h []) as S1. rewrite app_nil_r, Hl in S1. exact S1.
    + unfold toOutputScript. rewrite Fa, Da. cbn [default from_option id]. rewrite Ep, !bool_decide_true by done.
      rewrite Hl. by apply p2wsh_encode_bytes.
Qed.

(** An output with an address passed one of the four checks. *)
Lemma fromOutputScript_inv s n a : fromOutputScript (SBuf s) n = Ok a →
  P2PKHOutput.check (SBuf s) = Ok true ∨ P2SHOutput.check (SBuf s) = Ok true ∨
  P2WPKHOutput.check (SBuf s) = Ok true ∨ P2WSHOutput.check (SBuf s) = Ok true.
Proof.
  unfold fromOutputScript.
  destruct (P2PKHOutput.check _) as [[]|]; cbn [mbind result_bind]; [auto| |done].
  destruct (P2SHOutput.check _) as [[]|]; cbn [mbind result_bind]; [auto| |done].
  destruct (P2WPKHOutput.check _) as [[]|]; cbn [mbind result_bind]; [auto| |done].
  destruct (P2WSHOutput.check _) as [[]|]; cbn [mbind result_bind]; [auto| |done].
  by destruct (Asm.toASM _).
Qed.

Context `{B66 : !Bip66}.

(** On a network with distinct version bytes and a bech32 prefix, exactly the
    outputs that pay to a hash (as [classifyOutput] sees them) have an address,
    and [toOutputScript] of the address is the output. *)
Theorem address_roundtrip s n : network_ok n → bytes_ok s →
  (Classify.classifyOutput (SBuf s) ∈ Ok <$> [P2PKH; P2SH; P2WPKH; P2WSH] ↔
     ∃ a, fromOutputScript (SBuf s) (Some n) = Ok a) ∧
  (∀ a, fromOutputScript (SBuf s) (Some n) = Ok a → toOutputScript a (Some n) = Ok s).
Proof.
  intros Hn Hb.
  assert (Hc : P2PKHOutput.check (SBuf s) = Ok true ∨ P2SHOutput.check (SBuf s) = Ok true ∨
    P2WPKHOutput.check (SBuf s) = Ok true ∨ P2WSHOutput.check (SBuf s) = Ok true →
    address_of s n ∧ Classify.classifyOutput (SBuf s) ∈ Ok <$> [P2PKH; P2SH; P2WPKH; P2WSH]).
  { rewrite p2pkh_check_iff, p2sh_check_iff, p2wpkh_check_iff, p2wsh_check_iff.
    intros [(h & Hl & E)|[(h & Hl & E)|[(h & Hl & E)|(h & Hl & E)]]]; [pose proof (classify_hash s h Hl) as (C1 & C2 & C3)..|].
    - destruct (C1 E) as [-> _]. clear C1 C2 C3. subst s. apply bytes_ok_app in Hb as [_ [Hb _]%bytes_ok_app].
      split; [by apply address_p2pkh|set_solver].
    - destruct (C2 E) as [-> _]. clear C1 C2 C3. subst s. apply bytes_ok_app in Hb as [_ [Hb _]%bytes_ok_app].
      split; [by apply address_p2sh|set_solver].
    - destruct (C3 E) as [-> _]. clear C1 C2 C3. subst s. apply bytes_ok_app in Hb as [_ Hb]. split; [by apply address_p2w|set_solver].
    - subst s. apply bytes_ok_app in Hb as [_ Hb]. destruct (classify_hash256 h Hl) as [-> _].
      split; [by apply address_p2w|set_solver]. }
  split; [split|].
  - intros Hin. apply list_elem_of_fmap in Hin as (t & E & Ht). apply classify_inv in E.
    destruct Hc as [(a & Ha & _) _]; [|by exists a].
    repeat (apply elem_of_cons in Ht as [->|Ht]; [tauto|]). by apply elem_of_nil in Ht.
  - intros [a Ha]. apply Hc. by eapply fromOutputScript_inv.
  - intros a Ha. destruct Hc as [(a' & Ha' & Ht) _]; [by eapply fromOutputScript_inv|]. congruence.
Qed.

End S.

Section Examples.
Import Concrete ConcreteText.

Local Definition a_script : buffer := [0x76; 0xa9; 0x14] ++ repeat 7 20 ++ [0x88; 0xac].

Lemma address_roundtrip_witness : ∃ a,
  fromOutputScript (Mem := zero_mem) (SBuf a_script) (Some testnet) = Ok a ∧
  toOutputScript (Mem := zero_mem) a (Some testnet) = Ok a_script.
Proof.
  assert (Hn : network_ok testnet).
  { split; [concrete|concrete|discriminate|]. exists "tb"%string. concrete. }
  destruct (address_roundtrip (Mem := zero_mem) a_script testnet Hn ltac:(concrete)) as [[Hs _] Ha].
  destruct Hs as [a E].
  - replace (Classify.classifyOutput _) with (Ok P2PKH) by (vm_compute; reflexivity). set_solver.
  - exists a. split; [exact E|apply Ha, E].
Defined.

End Examples.
End Address.
