(* ===== verification/ECPair.v ===== *)
(** * Key pairs

    [ecashjs-lib/src/ecpair.js]: a private key or a public point with its
    encoding flag and its network.  The point of a private key is computed on
    first use and kept in the object. *)

From stdpp Require Import base tactics list gmap numbers strings.
From S2P Require Import Prelude JsNumber NodeBuffer Externals Encodings Crypto Curve ECSignature Ecdsa Address.
Import Types Networks.
Open Scope Z_scope.

(** A network argument: a list to choose from, or one network. *)
Inductive networks_arg :=
| NetworkList (l : list network)
| NetworkOne (n : option network).

Record ecpair `{!Bigi} `{!Ecurve} := mkPair {
  kp_d : option bi;
  kp_Q : option point;          (** [__Q] *)
  kp_compressed : bool;
  kp_network : network;
}.
Arguments mkPair {_ _} _ _ _ _.

Module ECPair.
Section S.
Context {Mem : UninitMem} `{TF : !Typeforce} `{BI : !Bigi} `{EC : !Ecurve} `{HM : !CreateHmac} `{CH : !CreateHash}
  `{B58 : !Bs58check} `{WF : !Wif}.

(** [types.Network] *)
Definition Network (n : network) : bool :=
  tf_UInt32 (bip32_public (bip32 n)) && tf_UInt32 (bip32_private (bip32 n)) &&
  tf_UInt8 (pubKeyHash n) && tf_UInt8 (scriptHash n) && tf_UInt8 (wif n).

(** [new ECPair(d, Q, { compressed, network })] *)
Definition new (d : option bi) (Q : option point) (compressed : option bool) (network : option network) : result ecpair :=
  _ ← guard_js (match network with Some n => Network n | None => true end) TypeforceError;
  let make := λ d Q, Ok (mkPair d Q (default true compressed) (default bitcoin network)) in
  match d with
  | Some d =>
      if bi_signum d <=? 0 then Throw (Error "Private key must be greater than 0")
      else if bi_compareTo d ec_n >=? 0 then Throw (Error "Private key must be less than the curve order")
      else match Q with
           | Some _ => Throw (TypeError "Unexpected publicKey parameter")
           | None => make (Some d) None
           end
  | None => match Q with Some Q => make None (Some Q) | None => Throw TypeforceError end
  end.

(** The getter [Q]: the object after the call and the value. *)
Definition Q (self : ecpair) : ecpair * option point :=
  match kp_Q self, kp_d self with
  | None, Some d =>
      let P := pt_multiply ec_G d in
      (mkPair (kp_d self) (Some P) (kp_compressed self) (kp_network self), Some P)
  | q, _ => (self, q)
  end.

Definition fromPublicKeyBuffer (b : buffer) (network : option network) : result ecpair :=
  Q ← pt_decodeFrom b;
  new None (Some Q) (Some (pt_compressed Q)) network.

(** [networks.filter(f).pop()] *)
Definition select (f : network → bool) (l : list network) : option network :=
  last (base.filter (λ n, f n = true) l).

Definition fromWIF (string : string) (network : networks_arg) : result ecpair :=
  '(version, privateKey, compressed) ← wif_decode string;
  network ← match network with
    | NetworkList l =>
        match select (λ x, version =? wif x) l with
        | Some n => Ok n
        | None => Throw (Error "Unknown network version")
        end
    | NetworkOne n =>
        let n := default bitcoin n in
        if negb (version =? wif n) then Throw (Error "Invalid network version") else Ok n
    end;
  let d := bi_fromBuffer privateKey in
  new (Some d) None (Some compressed) (Some network).

(** The loop of [makeRandom]: [rng i] is what the source of randomness gives on
    the [i]-th call. *)
Fixpoint random_key (fuel : nat) (rng : nat → buffer) (i : nat) : result bi :=
  match fuel with
  | O => Throw OutOfFuel
  | S fuel =>
      let buffer := rng i in
      _ ← guard_js (Buffer256bit buffer) TypeforceError;
      let d := bi_fromBuffer buffer in
      if (bi_signum d <=? 0) || (bi_compareTo d ec_n >=? 0) then random_key fuel rng (S i) else Ok d
  end.

Definition makeRandom (fuel : nat) (rng : nat → buffer) (compressed : option bool) (network : option network)
  : result ecpair :=
  d ← random_key fuel rng 0; new (Some d) None compressed network.

Definition getNetwork (self : ecpair) : network := kp_network self.

(** A pair has a key or a point, so that the point is defined. *)
Definition getPublicKeyBuffer (self : ecpair) : result buffer :=
  match (Q self).2 with
  | Some P => Ok (pt_getEncoded P (kp_compressed self))
  | None => Throw (TypeError "Cannot read properties of undefined")
  end.

Definition getAddress (self : ecpair) : result string :=
  pk ← getPublicKeyBuffer self;
  Address.toBase58Check (Crypto.hash160 pk) (pubKeyHash (getNetwork self)).

(** [None] is a signature that is [undefined]: the algorithm is unknown. *)
Definition sign (fuel : nat) (self : ecpair) (hash : buffer) (signatureAlgorithm : option Z) : result (option ecsig) :=
  match kp_d self with
  | None => Throw (Error "Missing private key")
  | Some d =>
      let alg := default ECSignature.ECDSA signatureAlgorithm in
      if alg =? ECSignature.ECDSA then sig ← ECDSA.sign fuel hash d; Ok (Some sig)
      else if alg =? ECSignature.SCHNORR then sig ← Schnorr.sign true fuel hash d; Ok (Some sig)
      else Ok None
  end.

Definition toWIF (self : ecpair) : result string :=
  match kp_d self with
  | None => Throw (Error "Missing private key")
  | Some d => wif_encode (wif (kp_network self)) (bi_toBuffer d 32) (kp_compressed self)
  end.

Definition verify (self : ecpair) (hash : buffer) (signature : ecsig) : result bool :=
  match (Q self).2 with
  | Some P => ECDSA.verify hash signature P
  | None => Throw TypeforceError
  end.

(** ** Laws *)
Context `{TS : !TypeforceSpec} `{BS : !BigiSpec} `{ES : !EcurveSpec} `{HS : !CreateHmacSpec} `{CS : !CreateHashSpec}
  `{WS : !WifSpec}.

(** The invariant of a pair: a key in range without a point of its own but the
    memoised one, or a point that is not infinity. *)
Definition pair_ok (self : ecpair) : Prop :=
  Network (kp_network self) = true ∧
  match kp_d self, kp_Q self with
  | Some d, None => 0 < bi_Z d < bi_Z ec_n
  | Some d, Some P => 0 < bi_Z d < bi_Z ec_n ∧ ec_dl P = bi_Z d
  | None, Some P => ec_dl P ≠ 0
  | None, None => False
  end.

(** The discrete logarithm of the public key. *)
Definition pub_dl (self : ecpair) : Z :=
  match (Q self).2 with Some P => ec_dl P | None => 0 end.

(** Pairs that hold the same keys: equal up to the representation of numbers and
    points, and up to the memoised point. *)
Definition pair_eq (a b : ecpair) : Prop :=
  bi_Z <$> kp_d a = bi_Z <$> kp_d b ∧ pub_dl a = pub_dl b ∧
  kp_compressed a = kp_compressed b ∧ kp_network a = kp_network b.

#[global] Instance pair_eq_equiv : Equivalence pair_eq.
Proof. split; unfold pair_eq; [done|intros ???|intros ?????]; intuition congruence. Qed.

Lemma new_private d c n : 0 < bi_Z d < bi_Z ec_n → Network n = true →
  new (Some d) None c (Some n) = Ok (mkPair (Some d) None (default true c) n).
Proof.
  intros Hd Hn. unfold new. rewrite Hn. cbn [guard_js mbind result_bind].
  rewrite RFC6979.signum_le, RFC6979.compare_ge, !(proj2 (Z.leb_gt _ _)) by lia. done.
Qed.

Lemma new_public P c n : Network n = true →
  new None (Some P) c (Some n) = Ok (mkPair None (Some P) (default true c) n).
Proof. intros Hn. unfold new. by rewrite Hn. Qed.

Lemma bitcoin_Network : Network bitcoin = true.
Proof.
  unfold Network. rewrite !andb_true_iff, !tf_UInt32_spec, !tf_UInt8_spec. cbn. lia.
Qed.

Lemma pair_new_ok d Q c n p : (∀ P, Q = Some P → ec_dl P ≠ 0) → new d Q c n = Ok p → pair_ok p.
Proof.
  intros HQ. unfold new. destruct n as [n|]; cbn [guard_js mbind result_bind].
  - destruct (Network n) eqn:Hn; [|done]. cbn [guard_js mbind result_bind].
    destruct d as [d|], Q as [P|]; rewrite ?RFC6979.signum_le, ?RFC6979.compare_ge;
      intros; inv_result; bool_facts; split; cbn; try done; (lia || by apply HQ).
  - destruct d as [d|], Q as [P|]; rewrite ?RFC6979.signum_le, ?RFC6979.compare_ge;
      intros; inv_result; bool_facts; split; cbn; try apply bitcoin_Network; try done; (lia || by apply HQ).
Qed.

Lemma Q_ok self : pair_ok self → ∃ P, (Q self).2 = Some P ∧ ec_dl P = pub_dl self ∧ ec_dl P ≠ 0 ∧
  (∀ d, kp_d self = Some d → ec_dl P = bi_Z d).
Proof.
  unfold pub_dl, Q, pair_ok. destruct self as [[d|] [P|] c n]; cbn; intros [_ H]; [| | |done].
  - exists P. split_and!; [done|done|lia|]. intros d' [= <-]. by apply H.
  - pose proof (ECDSA.dl_generator d H). eexists. split_and!; [done|done|lia|]. by intros d' [= <-].
  - exists P. by split_and!.
Qed.

(** Reading the point changes the object, not what it is. *)
Lemma Q_memo self : pair_ok self → pair_ok (Q self).1 ∧ pair_eq (Q self).1 self ∧ Q (Q self).1 = Q self.
Proof.
  unfold pair_ok, pair_eq, pub_dl, Q. destruct self as [[d|] [P|] c n]; cbn; intros [Hn H]; [|pose proof (ECDSA.dl_generator d H)|..];
    split_and!; done || lia.
Qed.

(** The text form of a private key holds the version, the key and the flag, and the key
    makes the same pair again. *)
Lemma wif_form self d : pair_ok self → kp_d self = Some d →
  ∃ s k p, toWIF self = Ok s ∧ wif_decode s = Ok (wif (kp_network self), k, kp_compressed self) ∧
    new (Some (bi_fromBuffer k)) None (Some (kp_compressed self)) (Some (kp_network self)) = Ok p ∧ pair_eq p self ∧ kp_Q p = None ∧
    kp_d p = Some (bi_fromBuffer k).
Proof.
  intros Hok Hd. destruct (Q_ok _ Hok) as (P & HQ & EP & Hz & Ed). specialize (Ed d Hd).
  destruct Hok as [Hn Hr]. rewrite Hd in Hr. pose proof ec_n_256.
  assert (0 < bi_Z d < bi_Z ec_n) as Rd by (destruct (kp_Q self); [apply Hr|done]). clear Hr.
  pose proof Hn as Hw. unfold Network in Hw. bool_facts.
  destruct (wif_roundtrip (wif (kp_network self)) (bi_toBuffer d 32) (kp_compressed self)) as (s & Es & Ds).
  { match goal with E : tf_UInt8 (wif _) = true |- _ => apply tf_UInt8_spec in E; unfold is_byte; lia end. }
  { rewrite bi_toBuffer_spec by lia. auto with js. }
  { rewrite bi_toBuffer_spec by lia. by rewrite blen_be_bytes. }
  set (d' := bi_fromBuffer (bi_toBuffer d 32)).
  assert (Ed' : bi_Z d' = bi_Z d).
  { unfold d'. rewrite bi_toBuffer_spec, bi_fromBuffer_spec, be_val_be_bytes by solve [auto with js|lia].
    apply Z.mod_small. change (256 ^ Z.of_nat (Z.to_nat 32)) with (256 ^ 32). lia. }
  exists s, (bi_toBuffer d 32), (mkPair (Some d') None (kp_compressed self) (kp_network self)).
  unfold toWIF. rewrite Hd. split; [done|]. split; [done|]. fold d'. rewrite new_private by (rewrite ?Ed'; done).
  split; [done|]. split; [|done]. unfold pair_eq, pub_dl at 1. cbn.
  rewrite Hd, ECDSA.dl_generator by (rewrite Ed'; done). cbn. split_and!; try done; congruence.
Qed.

(** Private keys survive the text form: [toWIF] of a pair with a private key
    returns, and [fromWIF] with the pair's network, or with a list in which the
    last network with its version byte is that network, gives the same pair. *)
Theorem wif_pair_roundtrip self d l : pair_ok self → kp_d self = Some d →
  last (base.filter (λ n, wif n = wif (kp_network self)) l) = Some (kp_network self) →
  ∃ s, toWIF self = Ok s ∧
    (∃ p, fromWIF s (NetworkOne (Some (kp_network self))) = Ok p ∧ pair_eq p self) ∧
    (∃ p, fromWIF s (NetworkList l) = Ok p ∧ pair_eq p self).
Proof.
  intros Hok Hd Hl. destruct (wif_form self d Hok Hd) as (s & k & p & Es & Ds & En & Ep & _ & _). exists s. split; [done|].
  unfold fromWIF. rewrite Ds. cbn [mbind result_bind default from_option id]. rewrite Z.eqb_refl. cbn [negb mbind result_bind].
  split; [by exists p|]. replace (select _ l) with (Some (kp_network self)); [by exists p|].
  rewrite <- Hl. unfold select. f_equal. apply list_filter_iff. intros n. by rewrite Z.eqb_eq.
Qed.

(** The public key of a pair survives its encoding: [fromPublicKeyBuffer] of
    the encoded key is a public pair with the same point, the same flag and the
    same encoding. *)
Theorem public_key_roundtrip self : pair_ok self →
  ∃ b p, getPublicKeyBuffer self = Ok b ∧ blen b = (if kp_compressed self then 33 else 65) ∧
    fromPublicKeyBuffer b (Some (kp_network self)) = Ok p ∧ pair_ok p ∧
    pair_eq p (mkPair None (Q self).2 (kp_compressed self) (kp_network self)) ∧ getPublicKeyBuffer p = Ok b.
Proof.
  intros Hok. destruct (Q_ok _ Hok) as (P & HQ & EP & Hz & _). destruct Hok as [Hn _].
  destruct (decodeFrom_spec P (kp_compressed self) Hz) as (P' & D & E & C).
  exists (pt_getEncoded P (kp_compressed self)), (mkPair None (Some P') (kp_compressed self) (kp_network self)).
  unfold getPublicKeyBuffer. rewrite HQ. split; [done|]. split; [by apply getEncoded_len|].
  unfold fromPublicKeyBuffer. rewrite D. cbn [mbind result_bind]. rewrite C, new_public by done.
  split; [done|]. unfold pair_ok, pair_eq, pub_dl. cbn. rewrite E. split_and!; try done.
  f_equal. by apply getEncoded_eq.
Qed.

(** [makeRandom] uses the first 256-bit value that is a private key: when the
    [j]-th value of the source of randomness is in range and none before it is,
    any larger fuel gives the pair of that value. *)
Theorem makeRandom_first fuel rng j c n : (j < fuel)%nat → Network n = true →
  (∀ i, (i <= j)%nat → blen (rng i) = 32 ∧ bytes_ok (rng i)) →
  (∀ i, (i < j)%nat → ¬ 0 < be_val (rng i) < bi_Z ec_n) → 0 < be_val (rng j) < bi_Z ec_n →
  ∃ p d, makeRandom fuel rng c (Some n) = Ok p ∧ pair_ok p ∧ kp_d p = Some d ∧ bi_Z d = be_val (rng j).
Proof.
  intros Hf Hn Hrng Hno Hyes.
  assert (G : ∀ i, (i <= j)%nat → random_key (fuel - i) rng i = Ok (bi_fromBuffer (rng j))).
  { intros i Hi. remember (j - i)%nat as m eqn:Em. revert i Hi Em. induction m as [|m IH]; intros i Hi Em;
      (destruct (fuel - i)%nat as [|f] eqn:Ef; [lia|]); cbn [random_key];
      destruct (Hrng i Hi) as [L O]; unfold Buffer256bit; rewrite (proj2 (tf_BufferN_spec _ _) L);
      cbn [guard_js mbind result_bind]; rewrite RFC6979.signum_le, RFC6979.compare_ge, bi_fromBuffer_spec by done.
    - assert (i = j) as -> by lia. rewrite !(proj2 (Z.leb_gt _ _)) by lia. done.
    - specialize (Hno i ltac:(lia)). replace (_ || _) with true by (symmetry; apply orb_true_iff; rewrite !Z.leb_le; lia).
      replace f with (fuel - S i)%nat by lia. apply IH; lia. }
  specialize (G 0%nat ltac:(lia)). rewrite Nat.sub_0_r in G. unfold makeRandom. rewrite G. cbn [mbind result_bind].
  assert (E : bi_Z (bi_fromBuffer (rng j)) = be_val (rng j)) by (by apply bi_fromBuffer_spec, Hrng).
  rewrite new_private by (rewrite ?E; done).
  eexists _, _. split_and!; [reflexivity| |reflexivity|done]. split; [done|]. cbn. by rewrite E.
Qed.

End S.

Section Examples.
Import Concrete ConcreteCurve ConcreteText.

Local Definition pair3 : ecpair := mkPair (Some (bi_valueOf 3)) None true testnet.

Lemma wif_pair_roundtrip_witness : ∃ s p, toWIF pair3 = Ok s ∧ fromWIF s (NetworkList [bitcoin; testnet]) = Ok p ∧ pair_eq p pair3.
Proof.
  destruct (wif_pair_roundtrip pair3 (bi_valueOf 3) [bitcoin; testnet]) as (s & E & _ & p & D & Hp).
  - split; [reflexivity|]. split; reflexivity.
  - reflexivity.
  - reflexivity.
  - exists s, p. split; [exact E|]. split; [exact D|exact Hp].
Defined.

Lemma public_key_roundtrip_witness : ∃ b p, getPublicKeyBuffer pair3 = Ok b ∧ fromPublicKeyBuffer b (Some testnet) = Ok p.
Proof.
  destruct (public_key_roundtrip pair3) as (b & p & E & _ & D & _).
  - split; [reflexivity|]. split; reflexivity.
  - exists b, p. split; [exact E|exact D].
Defined.

Lemma makeRandom_first_witness : ∃ p d,
  makeRandom 3 (λ i, be_bytes 32 (match i with O => 0 | S O => 9 | _ => 5 end)) None (Some bitcoin) = Ok p ∧
  kp_d p = Some d ∧ bi_Z d = 5.
Proof.
  destruct (makeRandom_first 3 (λ i, be_bytes 32 (match i with O => 0 | S O => 9 | _ => 5 end)) 2 None bitcoin)
    as (p & d & E & _ & Hd & Ed).
  - lia.
  - reflexivity.
  - intros i _. split; [apply blen_be_bytes|apply bytes_ok_be_bytes].
  - intros i Hi. destruct i as [|[|i]]; [vm_compute; intuition discriminate|vm_compute; intuition discriminate|lia].
  - split; reflexivity.
  - exists p, d. split; [exact E|]. split; [exact Hd|exact Ed].
Defined.

End Examples.
End ECPair.
