(* ===== verification/TransactionBuilder.v ===== *)
(** * The transaction builder

    [ecashjs-lib/src/transaction_builder.js]: the state of a builder, the
    classification of inputs and outputs, and the public operations.  An
    operation that can throw after it has changed the builder returns the builder
    it leaves behind together with its outcome. *)

From stdpp Require Import base tactics list gmap numbers strings.
From S2P Require Import Prelude JsNumber NodeBuffer Opcodes Externals Encodings BufferUtils Crypto Curve Script Asm.
From S2P Require Import Templates Transaction Sighash ECSignature Ecdsa Address ECPair.
Import Types Networks.
Open Scope Z_scope.

(** ** Data *)

(** An entry of an array of public keys or signatures: [None] is [undefined]. *)
Abbreviation slot := (option chunk).

(** [if (x)] on a slot: a Buffer is true, a number is true unless it is 0. *)
Definition slot_true (s : slot) : bool :=
  match s with
  | Some (CBuf _) => true
  | Some (COp n) => truthy n
  | None => false
  end.

(** An input of the builder: an object whose fields are all optional. *)
Record input := mkInput {
  in_pubKeys : option (list slot);
  in_signatures : option (list slot);
  in_prevOutScript : option buffer;
  in_prevOutType : option scriptType;
  in_signType : option scriptType;
  in_signScript : option buffer;
  in_isWitness : option bool;
  in_redeemScript : option buffer;
  in_redeemScriptType : option scriptType;
  in_witnessScript : option buffer;
  in_witnessScriptType : option scriptType;
  in_value : option Z;
}.

Definition empty_input : input := mkInput None None None None None None None None None None None None.

Definition set_value (v : option Z) (i : input) : input :=
  mkInput (in_pubKeys i) (in_signatures i) (in_prevOutScript i) (in_prevOutType i) (in_signType i) (in_signScript i)
    (in_isWitness i) (in_redeemScript i) (in_redeemScriptType i) (in_witnessScript i) (in_witnessScriptType i) v.

Definition set_signatures (s : option (list slot)) (i : input) : input :=
  mkInput (in_pubKeys i) s (in_prevOutScript i) (in_prevOutType i) (in_signType i) (in_signScript i)
    (in_isWitness i) (in_redeemScript i) (in_redeemScriptType i) (in_witnessScript i) (in_witnessScriptType i) (in_value i).

Definition set_prevout (ks ss : option (list slot)) (s : option buffer) (t : option scriptType) (i : input) : input :=
  mkInput ks ss s t (in_signType i) (in_signScript i)
    (in_isWitness i) (in_redeemScript i) (in_redeemScriptType i) (in_witnessScript i) (in_witnessScriptType i) (in_value i).

(** What [expandOutput] returns. *)
Record expansion := mkExpansion {
  ex_pubKeys : option (list slot);
  ex_scriptType : scriptType;
  ex_signatures : option (list slot);
}.

Record builder := mkBuilder {
  prevTxMap : gmap (list Z * Z) Z;
  tb_network : network;
  maximumFeeRate : Z;
  inputs : list input;
  tb_tx : transaction;
}.

Definition set_inputs (l : list input) (st : builder) : builder :=
  mkBuilder (prevTxMap st) (tb_network st) (maximumFeeRate st) l (tb_tx st).
Definition set_tx (tx : transaction) (st : builder) : builder :=
  mkBuilder (prevTxMap st) (tb_network st) (maximumFeeRate st) (inputs st) tx.

(** The first argument of [addInput]: a hexadecimal id, a transaction, a hash. *)
Inductive tx_ref :=
| RefHex (id : string)
| RefTx (tx : transaction)
| RefHash (hash : buffer).

(** The first argument of [addOutput]. *)
Inductive output_ref :=
| OutAddress (address : string)
| OutScript (script : buffer).

(** What [keyPair.sign] of the caller's key returns: the two words, an
    [ECSignature], or nothing. *)
Inductive key_signature `{!Bigi} :=
| KeyBuffer (b : buffer)
| KeySignature (s : ecsig)
| KeyUndefined.

(** The caller's key: [publicKey || getPublicKeyBuffer()] and [sign]. *)
Record key `{!Bigi} := mkKey {
  key_public : result buffer;
  key_sign : buffer → option Z → result key_signature;
}.

Arguments KeyBuffer {_} _.
Arguments KeySignature {_} _.
Arguments KeyUndefined {_}.
Arguments mkKey {_} _ _.

Module TransactionBuilder.

Definition SIGNABLE : list scriptType := [P2PKH; P2PK; MULTISIG].
Definition P2SH_TYPES : list scriptType := SIGNABLE ++ [P2WPKH; P2WSH].

(** [None] is [undefined], which is in no list. *)
Definition supportedType (type : option scriptType) : bool :=
  match type with Some t => bool_decide (t ∈ SIGNABLE) | None => false end.
Definition supportedP2SHType (type : option scriptType) : bool :=
  match type with Some t => bool_decide (t ∈ P2SH_TYPES) | None => false end.

Definition no_property {A} : result A := Throw (TypeError "Cannot read properties of undefined").

Section S.
Context {Mem : UninitMem} `{TF : !Typeforce} `{VU : !VarUint} `{CH : !CreateHash} `{B66 : !Bip66}
  `{B58 : !Bs58check} `{B32 : !Bech32} `{BI : !Bigi} `{EC : !Ecurve}.

(** [buffer.equals(x)] of a slot, for a buffer or for something else *)
Definition slot_equals (s : slot) (b : buffer) : result bool :=
  match s with
  | Some (CBuf x) => Ok (buf_equals x b)
  | Some (COp _) => Throw (TypeError "equals is not a function")
  | None => no_property
  end.

(** [pubKeys] and [signatures] *)
Definition extractChunks (type : scriptType) (chunks : list chunk) (script : option buffer)
    : result (list slot * list slot) :=
  match type with
  | P2PKH => Ok (map Some (slice_from chunks 1), map Some (slice chunks 0 1))
  | P2PK =>
      pubKey ← (match script with
                | Some s => P2PKOutput.decode (SBuf s)
                | None => Ok None
                end : result slot);
      Ok ([pubKey], map Some (slice chunks 0 1))
  | MULTISIG =>
      pubKeys ← (match script with
                 | Some s => '(_, pubKeys) ← MultisigOutput.decode (SBuf s) false; Ok (map Some pubKeys)
                 | None => Ok []
                 end : result (list slot));
      let signature c := match c with CBuf [] => None | _ => Some c end in
      Ok (pubKeys, map signature (slice_from chunks 1))
  | _ => Ok ([], [])
  end.

(** The object [expandInput] builds from its local variables. *)
Definition expanded_input (scriptType : scriptType) (chunks : list chunk) (script prevOutScript : option buffer)
    (prevOutType : option Templates.scriptType) (witness : bool)
    (redeem : option (buffer * Templates.scriptType)) (witnessScript : option (buffer * Templates.scriptType)) : result input :=
  '(pubKeys, signatures) ← extractChunks scriptType chunks script;
  Ok (mkInput (Some pubKeys) (Some signatures) prevOutScript prevOutType (Some scriptType) script (Some witness)
        (fst <$> redeem) (snd <$> redeem) (fst <$> witnessScript) (snd <$> witnessScript) None).

Definition expandInput (scriptSig : buffer) (witnessStack : list buffer) : result input :=
  if (blen scriptSig =? 0) && (len witnessStack =? 0) then Ok empty_input else
  scriptSigChunks ← Script.decompile (SBuf scriptSig);
  sigType ← Classify.classifyInput (SArr scriptSigChunks) true;
  redeem ←
    (if bool_decide (sigType = P2SH) then
       match nth_chunk scriptSigChunks (len scriptSigChunks - 1) with
       | Some (CBuf redeemScript) =>
           redeemScriptType ← Classify.classifyOutput (SBuf redeemScript);
           prevOutScript ← P2SHOutput.encode (Crypto.hash160 redeemScript);
           Ok (Some (redeemScript, redeemScriptType, prevOutScript))
       | _ => no_property
       end
     else Ok None : result (option (buffer * scriptType * buffer)));
  let redeemPair := (λ r, (r.1.1, r.1.2)) <$> redeem in
  let redeemPrev := snd <$> redeem in
  classifyWitness ← Classify.classifyWitness (SArr (map CBuf witnessStack)) true;
  if bool_decide (classifyWitness = P2WSH) then
    match last witnessStack with
    | None => no_property
    | Some witnessScript =>
        witnessScriptType ← Classify.classifyOutput (SBuf witnessScript);
        '(prevOutScript, prevOutType) ←
          (if blen scriptSig =? 0 then
             s ← P2WSHOutput.encode (Crypto.sha256 witnessScript);
             match redeem with
             | Some _ => Throw (Error "Redeem script given when unnecessary")
             | None => Ok (Some s, Some P2WSH)
             end
           else
             match redeem with
             | None => Throw (Error "No redeemScript provided for P2WSH, but scriptSig non-empty")
             | Some (redeemScript, _, prev) =>
                 witnessProgram ← P2WSHOutput.encode (Crypto.sha256 witnessScript);
                 if negb (buf_equals redeemScript witnessProgram)
                 then Throw (Error "Redeem script didn't match witnessScript")
                 else Ok (Some prev, Some P2SH)
             end : result (option buffer * option scriptType));
        t ← Classify.classifyOutput (SBuf witnessScript);
        if negb (supportedType (Some t)) then Throw (Error "unsupported witness script")
        else expanded_input witnessScriptType (map CBuf (slice witnessStack 0 (-1))) (Some witnessScript) prevOutScript prevOutType
               true redeemPair (Some (witnessScript, witnessScriptType))
    end
  else if bool_decide (classifyWitness = P2WPKH) then
    match last witnessStack with
    | None => no_property
    | Some key =>
        let keyHash := Crypto.hash160 key in
        '(prevOutScript, prevOutType) ←
          (if blen scriptSig =? 0 then
             s ← P2WPKHOutput.encode keyHash;
             match redeem with
             | Some _ => Throw (Error "Redeem script given when unnecessary")
             | None => Ok (Some s, Some P2WPKH)
             end
           else
             match redeem with
             | None => Throw (Error "No redeemScript provided for P2WPKH, but scriptSig wasn't empty")
             | Some (redeemScript, _, prev) =>
                 witnessProgram ← P2WPKHOutput.encode keyHash;
                 if negb (buf_equals redeemScript witnessProgram)
                 then Throw (Error "Redeem script did not have the right witness program")
                 else Ok (Some prev, Some P2SH)
             end : result (option buffer * option scriptType));
        expanded_input P2PKH (map CBuf witnessStack) (fst <$> redeemPair) prevOutScript prevOutType true redeemPair None
    end
  else
    match redeem with
    | Some (redeemScript, redeemScriptType, prev) =>
        if negb (supportedP2SHType (Some redeemScriptType)) then Throw (Error "Bad redeemscript!")
        else expanded_input redeemScriptType (slice scriptSigChunks 0 (-1)) (Some redeemScript) (Some prev) (Some P2SH)
               false redeemPair None
    | None =>
        scriptType ← Classify.classifyInput (SBuf scriptSig) false;
        expanded_input scriptType scriptSigChunks None None (Some scriptType) false None None
    end.

(** ** expandOutput *)

(** The array of [undefined] of the length of [pubKeys]. *)
Definition blank_signatures (pubKeys : list slot) : list slot := map (λ _, None) pubKeys.

Definition expandOutput (script : buffer) (scriptType : option scriptType) (ourPubKey : option buffer) : result expansion :=
  scriptChunks ← Script.decompile (SBuf script);
  scriptType ← (match scriptType with Some t => Ok t | None => Classify.classifyOutput (SBuf script) end
                : result Templates.scriptType);
  let found pubKeys := mkExpansion (Some pubKeys) scriptType (Some (blank_signatures pubKeys)) in
  let ours i :=
    match ourPubKey with
    | None => Ok (found [])
    | Some pk =>
        same ← slot_equals (nth_chunk scriptChunks i) (Crypto.hash160 pk);
        Ok (found (if (same : bool) then [Some (CBuf pk)] else []))
    end in
  match scriptType with
  | P2PKH => ours 2
  | P2WPKH => ours 1
  | P2PK => Ok (found (map Some (slice scriptChunks 0 1)))
  | MULTISIG => Ok (found (map Some (slice scriptChunks 1 (-2))))
  | _ => Ok (mkExpansion None scriptType None)
  end.

(** ** prepareInput *)

(** [bscript.decompile(input.prevOutScript)[1]] *)
Definition prevOut_hash (input : input) : result slot :=
  match in_prevOutScript input with
  | None => Throw TypeforceError
  | Some s => cs ← Script.decompile (SBuf s); Ok (nth_chunk cs 1)
  end.

Definition checkP2SHInput (input : input) (redeemScriptHash : buffer) : result unit :=
  match in_prevOutType input with
  | None => Ok tt
  | Some t =>
      if negb (bool_decide (t = P2SH)) then Throw (Error "PrevOutScript must be P2SH")
      else
        h ← prevOut_hash input;
        same ← slot_equals h redeemScriptHash;
        if negb same then Throw (Error "Inconsistent hash160(RedeemScript)") else Ok tt
  end.

Definition checkP2WSHInput (input : input) (witnessScriptHash : buffer) : result unit :=
  match in_prevOutType input with
  | None => Ok tt
  | Some t =>
      if negb (bool_decide (t = P2WSH)) then Throw (Error "PrevOutScript must be P2WSH")
      else
        h ← prevOut_hash input;
        same ← slot_equals h witnessScriptHash;
        if negb same then Throw (Error "Inconsistent sha25(WitnessScript)") else Ok tt
  end.

(** The assignments at the end of [prepareInput]. *)
Definition prepared (i : input) (expanded : expansion) (prevOutType : scriptType) (prevOutScript : buffer)
    (p2sh : option (buffer * scriptType)) (p2wsh : option (buffer * scriptType)) (witness : bool)
    (signType : scriptType) (signScript : buffer) : result input :=
  signScript ← (if bool_decide (signType = P2WPKH)
                then h ← P2WPKHOutput.decode signScript; P2PKHOutput.encode h
                else Ok signScript);
  Ok (mkInput (ex_pubKeys expanded) (ex_signatures expanded) (Some prevOutScript) (Some prevOutType)
        (Some signType) (Some signScript) (Some witness)
        (match p2sh with Some (r, _) => Some r | None => in_redeemScript i end)
        (match p2sh with Some (_, t) => Some t | None => in_redeemScriptType i end)
        (match p2wsh with Some (w, _) => Some w | None => in_witnessScript i end)
        (match p2wsh with Some (_, t) => Some t | None => in_witnessScriptType i end)
        (in_value i)).

Definition prepareInput (i : input) (kpPubKey : buffer) (redeemScript witnessScript : option buffer) : result input :=
  match redeemScript, witnessScript with
  | Some redeemScript, Some witnessScript =>
      let redeemScriptHash := Crypto.hash160 redeemScript in
      let witnessScriptHash := Crypto.sha256 witnessScript in
      _ ← checkP2SHInput i redeemScriptHash;
      program ← P2WSHOutput.encode witnessScriptHash;
      if negb (buf_equals redeemScript program) then Throw (Error "Witness script inconsistent with redeem script") else
      expanded ← expandOutput witnessScript None (Some kpPubKey);
      match ex_pubKeys expanded with
      | None => _ ← Asm.toASM (SBuf redeemScript); Throw (Error "WitnessScript not supported")
      | Some _ =>
          prevOutScript ← P2SHOutput.encode redeemScriptHash;
          prepared i expanded P2SH prevOutScript (Some (redeemScript, P2WSH))
            (Some (witnessScript, ex_scriptType expanded)) true (ex_scriptType expanded) witnessScript
      end
  | Some redeemScript, None =>
      let redeemScriptHash := Crypto.hash160 redeemScript in
      _ ← checkP2SHInput i redeemScriptHash;
      expanded ← expandOutput redeemScript None (Some kpPubKey);
      match ex_pubKeys expanded with
      | None => _ ← Asm.toASM (SBuf redeemScript); Throw (Error "RedeemScript not supported")
      | Some _ =>
          prevOutScript ← P2SHOutput.encode redeemScriptHash;
          let signType := ex_scriptType expanded in
          prepared i expanded P2SH prevOutScript (Some (redeemScript, signType)) None
            (bool_decide (signType = P2WPKH)) signType redeemScript
      end
  | None, Some witnessScript =>
      let witnessScriptHash := Crypto.sha256 witnessScript in
      _ ← checkP2WSHInput i witnessScriptHash;
      expanded ← expandOutput witnessScript None (Some kpPubKey);
      match ex_pubKeys expanded with
      | None => no_property         (* [bscript.toASM(undefined)] *)
      | Some _ =>
          prevOutScript ← P2WSHOutput.encode witnessScriptHash;
          prepared i expanded P2WSH prevOutScript None (Some (witnessScript, ex_scriptType expanded)) true
            (ex_scriptType expanded) witnessScript
      end
  | None, None =>
      match in_prevOutType i with
      | Some prevOutType =>
          if bool_decide (prevOutType = P2SH ∨ prevOutType = P2WSH)
          then Throw (Error "requires redeemScript")
          else
            match in_prevOutScript i with
            | None => Throw TypeforceError
            | Some prevOutScript =>
                expanded ← expandOutput prevOutScript (Some prevOutType) (Some kpPubKey);
                match ex_pubKeys expanded with
                | None => Ok i
                | Some _ =>
                    prepared i expanded prevOutType prevOutScript None None (bool_decide (prevOutType = P2WPKH))
                      prevOutType prevOutScript
                end
            end
      | None =>
          prevOutScript ← P2PKHOutput.encode (Crypto.hash160 kpPubKey);
          expanded ← expandOutput prevOutScript (Some P2PKH) (Some kpPubKey);
          prepared i expanded P2PKH prevOutScript None None false P2PKH prevOutScript
      end
  end.

(** ** buildInput *)

Definition buildStack (type : scriptType) (signatures pubKeys : option (list slot)) (allowIncomplete : bool)
    : result (list chunk) :=
  let incomplete := if negb allowIncomplete then Throw (Error "Not enough signatures provided") else Ok [] in
  match type with
  | P2PKH =>
      match signatures with
      | None => no_property
      | Some [Some (CBuf s)] =>
          match pubKeys with
          | None => no_property
          | Some [Some pubKey] => P2PKHInput.encodeStack (CBuf s) pubKey
          | Some [None] => Throw TypeforceError
          | Some _ => incomplete
          end
      | Some _ => incomplete
      end
  | P2PK =>
      match signatures with
      | None => no_property
      | Some [Some (CBuf s)] => P2PKInput.encodeStack (CBuf s)
      | Some _ => incomplete
      end
  | MULTISIG =>
      match signatures with
      | None => no_property
      | Some [] => incomplete
      | Some signatures =>
          let blank s := if slot_true s then default (COp OP_0) s else COp OP_0 in
          let signatures := map blank signatures in
          let signatures :=
            if negb allowIncomplete
            then base.filter (λ x, is_op (Some x) OP_0 = false) signatures else signatures in
          MultisigInput.encodeStack signatures None
      end
  | _ => Throw (Error "Not yet supported")
  end.

Record built := mkBuilt {
  b_type : option scriptType;
  b_script : buffer;
  b_witness : list chunk;
}.

(** [xs.push(x)] of a script that may be [undefined].  A builder that has the type
    of a script has the script; [compile] throws on [undefined]. *)
Definition push (xs : list chunk) (x : option buffer) : result (list chunk) :=
  match x with Some b => Ok (xs ++ [CBuf b]) | None => no_property end.

Definition buildInput (i : input) (allowIncomplete : bool) : result built :=
  let scriptType := in_prevOutType i in
  sig ← (match scriptType with
         | Some t => if supportedType scriptType then buildStack t (in_signatures i) (in_pubKeys i) allowIncomplete else Ok []
         | None => Ok []
         end : result (list chunk));
  '(sig, p2sh, scriptType) ←
    (if bool_decide (scriptType = Some P2SH) then
       if negb allowIncomplete && negb (supportedP2SHType (in_redeemScriptType i))
       then Throw (Error "Impossible to sign this type")
       else
         match in_redeemScriptType i with
         | Some t =>
             sig ← (if supportedType (Some t) then buildStack t (in_signatures i) (in_pubKeys i) allowIncomplete else Ok sig);
             Ok (sig, true, Some t)
         | None => Ok (sig, false, scriptType)
         end
     else Ok (sig, false, scriptType) : result (list chunk * bool * option Templates.scriptType));
  '(witness, scriptType) ←
    (match scriptType with
     | Some P2WPKH =>
         w ← buildStack P2PKH (in_signatures i) (in_pubKeys i) allowIncomplete; Ok (w, scriptType)
     | Some P2WSH =>
         if negb allowIncomplete && negb (supportedType (in_witnessScriptType i))
         then Throw (Error "Impossible to sign this type")
         else
           match in_witnessScriptType i with
           | Some t =>
               if supportedType (Some t) then
                 w ← buildStack t (in_signatures i) (in_pubKeys i) allowIncomplete;
                 w ← push w (in_witnessScript i);
                 Ok (w, Some t)
               else Ok ([], scriptType)
           | None => Ok ([], scriptType)
           end
     | _ => Ok ([], scriptType)
     end : result (list chunk * option Templates.scriptType));
  sig ← (if (p2sh : bool) then push sig (in_redeemScript i) else Ok sig);
  script ← Script.compile (SArr sig);
  Ok (mkBuilt scriptType script witness).

(** ** The builder *)

(** A rate that is not given, or is 0, is 2500. *)
Definition new (network : option network) (rate : option Z) : builder :=
  mkBuilder ∅ (default bitcoin network)
    (match rate with Some r => if truthy r then r else 2500 | None => 2500 end) [] Transaction.new.

Definition any_signature (i : input) : bool :=
  match in_signatures i with Some ss => existsb slot_true ss | None => false end.

Definition setLockTime (st : builder) (locktime : Z) : result builder :=
  _ ← guard_js (tf_UInt32 locktime) TypeforceError;
  if existsb any_signature (inputs st) then Throw (Error "No, this would invalidate signatures")
  else Ok (set_tx (mkTransaction (version (tb_tx st)) locktime (ins (tb_tx st)) (outs (tb_tx st))) st).

(** [signature.readUInt8(signature.length - 1)]; a number has no such method. *)
Definition signatureHashType (signature : slot) : result Z :=
  match signature with
  | Some (CBuf b) => readUInt8 b (blen b - 1)
  | _ => Throw (TypeError "readUInt8 is not a function")
  end.

(** [xs.every(f)] for a function that can throw *)
Fixpoint every {A} (f : A → result bool) (xs : list A) : result bool :=
  match xs with
  | [] => Ok true
  | x :: xs => b ← f x; if (b : bool) then every f xs else Ok false
  end.

(** The [every] over the signatures of every input; blank signatures pass. *)
Definition every_signature (f : Z → bool) (l : list input) : result bool :=
  every (λ i, match in_signatures i with
              | None => Ok true
              | Some ss =>
                  every (λ s, if negb (slot_true s) then Ok true else hashType ← signatureHashType s; Ok (f hashType)) ss
              end) l.

Definition __canModifyInputs (st : builder) : result bool :=
  every_signature (λ hashType, truthy (js_and hashType Transaction.SIGHASH_ANYONECANPAY)) (inputs st).

Definition __canModifyOutputs (st : builder) : result bool :=
  let nInputs := len (ins (tb_tx st)) in
  let nOutputs := len (outs (tb_tx st)) in
  every_signature (λ hashType,
    let hashTypeMod := js_and hashType 0x1f in
    if hashTypeMod =? Transaction.SIGHASH_NONE then true
    else if hashTypeMod =? Transaction.SIGHASH_SINGLE then nInputs <=? nOutputs
    else false) (inputs st).

(** The fields [__addInputUnsafe] derives from the previous output. *)
Definition derive_prevout (i : input) (prevOutScript : option buffer) : result input :=
  match in_prevOutScript i, prevOutScript with
  | None, Some s =>
      match in_pubKeys i, in_signatures i with
      | None, None =>
          expanded ← expandOutput s None None;
          Ok (set_prevout (ex_pubKeys expanded) (ex_signatures expanded) (Some s) (Some (ex_scriptType expanded)) i)
      | ks, ss =>
          t ← Classify.classifyOutput (SBuf s);
          Ok (set_prevout ks ss (Some s) (Some t) i)
      end
  | _, _ => Ok i
  end.

Definition __addInputUnsafe (st : builder) (txHash : buffer) (vout : Z) (sequence : option Z)
    (script : option buffer) (witness : list buffer) (value : option Z) (prevOutScript : option buffer)
    : result (builder * Z) :=
  coinbase ← Transaction.isCoinbaseHash txHash;
  if (coinbase : bool) then Throw (Error "coinbase inputs not supported") else
  let prevTxOut := (txHash, vout) in
  match prevTxMap st !! prevTxOut with
  | Some _ => Throw (Error "Duplicate TxOut: ")
  | None =>
      i ← match script with Some s => expandInput s witness | None => Ok empty_input end;
      let i := match value with Some _ => set_value value i | None => i end in
      i ← derive_prevout i prevOutScript;
      '(tx, vin) ← Transaction.addInput (tb_tx st) txHash vout sequence None;
      Ok (mkBuilder (<[prevTxOut := vin]> (prevTxMap st)) (tb_network st) (maximumFeeRate st)
            (take (Z.to_nat vin) (inputs st) ++ [i] ++ drop (S (Z.to_nat vin)) (inputs st)) tx, vin)
  end.

Definition addInput (st : builder) (txHash : tx_ref) (vout : Z) (sequence : option Z) (prevOutScript : option buffer)
    : result (builder * Z) :=
  ok ← __canModifyInputs st;
  if negb ok then Throw (Error "No, this would invalidate signatures") else
  match txHash with
  | RefHex id => __addInputUnsafe st (reverse (Hex.fromHex id)) vout sequence None [] None prevOutScript
  | RefTx tx =>
      match Sighash.at_index (outs tx) vout with
      | None => no_property
      | Some txOut =>
          hash ← Transaction.getHash tx;
          __addInputUnsafe st hash vout sequence None [] (out_value txOut) (Some (out_script txOut))
      end
  | RefHash hash => __addInputUnsafe st hash vout sequence None [] None prevOutScript
  end.

Definition addOutput (st : builder) (scriptPubKey : output_ref) (value : Z) : result (builder * Z) :=
  ok ← __canModifyOutputs st;
  if negb ok then Throw (Error "No, this would invalidate signatures") else
  scriptPubKey ← match scriptPubKey with
                 | OutAddress a => Address.toOutputScript a (Some (tb_network st))
                 | OutScript s => Ok s
                 end;
  '(tx, n) ← Transaction.addOutput (tb_tx st) scriptPubKey value;
  Ok (set_tx tx st, n).

Definition __overMaximumFees (st : builder) (bytes : Z) : bool :=
  let incoming := fold_left (λ a x, a + js_ushr (bits_of (in_value x)) 0) (inputs st) 0 in
  match mapM out_value (outs (tb_tx st)) with
  | None => false                                  (* [NaN] *)
  | Some values =>
      let outgoing := fold_left Z.add values 0 in
      let fee := incoming - outgoing in
      fee >? maximumFeeRate st * bytes
  end.

(** The witness of an input has to be an array of buffers. *)
Definition stack_buffers (stack : list chunk) : result (list buffer) :=
  mapM (λ c, match c with CBuf b => Ok b | COp _ => Throw TypeforceError end) stack.

Definition build_step (allowIncomplete : bool) (n : nat) (i : input) (tx : transaction) : result transaction :=
  let scriptType := match in_witnessScriptType i with
                    | Some t => Some t
                    | None => match in_redeemScriptType i with Some t => Some t | None => in_prevOutType i end
                    end in
  if bool_decide (scriptType = None) && negb allowIncomplete then Throw (Error "Transaction is not complete") else
  result ← buildInput i allowIncomplete;
  if negb allowIncomplete && negb (supportedType (b_type result)) && negb (bool_decide (b_type result = Some P2WPKH))
  then Throw (Error " not supported")
  else
    tx ← Transaction.setInputScript tx (Z.of_nat n) (b_script result);
    witness ← stack_buffers (b_witness result);
    Transaction.setWitness tx (Z.of_nat n) witness.

(** [this.inputs.forEach] from index [n] on *)
Fixpoint build_steps (allowIncomplete : bool) (n : nat) (l : list input) (tx : transaction) : result transaction :=
  match l with
  | [] => Ok tx
  | i :: l => tx ← build_step allowIncomplete n i tx; build_steps allowIncomplete (S n) l tx
  end.

Definition __build (st : builder) (allowIncomplete : bool) : result transaction :=
  _ ← guard_js (allowIncomplete || negb (len (ins (tb_tx st)) =? 0)) (Error "Transaction has no inputs");
  _ ← guard_js (allowIncomplete || negb (len (outs (tb_tx st)) =? 0)) (Error "Transaction has no outputs");
  tx ← build_steps allowIncomplete 0 (inputs st) (Transaction.clone (tb_tx st));
  if negb allowIncomplete && __overMaximumFees st (Transaction.virtualSize tx)
  then Throw (Error "Transaction has absurd fees")
  else Ok tx.

Definition build (st : builder) : result transaction := __build st false.
Definition buildIncomplete (st : builder) : result transaction := __build st true.

(** ** Signing *)

Definition canSign (i : input) : bool :=
  match in_prevOutScript i, in_signScript i, in_pubKeys i, in_signatures i with
  | Some _, Some _, Some ks, Some ss =>
      (len ss =? len ks) && (0 <? len ks) &&
      match in_isWitness i with
      | Some false => true
      | Some true => match in_value i with Some _ => true | None => false end
      | None => false
      end
  | _, _, _, _ => false
  end.

(** The part of [sign] that completes the input: the input as it is left, and the
    outcome. *)
Definition sign_prepare (i : input) (kpPubKey : buffer) (redeemScript : option buffer) (witnessValue : option Z)
    (witnessScript : option buffer) : input * result unit :=
  let prepare i :=
    if canSign i then (i, Ok tt)
    else
      match prepareInput i kpPubKey redeemScript witnessScript with
      | Throw e => (i, Throw e)
      | Ok i => (i, if canSign i then Ok tt else Throw (Error " not supported"))
      end in
  if canSign i then (i, Ok tt)
  else
    match witnessValue with
    | None => prepare i
    | Some w =>
        if match in_value i with Some v => negb (v =? w) | None => false end
        then (i, Throw (Error "Input didn't match witnessValue"))
        else if negb (Satoshi w) then (i, Throw TypeforceError)
        else prepare (set_value (Some w) i)
    end.

Definition script_signature (signature : key_signature) (hashType : Z) (signatureAlgorithm : option Z) : result buffer :=
  match signature with
  | KeyBuffer b => s ← ECSignature.fromRSBuffer b; ECSignature.toScriptSignature s hashType signatureAlgorithm
  | KeySignature s => ECSignature.toScriptSignature s hashType signatureAlgorithm
  | KeyUndefined => no_property
  end.

(** [input.pubKeys.some(...)] from index [n] on: the signatures with the new one. *)
Fixpoint sign_slots (keyPair : key) (kpPubKey signatureHash : buffer) (hashType : Z) (signatureAlgorithm : option Z)
    (signType : option scriptType) (signatures : list slot) (n : nat) (pubKeys : list slot) : result (list slot) :=
  match pubKeys with
  | [] => Throw (Error "Key pair cannot sign for this input")
  | Some (CBuf pubKey) :: rest =>
      if negb (buf_equals kpPubKey pubKey)
      then sign_slots keyPair kpPubKey signatureHash hashType signatureAlgorithm signType signatures (S n) rest
      else if slot_true (default None (signatures !! n)) then Throw (Error "Signature already exists")
      else if negb (blen kpPubKey =? 33) && bool_decide (signType = Some P2WPKH)
      then Throw (Error "BIP143 rejects uncompressed public keys in P2WPKH or P2WSH")
      else
        signature ← key_sign keyPair signatureHash signatureAlgorithm;
        b ← script_signature signature hashType signatureAlgorithm;
        Ok (<[n := Some (CBuf b)]> signatures)
  | _ :: _ => Throw (TypeError "argument must be a Buffer")
  end.

(** The part of [sign] behind the preparation. *)
Definition sign_ready (tx : transaction) (vin : Z) (i : input) (keyPair : key) (kpPubKey : buffer) (hashType : Z)
    (witnessValue signatureAlgorithm : option Z) : result input :=
  match in_signScript i, in_pubKeys i, in_signatures i with
  | Some signScript, Some pubKeys, Some signatures =>
      signatureHash ← Sighash.hashForCashSignature tx vin signScript witnessValue hashType;
      signatures ← sign_slots keyPair kpPubKey signatureHash hashType signatureAlgorithm (in_signType i) signatures 0 pubKeys;
      Ok (set_signatures (Some signatures) i)
  | _, _, _ => no_property
  end.

(** The hash type [sign] uses: the bit of the fork is set, so that the default
    after it is never taken. *)
Definition sign_hashType (hashType : option Z) : Z :=
  let hashType := js_or (bits_of hashType) Transaction.SIGHASH_BITCOINCASHBIP143 in
  if truthy hashType then hashType else Transaction.SIGHASH_ALL.

Definition replace_input (st : builder) (vin : Z) (i : input) : builder :=
  set_inputs (<[Z.to_nat vin := i]> (inputs st)) st.

Definition sign (st : builder) (vin : Z) (keyPair : key) (redeemScript : option buffer) (hashType witnessValue : option Z)
    (witnessScript : option buffer) (signatureAlgorithm : option Z) : builder * result unit :=
  let hashType := sign_hashType hashType in
  match Sighash.at_index (inputs st) vin with
  | None => (st, Throw (Error "No input at index: "))
  | Some i =>
      if match in_redeemScript i, redeemScript with Some r, Some r' => negb (buf_equals r r') | _, _ => false end
      then (st, Throw (Error "Inconsistent redeemScript"))
      else
        match key_public keyPair with
        | Throw e => (st, Throw e)
        | Ok kpPubKey =>
            let '(i, outcome) := sign_prepare i kpPubKey redeemScript witnessValue witnessScript in
            let st := replace_input st vin i in
            match outcome with
            | Throw e => (st, Throw e)
            | Ok _ =>
                match sign_ready (tb_tx st) vin i keyPair kpPubKey hashType witnessValue signatureAlgorithm with
                | Throw e => (st, Throw e)
                | Ok i => (replace_input st vin i, Ok tt)
                end
            end
        end
  end.

(** An [ECPair] as the key of [sign]. *)
Definition key_of_pair `{HM : !CreateHmac} (fuel : nat) (p : ecpair) : key :=
  mkKey (ECPair.getPublicKeyBuffer p)
    (λ hash alg, s ← ECPair.sign fuel p hash alg;
       Ok match s with Some s => KeySignature s | None => KeyUndefined end).

(** ** fromTransaction *)

(** [unmatched.some(...)]: what is left unmatched, and the match. *)
Fixpoint match_signature (keyPair : ecpair) (hash : Z → result buffer) (unmatched : list slot)
    : result (list slot * slot) :=
  match unmatched with
  | [] => Ok ([], None)
  | s :: rest =>
      let skip := '(rest, found) ← match_signature keyPair hash rest; Ok (s :: rest, found) in
      if negb (slot_true s) then skip
      else
        match s with
        | Some (CBuf b) =>
            '(signature, hashType) ← ECSignature.parseScriptSignature b;
            h ← hash hashType;
            ok ← ECPair.verify keyPair h signature;
            if (ok : bool) then Ok (None :: rest, s) else skip
        | _ => Throw (TypeError "readUInt8 is not a function")
        end
  end.

Fixpoint match_signatures (hash : Z → result buffer) (unmatched pubKeys : list slot) : result (list slot) :=
  match pubKeys with
  | [] => Ok []
  | Some (CBuf pubKey) :: rest =>
      keyPair ← ECPair.fromPublicKeyBuffer pubKey None;
      '(unmatched, found) ← match_signature keyPair hash unmatched;
      signatures ← match_signatures hash unmatched rest;
      Ok (found :: signatures)
  | _ :: _ => Throw (TypeError "argument must be a Buffer")
  end.

Definition fixMultisigOrder (i : input) (tx : transaction) (vin : Z) (value : option Z) (bitcoinCash : bool) : result input :=
  match in_redeemScriptType i, in_redeemScript i, in_pubKeys i, in_signatures i, in_signScript i with
  | Some MULTISIG, Some _, Some pubKeys, Some signatures, Some signScript =>
      if len pubKeys =? len signatures then Ok i
      else
        let hash hashType :=
          if bitcoinCash then Sighash.hashForCashSignature tx vin signScript value hashType
          else if bool_decide (in_isWitness i = Some true) then
            match value with
            | Some value => Sighash.hashForWitnessV0 tx vin signScript value hashType
            | None => Throw TypeforceError
            end
          else Sighash.hashForSignature tx vin signScript hashType in
        signatures ← match_signatures hash signatures pubKeys;
        Ok (set_signatures (Some signatures) i)
  | Some MULTISIG, Some _, _, _, _ => no_property
  | _, _, _, _, _ => Ok i
  end.

(** [xs.forEach(f)] that threads the builder *)
Fixpoint each {A} (f : builder → A → result builder) (st : builder) (xs : list A) : result builder :=
  match xs with
  | [] => Ok st
  | x :: xs => st ← f st x; each f st xs
  end.

(** [values i] is the field [value] of input [i], which a caller may have set. *)
Definition fromTransaction (tx : transaction) (network : option network) (values : nat → option Z) (bitcoinCashTx : bool)
    : result builder :=
  let st := new network None in
  st ← setLockTime st (locktime tx);
  st ← each (λ st o,
    match out_value o with
    | Some value => '(st, _) ← addOutput st (OutScript (out_script o)) value; Ok st
    | None => Throw TypeforceError
    end) st (outs tx);
  st ← each (λ st (p : nat * txin),
    let '(n, x) := p in
    '(st, _) ← __addInputUnsafe st (in_hash x) (in_index x) (Some (in_sequence x)) (Some (in_script x)) (in_witness x)
                 (values n) None;
    Ok st) st (zip (seq 0 (length (ins tx))) (ins tx));
  fixed ← mapM (λ p : nat * input, fixMultisigOrder p.2 tx (Z.of_nat p.1) (in_value p.2) bitcoinCashTx)
            (zip (seq 0 (length (inputs st))) (inputs st));
  Ok (set_inputs fixed st).

End S.
End TransactionBuilder.
