(* ===== verification/TransactionBuilderLaws.v ===== *)
(** * What the builder guarantees

    The public operations of the builder as a step relation, and the invariants
    of the states it reaches from a new builder: the inputs of the builder are
    those of its transaction, no output is spent twice, and every signature it
    holds commits to the transaction as it is now, whatever was added after the
    signature was made.  The last part is about [build]. *)

From stdpp Require Import base tactics list gmap numbers strings.
From S2P Require Import Prelude JsNumber NodeBuffer Opcodes Externals Encodings BufferUtils Crypto Curve Script Asm.
From S2P Require Import Templates TemplateLaws Transaction Sighash ECSignature Ecdsa Address ECPair TransactionBuilder.
Import Types Networks Sighash TransactionBuilder.
Open Scope Z_scope.

Module TransactionBuilderLaws.
Section S.
Context {Mem : UninitMem} `{TF : !Typeforce} `{VU : !VarUint} `{CH : !CreateHash} `{B66 : !Bip66}
  `{B58 : !Bs58check} `{B32 : !Bech32} `{BI : !Bigi} `{EC : !Ecurve}.

(** ** Steps *)

(** An operation of the public interface.  The three operations that build the
    transaction leave the builder as it was when they throw; [sign] may not. *)
Inductive step : builder → builder → Prop :=
| step_lockTime st l st' : setLockTime st l = Ok st' → step st st'
| step_input st ref vout seq prev st' vin : addInput st ref vout seq prev = Ok (st', vin) → step st st'
| step_output st out value st' n : addOutput st out value = Ok (st', n) → step st st'
| step_sign st vin keyPair redeem hashType value witness alg :
    step st (sign st vin keyPair redeem hashType value witness alg).1.

Inductive reachable (network : option network) (rate : option Z) : builder → Prop :=
| reachable_new : reachable network rate (new network rate)
| reachable_step st st' : reachable network rate st → step st st' → reachable network rate st'.

(** ** The invariant *)

(** The signature [b] in slot [n] of input [vin] is what the key of public key
    [n] makes of the hash of the transaction [tx]. *)
Inductive commits (tx : transaction) (vin : nat) (i : input) (n : nat) (b : buffer) : Prop :=
| Commits keyPair pub ks script hashType value alg hash sig :
    key_public keyPair = Ok pub → in_pubKeys i = Some ks → ks !! n = Some (Some (CBuf pub)) →
    in_signScript i = Some script → truthy (js_and hashType Transaction.SIGHASH_BITCOINCASHBIP143) = true →
    hashForCashSignature tx (Z.of_nat vin) script value hashType = Ok hash →
    key_sign keyPair hash alg = Ok sig → script_signature sig hashType alg = Ok b →
    commits tx vin i n b.

(** The signatures of an input: each commits to [tx], and an input that holds one
    is complete. *)
Definition signatures_ok (tx : transaction) (vin : nat) (i : input) : Prop :=
  ∀ ss n s, in_signatures i = Some ss → ss !! n = Some s → slot_true s = true →
    canSign i = true ∧ ∃ b, s = Some (CBuf b) ∧ commits tx vin i n b.

Record builder_ok (st : builder) : Prop := {
  ok_len : length (inputs st) = length (ins (tb_tx st));
  ok_signatures : ∀ vin i, inputs st !! vin = Some i → signatures_ok (tb_tx st) vin i;
  ok_prevouts : ∀ k v, prevTxMap st !! k = Some v ↔ ∃ x, at_index (ins (tb_tx st)) v = Some x ∧ outpoint x = k;
  ok_outs : Forall (λ o, out_valueBuffer o = None) (outs (tb_tx st));
}.

(** ** Signatures and their hash types *)

Context `{TS : !TypeforceSpec}.

Lemma toScriptSignature_byte sig h alg b :
  ECSignature.toScriptSignature sig h alg = Ok b → readUInt8 b (blen b - 1) = Ok h.
Proof.
  unfold ECSignature.toScriptSignature. destruct (_ || _); [done|].
  destruct (NodeBuffer.writeUInt8 (alloc 1 0) h 0) as [t|] eqn:E; [|done]. cbn [mbind result_bind].
  assert (t = [h]) as ->.
  { unfold NodeBuffer.writeUInt8, writeUIntLE in E. destruct (_ && _) eqn:R; [|done]. bool_facts.
    change (alloc 1 0) with [0] in E. change (in_range [0] 0 (Z.of_nat 1)) with true in E. cbv iota in E.
    injection E as <-. cbn [le_bytes]. change (256 ^ Z.of_nat 1) with 256 in *. rewrite Z.mod_small by lia. reflexivity. }
  assert (L : ∀ p : buffer, readUInt8 (p ++ [h]) (blen (p ++ [h]) - 1) = Ok h).
  { intros p. rewrite blen_app. replace (blen p + blen [h] - 1) with (blen p) by (rewrite blen_cons, blen_nil; lia). apply readUInt8_app. }
  destruct (_ =? ECSignature.ECDSA); [|destruct (_ =? ECSignature.SCHNORR); [|done]].
  - destruct (ECSignature.toDER sig) as [p|]; [|done]. cbn [mbind result_bind]. intros [= <-]. apply L.
  - destruct (ECSignature.toRSBuffer sig None None) as [p|]; [|done]. cbn [mbind result_bind]. intros [= <-]. apply L.
Qed.

(** The last byte of a signature in a slot is its hash type. *)
Lemma script_signature_byte sig h alg b : script_signature sig h alg = Ok b → signatureHashType (Some (CBuf b)) = Ok h.
Proof.
  unfold script_signature, signatureHashType. destruct sig as [rs|s|]; [|apply toScriptSignature_byte|done].
  destruct (ECSignature.fromRSBuffer rs); [|done]. apply toScriptSignature_byte.
Qed.

Lemma every_spec {A} (f : A → result bool) xs : every f xs = Ok true → Forall (λ x, f x = Ok true) xs.
Proof.
  induction xs as [|x xs IH]; [constructor|]. cbn [every]. destruct (f x) as [[]|] eqn:E; [|done|done].
  cbn [mbind result_bind]. intros H. constructor; auto.
Qed.

Lemma every_signature_spec f l i ss n s h : every_signature f l = Ok true → i ∈ l → in_signatures i = Some ss →
  ss !! n = Some s → slot_true s = true → signatureHashType s = Ok h → f h = true.
Proof.
  intros H Hi Hs Hn Ht Hh. unfold every_signature in H. apply every_spec in H. rewrite Forall_forall in H.
  specialize (H i Hi). cbn beta in H. rewrite Hs in H. apply every_spec in H. rewrite Forall_lookup in H.
  specialize (H n s Hn). cbn beta in H. rewrite Ht, Hh in H. cbn in H. by injection H.
Qed.

(** ** Views *)

Lemma at_index_nat {A} (xs : list A) (v : nat) : at_index xs (Z.of_nat v) = xs !! v.
Proof. unfold at_index. rewrite (proj2 (Z.leb_le _ _)) by lia. by rewrite Nat2Z.id. Qed.

Lemma view_add_input tx x (v : nat) h : (v < length (ins tx))%nat → anyoneCanPay h = true →
  view_of tx (Z.of_nat v) h = view_of (mkTransaction (version tx) (locktime tx) (ins tx ++ [x]) (outs tx)) (Z.of_nat v) h.
Proof.
  intros Hv Ha. unfold view_of. cbn [version locktime ins outs]. rewrite Ha, !at_index_nat. cbn [orb].
  by rewrite lookup_app_l.
Qed.

Lemma view_add_output tx o (v : nat) h :
  baseType h = Transaction.SIGHASH_NONE ∨ (baseType h = Transaction.SIGHASH_SINGLE ∧ (v < length (outs tx))%nat) →
  view_of tx (Z.of_nat v) h = view_of (mkTransaction (version tx) (locktime tx) (ins tx) (outs tx ++ [o])) (Z.of_nat v) h.
Proof.
  intros Hb. unfold view_of. cbn [version locktime ins outs].
  destruct Hb as [->|[-> Hv]]; [done|]. f_equal. cbn. by rewrite !at_index_nat, lookup_app_l.
Qed.

Lemma commits_view tx tx' vin i n b :
  commits tx vin i n b →
  (∀ h, signatureHashType (Some (CBuf b)) = Ok h → view_of tx (Z.of_nat vin) h = view_of tx' (Z.of_nat vin) h) →
  commits tx' vin i n b.
Proof.
  intros [k pub ks sc h v alg hash sig H1 H2 H3 H4 H5 H6 H7 H8] Hv.
  refine (Commits _ _ _ _ _ k pub ks sc h v alg hash sig H1 H2 H3 H4 H5 _ H7 H8).
  rewrite <- H6. symmetry. apply hashForCashSignature_view, Hv. by eapply script_signature_byte.
Qed.

(** ** Preservation *)

Lemma new_ok network rate : builder_ok (new network rate).
Proof.
  split; cbn; try done.
  - intros k v. rewrite lookup_empty. split; [done|]. intros (x & E & _). unfold at_index in E. by destruct (0 <=? v).
Qed.

(** Inputs without signatures. *)
Lemma no_signature_ok tx vin i : any_signature i = false → signatures_ok tx vin i.
Proof.
  intros Ha ss n s Hs Hn Ht. unfold any_signature in Ha. rewrite Hs in Ha. exfalso.
  assert (existsb slot_true ss = true) as E; [|congruence].
  apply existsb_exists. exists s. split; [by eapply list_elem_of_In, list_elem_of_lookup_2|done].
Qed.

Lemma setLockTime_ok st l st' : builder_ok st → setLockTime st l = Ok st' → builder_ok st'.
Proof.
  intros [Hl Hs Hp Ho]. unfold setLockTime. destruct (tf_UInt32 l); [|done]. cbn [guard_js mbind result_bind].
  destruct (existsb any_signature (inputs st)) eqn:E; [done|]. intros [= <-].
  split; cbn; try done. intros vin i Hi. apply no_signature_ok. destruct (any_signature i) eqn:Ei; [|done].
  rewrite <- E. symmetry. apply existsb_exists. exists i. split; [by eapply list_elem_of_In, list_elem_of_lookup_2|done].
Qed.

Lemma blank_none ks : existsb slot_true (blank_signatures ks) = false.
Proof. induction ks; [done|]. cbn. done. Qed.

Lemma expandOutput_blank s t pk e : expandOutput s t pk = Ok e →
  (ex_pubKeys e = None ∧ ex_signatures e = None) ∨
  ∃ ks, ex_pubKeys e = Some ks ∧ ex_signatures e = Some (blank_signatures ks).
Proof.
  unfold expandOutput. destruct (Script.decompile _) as [cs|]; [|done]. cbn [mbind result_bind].
  set (r := match t with Some t => Ok t | None => _ end). destruct r as [t'|]; [|done]. cbn [mbind result_bind].
  assert (D : ∀ A (m : result A) k, (m ≫= k) = Ok e → ∃ x, m = Ok x ∧ k x = Ok e) by (intros; by apply bind_ok).
  destruct t'; intros E; try (injection E as <-; cbn; eauto; fail).
  all: destruct pk; [apply D in E as (x & _ & E)|]; injection E as <-; cbn; eauto.
Qed.

Lemma derive_prevout_fresh i s i' : any_signature i = false → derive_prevout i s = Ok i' → any_signature i' = false.
Proof.
  intros Hi. unfold derive_prevout. destruct (in_prevOutScript i), s as [s|]; try (intros [= <-]; done).
  unfold any_signature in *. destruct (in_pubKeys i) eqn:Ek, (in_signatures i) as [ss|] eqn:Es; intros E;
    apply bind_ok in E as (e & Ee & E); injection E as <-; cbn; try done.
  destruct (expandOutput_blank _ _ _ _ Ee) as [[_ ->]|(ks & _ & ->)]; [done|apply blank_none].
Qed.

Lemma at_index_some {A} (xs : list A) v x : at_index xs v = Some x ↔ 0 <= v ∧ xs !! Z.to_nat v = Some x.
Proof. unfold at_index. destruct (Z.leb_spec 0 v); split; intuition (lia || done). Qed.

Lemma at_index_snoc {A} (xs : list A) y v x :
  at_index (xs ++ [y]) v = Some x ↔ at_index xs v = Some x ∨ (v = len xs ∧ x = y).
Proof.
  rewrite !at_index_some. unfold len. split.
  - intros [Hv E]. apply lookup_app_Some in E as [E|[Hl E]]; [by left|].
    destruct (Z.to_nat v - length xs)%nat as [|k] eqn:Ek; [|done]. injection E as <-. right. split; [lia|done].
  - intros [[Hv E]|[-> ->]]; split; try lia; [by apply lookup_app_l_Some|].
    rewrite lookup_app_r by lia. by replace (Z.to_nat _ - length xs)%nat with 0%nat by lia.
Qed.

(** The map of previous outputs after one more. *)
Lemma prevouts_insert (m : gmap (list Z * Z) Z) xs x :
  (∀ k v, m !! k = Some v ↔ ∃ y, at_index xs v = Some y ∧ outpoint y = k) → m !! outpoint x = None →
  ∀ k v, <[outpoint x := len xs]> m !! k = Some v ↔ ∃ y, at_index (xs ++ [x]) v = Some y ∧ outpoint y = k.
Proof.
  intros Hm Hn k v. setoid_rewrite at_index_snoc. destruct (decide (outpoint x = k)) as [<-|Hk].
  - rewrite lookup_insert_eq. split; [intros [= <-]; exists x; by split; [right|]|].
    intros (y & [Hy|[-> ->]] & Ey); [|done]. assert (m !! outpoint x = Some v) as F by (apply Hm; eauto). congruence.
  - rewrite lookup_insert_ne by done. rewrite Hm. split; [intros (y & Hy & Ey); exists y; by split; [left|]|].
    intros (y & [Hy|[-> ->]] & Ey); [by exists y|done].
Qed.

(** An input as [addInput] appends it. *)
Lemma addInputUnsafe_inv st h vout seq value prev st' vin : builder_ok st →
  __addInputUnsafe st h vout seq None [] value prev = Ok (st', vin) →
  ∃ i x, any_signature i = false ∧ outpoint x = (h, vout) ∧ prevTxMap st !! (h, vout) = None ∧ vin = len (ins (tb_tx st)) ∧
    st' = mkBuilder (<[outpoint x := len (ins (tb_tx st))]> (prevTxMap st)) (tb_network st) (maximumFeeRate st)
            (inputs st ++ [i])
            (mkTransaction (version (tb_tx st)) (locktime (tb_tx st)) (ins (tb_tx st) ++ [x]) (outs (tb_tx st))).
Proof.
  intros Hok. unfold __addInputUnsafe. destruct (Transaction.isCoinbaseHash h) as [[]|]; [done| |done].
  cbn [mbind result_bind]. destruct (prevTxMap st !! (h, vout)) eqn:Em; [done|].
  set (i0 := match value with Some _ => _ | None => _ end).
  assert (Hi0 : any_signature i0 = false) by (unfold i0; by destruct value).
  destruct (derive_prevout i0 prev) as [i|] eqn:Ei; [|done]. cbn [mbind result_bind].
  unfold Transaction.addInput. destruct (guard_js _ _); [|done]. cbn [mbind result_bind]. intros [= <- <-].
  exists i, (mkTxin h vout Transaction.EMPTY_SCRIPT (default Transaction.DEFAULT_SEQUENCE seq) Transaction.EMPTY_WITNESS).
  split_and!; [by eapply derive_prevout_fresh|done|done|done|].
  rewrite len_to_nat, take_ge, drop_ge by (rewrite (ok_len _ Hok); lia). reflexivity.
Qed.

Lemma inputs_snoc l (i : input) vin j : (l ++ [i]) !! vin = Some j → l !! vin = Some j ∨ (vin = length l ∧ j = i).
Proof.
  intros E. apply lookup_app_Some in E as [E|[Hl E]]; [by left|].
  destruct (vin - length l)%nat eqn:Ek; [|done]. injection E as <-. right. split; [lia|done].
Qed.

Lemma addInput_ok st ref vout seq prev st' vin : builder_ok st → addInput st ref vout seq prev = Ok (st', vin) →
  builder_ok st'.
Proof.
  intros Hok. unfold addInput. destruct (__canModifyInputs st) as [[]|] eqn:Em; [|done|done]. cbn [mbind result_bind negb].
  intros E.
  assert (∃ h value prev, __addInputUnsafe st h vout seq None [] value prev = Ok (st', vin)) as (h & value & prev' & E').
  { destruct ref as [id|tx|h]; [by eauto| |by eauto]. destruct (at_index (outs tx) vout); [|done].
    apply bind_ok in E as (hash & _ & E). by eauto. }
  clear E. destruct (addInputUnsafe_inv _ _ _ _ _ _ _ _ Hok E') as (i & x & Hi & Ex & Hn & _ & ->).
  destruct Hok as [Hl Hs Hp Ho]. split; cbn.
  - rewrite !length_app. cbn. lia.
  - intros v j Hj. apply inputs_snoc in Hj as [Hj|[_ ->]]; [|by apply no_signature_ok].
    intros ss n s Hss Hns Ht. destruct (Hs v j Hj ss n s Hss Hns Ht) as (Hc & b & -> & Hb).
    split; [done|]. exists b. split; [done|]. eapply commits_view; [exact Hb|]. intros ht Hht.
    apply view_add_input; [rewrite <- Hl; by eapply lookup_lt_Some|].
    exact (every_signature_spec _ _ j ss n (Some (CBuf b)) ht Em (list_elem_of_lookup_2 _ _ _ Hj) Hss Hns Ht Hht).
  - apply prevouts_insert; [done|]. by rewrite Ex.
  - done.
Qed.

Lemma addOutput_ok st out value st' n : builder_ok st → addOutput st out value = Ok (st', n) → builder_ok st'.
Proof.
  intros [Hl Hs Hp Ho]. unfold addOutput. destruct (__canModifyOutputs st) as [[]|] eqn:Em; [|done|done].
  cbn [mbind result_bind negb]. intros E. apply bind_ok in E as (spk & _ & E).
  unfold Transaction.addOutput in E. destruct (guard_js _ _); [|done]. cbn [mbind result_bind] in E. injection E as <- _.
  split; cbn; try done.
  - intros v j Hj ss k s Hss Hns Ht. destruct (Hs v j Hj ss k s Hss Hns Ht) as (Hc & b & -> & Hb).
    split; [done|]. exists b. split; [done|]. eapply commits_view; [exact Hb|]. intros ht Hht.
    apply view_add_output.
    pose proof (every_signature_spec _ _ j ss k (Some (CBuf b)) ht Em (list_elem_of_lookup_2 _ _ _ Hj) Hss Hns Ht Hht) as F. cbn beta zeta in F.
    change (js_and ht 31) with (baseType ht) in F. revert F. destruct (Z.eqb_spec (baseType ht) Transaction.SIGHASH_NONE); [by intros _; left|intros F; right].
    revert F. destruct (Z.eqb_spec (baseType ht) Transaction.SIGHASH_SINGLE); [|done]. intros F%Z.leb_le.
    split; [done|]. apply lookup_lt_Some in Hj. unfold len in F. lia.
  - apply Forall_app. split; [done|]. by apply Forall_singleton.
Qed.

Lemma prepared_signatures i e t s a b w st ss i' : prepared i e t s a b w st ss = Ok i' → in_signatures i' = ex_signatures e.
Proof. unfold prepared. intros E. apply bind_ok in E as (x & _ & E). by injection E as <-. Qed.

(** [prepareInput] leaves the input alone or gives it blank signatures. *)
Lemma prepareInput_fresh i pk r w i' : any_signature i = false → prepareInput i pk r w = Ok i' → any_signature i' = false.
Proof.
  assert (F : ∀ s t pk e i', expandOutput s t pk = Ok e → in_signatures i' = ex_signatures e → any_signature i' = false).
  { intros s t pk' e j He Hj. unfold any_signature. rewrite Hj.
    destruct (expandOutput_blank _ _ _ _ He) as [[_ ->]|(ks & _ & ->)]; [done|apply blank_none]. }
  intros Hi. unfold prepareInput. intros E.
  repeat (match type of E with
    | (_ ≫= _) = Ok _ => let x := fresh "x" in let Ex := fresh "Ex" in apply bind_ok in E as (x & Ex & E)
    | match ?m with _ => _ end = Ok _ => destruct m eqn:?; try discriminate E
    | prepared _ _ _ _ _ _ _ _ _ = Ok _ => apply prepared_signatures in E
    | Ok _ = Ok _ => injection E as <-
    end; try done); try (eapply F; [|exact E]; eassumption).
Qed.

(** The preparation keeps a complete input and blanks the others. *)
Lemma sign_prepare_spec tx vin i pk r v w i' o : signatures_ok tx vin i → sign_prepare i pk r v w = (i', o) →
  i' = i ∨ any_signature i' = false.
Proof.
  intros Hs. unfold sign_prepare. destruct (canSign i) eqn:Ec; [intros [= <- _]; by left|].
  assert (Hn : any_signature i = false).
  { destruct (any_signature i) eqn:Ha; [|done]. unfold any_signature in Ha. destruct (in_signatures i) as [ss|] eqn:Es; [|done].
    apply existsb_exists in Ha as (s & Hin & Ht). apply list_elem_of_In, list_elem_of_lookup in Hin as [n Hn].
    destruct (Hs ss n s Es Hn Ht) as [F _]. congruence. }
  assert (P : ∀ j j' o', any_signature j = false →
    (if canSign j then (j, Ok tt)
     else match prepareInput j pk r w with
          | Throw e => (j, Throw e)
          | Ok j => (j, if canSign j then Ok tt else Throw (Error " not supported"))
          end) = (j', o') → any_signature j' = false).
  { intros j j' o' Hj. destruct (canSign j); [by intros [= <- _]|].
    destruct (prepareInput j pk r w) as [j1|] eqn:Ep; intros [= <- _]; [by eapply prepareInput_fresh|done]. }
  destruct v as [v|]; [|intros E; right; apply (P i i' o Hn); by rewrite Ec].
  destruct (match in_value i with Some _ => _ | None => _ end); [intros [= <- _]; by left|].
  destruct (negb (Satoshi v)); [intros [= <- _]; by left|]. intros E. right. by refine (P (set_value (Some v) i) _ _ _ E).
Qed.

Lemma sign_slots_inv k pub hash ht alg t ss n ks ss' : sign_slots k pub hash ht alg t ss n ks = Ok ss' →
  ∃ m sig b, ks !! m = Some (Some (CBuf pub)) ∧ key_sign k hash alg = Ok sig ∧ script_signature sig ht alg = Ok b ∧
    slot_true (default None (ss !! (n + m)%nat)) = false ∧ ss' = <[(n + m)%nat := Some (CBuf b)]> ss.
Proof.
  revert n. induction ks as [|[[op|pk]|] ks IH]; intros n; cbn [sign_slots]; try done.
  unfold buf_equals. destruct (bool_decide_reflect (pub = pk)) as [<-|]; cbn [negb].
  - destruct (slot_true _) eqn:Et; [done|]. destruct (_ && _); [done|]. intros E.
    apply bind_ok in E as (sig & E1 & E). apply bind_ok in E as (b & E2 & E). injection E as <-.
    exists 0%nat, sig, b. by rewrite Nat.add_0_r.
  - intros E. destruct (IH _ E) as (m & sig & b & H1 & H2 & H3 & H4 & ->). exists (S m), sig, b.
    rewrite Nat.add_succ_r. by split_and!.
Qed.

Lemma hashType_fork h : truthy (js_and (sign_hashType h) Transaction.SIGHASH_BITCOINCASHBIP143) = true.
Proof.
  unfold sign_hashType, Transaction.SIGHASH_BITCOINCASHBIP143.
  rewrite js_or_spec. set (z := Z.lor _ _).
  assert (T : Z.testbit (to_int32 z) 6 = true).
  { rewrite to_int32_testbit by lia. change (Z.min 6 31) with 6. unfold z. rewrite Z.lor_spec. apply orb_true_r. }
  assert (truthy (to_int32 z) = true) as ->.
  { unfold truthy. destruct (Z.eqb_spec (to_int32 z) 0) as [E|]; [by rewrite E in T|done]. }
  unfold truthy. rewrite js_and_spec. destruct (Z.eqb_spec (to_int32 (Z.land (to_int32 z) 64)) 0) as [E|]; [|done].
  apply (f_equal (λ y, Z.testbit y 6)) in E. rewrite to_int32_testbit, Z.land_spec in E by lia.
  change (Z.min 6 31) with 6 in E. rewrite T in E. discriminate E.
Qed.

Lemma sign_prepare_can i pk r v w i' : sign_prepare i pk r v w = (i', Ok tt) → canSign i' = true.
Proof.
  unfold sign_prepare. destruct (canSign i) eqn:Ec; [by intros [= <-]|].
  assert (P : ∀ j j',
    (if canSign j then (j, Ok tt)
     else match prepareInput j pk r w with
          | Throw e => (j, Throw e)
          | Ok j => (j, if canSign j then Ok tt else Throw (Error " not supported"))
          end) = (j', Ok tt) → canSign j' = true).
  { intros j j'. destruct (canSign j) eqn:Ej; [by intros [= <-]|].
    destruct (prepareInput j pk r w) as [j1|]; [|done]. destruct (canSign j1) eqn:E1; [by intros [= <-]|done]. }
  destruct v as [v|]; [|intros E; apply (P i i'); by rewrite Ec].
  destruct (match in_value i with Some _ => _ | None => _ end); [done|].
  destruct (negb (Satoshi v)); [done|]. apply P.
Qed.

(** A new signature commits to the transaction, and the others stay. *)
Lemma sign_ready_ok tx vin i k pub ht v alg i' :
  signatures_ok tx (Z.to_nat vin) i → canSign i = true → 0 <= vin → key_public k = Ok pub →
  truthy (js_and ht Transaction.SIGHASH_BITCOINCASHBIP143) = true →
  sign_ready tx vin i k pub ht v alg = Ok i' → signatures_ok tx (Z.to_nat vin) i'.
Proof.
  intros Hs Hc Hv Hk Hh. unfold sign_ready.
  destruct (in_signScript i) as [sc|] eqn:E1; [|done]. destruct (in_pubKeys i) as [ks|] eqn:E2; [|done].
  destruct (in_signatures i) as [ss|] eqn:E3; [|done]. intros E.
  apply bind_ok in E as (hash & Eh & E). apply bind_ok in E as (ss' & Es & E). injection E as <-.
  destruct (sign_slots_inv _ _ _ _ _ _ _ _ _ _ Es) as (m & sig & b & H1 & H2 & H3 & _ & ->). cbn [Nat.add] in *.
  intros ss' n s [= <-] Hn Ht.
  assert (Hc' : canSign (set_signatures (Some (<[m:=Some (CBuf b)]> ss)) i) = true).
  { unfold canSign in *. cbn. rewrite E3 in Hc. unfold len in *. by rewrite length_insert. }
  split; [done|]. apply list_lookup_insert_Some in Hn as [(<- & <- & _)|[Hne Hn]].
  - exists b. split; [done|]. econstructor; eauto. by rewrite Z2Nat.id.
  - destruct (Hs ss n s E3 Hn Ht) as (_ & b' & -> & [k' pub' ks' sc' h' v' alg' hash' sig' F1 F2 F3 F4 F5 F6 F7 F8]).
    exists b'. split; [done|]. econstructor; eauto.
Qed.

Lemma replace_input_ok st vin i : builder_ok st → signatures_ok (tb_tx st) (Z.to_nat vin) i →
  builder_ok (replace_input st vin i).
Proof.
  intros [Hl Hs Hp Ho] Hi. split; cbn; try done; [by rewrite length_insert|].
  intros v j Hj. apply list_lookup_insert_Some in Hj as [(<- & <- & _)|[_ Hj]]; [done|by apply Hs].
Qed.

Lemma sign_ok st vin k r ht v w alg : builder_ok st → builder_ok (sign st vin k r ht v w alg).1.
Proof.
  intros Hok. unfold sign. destruct (at_index (inputs st) vin) as [i|] eqn:Ei; [|done].
  destruct (match in_redeemScript i with Some _ => _ | None => _ end); [done|].
  destruct (key_public k) as [pub|] eqn:Ek; [|done].
  apply at_index_some in Ei as [Hv Ei]. pose proof (ok_signatures _ Hok _ _ Ei) as Hs.
  destruct (sign_prepare i pub r v w) as [i1 o] eqn:Ep.
  assert (Hs1 : signatures_ok (tb_tx st) (Z.to_nat vin) i1).
  { destruct (sign_prepare_spec _ _ _ _ _ _ _ _ _ Hs Ep) as [->|]; [done|by apply no_signature_ok]. }
  pose proof (replace_input_ok st vin i1 Hok Hs1) as Hok1.
  destruct o as [[]|]; [|done]. apply sign_prepare_can in Ep.
  destruct (sign_ready _ _ _ _ _ _ _ _) as [i2|] eqn:Er; [|done].
  apply replace_input_ok; [done|]. eapply sign_ready_ok; eauto. apply hashType_fork.
Qed.

Lemma reachable_ok network rate st : reachable network rate st → builder_ok st.
Proof.
  induction 1 as [|st st' _ IH Hst]; [apply new_ok|]. destruct Hst.
  - by eapply setLockTime_ok.
  - by eapply addInput_ok.
  - by eapply addOutput_ok.
  - by apply sign_ok.
Qed.

(** ** Properties of the states of a builder *)

(** A signature [s] in slot [n] of input [vin]. *)
Definition holds (st : builder) (vin n : nat) (s : slot) : Prop :=
  slot_true s = true ∧ ∃ i ss, inputs st !! vin = Some i ∧ in_signatures i = Some ss ∧ ss !! n = Some s.


(** C10: no output is spent twice.  In every reachable state the inputs of the
    builder are those of its transaction, their previous outputs are distinct,
    and the map of previous outputs says where each one is spent. *)
Theorem no_double_spend network rate st : reachable network rate st →
  length (inputs st) = length (ins (tb_tx st)) ∧ NoDup (map outpoint (ins (tb_tx st))) ∧
  ∀ k v, prevTxMap st !! k = Some v ↔ ∃ x, at_index (ins (tb_tx st)) v = Some x ∧ outpoint x = k.
Proof.
  intros Hr. apply reachable_ok in Hr as [Hl _ Hp _]. split_and!; [done| |done].
  apply NoDup_alt. intros a b k Ha Hb. rewrite lookup_map in Ha, Hb.
  apply fmap_Some in Ha as (x & Hx & Ex). apply fmap_Some in Hb as (y & Hy & Ey).
  assert (prevTxMap st !! k = Some (Z.of_nat a)) as E1 by (apply Hp; exists x; by rewrite at_index_nat).
  assert (prevTxMap st !! k = Some (Z.of_nat b)) as E2 by (apply Hp; exists y; by rewrite at_index_nat).
  rewrite E1 in E2. injection E2. lia.
Qed.

Lemma holds_other st vin j n m s : n ≠ Z.to_nat vin → holds st n m s → holds (replace_input st vin j) n m s.
Proof.
  intros Hn (Ht & i & ss & Hi & Hss & Hm). split; [done|]. exists i, ss. cbn. by rewrite list_lookup_insert_ne.
Qed.

Lemma holds_here st vin j ss m s : (Z.to_nat vin < length (inputs st))%nat → in_signatures j = Some ss → ss !! m = Some s →
  slot_true s = true → holds (replace_input st vin j) (Z.to_nat vin) m s.
Proof. intros Hl Hss Hm Ht. split; [done|]. exists j, ss. cbn. by rewrite list_lookup_insert_eq. Qed.

Lemma sign_holds st vin k r ht v w alg n m s : builder_ok st → holds st n m s →
  holds (sign st vin k r ht v w alg).1 n m s.
Proof.
  intros Hok H0. unfold sign.
  destruct (at_index (inputs st) vin) as [j|] eqn:Ej; [|done].
  destruct (match in_redeemScript j with Some _ => _ | None => _ end); [done|].
  destruct (key_public k) as [pub|]; [|done]. apply at_index_some in Ej as [Hv Ej].
  destruct (decide (n = Z.to_nat vin)) as [->|Hn].
  - destruct H0 as (Ht & i & ss & Hi & Hss & Hm). rewrite Ej in Hi. injection Hi as <-.
    destruct (ok_signatures _ Hok _ _ Ej ss m s Hss Hm Ht) as [Hc _]. unfold sign_prepare. rewrite Hc.
    apply lookup_lt_Some in Ej.
    destruct (sign_ready _ _ _ _ _ _ _ _) as [i2|] eqn:Er; [|by eapply holds_here].
    unfold sign_ready in Er. rewrite Hss in Er. destruct (in_signScript j), (in_pubKeys j); try done.
    apply bind_ok in Er as (hash & _ & Er). apply bind_ok in Er as (ss' & Es & Er). injection Er as <-.
    destruct (sign_slots_inv _ _ _ _ _ _ _ _ _ _ Es) as (m' & sig & b & _ & _ & _ & Hf & ->). cbn [Nat.add] in *.
    eapply holds_here; [cbn; by rewrite length_insert|done| |done].
    rewrite list_lookup_insert_ne; [done|]. intros ->. rewrite Hm in Hf. cbn in Hf. congruence.
  - destruct (sign_prepare j pub r v w) as [j1 o]. pose proof (holds_other st vin j1 n m s Hn H0) as H1.
    destruct o; [|done]. destruct (sign_ready _ _ _ _ _ _ _ _); [|done]. by apply holds_other.
Qed.

(** Signatures stay.  No operation of the public interface, returning or
    throwing, removes or replaces a signature that the builder holds. *)
Theorem signatures_persist network rate st st' vin n s : reachable network rate st → step st st' →
  holds st vin n s → holds st' vin n s.
Proof.
  intros Hr Hst H0. apply reachable_ok in Hr. destruct Hst as [st l st' E|st ref vout seq prev st' v E|st out value st' k E|].
  - unfold setLockTime in E. destruct (guard_js _ _); [|done]. cbn [mbind result_bind] in E.
    destruct (existsb _ _); [done|]. by injection E as <-.
  - unfold addInput in E. destruct (__canModifyInputs st) as [[]|]; [|done|done]. cbn [mbind result_bind negb] in E.
    assert (∃ h value prev, __addInputUnsafe st h vout seq None [] value prev = Ok (st', v)) as (h & value & prev' & E').
    { destruct ref as [id|tx|h]; [by eauto| |by eauto]. destruct (at_index (outs tx) vout); [|done].
      apply bind_ok in E as (hash & _ & E). by eauto. }
    destruct (addInputUnsafe_inv _ _ _ _ _ _ _ _ Hr E') as (i & x & _ & _ & _ & _ & ->).
    destruct H0 as (Ht & j & ss & Hj & Hss & Hn). split; [done|]. exists j, ss. cbn. by rewrite (lookup_app_l_Some _ _ _ _ Hj).
  - unfold addOutput in E. destruct (__canModifyOutputs st) as [[]|]; [|done|done]. cbn [mbind result_bind negb] in E.
    apply bind_ok in E as (spk & _ & E). apply bind_ok in E as ([tx k'] & _ & E). by injection E as <- _.
  - by apply sign_holds.
Qed.

(** ** Building *)

Lemma modify_at_lookup {A} (f : A → A) xs (n : nat) ys : modify_at (Z.of_nat n) f xs = Ok ys → ys = alter f n xs.
Proof. unfold modify_at. destruct (_ && _); [|done]. rewrite Nat2Z.id. by intros [= <-]. Qed.

(** What [build] changes of a transaction: scripts and witnesses. *)
Record same_but_scripts (tx tx' : transaction) : Prop := {
  sb_version : version tx = version tx';
  sb_locktime : locktime tx = locktime tx';
  sb_outs : outs tx = outs tx';
  sb_outpoints : map outpoint (ins tx) = map outpoint (ins tx');
  sb_sequences : map in_sequence (ins tx) = map in_sequence (ins tx');
}.

#[global] Instance same_but_scripts_equiv : Equivalence same_but_scripts.
Proof.
  split.
  - by split.
  - intros ?? []. by split.
  - intros ??? [] []. split; congruence.
Qed.

Lemma same_view tx tx' v h : same_but_scripts tx tx' → view_of tx v h = view_of tx' v h.
Proof.
  intros [E1 E2 E3 E4 E5]. unfold view_of. rewrite E1, E2, E3, E4, E5. f_equal.
  unfold at_index. destruct (0 <=? v); [|done].
  assert (L : ∀ A (f : txin → A), map f (ins tx) = map f (ins tx') → f <$> ins tx !! Z.to_nat v = f <$> ins tx' !! Z.to_nat v)
    by (intros A f E; by rewrite <- !lookup_map, E).
  apply L in E4, E5.
  destruct (ins tx !! Z.to_nat v), (ins tx' !! Z.to_nat v); try discriminate; [|done]. cbn in *. congruence.
Qed.

(** Input [n] of the transaction is what [buildInput] makes of [i]. *)
Definition carries (inc : bool) (i : input) (x : option txin) : Prop :=
  ∃ r w x', buildInput i inc = Ok r ∧ stack_buffers (b_witness r) = Ok w ∧ x = Some x' ∧
    in_script x' = b_script r ∧ in_witness x' = w.

Lemma build_step_spec inc n i tx tx' : build_step inc n i tx = Ok tx' →
  same_but_scripts tx tx' ∧ carries inc i (ins tx' !! n) ∧ ∀ k, k ≠ n → ins tx' !! k = ins tx !! k.
Proof.
  unfold build_step. destruct (_ && negb inc); [done|]. intros E. apply bind_ok in E as (r & Er & E).
  destruct (_ && negb (bool_decide _)); [done|]. apply bind_ok in E as (tx1 & E1 & E). apply bind_ok in E as (w & Ew & E2).
  apply bind_ok in E1 as (l1 & M1 & E1). injection E1 as <-. apply bind_ok in E2 as (l2 & M2 & E2). injection E2 as <-.
  assert (is_Some (ins tx !! n)) as [x Hx].
  { unfold modify_at in M1. destruct (_ && _) eqn:B; [|done]. bool_facts. apply lookup_lt_is_Some_2. unfold len in *. lia. }
  apply modify_at_lookup in M1 as ->. cbn [ins] in M2. apply modify_at_lookup in M2 as ->. split_and!.
  - split; cbn; try done; rewrite !(alter_fmap_comm _ id) by done;
      rewrite (list_alter_id id (alter id n _)), (list_alter_id id) by done; done.
  - exists r, w, (Transaction.set_witness (Transaction.set_script (b_script r) x) w). split_and!; try done.
    cbn. by rewrite !list_lookup_alter_eq, Hx.
  - intros k Hk. cbn. by rewrite !list_lookup_alter_ne.
Qed.

Lemma build_steps_spec inc n l tx tx' : build_steps inc n l tx = Ok tx' →
  same_but_scripts tx tx' ∧ (∀ k i, l !! k = Some i → carries inc i (ins tx' !! (n + k)%nat)) ∧
  ∀ k, (k < n)%nat → ins tx' !! k = ins tx !! k.
Proof.
  revert n tx. induction l as [|i l IH]; intros n tx; cbn [build_steps].
  - intros [= <-]. by split_and!.
  - intros E. apply bind_ok in E as (tx1 & E1 & E). destruct (build_step_spec _ _ _ _ _ E1) as (S1 & C1 & K1).
    destruct (IH _ _ E) as (S2 & C2 & K2). split_and!; [by etransitivity| |].
    + intros [|k] j Hj; [injection Hj as <-|].
      * rewrite Nat.add_0_r, K2 by lia. done.
      * rewrite Nat.add_succ_r. by apply C2.
    + intros k Hk. rewrite K2, K1 by lia. done.
Qed.

Lemma clone_same tx : Forall (λ o, out_valueBuffer o = None) (outs tx) → same_but_scripts tx (Transaction.clone tx).
Proof.
  intros Ho. split; cbn; try done; [|by rewrite map_map..].
  induction Ho as [|[v vb s] os Hv _ IH]; [done|]. cbn in *. by rewrite Hv, <- IH.
Qed.


(** ** Signing an output to a public key hash *)

Context `{CS : !CreateHashSpec} `{B66S : !Bip66Spec}.

Definition p2pkh_script (pk : buffer) : buffer := [0x76; 0xa9; 0x14] ++ Crypto.hash160 pk ++ [0x88; 0xac].

Lemma p2pkh_facts pk :
  P2PKHOutput.encode (Crypto.hash160 pk) = Ok (p2pkh_script pk) ∧
  Classify.classifyOutput (SBuf (p2pkh_script pk)) = Ok P2PKH ∧
  Script.decompile (SBuf (p2pkh_script pk)) =
    Ok [COp OP_DUP; COp OP_HASH160; CBuf (Crypto.hash160 pk); COp OP_EQUALVERIFY; COp OP_CHECKSIG].
Proof.
  destruct (Crypto.hash160_ok pk) as [L _]. unfold p2pkh_script. set (h := Crypto.hash160 pk) in *. clearbody h.
  split_and!; [by apply p2pkh_encode_bytes|by apply (classify_hash _ h)|]. split_bytes h L. reflexivity.
Qed.

(** The input before it is signed, when its previous output is given or not. *)
Definition p2pkh_fresh (pk : buffer) (i : input) : Prop :=
  i = empty_input ∨
  i = mkInput (Some []) (Some []) (Some (p2pkh_script pk)) (Some P2PKH) None None None None None None None None.

Definition p2pkh_signed (pk : buffer) (ss : list slot) (value : Z) : input :=
  mkInput (Some [Some (CBuf pk)]) (Some ss) (Some (p2pkh_script pk)) (Some P2PKH) (Some P2PKH)
    (Some (p2pkh_script pk)) (Some false) None None None None (Some value).

Lemma expand_p2pkh pk t : t = None ∨ t = Some P2PKH →
  expandOutput (p2pkh_script pk) t (Some pk) = Ok (mkExpansion (Some [Some (CBuf pk)]) P2PKH (Some [None])) ∧
  expandOutput (p2pkh_script pk) t None = Ok (mkExpansion (Some []) P2PKH (Some [])).
Proof.
  intros Ht. destruct (p2pkh_facts pk) as (_ & Ec & Ed). unfold expandOutput. rewrite Ed. cbn [mbind result_bind].
  replace (match t with Some t => Ok t | None => _ end) with (@Ok scriptType P2PKH) by (by destruct Ht as [->| ->]).
  cbn [mbind result_bind].
  split; [|done]. change (nth_chunk _ 2) with (Some (CBuf (Crypto.hash160 pk))). cbn [slot_equals mbind result_bind].
  unfold buf_equals. by rewrite bool_decide_true.
Qed.

Lemma p2pkh_prepare pk i value : p2pkh_fresh pk i → Satoshi value = true →
  sign_prepare i pk None (Some value) None = (p2pkh_signed pk [None] value, Ok tt).
Proof.
  intros Hi Hv. destruct (p2pkh_facts pk) as (Ee & _ & _). destruct (expand_p2pkh pk (Some P2PKH) ltac:(by right)) as [Ex _].
  unfold sign_prepare. destruct Hi as [->| ->]; cbn [canSign in_prevOutScript in_signScript in_pubKeys in_signatures
    empty_input set_value in_value]; rewrite Hv; cbn [negb];
    unfold prepareInput; cbn [in_prevOutType in_prevOutScript].
  - rewrite Ee. cbn [mbind result_bind]. rewrite Ex. reflexivity.
  - cbn [set_value in_prevOutType in_prevOutScript]. rewrite bool_decide_false by (intros []; discriminate).
    rewrite Ex. reflexivity.
Qed.

Lemma p2pkh_added st h vout seq prev pk st1 vin : builder_ok st → prev = None ∨ prev = Some (p2pkh_script pk) →
  addInput st (RefHash h) vout seq prev = Ok (st1, vin) →
  0 <= vin ∧ ∃ i, inputs st1 !! Z.to_nat vin = Some i ∧ p2pkh_fresh pk i.
Proof.
  intros Hok Hp. unfold addInput. destruct (__canModifyInputs st) as [[]|]; [|done|done]. cbn [mbind result_bind negb].
  unfold __addInputUnsafe. destruct (Transaction.isCoinbaseHash h) as [[]|]; [done| |done]. cbn [mbind result_bind].
  destruct (prevTxMap st !! (h, vout)); [done|].
  assert (∃ i, derive_prevout empty_input prev = Ok i ∧ p2pkh_fresh pk i) as (i & -> & Hi).
  { destruct Hp as [->| ->]; [by exists empty_input; split; [|left]|].
    cbn [derive_prevout in_prevOutScript in_pubKeys in_signatures empty_input].
    destruct (expand_p2pkh pk None ltac:(by left)) as [_ ->]. eexists. split; [reflexivity|by right]. }
  cbn [mbind result_bind]. unfold Transaction.addInput. destruct (guard_js _ _); [|done]. cbn [mbind result_bind].
  intros [= <- <-]. split; [apply len_nonneg|]. exists i. split; [|done]. cbn.
  rewrite len_to_nat, take_ge by (rewrite (ok_len _ Hok); lia). rewrite <- (ok_len _ Hok).
  rewrite lookup_app_r, Nat.sub_diag by lia. done.
Qed.

(** [sign] with the key and the amount of an input that is fresh. *)
Lemma p2pkh_sign_eq st (n : nat) i k pk ht value alg hash sig b :
  inputs st !! n = Some i → p2pkh_fresh pk i → key_public k = Ok pk → Satoshi value = true →
  hashForCashSignature (tb_tx st) (Z.of_nat n) (p2pkh_script pk) (Some value) (sign_hashType ht) = Ok hash →
  key_sign k hash alg = Ok sig → script_signature sig (sign_hashType ht) alg = Ok b →
  sign st (Z.of_nat n) k None ht (Some value) None alg =
    (replace_input st (Z.of_nat n) (p2pkh_signed pk [Some (CBuf b)] value), Ok tt).
Proof.
  intros Hi Hf Hk Hv Hh Hs Hb. pose proof (p2pkh_prepare _ _ _ Hf Hv) as Pr. unfold sign. rewrite at_index_nat, Hi.
  replace (match in_redeemScript i with Some _ => _ | None => _ end) with false by (by destruct Hf as [->| ->]).
  rewrite Hk, Pr. unfold sign_ready. cbn [in_signScript in_pubKeys in_signatures p2pkh_signed tb_tx replace_input set_inputs].
  rewrite Hh. cbn [mbind result_bind sign_slots]. unfold buf_equals. rewrite bool_decide_true by done. cbn [negb].
  change (slot_true (default None ([None] !! 0%nat))) with false. cbv iota.
  rewrite (bool_decide_false (_ = Some P2WPKH)), andb_false_r by done. rewrite Hs.
  cbn [mbind result_bind]. rewrite Hb. cbn [mbind result_bind]. f_equal. unfold replace_input, set_inputs. cbn [inputs].
  by rewrite list_insert_insert_eq.
Qed.

(** [buildInput] of an input that has been signed. *)
Lemma p2pkh_build_eq pk b value : Script.isCanonicalSignature (CBuf b) = true → Script.isCanonicalPubKey (CBuf pk) = true →
  ∃ script, Script.compile (SArr [CBuf b; CBuf pk]) = Ok script ∧
    buildInput (p2pkh_signed pk [Some (CBuf b)] value) false = Ok (mkBuilt (Some P2PKH) script []).
Proof.
  intros Cs Cp. unfold buildInput.
  cbn [p2pkh_signed in_prevOutType in_signatures in_pubKeys in_redeemScriptType].
  change (supportedType (Some P2PKH)) with true. cbv iota. unfold buildStack, P2PKHInput.encodeStack. rewrite Cs, Cp.
  cbn [andb guard_js mbind result_bind]. rewrite bool_decide_false by done. cbn [mbind result_bind].
  destruct (Script.compile (SArr [CBuf b; CBuf pk])) as [script|] eqn:E; [by exists script|].
  rewrite Script.compile_writable in E; [done|]. cbn [forallb Script.writable].
  rewrite !(proj2 (Z.ltb_lt _ _)); [done|..].
  + apply canonical_pubkey_len in Cp as (? & [= <-] & Hl). lia.
  + apply canonical_signature_len in Cs. lia.
Qed.

(** The common case works.  An input that spends an output to the hash of a
    public key, whether that output was given to [addInput] or not, is signed by
    a call of [sign] with the key and the amount: when the hash can be computed
    and the key signs it, [sign] returns, the signature is in the builder, and
    [build] gives the input the script of the signature and the public key. *)
Theorem p2pkh_sign_and_build network rate st h vout seq prev pk st1 vin k ht value alg hash sig b :
  reachable network rate st → prev = None ∨ prev = Some (p2pkh_script pk) →
  addInput st (RefHash h) vout seq prev = Ok (st1, vin) → key_public k = Ok pk → Satoshi value = true →
  hashForCashSignature (tb_tx st1) vin (p2pkh_script pk) (Some value) (sign_hashType ht) = Ok hash →
  key_sign k hash alg = Ok sig → script_signature sig (sign_hashType ht) alg = Ok b →
  ∃ st2 i, sign st1 vin k None ht (Some value) None alg = (st2, Ok tt) ∧ inputs st2 !! Z.to_nat vin = Some i ∧
    holds st2 (Z.to_nat vin) 0 (Some (CBuf b)) ∧
    (Script.isCanonicalSignature (CBuf b) = true → Script.isCanonicalPubKey (CBuf pk) = true →
     ∃ script, Script.compile (SArr [CBuf b; CBuf pk]) = Ok script ∧ buildInput i false = Ok (mkBuilt (Some P2PKH) script [])).
Proof.
  intros Hr Hp Ea Hk Hv Hh Hs Hb. apply reachable_ok in Hr.
  destruct (p2pkh_added _ _ _ _ _ _ _ _ Hr Hp Ea) as (Hvin & i & Hi & Hf). pose proof (lookup_lt_Some _ _ _ Hi) as Hlt.
  assert (Ev : vin = Z.of_nat (Z.to_nat vin)) by lia. rewrite Ev in Hh.
  pose proof (p2pkh_sign_eq _ _ _ _ _ _ _ _ _ _ _ Hi Hf Hk Hv Hh Hs Hb) as Es. rewrite <- Ev in Es.
  eexists _, (p2pkh_signed pk [Some (CBuf b)] value). split; [exact Es|].
  assert (Hi2 : inputs (replace_input st1 vin (p2pkh_signed pk [Some (CBuf b)] value)) !! Z.to_nat vin
    = Some (p2pkh_signed pk [Some (CBuf b)] value)) by (cbn; by rewrite list_lookup_insert_eq).
  split_and!; [done| |by apply p2pkh_build_eq].
  split; [done|]. eexists _, _. split; [exact Hi2|]. done.
Qed.

End S.

(** ** A transaction with one input and one output *)

Section Examples.
Import Concrete ConcreteCurve ConcreteText.
Local Existing Instance zero_mem.

Local Definition pk : buffer := 2 :: repeat 9 32.
Local Definition a_key : key := mkKey (Ok pk) (λ _ _, Ok (KeySignature (mkSig (bi_valueOf 3) (bi_valueOf 5)))).
Local Definition st0 : builder := new None None.
Local Definition after (r : result (builder * Z)) : builder := match r with Ok (st, _) => st | Throw _ => st0 end.
Local Definition st1 : builder := after (addOutput st0 (OutScript [0x6a]) 1000).
Local Definition st2 : builder := after (addInput st1 (RefHash (repeat 7 32)) 0 None None).
Local Definition st3 : builder := (sign st2 0 a_key None (Some 1) (Some 5000) None None).1.
Local Definition a_hash : buffer :=
  match hashForCashSignature (tb_tx st2) 0 (p2pkh_script pk) (Some 5000) 0x41 with Ok h => h | Throw _ => [] end.
Local Definition a_signature : buffer :=
  match script_signature (KeySignature (mkSig (bi_valueOf 3) (bi_valueOf 5))) 0x41 None with Ok b => b | Throw _ => [] end.
Local Definition a_tx : transaction := match __build st3 false with Ok tx => tx | Throw _ => Transaction.new end.

Local Lemma step1 : addOutput st0 (OutScript [0x6a]) 1000 = Ok (st1, 0).
Proof. vm_compute. reflexivity. Qed.
Local Lemma step2 : addInput st1 (RefHash (repeat 7 32)) 0 None None = Ok (st2, 0).
Proof. vm_compute. reflexivity. Qed.
Local Lemma a_hash_ok : hashForCashSignature (tb_tx st2) 0 (p2pkh_script pk) (Some 5000) 0x41 = Ok a_hash.
Proof. vm_compute. reflexivity. Qed.
Local Lemma a_signature_ok : script_signature (KeySignature (mkSig (bi_valueOf 3) (bi_valueOf 5))) 0x41 None = Ok a_signature.
Proof. vm_compute. reflexivity. Qed.
Local Lemma build_ok : __build st3 false = Ok a_tx.
Proof. vm_compute. reflexivity. Qed.
Local Lemma holds3 : holds st3 0 0 (Some (CBuf a_signature)).
Proof. split; [reflexivity|]. eexists _, _. split_and!; vm_compute; reflexivity. Qed.

Local Lemma reach1 : reachable None None st1.
Proof. eapply reachable_step; [apply reachable_new|]. eapply step_output, step1. Qed.
Local Lemma reach2 : reachable None None st2.
Proof. eapply reachable_step; [apply reach1|]. eapply step_input, step2. Qed.
Local Lemma reach3 : reachable None None st3.
Proof. eapply reachable_step; [apply reach2|]. apply step_sign. Qed.


Lemma no_double_spend_witness : NoDup (map outpoint (ins (tb_tx st2))).
Proof. exact (proj1 (proj2 (no_double_spend None None st2 reach2))). Defined.

Lemma signatures_persist_witness :
  holds (sign st3 0 a_key None (Some 1) (Some 5000) None None).1 0 0 (Some (CBuf a_signature)).
Proof. exact (signatures_persist None None st3 _ 0 0 _ reach3 (step_sign _ _ _ _ _ _ _ _) holds3). Defined.


Lemma p2pkh_sign_and_build_witness : ∃ st, sign st2 0 a_key None (Some 1) (Some 5000) None None = (st, Ok tt).
Proof.
  destruct (p2pkh_sign_and_build None None st1 (repeat 7 32) 0 None None pk st2 0 a_key (Some 1) 5000 None a_hash
    (KeySignature (mkSig (bi_valueOf 3) (bi_valueOf 5))) a_signature) as (st & i & E & _).
  - exact reach1.
  - left. reflexivity.
  - exact step2.
  - reflexivity.
  - reflexivity.
  - exact a_hash_ok.
  - reflexivity.
  - exact a_signature_ok.
  - exists st. exact E.
Defined.

End Examples.
End TransactionBuilderLaws.
