(* ===== verification/HDNode.v ===== *)
(** * Hierarchical deterministic keys

    [ecashjs-lib/src/hdnode.js]: the nodes of BIP 32, their text form, and child
    derivation.  [derive] calls itself on the next index when an index gives no
    key; the fuel bounds the number of those calls, and [derive_terminates] says
    how much is enough.  The theorems are the round trip of the text form, the
    invariant of nodes, and that public derivation agrees with private
    derivation. *)

From stdpp Require Import base tactics list gmap numbers strings.
From Stdlib Require Import Ascii.
From S2P Require Import Prelude JsNumber NodeBuffer Externals Encodings Crypto Asm Curve ECSignature Ecdsa Address ECPair.
Import Types Networks.
Open Scope Z_scope.

Record hdnode `{!Bigi} `{!Ecurve} := mkNode {
  hd_keyPair : ecpair;
  hd_chainCode : buffer;
  hd_depth : Z;
  hd_index : Z;
  hd_parentFingerprint : Z;
}.
Arguments mkNode {_ _} _ _ _ _ _.

(** ** Derivation paths: [types.BIP32Path] and the text [derivePath] cuts *)
Module Path.

(** [s.split('/')] *)
Fixpoint split (s : string) : list string :=
  match s with
  | EmptyString => [EmptyString]
  | String c s =>
      if bool_decide (c = "/"%char) then EmptyString :: split s
      else
        match split s with
        | w :: ws => String c w :: ws
        | [] => [String c EmptyString]
        end
  end.

Definition isDigit (c : ascii) : bool :=
  let n := N_of_ascii c in (48 <=? n)%N && (n <=? 57)%N.

(** [parseInt(s, 10)] of a string of digits *)
Definition parseInt (s : string) : Z :=
  foldl (λ v c, 10 * v + (Z.of_N (N_of_ascii c) - 48)) 0 (String.list_ascii_of_string s).

(** [indexStr.slice(0, -1)] and whether [indexStr.slice(-1)] is a quote; without
    one, the whole text. *)
Fixpoint quote (s : string) : string * bool :=
  match s with
  | EmptyString => (EmptyString, false)
  | String c EmptyString => if bool_decide (c = "'"%char) then (EmptyString, true) else (s, false)
  | String c s' => let '(w, q) := quote s' in (String c w, q)
  end.

(** [\d+'?] *)
Definition segment (s : string) : bool :=
  let cs := String.list_ascii_of_string (quote s).1 in
  negb (length cs =? 0)%nat && forallb isDigit cs.

(** [/^(m\/)?(\d+'?\/)*\d+'?$/], cut at the slashes *)
Definition BIP32Path (s : string) : bool :=
  let ws := split s in
  let ws := match ws with w :: rest => if bool_decide (w = "m"%string) then rest else ws | [] => ws end in
  negb (length ws =? 0)%nat && forallb segment ws.

End Path.

Module HDNode.

Definition HIGHEST_BIT : Z := 0x80000000.
Definition LENGTH : Z := 78.
(** The bytes of [Bitcoin seed]. *)
Definition MASTER_SECRET : buffer := [0x42; 0x69; 0x74; 0x63; 0x6f; 0x69; 0x6e; 0x20; 0x73; 0x65; 0x65; 0x64].

Section S.
Context {Mem : UninitMem} `{TF : !Typeforce} `{BI : !Bigi} `{EC : !Ecurve} `{HM : !CreateHmac} `{CH : !CreateHash}
  `{B58 : !Bs58check}.

Definition new (keyPair : ecpair) (chainCode : buffer) : result hdnode :=
  if negb (kp_compressed keyPair) then Throw (TypeError "BIP32 only allows compressed keyPairs")
  else Ok (mkNode keyPair chainCode 0 0 0x00000000).

Definition fromSeedBuffer (seed : buffer) (network : option network) : result hdnode :=
  _ ← guard_js (match network with Some n => ECPair.Network n | None => true end) TypeforceError;
  if blen seed <? 16 then Throw (TypeError "Seed should be at least 128 bits")
  else if blen seed >? 64 then Throw (TypeError "Seed should be at most 512 bits")
  else
    let I := hm_sha512 MASTER_SECRET seed in
    let IL := slice I 0 32 in
    let IR := slice_from I 32 in
    let pIL := bi_fromBuffer IL in
    keyPair ← ECPair.new (Some pIL) None None network;
    new keyPair IR.

Definition fromSeedHex (hex : string) (network : option network) : result hdnode := fromSeedBuffer (Hex.fromHex hex) network.

Definition fromBase58 (string : string) (networks : networks_arg) : result hdnode :=
  b ← bs58_decode string;
  if negb (blen b =? 78) then Throw (Error "Invalid buffer length") else
  version ← readUInt32BE b 0;
  let known n := (version =? bip32_private (bip32 n)) || (version =? bip32_public (bip32 n)) in
  network ← match networks with
    | NetworkList l =>
        match ECPair.select known l with
        | Some n => Ok n
        | None => Throw (Error "Unknown network version")
        end
    | NetworkOne n => Ok (default bitcoin n)
    end;
  if negb (version =? bip32_private (bip32 network)) && negb (version =? bip32_public (bip32 network))
  then Throw (Error "Invalid network version") else
  let depth := bits_of (get b 4) in
  parentFingerprint ← readUInt32BE b 5;
  if (depth =? 0) && negb (parentFingerprint =? 0x00000000) then Throw (Error "Invalid parent fingerprint") else
  index ← readUInt32BE b 9;
  if (depth =? 0) && negb (index =? 0) then Throw (Error "Invalid index") else
  let chainCode := slice b 13 45 in
  keyPair ←
    (if version =? bip32_private (bip32 network) then
       marker ← readUInt8 b 45;
       if negb (marker =? 0x00) then Throw (Error "Invalid private key")
       else ECPair.new (Some (bi_fromBuffer (slice b 46 78))) None None (Some network)
     else
       Q ← pt_decodeFrom (slice b 45 78);
       _ ← ec_validate Q;
       ECPair.new None (Some Q) None (Some network));
  hd ← new keyPair chainCode;
  Ok (mkNode (hd_keyPair hd) (hd_chainCode hd) depth index parentFingerprint).

Definition getAddress (self : hdnode) : result string := ECPair.getAddress (hd_keyPair self).
Definition getPublicKeyBuffer (self : hdnode) : result buffer := ECPair.getPublicKeyBuffer (hd_keyPair self).
Definition getIdentifier (self : hdnode) : result buffer :=
  pk ← ECPair.getPublicKeyBuffer (hd_keyPair self); Ok (Crypto.hash160 pk).
Definition getFingerprint (self : hdnode) : result buffer :=
  id ← getIdentifier self; Ok (slice id 0 4).
Definition getNetwork (self : hdnode) : network := ECPair.getNetwork (hd_keyPair self).

Definition neutered (self : hdnode) : result hdnode :=
  keyPair ← ECPair.new None (ECPair.Q (hd_keyPair self)).2 None (Some (kp_network (hd_keyPair self)));
  hd ← new keyPair (hd_chainCode self);
  Ok (mkNode (hd_keyPair hd) (hd_chainCode hd) (hd_depth self) (hd_index self) (hd_parentFingerprint self)).

Definition sign (fuel : nat) (self : hdnode) (hash : buffer) : result (option ecsig) :=
  ECPair.sign fuel (hd_keyPair self) hash None.
Definition verify (self : hdnode) (hash : buffer) (signature : ecsig) : result bool :=
  ECPair.verify (hd_keyPair self) hash signature.

Definition isNeutered (self : hdnode) : bool :=
  match kp_d (hd_keyPair self) with Some _ => false | None => true end.

Definition toBase58 (self : hdnode) : result string :=
  let network := kp_network (hd_keyPair self) in
  let version := if negb (isNeutered self) then bip32_private (bip32 network) else bip32_public (bip32 network) in
  let b := allocUnsafe 78 in
  b ← writeUInt32BE b version 0;
  b ← writeUInt8 b (hd_depth self) 4;
  b ← writeUInt32BE b (hd_parentFingerprint self) 5;
  b ← writeUInt32BE b (hd_index self) 9;
  '(b, _) ← copy (hd_chainCode self) b 13;
  match kp_d (hd_keyPair self) with
  | Some d =>
      b ← writeUInt8 b 0 45;
      '(b, _) ← copy (bi_toBuffer d 32) b 46;
      Ok (bs58_encode b)
  | None =>
      pk ← ECPair.getPublicKeyBuffer (hd_keyPair self);
      '(b, _) ← copy pk b 45;
      Ok (bs58_encode b)
  end.

(** The bytes [derive] authenticates. *)
Definition derive_data (self : hdnode) (index : Z) : result buffer :=
  let data := allocUnsafe 37 in
  if index >=? HIGHEST_BIT then
    match kp_d (hd_keyPair self) with
    | None => Throw (TypeError "Could not derive hardened child key")
    | Some d =>
        let data := splice data 0 [0x00] in
        '(data, _) ← copy (bi_toBuffer d 32) data 1;
        writeUInt32BE data index 33
    end
  else
    pk ← ECPair.getPublicKeyBuffer (hd_keyPair self);
    '(data, _) ← copy pk data 0;
    writeUInt32BE data index 33.

(** The last lines of [derive]. *)
Definition derive_child (self : hdnode) (index : Z) (IR : buffer) (derivedKeyPair : ecpair) : result hdnode :=
  hd ← new derivedKeyPair IR;
  fp ← getFingerprint self;
  parentFingerprint ← readUInt32BE fp 0;
  Ok (mkNode (hd_keyPair hd) (hd_chainCode hd) (hd_depth self + 1) index parentFingerprint).

Fixpoint derive (fuel : nat) (self : hdnode) (index : Z) : result hdnode :=
  match fuel with
  | O => Throw OutOfFuel
  | S fuel =>
      _ ← guard_js (tf_UInt32 index) TypeforceError;
      data ← derive_data self index;
      let I := hm_sha512 (hd_chainCode self) data in
      let IL := slice I 0 32 in
      let IR := slice_from I 32 in
      let pIL := bi_fromBuffer IL in
      if bi_compareTo pIL ec_n >=? 0 then derive fuel self (index + 1)
      else
        match kp_d (hd_keyPair self) with
        | Some d =>
            let ki := bi_mod (bi_add pIL d) ec_n in
            if bi_signum ki =? 0 then derive fuel self (index + 1)
            else
              keyPair ← ECPair.new (Some ki) None None (Some (kp_network (hd_keyPair self)));
              derive_child self index IR keyPair
        | None =>
            match (ECPair.Q (hd_keyPair self)).2 with
            | None => Throw (TypeError "Cannot read properties of undefined")
            | Some Q =>
                let Ki := pt_add (pt_multiply ec_G pIL) Q in
                if ec_isInfinity Ki then derive fuel self (index + 1)
                else
                  keyPair ← ECPair.new None (Some Ki) None (Some (kp_network (hd_keyPair self)));
                  derive_child self index IR keyPair
            end
        end
  end.

Definition deriveHardened (fuel : nat) (self : hdnode) (index : Z) : result hdnode :=
  _ ← guard_js (UInt31 index) TypeforceError;
  derive fuel self (index + HIGHEST_BIT).

(** One step of the [reduce] of [derivePath]. *)
Definition derive_step (fuel : nat) (prevHd : hdnode) (indexStr : string) : result hdnode :=
  let '(digits, hardened) := Path.quote indexStr in
  let index := Path.parseInt digits in
  if (hardened : bool) then deriveHardened fuel prevHd index else derive fuel prevHd index.

Fixpoint derive_steps (fuel : nat) (hd : hdnode) (path : list string) : result hdnode :=
  match path with
  | [] => Ok hd
  | w :: ws => hd ← derive_step fuel hd w; derive_steps fuel hd ws
  end.

Definition derivePath (fuel : nat) (self : hdnode) (path : string) : result hdnode :=
  _ ← guard_js (Path.BIP32Path path) TypeforceError;
  let splitPath := Path.split path in
  match splitPath with
  | w :: rest =>
      if bool_decide (w = "m"%string) then
        if truthy (hd_parentFingerprint self) then Throw (Error "Not a master node")
        else derive_steps fuel self rest
      else derive_steps fuel self splitPath
  | [] => derive_steps fuel self splitPath
  end.

(** ** Laws *)
Context `{TS : !TypeforceSpec} `{BS : !BigiSpec} `{ES : !EcurveSpec} `{HS : !CreateHmacSpec} `{CS : !CreateHashSpec}
  `{B58S : !Bs58checkSpec}.
Local Abbreviation n := (bi_Z ec_n).

(** The invariant of nodes. *)
Record node_ok (self : hdnode) : Prop := {
  no_pair : ECPair.pair_ok (hd_keyPair self);
  no_compressed : kp_compressed (hd_keyPair self) = true;
  no_chain : blen (hd_chainCode self) = 32;
  no_bytes : bytes_ok (hd_chainCode self);
  no_depth : 0 <= hd_depth self;
  no_index : 0 <= hd_index self < 2 ^ 32;
  no_parent : 0 <= hd_parentFingerprint self < 2 ^ 32;
}.

(** Nodes with the same keys and the same place in the tree. *)
Definition node_eq (a b : hdnode) : Prop :=
  ECPair.pair_eq (hd_keyPair a) (hd_keyPair b) ∧ hd_chainCode a = hd_chainCode b ∧
  hd_depth a = hd_depth b ∧ hd_index a = hd_index b ∧ hd_parentFingerprint a = hd_parentFingerprint b.

#[global] Instance node_eq_equiv : Equivalence node_eq.
Proof.
  split; unfold node_eq.
  - done.
  - intros ?? (-> & -> & -> & -> & ->). done.
  - intros ??? (-> & -> & -> & -> & ->) (-> & -> & -> & -> & ->). done.
Qed.

(** The public half of a node. *)
Definition public (self : hdnode) : hdnode :=
  mkNode (mkPair None (ECPair.Q (hd_keyPair self)).2 true (kp_network (hd_keyPair self)))
    (hd_chainCode self) (hd_depth self) (hd_index self) (hd_parentFingerprint self).

Lemma neutered_public self : node_ok self → neutered self = Ok (public self) ∧ node_ok (public self).
Proof.
  intros Hok. pose proof (no_pair _ Hok) as Hp. destruct (ECPair.Q_ok _ Hp) as (P & HQ & _ & Hz & _).
  unfold neutered, public. rewrite HQ, ECPair.new_public by apply Hp. split; [done|].
  destruct Hok. split; cbn; try done. split; [apply Hp|done].
Qed.

Lemma public_key_bytes self : ECPair.pair_ok self → ∃ P, (ECPair.Q self).2 = Some P ∧
  ECPair.getPublicKeyBuffer self = Ok (pt_getEncoded P (kp_compressed self)) ∧
  blen (pt_getEncoded P (kp_compressed self)) = (if kp_compressed self then 33 else 65) ∧
  bytes_ok (pt_getEncoded P (kp_compressed self)).
Proof.
  intros Hp. destruct (ECPair.Q_ok _ Hp) as (P & HQ & _ & Hz & _). exists P.
  unfold ECPair.getPublicKeyBuffer. rewrite HQ. split_and!; try done; by apply getEncoded_len.
Qed.

Lemma same_public_key a b : ECPair.pair_ok a → ECPair.pair_ok b → ECPair.pub_dl a = ECPair.pub_dl b →
  kp_compressed a = kp_compressed b → ECPair.getPublicKeyBuffer a = ECPair.getPublicKeyBuffer b.
Proof.
  intros Ha Hb E C. destruct (ECPair.Q_ok _ Ha) as (P & HP & EP & _). destruct (ECPair.Q_ok _ Hb) as (P' & HP' & EP' & _).
  unfold ECPair.getPublicKeyBuffer. rewrite HP, HP', C. f_equal. apply getEncoded_eq. congruence.
Qed.

Lemma fingerprint_ok self : node_ok self →
  ∃ fp v, getFingerprint self = Ok fp ∧ readUInt32BE fp 0 = Ok v ∧ 0 <= v < 2 ^ 32.
Proof.
  intros Hok. destruct (public_key_bytes _ (no_pair _ Hok)) as (P & _ & E & _).
  unfold getFingerprint, getIdentifier. rewrite E. cbn [mbind result_bind].
  set (h := Crypto.hash160 _). destruct (Crypto.hash160_ok (pt_getEncoded P (kp_compressed (hd_keyPair self)))) as [L Ho].
  fold h in L, Ho. clearbody h. set (fp := slice h 0 4).
  assert (Lf : length fp = 4%nat).
  { unfold fp. rewrite slice_in by (unfold blen in L; lia). rewrite length_take, drop_0. unfold blen in L. change (Z.to_nat (4 - 0)) with 4%nat. lia. }
  exists fp, (be_val fp). split; [done|]. split.
  - unfold readUInt32BE, in_range. unfold blen. rewrite Lf. rewrite drop_0, take_ge by (rewrite Lf; lia). done.
  - pose proof (be_val_bound fp (bytes_ok_slice _ _ _ Ho)) as B. unfold blen in B. by rewrite Lf in B.
Qed.

(** What is authenticated for an index in range. *)
Lemma derive_data_returns self index : node_ok self → 0 <= index < 2 ^ 32 →
  (∃ d, derive_data self index = Ok d) ∨
  (HIGHEST_BIT <= index ∧ kp_d (hd_keyPair self) = None ∧
   derive_data self index = Throw (TypeError "Could not derive hardened child key")).
Proof.
  intros Hok Hi. pose proof (blen_allocUnsafe 37) as L. unfold derive_data. rewrite Z.geb_leb.
  destruct (Z.leb_spec HIGHEST_BIT index).
  - destruct (kp_d (hd_keyPair self)) as [d|] eqn:Ed; [left|by right].
    pose proof (no_pair _ Hok) as [_ Hd]. rewrite Ed in Hd. pose proof ec_n_256.
    rewrite bi_toBuffer_spec by (destruct (kp_Q _); lia). change (Z.to_nat 32) with 32%nat.
    set (x := be_bytes 32 (bi_Z d)). assert (Lx : blen x = 32) by apply blen_be_bytes.
    assert (splice (allocUnsafe 37) 0 [0] = [0] ++ drop 1 (allocUnsafe 37)) as -> by apply (splice_app [] _ [0]).
    rewrite copy_at; [|done|]. cbn [mbind result_bind].
    + rewrite writeUInt32BE_at; [by eexists|rewrite blen_app, Lx; done|lia|].
      unfold blen in *. rewrite !length_drop. lia.
    + rewrite Lx. unfold blen in *. rewrite length_drop. cbn. lia.
  - left. destruct (public_key_bytes _ (no_pair _ Hok)) as (P & _ & -> & Lp & _). rewrite (no_compressed _ Hok) in *.
    cbn [mbind result_bind]. set (x := pt_getEncoded P true) in *.
    pose proof (copy_at x [] (allocUnsafe 37) 0) as C. cbn [app] in C. rewrite C; [|done|rewrite L; lia].
    cbn [mbind result_bind]. rewrite writeUInt32BE_at; [by eexists|done|lia|].
    unfold blen in *. rewrite length_drop. lia.
Qed.

Lemma derive_child_ok self index IR kp : node_ok self → 0 <= index < 2 ^ 32 → ECPair.pair_ok kp →
  kp_compressed kp = true → blen IR = 32 → bytes_ok IR →
  ∃ fp v, getFingerprint self = Ok fp ∧ readUInt32BE fp 0 = Ok v ∧
    derive_child self index IR kp = Ok (mkNode kp IR (hd_depth self + 1) index v) ∧
    node_ok (mkNode kp IR (hd_depth self + 1) index v).
Proof.
  intros Hok Hi Hp Hc HL HB. destruct (fingerprint_ok _ Hok) as (fp & v & E1 & E2 & Hv).
  exists fp, v. split_and!; try done.
  - unfold derive_child, new. rewrite Hc, E1. cbn [negb mbind result_bind]. by rewrite E2.
  - pose proof (no_depth _ Hok). split; cbn; done || lia.
Qed.

(** The two halves of the authentication code. *)
Lemma hmac_halves k d : let I := hm_sha512 k d in
  bytes_ok (slice I 0 32) ∧ blen (slice_from I 32) = 32 ∧ bytes_ok (slice_from I 32).
Proof.
  destruct (hm_sha512_ok k d) as [L Ho]. cbn zeta. split_and!; [auto with js| |unfold slice_from; auto with js].
  unfold slice_from, blen in *. rewrite slice_in by lia. rewrite length_take, length_drop. lia.
Qed.

(** One call of [derive]: it goes on to the next index, or returns a child whose
    key is the sum of the code and of the parent's key. *)
Lemma derive_once self index data : node_ok self → 0 <= index < 2 ^ 32 → derive_data self index = Ok data →
  let I := hm_sha512 (hd_chainCode self) data in
  let P := be_val (slice I 0 32) in
  let x := (P + ECPair.pub_dl (hd_keyPair self)) mod n in
  ((n <= P ∨ x = 0) ∧ ∀ fuel, derive (S fuel) self index = derive fuel self (index + 1)) ∨
  (P < n ∧ x ≠ 0 ∧ ∃ kp fp v, getFingerprint self = Ok fp ∧ readUInt32BE fp 0 = Ok v ∧
    (∀ fuel, derive (S fuel) self index = Ok (mkNode kp (slice_from I 32) (hd_depth self + 1) index v)) ∧
    node_ok (mkNode kp (slice_from I 32) (hd_depth self + 1) index v) ∧
    ECPair.pub_dl kp = x ∧ kp_network kp = kp_network (hd_keyPair self) ∧
    (is_Some (kp_d kp) ↔ is_Some (kp_d (hd_keyPair self)))).
Proof.
  intros Hok Hi Hd I P x. destruct (hmac_halves (hd_chainCode self) data) as (Ho & HL & HB). fold I in Ho, HL, HB.
  pose proof (no_pair _ Hok) as Hp. destruct (ECPair.Q_ok _ Hp) as (Q & HQ & EQ & Hz & EdQ). pose proof Hp as [Hnet Hpair].
  pose proof ec_n_odd. pose proof (bi_fromBuffer_spec _ Ho) as EP. fold P in EP.
  assert (RP : 0 <= P) by (apply be_val_bound; done).
  cbn [derive]. rewrite (proj2 (tf_UInt32_spec index)) by lia. cbn [guard_js mbind result_bind]. rewrite Hd.
  cbn [mbind result_bind]. fold I. rewrite RFC6979.compare_ge, EP.
  destruct (Z.leb_spec n P) as [|HP]; [by left; split; [left|]|].
  assert (Rx : 0 <= x < n) by (apply Z.mod_pos_bound; lia).
  destruct (kp_d (hd_keyPair self)) as [d|] eqn:Ed.
  - specialize (EdQ d eq_refl). set (ki := bi_mod _ ec_n).
    assert (Ek : bi_Z ki = x).
    { unfold ki, x. rewrite bi_mod_spec, bi_add_spec, EP by lia. do 2 f_equal. congruence. }
    rewrite RFC6979.signum_eq, Ek. destruct (Z.eqb_spec x 0) as [|Hx]; [by left; split; [right|]|right].
    split_and!; [done|done|]. set (kp := mkPair (Some ki) None true (kp_network (hd_keyPair self))).
    assert (Hkp : ECPair.pair_ok kp) by (split; [done|cbn; lia]).
    destruct (derive_child_ok self index (slice_from I 32) kp) as (fp & v & E1 & E2 & E3 & E4); try done.
    exists kp, fp, v. split_and!; try done.
    + intros _. rewrite ECPair.new_private by (rewrite ?Ek; done || lia). exact E3.
    + unfold ECPair.pub_dl. cbn. rewrite ECDSA.dl_generator; [done|lia].
  - rewrite HQ. set (Ki := pt_add _ Q).
    assert (Ek : ec_dl Ki = x).
    { unfold Ki. rewrite dl_add, dl_multiply, dl_G, EP, EQ, Z.mul_1_l, (Z.mod_small P) by lia. done. }
    destruct (ec_isInfinity Ki) eqn:Einf; [left; split; [right; rewrite <- Ek; by apply dl_infinity|done]|right].
    assert (Hx : x ≠ 0) by (intros F; rewrite <- Ek in F; apply dl_infinity in F; congruence).
    split_and!; [done|done|]. set (kp := mkPair None (Some Ki) true (kp_network (hd_keyPair self))).
    assert (Hkp : ECPair.pair_ok kp) by (split; [done|cbn; congruence]).
    destruct (derive_child_ok self index (slice_from I 32) kp) as (fp & v & E1 & E2 & E3 & E4); try done.
    exists kp, fp, v. split_and!; try done. intros _. rewrite ECPair.new_public by done. exact E3.
Qed.

(** A call that returned had its index in range and its data. *)
Lemma derive_ok_inv fuel self index c : derive (S fuel) self index = Ok c →
  0 <= index < 2 ^ 32 ∧ ∃ data, derive_data self index = Ok data.
Proof.
  cbn [derive]. destruct (tf_UInt32 index) eqn:E; [|done]. apply tf_UInt32_spec in E. cbn [guard_js mbind result_bind].
  destruct (derive_data self index) as [data|]; [|done]. intros _. split; [lia|by exists data].
Qed.

Lemma derive_data_low self index data : derive_data self index = Ok data → isNeutered self = true → index < HIGHEST_BIT.
Proof.
  unfold derive_data, isNeutered. rewrite Z.geb_leb. destruct (Z.leb_spec HIGHEST_BIT index); [|done].
  by destruct (kp_d (hd_keyPair self)).
Qed.

(** The index of a child is not below the one asked for, and not hardened under a
    public node. *)
Lemma derive_index fuel self index c : node_ok self → derive fuel self index = Ok c →
  index <= hd_index c ∧ (isNeutered self = true → hd_index c < HIGHEST_BIT).
Proof.
  intros Hok. revert index. induction fuel as [|fuel IH]; intros index Hc; [done|].
  destruct (derive_ok_inv _ _ _ _ Hc) as [Hi [data Hd]].
  destruct (derive_once _ _ _ Hok Hi Hd) as [[_ E]|(_ & _ & kp & fp & v & _ & _ & E & _)]; rewrite E in Hc.
  - destruct (IH _ Hc). split; [lia|done].
  - injection Hc as <-. cbn. split; [lia|]. by eapply derive_data_low.
Qed.

(** A child is of the kind of its parent. *)
Lemma derive_kind fuel self index c : node_ok self → derive fuel self index = Ok c → isNeutered c = isNeutered self.
Proof.
  intros Hok. revert index. induction fuel as [|fuel IH]; intros index Hc; [done|].
  destruct (derive_ok_inv _ _ _ _ Hc) as [Hi [data Hd]].
  destruct (derive_once _ _ _ Hok Hi Hd) as [[_ E]|(_ & _ & kp & fp & v & _ & _ & E & _ & _ & _ & Es)]; rewrite E in Hc.
  - by apply (IH _ Hc).
  - injection Hc as <-. unfold isNeutered. cbn.
    destruct (kp_d kp), (kp_d (hd_keyPair self)); try done; exfalso; [destruct (proj1 Es)|destruct (proj2 Es)]; done.
Qed.

(** [derive] preserves the invariant of nodes: the child is a node one level
    below its parent, with the parent's fingerprint, network and kind, at the
    index asked for or a later one; a child of a public node is never hardened. *)
Theorem derive_invariant fuel self index c : node_ok self → derive fuel self index = Ok c →
  node_ok c ∧ hd_depth c = hd_depth self + 1 ∧ index <= hd_index c ∧
  (fp ← getFingerprint self; readUInt32BE fp 0) = Ok (hd_parentFingerprint c) ∧
  getNetwork c = getNetwork self ∧ isNeutered c = isNeutered self ∧
  (isNeutered self = true → hd_index c < HIGHEST_BIT).
Proof.
  intros Hok Hc. pose proof (derive_index _ _ _ _ Hok Hc) as [Hle Hlow]. pose proof (derive_kind _ _ _ _ Hok Hc) as Hkind.
  revert index Hc Hle. induction fuel as [|fuel IH]; intros index Hc Hle; [done|].
  destruct (derive_ok_inv _ _ _ _ Hc) as [Hi [data Hd]].
  destruct (derive_once _ _ _ Hok Hi Hd) as [[_ E]|(_ & _ & kp & fp & v & E1 & E2 & E & Hk & _ & En & Es)].
  - rewrite E in Hc. pose proof (derive_index _ _ _ _ Hok Hc) as [Hle' _].
    destruct (IH _ Hc Hle') as (H1 & H2 & _ & H4). split_and!; done || apply H4.
  - rewrite E in Hc. injection Hc as <-. cbn in *. rewrite E1. by split_and!.
Qed.

(** Nodes at the same place with the same public key. *)
Record same_public (a b : hdnode) : Prop := {
  sp_a : node_ok a;
  sp_b : node_ok b;
  sp_dl : ECPair.pub_dl (hd_keyPair a) = ECPair.pub_dl (hd_keyPair b);
  sp_network : kp_network (hd_keyPair a) = kp_network (hd_keyPair b);
  sp_chain : hd_chainCode a = hd_chainCode b;
  sp_depth : hd_depth a = hd_depth b;
}.

Lemma same_public_data a b index : same_public a b → index < HIGHEST_BIT →
  derive_data a index = derive_data b index ∧ getFingerprint a = getFingerprint b.
Proof.
  intros [Ha Hb E _ _ _] Hi.
  assert (K : ECPair.getPublicKeyBuffer (hd_keyPair a) = ECPair.getPublicKeyBuffer (hd_keyPair b)).
  { apply same_public_key; [apply Ha|apply Hb|done|]. by rewrite (no_compressed _ Ha), (no_compressed _ Hb). }
  unfold derive_data, getFingerprint, getIdentifier. by rewrite Z.geb_leb, (proj2 (Z.leb_gt _ _)), K.
Qed.

(** Children that are not hardened depend on the public key alone. *)
Lemma derive_same fuel a b index c : same_public a b → derive fuel a index = Ok c → hd_index c < HIGHEST_BIT →
  ∃ c', derive fuel b index = Ok c' ∧ same_public c c' ∧ hd_index c = hd_index c' ∧
    hd_parentFingerprint c = hd_parentFingerprint c'.
Proof.
  intros S. revert index. induction fuel as [|fuel IH]; intros index Hc Hlow; [done|].
  assert (index <= hd_index c) by (by eapply derive_index, Hc; apply S).
  destruct (derive_ok_inv _ _ _ _ Hc) as [Hi [data Hd]]. pose proof S as [Ha Hb Edl En Ech Ede].
  destruct (same_public_data a b index S) as [D F]; [lia|]. pose proof Hd as Hd'. rewrite D in Hd'.
  destruct (derive_once _ _ _ Ha Hi Hd) as [[Q1 E]|(Q1 & Q2 & kp & fp & v & E1 & E2 & E & Hk & Ex & Enw & _)];
    destruct (derive_once _ _ _ Hb Hi Hd') as [[Q1' E']|(Q1' & Q2' & kp' & fp' & v' & E1' & E2' & E' & Hk' & Ex' & Enw' & _)];
    rewrite <- Ech, <- Edl in *.
  - rewrite E in Hc. rewrite E'. by apply IH.
  - lia.
  - lia.
  - rewrite E in Hc. injection Hc as <-. rewrite E'. eexists. split; [reflexivity|].
    split; [split; cbn; try done; congruence|]. cbn. split; [done|]. congruence.
Qed.

Lemma same_public_public self : node_ok self → same_public self (public self) ∧ same_public (public self) self.
Proof.
  intros Hok. destruct (neutered_public _ Hok) as [_ Hp]. destruct (ECPair.Q_ok _ (no_pair _ Hok)) as (P & HQ & _).
  split; split; try done; unfold ECPair.pub_dl, public; cbn; by rewrite HQ.
Qed.

Lemma same_public_eq c p : same_public c p → isNeutered p = true → hd_index c = hd_index p →
  hd_parentFingerprint c = hd_parentFingerprint p → ∃ c', neutered c = Ok c' ∧ node_eq c' p.
Proof.
  intros [Hc Hp Ed En Ech Ede] Hn Ei Ef. destruct (neutered_public _ Hc) as [E _]. exists (public c).
  split; [done|]. destruct (same_public_public _ Hc) as [[_ _ Ed' _ _ _] _]. split; [|done].
  unfold ECPair.pair_eq. rewrite <- Ed', (no_compressed _ Hp). unfold isNeutered in Hn. cbn.
  by destruct (kp_d (hd_keyPair p)).
Qed.

(** C30: public derivation agrees with private derivation.  What the public half
    of a private node derives is the public half of what the node derives; and
    whenever a private node derives a child that is not hardened, its public
    half derives the public half of that child. *)
Theorem public_derivation fuel self pub index : node_ok self → neutered self = Ok pub →
  (∀ p, derive fuel pub index = Ok p →
     ∃ c c', derive fuel self index = Ok c ∧ neutered c = Ok c' ∧ node_eq c' p) ∧
  (∀ c, derive fuel self index = Ok c → hd_index c < HIGHEST_BIT →
     ∃ p c', derive fuel pub index = Ok p ∧ neutered c = Ok c' ∧ node_eq c' p).
Proof.
  intros Hok Hpub. destruct (neutered_public _ Hok) as [E Hp]. rewrite E in Hpub. injection Hpub as <-.
  destruct (same_public_public _ Hok) as [S1 S2]. split.
  - intros p D. assert (hd_index p < HIGHEST_BIT) as Hlow by (by apply (derive_index _ _ _ _ Hp D)).
    destruct (derive_same _ _ _ _ _ S2 D Hlow) as (c & Dc & Sc & Ei & Ef).
    destruct (same_public_eq c p) as (c' & Ec & Eq); [by destruct Sc| |done|done|by exists c, c'].
    by apply (derive_kind _ _ _ _ Hp D).
  - intros c D Hlow. destruct (derive_same _ _ _ _ _ S1 D Hlow) as (p & Dp & Sp & Ei & Ef).
    destruct (same_public_eq c p) as (c' & Ec & Eq); [done| |done|done|by exists p, c'].
    by apply (derive_kind _ _ _ _ Hp Dp).
Qed.

(** C40: [derive] terminates: with more fuel than there are indices from the one
    asked for, it returns a node or throws an exception of the code. *)
Theorem derive_terminates fuel self index : node_ok self → 0 <= index → Z.max 0 (2 ^ 32 - index) < Z.of_nat fuel →
  derive fuel self index ≠ Throw OutOfFuel.
Proof.
  intros Hok. revert index. induction fuel as [|fuel IH]; intros index H0 Hf; [lia|].
  destruct (Z_lt_le_dec index (2 ^ 32)) as [Hi|Hi].
  - destruct (derive_data_returns self index Hok) as [[data Hd]|(_ & _ & Hd)]; [lia| |].
    + destruct (derive_once _ _ _ Hok (conj H0 Hi) Hd) as [[_ E]|(_ & _ & kp & fp & v & _ & _ & E & _)]; rewrite E; [|done].
      apply IH; lia.
    + cbn [derive]. rewrite (proj2 (tf_UInt32_spec index)) by lia. cbn [guard_js mbind result_bind]. by rewrite Hd.
  - cbn [derive]. destruct (tf_UInt32 index) eqn:E; [apply tf_UInt32_spec in E; lia|done].
Qed.

(** The 78 bytes of a node. *)
Definition node_bytes (self : hdnode) (version : Z) (key : buffer) : buffer :=
  be_bytes 4 version ++ [hd_depth self] ++ be_bytes 4 (hd_parentFingerprint self) ++ be_bytes 4 (hd_index self) ++
  hd_chainCode self ++ key.

(** The 33 bytes of the key of a node. *)
Definition key_bytes (self : hdnode) : result buffer :=
  match kp_d (hd_keyPair self) with
  | Some d => Ok (0 :: be_bytes 32 (bi_Z d))
  | None => ECPair.getPublicKeyBuffer (hd_keyPair self)
  end.

Definition node_version (self : hdnode) : Z :=
  let versions := bip32 (kp_network (hd_keyPair self)) in
  if isNeutered self then bip32_public versions else bip32_private versions.

Lemma version_range self : node_ok self → 0 <= node_version self < 2 ^ 32.
Proof.
  intros Hok. destruct (no_pair _ Hok) as [Hn _]. unfold ECPair.Network in Hn. bool_facts.
  rewrite tf_UInt32_spec in *. unfold node_version. destruct (isNeutered self); lia.
Qed.

Lemma key_bytes_ok self : node_ok self → ∃ key, key_bytes self = Ok key ∧ blen key = 33 ∧ bytes_ok key.
Proof.
  intros Hok. unfold key_bytes. destruct (kp_d (hd_keyPair self)).
  - eexists. split; [reflexivity|]. rewrite blen_cons, blen_be_bytes. split; [done|].
    apply bytes_ok_cons. split; [unfold is_byte; lia|auto with js].
  - destruct (public_key_bytes _ (no_pair _ Hok)) as (P & _ & E & L & Ho). rewrite (no_compressed _ Hok) in *. by eexists.
Qed.

Ltac offset := rewrite ?blen_app, ?blen_be_bytes, ?blen_cons, ?blen_nil; lia.
Ltac blen_drop := unfold blen in *; rewrite ?length_drop; lia.

Lemma toBase58_exact self key : node_ok self → hd_depth self < 256 → key_bytes self = Ok key →
  toBase58 self = Ok (bs58_encode (node_bytes self (node_version self) key)).
Proof.
  intros Hok Hdep Hkey. pose proof (version_range _ Hok) as Hv. destruct (key_bytes_ok _ Hok) as (k & Ek & Lk & _).
  rewrite Hkey in Ek. injection Ek as <-.
  destruct Hok as [Hp Hc HL HB Hd Hi Hf]. pose proof (blen_allocUnsafe 78) as L. unfold toBase58.
  replace (if negb _ then _ else _) with (node_version self) by (unfold node_version; by destruct (isNeutered self)).
  rewrite <- (app_nil_l (allocUnsafe 78)).
  rewrite writeUInt32BE_at; [cbn [mbind result_bind]|done|lia|blen_drop].
  rewrite writeUInt8_at; [cbn [mbind result_bind]|offset|lia|blen_drop].
  rewrite writeUInt32BE_at; [cbn [mbind result_bind]|offset|lia|blen_drop].
  rewrite writeUInt32BE_at; [cbn [mbind result_bind]|offset|lia|blen_drop].
  rewrite copy_at; [cbn [mbind result_bind]|offset|blen_drop].
  unfold key_bytes in Hkey. destruct (kp_d (hd_keyPair self)) as [d|] eqn:Ed.
  - injection Hkey as <-. destruct Hp as [_ Hp]. rewrite Ed in Hp. pose proof ec_n_256.
    rewrite bi_toBuffer_spec by (destruct (kp_Q _); lia). change (Z.to_nat 32) with 32%nat.
    rewrite writeUInt8_at; [cbn [mbind result_bind]|offset|lia|blen_drop].
    rewrite copy_at; [cbn [mbind result_bind]|offset|rewrite blen_be_bytes; blen_drop].
    rewrite drop_ge, app_nil_r by (rewrite !length_drop; pose proof (blen_be_bytes 32 (bi_Z d)); unfold blen in *; lia).
    unfold node_bytes. by rewrite <- !app_assoc.
  - rewrite Hkey. cbn [mbind result_bind].
    rewrite copy_at; [cbn [mbind result_bind]|offset|blen_drop].
    rewrite drop_ge, app_nil_r by (unfold blen in *; rewrite !length_drop; lia).
    unfold node_bytes. by rewrite <- !app_assoc.
Qed.

Lemma node_bytes_ok self key : node_ok self → hd_depth self < 256 → blen key = 33 → bytes_ok key →
  blen (node_bytes self (node_version self) key) = 78 ∧ bytes_ok (node_bytes self (node_version self) key).
Proof.
  intros [Hp Hc HL HB Hd Hi Hf] Hdep Lk Ho. unfold node_bytes. split.
  - rewrite !blen_app, !blen_be_bytes, HL, Lk. done.
  - repeat (apply bytes_ok_app; split); auto with js. constructor; [unfold is_byte; lia|constructor].
Qed.

(** The fields of a node, read from its bytes. *)
Lemma node_fields self v key : node_ok self → 0 <= v < 2 ^ 32 → blen key = 33 →
  let b := node_bytes self v key in
  readUInt32BE b 0 = Ok v ∧ get b 4 = Some (hd_depth self) ∧ readUInt32BE b 5 = Ok (hd_parentFingerprint self) ∧
  readUInt32BE b 9 = Ok (hd_index self) ∧ slice b 13 45 = hd_chainCode self ∧ slice b 45 78 = key.
Proof.
  intros [Hp Hc HL HB Hd Hi Hf] Hv Lk b. unfold b, node_bytes.
  set (c4 := be_bytes 4 v). assert (L4 : blen c4 = 4) by apply blen_be_bytes.
  set (f := hd_parentFingerprint self) in *. set (ix := hd_index self) in *. set (cc := hd_chainCode self) in *.
  set (dp := hd_depth self). split_and!.
  - by apply (readUInt32BE_at [] v).
  - pose proof (get_app_len c4 (be_bytes 4 f ++ be_bytes 4 ix ++ cc ++ key) dp) as G. by rewrite L4 in G.
  - pose proof (readUInt32BE_at (c4 ++ [dp]) f (be_bytes 4 ix ++ cc ++ key) 5) as R. rewrite <- !app_assoc in R.
    apply R; [rewrite blen_app, L4; done|done].
  - pose proof (readUInt32BE_at (c4 ++ [dp] ++ be_bytes 4 f) ix (cc ++ key) 9) as R. rewrite <- !app_assoc in R.
    apply R; [rewrite !blen_app, L4, blen_be_bytes; done|done].
  - pose proof (slice_at (c4 ++ [dp] ++ be_bytes 4 f ++ be_bytes 4 ix) cc key 13 45) as R. rewrite <- !app_assoc in R.
    apply R; [rewrite !blen_app, L4, !blen_be_bytes; done|lia].
  - pose proof (slice_at (c4 ++ [dp] ++ be_bytes 4 f ++ be_bytes 4 ix ++ cc) key [] 45 78) as R.
    rewrite app_nil_r, <- !app_assoc in R.
    apply R; [rewrite !blen_app, L4, !blen_be_bytes, HL; done|lia].
Qed.

(** The bytes after the first of the key. *)
Lemma node_private_fields self v k : node_ok self → blen k = 32 →
  let b := node_bytes self v (0 :: k) in readUInt8 b 45 = Ok 0 ∧ slice b 46 78 = k.
Proof.
  intros [Hp Hc HL HB Hd Hi Hf] Lk b. unfold b, node_bytes.
  set (pre := be_bytes 4 v ++ [hd_depth self] ++ be_bytes 4 (hd_parentFingerprint self) ++
    be_bytes 4 (hd_index self) ++ hd_chainCode self).
  assert (Lp : blen pre = 45) by (unfold pre; rewrite !blen_app, !blen_be_bytes, HL; done).
  replace (be_bytes 4 v ++ _) with (pre ++ 0 :: k) by (unfold pre; by rewrite <- !app_assoc). clearbody pre. split.
  - pose proof (readUInt8_app pre 0 k) as R. rewrite Lp in R. apply R.
  - pose proof (slice_at (pre ++ [0]) k [] 46 78) as R. rewrite app_nil_r, <- app_assoc in R.
    apply R; [rewrite blen_app, Lp; done|lia].
Qed.

(** What [fromBase58] makes of the key, the header being that of a node. *)
Definition key_pair (self : hdnode) (b : buffer) : result ecpair :=
  match kp_d (hd_keyPair self) with
  | Some _ =>
      marker ← readUInt8 b 45;
      if negb (marker =? 0x00) then Throw (Error "Invalid private key")
      else ECPair.new (Some (bi_fromBuffer (slice b 46 78))) None None (Some (getNetwork self))
  | None =>
      Q ← pt_decodeFrom (slice b 45 78);
      _ ← ec_validate Q;
      ECPair.new None (Some Q) None (Some (getNetwork self))
  end.

Lemma fromBase58_header self l key : node_ok self → hd_depth self < 256 →
  (hd_depth self = 0 → hd_index self = 0 ∧ hd_parentFingerprint self = 0) →
  bip32_private (bip32 (getNetwork self)) ≠ bip32_public (bip32 (getNetwork self)) →
  l = NetworkOne (Some (getNetwork self)) ∨ l = NetworkList [getNetwork self] → blen key = 33 → bytes_ok key →
  let b := node_bytes self (node_version self) key in
  fromBase58 (bs58_encode b) l =
    keyPair ← key_pair self b; hd ← new keyPair (hd_chainCode self);
    Ok (mkNode (hd_keyPair hd) (hd_chainCode hd) (hd_depth self) (hd_index self) (hd_parentFingerprint self)).
Proof.
  intros Hok Hdep Hmaster Hvers Hl Lk Hkb b. pose proof (version_range _ Hok) as Hv.
  destruct (node_bytes_ok self key Hok Hdep Lk Hkb) as [LB OB].
  destruct (node_fields self _ key Hok Hv Lk) as (F1 & F2 & F3 & F4 & F5 & _). fold b in F1, F2, F3, F4, F5, LB, OB.
  unfold fromBase58. rewrite bs58_roundtrip by done. cbn [mbind result_bind]. rewrite LB, F1. cbn [negb mbind result_bind Z.eqb Pos.eqb].
  set (net := getNetwork self) in *. set (ver := node_version self) in *.
  assert (Ever : (ver =? bip32_private (bip32 net)) = negb (isNeutered self) ∧ (ver =? bip32_public (bip32 net)) = isNeutered self).
  { unfold ver, node_version. fold net. change (kp_network (hd_keyPair self)) with net.
    destruct (isNeutered self); cbn [negb]; rewrite Z.eqb_refl, (proj2 (Z.eqb_neq _ _)) by congruence; done. }
  destruct Ever as [E1 E2].
  replace (match l with NetworkList _ => _ | NetworkOne _ => _ end) with (Ok net).
  2: { destruct Hl as [->| ->]; [done|]. unfold ECPair.select. rewrite filter_cons_True; [done|].
       rewrite E1, E2. by destruct (isNeutered self). }
  cbn [mbind result_bind]. rewrite E1, E2. replace (_ && _) with false by (by destruct (isNeutered self)).
  rewrite F2, F3, F4. cbn [bits_of default from_option id mbind result_bind]. rewrite F5.
  replace ((hd_depth self =? 0) && negb (hd_parentFingerprint self =? 0)) with false.
  2: { destruct (Z.eqb_spec (hd_depth self) 0) as [E|]; [|done]. by destruct (Hmaster E) as [_ ->]. }
  replace ((hd_depth self =? 0) && negb (hd_index self =? 0)) with false.
  2: { destruct (Z.eqb_spec (hd_depth self) 0) as [E|]; [|done]. by destruct (Hmaster E) as [-> _]. }
  unfold key_pair, isNeutered. fold net. by destruct (kp_d (hd_keyPair self)).
Qed.

(** Nodes survive the text form.  [toBase58] of a node returns unless it is
    deeper than 255, and [fromBase58] with the node's network (alone, or as the
    one a list selects) gives back the node: a private node with its key, a
    public node with its point.  A node of depth 0 has to be a master node, and
    the two version numbers of the network have to differ. *)
Theorem base58_roundtrip self l : node_ok self → hd_depth self < 256 →
  (hd_depth self = 0 → hd_index self = 0 ∧ hd_parentFingerprint self = 0) →
  bip32_private (bip32 (getNetwork self)) ≠ bip32_public (bip32 (getNetwork self)) →
  l = NetworkOne (Some (getNetwork self)) ∨ l = NetworkList [getNetwork self] →
  ∃ s c, toBase58 self = Ok s ∧ fromBase58 s l = Ok c ∧ node_eq c self.
Proof.
  intros Hok Hdep Hmaster Hvers Hl. destruct (key_bytes_ok _ Hok) as (key & Ek & Lk & Hkb).
  pose proof (version_range _ Hok) as Hv. pose proof (no_pair _ Hok) as Hp. pose proof Hp as [Hnet Hpair].
  destruct (node_fields self _ key Hok Hv Lk) as (_ & _ & _ & _ & _ & F6).
  rewrite (toBase58_exact self key) by done. eexists.
  assert (K : ∃ kp, key_pair self (node_bytes self (node_version self) key) = Ok kp ∧
    kp_compressed kp = true ∧ ECPair.pair_eq kp (hd_keyPair self)).
  2: { destruct K as (kp & Ekp & Hc & Eq). eexists. split; [reflexivity|].
       rewrite fromBase58_header by done. rewrite Ekp. cbn [mbind result_bind]. unfold new. rewrite Hc.
       cbn [negb mbind result_bind]. split; [reflexivity|]. split_and!; done || apply Eq. }
  unfold key_pair. unfold key_bytes in Ek. destruct (kp_d (hd_keyPair self)) as [d|] eqn:Ed.
  - injection Ek as <-. destruct (node_private_fields self (node_version self) (be_bytes 32 (bi_Z d)) Hok) as [G1 G2];
      [by rewrite blen_be_bytes|]. rewrite G1, G2. cbn [mbind result_bind negb Z.eqb].
    pose proof ec_n_256. assert (Rd : 0 < bi_Z d < n) by (destruct (kp_Q _); lia).
    set (d' := bi_fromBuffer _). assert (Ed' : bi_Z d' = bi_Z d).
    { unfold d'. rewrite bi_fromBuffer_spec, be_val_be_bytes by auto with js. apply Z.mod_small. change (Z.of_nat 32) with 32. lia. }
    rewrite ECPair.new_private by (rewrite ?Ed'; done). eexists. split_and!; [reflexivity|done|].
    destruct (ECPair.Q_ok _ Hp) as (P & _ & EP & _ & EdP). specialize (EdP d Ed).
    unfold ECPair.pair_eq, ECPair.pub_dl at 1. cbn. rewrite ECDSA.dl_generator, Ed, (no_compressed _ Hok) by lia. cbn.
    split_and!; done || congruence || (f_equal; congruence).
  - destruct (public_key_bytes _ Hp) as (P & HQ & EP & _). rewrite Ek, (no_compressed _ Hok) in EP. injection EP as ->.
    destruct (ECPair.Q_ok _ Hp) as (P' & HQ' & EP & Hz & _). rewrite HQ in HQ'. injection HQ' as <-.
    destruct (decodeFrom_spec P true Hz) as (Q & D & EQ & _). rewrite F6, D. cbn [mbind result_bind].
    rewrite validate_spec by congruence. cbn [mbind result_bind]. rewrite ECPair.new_public by done.
    eexists. split_and!; [reflexivity|done|]. unfold ECPair.pair_eq, ECPair.pub_dl at 1. cbn.
    rewrite Ed, (no_compressed _ Hok). split_and!; done || congruence.
Qed.

End S.

Section Examples.
Import Concrete ConcreteCurve ConcreteText.

Local Definition node3 : hdnode := mkNode (mkPair (Some (bi_valueOf 3)) None true bitcoin) (repeat 5 32) 0 0 0.

Local Lemma node3_ok : node_ok node3.
Proof.
  split; [split; [reflexivity|split; reflexivity]|reflexivity|reflexivity|concrete|cbn; lia|cbn; lia|cbn; lia].
Qed.

(** A child of the example and its index, by evaluation. *)
Local Lemma node3_child : match derive (Mem := zero_mem) 3 node3 4 with Ok c => hd_index c =? 5 | Throw _ => false end = true.
Proof. vm_compute. reflexivity. Qed.

Lemma derive_invariant_witness : ∃ c, derive (Mem := zero_mem) 3 node3 4 = Ok c ∧ node_ok c ∧ hd_depth c = 1.
Proof.
  pose proof node3_child as C. destruct (derive (Mem := zero_mem) 3 node3 4) as [c|] eqn:E; [|discriminate C].
  exists c. split; [reflexivity|].
  destruct (derive_invariant (Mem := zero_mem) 3 node3 4 c node3_ok E) as (H1 & H2 & _). split; [exact H1|exact H2].
Defined.

Lemma public_derivation_witness : ∃ c p c', derive (Mem := zero_mem) 3 node3 4 = Ok c ∧
  derive (Mem := zero_mem) 3 (public node3) 4 = Ok p ∧ neutered c = Ok c' ∧ node_eq c' p.
Proof.
  pose proof node3_child as C. destruct (derive (Mem := zero_mem) 3 node3 4) as [c|] eqn:E; [|discriminate C].
  destruct (public_derivation (Mem := zero_mem) 3 node3 (public node3) 4 node3_ok) as [_ H].
  - reflexivity.
  - destruct (H c E) as (p & c' & H1 & H2 & H3); [apply Z.eqb_eq in C; rewrite C; reflexivity|].
    exists c, p, c'. split; [reflexivity|]. split; [exact H1|]. split; [exact H2|exact H3].
Defined.

Lemma derive_terminates_witness : derive (Mem := zero_mem) 3 node3 (2 ^ 32 - 2) ≠ Throw OutOfFuel.
Proof. apply (derive_terminates (Mem := zero_mem)); [exact node3_ok|lia|lia]. Defined.

Lemma base58_roundtrip_witness : ∃ s c, toBase58 (Mem := zero_mem) node3 = Ok s ∧
  fromBase58 s (NetworkOne (Some bitcoin)) = Ok c ∧ node_eq c node3.
Proof.
  apply (base58_roundtrip (Mem := zero_mem)).
  - exact node3_ok.
  - reflexivity.
  - intros _. split; reflexivity.
  - discriminate.
  - left. reflexivity.
Defined.

End Examples.
End HDNode.
