(* ===== verification/Wallet.v ===== *)
(** * The data of the wallet

    Constants of [currency] in [cashtab/src/components/Common/Ticker.js], the network of
    [cashtab/src/utils/coininfo.js] and [ecashCoinInfo.js], and the objects that the
    wallet passes around: outputs it can spend, tokens, accounts and its state.
    A field that may be absent is an option. *)

From stdpp Require Import base tactics list gmap numbers strings.
From S2P Require Import Prelude JsFloat NodeBuffer Crypto Script JsString OpReturn.
Import Networks.
Open Scope Z_scope.

(** ** Constants *)
Module Currency.

Definition ticker : string := "XEC".
Definition defaultFee : number := num_2_01.
Definition dustSats : Z := 550.
Definition etokenSats : Z := 546.
Definition cashDecimals : Z := 2.
Definition blockExplorerUrl : string := "https://explorer.e.cash".
Definition tokenTicker : string := "eToken".
Definition txHistoryCount : Z := 10.
Definition websocketDisconnectedRefreshInterval : Z := 5000.
Definition websocketConnectedRefreshInterval : Z := 10000.
Definition localStorageMaxCharacters : Z := 24.
Definition chronikUrls : list string := ["https://chronik.fabien.cash"; "https://chronik.be.cash/xec"]%string.

End Currency.

(** ** The network *)
Module CoinInfo.

(** A coin of [ecashCoinInfo.js].  [c_testnet] and the two functions are added by
    [coininfo.js]. *)
Record versions := mkVersions {
  v_bip32 : bip32_versions; v_bip44 : Z; v_private : Z; v_public : Z; v_scripthash : Z; v_messagePrefix : buffer;
}.
Record coin := mkCoin {
  c_hashGenesisBlock : string; c_port : Z; c_portRpc : Z; c_magic : Z; c_seedsDns : list string; c_versions : versions;
  c_name : string; c_per1 : Z; c_unit : string;
}.

(** [Object.assign({}, ..., common)] *)
Definition with_common (hash : string) (port portRpc magic : Z) (seeds : list string) (v : versions) : coin :=
  mkCoin hash port portRpc magic seeds v "BitcoinCash" 100000000 "BCH".

Definition cash_prefix : buffer := [0x18] ++ OpReturn.bytes_of "BitcoinCash Signed Message:" ++ [0x0a].

Definition main : coin :=
  with_common "000000000019d6689c085ae165831e934ff763ae46a2a6c172b3f1b60a8ce26f" 8333 8332 0xd9b4bef9
    ["seed.bitcoinabc.org"; "seed-abc.bitcoinforks.org"; "btccash-seeder.bitcoinunlimited.info"; "seed.bitprim.org";
     "seed.deadalnix.me"; "seeder.criptolayer.net"]%string
    (mkVersions {| bip32_public := 0x0488b21e; bip32_private := 0x0488ade4 |} 145 0x80 0x00 0x05 cash_prefix).
Definition test : coin :=
  with_common "000000000933ea01ad0ee984209779baaec3ced90fa3f408719526f8d77f4943" 18333 18332 0x0709110b
    ["testnet-seed.bitcoinabc.org"; "testnet-seed-abc.bitcoinforks.org"; "testnet-seed.bitprim.org";
     "testnet-seed.deadalnix.me"; "testnet-seeder.criptolayer.net"]%string
    (mkVersions {| bip32_public := 0x043587cf; bip32_private := 0x04358394 |} 1 0xef 0x6f 0xc4 cash_prefix).
Definition regtest : coin :=
  with_common "0x0f9188f13cb7b2c71f2a335e3a4fc328bf5beb436012afca590b1a11466e2206" 18444 18332 0xdab5bffa []
    (mkVersions {| bip32_public := 0x043587cf; bip32_private := 0x04358394 |} 1 0xef 0x6f 0xc4 cash_prefix).

(** The coin has no [messagePrefix] and no [bech32] at the level where
    [toBitcoinJS] looks for them: the prefix is made from the name.  The fields of
    the result that [ecashjs-lib] reads. *)
Definition toBitcoinJS (this : coin) : network := {|
  messagePrefix := [0x18] ++ OpReturn.bytes_of (String.append (c_name this) " Signed Message:") ++ [0x0a];
  bech32 := None;
  bip32 := v_bip32 (c_versions this);
  pubKeyHash := v_public (c_versions this);
  scriptHash := v_scripthash (c_versions this);
  wif := v_private (c_versions this);
|}.

(** The fields that [toBitcore] sets; [testnet] is the field of the coin, [false] for
    the one that [coininfo.js] prepares. *)
Record bitcore := mkBitcore {
  bc_name : string; bc_alias : string; bc_pubkeyhash : Z; bc_privatekey : Z; bc_scripthash : Z; bc_xpubkey : Z; bc_xprivkey : Z;
  bc_networkMagic : Z; bc_port : Z; bc_dnsSeeds : list string;
}.
Definition toBitcore {Mem : UninitMem} (testnet : bool) (this : coin) : result bitcore :=
  nm ← writeUInt32BE (allocUnsafe 4) (c_magic this) 0;
  nm ← readUInt32LE nm 0;
  Ok (mkBitcore (if testnet then "testnet" else "livenet") (if testnet then "testnet" else "mainnet")
        (v_public (c_versions this)) (v_private (c_versions this)) (v_scripthash (c_versions this))
        (bip32_public (v_bip32 (c_versions this))) (bip32_private (v_bip32 (c_versions this))) nm (c_port this) (c_seedsDns this)).

(** The lookup by unit or name in lower case: [coin in supportedCoins] also finds what
    every object inherits. *)
Inductive found := Coin (c : coin) | Inherited (property : string) | NotSupported.
Definition coininfo (input : string) : found :=
  let coin := toLowerCase input in
  if bool_decide (coin = toLowerCase (c_unit main) ∨ coin = toLowerCase (c_name main)) then Coin main
  else if bool_decide (coin ∈ ["constructor"; "__proto__"]%string) then Inherited coin
  else NotSupported.

End CoinInfo.

(** ** Outputs *)

Record slpMeta := mkSlpMeta { sm_tokenId : string; sm_txType : string }.
Record slpToken := mkSlpToken { st_amount : string; st_isMintBaton : bool }.

(** An unspent output, as chronik describes it; [address] is added when it is
    fetched. *)
Record utxo := mkUtxo {
  u_txid : string;
  u_outIdx : Z;
  u_value : string;
  u_address : string;
  u_slpMeta : option slpMeta;
  u_slpToken : option slpToken;
}.

(** An output with tokens, with the fields that [finalizeSlpUtxos] adds. *)
Record tokenUtxo := mkTokenUtxo {
  tu_utxo : utxo;
  tu_tokenQty : string;
  tu_tokenId : string;
  tu_decimals : Z;
}.

(** ** Accounts and the wallet *)

Record account := mkAccount {
  cashAddress : string;
  fundingWif : string;
  hash160 : option string;
  publicKey : option string;
}.

Record balances := mkBalances { totalBalanceInSatoshis : string; totalBalance : string }.

Record tokenInfo := mkTokenInfo {
  ti_tokenTicker : string;
  ti_tokenName : string;
  ti_tokenDocumentUrl : string;
  ti_tokenDocumentHash : string;
  ti_decimals : Z;
  ti_tokenId : string;
}.

(** A token in the state: its balance as text, and its metadata. *)
Record token := mkToken { t_tokenId : string; t_balance : string; t_info : option tokenInfo }.

(** ** What chronik returns *)

(** An input of a transaction; the script it spends is missing in a coinbase
    transaction, [ci_slpBurn] is the amount of tokens the input burns. *)
Record chronikInput := mkChronikInput {
  ci_outputScript : option string;
  ci_inputScript : string;
  ci_slpBurn : option slpToken;
}.

Record chronikOutput := mkChronikOutput {
  co_value : string;
  co_outputScript : string;
  co_slpToken : option slpToken;
}.

(** [ct_block]: the height, for a transaction in a block. *)
Record chronikTx := mkChronikTx {
  ct_txid : string;
  ct_inputs : list chronikInput;
  ct_outputs : list chronikOutput;
  ct_block : option Z;
  ct_timeFirstSeen : Z;
  ct_slpTxData : option (slpMeta * option tokenInfo);
}.

(** ** Parsed transactions *)

(** The fields for tokens; [ef_genesisInfo] is [None] when it has [success: false]. *)
Record etokenFields := mkEtoken {
  ef_etokenAmount : string;
  ef_isTokenBurn : bool;
  ef_slpMeta : slpMeta;
  ef_genesisInfo : option tokenInfo;
}.

(** [px_etoken] is there when [isEtokenTx] is true. *)
Record parsedTx := mkParsed {
  px_incoming : bool;
  px_xecAmount : string;
  px_originatingHash160 : string;
  px_etoken : option etokenFields;
  px_airdropFlag : bool;
  px_airdropTokenId : option string;
  px_opReturnMessage : buffer;
  px_isCashtabMessage : bool;
  px_isEncryptedMessage : bool;
  px_decryptionSuccess : bool;
  px_replyAddress : string;
}.

(** ** The state and the wallet *)

(** [ws_hydratedUtxoDetails]: the field of that name is there; only its presence
    matters.  [ws_slpBalancesAndUtxos] is the field [nonSlpUtxos] of that field. *)
Record walletState := mkState {
  ws_balances : option balances;
  ws_tokens : option (list token);
  ws_slpUtxos : option (list tokenUtxo);
  ws_nonSlpUtxos : option (list utxo);
  ws_hydratedUtxoDetails : bool;
  ws_slpBalancesAndUtxos : option (list utxo);
  ws_parsedTxHistory : option (list (chronikTx * parsedTx));
}.

Record wallet := mkWallet {
  w_mnemonic : string;
  w_name : string;
  Path245 : account;
  Path145 : account;
  Path1899 : option account;
  w_state : option walletState;
}.

(** ** The client of chronik *)

(** What [token] returns; [tr_circulatingSupply] is added by the wallet. *)
Record tokenResponse := mkTokenResponse {
  tr_slpTxData : option (slpMeta * option tokenInfo);
  tr_totalMinted : string;
  tr_totalBurned : string;
  tr_initialTokenQuantity : string;
  tr_circulatingSupply : option string;
}.

(** An exception of the client: the JavaScript exception and its field [error]. *)
Record failure := mkFailure { f_exn : js_exn; f_error : option string }.

(** The client, as functions of the requests. *)
Record chronik := mkChronik {
  (** the transaction in hexadecimal and [skipSlpCheck]; the response has the id,
      or is empty *)
  broadcastTx : string → bool → option string + failure;
  (** [script('p2pkh', hash).history(page, size)] *)
  history : string → Z → Z → list chronikTx + failure;
  (** [script('p2pkh', hash).utxos()]: groups of outputs *)
  utxos_at : string → list (list utxo) + failure;
  (** [tx(id)] *)
  tx_of : string → chronikTx + failure;
  (** [token(id)] *)
  token_of : string → tokenResponse + failure;
}.
