(* ===== verification/Amounts.v ===== *)
(** * Amounts and fees

    The conversions between satoshis and XEC of [cashtab/src/utils/cashMethods.js],
    the balance of a wallet, the value of a payment, and the fee: a rate, which is
    a double, times the size of a transaction. *)

From stdpp Require Import base tactics list gmap numbers strings pretty.
From Stdlib Require Import Ascii QArith Qpower Lqa SpecFloat.
From S2P Require Import Prelude JsFloat JsString BigNumber OpReturn Wallet.
Open Scope Z_scope.

Module Amounts.
Section S.
Context `{BN : !BigNumber}.

(** ** Conversions *)

Definition fromLegacyDecimals (amount : bn) (cashDecimals : Z) : number :=
  let conversionFactor := bn_pow10 (8 - cashDecimals) in
  let amountSmallestDenomination := bn_toNumber (bn_times amount conversionFactor) in
  amountSmallestDenomination.

Definition fromSatoshisToXec (amount : bn) (cashDecimals : Z) : bn :=
  let multiplier := bn_pow10 (-1 * cashDecimals) in
  let amountInBaseUnits := bn_times amount multiplier in
  amountInBaseUnits.

(** [None] is [false].  The places of a number that is not finite are [null],
    which compares as 0. *)
Definition fromXecToSatoshis (sendAmount : bn) (cashDecimals : Z) : option bn :=
  let isValidSendAmount := default 0 (bn_dp sendAmount) <=? cashDecimals in
  if negb isValidSendAmount then None
  else
    let conversionFactor := bn_pow10 cashDecimals in
    let sendAmountSmallestDenomination := bn_times sendAmount conversionFactor in
    Some sendAmountSmallestDenomination.

Definition getWalletBalanceFromUtxos (nonSlpUtxos : list utxo) : balances :=
  let total := fold_left (λ previousBalance utxo, bn_plus previousBalance (bn_of_string (u_value utxo))) nonSlpUtxos (bn_of_Z 0) in
  mkBalances (bn_toString total) (bn_toString (fromSatoshisToXec total Currency.cashDecimals)).

(** [row.split(',')[0]] and [row.split(',')[1]] *)
Definition row_address (row : string) : string := default EmptyString (split_on ","%char row !! 0%nat).
Definition row_value (row : string) : bn := bn_of_option (split_on ","%char row !! 1%nat).

Definition parseXecSendValue (isOneToMany : bool) (singleSendValue : option string)
    (destinationAddressAndValueArray : option (list string)) : result bn :=
  value ←
    (if isOneToMany then
       match destinationAddressAndValueArray with
       | None | Some [] => Throw (Error "Invalid destinationAddressAndValueArray")
       | Some rows => Ok (fold_left (λ value row, bn_plus value (row_value row)) rows (bn_of_Z 0))
       end
     else
       match singleSendValue with
       | None => Throw (Error "Invalid singleSendValue")
       | Some s => if OpReturn.is_empty s then Throw (Error "Invalid singleSendValue") else Ok (bn_of_string s)
       end : result bn);
  if bn_lt value (bn_of_string (bn_toString (fromSatoshisToXec (bn_of_Z Currency.dustSats) Currency.cashDecimals)))
  then Throw (Error "dust")
  else Ok value.

(** ** Fees *)

Definition getCashtabByteCount (p2pkhInputCount p2pkhOutputCount : Z) : number :=
  let inputCount := bn_of_Z p2pkhInputCount in
  let outputCount := bn_of_Z p2pkhOutputCount in
  let inputWeight := bn_of_Z (148 * 4) in
  let outputWeight := bn_of_Z (34 * 4) in
  let nonSegwitWeightConstant := bn_of_Z (10 * 4) in
  let totalWeight := bn_of_Z 0 in
  let totalWeight :=
    bn_plus (bn_plus (bn_plus totalWeight (bn_times inputCount inputWeight)) (bn_times outputCount outputWeight))
      nonSegwitWeightConstant in
  let byteCount := bn_ceil (bn_div totalWeight (bn_of_Z 4)) in
  bn_toNumber byteCount.

Definition calcFee {A} (utxos : list A) (p2pkhOutputNumber : Z) (satoshisPerByte : number) : number :=
  let byteCount := getCashtabByteCount (len utxos) p2pkhOutputNumber in
  let txFee := num_Ceil (num_mul satoshisPerByte byteCount) in
  txFee.

(** ** Laws *)
Context `{BNS : !BigNumberSpec}.

(** The size that a transaction with [i] inputs and [o] outputs is taken to have. *)
Definition byte_count (i o : Z) : Z := 148 * i + 34 * o + 10.
(** 2.01 times [n], rounded up *)
Definition fee_of (n : Z) : Z := (201 * n + 99) / 100.

Lemma byteCount_exact i o : 0 <= i → 0 <= o → byte_count i o < 2 ^ 53 →
  getCashtabByteCount i o = num_of_Z (byte_count i o).
Proof.
  intros Hi Ho Hb. unfold byte_count in *. apply bn_toNumber_int; [|lia]. apply bn_ceil_is.
  apply (bn_div_is _ _ (inject_Z (4 * (148 * i + 34 * o + 10))) (inject_Z 4)); [|apply bn_of_Z_is|done| |].
  - eapply bn_is_proper.
    2: { repeat first [eapply bn_plus_int|eapply bn_times_int|apply bn_of_Z_is]. }
    replace (4 * (148 * i + 34 * o + 10)) with (0 + i * (148 * 4) + o * (34 * 4) + 10 * 4) by ring. reflexivity.
  - rewrite <- inject_Z_mult. reflexivity.
  - exists ((148 * i + 34 * o + 10) * 10 ^ 20). rewrite ten_nonneg, <- inject_Z_mult by done. reflexivity.
Qed.

Lemma fee_of_nonneg n : 0 <= n → 0 <= fee_of n.
Proof. intros H. apply Z.div_pos; lia. Qed.

Lemma fee_of_bounds n : 201 * n <= 100 * fee_of n <= 201 * n + 99.
Proof. unfold fee_of. pose proof (Z_div_mod_eq_full (201 * n + 99) 100). pose proof (Z.mod_pos_bound (201 * n + 99) 100). lia. Qed.

Lemma calcFee_exact {A} (utxos : list A) o : 0 <= o → byte_count (len utxos) o < 2 ^ 30 →
  calcFee utxos o Currency.defaultFee = num_of_Z (fee_of (byte_count (len utxos) o)).
Proof.
  intros Ho Hb. pose proof (len_nonneg utxos). unfold calcFee. rewrite byteCount_exact by (unfold byte_count in *; lia).
  unfold num_Ceil, Currency.defaultFee. rewrite fee_exact by (unfold byte_count in *; lia). reflexivity.
Qed.

(** ** Conversions *)

(** [x] is [n] hundredths. *)
Definition cents (x : bn) (n : Z) : Prop := bn_is x (inject_Z n * ten (-2))%Q.

Lemma cents_times x n : cents x n → bn_is (bn_times x (bn_pow10 2)) (inject_Z n).
Proof.
  intros H. eapply bn_is_proper; [|eapply bn_times_is; [exact H|by apply bn_pow10_is]].
  rewrite <- Qmult_assoc, (Qmult_comm (ten (-2))). change (-2) with (- (2)). rewrite ten_neg by done. apply Qmult_1_r.
Qed.

Lemma cents_dp x n : cents x n → default 0 (bn_dp x) <= 2.
Proof.
  intros H. destruct (bn_dp_is _ _ H) as (d & -> & Hd). cbn [from_option id]. apply Hd; [done|]. exists n.
  rewrite <- Qmult_assoc, (Qmult_comm (ten (-2))). change (-2) with (- (2)). rewrite ten_neg by done. apply Qmult_1_r.
Qed.

Lemma cents_lt x y m n : cents x m → cents y n → bn_lt x y = (m <? n).
Proof.
  intros Hx Hy. apply eq_bool_prop_intro. rewrite !Is_true_true, (bn_lt_is _ _ _ _ Hx Hy), Z.ltb_lt.
  rewrite Qmult_lt_r by done. by rewrite <- Zlt_Qlt.
Qed.

Lemma cents_sub x m p : bn_is x p → cents x m → Qeq p (inject_Z m * ten (-2))%Q.
Proof. intros H1 H2. by apply (bn_is_unique x). Qed.

Lemma satoshis_cents x n : bn_is x (inject_Z n) → cents (fromSatoshisToXec x 2) n.
Proof. intros H. apply bn_times_is; [done|]. by apply bn_pow10_is. Qed.

Lemma toSatoshis_cents x n : cents x n → ∃ y, fromXecToSatoshis x 2 = Some y ∧ bn_is y (inject_Z n).
Proof.
  intros H. unfold fromXecToSatoshis. rewrite (proj2 (Z.leb_le _ _)) by by eapply cents_dp. cbn [negb].
  eexists. split; [reflexivity|by apply cents_times].
Qed.

(** Amounts in XEC and in satoshis.  The XEC of an amount of satoshis are
    converted back to it; a finite amount of XEC is converted to satoshis, to a
    hundred times as many, exactly when it is a number of hundredths; what has
    more than two decimal places is refused. *)
Theorem xec_satoshi_conversion x p n : bn_is x p →
  (Qeq p (inject_Z n) → ∃ y, fromXecToSatoshis (fromSatoshisToXec x 2) 2 = Some y ∧ bn_is y (inject_Z n)) ∧
  (Qeq p (inject_Z n * ten (-2)) → ∃ y, fromXecToSatoshis x 2 = Some y ∧ bn_is y (inject_Z n)) ∧
  ((∀ m, ~ Qeq p (inject_Z m * ten (-2))) → fromXecToSatoshis x 2 = None).
Proof.
  intros Hx. split_and!.
  - intros E. apply toSatoshis_cents, satoshis_cents. by eapply bn_is_proper.
  - intros E. apply toSatoshis_cents. by eapply bn_is_proper.
  - intros Hm. unfold fromXecToSatoshis. destruct (bn_dp_is _ _ Hx) as (d & -> & Hd). cbn [from_option id].
    destruct (Z.leb_spec d 2) as [Hle|]; [|done]. exfalso. apply Hd in Hle as (m & Em); [|done]. apply (Hm m).
    rewrite <- Em, <- Qmult_assoc. change (-2) with (- (2)). rewrite ten_neg by done. by rewrite Qmult_1_r.
Qed.

(** ** The value of a payment *)

Lemma sum_rows rows ns acc a : Forall2 (λ row n, cents (row_value row) n) rows ns → cents acc a →
  cents (fold_left (λ value row, bn_plus value (row_value row)) rows acc) (a + zsum ns).
Proof.
  intros H. revert acc a. induction H as [|row n rows ns Hr _ IH]; intros acc a Ha; [by rewrite Z.add_0_r|]. cbn [fold_left].
  change (zsum (n :: ns)) with (n + zsum ns). rewrite Z.add_assoc. apply IH. unfold cents in *. eapply bn_is_proper; [|eapply bn_plus_is; [exact Ha|exact Hr]].
  rewrite inject_Z_plus. ring.
Qed.

Lemma dust_cents : cents (bn_of_string (bn_toString (fromSatoshisToXec (bn_of_Z Currency.dustSats) Currency.cashDecimals))) 550.
Proof. apply bn_of_toString, satoshis_cents, bn_of_Z_is. Qed.

Lemma zero_cents : cents (bn_of_Z 0) 0.
Proof. eapply bn_is_proper; [|apply bn_of_Z_is]. reflexivity. Qed.

(** What the rows of a payment to many, or the amount of a payment to one, ask
    for: [ns] are the amounts in hundredths. *)
Definition asks (isOneToMany : bool) (single : option string) (rows : option (list string)) (ns : list Z) : Prop :=
  if isOneToMany then ∃ l, rows = Some l ∧ l ≠ [] ∧ Forall2 (λ row n, cents (row_value row) n) l ns
  else ∃ s n, single = Some s ∧ s ≠ EmptyString ∧ cents (bn_of_string s) n ∧ ns = [n].

(** The value of a payment is the sum of what its rows ask for, or it is
    refused as dust, exactly when the sum is below 550 satoshis. *)
Lemma send_value_exact many single rows ns : asks many single rows ns →
  let total := zsum ns in
  if total <? 550 then parseXecSendValue many single rows = Throw (Error "dust")
  else ∃ v, parseXecSendValue many single rows = Ok v ∧ cents v total.
Proof.
  intros Ha total. unfold parseXecSendValue.
  assert (∃ v, (if many
       then match rows with
            | None | Some [] => Throw (Error "Invalid destinationAddressAndValueArray")
            | Some rows => Ok (fold_left (λ value row, bn_plus value (row_value row)) rows (bn_of_Z 0))
            end
       else match single with
            | None => Throw (Error "Invalid singleSendValue")
            | Some s => if OpReturn.is_empty s then Throw (Error "Invalid singleSendValue") else Ok (bn_of_string s)
            end) = Ok v ∧ cents v total) as (v & -> & Hv).
  { destruct many; cbn [asks] in Ha.
    - destruct Ha as (l & -> & Hl & H). destruct l as [|r l]; [done|].
      eexists. split; [reflexivity|]. by apply (sum_rows _ _ _ 0); [|apply zero_cents].
    - destruct Ha as (s & n & -> & Hs & Hc & ->). unfold OpReturn.is_empty. rewrite (proj2 (String.eqb_neq _ _)) by done.
      eexists. split; [reflexivity|]. subst total. change (zsum [n]) with (n + 0). by rewrite Z.add_0_r. }
  cbn [mbind result_bind]. rewrite (cents_lt _ _ _ _ Hv dust_cents). destruct (total <? 550); [done|by exists v].
Qed.

End S.
End Amounts.
