(* ===== verification/TxBuilder.v ===== *)
(** * The wallet's transaction builder

    [cashtab/src/utils/txBuilder.js]: a builder of [ecashjs-lib] that takes the
    addresses of the wallet. *)

From stdpp Require Import base tactics list gmap numbers strings.
From S2P Require Import Prelude JsNumber JsFloat NodeBuffer Opcodes Externals Encodings BufferUtils Crypto Curve Script Asm.
From S2P Require Import Templates TemplateLaws Transaction Sighash ECSignature Ecdsa Address ECPair TransactionBuilder.
From S2P Require Import TransactionBuilderLaws JsString BigNumber OpReturn WalletExternals WalletAddress Wallet.
Import Types Networks.
Open Scope Z_scope.

Module TxBuilder.

Definition ecash : network := CoinInfo.toBitcoinJS CoinInfo.main.

Record txBuilder := mkTxBuilder {
  transaction : builder;
  tx : option Transaction.transaction;
  p2shInput : bool;
}.

Definition DEFAULT_SEQUENCE : Z := 0xffffffff.
Definition SIGHASH_ALL : Z := 0x01.
Definition SIGHASH_NONE : Z := 0x02.
Definition SIGHASH_SINGLE : Z := 0x03.
Definition SIGHASH_ANYONECANPAY : Z := 0x80.
Definition SIGHASH_BITCOINCASH_BIP143 : Z := 0x40.

Definition with_transaction (this : txBuilder) (b : builder) : txBuilder := mkTxBuilder b (tx this) (p2shInput this).

Section S.
Context {Mem : UninitMem} `{TF : !Typeforce} `{VU : !VarUint} `{CH : !CreateHash} `{B66 : !Bip66}
  `{B58 : !Bs58check} `{B32 : !Bech32} `{BI : !Bigi} `{EC : !Ecurve} `{CA : !Cashaddr}.

Definition constructor : txBuilder := mkTxBuilder (TransactionBuilder.new (Some ecash) None) None false.

Definition addInput (this : txBuilder) (txHash : tx_ref) (vout : Z) (sequence : option Z) (prevOutScript : option buffer)
    : result txBuilder :=
  '(b, _) ← TransactionBuilder.addInput (transaction this) txHash vout (Some (default DEFAULT_SEQUENCE sequence)) prevOutScript;
  Ok (with_transaction this b).

Definition addInputScript (this : txBuilder) (vout : Z) (script : buffer) : result txBuilder :=
  t ← TransactionBuilder.buildIncomplete (transaction this);
  t ← Transaction.setInputScript t vout script;
  Ok (mkTxBuilder (transaction this) (Some t) true).

Fixpoint set_scripts (t : Transaction.transaction) (scripts : list (Z * buffer)) : result Transaction.transaction :=
  match scripts with
  | [] => Ok t
  | (vout, script) :: scripts => t ← Transaction.setInputScript t vout script; set_scripts t scripts
  end.

Definition addInputScripts (this : txBuilder) (scripts : list (Z * buffer)) : result txBuilder :=
  t ← TransactionBuilder.buildIncomplete (transaction this);
  t ← set_scripts t scripts;
  Ok (mkTxBuilder (transaction this) (Some t) true).

(** The legacy address of [scriptPubKey]; [decode] takes a text only. *)
Definition toLegacyAddress (scriptPubKey : output_ref) : result string :=
  match scriptPubKey with
  | OutScript _ => Throw (Error "Invalid address")
  | OutAddress a =>
      '(_, type, hash) ← ca_decode a;
      version ← (if String.eqb type "P2PKH" then Ok (CoinInfo.v_public (CoinInfo.c_versions CoinInfo.main))
                 else if String.eqb type "P2SH" then Ok (CoinInfo.v_scripthash (CoinInfo.c_versions CoinInfo.main))
                 else Throw (Error "Unsupported address type : "));
      Address.toBase58Check hash version
  end.

(** An amount that is [NaN] is refused by [typeforce], as a negative one is. *)
Definition amount_of (amount : option Z) : Z := default (-1) amount.

(** Whatever fails in the [try] block, the output is added as it was given. *)
Definition addOutput (this : txBuilder) (scriptPubKey : output_ref) (amount : option Z) : result txBuilder :=
  let amount := amount_of amount in
  let r := a ← toLegacyAddress scriptPubKey; TransactionBuilder.addOutput (transaction this) (OutAddress a) amount in
  '(b, _) ← match r with
            | Ok r => Ok r
            | Throw _ => TransactionBuilder.addOutput (transaction this) scriptPubKey amount
            end;
  Ok (with_transaction this b).

Definition setLockTime (this : txBuilder) (locktime : Z) : result txBuilder :=
  b ← TransactionBuilder.setLockTime (transaction this) locktime; Ok (with_transaction this b).

Definition sign (this : txBuilder) (vin : Z) (keyPair : key) (redeemScript : option buffer) (hashType value : option Z)
    (signatureAlgorithm : option Z) : txBuilder * result unit :=
  let '(b, r) := TransactionBuilder.sign (transaction this) vin keyPair redeemScript
                   (Some (default SIGHASH_ALL hashType)) value None signatureAlgorithm in
  (with_transaction this b, r).

(** [this.tx] is set when [p2shInput] is. *)
Definition build (this : txBuilder) : result Transaction.transaction :=
  if p2shInput this then
    match tx this with Some t => Ok t | None => TransactionBuilder.no_property end
  else TransactionBuilder.build (transaction this).

End S.
End TxBuilder.
