(* ===== verification/CashMethods.v ===== *)
(** * Building the transactions of the wallet

    The part of [cashtab/src/utils/cashMethods.js] that makes transactions: choosing
    the outputs to spend, adding the outputs of a payment and of the three kinds of
    token transactions, signing with the keys of the wallet and serialising. *)

From stdpp Require Import base tactics list gmap numbers strings.
From S2P Require Import Prelude JsNumber JsFloat NodeBuffer Opcodes Externals Encodings BufferUtils Crypto Curve Script Asm.
From S2P Require Import Templates Transaction Sighash ECSignature Ecdsa Address ECPair TransactionBuilder.
From S2P Require Import JsString BigNumber OpReturn WalletExternals WalletAddress Wallet Amounts TxBuilder.
Import Types Networks TxBuilder Amounts.
Open Scope Z_scope.

Module CashMethods.

Section S.
Context {Mem : UninitMem} `{TF : !Typeforce} `{VU : !VarUint} `{CH : !CreateHash} `{B66 : !Bip66}
  `{B58 : !Bs58check} `{B32 : !Bech32} `{BI : !Bigi} `{EC : !Ecurve} `{HM : !CreateHmac} `{WF : !Wif}
  `{CA : !Cashaddr} `{BN : !BigNumber} `{SLP : !SlpMdm}.

(** ** Token scripts *)

(** [xs[0].tokenId] throws when there is no first element. *)
Definition first {A} (xs : list A) : result A :=
  match xs with x :: _ => Ok x | [] => TransactionBuilder.no_property end.

(** [!s] for a text that may be [false] or [null] *)
Definition falsy (s : option string) : bool :=
  match s with Some s => OpReturn.is_empty s | None => true end.

(** The tokens in the given outputs, in units of the smallest fraction. *)
Definition totalTokens (tokenUtxos : list tokenUtxo) (decimals : Z) : bn :=
  fold_left (λ tot txo, bn_plus tot (bn_times (bn_of_string (tu_tokenQty txo)) (bn_pow10 decimals))) tokenUtxos (bn_of_Z 0).

Definition generateBurnOpReturn (tokenUtxos : list tokenUtxo) (burnQty : option string) : result buffer :=
  if falsy burnQty then Throw (Error "Invalid burn token parameter") else
  u ← first tokenUtxos;
  let tokenId := tu_tokenId u in
  let decimals := tu_decimals u in
  let finalBurnTokenQty := bn_times (bn_of_option burnQty) (bn_pow10 decimals) in
  let tokenChange := bn_minus (totalTokens tokenUtxos decimals) finalBurnTokenQty in
  slp_send tokenId [bn_of_string (bn_toString tokenChange)].

(** [script] and [outputs] *)
Definition generateSendOpReturn (tokenUtxos : list tokenUtxo) (sendQty : option string) : result (buffer * Z) :=
  if falsy sendQty then Throw (Error "Invalid send token parameter") else
  u ← first tokenUtxos;
  let tokenId := tu_tokenId u in
  let decimals := tu_decimals u in
  let finalSendTokenQty := bn_times (bn_of_option sendQty) (bn_pow10 decimals) in
  let finalSendTokenQtyStr := bn_toString finalSendTokenQty in
  let tokenChange := bn_minus (totalTokens tokenUtxos decimals) finalSendTokenQty in
  let tokenChangeStr := bn_toString tokenChange in
  if bn_gt tokenChange (bn_of_Z 0) then
    script ← slp_send tokenId [bn_of_string finalSendTokenQtyStr; bn_of_string tokenChangeStr]; Ok (script, 2)
  else
    script ← slp_send tokenId [bn_of_string finalSendTokenQtyStr]; Ok (script, 1).

(** The configuration of a new token. *)
Record tokenConfig := mkTokenConfig {
  tc_name : string;
  tc_ticker : string;
  tc_documentUrl : string;
  tc_documentHash : string;
  tc_decimals : Z;
  tc_initialQty : string;
  tc_mintBatonVout : option Z;
}.

Definition generateGenesisOpReturn (configObj : option tokenConfig) : result buffer :=
  match configObj with
  | None => Throw (Error "Invalid token configuration")
  | Some c =>
      let initialQty := bn_toString (bn_times (bn_of_string (tc_initialQty c)) (bn_pow10 (tc_decimals c))) in
      slp_genesis (tc_ticker c) (tc_name c) (tc_documentUrl c) (tc_documentHash c) (tc_decimals c) (tc_mintBatonVout c)
        (bn_of_string initialQty)
  end.

(** ** Keys *)

(** [accounts.filter(acc => acc.cashAddress === address)] *)
Fixpoint filter_accounts (address : string) (accounts : list (option account)) : result (list account) :=
  match accounts with
  | [] => Ok []
  | None :: _ => TransactionBuilder.no_property
  | Some a :: accounts =>
      rest ← filter_accounts address accounts;
      Ok (if String.eqb (cashAddress a) address then a :: rest else rest)
  end.

Definition getUtxoWif (utxo : utxo) (wallet : option Wallet.wallet) : result string :=
  match wallet with
  | None => Throw (Error "Invalid wallet parameter")
  | Some wallet =>
      let accounts := [Some (Path245 wallet); Some (Path145 wallet); Path1899 wallet] in
      matching ← filter_accounts (u_address utxo) accounts;
      match last matching with
      | Some acc => Ok (fundingWif acc)
      | None => TransactionBuilder.no_property
      end
  end.

Definition getECPairFromWIF (wif : string) : result ecpair := ECPair.fromWIF wif (NetworkOne (Some ecash)).

(** [parseInt(utxo.value)]; [typeforce] refuses [NaN] as it refuses a negative amount. *)
Definition utxo_amount (utxo : utxo) : Z := amount_of (parseInt (u_value utxo) 10).

(** The loop from index [i] on; [fuel] bounds the search for the nonce of a signature. *)
Fixpoint sign_from (fuel : nat) (i : nat) (inputUtxos : list utxo) (wallet : wallet) (txBuilder : txBuilder) : result TxBuilder.txBuilder :=
  match inputUtxos with
  | [] => Ok txBuilder
  | utxo :: rest =>
      let accounts := [Some (Path245 wallet); Some (Path145 wallet); Path1899 wallet] in
      matching ← filter_accounts (u_address utxo) accounts;
      wif ← match last matching with
            | Some acc => Ok (fundingWif acc)
            | None => TransactionBuilder.no_property
            end;
      utxoECPair ← getECPairFromWIF wif;
      let '(txBuilder, outcome) :=
        sign txBuilder (Z.of_nat i) (TransactionBuilder.key_of_pair fuel utxoECPair) None (Some SIGHASH_ALL)
          (Some (utxo_amount utxo)) None in
      _ ← outcome;
      sign_from fuel (S i) rest wallet txBuilder
  end.

Definition signUtxosByAddress (fuel : nat) (inputUtxos : list utxo) (wallet : wallet) (txBuilder : txBuilder) : result TxBuilder.txBuilder :=
  sign_from fuel 0 inputUtxos wallet txBuilder.

(** ** Inputs *)

Record txInputObj := mkTxInput {
  ti_txBuilder : txBuilder;
  totalInputUtxoValue : bn;
  inputUtxos : list utxo;
  txFee : number;
}.

(** The loop over [utxos]: it stops as soon as the inputs cover the amount and the
    fee, or when there are none left. *)
Fixpoint collect_inputs (satoshisToSend : bn) (txOutputs : Z) (feeInSatsPerByte : number) (utxos : list utxo)
    (st : txInputObj) : result txInputObj :=
  match utxos with
  | [] => Ok st
  | utxo :: rest =>
      let total := bn_plus (totalInputUtxoValue st) (bn_of_string (u_value utxo)) in
      b ← addInput (ti_txBuilder st) (RefHex (u_txid utxo)) (u_outIdx utxo) None None;
      let inputs := inputUtxos st ++ [utxo] in
      let fee := calcFee inputs txOutputs feeInSatsPerByte in
      let st := mkTxInput b total inputs fee in
      if bn_gte (bn_minus (bn_minus total satoshisToSend) (bn_of_number fee)) (bn_of_Z 0) then Ok st
      else collect_inputs satoshisToSend txOutputs feeInSatsPerByte rest st
  end.

(** [!x] of an array that may be [null] *)
Definition missing {A} (x : option A) : bool := match x with Some _ => false | None => true end.

Definition generateTxInput (isOneToMany : bool) (utxos : list utxo) (txBuilder : txBuilder)
    (destinationAddressAndValueArray : option (list string)) (satoshisToSend : option bn) (feeInSatsPerByte : number)
    : result txInputObj :=
  match satoshisToSend with
  | None => Throw (Error "Invalid tx input parameter")
  | Some satoshisToSend =>
      if (isOneToMany && missing destinationAddressAndValueArray) || negb (num_truthy feeInSatsPerByte)
      then Throw (Error "Invalid tx input parameter")
      else
        let txOutputs := if isOneToMany then len (default [] destinationAddressAndValueArray) + 1 else 2 in
        collect_inputs satoshisToSend txOutputs feeInSatsPerByte utxos (mkTxInput txBuilder (bn_of_Z 0) [] (num_of_Z 0))
  end.

Definition getChangeAddressFromInputUtxos (inputUtxos : list utxo) : result string :=
  match inputUtxos with
  | [] => Throw (Error "Invalid input utxo")
  | u :: _ =>
      let changeAddress := u_address u in
      if negb (WalletAddress.isValidXecAddress changeAddress) && negb (WalletAddress.isValidBchAddress changeAddress)
      then Throw (Error "Invalid input utxo")
      else Ok changeAddress
  end.

(** ** Outputs of a payment *)

(** [parseInt(fromXecToSatoshis(value))]; [parseInt(false)] is [NaN]. *)
Definition satoshi_amount (value : bn) : option Z := fromXecToSatoshis value Currency.cashDecimals ≫= bn_parseInt.

Fixpoint add_rows (rows : list string) (txBuilder : txBuilder) : result TxBuilder.txBuilder :=
  match rows with
  | [] => Ok txBuilder
  | row :: rows =>
      txBuilder ← addOutput txBuilder (OutAddress (row_address row)) (satoshi_amount (row_value row));
      add_rows rows txBuilder
  end.

(** [undefined] and [null] are no output. *)
Definition add_optional (txBuilder : txBuilder) (address : option string) (amount : option Z) : result TxBuilder.txBuilder :=
  match address with
  | Some a => addOutput txBuilder (OutAddress a) amount
  | None => Throw TypeforceError
  end.

Definition generateTxOutput (isOneToMany : bool) (singleSendValue satoshisToSend : option bn) (totalInputUtxoValue : bn)
    (destinationAddress : option string) (destinationAddressAndValueArray : option (list string)) (changeAddress : string)
    (txFee : number) (txBuilder : txBuilder) : result TxBuilder.txBuilder :=
  match satoshisToSend with
  | None => Throw (Error "Invalid tx input parameter")
  | Some satoshisToSend =>
      if (isOneToMany && missing destinationAddressAndValueArray)
         || (negb isOneToMany && falsy destinationAddress && missing singleSendValue)
         || OpReturn.is_empty changeAddress || negb (num_truthy txFee)
      then Throw (Error "Invalid tx input parameter")
      else
        let remainder := bn_minus (bn_minus totalInputUtxoValue satoshisToSend) (bn_of_number txFee) in
        if bn_lt remainder (bn_of_Z 0) then Throw (Error "Insufficient funds")
        else
          txBuilder ←
            (if isOneToMany then add_rows (default [] destinationAddressAndValueArray) txBuilder
             else add_optional txBuilder destinationAddress (singleSendValue ≫= satoshi_amount));
          if bn_gte remainder (bn_of_Z Currency.dustSats)
          then addOutput txBuilder (OutAddress changeAddress) (bn_parseInt remainder)
          else Ok txBuilder
  end.

(** ** Signing and serialising *)

(** Every exception of [build] and [toHex] is replaced. *)
Definition build_hex (txBuilder : txBuilder) : result string :=
  match (tx ← build txBuilder; Transaction.toHex tx) with
  | Ok hex => Ok hex
  | Throw _ => Throw (Error "Transaction build failed")
  end.

Definition signAndBuildTx (fuel : nat) (inputUtxos : list utxo) (txBuilder : txBuilder) (wallet : wallet) : result string :=
  if (len inputUtxos =? 0) || (len (outs (tb_tx (transaction txBuilder))) =? 0)
  then Throw (Error "Invalid buildTx parameter")
  else
    txBuilder ← signUtxosByAddress fuel inputUtxos wallet txBuilder;
    build_hex txBuilder.

(** ** Inputs and outputs of token transactions *)

Record tokenTxInputObj := mkTokenTxInput {
  tti_txBuilder : txBuilder;
  inputXecUtxos : list utxo;
  inputTokenUtxos : list tokenUtxo;
  remainderXecValue : bn;
  remainderTokenValue : bn;
}.

(** The loop over the outputs without tokens: the builder, the total, the inputs
    and the remainder. *)
Fixpoint collect_xec (tokenAction : string) (txOutputs : Z) (feeInSatsPerByte : number) (totalXecUtxos : list utxo)
    (txBuilder : txBuilder) (total : bn) (inputs : list utxo) (remainder : bn)
    : result (TxBuilder.txBuilder * list utxo * bn) :=
  match totalXecUtxos with
  | [] => Ok (txBuilder, inputs, remainder)
  | thisXecUtxo :: rest =>
      let total := bn_plus total (bn_of_string (u_value thisXecUtxo)) in
      txBuilder ← addInput txBuilder (RefHex (u_txid thisXecUtxo)) (u_outIdx thisXecUtxo) None None;
      let inputs := inputs ++ [thisXecUtxo] in
      let txFee := calcFee inputs txOutputs feeInSatsPerByte in
      let remainder :=
        if String.eqb tokenAction "GENESIS"
        then bn_minus (bn_minus total (bn_of_Z Currency.etokenSats)) (bn_of_number txFee)
        else bn_minus (bn_minus total (bn_of_Z (Currency.etokenSats * 2))) (bn_of_number txFee) in
      if bn_gte remainder (bn_of_Z 0) then Ok (txBuilder, inputs, remainder)
      else collect_xec tokenAction txOutputs feeInSatsPerByte rest txBuilder total inputs remainder
  end.

(** The outputs of a token that are not minting batons. *)
Fixpoint filter_tokens (tokenId : string) (utxos : list tokenUtxo) : result (list tokenUtxo) :=
  match utxos with
  | [] => Ok []
  | u :: utxos =>
      keep ← (match u_slpMeta (tu_utxo u) with
              | None => TransactionBuilder.no_property
              | Some meta =>
                  if String.eqb (sm_tokenId meta) tokenId then
                    match u_slpToken (tu_utxo u) with
                    | None => TransactionBuilder.no_property
                    | Some t => Ok (negb (st_isMintBaton t))
                    end
                  else Ok false
              end : result bool);
      rest ← filter_tokens tokenId utxos;
      Ok (if (keep : bool) then u :: rest else rest)
  end.

(** The loop over the outputs of the token: the builder, the outputs spent and
    their amount. *)
Fixpoint collect_tokens (tokenAmountBeingSpent : bn) (utxos : list tokenUtxo) (txBuilder : txBuilder)
    (spent : list tokenUtxo) (amount : bn) : result (TxBuilder.txBuilder * list tokenUtxo * bn) :=
  match utxos with
  | [] => Ok (txBuilder, spent, amount)
  | u :: rest =>
      let amount := bn_plus amount (bn_of_string (tu_tokenQty u)) in
      txBuilder ← addInput txBuilder (RefHex (u_txid (tu_utxo u))) (u_outIdx (tu_utxo u)) None None;
      let spent := spent ++ [u] in
      if bn_lte tokenAmountBeingSpent amount then Ok (txBuilder, spent, amount)
      else collect_tokens tokenAmountBeingSpent rest txBuilder spent amount
  end.

Definition generateTokenTxInput (tokenAction : string) (totalXecUtxos : list utxo) (totalTokenUtxos : option (list tokenUtxo))
    (tokenId tokenAmount : option string) (feeInSatsPerByte : number) (txBuilder : txBuilder) : result tokenTxInputObj :=
  if OpReturn.is_empty tokenAction || (negb (String.eqb tokenAction "GENESIS") && falsy tokenId)
     || negb (num_truthy feeInSatsPerByte)
  then Throw (Error "Invalid token tx input parameter")
  else
    let txOutputs := if String.eqb tokenAction "GENESIS" then 2 else 4 in
    '(txBuilder, inputs, remainderXecValue) ←
      collect_xec tokenAction txOutputs feeInSatsPerByte totalXecUtxos txBuilder (bn_of_Z 0) [] (bn_of_Z 0);
    if bn_lt remainderXecValue (bn_of_Z 0) then Throw (Error "Insufficient funds")
    else if String.eqb tokenAction "SEND" || String.eqb tokenAction "BURN" then
      filtered ← match totalTokenUtxos with
                 | Some utxos => filter_tokens (default EmptyString tokenId) utxos
                 | None => TransactionBuilder.no_property
                 end;
      if len filtered =? 0 then Throw (Error "No token UTXOs for the specified token could be found.") else
      '(txBuilder, spent, amount) ← collect_tokens (bn_of_option tokenAmount) filtered txBuilder [] (bn_of_Z 0);
      let remainderTokenValue := bn_minus amount (bn_of_option tokenAmount) in
      if bn_lt remainderTokenValue (bn_of_Z 0)
      then Throw (Error "Insufficient token UTXOs for the specified token amount.")
      else Ok (mkTokenTxInput txBuilder inputs spent remainderXecValue remainderTokenValue)
    else Ok (mkTokenTxInput txBuilder inputs [] remainderXecValue (bn_of_Z 0)).

(** The switch on the kind: the script, the number of outputs it has for tokens
    where that is known, and where the tokens go. *)
Definition token_script (tokenAction : string) (legacyCashOriginAddress : string) (tokenUtxosBeingSpent : list tokenUtxo)
    (tokenConfigObj : option tokenConfig) (tokenRecipientAddress tokenAmount : option string)
    : result (buffer * option Z * option string) :=
  if String.eqb tokenAction "GENESIS" then
    script ← generateGenesisOpReturn tokenConfigObj; Ok (script, None, Some legacyCashOriginAddress)
  else if String.eqb tokenAction "SEND" then
    _ ← (if missing tokenAmount then TransactionBuilder.no_property else Ok tt : result unit);
    '(script, outputs) ← generateSendOpReturn tokenUtxosBeingSpent tokenAmount; Ok (script, Some outputs, tokenRecipientAddress)
  else if String.eqb tokenAction "BURN" then
    script ← generateBurnOpReturn tokenUtxosBeingSpent tokenAmount; Ok (script, None, Some legacyCashOriginAddress)
  else Throw (Error "Invalid token transaction type").

Definition generateTokenTxOutput (txBuilder : txBuilder) (tokenAction legacyCashOriginAddress : string)
    (tokenUtxosBeingSpent : list tokenUtxo) (remainderXecValue : bn) (tokenConfigObj : option tokenConfig)
    (tokenRecipientAddress tokenAmount : option string) : result TxBuilder.txBuilder :=
  if OpReturn.is_empty tokenAction || OpReturn.is_empty legacyCashOriginAddress
  then Throw (Error "Invalid token tx output parameter")
  else
    '(script, outputs, destinationAddress) ←
      token_script tokenAction legacyCashOriginAddress tokenUtxosBeingSpent tokenConfigObj tokenRecipientAddress tokenAmount;
    txBuilder ← addOutput txBuilder (OutScript script) (Some 0);
    txBuilder ← add_optional txBuilder destinationAddress (Some Currency.etokenSats);
    txBuilder ←
      (if negb (String.eqb tokenAction "GENESIS") || match outputs with Some n => n >? 1 | None => false end then
         u ← first tokenUtxosBeingSpent;
         addOutput txBuilder (OutAddress (u_address (tu_utxo u))) (Some Currency.etokenSats)
       else Ok txBuilder);
    if bn_gte remainderXecValue (bn_of_Z Currency.dustSats)
    then addOutput txBuilder (OutAddress legacyCashOriginAddress) (bn_parseInt remainderXecValue)
    else Ok txBuilder.

End S.
End CashMethods.
