(* ===== verification/Drafts.v ===== *)
(** * Transactions before they are signed

    The wallet adds inputs and outputs to a new builder, and signs at the end.
    Until then the builder is a draft: it is determined by the outputs it spends
    and those it creates.  The lemmas say how the operations of [txBuilder.js]
    extend a draft, and when they succeed. *)

From stdpp Require Import base tactics list gmap numbers strings.
From S2P Require Import Prelude JsNumber JsFloat NodeBuffer Opcodes Externals Encodings BufferUtils Crypto Curve Script Asm.
From S2P Require Import Templates TemplateLaws Transaction Sighash ECSignature Ecdsa Address ECPair TransactionBuilder.
From S2P Require Import TransactionBuilderLaws JsString BigNumber OpReturn WalletExternals WalletAddress Wallet TxBuilder.
Import Types Networks Sighash TransactionBuilderLaws TxBuilder.
Open Scope Z_scope.

Module Drafts.

(** An output to spend, and an output to create: the script and the amount. *)
Definition txin_of (p : buffer * Z) : txin := mkTxin p.1 p.2 [] DEFAULT_SEQUENCE [].
Definition txout_of (p : buffer * Z) : txout := mkTxout (Some p.2) None p.1.

(** The script of an output to a hash. *)
Definition hash_script (type : string) (h : buffer) : buffer :=
  if String.eqb type "P2PKH" then [0x76; 0xa9; 0x14] ++ h ++ [0x88; 0xac] else [0xa9; 0x14] ++ h ++ [0x87].

Section S.
Context {Mem : UninitMem} `{TF : !Typeforce} `{VU : !VarUint} `{CH : !CreateHash} `{B66 : !Bip66}
  `{B58 : !Bs58check} `{B32 : !Bech32} `{BI : !Bigi} `{EC : !Ecurve} `{CA : !Cashaddr}.

Record draft (this : txBuilder) (spends pays : list (buffer * Z)) : Prop := {
  d_reach : reachable (Some ecash) None (transaction this);
  d_inputs : inputs (transaction this) = map (λ _, empty_input) spends;
  d_tx : tb_tx (transaction this) = mkTransaction 2 0 (map txin_of spends) (map txout_of pays);
  d_network : tb_network (transaction this) = ecash;
  d_rate : maximumFeeRate (transaction this) = 2500;
  d_p2sh : p2shInput this = false;
}.

(** The script that an output gets: that of the legacy address of a wallet
    address, otherwise what was given. *)
Definition script_of (r : output_ref) : result buffer :=
  match (a ← toLegacyAddress r; Address.toOutputScript a (Some ecash) : result buffer) with
  | Ok s => Ok s
  | Throw _ => match r with OutAddress a => Address.toOutputScript a (Some ecash) | OutScript s => Ok s end
  end.

(** An outpoint that an input can have. *)
Definition outpoint_ok (p : buffer * Z) : Prop :=
  Transaction.isCoinbaseHash p.1 = Ok false ∧ 0 <= p.2 <= 0xffffffff.

Context `{TS : !TypeforceSpec} `{B58S : !Bs58checkSpec}.

Lemma draft_new : draft constructor [] [].
Proof. split; try done. apply reachable_new. Qed.

Lemma every_signature_blank f {A} (l : list A) : TransactionBuilder.every_signature f (map (λ _, empty_input) l) = Ok true.
Proof. unfold TransactionBuilder.every_signature. induction l; [done|]. cbn. done. Qed.

Lemma draft_modify this spends pays : draft this spends pays →
  TransactionBuilder.__canModifyInputs (transaction this) = Ok true ∧
  TransactionBuilder.__canModifyOutputs (transaction this) = Ok true.
Proof.
  intros D. unfold TransactionBuilder.__canModifyInputs, TransactionBuilder.__canModifyOutputs. rewrite (d_inputs _ _ _ D).
  by rewrite !every_signature_blank.
Qed.

(** ** Inputs *)

Lemma draft_spent this spends pays k : draft this spends pays →
  prevTxMap (transaction this) !! k = None ↔ k ∉ spends.
Proof.
  intros D. pose proof (ok_prevouts _ (reachable_ok _ _ _ (d_reach _ _ _ D))) as Hp. rewrite (d_tx _ _ _ D) in Hp. cbn [ins] in Hp.
  split.
  - intros E Hk. apply list_elem_of_lookup in Hk as [n Hn].
    assert (prevTxMap (transaction this) !! k = Some (Z.of_nat n)) as F; [|congruence].
    apply Hp. exists (txin_of k). rewrite at_index_nat, lookup_map, Hn. split; [done|by destruct k].
  - intros Hk. destruct (prevTxMap _ !! k) as [v|] eqn:E; [|done]. exfalso. apply Hk.
    apply Hp in E as (x & Hx & <-). apply at_index_some in Hx as [_ Hx]. rewrite lookup_map in Hx.
    apply fmap_Some in Hx as (p & Hp' & ->). apply list_elem_of_lookup. exists (Z.to_nat v). by destruct p.
Qed.

Lemma map_snoc {A B} (f : A → B) l x : map f (l ++ [x]) = map f l ++ [f x].
Proof. apply map_app. Qed.

(** An input is added to a draft exactly when its outpoint can be one and is not
    spent already. *)
Lemma draft_addInput this spends pays txid vout : draft this spends pays →
  let p := (reverse (Hex.fromHex txid), vout) in
  (outpoint_ok p → p ∉ spends → ∃ this', addInput this (RefHex txid) vout None None = Ok this') ∧
  (∀ this', addInput this (RefHex txid) vout None None = Ok this' →
    outpoint_ok p ∧ (p ∉ spends) ∧ draft this' (spends ++ [p]) pays).
Proof.
  intros D p. destruct (draft_modify _ _ _ D) as [Ei _]. pose proof (draft_spent _ _ _ p D) as Hsp.
  assert (Hlen : length (inputs (transaction this)) = length spends) by (rewrite (d_inputs _ _ _ D); apply length_map).
  split.
  - intros [Hc Hv] Hn. change (Transaction.isCoinbaseHash (reverse (Hex.fromHex txid)) = Ok false) in Hc. cbn [snd p] in Hv.
    unfold addInput, TransactionBuilder.addInput. rewrite Ei. cbn [mbind result_bind negb].
    unfold TransactionBuilder.__addInputUnsafe. fold p. rewrite Hc. cbn [mbind result_bind]. rewrite (proj2 Hsp Hn).
    cbn [TransactionBuilder.derive_prevout in_prevOutScript empty_input mbind result_bind].
    unfold Transaction.addInput, Transaction.isCoinbaseHash in *. destruct (Hash256bit (reverse (Hex.fromHex txid))) eqn:Eh; [|done].
    rewrite !(proj2 (tf_UInt32_spec _)) by (done || by cbn; unfold DEFAULT_SEQUENCE; lia). cbn [andb guard_js mbind result_bind].
    eexists. reflexivity.
  - intros this' E. unfold addInput in E. apply bind_ok in E as ([b n] & Eb & E). injection E as <-. cbn [from_option id] in Eb.
    pose proof Eb as E. unfold TransactionBuilder.addInput in E. rewrite Ei in E. cbn [mbind result_bind negb] in E.
    unfold TransactionBuilder.__addInputUnsafe in E. fold p in E.
    destruct (Transaction.isCoinbaseHash (reverse (Hex.fromHex txid))) as [[]|] eqn:Ec; [done| |done]. cbn [mbind result_bind] in E.
    destruct (prevTxMap (transaction this) !! p) eqn:Em; [done|].
    cbn [TransactionBuilder.derive_prevout in_prevOutScript empty_input mbind result_bind] in E.
    apply bind_ok in E as ([t vin] & Ea & E). injection E as <- <-.
    unfold Transaction.addInput in Ea. apply guard_ok in Ea as [Hg Ea]. rewrite !andb_true_iff in Hg. destruct Hg as [[Hh Hv] _].
    apply tf_UInt32_spec in Hv. injection Ea as <- <-.
    split; [done|]. split; [by apply Hsp|]. destruct D as [D1 D2 D3 D4 D5 D6]. split; [|cbn..]; try done.
    + eapply reachable_step; [exact D1|]. eapply step_input. exact Eb.
    + rewrite D3. cbn [ins]. unfold len. rewrite length_map, Nat2Z.id, take_ge, drop_ge, D2, map_snoc by lia. done.
    + rewrite D3. cbn [version locktime ins outs]. by rewrite map_snoc.
Qed.

(** ** Outputs *)

Definition ref_script (r : output_ref) : result buffer :=
  match r with OutAddress a => Address.toOutputScript a (Some ecash) | OutScript s => Ok s end.

Lemma draft_output this spends pays r v : draft this spends pays →
  (∀ s, ref_script r = Ok s → Satoshi v = true →
    ∃ b n, TransactionBuilder.addOutput (transaction this) r v = Ok (b, n) ∧
      draft (with_transaction this b) spends (pays ++ [(s, v)])) ∧
  (∀ b n, TransactionBuilder.addOutput (transaction this) r v = Ok (b, n) → ∃ s, ref_script r = Ok s ∧ Satoshi v = true).
Proof.
  intros D. destruct (draft_modify _ _ _ D) as [_ Eo].
  assert (Eq : TransactionBuilder.addOutput (transaction this) r v =
    s ← ref_script r; '(tx, n) ← Transaction.addOutput (tb_tx (transaction this)) s v; Ok (set_tx tx (transaction this), n)).
  { unfold TransactionBuilder.addOutput. rewrite Eo, (d_network _ _ _ D). cbn [mbind result_bind negb]. by destruct r. }
  split.
  - intros s Es Hv. rewrite Es in Eq. unfold Transaction.addOutput in Eq. rewrite Hv in Eq. cbn [guard_js mbind result_bind] in Eq.
    eexists _, _. split; [exact Eq|]. destruct D as [D1 D2 D3 D4 D5 D6]. split; [|cbn..]; try done.
    + eapply reachable_step; [exact D1|]. eapply step_output. exact Eq.
    + rewrite D3. cbn [version locktime ins outs]. by rewrite map_snoc.
  - intros b n E. rewrite Eq in E. apply bind_ok in E as (s & Es & E). apply bind_ok in E as ([t k] & E & _).
    apply guard_ok in E as [Hv _]. by exists s.
Qed.

(** An output is added to a draft exactly when it has a script and its amount is
    an amount of satoshis. *)
Lemma draft_addOutput this spends pays r amount : draft this spends pays →
  (∀ s v, script_of r = Ok s → amount = Some v → 0 <= v <= SATOSHI_MAX →
    ∃ this', addOutput this r amount = Ok this' ∧ draft this' spends (pays ++ [(s, v)])) ∧
  (∀ this', addOutput this r amount = Ok this' →
    ∃ s v, script_of r = Ok s ∧ amount = Some v ∧ 0 <= v <= SATOSHI_MAX).
Proof.
  intros D. split.
  - intros s v Es -> Hv%Satoshi_spec. unfold addOutput, amount_of. cbn [from_option id]. unfold script_of in Es.
    destruct (toLegacyAddress r) as [a|e]; cbn [mbind result_bind] in *.
    + destruct (draft_output _ _ _ (OutAddress a) v D) as [O1 O2]. cbn [ref_script] in O1, O2.
      destruct (Address.toOutputScript a (Some ecash)) as [s'|e'] eqn:Ea.
      * injection Es as ->. destruct (O1 s eq_refl Hv) as (b & n & -> & D'). by eexists.
      * destruct (TransactionBuilder.addOutput _ (OutAddress a) v) as [[b n]|] eqn:F; [by destruct (O2 b n eq_refl) as (? & ? & _)|].
        destruct (proj1 (draft_output _ _ _ r v D) s) as (b & n & -> & D'); [by destruct r|done|]. by eexists.
    + destruct (proj1 (draft_output _ _ _ r v D) s) as (b & n & -> & D'); [by destruct r|done|]. by eexists.
  - intros this' E. unfold addOutput in E. apply bind_ok in E as ([b n] & E & _).
    assert (H : ∃ s, script_of r = Ok s ∧ Satoshi (amount_of amount) = true).
    { unfold script_of. destruct (toLegacyAddress r) as [a|e]; cbn [mbind result_bind] in *.
      - destruct (TransactionBuilder.addOutput _ (OutAddress a) _) as [[b' n']|] eqn:F.
        + apply (draft_output _ _ _ (OutAddress a) _ D) in F as (s & F & Hs). cbn [ref_script] in F. rewrite F. by exists s.
        + apply (draft_output _ _ _ r _ D) in E as (s & Er & Hs). destruct (Address.toOutputScript a _) as [s'|]; [by exists s'|].
          exists s. by destruct r.
      - apply (draft_output _ _ _ r _ D) in E as (s & Er & Hs). exists s. by destruct r. }
    destruct H as (s & Hs & Hv%Satoshi_spec). exists s. destruct amount as [v|]; cbn [amount_of from_option id] in Hv; [by exists v|lia].
Qed.

(** An address of the wallet gets the script of its hash. *)
Lemma script_of_address a p t h : ca_decode a = Ok (p, t, h) → t ∈ ca_types → bytes_ok h → blen h = 20 →
  script_of (OutAddress a) = Ok (hash_script t h).
Proof.
  intros Ha Ht Hb Hl. unfold script_of, toLegacyAddress, hash_script. rewrite Ha. cbn [mbind result_bind].
  apply elem_of_cons in Ht as [->|[->|[]%elem_of_nil]%elem_of_cons]; cbn [String.eqb Ascii.eqb Bool.eqb mbind result_bind].
  - change (CoinInfo.v_public _) with 0. destruct (Address.fromBase58Check_to h 0 Hb Hl) as (l & -> & El); [unfold is_byte; lia|]. cbn [mbind result_bind].
    unfold Address.toOutputScript. rewrite El. cbn [default from_option id Z.eqb]. cbn. by rewrite p2pkh_encode_bytes.
  - change (CoinInfo.v_scripthash _) with 5. destruct (Address.fromBase58Check_to h 5 Hb Hl) as (l & -> & El); [unfold is_byte; lia|]. cbn [mbind result_bind].
    unfold Address.toOutputScript. rewrite El. cbn [default from_option id Z.eqb]. cbn. by rewrite p2sh_encode_bytes.
Qed.

(** A script that is given is taken as it is. *)
Lemma script_of_script s : script_of (OutScript s) = Ok s.
Proof. done. Qed.

End S.
End Drafts.
