(* ===== verification/Payments.v ===== *)
(** * Payments

    What [generateTxInput] and [generateTxOutput] of [cashtab/src/utils/cashMethods.js]
    do to a draft: which outputs are spent, and that the amounts add up. *)

From stdpp Require Import base tactics list gmap numbers strings pretty.
From Stdlib Require Import QArith.
From S2P Require Import Prelude JsNumber JsFloat NodeBuffer Opcodes Externals Encodings BufferUtils Crypto Curve Script Asm.
From S2P Require Import Templates TemplateLaws Transaction Sighash ECSignature Ecdsa Address ECPair TransactionBuilder.
From S2P Require Import TransactionBuilderLaws JsString BigNumber OpReturn WalletExternals WalletAddress Wallet Amounts TxBuilder.
From S2P Require Import CashMethods Drafts.
Import Types Networks TxBuilder Amounts CashMethods Drafts.
Open Scope Z_scope.

Module Payments.

(** The outpoint of an output of the wallet, and its value. *)
Definition outpoint_of (u : utxo) : buffer * Z := (reverse (Hex.fromHex (u_txid u)), u_outIdx u).
Definition worth (u : utxo) (v : Z) : Prop := u_value u = pretty v ∧ 0 <= v <= SATOSHI_MAX.

(** The fee for [k] inputs and [o] outputs at the default rate. *)
Definition fee_for (k : nat) (o : Z) : Z := fee_of (byte_count (Z.of_nat k) o).

(** The first [k] of the values cover an amount and the fee. *)
Definition covers (amount o : Z) (vs : list Z) (k : nat) : Prop := amount + fee_for k o <= zsum (take k vs).

Lemma worth_nonneg us vs : Forall2 worth us vs → Forall (Z.le 0) vs.
Proof. induction 1 as [|u v us vs [_ Hv] _ IH]; [constructor|]. constructor; [lia|done]. Qed.

Section S.
Context {Mem : UninitMem} `{TF : !Typeforce} `{VU : !VarUint} `{CH : !CreateHash} `{B66 : !Bip66}
  `{B58 : !Bs58check} `{B32 : !Bech32} `{BI : !Bigi} `{EC : !Ecurve} `{HM : !CreateHmac} `{WF : !Wif}
  `{CA : !Cashaddr} `{BN : !BigNumber} `{SLP : !SlpMdm}.
Context `{TS : !TypeforceSpec} `{B58S : !Bs58checkSpec} `{BNS : !BigNumberSpec}.

Lemma worth_bn u v : worth u v → bn_is (bn_of_string (u_value u)) (inject_Z v).
Proof. intros [-> _]. apply bn_of_string_int. Qed.

Lemma fee_for_range k o : 0 <= o → byte_count (Z.of_nat k) o < 2 ^ 30 → 0 <= fee_for k o < 2 ^ 53.
Proof.
  intros Ho Hb. unfold fee_for. pose proof (fee_of_bounds (byte_count (Z.of_nat k) o)). unfold byte_count in *. lia.
Qed.

Lemma fee_for_pos k o : 0 <= o → 0 < fee_for k o.
Proof. intros Ho. unfold fee_for. pose proof (fee_of_bounds (byte_count (Z.of_nat k) o)). unfold byte_count in *. lia. Qed.

(** ** Choosing the outputs to spend *)

Section Collect.
Context (amount o : Z) (sats : bn) (us : list utxo) (vs : list Z) (sp pays : list (buffer * Z)).
Hypothesis Hsats : bn_is sats (inject_Z amount).
Hypothesis Ho : 0 <= o.
Hypothesis Hus : Forall2 worth us vs.
Hypothesis Hsize : byte_count (len us) o < 2 ^ 30.

(** The state of the loop after the first [k] outputs. *)
Record collected (st : txInputObj) (k : nat) : Prop := {
  c_le : (k <= length us)%nat;
  c_inputs : inputUtxos st = take k us;
  c_total : bn_is (totalInputUtxoValue st) (inject_Z (zsum (take k vs)));
  c_draft : draft (ti_txBuilder st) (sp ++ map outpoint_of (take k us)) pays;
  c_fee : (0 < k)%nat → txFee st = num_of_Z (fee_for k o);
}.

Lemma size_le k : (k <= length us)%nat → byte_count (Z.of_nat k) o < 2 ^ 30.
Proof. intros Hk. unfold byte_count, len in *. lia. Qed.

Lemma worth_lookup k u : us !! k = Some u → ∃ v, vs !! k = Some v ∧ worth u v.
Proof. intros H. destruct (Forall2_lookup_l _ _ _ _ _ Hus H) as (v & Hv & Hw). by exists v. Qed.

(** One round of the loop. *)
Lemma collect_step st k u rest : collected st k → drop k us = u :: rest →
  let p := outpoint_of u in
  ∃ st', (outpoint_ok p → p ∉ sp ++ map outpoint_of (take k us) →
          ∃ b, addInput (ti_txBuilder st) (RefHex (u_txid u)) (u_outIdx u) None None = Ok b) ∧
    ∀ b, addInput (ti_txBuilder st) (RefHex (u_txid u)) (u_outIdx u) None None = Ok b →
      collected (st' b) (S k) ∧
      collect_inputs sats o Currency.defaultFee (u :: rest) st =
        (if amount + fee_for (S k) o <=? zsum (take (S k) vs) then Ok (st' b)
         else collect_inputs sats o Currency.defaultFee rest (st' b)).
Proof.
  intros [C1 C2 C3 C4 C5] Hd p.
  assert (Hu : us !! k = Some u) by (rewrite <- (Nat.add_0_r k), <- lookup_drop, Hd; done).
  destruct (worth_lookup _ _ Hu) as (v & Hv & Hw). pose proof (lookup_lt_Some _ _ _ Hu) as Hlt.
  destruct (draft_addInput _ _ _ (u_txid u) (u_outIdx u) C4) as [A1 A2].
  exists (λ b, mkTxInput b (bn_plus (totalInputUtxoValue st) (bn_of_string (u_value u))) (inputUtxos st ++ [u])
    (calcFee (inputUtxos st ++ [u]) o Currency.defaultFee)).
  split; [exact A1|]. intros b Eb. destruct (A2 b Eb) as (_ & _ & D).
  assert (Ht : take (S k) us = take k us ++ [u]) by by apply take_S_r.
  assert (Hfee : calcFee (inputUtxos st ++ [u]) o Currency.defaultFee = num_of_Z (fee_for (S k) o)).
  { rewrite C2, <- Ht, calcFee_exact; [|done|]; unfold fee_for, len; rewrite length_take, Nat.min_l by lia; [done|].
    apply size_le. lia. }
  assert (Htot : bn_is (bn_plus (totalInputUtxoValue st) (bn_of_string (u_value u))) (inject_Z (zsum (take (S k) vs)))).
  { rewrite (zsum_take_S _ _ _ Hv). apply bn_plus_int; [done|by apply worth_bn]. }
  split.
  - split; cbn [ti_txBuilder totalInputUtxoValue inputUtxos txFee].
    + exact Hlt.
    + by rewrite C2, Ht.
    + exact Htot.
    + by rewrite Ht, map_app, app_assoc.
    + by intros _.
  - cbn [collect_inputs]. rewrite Eb. cbn [mbind result_bind]. rewrite Hfee.
    pose proof (fee_for_range (S k) o Ho (size_le _ Hlt)) as Hr.
    rewrite (bn_gte_int _ _ (zsum (take (S k) vs) - amount - fee_for (S k) o) 0); [| |apply bn_of_Z_is].
    + replace (0 <=? zsum (take (S k) vs) - amount - fee_for (S k) o) with (amount + fee_for (S k) o <=? zsum (take (S k) vs)); [done|].
      apply eq_bool_prop_intro. rewrite !Is_true_true, !Z.leb_le. lia.
    + apply bn_minus_int; [by apply bn_minus_int|by apply bn_of_number_int].
Qed.

(** What the loop returns: the shortest prefix that covers, or all. *)
Lemma collect_spec rest st k r : collected st k → drop k us = rest → collect_inputs sats o Currency.defaultFee rest st = Ok r →
  ∃ m, (k <= m)%nat ∧ (rest ≠ [] → k < m)%nat ∧ collected r m ∧ (∀ j, (k < j < m)%nat → ~ covers amount o vs j) ∧
    (m = length us ∨ covers amount o vs m).
Proof.
  revert st k. induction rest as [|u rest IH]; intros st k C Hd E.
  - cbn in E. injection E as <-. exists k. split_and!; [lia|done|done|lia|]. left.
    apply (f_equal length) in Hd. rewrite length_drop in Hd. cbn in Hd. pose proof (c_le _ _ C). lia.
  - destruct (collect_step _ _ _ _ C Hd) as (st' & _ & Hs).
    destruct (addInput (ti_txBuilder st) (RefHex (u_txid u)) (u_outIdx u) None None) as [b|e] eqn:Eb.
    2: { cbn [collect_inputs] in E. rewrite Eb in E. done. }
    destruct (Hs b eq_refl) as [C' Eq]. rewrite Eq in E.
    destruct (Z.leb_spec (amount + fee_for (S k) o) (zsum (take (S k) vs))) as [Hc|Hc].
    + injection E as <-. exists (S k). split_and!; [lia|lia|done|lia|by right].
    + assert (Hd' : drop (S k) us = rest).
      { replace (S k) with (k + 1)%nat by lia. by rewrite <- drop_drop, Hd. }
      destruct (IH _ _ C' Hd' E) as (m & M1 & M2 & M3 & M4 & M5). exists m. split_and!; [lia|lia|done| |done].
      intros j Hj. destruct (decide (j = S k)) as [->|]; [unfold covers; lia|]. apply M4. lia.
Qed.

Lemma collect_returns rest st k : collected st k → drop k us = rest → NoDup (sp ++ map outpoint_of us) →
  Forall (λ u, outpoint_ok (outpoint_of u)) us → returns (collect_inputs sats o Currency.defaultFee rest st).
Proof.
  intros C Hd Hn Hok. revert st k C Hd. induction rest as [|u rest IH]; intros st k C Hd; [by eexists|].
  destruct (collect_step _ _ _ _ C Hd) as (st' & Ha & Hs).
  assert (Hu : us !! k = Some u) by (rewrite <- (Nat.add_0_r k), <- lookup_drop, Hd; done).
  assert (Hd' : drop (S k) us = rest).
  { replace (S k) with (k + 1)%nat by lia. by rewrite <- drop_drop, Hd. }
  destruct Ha as [b Eb].
  - by apply (Forall_lookup_1 _ _ _ _ Hok Hu).
  - rewrite <- (take_drop k us), Hd, map_app, app_assoc in Hn. apply NoDup_app in Hn as (_ & Hn & _).
    intros Hin. apply (Hn _ Hin). left.
  - destruct (Hs b Eb) as [C' ->]. destruct (_ <=? _); [by eexists|]. by apply (IH _ (S k)).
Qed.

End Collect.

(** The number of outputs that the fee is computed for. *)
Definition planned_outputs (isOneToMany : bool) (rows : option (list string)) : Z :=
  if isOneToMany then len (default [] rows) + 1 else 2.

(** The parameters that [generateTxInput] asks for are given. *)
Definition given (isOneToMany : bool) (rows : option (list string)) : Prop := isOneToMany = true → is_Some rows.

Lemma generateTxInput_eq many us b rows sats : given many rows →
  generateTxInput many us b rows (Some sats) Currency.defaultFee =
    collect_inputs sats (planned_outputs many rows) Currency.defaultFee us (mkTxInput b (bn_of_Z 0) [] (num_of_Z 0)).
Proof.
  intros Hg. unfold generateTxInput. replace (num_truthy Currency.defaultFee) with true by (vm_compute; reflexivity).
  destruct many; [|done]. destruct Hg as [l ->]; done.
Qed.

Lemma collected_0 us vs sp pays o b : draft b sp pays →
  collected o us vs sp pays (mkTxInput b (bn_of_Z 0) [] (num_of_Z 0)) 0.
Proof.
  intros D. split; cbn [inputUtxos totalInputUtxoValue ti_txBuilder]; try done; [lia|apply bn_of_Z_is|by rewrite app_nil_r|lia].
Qed.

Lemma planned_nonneg many rows : 0 <= planned_outputs many rows.
Proof. unfold planned_outputs. destruct many; [|lia]. pose proof (len_nonneg (default [] rows)). lia. Qed.

(** Coin selection.  When the outputs of the wallet have distinct outpoints, of
    which none is spent yet, [generateTxInput] returns: it adds the first outputs
    of the wallet in their order, and as few as cover the amount and the fee for
    that many inputs at 2.01 satoshis per byte, rounded up; all of them when no
    number of them does. *)
Lemma coin_selection many us vs b rows sats amount sp pays :
  let o := planned_outputs many rows in
  given many rows → bn_is sats (inject_Z amount) → Forall2 worth us vs → byte_count (len us) o < 2 ^ 30 →
  draft b sp pays → NoDup (sp ++ map outpoint_of us) → Forall (λ u, outpoint_ok (outpoint_of u)) us →
  ∃ r k, generateTxInput many us b rows (Some sats) Currency.defaultFee = Ok r ∧
    (k <= length us)%nat ∧ (us ≠ [] → 0 < k)%nat ∧
    inputUtxos r = take k us ∧ draft (ti_txBuilder r) (sp ++ map outpoint_of (take k us)) pays ∧
    bn_is (totalInputUtxoValue r) (inject_Z (zsum (take k vs))) ∧
    ((0 < k)%nat → txFee r = num_of_Z (fee_for k o)) ∧
    (∀ j, (0 < j < k)%nat → ~ covers amount o vs j) ∧ (k = length us ∨ covers amount o vs k).
Proof.
  intros o Hg Hs Hw Hb D Hn Hok. rewrite generateTxInput_eq by done. fold o. pose proof (planned_nonneg many rows) as Ho.
  pose proof (collected_0 us vs _ _ o _ D) as C. pose proof (drop_0 us) as Hd.
  destruct (collect_returns amount o sats us vs sp pays Hs Ho Hw Hb us _ 0 C Hd Hn Hok) as [r Er].
  destruct (collect_spec amount o sats us vs sp pays Hs Ho Hw Hb us _ 0 r C Hd Er) as (k & K1 & K2 & [C1 C2 C3 C4 C5] & K4 & K5).
  exists r, k. split_and!; try done.
Qed.

(** ** The outputs of a payment *)

Lemma satoshi_amount_cents x n : cents x n → Z.abs n < 10 ^ 21 → satoshi_amount x = Some n.
Proof.
  intros Hx Hn. unfold satoshi_amount, Currency.cashDecimals. destruct (toSatoshis_cents x n Hx) as (y & -> & Hy). cbn.
  by apply bn_parseInt_int.
Qed.

Lemma satoshi_small n : 0 <= n <= SATOSHI_MAX → Z.abs n < 10 ^ 21.
Proof. unfold SATOSHI_MAX. lia. Qed.

(** The output that a row of a payment to many stands for. *)
Definition row_pays (row : string) (p : buffer * Z) : Prop :=
  script_of (OutAddress (row_address row)) = Ok p.1 ∧ cents (row_value row) p.2 ∧ 0 <= p.2 <= SATOSHI_MAX.

(** The outputs [ps] that a payment asks for. *)
Definition recipients (isOneToMany : bool) (value : bn) (dest : option string) (rows : option (list string))
    (ps : list (buffer * Z)) : Prop :=
  if isOneToMany then ∃ l, rows = Some l ∧ Forall2 row_pays l ps
  else ∃ a s n, dest = Some a ∧ script_of (OutAddress a) = Ok s ∧ cents value n ∧ 0 <= n <= SATOSHI_MAX ∧ ps = [(s, n)].

Lemma add_rows_spec rows ps b sp pays : Forall2 row_pays rows ps → draft b sp pays →
  ∃ b', add_rows rows b = Ok b' ∧ draft b' sp (pays ++ ps).
Proof.
  intros H. revert b pays. induction H as [|row [s n] rows ps (H1 & H2 & H3) _ IH]; intros b pays D.
  - exists b. by rewrite app_nil_r.
  - cbn [add_rows]. rewrite (satoshi_amount_cents _ _ H2) by by apply satoshi_small. cbn [fst snd] in *.
    destruct (proj1 (draft_addOutput _ _ _ _ (Some n) D) s n H1 eq_refl H3) as (b1 & -> & D1). cbn [mbind result_bind].
    destruct (IH b1 _ D1) as (b2 & -> & D2). exists b2. by rewrite <- app_assoc in D2.
Qed.

(** The change that is worth an output. *)
Definition change_outputs (cs : buffer) (remainder : Z) : list (buffer * Z) :=
  if Currency.dustSats <=? remainder then [(cs, remainder)] else [].

(** The outputs of a payment.  Given the value of the inputs, the amount and the
    fee, [generateTxOutput] throws [Insufficient funds] exactly when the inputs
    are worth less than the amount and the fee; otherwise it adds an output for
    each recipient, of the exact amount and in order, and last the change, if it
    is not dust. *)
Lemma payment_outputs many value sats total dest rows change fee b sp pays ps cs amount T F :
  recipients many value dest rows ps → cents value amount → bn_is sats (inject_Z amount) →
  bn_is total (inject_Z T) → T <= SATOSHI_MAX → fee = num_of_Z F → 0 < F < 2 ^ 53 → 0 <= amount →
  change ≠ EmptyString → script_of (OutAddress change) = Ok cs → draft b sp pays →
  let r := generateTxOutput many (Some value) (Some sats) total dest rows change fee b in
  if T <? amount + F then r = Throw (Error "Insufficient funds")
  else ∃ b', r = Ok b' ∧ draft b' sp (pays ++ ps ++ change_outputs cs (T - amount - F)).
Proof.
  intros Hr Hval Hs Ht HT -> HF HA Hc Hcs D r. unfold r, generateTxOutput.
  rewrite num_of_Z_truthy by done. unfold OpReturn.is_empty. rewrite (proj2 (String.eqb_neq _ _)) by done.
  cbn [missing negb orb]. rewrite andb_false_r. cbn [orb].
  replace (many && missing rows) with false by (destruct many; [|done]; by destruct Hr as (l & -> & _)). cbn [orb].
  set (rem := bn_minus _ _). assert (Hrem : bn_is rem (inject_Z (T - amount - F))).
  { unfold rem. apply bn_minus_int; [by apply bn_minus_int|apply bn_of_number_int; lia]. }
  rewrite (bn_lt_int _ _ _ _ Hrem (bn_of_Z_is 0)), (bn_gte_int _ _ _ _ Hrem (bn_of_Z_is _)).
  replace (T - amount - F <? 0) with (T <? amount + F) by (apply eq_bool_prop_intro; rewrite !Is_true_true, !Z.ltb_lt; lia).
  destruct (Z.ltb_spec T (amount + F)); [done|].
  set (m := if many then _ else _). assert (∃ b1, m = Ok b1 ∧ draft b1 sp (pays ++ ps)) as (b1 & -> & D1).
  { unfold m. destruct many.
    - destruct Hr as (l & -> & Hl). by apply add_rows_spec.
    - destruct Hr as (a & s & n & -> & Ha & Hn & Hr & ->). cbn [add_optional mbind option_bind].
      rewrite (satoshi_amount_cents _ _ Hn) by by apply satoshi_small.
      by apply (proj1 (draft_addOutput _ _ _ _ (Some n) D) s n). }
  cbn [mbind result_bind]. unfold change_outputs. destruct (Z.leb_spec Currency.dustSats (T - amount - F)) as [Hd|Hd].
  - rewrite (bn_parseInt_int _ _ Hrem) by (unfold SATOSHI_MAX, Currency.dustSats in *; lia).
    destruct (proj1 (draft_addOutput _ _ _ (OutAddress change) (Some (T - amount - F)) D1) cs (T - amount - F)) as (b2 & -> & D2);
      [done|done|unfold Currency.dustSats in *; lia|].
    exists b2. by rewrite <- app_assoc in D2.
  - exists b1. by rewrite app_nil_r.
Qed.

End S.
End Payments.
