(* ===== verification/Signing.v ===== *)
(** * Signing

    [signUtxosByAddress] and [signAndBuildTx] of [cashtab/src/utils/cashMethods.js] on a
    draft: every input gets a signature by the key of the account it belongs to,
    over the transaction that is built, and the transaction is serialised. *)

From stdpp Require Import base tactics list gmap numbers strings pretty.
From S2P Require Import Prelude JsNumber JsFloat NodeBuffer Opcodes Externals Encodings BufferUtils Crypto Curve Script Asm.
From S2P Require Import Templates TemplateLaws Transaction TransactionLaws Sighash ECSignature Ecdsa Address ECPair TransactionBuilder.
From S2P Require Import TransactionBuilderLaws JsString BigNumber OpReturn WalletExternals WalletAddress Wallet Amounts TxBuilder.
From S2P Require Import CashMethods Drafts Payments.
Import Types Networks TransactionLaws Sighash TransactionBuilderLaws TxBuilder Amounts CashMethods Drafts Payments.
Open Scope Z_scope.

Module Signing.
Section S.
Context {Mem : UninitMem} `{TF : !Typeforce} `{VU : !VarUint} `{CH : !CreateHash} `{B66 : !Bip66}
  `{B58 : !Bs58check} `{B32 : !Bech32} `{BI : !Bigi} `{EC : !Ecurve} `{HM : !CreateHmac} `{WF : !Wif}
  `{CA : !Cashaddr} `{BN : !BigNumber} `{SLP : !SlpMdm}.
Context `{TS : !TypeforceSpec} `{B58S : !Bs58checkSpec} `{VUS : !VarUintSpec} `{CS : !CreateHashSpec} `{B66S : !Bip66Spec}
  `{BS : !BigiSpec} `{ES : !EcurveSpec} `{HS : !CreateHmacSpec}.

(** ** Hashes of drafts *)

Record draft_wf (sp pays : list (buffer * Z)) : Prop := {
  dw_spends : Forall outpoint_ok sp;
  dw_pays : Forall (λ p, 0 <= p.2 <= SATOSHI_MAX ∧ short p.1) pays;
  dw_ins : len sp <= 0xffffffff;
  dw_outs : len pays <= 0xffffffff;
}.

Definition draft_tx (sp pays : list (buffer * Z)) : Transaction.transaction := mkTransaction 2 0 (map txin_of sp) (map txout_of pays).

Lemma outpoint_ok_len p : outpoint_ok p → blen p.1 = 32.
Proof. intros [H _]. unfold Transaction.isCoinbaseHash in H. apply guard_ok in H as [H _]. by apply Hash256bit_spec. Qed.

Lemma draft_valued pays : Forall (λ p, 0 <= p.2 <= SATOSHI_MAX ∧ short p.1) pays → Forall valued (map txout_of pays).
Proof.
  intros H. apply Forall_map. eapply Forall_impl; [exact H|]. intros [s v] [Hv _]. split; [done|]. exists v.
  unfold SATOSHI_MAX, MAX_SAFE_INTEGER in *. cbn in *. split; [done|lia].
Qed.

Lemma draft_tx_wf sp pays : draft_wf sp pays → tx_wf (draft_tx sp pays).
Proof.
  intros [H1 H2 H3 H4]. split; cbn [draft_tx version locktime ins outs]; rewrite ?len_map; unfold uint32, MAX_SAFE_INTEGER; try lia.
  - apply Forall_map. eapply Forall_impl; [exact H1|]. intros p Hp. pose proof (outpoint_ok_len _ Hp). destruct Hp as [_ Hp].
    split; cbn [txin_of in_hash in_index in_script in_sequence in_witness]; unfold uint32, short, DEFAULT_SEQUENCE, MAX_SAFE_INTEGER;
      [done|lia|done|lia|by split; [|constructor]].
  - pose proof (draft_valued _ H2) as Hv. rewrite !Forall_map in *. rewrite Forall_forall in *. intros p Hp.
    split; [left; by apply Hv|by apply H2].
Qed.

Lemma p2pkh_script_len pk : blen (p2pkh_script pk) = 25.
Proof. unfold p2pkh_script. rewrite !blen_app. destruct (Crypto.hash160_ok pk) as [-> _]. done. Qed.

(** The hash that is signed exists for every input. *)
Lemma draft_sighash sp pays (n : nat) pk v : draft_wf sp pays → (n < length sp)%nat → 0 <= v <= SATOSHI_MAX →
  ∃ hash, hashForCashSignature (draft_tx sp pays) (Z.of_nat n) (p2pkh_script pk) (Some v) 0x41 = Ok hash ∧ blen hash = 32.
Proof.
  intros Hw Hn Hv. pose proof (dw_ins _ _ Hw) as Hl. unfold len in Hl.
  destruct (lookup_lt_is_Some_2 sp n Hn) as [p Hp].
  exists (Crypto.hash256 (v0_preimage (draft_tx sp pays) (Z.of_nat n) (txin_of p) (p2pkh_script pk) v 0x41)).
  split; [|apply Crypto.hash256_ok]. unfold hashForCashSignature.
  rewrite (proj2 (tf_UInt32_spec _)), (proj2 (tf_UInt53_spec _)) by (unfold MAX_SAFE_INTEGER; lia).
  change (truthy (js_and 0x41 Transaction.SIGHASH_BITCOINCASHBIP143)) with true. cbv iota.
  apply hashForWitnessV0_spec; try done.
  - by apply draft_tx_wf.
  - apply draft_valued, Hw.
  - unfold uint32. lia.
  - rewrite at_index_nat. cbn [draft_tx ins]. by rewrite lookup_map, Hp.
  - unfold short. rewrite p2pkh_script_len. unfold MAX_SAFE_INTEGER. lia.
Qed.

(** ** Keys *)

(** The key of an output of the wallet: that of the last of its accounts with the
    address. *)
Definition signer (w : wallet) (u : utxo) (p : ecpair) (d : bi) : Prop :=
  ∃ s, getUtxoWif u (Some w) = Ok s ∧ getECPairFromWIF s = Ok p ∧ kp_d p = Some d.

Definition public_of (p : ecpair) (d : bi) : buffer := pt_getEncoded (pt_multiply ec_G d) (kp_compressed p).

Lemma signer_range w u p d : signer w u p d → 0 < bi_Z d < bi_Z ec_n ∧ kp_Q p = None.
Proof.
  intros (s & _ & E & Hd). unfold getECPairFromWIF, ECPair.fromWIF in E.
  apply bind_ok in E as ([[v k] c] & _ & E). apply bind_ok in E as (n & _ & E). unfold ECPair.new in E.
  apply guard_ok in E as [_ E]. cbn zeta in E. destruct (Z.leb_spec (bi_signum (bi_fromBuffer k)) 0) as [|E1]; [done|].
  destruct (bi_compareTo _ _ >=? 0) eqn:E2; [done|]. injection E as <-. cbn in Hd. injection Hd as <-. split; [|done].
  rewrite Z.geb_leb in E2. apply Z.leb_gt in E2. rewrite bi_signum_spec in E1.
  pose proof (bi_compareTo_spec (bi_fromBuffer k) ec_n). lia.
Qed.

(** The public key of a key in range. *)
Lemma public_of_ok p d : 0 < bi_Z d < bi_Z ec_n → kp_d p = Some d → kp_Q p = None →
  ECPair.getPublicKeyBuffer p = Ok (public_of p d) ∧ Script.isCanonicalPubKey (CBuf (public_of p d)) = true ∧
  bytes_ok (public_of p d) ∧ blen (public_of p d) = if kp_compressed p then 33 else 65.
Proof.
  intros Hd Hp HQ. unfold ECPair.getPublicKeyBuffer, ECPair.Q. rewrite Hp, HQ. split; [done|].
  pose proof (ECDSA.dl_generator d Hd) as Hdl. assert (Hnz : ec_dl (pt_multiply ec_G d) ≠ 0) by lia.
  destruct (getEncoded_len (pt_multiply ec_G d) (kp_compressed p) Hnz) as [Hb Hl].
  destruct (getEncoded_tag (pt_multiply ec_G d) (kp_compressed p) Hnz) as (t & r & Et & Ht).
  split_and!; [|done|done]. unfold public_of. cbn [Script.isCanonicalPubKey]. rewrite Et in *. cbv zeta.
  change (get (t :: r) 0) with (Some t). cbn [bits_of default from_option id].
  destruct (kp_compressed p); rewrite Hl; cbn.
  - by destruct Ht as [->| ->].
  - by rewrite Ht.
Qed.

(** ** One signature *)

(** The input that [signUtxosByAddress] leaves: the signature of the key of the
    output over the transaction [T], in script form. *)
Inductive signed_input (w : wallet) (T : Transaction.transaction) (j : nat) (u : utxo) (v : Z) : input → Prop :=
| SignedInput p d hash sig e :
    signer w u p d →
    hashForCashSignature T (Z.of_nat j) (p2pkh_script (public_of p d)) (Some v) 0x41 = Ok hash →
    (∀ Q, ec_dl Q = bi_Z d → ECDSA.verify hash sig Q = Ok true) →
    ECSignature.toScriptSignature sig 0x41 None = Ok e → bytes_ok e → blen e <= 72 →
    Script.isCanonicalSignature (CBuf e) = true →
    signed_input w T j u v (p2pkh_signed (public_of p d) [Some (CBuf e)] v).

(** The script form of a signature that ECDSA made. *)
Lemma signature_form fuel hash d sig : blen hash = 32 → 0 < bi_Z d < bi_Z ec_n → ECDSA.sign fuel hash d = Ok sig →
  ∃ e, ECSignature.toScriptSignature sig 0x41 None = Ok e ∧ bytes_ok e ∧ blen e <= 72 ∧
    Script.isCanonicalSignature (CBuf e) = true ∧ ∀ Q, ec_dl Q = bi_Z d → ECDSA.verify hash sig Q = Ok true.
Proof.
  intros Hh Hd Es. destruct (ECDSA.sign_sound _ _ _ _ Hh Hd Es) as (Hr & Hs & Hl & Hv). pose proof ec_n_256 as Hn.
  destruct (ECSignature.script_signature_form sig 0x41) as (e & sig' & Ee & He & Et & Hc & _ & _).
  - split; lia.
  - unfold is_byte. lia.
  - vm_compute. by split.
  - assert (H256 : 256 ^ 32 = 2 ^ 256) by reflexivity. assert (H255 : 256 ^ 32 = 2 * 2 ^ 255) by reflexivity.
    remember (256 ^ 32) as m eqn:Em. pose proof (ECSignature.toDER_low sig e) as L. rewrite <- H256 in L.
    remember (2 ^ 255) as h eqn:Eh. specialize (L ltac:(lia) ltac:(lia) Ee).
    exists (e ++ [0x41]). split_and!; [done| | |done|done].
    + apply bytes_ok_app. split; [done|]. concrete.
    + rewrite blen_app. change (blen [0x41]) with 1. lia.
Qed.

(** Signing input [j]: it returns when the key signs the hash, and what it leaves
    when it returns. *)
Lemma sign_one fuel w b (j : nat) u v p d sp pays : draft_wf sp pays → tb_tx (transaction b) = draft_tx sp pays →
  (j < length sp)%nat → inputs (transaction b) !! j = Some empty_input → worth u v → signer w u p d →
  let r := sign b (Z.of_nat j) (TransactionBuilder.key_of_pair fuel p) None (Some SIGHASH_ALL) (Some (utxo_amount u)) None in
  (∃ hash, hashForCashSignature (draft_tx sp pays) (Z.of_nat j) (p2pkh_script (public_of p d)) (Some v) 0x41 = Ok hash ∧
     (returns (ECDSA.sign fuel hash d) → r.2 = Ok tt)) ∧
  (r.2 = Ok tt → ∃ i, signed_input w (draft_tx sp pays) j u v i ∧
     r.1 = with_transaction b (TransactionBuilder.replace_input (transaction b) (Z.of_nat j) i)).
Proof.
  intros Hw Ht Hj Hi [Hu Hv] Hs r. destruct (signer_range _ _ _ _ Hs) as [Hd HQ].
  pose proof Hs as (s & _ & _ & Hp). destruct (public_of_ok p d Hd Hp HQ) as (Epk & _ & _ & _).
  destruct (draft_sighash sp pays j (public_of p d) v Hw Hj Hv) as (hash & Eh & Hlen).
  assert (Hval : utxo_amount u = v) by (unfold utxo_amount; by rewrite Hu, parseInt_pretty).
  assert (Eq : ∀ sig e, ECDSA.sign fuel hash d = Ok sig → ECSignature.toScriptSignature sig 0x41 None = Ok e →
    r = (with_transaction b (TransactionBuilder.replace_input (transaction b) (Z.of_nat j)
           (p2pkh_signed (public_of p d) [Some (CBuf e)] v)), Ok tt)).
  { intros sig e Es Ee. unfold r, sign. rewrite Hval.
    rewrite (p2pkh_sign_eq _ j empty_input _ (public_of p d) _ v None hash (KeySignature sig) e); try done.
    - by left.
    - by apply Satoshi_spec.
    - by rewrite Ht.
    - cbn [TransactionBuilder.key_of_pair key_sign]. unfold ECPair.sign. rewrite Hp. cbn [default from_option].
      change (ECSignature.ECDSA =? ECSignature.ECDSA) with true. cbv iota. rewrite Es. done. }
  split.
  - exists hash. split; [done|]. intros [sig Es]. destruct (signature_form _ _ _ _ Hlen Hd Es) as (e & Ee & _).
    by rewrite (Eq sig e).
  - intros Hr. destruct (ECDSA.sign fuel hash d) as [sig|ex] eqn:Es.
    + destruct (signature_form _ _ _ _ Hlen Hd Es) as (e & Ee & E1 & E2 & E3 & E4). rewrite (Eq sig e) by done.
      eexists. split; [|reflexivity]. by apply (SignedInput w _ j u v p d hash sig e).
    + exfalso. revert Hr. unfold r, sign, TransactionBuilder.sign. rewrite Hval, at_index_nat, Hi. cbn [in_redeemScript empty_input].
      cbn [TransactionBuilder.key_of_pair key_public]. rewrite Epk.
      rewrite (p2pkh_prepare _ _ _ (or_introl eq_refl)) by by apply Satoshi_spec.
      unfold TransactionBuilder.sign_ready.
      cbn [in_signScript in_pubKeys in_signatures p2pkh_signed tb_tx TransactionBuilder.replace_input set_inputs].
      rewrite Ht. change (TransactionBuilder.sign_hashType _) with 0x41. rewrite Eh. cbn [mbind result_bind TransactionBuilder.sign_slots].
      unfold buf_equals. rewrite bool_decide_true by done. cbn [negb].
      change (slot_true (default None ([None] !! 0%nat))) with false. cbv iota.
      rewrite (bool_decide_false (_ = Some P2WPKH)), andb_false_r by done.
      cbn [TransactionBuilder.key_of_pair key_sign]. unfold ECPair.sign. rewrite Hp. cbn [default from_option].
      change (ECSignature.ECDSA =? ECSignature.ECDSA) with true. cbv iota. rewrite Es. done.
Qed.

(** ** All signatures *)

Lemma sign_from_cons fuel i u us w b :
  sign_from fuel i (u :: us) w b =
    s ← getUtxoWif u (Some w); p ← getECPairFromWIF s;
    let r := sign b (Z.of_nat i) (TransactionBuilder.key_of_pair fuel p) None (Some SIGHASH_ALL) (Some (utxo_amount u)) None in
    _ ← r.2; sign_from fuel (S i) us w r.1.
Proof.
  cbn [sign_from]. unfold getUtxoWif. rewrite bind_assoc. destruct (filter_accounts _ _) as [m|]; [|done]. cbn [mbind result_bind].
  destruct (last m); [|done]. cbn [mbind result_bind]. destruct (getECPairFromWIF _); [|done]. cbn [mbind result_bind].
  by destruct (sign _ _ _ _ _ _ _).
Qed.

Lemma pair_private s p : getECPairFromWIF s = Ok p → ∃ d, kp_d p = Some d.
Proof.
  intros E. unfold getECPairFromWIF, ECPair.fromWIF in E.
  apply bind_ok in E as ([[v k] c] & _ & E). apply bind_ok in E as (n & _ & E). unfold ECPair.new in E.
  apply guard_ok in E as [_ E]. cbn zeta in E. destruct (_ <=? 0); [done|]. destruct (_ >=? 0); [done|]. injection E as <-. by eexists.
Qed.

Section All.
Context (fuel : nat) (w : wallet) (us : list utxo) (vs : list Z) (pays : list (buffer * Z)).
Let sp := map outpoint_of us.
Let T := draft_tx sp pays.
Hypothesis Hw : draft_wf sp pays.
Hypothesis Hus : Forall2 worth us vs.

(** The builder after the first [i] signatures. *)
Record signed_upto (b : txBuilder) (i : nat) : Prop := {
  su_reach : reachable (Some ecash) None (transaction b);
  su_tx : tb_tx (transaction b) = T;
  su_rate : maximumFeeRate (transaction b) = 2500;
  su_p2sh : p2shInput b = false;
  su_done j u v : (j < i)%nat → us !! j = Some u → vs !! j = Some v →
    ∃ x, inputs (transaction b) !! j = Some x ∧ signed_input w T j u v x;
  su_todo j : (i <= j < length us)%nat → inputs (transaction b) !! j = Some empty_input;
  su_len : length (inputs (transaction b)) = length us;
}.

Lemma signed_0 b : draft b sp pays → signed_upto b 0.
Proof.
  intros [D1 D2 D3 D4 D5 D6]. split; try done; [lia| |].
  - intros j Hj. rewrite D2, lookup_map. unfold sp. rewrite lookup_map.
    destruct (lookup_lt_is_Some_2 us j) as [u ->]; [lia|done].
  - rewrite D2. unfold sp. by rewrite !length_map.
Qed.

Lemma signed_step b i u v p d : signed_upto b i → us !! i = Some u → vs !! i = Some v → signer w u p d →
  let r := sign b (Z.of_nat i) (TransactionBuilder.key_of_pair fuel p) None (Some SIGHASH_ALL) (Some (utxo_amount u)) None in
  (∃ hash, hashForCashSignature T (Z.of_nat i) (p2pkh_script (public_of p d)) (Some v) 0x41 = Ok hash ∧
     (returns (ECDSA.sign fuel hash d) → r.2 = Ok tt)) ∧
  (r.2 = Ok tt → signed_upto r.1 (S i)).
Proof.
  intros [S1 S2 S3 S4 S5 S6 S7] Hu Hv Hs r. pose proof (lookup_lt_Some _ _ _ Hu) as Hlt.
  assert (Hwv : worth u v) by by apply (Forall2_lookup_lr _ _ _ _ _ _ Hus Hu Hv).
  destruct (sign_one fuel w b i u v p d sp pays Hw S2) as [R1 R2].
  - unfold sp. by rewrite length_map.
  - apply S6. lia.
  - done.
  - done.
  - split; [exact R1|]. intros Hr. specialize (R2 Hr). destruct R2 as (x & Hx & E). fold r in E.
    assert (Hre : reachable (Some ecash) None (transaction r.1)).
    { eapply reachable_step; [exact S1|]. unfold r, sign. destruct (TransactionBuilder.sign _ _ _ _ _ _ _ _) as [b' o] eqn:Eb.
      cbn [fst transaction with_transaction]. replace b' with (b', o).1 by done. rewrite <- Eb. apply step_sign. }
    split; [exact Hre|rewrite E; cbn..]; try done.
    + intros j u' v' Hj Hu' Hv'. rewrite Nat2Z.id. destruct (decide (j = i)) as [->|Hne].
      * rewrite Hu in Hu'. rewrite Hv in Hv'. simplify_eq. exists x. rewrite list_lookup_insert_eq by lia. done.
      * rewrite list_lookup_insert_ne by done. apply S5; [lia|done|done].
    + intros j Hj. rewrite Nat2Z.id, list_lookup_insert_ne by lia. apply S6. lia.
    + rewrite length_insert. done.
Qed.

Lemma sign_from_spec i rest b b' : signed_upto b i → drop i us = rest → sign_from fuel i rest w b = Ok b' → signed_upto b' (length us).
Proof.
  revert i b. induction rest as [|u rest IH]; intros i b Hb Hd E.
  - cbn in E. injection E as <-. apply (f_equal length) in Hd. rewrite length_drop in Hd. cbn in Hd.
    destruct Hb as [S1 S2 S3 S4 S5 S6 S7]. split; try done; [|lia]. intros j u v Hj Hu Hv. apply S5; [lia|done|done].
  - assert (Hu : us !! i = Some u) by (rewrite <- (Nat.add_0_r i), <- lookup_drop, Hd; done).
    destruct (Forall2_lookup_l _ _ _ _ _ Hus Hu) as (v & Hv & _).
    rewrite sign_from_cons in E. apply bind_ok in E as (s & Es & E). apply bind_ok in E as (p & Ep & E).
    destruct (pair_private _ _ Ep) as [d Ed]. assert (Hs : signer w u p d) by by exists s.
    destruct (signed_step b i u v p d Hb Hu Hv Hs) as [_ R2]. cbn zeta in E, R2.
    apply bind_ok in E as ([] & Er & E). apply (IH (S i) _ (R2 Er)); [|done].
    replace (S i) with (i + 1)%nat by lia. by rewrite <- drop_drop, Hd.
Qed.

(** The keys of the wallet sign the hashes of the inputs: there is a key for each
    output, and the search for a nonce succeeds. *)
Definition can_sign : Prop := ∀ j u v, us !! j = Some u → vs !! j = Some v → ∃ p d, signer w u p d ∧
  ∀ hash, hashForCashSignature T (Z.of_nat j) (p2pkh_script (public_of p d)) (Some v) 0x41 = Ok hash →
    returns (ECDSA.sign fuel hash d).

Lemma sign_from_returns i rest b : can_sign → signed_upto b i → drop i us = rest → returns (sign_from fuel i rest w b).
Proof.
  intros Hc. revert i b. induction rest as [|u rest IH]; intros i b Hb Hd; [by eexists|].
  assert (Hu : us !! i = Some u) by (rewrite <- (Nat.add_0_r i), <- lookup_drop, Hd; done).
  destruct (Forall2_lookup_l _ _ _ _ _ Hus Hu) as (v & Hv & _). destruct (Hc i u v Hu Hv) as (p & d & Hs & Hk).
  destruct (signed_step b i u v p d Hb Hu Hv Hs) as [(hash & Eh & R1) R2]. cbn zeta in R1, R2.
  specialize (R1 (Hk hash Eh)). specialize (R2 R1). destruct Hs as (s & Es & Ep & _).
  rewrite sign_from_cons, Es. cbn [mbind result_bind]. rewrite Ep. cbn [mbind result_bind]. rewrite R1. cbn [mbind result_bind].
  apply (IH (S i)); [done|]. replace (S i) with (i + 1)%nat by lia. by rewrite <- drop_drop, Hd.
Qed.

End All.
End S.
End Signing.
