(* ===== verification/Built.v ===== *)
(** * The transaction that is sent

    [build] and [toHex] after [signUtxosByAddress]: building goes through when the
    fee is not absurd, the scripts of the inputs unlock the outputs they spend, and
    the transaction is no longer than [getCashtabByteCount] says. *)

From stdpp Require Import base tactics list gmap numbers strings pretty.
From S2P Require Import Prelude JsNumber JsFloat NodeBuffer Opcodes PushData Externals Encodings BufferUtils Crypto Curve Script Asm.
From S2P Require Import Templates TemplateLaws Transaction TransactionLaws Sighash ECSignature Ecdsa Address ECPair TransactionBuilder.
From S2P Require Import TransactionBuilderLaws JsString BigNumber OpReturn WalletExternals WalletAddress Wallet Amounts TxBuilder.
From S2P Require Import CashMethods Drafts Payments Signing.
Import Types Networks TransactionLaws Sighash TransactionBuilderLaws TxBuilder Amounts CashMethods Drafts Payments Signing.
Open Scope Z_scope.

Module Built.
Section S.
Context {Mem : UninitMem} `{TF : !Typeforce} `{VU : !VarUint} `{CH : !CreateHash} `{B66 : !Bip66}
  `{B58 : !Bs58check} `{B32 : !Bech32} `{BI : !Bigi} `{EC : !Ecurve} `{HM : !CreateHmac} `{WF : !Wif}
  `{CA : !Cashaddr} `{BN : !BigNumber} `{SLP : !SlpMdm}.
Context `{TS : !TypeforceSpec} `{B58S : !Bs58checkSpec} `{VUS : !VarUintSpec} `{CS : !CreateHashSpec} `{B66S : !Bip66Spec}
  `{BS : !BigiSpec} `{ES : !EcurveSpec} `{HS : !CreateHmacSpec}.

(** ** The script of an input *)

Lemma push_len b : 2 <= blen b <= 75 → blen (Script.chunk_bytes (CBuf b)) = 1 + blen b.
Proof.
  intros Hb. cbn [Script.chunk_bytes]. assert (Script.asMinimalOP b = None) as ->.
  { unfold Script.asMinimalOP. rewrite (proj2 (Z.eqb_neq _ 0)), (proj2 (Z.eqb_neq _ 1)) by lia. done. }
  rewrite blen_app. unfold PushData.prefix. rewrite (proj2 (Z.ltb_lt _ _)) by (unfold OP_PUSHDATA1; lia). done.
Qed.

(** The script with a signature and a key. *)
Definition unlock (e pk : buffer) : buffer := Script.serialize [CBuf e; CBuf pk].

(** An input of a transaction that spends the output [u] with value [v]. *)
Inductive unlocks (w : wallet) (tx : Transaction.transaction) (j : nat) (u : utxo) (v : Z) (x : txin) : Prop :=
| Unlocks p d hash sig e :
    signer w u p d →
    hashForCashSignature tx (Z.of_nat j) (p2pkh_script (public_of p d)) (Some v) 0x41 = Ok hash →
    (∀ Q, ec_dl Q = bi_Z d → ECDSA.verify hash sig Q = Ok true) →
    ECSignature.toScriptSignature sig 0x41 None = Ok e → bytes_ok e → 2 <= blen e <= 72 →
    in_script x = unlock e (public_of p d) → in_witness x = [] →
    unlocks w tx j u v x.

Lemma signed_build w T j u v i : signed_input w T j u v i →
  ∃ p d hash sig e, signer w u p d ∧
    hashForCashSignature T (Z.of_nat j) (p2pkh_script (public_of p d)) (Some v) 0x41 = Ok hash ∧
    (∀ Q, ec_dl Q = bi_Z d → ECDSA.verify hash sig Q = Ok true) ∧
    ECSignature.toScriptSignature sig 0x41 None = Ok e ∧ bytes_ok e ∧ 2 <= blen e <= 72 ∧
    TransactionBuilder.buildInput i false = Ok (TransactionBuilder.mkBuilt (Some P2PKH) (unlock e (public_of p d)) []) ∧
    in_value i = Some v ∧ in_prevOutType i = Some P2PKH ∧ in_redeemScriptType i = None ∧ in_witnessScriptType i = None.
Proof.
  intros [p d hash sig e Hs Eh Hv Ee He Hl Hc]. destruct (signer_range _ _ _ _ Hs) as [Hd HQ].
  pose proof Hs as (s & _ & _ & Hp). destruct (public_of_ok p d Hd Hp HQ) as (_ & Hk & Hkb & Hkl).
  pose proof (canonical_signature_len e Hc) as Hel. exists p, d, hash, sig, e. split_and!; try done; [lia|].
  destruct (p2pkh_build_eq (public_of p d) e v Hc Hk) as (script & Es & ->).
  rewrite Script.compile_serialize in Es; [by injection Es as <-|].
  repeat constructor; cbn [Script.chunk_wf]; try done; [lia|]. rewrite Hkl. destruct (kp_compressed p); lia.
Qed.

(** ** Building *)

(** An input that [build] can complete. *)
Definition buildable (i : input) : Prop :=
  in_prevOutType i = Some P2PKH ∧ in_redeemScriptType i = None ∧ in_witnessScriptType i = None ∧
  ∃ s, TransactionBuilder.buildInput i false = Ok (TransactionBuilder.mkBuilt (Some P2PKH) s []).

Lemma modify_at_ok {A} (f : A → A) xs (n : nat) : (n < length xs)%nat → modify_at (Z.of_nat n) f xs = Ok (alter f n xs).
Proof.
  intros Hn. unfold modify_at. rewrite (proj2 (Z.leb_le _ _)), (proj2 (Z.ltb_lt _ _)) by (unfold len; lia). cbn [andb].
  by rewrite Nat2Z.id.
Qed.

Lemma build_step_returns n i tx : buildable i → (n < length (ins tx))%nat → returns (TransactionBuilder.build_step false n i tx).
Proof.
  intros (H1 & H2 & H3 & s & Hs) Hn. unfold TransactionBuilder.build_step. rewrite H1, H2, H3, Hs.
  cbn [bool_decide decide_rel negb andb mbind result_bind TransactionBuilder.b_type TransactionBuilder.b_script TransactionBuilder.b_witness].
  rewrite bool_decide_false by done. cbn [andb]. change (TransactionBuilder.supportedType (Some P2PKH)) with true. cbn [negb andb].
  unfold Transaction.setInputScript. rewrite modify_at_ok by done. cbn [mbind result_bind].
  change (TransactionBuilder.stack_buffers []) with (@Ok (list buffer) []). cbn [mbind result_bind].
  unfold Transaction.setWitness. cbn [ins]. rewrite modify_at_ok by by rewrite length_alter. by eexists.
Qed.

Lemma build_steps_returns n l tx : Forall buildable l → (n + length l <= length (ins tx))%nat →
  returns (TransactionBuilder.build_steps false n l tx).
Proof.
  intros Hl. revert n tx. induction Hl as [|i l Hi _ IH]; intros n tx Hn; cbn [length] in Hn; [by eexists|].
  cbn [TransactionBuilder.build_steps]. destruct (build_step_returns n i tx Hi ltac:(lia)) as [tx1 E1]. rewrite E1. cbn [mbind result_bind].
  apply IH. apply build_step_spec in E1 as ([_ _ _ E _] & _). apply (f_equal length) in E. rewrite !length_map in E. lia.
Qed.

(** *** Fees *)

Lemma ushr_le v : 0 <= v → js_ushr v 0 <= v.
Proof. intros Hv. unfold js_ushr, to_uint32. rewrite Z.shiftr_0_r. apply Z.mod_le; lia. Qed.

Lemma incoming_le l vs a : Forall2 (λ i v, in_value i = Some v) l vs → Forall (Z.le 0) vs →
  fold_left (λ a x, a + js_ushr (bits_of (in_value x)) 0) l a <= a + zsum vs.
Proof.
  intros H. revert a. induction H as [|i v l vs Hi _ IH]; intros a Hv; cbn [fold_left].
  - change (zsum []) with 0. lia.
  - apply Forall_cons_1 in Hv as [Hv0 Hv]. rewrite Hi. cbn [bits_of default from_option id].
    pose proof (ushr_le v Hv0). pose proof (IH (a + js_ushr v 0) Hv). change (zsum (v :: vs)) with (v + zsum vs). lia.
Qed.

Lemma mapM_values pays : mapM out_value (map txout_of pays) = Some (map snd pays).
Proof. induction pays as [|[s v] pays IH]; [done|]. cbn. cbn in IH. by rewrite IH. Qed.

Lemma fees_ok st pays vs bytes : Forall2 (λ i v, in_value i = Some v) (inputs st) vs → Forall (Z.le 0) vs →
  outs (tb_tx st) = map txout_of pays → zsum vs - zsum (map snd pays) <= maximumFeeRate st * bytes →
  TransactionBuilder.__overMaximumFees st bytes = false.
Proof.
  intros Hi Hv Ho Hf. unfold TransactionBuilder.__overMaximumFees. rewrite Ho, mapM_values, fold_left_zsum.
  pose proof (incoming_le _ _ 0 Hi Hv). rewrite Z.gtb_ltb. apply Z.ltb_ge. lia.
Qed.

Lemma len_not_nil {A} (l : list A) : l ≠ [] → len l ≠ 0.
Proof. intros H. destruct l; [done|]. rewrite len_cons. pose proof (len_nonneg l). lia. Qed.

(** *** Sizes *)

Lemma vu_len_pos n : 0 <= n <= MAX_SAFE_INTEGER → 1 <= vu_encodingLength n.
Proof.
  intros Hn. rewrite <- vu_bytes_len by done. destruct (vu_bytes_hd n Hn) as (b & r & -> & _). rewrite blen_cons.
  pose proof (blen_nonneg r). lia.
Qed.

Lemma vu_len_small n : 0 <= n < 253 → vu_encodingLength n = 1.
Proof. intros Hn. rewrite <- vu_bytes_len by (unfold MAX_SAFE_INTEGER; lia). by rewrite vu_bytes_small. Qed.

Definition no_witness (tx : Transaction.transaction) : Prop := Forall (λ x, in_witness x = []) (ins tx).

Lemma no_witness_has tx : no_witness tx → Transaction.hasWitnesses tx = false.
Proof. unfold no_witness, Transaction.hasWitnesses. intros H. induction H as [|x l Hx _ IH]; [done|]. cbn. by rewrite Hx, IH. Qed.

Lemma byteLength_eq tx a : no_witness tx → Transaction.__byteLength tx a =
  8 + vu_encodingLength (len (ins tx)) + vu_encodingLength (len (outs tx)) +
  zsum (map (λ x, 40 + Transaction.varSliceSize (in_script x)) (ins tx)) +
  zsum (map (λ o, 8 + Transaction.varSliceSize (out_script o)) (outs tx)).
Proof.
  intros H. unfold Transaction.__byteLength. rewrite no_witness_has, andb_false_r by done. cbv zeta iota.
  rewrite !fold_sum2. unfold zsum. lia.
Qed.

Lemma virtualSize_eq tx : no_witness tx → Transaction.virtualSize tx = Transaction.byteLength tx.
Proof.
  intros H. unfold Transaction.virtualSize, Transaction.weight, Transaction.byteLength. rewrite !byteLength_eq by done.
  set (n := 8 + _ + _ + _ + _). replace (n * 3 + n) with (n * 4) by ring. rewrite <- Z.mul_opp_l, Z.div_mul by lia. lia.
Qed.

Lemma zsum_map_le {A} (f : A → Z) c l : Forall (λ x, f x <= c) l → zsum (map f l) <= c * len l.
Proof.
  induction 1 as [|x l Hx _ IH]; cbn [map]; [unfold zsum, len; cbn; lia|]. rewrite len_cons. change (zsum (f x :: map f l)) with (f x + zsum (map f l)). lia.
Qed.

Lemma zsum_map_ge {A} (f : A → Z) c l : Forall (λ x, c <= f x) l → c * len l <= zsum (map f l).
Proof.
  induction 1 as [|x l Hx _ IH]; cbn [map]; [unfold zsum, len; cbn; lia|]. rewrite len_cons. change (zsum (f x :: map f l)) with (f x + zsum (map f l)). lia.
Qed.

Lemma varSlice_pos s : short s → 1 <= Transaction.varSliceSize s.
Proof. intros Hs. unfold Transaction.varSliceSize. pose proof (blen_nonneg s). pose proof (vu_len_pos (blen s)). unfold short in *. lia. Qed.

Lemma varSlice_small s c : c < 253 → blen s <= c → Transaction.varSliceSize s <= 1 + c.
Proof. intros Hc Hs. unfold Transaction.varSliceSize. pose proof (blen_nonneg s). rewrite vu_len_small by lia. lia. Qed.

(** A transaction has at least 41 bytes per input and 9 per output. *)
Lemma byteLength_ge tx : tx_wf tx → no_witness tx → 10 + 41 * len (ins tx) + 9 * len (outs tx) <= Transaction.byteLength tx.
Proof.
  intros Hw Hn. unfold Transaction.byteLength. rewrite byteLength_eq by done. destruct Hw as [_ _ L1 L2 W1 W2].
  pose proof (vu_len_pos (len (ins tx)) ltac:(split; [apply len_nonneg|done])).
  pose proof (vu_len_pos (len (outs tx)) ltac:(split; [apply len_nonneg|done])).
  pose proof (zsum_map_ge (λ x, 40 + Transaction.varSliceSize (in_script x)) 41 (ins tx)) as H1.
  pose proof (zsum_map_ge (λ o, 8 + Transaction.varSliceSize (out_script o)) 9 (outs tx)) as H2.
  assert (H1' := H1 ltac:(eapply Forall_impl; [exact W1|]; intros x Hx; pose proof (varSlice_pos _ (in_wf_script _ Hx)); cbn; lia)).
  assert (H2' := H2 ltac:(eapply Forall_impl; [exact W2|]; intros x [_ Hx]; pose proof (varSlice_pos _ Hx); cbn; lia)).
  lia.
Qed.

(** With scripts of the sizes of public-key-hash inputs and outputs, and no more
    than 252 of each, it has at most the bytes that the fee is computed for. *)
Lemma byteLength_le tx : no_witness tx → len (ins tx) < 253 → len (outs tx) < 253 →
  Forall (λ x, blen (in_script x) <= 107) (ins tx) → Forall (λ o, blen (out_script o) <= 25) (outs tx) →
  Transaction.byteLength tx <= byte_count (len (ins tx)) (len (outs tx)).
Proof.
  intros Hn L1 L2 W1 W2. unfold Transaction.byteLength, byte_count. rewrite byteLength_eq by done.
  rewrite !vu_len_small by (split; [apply len_nonneg|done]).
  pose proof (zsum_map_le (λ x, 40 + Transaction.varSliceSize (in_script x)) 148 (ins tx)) as H1.
  pose proof (zsum_map_le (λ o, 8 + Transaction.varSliceSize (out_script o)) 34 (outs tx)) as H2.
  assert (H1' := H1 ltac:(eapply Forall_impl; [exact W1|]; intros x Hx; pose proof (varSlice_small _ 107 ltac:(lia) Hx); cbn; lia)).
  assert (H2' := H2 ltac:(eapply Forall_impl; [exact W2|]; intros x Hx; pose proof (varSlice_small _ 25 ltac:(lia) Hx); cbn; lia)).
  lia.
Qed.

(** *** Bytes *)

Lemma bytes_ok_concat {A} (f : A → buffer) l : Forall (λ x, bytes_ok (f x)) l → bytes_ok (concat (map f l)).
Proof. induction 1; cbn; [constructor|]. by apply bytes_ok_app. Qed.

Lemma bytes_ok_varslice s : short s → bytes_ok s → bytes_ok (varslice_bytes s).
Proof. intros Hs Hb. apply bytes_ok_app. split; [|done]. apply vu_bytes_ok. split; [apply blen_nonneg|done]. Qed.

Lemma bytes_ok_tx tx w : tx_wf tx → no_witness tx → Forall (λ i, bytes_ok (in_hash i) ∧ bytes_ok (in_script i)) (ins tx) →
  Forall (λ o, valued o ∧ bytes_ok (out_script o)) (outs tx) → bytes_ok (tx_bytes tx w).
Proof.
  intros [_ _ L1 L2 W1 W2] Hn Hi Ho. unfold tx_bytes. rewrite no_witness_has, andb_false_r by done. cbv zeta iota.
  assert (Hvu : ∀ n, 0 <= n <= MAX_SAFE_INTEGER → bytes_ok (vu_bytes n)) by apply vu_bytes_ok.
  rewrite !bytes_ok_app. split_and!; [auto with js|constructor|by apply Hvu; auto with js| |by apply Hvu; auto with js| |constructor|auto with js].
  - apply bytes_ok_concat. rewrite Forall_forall in *. intros x Hx. destruct (Hi x Hx) as [H1 H2]. unfold in_bytes.
    rewrite !bytes_ok_app. split_and!; auto with js. apply bytes_ok_varslice; [|done]. by apply in_wf_script, W1.
  - apply bytes_ok_concat. rewrite Forall_forall in *. intros x Hx. destruct (Ho x Hx) as [[H1 _] H2]. unfold out_bytes, amount_bytes.
    rewrite H1, !bytes_ok_app. split_and!; auto with js. apply bytes_ok_varslice; [|done]. by apply W2.
Qed.

(** ** The result of signing and building *)

Section Build.
Context (w : wallet) (us : list utxo) (vs : list Z) (pays : list (buffer * Z)).
Let sp := map outpoint_of us.
Let T := draft_tx sp pays.
Hypothesis Hw : draft_wf sp pays.
Hypothesis Hus : Forall2 worth us vs.

(** The transaction [tx] is the draft with scripts that unlock its inputs. *)
Record final (tx : Transaction.transaction) : Prop := {
  f_same : same_but_scripts T tx;
  f_unlocks j u v : us !! j = Some u → vs !! j = Some v → ∃ x, ins tx !! j = Some x ∧ unlocks w tx j u v x;
}.

Lemma final_len tx : final tx → length (ins tx) = length us.
Proof. intros [[_ _ _ E _] _]. apply (f_equal length) in E. unfold T, draft_tx, sp in E. cbn in E. by rewrite !length_map in E. Qed.

(** Each input, with the output it spends. *)
Lemma final_input tx x : final tx → x ∈ ins tx → ∃ j u v, us !! j = Some u ∧ vs !! j = Some v ∧
  ins tx !! j = Some x ∧ outpoint x = outpoint_of u ∧ in_sequence x = DEFAULT_SEQUENCE ∧ unlocks w tx j u v x.
Proof.
  intros F Hx. apply list_elem_of_lookup in Hx as [j Hj]. pose proof (lookup_lt_Some _ _ _ Hj) as Hlt. rewrite (final_len _ F) in Hlt.
  destruct (lookup_lt_is_Some_2 us j Hlt) as [u Hu]. destruct (Forall2_lookup_l _ _ _ _ _ Hus Hu) as (v & Hv & _).
  destruct (f_unlocks _ F j u v Hu Hv) as (x' & Hx' & Hun). rewrite Hj in Hx'. injection Hx' as <-.
  exists j, u, v. destruct (f_same _ F) as [_ _ _ E4 E5]. unfold T, draft_tx, sp in E4, E5. cbn [ins] in E4, E5.
  assert (F4 := f_equal (λ l, l !! j) E4). assert (F5 := f_equal (λ l, l !! j) E5). cbn beta in F4, F5.
  rewrite !lookup_map, Hu, Hj in F4. rewrite !lookup_map, Hu, Hj in F5. cbn in F4, F5.
  injection F4 as F4a F4b. injection F5 as F5. split_and!; try done. unfold outpoint, outpoint_of. congruence.
Qed.

Lemma steps_final b tx : signed_upto w us vs pays b (length us) →
  TransactionBuilder.build_steps false 0 (inputs (transaction b)) (Transaction.clone T) = Ok tx → final tx.
Proof.
  intros [S1 S2 S3 S4 S5 S6 S7] Es. destruct (build_steps_spec _ _ _ _ _ Es) as (B1 & B2 & _).
  assert (Hsame : same_but_scripts T tx).
  { etransitivity; [|exact B1]. apply clone_same. unfold T, draft_tx. cbn [outs]. apply Forall_map, Forall_true. done. }
  split; [done|]. intros j u v Hu Hv. destruct (S5 j u v) as (i & Hi & Hs); [by eapply lookup_lt_Some|done|done|].
  destruct (B2 j i Hi) as (r & ww & x & Er & Ew & Ex & Ex1 & Ex2). cbn [Nat.add] in Ex. exists x. split; [done|].
  destruct (signed_build _ _ _ _ _ _ Hs) as (p & d & hash & sig & e & H1 & H2 & H3 & H4 & H5 & H6 & H7 & _).
  rewrite H7 in Er. injection Er as <-. injection Ew as <-.
  apply (Unlocks w tx j u v x p d hash sig e); try done.
  rewrite <- H2. symmetry. apply hashForCashSignature_view. by apply same_view.
Qed.

Lemma unlock_len e pk : 2 <= blen e <= 72 → blen pk = 33 ∨ blen pk = 65 → blen (unlock e pk) = 2 + blen e + blen pk.
Proof.
  intros He Hk. unfold unlock, Script.serialize. cbn [map concat]. rewrite app_nil_r, blen_app, !push_len by lia. lia.
Qed.

Lemma unlocks_script tx j u v x : unlocks w tx j u v x →
  in_witness x = [] ∧ bytes_ok (in_script x) ∧ blen (in_script x) <= 139 ∧
  ((∀ p d, signer w u p d → kp_compressed p = true) → blen (in_script x) <= 107).
Proof.
  intros [p d hash sig e H1 H2 H3 H4 H5 H6 H7 H8]. destruct (signer_range _ _ _ _ H1) as [Hd HQ].
  pose proof H1 as (s & _ & _ & Hp). destruct (public_of_ok p d Hd Hp HQ) as (_ & _ & Hkb & Hkl).
  rewrite H7, unlock_len by (destruct (kp_compressed p); lia). split_and!; [done| |destruct (kp_compressed p); lia|].
  - unfold unlock, Script.serialize. cbn [map concat]. rewrite app_nil_r, bytes_ok_app.
    split; apply Script.bytes_ok_chunk_bytes; cbn [Script.chunk_wf]; (split; [done|]); [lia|]. destruct (kp_compressed p); lia.
  - intros Hc. rewrite (Hc p d H1) in Hkl. lia.
Qed.

Lemma final_wf tx : final tx → tx_wf tx ∧ no_witness tx ∧ Forall valued (outs tx) ∧
  Forall (λ i, bytes_ok (in_hash i) ∧ bytes_ok (in_script i)) (ins tx).
Proof.
  intros F. pose proof (draft_tx_wf _ _ Hw) as [W1 W2 W3 W4 W5 W6]. pose proof (f_same _ F) as [E1 E2 E3 E4 E5].
  assert (Hlen : len (ins tx) = len (ins (draft_tx sp pays))) by (unfold len; apply (f_equal length) in E4; rewrite !length_map in E4; unfold T in E4; lia).
  split_and!.
  - split; [by rewrite <- E1|by rewrite <- E2|by rewrite Hlen|by rewrite <- E3| |by rewrite <- E3].
    rewrite Forall_forall. intros x Hx. destruct (final_input _ _ F Hx) as (j & u & v & Hu & _ & _ & Eo & Eq & Hun).
    destruct (unlocks_script _ _ _ _ _ Hun) as (Hwit & _ & Hl & _). injection Eo as Eo1 Eo2.
    pose proof (dw_spends _ _ Hw) as Hok. unfold sp in Hok. rewrite Forall_map in Hok.
    pose proof (Forall_lookup_1 _ _ _ _ Hok Hu) as Ho. pose proof (outpoint_ok_len _ Ho) as Hol. destruct Ho as [_ Ho].
    unfold outpoint_of in Ho, Hol. cbn [fst snd] in Ho, Hol.
    split; unfold uint32, short, MAX_SAFE_INTEGER; [by rewrite Eo1|lia|lia|rewrite Eq; unfold DEFAULT_SEQUENCE; lia|rewrite Hwit; done].
  - unfold no_witness. rewrite Forall_forall. intros x Hx. destruct (final_input _ _ F Hx) as (j & u & v & _ & _ & _ & _ & _ & Hun).
    by apply unlocks_script in Hun as [? _].
  - rewrite <- E3. apply draft_valued, Hw.
  - rewrite Forall_forall. intros x Hx. destruct (final_input _ _ F Hx) as (j & u & v & _ & _ & _ & Eo & _ & Hun).
    apply unlocks_script in Hun as (_ & Hb & _). split; [|done]. injection Eo as -> _. apply bytes_ok_reverse, Hex.fromHex_ok.
Qed.

Lemma build_returns b : signed_upto w us vs pays b (length us) → us ≠ [] → pays ≠ [] →
  zsum vs - zsum (map snd pays) <= 2500 * (10 + 41 * len us + 9 * len pays) → returns (TxBuilder.build b).
Proof.
  intros Hb Hne Hpn Hf. pose proof Hb as [S1 S2 S3 S4 S5 S6 S7].
  assert (HB : Forall2 (λ i v, buildable i ∧ in_value i = Some v) (inputs (transaction b)) vs).
  { apply Forall2_same_length_lookup_2; [by rewrite S7; apply Forall2_length in Hus|]. intros j i v Hi Hv.
    destruct (lookup_lt_is_Some_2 us j) as [u Hu]; [rewrite <- S7; by eapply lookup_lt_Some|].
    destruct (S5 j u v) as (i' & Hi' & Hs); [by eapply lookup_lt_Some|done|done|]. rewrite Hi in Hi'. injection Hi' as <-.
    destruct (signed_build _ _ _ _ _ _ Hs) as (p & d & hash & sig & e & _ & _ & _ & _ & _ & _ & H7 & H8 & H9 & H10 & H11).
    split; [|done]. split_and!; try done. by eexists. }
  assert (Hl : length (inputs (transaction b)) = length (ins T)) by (rewrite S7; unfold T, draft_tx, sp; cbn; by rewrite !length_map).
  destruct (build_steps_returns 0 (inputs (transaction b)) (Transaction.clone T)) as [tx Et].
  { apply Forall_forall. intros i Hi. apply list_elem_of_lookup in Hi as [j Hj].
    destruct (Forall2_lookup_l _ _ _ _ _ HB Hj) as (v & _ & [H _]). done. }
  { cbn [Transaction.clone ins]. rewrite length_map, Hl. done. }
  assert (E : ∀ fees, TransactionBuilder.__overMaximumFees (transaction b) (Transaction.virtualSize tx) = fees →
    TxBuilder.build b = if fees then Throw (Error "Transaction has absurd fees") else Ok tx).
  { intros fees Ef. unfold TxBuilder.build. rewrite S4. unfold TransactionBuilder.build, TransactionBuilder.__build. rewrite S2.
    unfold T, draft_tx, sp. cbn [ins outs]. rewrite !len_map. cbn [orb].
    rewrite !(proj2 (Z.eqb_neq _ _)) by by apply len_not_nil. cbn [negb guard_js mbind result_bind].
    fold sp. fold T. change (mkTransaction 2 0 (map txin_of sp) (map txout_of pays)) with T. rewrite Et. cbn [mbind result_bind]. by rewrite Ef. }
  pose proof (steps_final b tx Hb Et) as F. destruct (final_wf _ F) as (W1 & W2 & _ & _).
  rewrite (E false); [by eexists|]. apply (fees_ok _ pays vs).
  - eapply Forall2_impl; [exact HB|]. by intros i v [_ Hv].
  - by eapply worth_nonneg.
  - by rewrite S2.
  - rewrite S3, virtualSize_eq by done. pose proof (byteLength_ge tx W1 W2) as Hge.
    assert (L1 : len (ins tx) = len us) by (unfold len; by rewrite (final_len _ F)).
    assert (L2 : len (outs tx) = len pays) by (rewrite <- (sb_outs _ _ (f_same _ F)); apply len_map). lia.
Qed.

Lemma build_final b tx : signed_upto w us vs pays b (length us) → TxBuilder.build b = Ok tx → final tx.
Proof.
  intros S1 Et. unfold TxBuilder.build in Et. rewrite (su_p2sh _ _ _ _ _ _ S1) in Et.
  unfold TransactionBuilder.build, TransactionBuilder.__build in Et.
  apply guard_ok in Et as [_ Et]. apply guard_ok in Et as [_ Et]. apply bind_ok in Et as (tx' & Es' & Et).
  destruct (_ && _); [done|]. injection Et as <-. rewrite (su_tx _ _ _ _ _ _ S1) in Es'. by apply (steps_final b).
Qed.

(** The text of the transaction is read back. *)
Lemma final_hex tx : final tx → us ≠ [] → Forall (λ p, bytes_ok p.1) pays →
  ∃ hex, Transaction.toHex tx = Ok hex ∧ Transaction.fromHex hex = Ok tx ∧ hex = Hex.toHex (tx_bytes tx true).
Proof.
  intros F Hne Hb. destruct (final_wf _ F) as (W1 & W2 & W3 & W4).
  exists (Hex.toHex (tx_bytes tx true)). unfold Transaction.toHex, Transaction.toBuffer, Transaction.fromHex.
  rewrite toBuffer_fresh by done. cbn [mbind result_bind]. split_and!; [done| |done].
  rewrite Hex.fromHex_toHex; [apply fromBuffer_bytes; try done|].
  - intros E. apply (f_equal length) in E. rewrite (final_len _ F) in E. by apply nil_length_inv in E.
  - apply bytes_ok_tx; try done. rewrite <- (sb_outs _ _ (f_same _ F)) in *. unfold T, draft_tx in *. cbn [outs] in *.
    rewrite Forall_map in *. rewrite Forall_forall in *. intros p Hp. split; [by apply W3|by apply Hb].
Qed.

(** Signing and building a draft whose fee is not absurd. *)
Lemma signAndBuildTx_returns fuel b : draft b sp pays → us ≠ [] → pays ≠ [] → Forall (λ p, bytes_ok p.1) pays →
  zsum vs - zsum (map snd pays) <= 2500 * (10 + 41 * len us + 9 * len pays) → can_sign fuel w us vs pays →
  ∃ hex tx, signAndBuildTx fuel us b w = Ok hex ∧ Transaction.fromHex hex = Ok tx ∧ final tx ∧ hex = Hex.toHex (tx_bytes tx true).
Proof.
  intros D Hne Hpn Hb Hf Hc. pose proof (signed_0 w us vs pays b D) as S0.
  destruct (sign_from_returns fuel w us vs pays Hw Hus 0 us b Hc S0 (drop_0 us)) as [b' Es].
  pose proof (sign_from_spec fuel w us vs pays Hw Hus 0 us b b' S0 (drop_0 us) Es) as S1.
  destruct (build_returns b' S1 Hne Hpn Hf) as [tx Et].
  pose proof (build_final b' tx S1 Et) as F.
  destruct (final_hex tx F Hne Hb) as (hex & Eh & Ef & Ehex). exists hex, tx. split_and!; try done.
  unfold signAndBuildTx, signUtxosByAddress. rewrite (d_tx _ _ _ D). cbn [outs]. rewrite len_map.
  rewrite !(proj2 (Z.eqb_neq _ _)) by by apply len_not_nil. cbn [orb]. rewrite Es.
  cbn [mbind result_bind]. unfold build_hex. rewrite Et. cbn [mbind result_bind]. by rewrite Eh.
Qed.

(** What signing and building returned, when it did. *)
Lemma signAndBuildTx_inv fuel b hex : draft b sp pays → Forall (λ p, bytes_ok p.1) pays → signAndBuildTx fuel us b w = Ok hex →
  ∃ tx, Transaction.fromHex hex = Ok tx ∧ final tx ∧ hex = Hex.toHex (tx_bytes tx true).
Proof.
  intros D Hb E. unfold signAndBuildTx, signUtxosByAddress in E. destruct (_ || _) eqn:Eg; [done|].
  apply bind_ok in E as (b' & Es & E). pose proof (signed_0 w us vs pays b D) as S0.
  pose proof (sign_from_spec fuel w us vs pays Hw Hus 0 us b b' S0 (drop_0 us) Es) as S1.
  unfold build_hex in E. destruct (TxBuilder.build b') as [tx|] eqn:Et; [|done]. cbn [mbind result_bind] in E.
  pose proof (build_final b' tx S1 Et) as F.
  assert (Hne : us ≠ []).
  { intros Eu. apply orb_false_iff in Eg as [Eg _]. by rewrite Eu in Eg. }
  destruct (final_hex tx F Hne Hb) as (hex' & Eh & Ef & Ehex).
  rewrite Eh in E. injection E as <-. by exists tx.
Qed.

(** The size that the fee was computed for covers the transaction. *)
Lemma final_size tx : final tx → len us < 253 → len pays < 253 →
  (∀ u p d, u ∈ us → signer w u p d → kp_compressed p = true) → Forall (λ p, blen p.1 <= 25) pays →
  Transaction.byteLength tx <= byte_count (len us) (len pays).
Proof.
  intros F L1 L2 Hc Hp. destruct (final_wf _ F) as (W1 & W2 & _ & _).
  assert (E1 : len (ins tx) = len us) by (unfold len; by rewrite (final_len _ F)).
  assert (E2 : len (outs tx) = len pays) by (rewrite <- (sb_outs _ _ (f_same _ F)); apply len_map).
  rewrite <- E1, <- E2 in *. apply byteLength_le; try done.
  - rewrite Forall_forall. intros x Hx. destruct (final_input _ _ F Hx) as (j & u & v & Hu & _ & _ & _ & _ & Hun).
    apply unlocks_script in Hun as (_ & _ & _ & Hl). apply Hl. intros p d. apply Hc. by eapply list_elem_of_lookup_2.
  - rewrite <- (sb_outs _ _ (f_same _ F)). unfold T, draft_tx. cbn [outs]. by apply Forall_map.
Qed.

End Build.
End S.
End Built.
