(* ===== verification/Send.v ===== *)
(** * Sending

    [cashtab/src/utils/transactions.js]: payments, new tokens, sending and burning
    tokens.  Each operation makes a transaction from the outputs of the wallet and
    gives it to chronik.  The model keeps what was broadcast next to the outcome. *)

From stdpp Require Import base tactics list gmap numbers strings.
From S2P Require Import Prelude JsNumber JsFloat NodeBuffer Opcodes Externals Encodings BufferUtils Crypto Curve Script Asm.
From S2P Require Import Templates Transaction Sighash ECSignature Ecdsa Address ECPair TransactionBuilder.
From S2P Require Import JsString BigNumber OpReturn WalletExternals WalletAddress Wallet Amounts TxBuilder CashMethods.
Import Types Networks TxBuilder Amounts CashMethods.
Open Scope Z_scope.

Module Send.

(** ** Outcomes *)

Definition INSUFFICIENT_FUNDS : Z := 0.
Definition NETWORK_ERROR : Z := 1.
Definition INSUFFICIENT_PRIORITY : Z := 66.
Definition DOUBLE_SPENDING : Z := 18.
Definition MAX_UNCONFIRMED_TXS : Z := 64.

(** A link to the transaction, or an exception and the field [code] it gets. *)
Inductive outcome :=
| Sent (link : string)
| Failed (e : js_exn) (code : option Z).

(** The calls of [broadcastTx] and the outcome. *)
Record sent := mkSent { broadcasts : list (string * bool); returned : outcome }.

(** The [catch] block of [createToken] and [sendXec]. *)
Definition error_code (error : option string) : option Z :=
  match error with
  | None => None
  | Some s =>
      if String.eqb s "insufficient priority (code 66)" then Some INSUFFICIENT_PRIORITY
      else if String.eqb s "txn-mempool-conflict (code 18)" then Some DOUBLE_SPENDING
      else if String.eqb s "Network Error" then Some NETWORK_ERROR
      else if String.eqb s "too-long-mempool-chain, too many unconfirmed ancestors [limit: 25] (code 64)"
           then Some MAX_UNCONFIRMED_TXS
      else None
  end.

Definition link_of (txid : string) : string := String.append Currency.blockExplorerUrl (String.append "/tx/" txid).

(** Broadcasting and what follows; [codes] says whether the operation sets codes. *)
Definition broadcast (chronik : chronik) (rawTxHex : string) (skipSlpCheck codes : bool) : sent :=
  mkSent [(rawTxHex, skipSlpCheck)]
    match broadcastTx chronik rawTxHex skipSlpCheck with
    | inl (Some txid) => Sent (link_of txid)
    | inl None => Failed (Error "Empty chronik broadcast response") None
    | inr f => Failed (f_exn f) (if codes then error_code (f_error f) else None)
    end.

(** A transaction that could not be made is not broadcast; the exceptions of the
    wallet have no field [error], so that no code is set. *)
Definition send_raw (chronik : chronik) (raw : result string) (skipSlpCheck codes : bool) : sent :=
  match raw with
  | Ok rawTxHex => broadcast chronik rawTxHex skipSlpCheck codes
  | Throw e => mkSent [] (Failed e None)
  end.

Section S.
Context {Mem : UninitMem} `{TF : !Typeforce} `{VU : !VarUint} `{CH : !CreateHash} `{B66 : !Bip66}
  `{B58 : !Bs58check} `{B32 : !Bech32} `{BI : !Bigi} `{EC : !Ecurve} `{HM : !CreateHmac} `{WF : !Wif}
  `{CA : !Cashaddr} `{BN : !BigNumber} `{SLP : !SlpMdm} `{BS58 : !Bs58} `{EI : !Ecies}.

(** ** Stored wallets *)

(** The type of [state] has the fields; what is checked is which are there. *)
Definition isValidStoredWallet (wallet : wallet) : bool :=
  match w_state wallet with
  | None => false
  | Some state =>
      negb (missing (ws_balances state)) && negb (ws_hydratedUtxoDetails state) &&
      (negb (missing (ws_slpBalancesAndUtxos state)) ||
       (negb (missing (ws_slpUtxos state)) && negb (missing (ws_nonSlpUtxos state)))) &&
      negb (missing (ws_tokens state))
  end.

(** [wallet.Path1899.cashAddress] *)
Definition creation_address (wallet : wallet) : result string :=
  match Path1899 wallet with Some a => Ok (cashAddress a) | None => TransactionBuilder.no_property end.

(** ** Tokens *)

(** The transaction of [createToken].  A [state] without [nonSlpUtxos] leaves
    [utxos] undefined, which [generateTokenTxInput] refuses first of all. *)
Definition createToken_raw (fuel : nat) (wallet : wallet) (feeInSatsPerByte : number) (configObj : option tokenConfig) : result string :=
  if negb (isValidStoredWallet wallet) then Throw (Error "Invalid wallet") else
  CREATION_ADDR ← creation_address wallet;
  utxos ← match w_state wallet ≫= ws_nonSlpUtxos with
          | Some utxos => Ok utxos
          | None => Throw (Error "Invalid token tx input parameter")
          end;
  input ← generateTokenTxInput "GENESIS" utxos None None None feeInSatsPerByte constructor;
  txBuilder ← generateTokenTxOutput (tti_txBuilder input) "GENESIS" CREATION_ADDR [] (remainderXecValue input) configObj None None;
  signAndBuildTx fuel (inputXecUtxos input) txBuilder wallet.

Definition createToken (fuel : nat) (chronik : chronik) (wallet : wallet) (feeInSatsPerByte : number)
    (configObj : option tokenConfig) : sent :=
  send_raw chronik (createToken_raw fuel wallet feeInSatsPerByte configObj) true true.

(** The transaction of [sendToken] and [burnToken], which differ in the action, in
    the address of the tokens and in a message. *)
Definition token_raw (fuel : nat) (tokenAction message : string) (wallet : wallet) (tokenId amount : option string)
    (tokenReceiverAddress : option string) : result string :=
  state ← match w_state wallet with Some s => Ok s | None => TransactionBuilder.no_property end;
  CREATION_ADDR ← creation_address wallet;
  match ws_nonSlpUtxos state with
  | None | Some [] => Throw (Error message)
  | Some nonSlpUtxos =>
      input ← generateTokenTxInput tokenAction nonSlpUtxos (ws_slpUtxos state) tokenId amount Currency.defaultFee constructor;
      txBuilder ← generateTokenTxOutput (tti_txBuilder input) tokenAction CREATION_ADDR (inputTokenUtxos input)
                    (remainderXecValue input) None tokenReceiverAddress amount;
      let combinedInputUtxos := inputXecUtxos input ++ map tu_utxo (inputTokenUtxos input) in
      signAndBuildTx fuel combinedInputUtxos txBuilder wallet
  end.

Definition sendToken (fuel : nat) (chronik : chronik) (wallet : wallet) (tokenId amount tokenReceiverAddress : option string) : sent :=
  send_raw chronik (token_raw fuel "SEND" (String.append "You need some " (String.append Currency.ticker (String.append " to send " Currency.tokenTicker))) wallet tokenId amount tokenReceiverAddress) true false.

Definition burnToken (fuel : nat) (chronik : chronik) (wallet : wallet) (tokenId amount : option string) : sent :=
  send_raw chronik (token_raw fuel "BURN" (String.append "You need some " (String.append Currency.ticker " to burn eTokens")) wallet tokenId amount None) true false.

(** ** Payments *)

(** The first input of a transaction whose script includes the hash: the last 66
    characters of its [inputScript].  An input without a script to spend has no
    method [includes]. *)
Fixpoint find_input (hash : string) (inputs : list chronikInput) : result (option string) :=
  match inputs with
  | [] => Ok None
  | i :: inputs =>
      match ci_outputScript i with
      | None => TransactionBuilder.no_property
      | Some s => if includes s hash then Ok (Some (str_slice (ci_inputScript i) (-66))) else find_input hash inputs
      end
  end.

Fixpoint find_outgoing (hash : string) (txs : list chronikTx) : result string :=
  match txs with
  | [] => Throw (Error "Cannot send an encrypted message to a wallet with no outgoing transactions in the last 20 txs")
  | tx :: txs =>
      found ← find_input hash (ct_inputs tx);
      match found with
      | Some key => Ok key
      | None => find_outgoing hash txs
      end
  end.

(** The exception for an address that has no hash; [None] is [null]. *)
Definition hash_error (recipientAddress : option string) : js_exn :=
  Error (String.append "Error determining toHash160(" (String.append (default "null"%string recipientAddress) " in getRecipientPublicKey())")).

Definition getRecipientPublicKey (chronik : chronik) (recipientAddress : option string) (optionalMockPubKeyResponse : option string)
    : result string :=
  if negb (falsy optionalMockPubKeyResponse) then Ok (default EmptyString optionalMockPubKeyResponse) else
  hash ← match WalletAddress.toHash160 <$> recipientAddress with
         | Some (Ok h) => Ok h
         | _ => Throw (hash_error recipientAddress)
         end;
  match history chronik hash 0 20 with
  | inr _ => Throw (Error "Error fetching tx history to parse for public key")
  | inl txs => find_outgoing hash txs
  end.

(** The encrypted message, serialised; [Buffer.from(undefined)] throws. *)
Definition encrypt_message (chronik : chronik) (destinationAddress optionalOpReturnMsg optionalMockPubKeyResponse : option string)
    : result buffer :=
  recipientPubKey ← getRecipientPublicKey chronik destinationAddress optionalMockPubKeyResponse;
  if String.eqb recipientPubKey "not found"
  then Throw (Error "Cannot send an encrypted message to a wallet with no outgoing transactions")
  else
    let pubKeyBuf := Hex.fromHex recipientPubKey in
    bufferedFile ← match optionalOpReturnMsg with
                   | Some m => Ok (OpReturn.bytes_of m)
                   | None => Throw (TypeError "The first argument must be of type string or an instance of Buffer")
                   end;
    structuredEj ← ecies_encrypt pubKeyBuf bufferedFile;
    Ok (OpReturn.serializeEj structuredEj).

(** An output for a message: there is one that is not blank, or an airdrop. *)
Definition has_op_return (optionalOpReturnMsg : option string) (airdropFlag : bool) : bool :=
  match optionalOpReturnMsg with Some m => negb (OpReturn.is_empty (trim m)) | None => false end || airdropFlag.

(** The transaction of [sendXec]. *)
Definition sendXec_raw (fuel : nat) (chronik : chronik) (wallet : wallet) (utxos : list utxo) (feeInSatsPerByte : number)
    (optionalOpReturnMsg : option string) (isOneToMany : bool) (destinationAddressAndValueArray : option (list string))
    (destinationAddress sendAmount : option string) (encryptionFlag airdropFlag : bool)
    (airdropTokenId optionalMockPubKeyResponse : option string) : result string :=
  let txBuilder := constructor in
  value ← parseXecSendValue isOneToMany sendAmount destinationAddressAndValueArray;
  match fromXecToSatoshis value Currency.cashDecimals with
  | None => Throw (Error "Invalid decimal places for send amount")
  | Some satoshisToSend =>
      encryptedEj ←
        (if encryptionFlag
         then e ← encrypt_message chronik destinationAddress optionalOpReturnMsg optionalMockPubKeyResponse; Ok (Some e)
         else Ok None : result (option buffer));
      txBuilder ←
        (if has_op_return optionalOpReturnMsg airdropFlag then
           opReturnData ← OpReturn.generateOpReturnScript optionalOpReturnMsg encryptionFlag airdropFlag airdropTokenId encryptedEj;
           addOutput txBuilder (OutScript opReturnData) (Some 0)
         else Ok txBuilder);
      txInputObj ← generateTxInput isOneToMany utxos txBuilder destinationAddressAndValueArray (Some satoshisToSend) feeInSatsPerByte;
      changeAddress ← getChangeAddressFromInputUtxos (inputUtxos txInputObj);
      txBuilder ← generateTxOutput isOneToMany (Some value) (Some satoshisToSend) (totalInputUtxoValue txInputObj) destinationAddress
                    destinationAddressAndValueArray changeAddress (txFee txInputObj) (ti_txBuilder txInputObj);
      signAndBuildTx fuel (inputUtxos txInputObj) txBuilder wallet
  end.

Definition sendXec (fuel : nat) (chronik : chronik) (wallet : wallet) (utxos : list utxo) (feeInSatsPerByte : number)
    (optionalOpReturnMsg : option string) (isOneToMany : bool) (destinationAddressAndValueArray : option (list string))
    (destinationAddress sendAmount : option string) (encryptionFlag airdropFlag : bool)
    (airdropTokenId optionalMockPubKeyResponse : option string) : sent :=
  send_raw chronik
    (sendXec_raw fuel chronik wallet utxos feeInSatsPerByte optionalOpReturnMsg isOneToMany destinationAddressAndValueArray
       destinationAddress sendAmount encryptionFlag airdropFlag airdropTokenId optionalMockPubKeyResponse) false true.

End S.
End Send.
