(* ===== verification/SendLaws.v ===== *)
(** * What a payment sends

    [sendXec] of [cashtab/src/utils/transactions.js] from the request to the
    transaction that is broadcast: which outputs are spent, who is paid, how much
    the fee is, and when nothing is broadcast. *)

From stdpp Require Import base tactics list gmap numbers strings pretty.
From Stdlib Require Import QArith.
From S2P Require Import Prelude JsNumber JsFloat NodeBuffer Opcodes Externals Encodings BufferUtils Crypto Curve Script Asm.
From S2P Require Import Templates TemplateLaws Transaction TransactionLaws Sighash ECSignature Ecdsa Address ECPair TransactionBuilder.
From S2P Require Import TransactionBuilderLaws JsString BigNumber OpReturn WalletExternals WalletAddress Wallet Amounts TxBuilder.
From S2P Require Import CashMethods Drafts Payments Signing Built Send.
Import Types Networks TransactionLaws Sighash TransactionBuilderLaws TxBuilder Amounts CashMethods Drafts Payments Signing Built Send.
Open Scope Z_scope.

Module SendLaws.
Section S.
Context {Mem : UninitMem} `{TF : !Typeforce} `{VU : !VarUint} `{CH : !CreateHash} `{B66 : !Bip66}
  `{B58 : !Bs58check} `{B32 : !Bech32} `{BI : !Bigi} `{EC : !Ecurve} `{HM : !CreateHmac} `{WF : !Wif}
  `{CA : !Cashaddr} `{BN : !BigNumber} `{SLP : !SlpMdm} `{BS58 : !Bs58} `{EI : !Ecies}.
Context `{TS : !TypeforceSpec} `{B58S : !Bs58checkSpec} `{VUS : !VarUintSpec} `{CS : !CreateHashSpec} `{B66S : !Bip66Spec}
  `{BS : !BigiSpec} `{ES : !EcurveSpec} `{HS : !CreateHmacSpec} `{BNS : !BigNumberSpec}.

(** ** Requests *)

(** An address of the wallet and the script that pays to it. *)
Definition address_script (a : string) (s : buffer) : Prop :=
  ∃ p t h, ca_decode a = Ok (p, t, h) ∧ t ∈ ca_types ∧ bytes_ok h ∧ blen h = 20 ∧ s = hash_script t h.

(** What a payment asks for: the outputs [ps], as scripts and satoshis. *)
Definition order (isOneToMany : bool) (single dest : option string) (rows : option (list string)) (ps : list (buffer * Z)) : Prop :=
  if isOneToMany then ∃ l, rows = Some l ∧ l ≠ [] ∧
    Forall2 (λ row p, address_script (row_address row) p.1 ∧ cents (row_value row) p.2 ∧ 0 <= p.2 <= SATOSHI_MAX) l ps
  else ∃ a s x n, dest = Some a ∧ address_script a s ∧ single = Some x ∧ x ≠ EmptyString ∧
    cents (bn_of_string x) n ∧ 0 <= n <= SATOSHI_MAX ∧ ps = [(s, n)].

(** The output for a message, if there is one. *)
Definition message_outputs (chronik : chronik) (msg dest : option string) (encryptionFlag airdropFlag : bool)
    (airdropTokenId mock : option string) : result (list (buffer * Z)) :=
  ej ← (if encryptionFlag then e ← encrypt_message chronik dest msg mock; Ok (Some e) else Ok None : result (option buffer));
  if has_op_return msg airdropFlag then
    s ← OpReturn.generateOpReturnScript msg encryptionFlag airdropFlag airdropTokenId ej; Ok [(s, 0)]
  else Ok [].

Lemma address_script_of a s : address_script a s → script_of (OutAddress a) = Ok s ∧ bytes_ok s ∧ blen s <= 25.
Proof.
  intros (p & t & h & Hd & Ht & Hb & Hl & ->). split; [by eapply script_of_address|]. unfold hash_script.
  destruct (String.eqb _ _); rewrite !bytes_ok_app, !blen_app, Hl; (split; [|done]); (split_and!; [|done|]); concrete.
Qed.

Lemma order_asks many single dest rows ps : order many single dest rows ps → asks many single rows (map snd ps).
Proof.
  unfold order, asks. destruct many.
  - intros (l & -> & Hl & H). exists l. split_and!; [done|done|]. rewrite Forall2_fmap_r. eapply Forall2_impl; [exact H|]. by intros row p (_ & Hc & _).
  - intros (a & s & x & n & -> & _ & -> & Hx & Hc & _ & ->). by exists x, n.
Qed.

Lemma order_recipients many single dest rows ps value : order many single dest rows ps → cents value (zsum (map snd ps)) →
  recipients many value dest rows ps.
Proof.
  unfold order, recipients. destruct many.
  - intros (l & -> & _ & H) _. exists l. split; [done|]. eapply Forall2_impl; [exact H|].
    intros row p (Ha & Hc & Hr). split_and!; [by apply address_script_of|done|lia|lia].
  - intros (a & s & x & n & -> & Ha & -> & Hx & Hc & Hr & ->) Hv. exists a, s, n. apply address_script_of in Ha as [Ha _].
    change (zsum (map snd [(s, n)])) with (n + 0) in Hv. rewrite Z.add_0_r in Hv. split_and!; try done; lia.
Qed.

Lemma order_given many single dest rows ps : order many single dest rows ps → given many rows.
Proof. unfold order, given. destruct many; [|done]. by intros (l & -> & _) _. Qed.

Lemma order_scripts many single dest rows ps : order many single dest rows ps →
  ps ≠ [] ∧ planned_outputs many rows = len ps + 1 ∧ Forall (λ p, bytes_ok p.1 ∧ blen p.1 <= 25 ∧ 0 <= p.2 <= SATOSHI_MAX) ps.
Proof.
  unfold order, planned_outputs. destruct many.
  - intros (l & -> & Hl & H). split_and!.
    + intros ->. by apply Forall2_nil_inv_r in H.
    + cbn [default from_option id]. unfold len. by rewrite (Forall2_length _ _ _ H).
    + clear Hl. induction H as [|row p l ps (Ha & _ & Hr) _ IH]; constructor; [|done]. apply address_script_of in Ha as (_ & ? & ?). done.
  - intros (a & s & x & n & _ & Ha & _ & _ & _ & Hr & ->). split_and!; [done|done|]. constructor; [|constructor].
    apply address_script_of in Ha as (_ & ? & ?). done.
Qed.

(** ** The payment *)

Section Payment.
Context (fuel : nat) (ck : chronik) (w : wallet) (us : list utxo) (vs : list Z) (msg : option string) (many : bool)
  (rows : option (list string)) (dest single : option string) (encrypt airdrop : bool) (tokenId mock : option string)
  (ms ps : list (buffer * Z)) (cs : buffer).

Let o := planned_outputs many rows.
Let amount := zsum (map snd ps).

(** The wallet has outputs [us] worth [vs] with distinct outpoints, the first one
    at an address to which change can go; the request asks for the outputs [ps],
    after those of the message. *)
Record request : Prop := {
  rq_order : order many single dest rows ps;
  rq_message : message_outputs ck msg dest encrypt airdrop tokenId mock = Ok ms;
  rq_message_ok : Forall (λ p, bytes_ok p.1 ∧ short p.1) ms;
  rq_worth : Forall2 worth us vs;
  rq_total : zsum vs <= SATOSHI_MAX;
  rq_distinct : NoDup (map outpoint_of us);
  rq_outpoints : Forall (λ u, outpoint_ok (outpoint_of u)) us;
  rq_size : byte_count (len us) o < 2 ^ 30;
  rq_change u : us !! 0%nat = Some u →
    WalletAddress.isValidXecAddress (u_address u) || WalletAddress.isValidBchAddress (u_address u) = true ∧
    u_address u ≠ EmptyString ∧ address_script (u_address u) cs;
}.

Definition the_send : sent :=
  sendXec fuel ck w us Currency.defaultFee msg many rows dest single encrypt airdrop tokenId mock.

(** The least number of outputs that cover the payment. *)
Definition selected (k : nat) : Prop :=
  (0 < k <= length us)%nat ∧ covers amount o vs k ∧ ∀ j, (0 < j < k)%nat → ~ covers amount o vs j.

(** The outputs of the transaction. *)
Definition outputs_of (k : nat) : list (buffer * Z) :=
  ms ++ ps ++ change_outputs cs (zsum (take k vs) - amount - fee_for k o).

(** The transaction in hexadecimal: it spends the selected outputs, with
    signatures of their keys, and has the outputs asked for; what is not paid out
    is at least the fee, and less than dust above it. *)
Record pays_exactly (k : nat) (hex : string) (tx : Transaction.transaction) : Prop := {
  pe_hex : Transaction.fromHex hex = Ok tx;
  pe_final : final w (take k us) (take k vs) (outputs_of k) tx;
  pe_outs : outs tx = map txout_of (outputs_of k);
  pe_fee : fee_for k o <= zsum (take k vs) - zsum (map snd (outputs_of k)) < fee_for k o + Currency.dustSats;
}.

Hypothesis R : request.

Lemma message_zero : zsum (map snd ms) = 0 ∧ Forall (λ p, p.2 = 0) ms ∧ len ms <= 1.
Proof.
  pose proof (rq_message R) as E. unfold message_outputs in E. apply bind_ok in E as (ej & _ & E).
  destruct (has_op_return _ _); [|by injection E as <-]. apply bind_ok in E as (s & _ & E). injection E as <-.
  split_and!; [done|by repeat constructor|done].
Qed.

Lemma message_draft ej b : (if encrypt then e ← encrypt_message ck dest msg mock; Ok (Some e) else Ok None : result (option buffer)) = Ok ej →
  draft b [] [] → ∃ b', (if has_op_return msg airdrop then
     s ← OpReturn.generateOpReturnScript msg encrypt airdrop tokenId ej; addOutput b (OutScript s) (Some 0) else Ok b) = Ok b' ∧ draft b' [] ms.
Proof.
  intros Ee D. pose proof (rq_message R) as E. unfold message_outputs in E. rewrite Ee in E. cbn [mbind result_bind] in E.
  destruct (has_op_return _ _); [|injection E as <-; by exists b]. destruct (OpReturn.generateOpReturnScript _ _ _ _ _) as [s|]; [|done].
  injection E as <-. cbn [mbind result_bind].
  by apply (proj1 (draft_addOutput b [] [] (OutScript s) (Some 0) D) s 0 (script_of_script s)).
Qed.

(** What happens up to the choice of the inputs. *)
Lemma raw_inputs : 550 <= amount → ∃ value sats r k, cents value amount ∧ bn_is sats (inject_Z amount) ∧
  (k <= length us)%nat ∧ (us ≠ [] → 0 < k)%nat ∧ inputUtxos r = take k us ∧ draft (ti_txBuilder r) (map outpoint_of (take k us)) ms ∧
  bn_is (totalInputUtxoValue r) (inject_Z (zsum (take k vs))) ∧ ((0 < k)%nat → txFee r = num_of_Z (fee_for k o)) ∧
  (∀ j, (0 < j < k)%nat → ~ covers amount o vs j) ∧ (k = length us ∨ covers amount o vs k) ∧
  sendXec_raw fuel ck w us Currency.defaultFee msg many rows dest single encrypt airdrop tokenId mock =
    (change ← getChangeAddressFromInputUtxos (take k us);
     b ← generateTxOutput many (Some value) (Some sats) (totalInputUtxoValue r) dest rows change (txFee r) (ti_txBuilder r);
     signAndBuildTx fuel (take k us) b w).
Proof.
  intros Ha. pose proof R as [Ho Hm Hms Hw Ht Hd Hop Hsz Hch].
  pose proof (send_value_exact _ _ _ _ (order_asks _ _ _ _ _ Ho)) as Hv. cbv zeta in Hv. fold amount in Hv.
  rewrite (proj2 (Z.ltb_ge amount 550)) in Hv by done. destruct Hv as (value & Ev & Hv).
  destruct (toSatoshis_cents value amount Hv) as (sats & Es & Hs).
  unfold message_outputs in Hm. apply bind_ok in Hm as (ej & Ee & _).
  destruct (message_draft ej constructor Ee draft_new) as (b0 & Eb & D0).
  destruct (coin_selection many us vs b0 rows sats amount [] ms (order_given _ _ _ _ _ Ho) Hs Hw Hsz D0 Hd Hop)
    as (r & k & Er & K1 & K2 & Ei & Dr & Tr & Fr & Kj & Kc).
  exists value, sats, r, k. split_and!; try done. unfold sendXec_raw. rewrite Ev. cbn [mbind result_bind].
  change Currency.cashDecimals with 2. rewrite Es, Ee. cbn [mbind result_bind].
  rewrite Eb. cbn [mbind result_bind]. rewrite Er. cbn [mbind result_bind]. by rewrite Ei.
Qed.

(** The rest, when there is an input. *)
Lemma raw_steps : 550 <= amount → us ≠ [] → ∃ k b, (0 < k <= length us)%nat ∧ (∀ j, (0 < j < k)%nat → ~ covers amount o vs j) ∧
  (k = length us ∨ covers amount o vs k) ∧
  sendXec_raw fuel ck w us Currency.defaultFee msg many rows dest single encrypt airdrop tokenId mock =
    (if zsum (take k vs) <? amount + fee_for k o then Throw (Error "Insufficient funds") else signAndBuildTx fuel (take k us) b w) ∧
  (covers amount o vs k → draft b (map outpoint_of (take k us)) (outputs_of k)).
Proof.
  intros Ha Hne. destruct (raw_inputs Ha) as (value & sats & r & k & Hv & Hs & K1 & K2 & Ei & Dr & Tr & Fr & Kj & Kc & ->).
  specialize (K2 Hne). specialize (Fr K2). destruct (lookup_lt_is_Some_2 us 0) as [u0 Hu0]; [lia|].
  destruct (rq_change R u0 Hu0) as (Hval & Hne0 & Hsc). apply address_script_of in Hsc as (Hsc & _).
  assert (Hg : getChangeAddressFromInputUtxos (take k us) = Ok (u_address u0)).
  { rewrite <- (lookup_take_lt us k 0 K2) in Hu0. destruct (take k us); [done|]. injection Hu0 as ->.
    cbn [getChangeAddressFromInputUtxos]. by rewrite <- negb_orb, Hval. }
  rewrite Hg. cbn [mbind result_bind].
  pose proof (planned_nonneg many rows) as Hpn. pose proof (fee_for_pos k o Hpn) as Hfp. pose proof (rq_total R) as Ht.
  pose proof (zsum_take_le _ k (worth_nonneg _ _ (rq_worth R))) as Hle.
  pose proof (fee_for_range k o Hpn (size_le o us (rq_size R) k K1)) as Hfr.
  pose proof (payment_outputs many value sats (totalInputUtxoValue r) dest rows (u_address u0) (txFee r) (ti_txBuilder r)
    (map outpoint_of (take k us)) ms ps cs amount (zsum (take k vs)) (fee_for k o)
    (order_recipients _ _ _ _ _ _ (rq_order R) Hv) Hv Hs Tr ltac:(lia) Fr ltac:(lia) ltac:(lia) Hne0 Hsc Dr) as Hp.
  cbv zeta in Hp. set (g := generateTxOutput _ _ _ _ _ _ _ _ _) in *. exists k, (match g with Ok b => b | Throw _ => constructor end).
  split_and!; [lia|exact K1|exact Kj|exact Kc| |].
  - destruct (_ <? _); [by rewrite Hp|]. by destruct Hp as (b' & -> & _).
  - unfold covers. intros Hc. rewrite (proj2 (Z.ltb_ge _ _)) in Hp by lia. by destruct Hp as (b' & -> & D').
Qed.

Lemma selected_unique k j : selected k → selected j → k = j.
Proof.
  intros (K1 & K2 & K3) (J1 & J2 & J3). destruct (Nat.lt_trichotomy k j) as [H|[H|H]]; [|done|].
  - exfalso. by apply (J3 k); [lia|].
  - exfalso. by apply (K3 j); [lia|].
Qed.

(** Selected or not, the transaction that would be signed. *)
Lemma raw_selected k : 550 <= amount → selected k → ∃ b,
  sendXec_raw fuel ck w us Currency.defaultFee msg many rows dest single encrypt airdrop tokenId mock = signAndBuildTx fuel (take k us) b w ∧
  draft b (map outpoint_of (take k us)) (outputs_of k).
Proof.
  intros Ha Hk. assert (Hne : us ≠ []) by (intros E; destruct Hk as [Hk _]; rewrite E in Hk; cbn in Hk; lia).
  destruct (raw_steps Ha Hne) as (j & b & J1 & J2 & J3 & Er & D).
  assert (Hc : covers amount o vs j).
  { destruct J3 as [->|]; [|done]. destruct (decide (k = length us)) as [<-|]; [apply Hk|].
    destruct Hk as (K1 & K2 & _). exfalso. by apply (J2 k); [lia|]. }
  assert (k = j) as -> by (apply selected_unique; done).
  exists b. rewrite Er. unfold covers in Hc. rewrite (proj2 (Z.ltb_ge _ _)) by lia. split; [done|by apply D].
Qed.

Lemma outputs_paid k : selected k →
  fee_for k o <= zsum (take k vs) - zsum (map snd (outputs_of k)) < fee_for k o + Currency.dustSats.
Proof.
  intros (_ & Hc & _). unfold covers in Hc. unfold outputs_of. destruct message_zero as (Hz & _).
  rewrite !map_app, !zsum_app, Hz. fold amount. unfold change_outputs, Currency.dustSats.
  destruct (Z.leb_spec 550 (zsum (take k vs) - amount - fee_for k o)); cbn; lia.
Qed.

Lemma outputs_wf k : selected k → draft_wf (map outpoint_of (take k us)) (outputs_of k) ∧ Forall (λ p, bytes_ok p.1) (outputs_of k) ∧
  outputs_of k ≠ [] ∧ len (outputs_of k) <= len ms + o ∧ Forall2 worth (take k us) (take k vs) ∧ len (take k us) = Z.of_nat k.
Proof.
  intros (K1 & Hc & _). destruct (lookup_lt_is_Some_2 us 0) as [u0 Hu0]; [lia|].
  destruct (rq_change R u0 Hu0) as (_ & _ & Hsc). apply address_script_of in Hsc as (_ & Hcb & Hcl).
  destruct (order_scripts _ _ _ _ _ (rq_order R)) as (Hpn & Hpl & Hps). destruct message_zero as (_ & Hmz & Hml).
  pose proof (zsum_take_le _ k (worth_nonneg _ _ (rq_worth R))) as Hle. pose proof (rq_total R) as Ht. pose proof (rq_size R) as Hsz.
  assert (0 <= amount) as Ham.
  { apply zsum_nonneg, Forall_map. eapply Forall_impl; [exact Hps|]. cbn. lia. }
  pose proof (fee_for_pos k o (planned_nonneg many rows)) as Hfp.
  assert (Hall : Forall (λ p, bytes_ok p.1 ∧ short p.1 ∧ 0 <= p.2 <= SATOSHI_MAX) (outputs_of k)).
  { unfold outputs_of. rewrite !Forall_app. split_and!.
    - pose proof (rq_message_ok R) as Hm. rewrite Forall_forall in *. intros p Hp. rewrite (Hmz p Hp). destruct (Hm p Hp). split_and!; try done.
    - eapply Forall_impl; [exact Hps|]. intros p (H1 & H2 & H3). unfold short, MAX_SAFE_INTEGER. split_and!; try done; lia.
    - unfold change_outputs. destruct (Z.leb_spec Currency.dustSats (zsum (take k vs) - amount - fee_for k o)); [|constructor].
      constructor; [|constructor]. cbn [fst snd]. unfold short, MAX_SAFE_INTEGER, Currency.dustSats in *. split_and!; try done; lia. }
  assert (Hlen : len (outputs_of k) <= len ms + o).
  { unfold outputs_of. rewrite !len_app. fold o in Hpl. rewrite Hpl. unfold change_outputs. destruct (_ <=? _); [change (len [_]) with 1|change (len []) with 0]; lia. }
  assert (Hk : len (take k us) = Z.of_nat k) by (unfold len; rewrite length_take; lia).
  fold o in Hsz. unfold byte_count in Hsz. pose proof (len_nonneg us). pose proof (planned_nonneg many rows) as Hon. fold o in Hon.
  split_and!; try done.
  - split; [|eapply Forall_impl; [exact Hall|]; by intros p (? & ? & ?)| |].
    + apply Forall_map, Forall_take, (rq_outpoints R).
    + rewrite len_map, Hk. unfold len in *. lia.
    + lia.
  - eapply Forall_impl; [exact Hall|]. by intros p (? & _).
  - unfold outputs_of. by intros (_ & (E & _)%app_nil)%app_nil.
  - apply Forall2_take, (rq_worth R).
Qed.

(** ** The claims *)

Lemma exactly k hex : selected k → (∃ tx, Transaction.fromHex hex = Ok tx ∧ final w (take k us) (take k vs) (outputs_of k) tx) →
  ∃ tx, pays_exactly k hex tx.
Proof.
  intros Hk (tx & Eh & F). exists tx. split; [done|done| |by apply outputs_paid]. rewrite <- (sb_outs _ _ (f_same _ _ _ _ _ F)). done.
Qed.

(** Any transaction that is broadcast pays exactly. *)
Lemma broadcast_exactly : broadcasts the_send = [] ∨
  ∃ k hex tx, selected k ∧ pays_exactly k hex tx ∧ the_send = broadcast ck hex false true.
Proof.
  unfold the_send, sendXec. destruct (sendXec_raw _ _ _ _ _ _ _ _ _ _ _ _ _ _) as [hex|e] eqn:E; [|by left]. right.
  destruct (Z.ltb_spec amount 550) as [Hlt|Ha].
  { exfalso. pose proof (send_value_exact _ _ _ _ (order_asks _ _ _ _ _ (rq_order R))) as Hv. cbv zeta in Hv.
    fold amount in Hv. rewrite (proj2 (Z.ltb_lt _ _) Hlt) in Hv. unfold sendXec_raw in E. by rewrite Hv in E. }
  destruct (decide (us = [])) as [Hn|Hn].
  { exfalso. destruct (raw_inputs Ha) as (v & s & r & k & _ & _ & _ & _ & _ & _ & _ & _ & _ & _ & Er).
    rewrite E in Er. rewrite Hn, take_nil in Er. done. }
  destruct (raw_steps Ha Hn) as (k & b & K1 & K2 & K3 & Er & D). rewrite E in Er.
  destruct (Z.ltb_spec (zsum (take k vs)) (amount + fee_for k o)) as [|Hc]; [done|].
  assert (Hk : selected k) by (split_and!; [lia|lia|exact Hc|exact K2]). destruct (outputs_wf k Hk) as (Hw & Hb & Hne & Hl & Hwo & _).
  destruct (signAndBuildTx_inv w (take k us) (take k vs) (outputs_of k) Hw Hwo fuel b hex (D Hc) Hb (eq_sym Er)) as (tx & Eh & F & _).
  destruct (exactly k hex Hk) as [tx' Hp]; [by exists tx|]. exists k, hex, tx'. done.
Qed.

(** C1: what a payment broadcasts.  For a request on outputs of the wallet with
    distinct outpoints, [sendXec] either broadcasts nothing or makes one call of
    [broadcastTx], with a transaction that reads back from its hexadecimal text.
    It spends the shortest prefix of the outputs that covers the amount and the
    fee, each with a signature that verifies under the key of its account over
    this transaction; its outputs are the message, each recipient with the exact
    amount, and the change unless it is dust; what is left is at least the fee and
    exceeds it by less than 550 satoshis. *)
Theorem payment_safe : broadcasts the_send = [] ∨
  ∃ k hex tx, selected k ∧ pays_exactly k hex tx ∧ broadcasts the_send = [(hex, false)].
Proof. destruct broadcast_exactly as [|(k & hex & tx & Hk & Hp & ->)]; [by left|right; by exists k, hex, tx]. Qed.

(** C2: a payment that the wallet can make is made.  When some prefix of the outputs
    covers an amount of at least 550 satoshis and the fee, and the keys of the
    wallet sign, [sendXec] broadcasts the transaction that pays exactly, and
    returns what follows from the answer of chronik. *)
Theorem payment_made k : 550 <= amount → selected k → can_sign fuel w (take k us) (take k vs) (outputs_of k) →
  ∃ hex tx, pays_exactly k hex tx ∧ the_send = broadcast ck hex false true.
Proof.
  intros Ha Hk Hc. destruct (raw_selected k Ha Hk) as (b & Er & D). destruct (outputs_wf k Hk) as (Hw & Hb & Hne & Hl & Hwo & Hlk).
  destruct (signAndBuildTx_returns w (take k us) (take k vs) (outputs_of k) Hw Hwo fuel b D) as (hex & tx & Es & Eh & F & _); try done.
  - intros E. rewrite E in Hlk. destruct Hk as [Hk _]. change (len []) with 0 in Hlk. lia.
  - pose proof (outputs_paid k Hk) as [_ Hf]. rewrite Hlk. unfold fee_for, Currency.dustSats in Hf.
    pose proof (fee_of_bounds (byte_count (Z.of_nat k) o)) as [_ Hfb]. unfold byte_count in Hf, Hfb.
    destruct (order_scripts _ _ _ _ _ (rq_order R)) as (_ & Hpl & _). fold o in Hpl.
    assert (len ps <= len (outputs_of k)) by (unfold outputs_of; rewrite !len_app; pose proof (len_nonneg ms); pose proof (len_nonneg (change_outputs cs (zsum (take k vs) - amount - fee_for k o))); lia).
    destruct Hk as [Hk _]. pose proof (len_nonneg ps). lia.
  - destruct (exactly k hex Hk) as [tx' Hp]; [by exists tx|]. exists hex, tx'. split; [done|]. unfold the_send, sendXec. by rewrite Er, Es.
Qed.

(** C9: payments that are refused.  Nothing is broadcast and no code is set: an
    amount below 550 satoshis is dust; when no prefix of the outputs covers the
    amount and its fee, the funds are insufficient; a wallet without outputs has
    no address for the change. *)
Theorem payment_refused :
  (amount < 550 → the_send = mkSent [] (Failed (Error "dust") None)) ∧
  (550 <= amount → us ≠ [] → (∀ k, (0 < k <= length us)%nat → ~ covers amount o vs k) →
    the_send = mkSent [] (Failed (Error "Insufficient funds") None)) ∧
  (550 <= amount → us = [] → the_send = mkSent [] (Failed (Error "Invalid input utxo") None)).
Proof.
  split_and!.
  - intros Hlt. pose proof (send_value_exact _ _ _ _ (order_asks _ _ _ _ _ (rq_order R))) as Hv. cbv zeta in Hv.
    fold amount in Hv. rewrite (proj2 (Z.ltb_lt _ _) Hlt) in Hv. unfold the_send, sendXec, sendXec_raw. by rewrite Hv.
  - intros Ha Hn Hc. destruct (raw_steps Ha Hn) as (k & b & K1 & _ & _ & Er & _). unfold the_send, sendXec. rewrite Er.
    pose proof (Hc k K1) as Hk. unfold covers in Hk. by rewrite (proj2 (Z.ltb_lt _ _)) by lia.
  - intros Ha Hn. destruct (raw_inputs Ha) as (v & s & r & k & _ & _ & _ & _ & _ & _ & _ & _ & _ & _ & Er).
    unfold the_send, sendXec. rewrite Er, Hn, take_nil. done.
Qed.

(** C28: the fee of a payment covers its size.  Without a message, with compressed
    keys and fewer than 253 inputs and 252 recipients, the transaction that is
    broadcast pays at least 2.01 satoshis for each of its bytes, although the fee
    was computed from an estimate of its size before it was signed. *)
Theorem fee_covers_size hex slp : ms = [] → len us < 253 → len ps < 252 →
  (∀ u p d, u ∈ us → signer w u p d → kp_compressed p = true) →
  broadcasts the_send = [(hex, slp)] →
  ∃ k tx, selected k ∧ Transaction.fromHex hex = Ok tx ∧ outs tx = map txout_of (outputs_of k) ∧
    201 * Transaction.byteLength tx <= 100 * (zsum (take k vs) - zsum (map snd (outputs_of k))).
Proof.
  intros Hm Hu Hp Hc Hb. destruct broadcast_exactly as [E|(k & h & tx & Hk & [P1 P2 P3 P4] & E)]; rewrite E in Hb; [done|].
  injection Hb as -> _. exists k, tx. split_and!; try done. destruct (outputs_wf k Hk) as (Hw & _ & _ & Hl & Hwo & Hlk).
  destruct (order_scripts _ _ _ _ _ (rq_order R)) as (_ & Hpl & Hps). fold o in Hpl. rewrite Hm in Hl. change (len []) with 0 in Hl.
  pose proof Hk as [K1 _]. unfold len in Hu.
  assert (Hsize : Transaction.byteLength tx <= byte_count (len (take k us)) (len (outputs_of k))).
  { apply (final_size w (take k us) (take k vs) (outputs_of k) Hw Hwo); try done; [lia|lia| |].
    - intros u p d Hin. apply Hc. rewrite <- (take_drop k us). apply elem_of_app. by left.
    - unfold outputs_of. rewrite Hm. cbn [app]. rewrite Forall_app. split.
      + eapply Forall_impl; [exact Hps|]. by intros p' (_ & ? & _).
      + unfold change_outputs. destruct (_ <=? _); [|constructor]. constructor; [|constructor].
        destruct (lookup_lt_is_Some_2 us 0) as [u0 Hu0]; [lia|]. destruct (rq_change R u0 Hu0) as (_ & _ & Hsc).
        by apply address_script_of in Hsc as (_ & _ & ?). }
  rewrite Hlk in Hsize. unfold fee_for in P4. pose proof (fee_of_bounds (byte_count (Z.of_nat k) o)) as [Hf _].
  unfold byte_count in *. lia.
Qed.

End Payment.
End S.

(** ** Examples: 20 XEC from outputs of 10 and of 50 XEC *)

Section Examples.
Import Concrete ConcreteCurve ConcreteText ConcreteBn ConcreteWallet.
Local Existing Instance zero_mem.

Local Definition addr (n : Z) : string := String.append "ecash:q" (Hex.toHex (repeat n 20)).
Local Definition acct (n : Z) : account := mkAccount (addr n) (text (128 :: 1 :: be_bytes 32 n)) None None.
Local Definition a_wallet : wallet := mkWallet "seed" "name" (acct 3) (acct 4) (Some (acct 5)) None.
Local Definition coin (i v : Z) : utxo := mkUtxo (Hex.toHex (repeat 9 32)) i (pretty v) (addr 5) None None.
Local Definition coins : list utxo := [coin 0 1000; coin 1 5000].
Local Definition a_chronik : chronik :=
  mkChronik (λ _ _, inl (Some "ab"%string)) (λ _ _ _, inl []) (λ _, inl []) (λ _, inr (mkFailure (Error "none") None)) (λ _, inr (mkFailure (Error "none") None)).
Local Definition pay (n : Z) : list (buffer * Z) := [(hash_script "P2PKH" (repeat n 20), 2000)].
Local Definition p2pkh (n : Z) : buffer := hash_script "P2PKH" (repeat n 20).

Local Lemma addr_script n : n ∈ [5; 8] → address_script (addr n) (p2pkh n).
Proof.
  intros Hn. exists "ecash"%string, "P2PKH"%string, (repeat n 20).
  rewrite !elem_of_cons in Hn. destruct Hn as [->|[->|Hn]]; [| |by apply elem_of_nil in Hn];
    (split_and!; [vm_compute; reflexivity|left|concrete|reflexivity|reflexivity]).
Qed.

Local Lemma a_request : request a_chronik coins [1000; 5000] None false None (Some (addr 8)) (Some "20"%string) false false None None
  [] (pay 8) (p2pkh 5).
Proof.
  split.
  - exists (addr 8), (p2pkh 8), "20"%string, 2000. split_and!; try reflexivity; try done.
    + apply addr_script. right. left.
    + exists (20, O). split; [vm_compute; reflexivity|vm_compute; reflexivity].
  - vm_compute. reflexivity.
  - constructor.
  - repeat (apply Forall2_cons; split); [| |by apply Forall2_nil]; (split; [reflexivity|split; vm_compute; discriminate]).
  - vm_compute. discriminate.
  - apply (bool_decide_unpack _). vm_compute. exact I.
  - repeat (apply Forall_cons; split); [| |by apply Forall_nil]; (split; [vm_compute; reflexivity|split; vm_compute; discriminate]).
  - vm_compute. reflexivity.
  - intros u Hu. injection Hu as <-. split_and!; [vm_compute; reflexivity|done|]. apply addr_script. left.
Qed.

Local Lemma a_selection : selected coins [1000; 5000] false None (pay 8) 2.
Proof.
  split_and!; [cbn; lia|cbn; lia|vm_compute; discriminate|]. intros j Hj. assert (j = 1)%nat as -> by lia. vm_compute. intros H. by apply H.
Qed.

Local Definition key5 : ecpair := mkPair (Some (bi_valueOf 5)) None true ecash.

Local Lemma a_wif u : u_address u = addr 5 → getUtxoWif u (Some a_wallet) = Ok (text (128 :: 1 :: be_bytes 32 5)).
Proof. intros E. unfold getUtxoWif. rewrite E. vm_compute. reflexivity. Qed.

Local Lemma a_pair : getECPairFromWIF (text (128 :: 1 :: be_bytes 32 5)) = Ok key5.
Proof. vm_cast_no_check (eq_refl (Ok key5)). Qed.

Local Lemma a_signer u : u_address u = addr 5 → signer a_wallet u key5 (bi_valueOf 5).
Proof. intros E. exists (text (128 :: 1 :: be_bytes 32 5)). split; [by apply a_wif|]. split; [exact a_pair|reflexivity]. Qed.

Local Lemma coins_at u : u ∈ coins → u_address u = addr 5.
Proof. unfold coins. rewrite !elem_of_cons. intros [->|[->|H]]; [reflexivity|reflexivity|by apply elem_of_nil in H]. Qed.

Local Lemma a_compressed u p d : u ∈ coins → signer a_wallet u p d → kp_compressed p = true.
Proof.
  intros Hu%coins_at (s & E & F & _). rewrite (a_wif u Hu) in E. injection E as <-.
  rewrite a_pair in F. by injection F as <-.
Qed.

Local Definition drafted : Transaction.transaction :=
  draft_tx (map outpoint_of (take 2 coins)) (outputs_of [1000; 5000] false None [] (pay 8) (p2pkh 5) 2).

Local Definition signs (j : nat) (v : Z) : bool :=
  match hashForCashSignature drafted (Z.of_nat j) (p2pkh_script (public_of key5 (bi_valueOf 5))) (Some v) 0x41 with
  | Ok hash => match ECDSA.sign 20 hash (bi_valueOf 5) with Ok _ => true | Throw _ => false end
  | Throw _ => false
  end.

Local Lemma signs_returns j v hash : signs j v = true →
  hashForCashSignature drafted (Z.of_nat j) (p2pkh_script (public_of key5 (bi_valueOf 5))) (Some v) 0x41 = Ok hash →
  returns (ECDSA.sign 20 hash (bi_valueOf 5)).
Proof. unfold signs. intros H E. rewrite E in H. destruct (ECDSA.sign _ _ _) as [sig|]; [by exists sig|done]. Qed.

Local Lemma both_sign : signs 0 1000 = true ∧ signs 1 5000 = true.
Proof. split; vm_compute; reflexivity. Qed.

Local Lemma coins_sign : can_sign 20 a_wallet (take 2 coins) (take 2 [1000; 5000])
  (outputs_of [1000; 5000] false None [] (pay 8) (p2pkh 5) 2).
Proof.
  intros j u v Hu Hv. exists key5, (bi_valueOf 5). split; [apply a_signer, coins_at; by eapply list_elem_of_lookup_2|].
  intros hash. apply signs_returns. clear Hu. destruct j as [|[|j]]; [| |by cbn in Hv]; injection Hv as <-; [exact (proj1 both_sign)|exact (proj2 both_sign)].
Qed.

Lemma payment_safe_witness :
  broadcasts (the_send 20 a_chronik a_wallet coins None false None (Some (addr 8)) (Some "20"%string) false false None None) = [] ∨
  ∃ k hex tx, selected coins [1000; 5000] false None (pay 8) k ∧
    pays_exactly a_wallet coins [1000; 5000] false None [] (pay 8) (p2pkh 5) k hex tx.
Proof.
  destruct (payment_safe 20 a_chronik a_wallet coins [1000; 5000] None false None (Some (addr 8)) (Some "20"%string) false false None None
    [] (pay 8) (p2pkh 5) a_request) as [H|(k & hex & tx & H1 & H2 & _)]; [left; exact H|right].
  exists k, hex, tx. split; [exact H1|exact H2].
Defined.

Lemma payment_made_witness : ∃ hex tx,
  pays_exactly a_wallet coins [1000; 5000] false None [] (pay 8) (p2pkh 5) 2 hex tx ∧
  returned (the_send 20 a_chronik a_wallet coins None false None (Some (addr 8)) (Some "20"%string) false false None None) =
    Sent (link_of "ab").
Proof.
  destruct (payment_made 20 a_chronik a_wallet coins [1000; 5000] None false None (Some (addr 8)) (Some "20"%string) false false None None
    [] (pay 8) (p2pkh 5) a_request 2) as (hex & tx & H & E).
  - vm_compute. discriminate.
  - exact a_selection.
  - exact coins_sign.
  - exists hex, tx. split; [exact H|]. rewrite E. reflexivity.
Defined.

Local Lemma poor_request : request a_chronik [coin 0 1000] [1000] None false None (Some (addr 8)) (Some "20"%string) false false None None
  [] (pay 8) (p2pkh 5).
Proof.
  destruct a_request as [H1 H2 H3 H4 H5 H6 H7 H8 H9]. split; try done.
  - inversion H4. by repeat constructor.
  - apply (bool_decide_unpack _). vm_compute. exact I.
  - by inversion H7; repeat constructor.
Qed.

Lemma payment_refused_witness :
  the_send 20 a_chronik a_wallet [coin 0 1000] None false None (Some (addr 8)) (Some "20"%string) false false None None =
    mkSent [] (Failed (Error "Insufficient funds") None).
Proof.
  destruct (payment_refused 20 a_chronik a_wallet [coin 0 1000] [1000] None false None (Some (addr 8)) (Some "20"%string) false false None None
    [] (pay 8) (p2pkh 5) poor_request) as (_ & H & _).
  apply H; [vm_compute; discriminate|discriminate|]. intros k Hk. cbn [length] in Hk. assert (k = 1)%nat as -> by lia. vm_compute. intros E. by apply E.
Defined.

Local Definition a_hex : string :=
  match sendXec_raw 20 a_chronik a_wallet coins Currency.defaultFee None false None (Some (addr 8)) (Some "20"%string) false false None None with
  | Ok hex => hex | Throw _ => EmptyString end.

Lemma fee_covers_size_witness : ∃ k tx, Transaction.fromHex a_hex = Ok tx ∧
  201 * Transaction.byteLength tx <= 100 * (zsum (take k [1000; 5000]) - zsum (map snd (outputs_of [1000; 5000] false None [] (pay 8) (p2pkh 5) k))).
Proof.
  destruct (fee_covers_size 20 a_chronik a_wallet coins [1000; 5000] None false None (Some (addr 8)) (Some "20"%string) false false None None
    [] (pay 8) (p2pkh 5) a_request a_hex false) as (k & tx & _ & E & _ & H).
  - reflexivity.
  - reflexivity.
  - reflexivity.
  - exact a_compressed.
  - vm_compute. reflexivity.
  - exists k, tx. split; [exact E|exact H].
Defined.

End Examples.
End SendLaws.
