(* ===== verification/ChronikUtils.v ===== *)
(** * Outputs, tokens and history

    [cashtab/src/utils/chronik.js]: what the wallet makes of the answers of chronik,
    the outputs by kind, the balances of tokens, and the history of transactions
    from its point of view. *)

From stdpp Require Import base tactics list gmap numbers strings.
From S2P Require Import Prelude JsNumber JsFloat NodeBuffer Externals Encodings Curve Asm TransactionBuilder.
From S2P Require Import JsString Utf8 BigNumber OpReturn WalletExternals WalletAddress Wallet CashMethods.
Import CashMethods.
Open Scope Z_scope.

Module ChronikUtils.

(** ** Outputs *)

(** [new Error(err)]: the message is the text of [err]. *)
Definition error_of (e : js_exn) : js_exn :=
  match e with
  | Error m => Error (String.append "Error: " m)
  | TypeError m => Error (String.append "TypeError: " m)
  | RangeError => Error "RangeError"
  | TypeforceError => Error "TypeError"
  | OutOfFuel => OutOfFuel
  end.

Definition getUtxosSingleHashChronik (chronik : chronik) (hash160 : string) : promise (list utxo) :=
  match utxos_at chronik hash160 with
  | inr f => Rejected (error_of (f_exn f))
  | inl [] => Resolved []
  | inl (utxos :: _) => Resolved utxos
  end.

Definition with_address (address : string) (u : utxo) : utxo :=
  mkUtxo (u_txid u) (u_outIdx u) (u_value u) address (u_slpMeta u) (u_slpToken u).

(** A hash and its address. *)
Definition returnGetUtxosChronikPromise (chronik : chronik) (obj : string * string) : promise (list utxo) :=
  match getUtxosSingleHashChronik chronik obj.1 with
  | Resolved result => Resolved (map (with_address obj.2) result)
  | p => p
  end.

Definition getUtxosChronik (chronik : chronik) (hash160sMappedToAddresses : list (string * string)) : promise (list utxo) :=
  match promise_all (map (returnGetUtxosChronikPromise chronik) hash160sMappedToAddresses) with
  | Resolved allUtxos => Resolved (concat allUtxos)
  | Rejected e => Rejected e
  | Pending => Pending
  end.

(** The outputs with tokens, and those without. *)
Fixpoint organizeUtxosByType (chronikUtxos : list utxo) : list utxo * list utxo :=
  match chronikUtxos with
  | [] => ([], [])
  | thisUtxo :: rest =>
      let '(preliminarySlpUtxos, nonSlpUtxos) := organizeUtxosByType rest in
      if missing (u_slpToken thisUtxo) then (preliminarySlpUtxos, thisUtxo :: nonSlpUtxos)
      else (thisUtxo :: preliminarySlpUtxos, nonSlpUtxos)
  end.

(** ** Tokens *)

(** A JavaScript object from ids of tokens to their metadata. *)
Abbreviation tokenInfoMap := (gmap string tokenInfo).

Section S.
Context `{BN : !BigNumber}.

Definition with_info (tokenId : string) (i : tokenInfo) : tokenInfo :=
  mkTokenInfo (ti_tokenTicker i) (ti_tokenName i) (ti_tokenDocumentUrl i) (ti_tokenDocumentHash i) (ti_decimals i) tokenId.

(** [false] is [None]. *)
Definition getTokenStats (chronik : chronik) (tokenId : string) : option tokenResponse :=
  match token_of chronik tokenId with
  | inr _ => None
  | inl r =>
      match tr_slpTxData r ≫= snd with
      | None => None
      | Some genesisInfo =>
          let shift x := bn_toString (bn_shiftedBy x (-1 * ti_decimals genesisInfo)) in
          let minted := bn_of_string (tr_totalMinted r) in
          let burned := bn_of_string (tr_totalBurned r) in
          Some (mkTokenResponse (tr_slpTxData r) (shift minted) (shift burned)
                  (shift (bn_of_string (tr_initialTokenQuantity r))) (Some (shift (bn_minus minted burned))))
      end
  end.

(** The object [tokensById], in the order of insertion. *)
Fixpoint add_token (tokenId amount : string) (tokensById : list (string * bn)) : list (string * bn) :=
  match tokensById with
  | [] => [(tokenId, if OpReturn.is_empty amount then bn_of_Z 0 else bn_of_string amount)]
  | (t, balance) :: rest =>
      if String.eqb t tokenId
      then (t, if OpReturn.is_empty amount then balance else bn_plus balance (bn_of_string amount)) :: rest
      else (t, balance) :: add_token tokenId amount rest
  end.

(** [slpMeta] and [slpToken] of an output with tokens *)
Definition token_of_utxo (u : utxo) : result (string * string) :=
  match u_slpMeta u, u_slpToken u with
  | Some meta, Some t => Ok (sm_tokenId meta, st_amount t)
  | _, _ => TransactionBuilder.no_property
  end.

Fixpoint collect_balances (utxos : list utxo) (tokensById : list (string * bn)) : result (list (string * bn)) :=
  match utxos with
  | [] => Ok tokensById
  | u :: utxos =>
      '(tokenId, amount) ← token_of_utxo u;
      collect_balances utxos (add_token tokenId amount tokensById)
  end.

Definition getPreliminaryTokensArray (preliminarySlpUtxos : list utxo) : result (list (string * bn)) :=
  collect_balances preliminarySlpUtxos [].

(** The function that gets the result of [chronik.tx] throws when the transaction
    has no genesis; then neither [resolve] nor [reject] is called. *)
Definition returnGetTokenInfoChronikPromise (chronik : chronik) (tokenId : string) : promise tokenInfo :=
  match tx_of chronik tokenId with
  | inr f => Rejected (f_exn f)
  | inl tx =>
      match ct_slpTxData tx ≫= snd with
      | Some info => Resolved (with_info tokenId info)
      | None => Pending
      end
  end.

Fixpoint processPreliminaryTokensArray (preliminaryTokensArray : list (string * bn)) (tokenInfoByTokenId : tokenInfoMap)
    : result (list token) :=
  match preliminaryTokensArray with
  | [] => Ok []
  | (thisTokenId, balance) :: rest =>
      match tokenInfoByTokenId !! thisTokenId with
      | None => TransactionBuilder.no_property
      | Some thisTokenInfo =>
          let balance := bn_toString (bn_shiftedBy balance (-1 * ti_decimals thisTokenInfo)) in
          tokens ← processPreliminaryTokensArray rest tokenInfoByTokenId;
          Ok (mkToken thisTokenId balance (Some thisTokenInfo) :: tokens)
      end
  end.

(** The tokens that are not in the cache. *)
Definition uncached (cache : tokenInfoMap) (ids : list string) : list string :=
  filter (λ i, cache !! i = None) ids.

Definition add_infos (infos : list tokenInfo) (cache : tokenInfoMap) : tokenInfoMap :=
  fold_left (λ m i, <[ti_tokenId i := i]> m) infos cache.

(** The cache is updated in place; the object that is returned is the same. *)
Definition finalizeTokensArray (chronik : chronik) (preliminaryTokensArray : list (string * bn)) (cachedTokenInfoById : tokenInfoMap)
    : promise (list token * tokenInfoMap * bool) :=
  let getTokenInfoPromises :=
    map (returnGetTokenInfoChronikPromise chronik) (uncached cachedTokenInfoById (map fst preliminaryTokensArray)) in
  let newTokensToCache := 0 <? len getTokenInfoPromises in
  let finish infos :=
    let updatedTokenInfoById := add_infos infos cachedTokenInfoById in
    match processPreliminaryTokensArray preliminaryTokensArray updatedTokenInfoById with
    | Ok tokens => Resolved (tokens, updatedTokenInfoById, newTokensToCache)
    | Throw e => Rejected e
    end in
  match promise_all getTokenInfoPromises with
  | Resolved tokenInfoArray => finish tokenInfoArray
  | Rejected _ => finish []
  | Pending => Pending
  end.

Fixpoint finalizeSlpUtxos (preliminarySlpUtxos : list utxo) (tokenInfoById : tokenInfoMap) : result (list tokenUtxo) :=
  match preliminarySlpUtxos with
  | [] => Ok []
  | thisUtxo :: rest =>
      '(thisTokenId, amount) ← token_of_utxo thisUtxo;
      match tokenInfoById !! thisTokenId with
      | None => TransactionBuilder.no_property
      | Some info =>
          let decimals := ti_decimals info in
          let tokenQty := bn_toString (bn_shiftedBy (bn_of_string amount) (-1 * decimals)) in
          utxos ← finalizeSlpUtxos rest tokenInfoById;
          Ok (mkTokenUtxo thisUtxo tokenQty thisTokenId decimals :: utxos)
      end
  end.

End S.
End ChronikUtils.
