(* ===== verification/History.v ===== *)
(** * The history of a wallet

    [flattenChronikTxHistory], [sortAndTrimChronikTxHistory], [parseChronikTx],
    [getTxHistoryChronik] and [getMintAddress] of [cashtab/src/utils/chronik.js]. *)

From stdpp Require Import base tactics list gmap numbers strings.
From S2P Require Import Prelude JsNumber JsFloat NodeBuffer Externals Encodings Curve Asm TransactionBuilder.
From S2P Require Import JsString Utf8 BigNumber OpReturn WalletExternals WalletAddress Wallet CashMethods ChronikUtils.
Import CashMethods ChronikUtils.
Open Scope Z_scope.

Module History.

(** ** Order *)

(** [array.sort(compare)] is stable: an element goes before the first one that it
    does not compare greater to. *)
Fixpoint sort_insert {A} (compare : A → A → Z) (x : A) (l : list A) : list A :=
  match l with
  | [] => [x]
  | y :: l => if compare x y <=? 0 then x :: y :: l else y :: sort_insert compare x l
  end.
Definition js_sort {A} (compare : A → A → Z) (l : list A) : list A := foldr (sort_insert compare) [] l.

(** [b.block.height - a.block.height || b.timeFirstSeen - a.timeFirstSeen] *)
Definition compare_confirmed (a b : chronikTx) : Z :=
  let d := default 0 (ct_block b) - default 0 (ct_block a) in
  if d =? 0 then ct_timeFirstSeen b - ct_timeFirstSeen a else d.
Definition compare_unconfirmed (a b : chronikTx) : Z := ct_timeFirstSeen b - ct_timeFirstSeen a.

Definition flattenChronikTxHistory (txHistoryOfAllAddresses : list (list chronikTx)) : list chronikTx :=
  fold_left (λ flat txs, flat ++ txs) txHistoryOfAllAddresses [].

Definition sortAndTrimChronikTxHistory (flatTxHistoryArray : list chronikTx) (txHistoryCount : nat) : list chronikTx :=
  let unconfirmedTxs := List.filter (λ tx, missing (ct_block tx)) flatTxHistoryArray in
  let confirmedTxs := List.filter (λ tx, negb (missing (ct_block tx))) flatTxHistoryArray in
  take txHistoryCount (js_sort compare_unconfirmed unconfirmedTxs ++ js_sort compare_confirmed confirmedTxs).

(** ** One transaction *)

(** [None] is [false].  A hash that is [undefined] is searched for as that text. *)
Definition getHashArrayFromWallet (wallet : wallet) : option (list string) :=
  match Path1899 wallet with
  | Some a =>
      match hash160 a with
      | Some h => Some [default "undefined"%string (hash160 (Path245 wallet)); default "undefined"%string (hash160 (Path145 wallet)); h]
      | None => None
      end
  | None => None
  end.

(** The hash in a script that pays to one. *)
Definition script_hash (s : string) : string :=
  substring s (indexOf s "76a914" + 6) (lastIndexOf s "88ac").

Section S.
Context {Mem : UninitMem} `{WF : !Wif} `{CA : !Cashaddr} `{BN : !BigNumber} `{EI : !Ecies}.

(** The variables that the loop over the inputs sets. *)
Record inputState := mkIn {
  is_incoming : bool;
  is_burn : bool;
  is_etokenAmount : bn;
  is_origin : string;
  is_reply : string;
}.

(** The amount that an input burns, if it is not zero. *)
Definition burn_amount (i : chronikInput) : option string :=
  match ci_slpBurn i with
  | Some t => if OpReturn.is_empty (st_amount t) || String.eqb (st_amount t) "0" then None else Some (st_amount t)
  | None => None
  end.

(** The first input: who sent the transaction, and where to reply. *)
Definition originating (script : option string) (reply : string) : string * string :=
  match script with
  | None => ("N/A"%string, reply)
  | Some s =>
      match WalletAddress.hash160ToAddress (script_hash s) with
      | Ok a => (script_hash s, a)
      | Throw _ => ("N/A"%string, reply)
      end
  end.

(** Does the script include a hash of the wallet?  A missing script has no method
    [includes]. *)
Definition includes_any (script : option string) (hashes : list string) : result bool :=
  match hashes, script with
  | [], _ => Ok false
  | _, Some s => Ok (existsb (includes s) hashes)
  | _, None => TransactionBuilder.no_property
  end.

Fixpoint parse_inputs (isEtokenTx : bool) (hashes : list string) (i : nat) (inputs : list chronikInput) (st : inputState)
    : result inputState :=
  match inputs with
  | [] => Ok st
  | thisInput :: inputs =>
      let st :=
        match burn_amount thisInput with
        | Some amount =>
            if isEtokenTx
            then mkIn (is_incoming st) true (bn_plus (is_etokenAmount st) (bn_of_string amount)) (is_origin st) (is_reply st)
            else st
        | None => st
        end in
      let st :=
        if (i =? 0)%nat then
          let '(origin, reply) := originating (ci_outputScript thisInput) (is_reply st) in
          mkIn (is_incoming st) (is_burn st) (is_etokenAmount st) origin reply
        else st in
      ours ← includes_any (ci_outputScript thisInput) hashes;
      let st := if ours : bool then mkIn false (is_burn st) (is_etokenAmount st) (is_origin st) (is_reply st) else st in
      parse_inputs isEtokenTx hashes (S i) inputs st
  end.

(** The variables that the loop over the outputs sets. *)
Record outputState := mkOut {
  os_xecAmount : bn;
  os_etokenAmount : bn;
  os_airdropFlag : bool;
  os_airdropTokenId : option string;
  os_message : buffer;
  os_isCashtab : bool;
  os_isEncrypted : bool;
  os_decrypted : bool;
}.

Definition with_message (st : outputState) (message : buffer) (cashtab encrypted decrypted : bool) : outputState :=
  mkOut (os_xecAmount st) (os_etokenAmount st) (os_airdropFlag st) (os_airdropTokenId st) message cashtab encrypted decrypted.

(** How the loop goes on after a message: with the amounts of the output, with the
    next output ([continue]), or not at all ([break]). *)
Inductive flow := GoOn | Continue | Break.

(** The key for messages: that of the first output without tokens. *)
Definition message_key (wallet : wallet) : result (option buffer) :=
  match w_state wallet ≫= ws_nonSlpUtxos with
  | Some (u :: _) =>
      fundingWif ← getUtxoWif u (Some wallet);
      '(_, privateKey, _) ← wif_decode fundingWif;
      Ok (Some privateKey)
  | _ => Ok None
  end.

(** The part of the [try] block: the bytes of the message. *)
Definition decrypt (key : buffer) (msgString : option string) : result buffer :=
  match msgString with
  | None => Throw (TypeError "The first argument must be of type string or an instance of Buffer")
  | Some s =>
      structData ← OpReturn.convertToEncryptStruct (Hex.fromHex s);
      ecies_decrypt key structData
  end.

(** The airdrop prefix: the flag, the token, and what is left of the array. *)
Definition strip_airdrop (st : outputState) (parsed : list string) : outputState * list string :=
  match parsed with
  | p :: _ =>
      if String.eqb p OpReturn.airdrop
      then (mkOut (os_xecAmount st) (os_etokenAmount st) true (parsed !! 1%nat) (os_message st) (os_isCashtab st)
              (os_isEncrypted st) (os_decrypted st), drop 2 parsed)
      else (st, parsed)
  | [] => (st, parsed)
  end.

(** The branches for the kinds of messages. *)
Definition parse_message (wallet : wallet) (incoming : bool) (st : outputState) (parsed : list string) : result (outputState * flow) :=
  let is_type p := match parsed with t :: _ => String.eqb t p | [] => false end in
  if is_type OpReturn.cashtab then
    Ok (match parsed !! 1%nat with
        | Some m => with_message st (Hex.fromHex m) true (os_isEncrypted st) (os_decrypted st)
        | None => with_message st [] (os_isCashtab st) (os_isEncrypted st) (os_decrypted st)
        end, GoOn)
  else if is_type OpReturn.cashtabEncrypted then
    if negb incoming
    then Ok (with_message st (OpReturn.bytes_of "Only the message recipient can view this") true true (os_decrypted st), Continue)
    else
      key ← message_key wallet;
      match key with
      | None => Ok (st, Break)
      | Some key =>
          Ok (match decrypt key (parsed !! 1%nat) with
              | Ok m => with_message st m true true true
              | Throw _ => with_message st (OpReturn.bytes_of "Unable to decrypt this message") true true (os_decrypted st)
              end, GoOn)
      end
  else
    Ok (match parsed with
        | [] => with_message st [] (os_isCashtab st) (os_isEncrypted st) (os_decrypted st)
        | _ => with_message st (Hex.fromHex (foldr String.append EmptyString parsed)) (os_isCashtab st) (os_isEncrypted st) (os_decrypted st)
        end, GoOn).

(** An output of value 0 without tokens. *)
Definition op_return_output (wallet : wallet) (incoming : bool) (o : chronikOutput) (st : outputState) : result (outputState * flow) :=
  if String.eqb (co_value o) "0" && missing (co_slpToken o) then
    parsed ← OpReturn.parseOpReturn (co_outputScript o);
    match parsed with
    | None => Ok (st, Break)
    | Some parsed => let '(st, parsed) := strip_airdrop st parsed in parse_message wallet incoming st parsed
    end
  else Ok (st, GoOn).

Definition with_amounts (st : outputState) (xec etoken : bn) : outputState :=
  mkOut xec etoken (os_airdropFlag st) (os_airdropTokenId st) (os_message st) (os_isCashtab st) (os_isEncrypted st) (os_decrypted st).

(** The change of an amount of tokens; without [slpToken] the exception is caught. *)
Definition etoken_change (f : bn → bn → bn) (o : chronikOutput) (etoken : bn) : bn :=
  match co_slpToken o with Some t => f etoken (bn_of_string (st_amount t)) | None => etoken end.

(** The amounts of an output at a hash of the wallet. *)
Definition amount_at (incoming isEtokenTx isTokenBurn isGenesisTx : bool) (o : chronikOutput) (st : outputState) (hash : string)
    : outputState :=
  if includes (co_outputScript o) hash then
    let thisOutputAmount := bn_of_string (co_value o) in
    let xec := (if incoming then bn_plus else bn_minus) (os_xecAmount st) thisOutputAmount in
    let etoken :=
      if isEtokenTx && negb isTokenBurn
      then etoken_change (if incoming || isGenesisTx then bn_plus else bn_minus) o (os_etokenAmount st)
      else os_etokenAmount st in
    with_amounts st xec etoken
  else st.

(** The amounts of an output. *)
Definition output_amounts (incoming isEtokenTx isTokenBurn isGenesisTx : bool) (hashes : list string) (o : chronikOutput) (st : outputState)
    : outputState :=
  let st := fold_left (amount_at incoming isEtokenTx isTokenBurn isGenesisTx o) hashes st in
  if incoming then st
  else
    let etoken :=
      if isEtokenTx && negb isGenesisTx && negb isTokenBurn then etoken_change bn_plus o (os_etokenAmount st) else os_etokenAmount st in
    with_amounts st (bn_plus (os_xecAmount st) (bn_of_string (co_value o))) etoken.

Fixpoint parse_outputs (wallet : wallet) (incoming isEtokenTx isTokenBurn isGenesisTx : bool) (hashes : list string)
    (outputs : list chronikOutput) (st : outputState) : result outputState :=
  match outputs with
  | [] => Ok st
  | thisOutput :: outputs =>
      '(st, f) ← op_return_output wallet incoming thisOutput st;
      match f with
      | Break => Ok st
      | Continue => parse_outputs wallet incoming isEtokenTx isTokenBurn isGenesisTx hashes outputs st
      | GoOn =>
          parse_outputs wallet incoming isEtokenTx isTokenBurn isGenesisTx hashes outputs
            (output_amounts incoming isEtokenTx isTokenBurn isGenesisTx hashes thisOutput st)
      end
  end.

(** [x.isEqualTo(y)] *)
Definition bn_isEqualTo (x y : bn) : bool := bn_lte x y && bn_lte y x.

Definition parseChronikTx (tx : chronikTx) (wallet : wallet) (tokenInfoById : tokenInfoMap) : result parsedTx :=
  let walletHash160s := default [] (getHashArrayFromWallet wallet) in
  let isEtokenTx := negb (missing (ct_slpTxData tx)) in
  let isGenesisTx := match ct_slpTxData tx with Some (meta, _) => String.eqb (sm_txType meta) "GENESIS" | None => false end in
  ist ← parse_inputs isEtokenTx walletHash160s 0 (ct_inputs tx) (mkIn true false (bn_of_Z 0) EmptyString EmptyString);
  ost ← parse_outputs wallet (is_incoming ist) isEtokenTx (is_burn ist) isGenesisTx walletHash160s (ct_outputs tx)
          (mkOut (bn_of_Z 0) (is_etokenAmount ist) false (Some EmptyString) [] false false false);
  let emptied := isEtokenTx && bn_isEqualTo (os_etokenAmount ost) (bn_of_Z 0) in
  let isEtokenTx := isEtokenTx && negb emptied in
  let opReturnMessage := if emptied then [] else os_message ost in
  let xecAmount := bn_toString (bn_shiftedBy (os_xecAmount ost) (-1 * Currency.cashDecimals)) in
  let etoken :=
    match ct_slpTxData tx with
    | Some (meta, _) =>
        if isEtokenTx then
          let genesisInfo := tokenInfoById !! sm_tokenId meta in
          let amount :=
            match genesisInfo with
            | Some i => bn_shiftedBy (os_etokenAmount ost) (-1 * ti_decimals i)
            | None => os_etokenAmount ost
            end in
          Some (mkEtoken (bn_toString amount) (is_burn ist) meta genesisInfo)
        else None
    | None => None
    end in
  Ok (mkParsed (is_incoming ist) xecAmount (is_origin ist) etoken (os_airdropFlag ost) (os_airdropTokenId ost)
        (if isEtokenTx then [] else Utf8.toString opReturnMessage)
        (os_isCashtab ost) (os_isEncrypted ost) (os_decrypted ost) (is_reply ist)).

(** ** The history *)

(** The field under which the transactions are returned is [parsedTxHistory], or
    [chronikTxHistory] after new tokens were fetched. *)
Record txHistory := mkHistory {
  th_parsedTxHistory : option (list (chronikTx * parsedTx));
  th_chronikTxHistory : option (list (chronikTx * parsedTx));
  th_tokenInfoById : tokenInfoMap;
  th_newTokensToCache : bool;
}.

Definition returnGetTxHistoryChronikPromise (chronik : chronik) (hash : string) : promise (list chronikTx) :=
  match history chronik hash 0 Currency.txHistoryCount with
  | inl txs => Resolved txs
  | inr f => Rejected (f_exn f)
  end.

Fixpoint parse_all (wallet : wallet) (tokenInfoById : tokenInfoMap) (txs : list chronikTx) : result (list (chronikTx * parsedTx)) :=
  match txs with
  | [] => Ok []
  | tx :: txs =>
      parsed ← parseChronikTx tx wallet tokenInfoById;
      rest ← parse_all wallet tokenInfoById txs;
      Ok ((tx, parsed) :: rest)
  end.

(** The token of a transaction whose metadata is missing. *)
Definition uncached_token (p : parsedTx) : option string :=
  match px_etoken p with
  | Some e => match ef_genesisInfo e with None => Some (sm_tokenId (ef_slpMeta e)) | Some _ => None end
  | None => None
  end.

(** Without duplicates, in order. *)
Definition uncached_tokens (ps : list (chronikTx * parsedTx)) : list string :=
  fold_left (λ ids p, match uncached_token p.2 with
                      | Some i => if existsb (String.eqb i) ids then ids else ids ++ [i]
                      | None => ids
                      end) ps [].

(** A failed request leaves [txHistoryOfAllAddresses] undefined. *)
Definition getTxHistoryChronik (chronik : chronik) (wallet : wallet) (tokenInfoById : tokenInfoMap) : promise txHistory :=
  match Path1899 wallet with
  | None => Rejected (TypeError "Cannot read properties of undefined")
  | Some path1899 =>
      let hashes := map (λ a, default "undefined"%string (hash160 a)) [Path145 wallet; Path245 wallet; path1899] in
      match promise_all (map (returnGetTxHistoryChronikPromise chronik) hashes) with
      | Pending => Pending
      | Rejected _ => Rejected (TypeError "Cannot read properties of undefined")
      | Resolved txHistoryOfAllAddresses =>
          let flat := flattenChronikTxHistory txHistoryOfAllAddresses in
          let sorted := sortAndTrimChronikTxHistory flat (Z.to_nat Currency.txHistoryCount) in
          match parse_all wallet tokenInfoById sorted with
          | Throw e => Rejected e
          | Ok chronikTxHistory =>
              match uncached_tokens chronikTxHistory with
              | [] => Resolved (mkHistory (Some chronikTxHistory) None tokenInfoById false)
              | uncachedTokenIds =>
                  match promise_all (map (returnGetTokenInfoChronikPromise chronik) uncachedTokenIds) with
                  | Pending => Pending
                  | Rejected _ => Resolved (mkHistory None (Some chronikTxHistory) tokenInfoById true)
                  | Resolved infos => Resolved (mkHistory None (Some chronikTxHistory) (add_infos infos tokenInfoById) true)
                  end
              end
          end
      end
  end.

(** ** The address that minted a token *)

(** [Number(s)] of decimal digits; [None] is [NaN].  Amounts of chronik have no
    other form. *)
Definition digits_value (s : string) : option Z :=
  if forallb (λ c, (48 <=? code c) && (code c <=? 57)) (String.list_ascii_of_string s)
  then digits_prefix 10 (Some 0) s else None.

Definition has_tokens (o : chronikOutput) : bool :=
  match co_slpToken o with
  | Some t => negb (OpReturn.is_empty (st_amount t)) && match digits_value (st_amount t) with Some n => 0 <? n | None => false end
  | None => false
  end.

(** The last output with tokens is the one that counts.  Exceptions are returned,
    not thrown. *)
Definition getMintAddress (chronik : chronik) (tokenId : string) : string + js_exn :=
  match tx_of chronik tokenId with
  | inr f => inr (f_exn f)
  | inl genesisTx =>
      let mintingHash160 :=
        fold_left (λ h o, if has_tokens o then Some (script_hash (co_outputScript o)) else h) (ct_outputs genesisTx) None in
      match mintingHash160 with
      | None => inr (TypeError "The first argument must be of type string or an instance of Buffer")
      | Some h =>
          match WalletAddress.hash160ToAddress h with
          | Ok a => WalletAddress.convertEcashtoEtokenAddr a
          | Throw e => inr e
          end
      end
  end.

End S.
End History.
