(* ===== verification/HistoryLaws.v ===== *)
(** * Laws of outputs, tokens and history

    The order of the history, the balances of tokens, the amounts that the history
    shows, and that a message arrives. *)

From stdpp Require Import base tactics list gmap numbers strings pretty sorting.
From Stdlib Require Import QArith.
From S2P Require Import Prelude JsNumber JsFloat NodeBuffer Opcodes PushData Script Externals Encodings Curve Asm TransactionBuilder.
From S2P Require Import JsString Utf8 BigNumber OpReturn WalletExternals WalletAddress Wallet CashMethods ChronikUtils History.
Import CashMethods ChronikUtils History.
Open Scope Z_scope.

Module HistoryLaws.

(** ** Sorting *)

Section Sort.
Context {A : Type} (compare : A → A → Z).

(** The comparison is that of a key, in descending order. *)
Context (key : A → Z * Z).
Definition key_ge (p q : Z * Z) : Prop := p.1 > q.1 ∨ (p.1 = q.1 ∧ p.2 >= q.2).
Hypothesis compare_key : ∀ a b, compare a b <= 0 ↔ key_ge (key a) (key b).

Lemma key_ge_total p q : ~ key_ge p q → key_ge q p.
Proof. unfold key_ge. lia. Qed.

Lemma key_ge_trans p q r : key_ge p q → key_ge q r → key_ge p r.
Proof. unfold key_ge. lia. Qed.

Lemma key_ge_antisym p q : key_ge p q → key_ge q p → p = q.
Proof. destruct p, q. unfold key_ge. cbn. intros. f_equal; lia. Qed.

Lemma sort_insert_perm x l : sort_insert compare x l ≡ₚ x :: l.
Proof. induction l as [|y l IH]; [done|]. cbn. destruct (_ <=? 0); [done|]. rewrite IH. apply Permutation_swap. Qed.

Lemma js_sort_perm l : js_sort compare l ≡ₚ l.
Proof. induction l as [|x l IH]; [done|]. cbn. by rewrite sort_insert_perm, IH. Qed.

Abbreviation sorted := (StronglySorted (λ a b, key_ge (key a) (key b))).

Lemma sort_insert_sorted x l : sorted l → sorted (sort_insert compare x l).
Proof.
  induction 1 as [|y l Hs IH Hy]; [by repeat constructor|]. cbn. destruct (Z.leb_spec (compare x y) 0) as [Hc|Hc].
  - apply compare_key in Hc. constructor; [by constructor|]. constructor; [done|].
    eapply Forall_impl; [exact Hy|]. intros z. by apply key_ge_trans.
  - constructor; [done|]. rewrite sort_insert_perm. constructor; [|done].
    apply key_ge_total. rewrite <- compare_key. lia.
Qed.

Lemma js_sort_sorted l : sorted (js_sort compare l).
Proof. induction l; [constructor|by apply sort_insert_sorted]. Qed.

(** Elements with the same key stay in their order. *)
Definition with_key (k : Z * Z) (l : list A) : list A := filter (λ a, key a = k) l.

Lemma sort_insert_stable k x l : sorted l → with_key k (sort_insert compare x l) = with_key k (x :: l).
Proof.
  unfold with_key. induction 1 as [|y l Hs IH Hy]; [done|]. cbn [sort_insert]. destruct (Z.leb_spec (compare x y) 0) as [Hc|Hc]; [done|].
  rewrite !filter_cons in *. rewrite IH. destruct (decide (key y = k)) as [Ey|]; [|done]. destruct (decide (key x = k)) as [Ex|]; [|done].
  exfalso. assert (compare x y <= 0); [|lia]. apply compare_key. rewrite Ex, Ey. unfold key_ge. lia.
Qed.

Lemma js_sort_stable k l : with_key k (js_sort compare l) = with_key k l.
Proof.
  induction l as [|x l IH]; [done|]. change (with_key k (sort_insert compare x (js_sort compare l)) = with_key k (x :: l)).
  rewrite sort_insert_stable by apply js_sort_sorted.
  unfold with_key in *. rewrite !filter_cons. by rewrite IH.
Qed.

End Sort.

(** The key of a transaction: unconfirmed ones come first. *)
Definition recency (tx : chronikTx) : option Z * Z := (ct_block tx, ct_timeFirstSeen tx).

(** [a] is shown before [b]. *)
Definition before (a b : chronikTx) : Prop :=
  match ct_block a, ct_block b with
  | None, Some _ => True
  | Some _, None => False
  | None, None => ct_timeFirstSeen a >= ct_timeFirstSeen b
  | Some h, Some k => h > k ∨ (h = k ∧ ct_timeFirstSeen a >= ct_timeFirstSeen b)
  end.

Definition confirmed_key (tx : chronikTx) : Z * Z := (default 0 (ct_block tx), ct_timeFirstSeen tx).
Definition unconfirmed_key (tx : chronikTx) : Z * Z := (0, ct_timeFirstSeen tx).

Lemma compare_confirmed_key a b : compare_confirmed a b <= 0 ↔ key_ge (confirmed_key a) (confirmed_key b).
Proof. unfold compare_confirmed, key_ge, confirmed_key. cbn [fst snd]. destruct (Z.eqb_spec (default 0 (ct_block b) - default 0 (ct_block a)) 0); lia. Qed.

Lemma compare_unconfirmed_key a b : compare_unconfirmed a b <= 0 ↔ key_ge (unconfirmed_key a) (unconfirmed_key b).
Proof. unfold compare_unconfirmed, key_ge, unconfirmed_key. cbn [fst snd]. lia. Qed.

Lemma filter_partition {A} (f : A → bool) l : List.filter f l ++ List.filter (λ x, negb (f x)) l ≡ₚ l.
Proof.
  induction l as [|x l IH]; [done|]. cbn. destruct (f x); cbn; [by rewrite IH|]. rewrite <- Permutation_middle. by rewrite IH.
Qed.

Lemma sorted_mono {A} (R S : A → A → Prop) l : (∀ a b, a ∈ l → b ∈ l → R a b → S a b) → StronglySorted R l → StronglySorted S l.
Proof.
  intros H Hs. induction Hs as [|x l Hs IH Hx]; constructor.
  - apply IH. intros a b Ha Hb. apply H; by right.
  - rewrite Forall_forall in *. intros y Hy. apply H; [left|by right|by apply Hx].
Qed.

Lemma sorted_app {A} (R : A → A → Prop) l k : StronglySorted R l → StronglySorted R k → (∀ a b, a ∈ l → b ∈ k → R a b) → StronglySorted R (l ++ k).
Proof.
  induction 1 as [|x l Hs IH Hx]; intros Hk H; [done|]. cbn. constructor.
  - apply IH; [done|]. intros a b Ha. apply H. by right.
  - rewrite Forall_app. split; [done|]. rewrite Forall_forall. intros b Hb. apply H; [left|done].
Qed.

Lemma elem_of_filter_bool {A} (f : A → bool) x l : x ∈ List.filter f l ↔ x ∈ l ∧ f x = true.
Proof. rewrite !list_elem_of_In. apply filter_In. Qed.

Lemma filter_filter_bool {A} (P : A → Prop) `{∀ x, Decision (P x)} (f : A → bool) l :
  (∀ x, P x → f x = true) → filter P (List.filter f l) = filter P l.
Proof.
  intros Hf. induction l as [|x l IH]; [done|]. cbn [List.filter]. destruct (f x) eqn:E; rewrite !filter_cons, IH; [done|].
  destruct (decide (P x)) as [Hp|]; [|done]. apply Hf in Hp. congruence.
Qed.

Lemma filter_none {A} (P : A → Prop) `{∀ x, Decision (P x)} l : (∀ x, x ∈ l → ~ P x) → filter P l = [].
Proof.
  induction l as [|x l IH]; intros Hn; [done|]. rewrite filter_cons. destruct (decide (P x)) as [Hp|]; [exfalso; apply (Hn x); [left|done]|].
  apply IH. intros y Hy. apply Hn. by right.
Qed.

(** The transactions with a given height and time. *)
Definition same_age (k : option Z * Z) (l : list chronikTx) : list chronikTx := filter (λ tx, recency tx = k) l.

Lemma stable_part cmp key (f : chronikTx → bool) k l :
  (∀ a b, cmp a b <= 0 ↔ key_ge (key a) (key b)) → (∀ a b : chronikTx, recency a = recency b → key a = key b) →
  same_age k (js_sort cmp (List.filter f l)) = same_age k (List.filter f l).
Proof.
  intros Hc Hk. unfold same_age. set (m := List.filter f l).
  destruct (decide (filter (λ tx, recency tx = k) m = [])) as [E|E].
  - rewrite E. apply filter_none. intros x Hx Hr. rewrite js_sort_perm in Hx.
    assert (x ∈ filter (λ tx, recency tx = k) m) as Hin by by apply list_elem_of_filter. rewrite E in Hin. by apply elem_of_nil in Hin.
  - destruct (filter (λ tx, recency tx = k) m) as [|x0 l0] eqn:Ef; [done|]. rewrite <- Ef.
    assert (Hx0 : recency x0 = k) by (assert (x0 ∈ filter (λ tx, recency tx = k) m) as Hin by (rewrite Ef; left); by apply list_elem_of_filter in Hin as [? _]).
    assert (Hf : ∀ n, filter (λ tx, recency tx = k) n = filter (λ tx, recency tx = k) (with_key key (key x0) n)).
    { intros n. unfold with_key. rewrite list_filter_filter. apply list_filter_iff. intros tx. split; [|tauto].
      intros Hr. split; [done|]. apply Hk. congruence. }
    rewrite (Hf (js_sort cmp m)), (Hf m). by rewrite js_sort_stable.
Qed.

(** The order of the history.  [sortAndTrimChronikTxHistory] keeps the first of
    the transactions in the order: unconfirmed ones first and the latest of them
    first, then by descending height and time.  No transaction is lost or made up,
    and those of the same age keep their order, which makes the result unique. *)
Theorem history_sorted txs n : ∃ l, sortAndTrimChronikTxHistory txs n = take n l ∧ l ≡ₚ txs ∧ StronglySorted before l ∧
  ∀ k, same_age k l = same_age k txs.
Proof.
  eexists. split; [reflexivity|]. set (u := List.filter (λ tx, missing (ct_block tx)) txs).
  set (c := List.filter (λ tx, negb (missing (ct_block tx))) txs).
  assert (Hu : ∀ a, a ∈ js_sort compare_unconfirmed u → ct_block a = None).
  { intros a Ha. rewrite js_sort_perm in Ha. apply elem_of_filter_bool in Ha as [_ Ha]. by destruct (ct_block a). }
  assert (Hc : ∀ a, a ∈ js_sort compare_confirmed c → is_Some (ct_block a)).
  { intros a Ha. rewrite js_sort_perm in Ha. apply elem_of_filter_bool in Ha as [_ Ha]. by destruct (ct_block a). }
  split_and!.
  - rewrite !js_sort_perm. apply filter_partition.
  - apply sorted_app.
    + eapply sorted_mono; [|apply (js_sort_sorted _ unconfirmed_key), compare_unconfirmed_key]. intros a b Ha Hb. unfold key_ge, before, unconfirmed_key.
      rewrite (Hu a Ha), (Hu b Hb). cbn. lia.
    + eapply sorted_mono; [|apply (js_sort_sorted _ confirmed_key), compare_confirmed_key]. intros a b Ha Hb. unfold key_ge, before, confirmed_key.
      destruct (Hc a Ha) as [h ->], (Hc b Hb) as [k ->]. done.
    + intros a b Ha Hb. unfold before. rewrite (Hu a Ha). by destruct (Hc b Hb) as [k ->].
  - intros k. unfold same_age. rewrite filter_app.
    fold (same_age k (js_sort compare_unconfirmed u)) (same_age k (js_sort compare_confirmed c)). unfold u, c. rewrite (stable_part _ unconfirmed_key), (stable_part _ confirmed_key);
      [|apply compare_confirmed_key|unfold recency, confirmed_key; congruence|apply compare_unconfirmed_key|unfold recency, unconfirmed_key; congruence].
    unfold same_age. destruct k as [[h|] t].
    + rewrite (filter_none _ u); [cbn [app]|].
      * apply filter_filter_bool. intros tx Hr. injection Hr as -> _. done.
      * intros tx Htx Hr. apply elem_of_filter_bool in Htx as [_ Htx]. injection Hr as Hr _. by rewrite Hr in Htx.
    + rewrite (filter_none _ c), app_nil_r.
      * apply filter_filter_bool. intros tx Hr. injection Hr as -> _. done.
      * intros tx Htx Hr. apply elem_of_filter_bool in Htx as [_ Htx]. injection Hr as Hr _. by rewrite Hr in Htx.
Qed.

(** ** Tokens *)

Section Tokens.
Context `{BN : !BigNumber} `{BNS : !BigNumberSpec}.

(** The output holds [p.2] units of the token [p.1]. *)
Definition holds_tokens (u : utxo) (p : string * Z) : Prop :=
  ∃ meta t, u_slpMeta u = Some meta ∧ sm_tokenId meta = p.1 ∧ u_slpToken u = Some t ∧ st_amount t = pretty p.2.

(** The units of a token. *)
Definition units (i : string) (ts : list (string * Z)) : Z := zsum (map snd (filter (λ p, p.1 = i) ts)).

Lemma units_snoc i ts p : units i (ts ++ [p]) = units i ts + (if decide (p.1 = i) then p.2 else 0).
Proof.
  unfold units. rewrite filter_app, map_app, zsum_app, filter_cons. destruct (decide _); cbn; lia.
Qed.

Lemma pretty_not_empty (n : Z) : OpReturn.is_empty (pretty n) = false.
Proof.
  unfold OpReturn.is_empty. apply String.eqb_neq. intros E. pose proof (parseInt_pretty n) as H. rewrite E in H. done.
Qed.

Lemma token_of_utxo_eq u p : holds_tokens u p → token_of_utxo u = Ok (p.1, pretty p.2).
Proof. intros (meta & t & E1 & E2 & E3 & E4). unfold token_of_utxo. by rewrite E1, E3, E2, E4. Qed.

(** The balances [toks] of the tokens in [ts]. *)
Record books (toks : list (string * bn)) (ts : list (string * Z)) : Prop := {
  bk_nodup : NoDup (map fst toks);
  bk_ids i : i ∈ map fst toks ↔ i ∈ map fst ts;
  bk_units i b : (i, b) ∈ toks → bn_is b (inject_Z (units i ts));
}.

Lemma add_token_ids i a toks j : j ∈ map fst (add_token i a toks) ↔ j = i ∨ j ∈ map fst toks.
Proof.
  induction toks as [|[t b] toks IH]; cbn [add_token map fst].
  - rewrite list_elem_of_singleton, elem_of_nil. tauto.
  - destruct (String.eqb_spec t i) as [->|]; cbn [map fst]; rewrite !elem_of_cons; [tauto|]. rewrite IH. tauto.
Qed.

Lemma add_token_nodup i a toks : NoDup (map fst toks) → NoDup (map fst (add_token i a toks)).
Proof.
  induction toks as [|[t b] toks IH]; cbn [add_token map fst]; intros H; [repeat constructor; by intros ?%elem_of_nil|].
  apply NoDup_cons in H as [H1 H2]. destruct (String.eqb_spec t i) as [->|]; cbn [map fst]; constructor; try done; [|by apply IH].
  rewrite add_token_ids. intros [?|?]; [congruence|done].
Qed.

Lemma add_token_entry i (n : Z) toks j b : NoDup (map fst toks) → (j, b) ∈ add_token i (pretty n) toks →
  (j ≠ i ∧ (j, b) ∈ toks) ∨ (j = i ∧ ((i ∉ map fst toks) ∧ b = bn_of_string (pretty n) ∨
    ∃ b0, (i, b0) ∈ toks ∧ b = bn_plus b0 (bn_of_string (pretty n)))).
Proof.
  induction toks as [|[t c] toks IH]; cbn [add_token map fst]; rewrite ?pretty_not_empty; intros Hn.
  - rewrite list_elem_of_singleton. intros [= -> ->]. right. split; [done|]. left. split; [apply not_elem_of_nil|done].
  - apply NoDup_cons in Hn as [Hn1 Hn2]. destruct (String.eqb_spec t i) as [->|Ht]; rewrite elem_of_cons; intros [[= -> ->]|Hin].
    + right. split; [done|]. right. exists c. split; [left|done].
    + left. split; [|by right]. intros ->. apply Hn1. apply list_elem_of_fmap. by exists (i, b).
    + left. split; [done|left].
    + destruct (IH Hn2 Hin) as [[? ?]|[-> [[H ->]|(b0 & H & ->)]]].
      * left. split; [done|by right].
      * right. split; [done|]. left. split; [|done]. rewrite not_elem_of_cons. split; [congruence|done].
      * right. split; [done|]. right. exists b0. split; [by right|done].
Qed.

Lemma units_absent i ts : (i ∉ map fst ts) → units i ts = 0.
Proof.
  intros H. unfold units. rewrite filter_none; [done|]. intros [j n] Hin E. apply H. cbn in E. subst j. apply list_elem_of_fmap. by exists (i, n).
Qed.

Lemma books_add i (n : Z) toks ts : books toks ts → books (add_token i (pretty n) toks) (ts ++ [(i, n)]).
Proof.
  intros [B1 B2 B3]. split.
  - by apply add_token_nodup.
  - intros j. rewrite add_token_ids, map_app, elem_of_app, B2. cbn. rewrite list_elem_of_singleton. tauto.
  - intros j b Hin. rewrite units_snoc. cbn [fst snd].
    destruct (add_token_entry _ _ _ _ _ B1 Hin) as [[Hj H]|[-> [[H ->]|(b0 & H & ->)]]].
    + rewrite decide_False by congruence. rewrite Z.add_0_r. by apply B3.
    + rewrite decide_True by done. rewrite units_absent; [apply bn_of_string_int|]. by rewrite <- B2.
    + rewrite decide_True by done. apply bn_plus_int; [by apply B3|apply bn_of_string_int].
Qed.

Lemma collect_books us ts toks ts0 : Forall2 holds_tokens us ts → books toks ts0 →
  ∃ toks', collect_balances us toks = Ok toks' ∧ books toks' (ts0 ++ ts).
Proof.
  intros H. revert toks ts0. induction H as [|u [i n] us ts Hu _ IH]; intros toks ts0 B.
  - exists toks. by rewrite app_nil_r.
  - cbn [collect_balances]. rewrite (token_of_utxo_eq _ _ Hu). cbn [mbind result_bind fst snd].
    destruct (IH _ _ (books_add i n _ _ B)) as (toks' & E & B'). exists toks'. by rewrite <- app_assoc in B'.
Qed.

Lemma books_nil : books [] [].
Proof. split; [constructor|done|by intros i b ?%elem_of_nil]. Qed.

(** The amount of a token of which there are [n] units. *)
Definition decimal (s : string) (n : Z) (info : tokenInfo) : Prop :=
  bn_is (bn_of_string s) (inject_Z n * ten (- ti_decimals info))%Q.

Lemma decimal_shift x n info : bn_is x (inject_Z n) → decimal (bn_toString (bn_shiftedBy x (-1 * ti_decimals info))) n info.
Proof. intros H. apply bn_of_toString. replace (-1 * ti_decimals info) with (- ti_decimals info) by lia. by apply bn_shiftedBy_is. Qed.

Lemma process_spec toks ts (cache : gmap string tokenInfo) : books toks ts → (∀ i, i ∈ map fst ts → is_Some (cache !! i)) →
  ∃ tokens, processPreliminaryTokensArray toks cache = Ok tokens ∧ map t_tokenId tokens = map fst toks ∧
    ∀ t, t ∈ tokens → ∃ info, cache !! t_tokenId t = Some info ∧ t_info t = Some info ∧ decimal (t_balance t) (units (t_tokenId t) ts) info.
Proof.
  intros [_ B2 B3] Hc.
  assert (Hids : ∀ i, i ∈ map fst toks → is_Some (cache !! i)) by (intros i Hi; by apply Hc, B2). clear B2 Hc.
  induction toks as [|[i b] toks IH]; [exists []; split_and!; [done|done|by intros t ?%elem_of_nil]|]. cbn [processPreliminaryTokensArray].
  destruct (Hids i) as [info Ei]; [left|]. rewrite Ei.
  destruct IH as (tokens & -> & Em & Ht); [intros j c Hj; apply B3; by right|intros j Hj; apply Hids; by right|]. cbn [mbind result_bind].
  eexists. split_and!; [reflexivity|cbn; by rewrite Em|]. intros t. rewrite elem_of_cons. intros [->|Hin]; [|by apply Ht].
  exists info. split_and!; [done|done|]. apply decimal_shift, B3. left.
Qed.

Lemma finalize_utxos us ts (cache : gmap string tokenInfo) : Forall2 holds_tokens us ts → (∀ i, i ∈ map fst ts → is_Some (cache !! i)) →
  ∃ tus, finalizeSlpUtxos us cache = Ok tus ∧ map tu_utxo tus = us ∧
    Forall2 (λ tu p, tu_tokenId tu = p.1 ∧ ∃ info, cache !! p.1 = Some info ∧ tu_decimals tu = ti_decimals info ∧ decimal (tu_tokenQty tu) p.2 info) tus ts.
Proof.
  induction 1 as [|u p us ts Hu _ IH]; intros Hc; [by exists []|]. cbn [finalizeSlpUtxos]. rewrite (token_of_utxo_eq _ _ Hu). cbn [mbind result_bind].
  destruct (Hc p.1) as [info Ei]; [left|]. rewrite Ei. destruct IH as (tus & -> & Em & Hf); [intros i Hi; apply Hc; by right|]. cbn [mbind result_bind].
  eexists. split_and!; [reflexivity|cbn; by rewrite Em|]. constructor; [|done]. split; [done|]. exists info. split_and!; [done|done|].
  apply decimal_shift, bn_of_string_int.
Qed.

Lemma organize_spec all : let '(slp, non) := organizeUtxosByType all in
  slp ++ non ≡ₚ all ∧ slp = List.filter (λ u, negb (missing (u_slpToken u))) all ∧ non = List.filter (λ u, missing (u_slpToken u)) all.
Proof.
  induction all as [|u all IH]; [done|]. cbn [organizeUtxosByType List.filter]. destruct (organizeUtxosByType all) as [slp non].
  destruct IH as (H1 & -> & ->). destruct (missing (u_slpToken u)); cbn [negb]; (split_and!; [|done|done]); [|by apply perm_skip].
  etrans; [symmetry; apply Permutation_middle|by apply perm_skip].
Qed.

(** The balances of tokens.  The outputs of a wallet are split by kind and none
    is lost.  When the metadata of their tokens is known, every token has one
    entry; its balance is the number of units in all the outputs of the token, at
    the decimals of the token; and the outputs that can be spent carry quantities
    at the same decimals, so that the balance is what can be sent. *)
Theorem token_balances all slp non ts (cache : gmap string tokenInfo) :
  organizeUtxosByType all = (slp, non) → Forall2 holds_tokens slp ts → (∀ i, i ∈ map fst ts → is_Some (cache !! i)) →
  slp ++ non ≡ₚ all ∧ Forall (λ u, u_slpToken u = None) non ∧
  ∃ prelim tokens tus, getPreliminaryTokensArray slp = Ok prelim ∧ processPreliminaryTokensArray prelim cache = Ok tokens ∧
    finalizeSlpUtxos slp cache = Ok tus ∧ NoDup (map t_tokenId tokens) ∧ (∀ i, i ∈ map t_tokenId tokens ↔ i ∈ map fst ts) ∧
    (∀ t, t ∈ tokens → ∃ info, cache !! t_tokenId t = Some info ∧ t_info t = Some info ∧ decimal (t_balance t) (units (t_tokenId t) ts) info) ∧
    map tu_utxo tus = slp ∧
    Forall2 (λ tu p, tu_tokenId tu = p.1 ∧ ∃ info, cache !! p.1 = Some info ∧ tu_decimals tu = ti_decimals info ∧ decimal (tu_tokenQty tu) p.2 info) tus ts.
Proof.
  intros Ho Hf Hc. pose proof (organize_spec all) as Hs. rewrite Ho in Hs. destruct Hs as (Hp & _ & Hn). split_and!; [done| |].
  { rewrite Hn, Forall_forall. intros u Hu. apply elem_of_filter_bool in Hu as [_ Hu]. by destruct (u_slpToken u). }
  destruct (collect_books slp ts [] [] Hf books_nil) as (prelim & E & B). cbn [app] in B.
  destruct (process_spec prelim ts cache B Hc) as (tokens & Et & Em & Ht). destruct (finalize_utxos slp ts cache Hf Hc) as (tus & Eu & Emu & Hu).
  exists prelim, tokens, tus. split_and!; try done; rewrite Em; [apply B|apply B].
Qed.

(** ** Fetching the metadata *)

Lemma promise_all_resolved {A} (ps : list (promise A)) l : Forall2 (λ p a, p = Resolved a) ps l → promise_all ps = Resolved l.
Proof. induction 1 as [|p a ps l -> _ IH]; [done|]. cbn. by rewrite IH. Qed.

Lemma promise_all_rejected {A} (ps : list (promise A)) : Exists (λ p, is_rejected p = true) ps → ∃ e, promise_all ps = Rejected e.
Proof.
  induction 1 as [p ps H|p ps _ [e IH]]; cbn; [destruct p; try done; by eexists|]. rewrite IH. destruct p; by eexists.
Qed.

Lemma promise_all_pending {A} (ps : list (promise A)) : Forall (λ p, is_rejected p = false) ps → Pending ∈ ps → promise_all ps = Pending.
Proof.
  induction 1 as [|p ps Hp H IH]; [by intros ?%elem_of_nil|]. assert (Hn : ∀ e, promise_all ps ≠ Rejected e).
  { clear IH. induction H as [|q ps Hq _ IH]; intros e E; [done|]. cbn in E. destruct q; [|done|]; destruct (promise_all ps) eqn:Eq; try done; by apply (IH e). }
  rewrite elem_of_cons. cbn. intros [<-|Hin].
  - destruct (promise_all ps) eqn:E; [done| |done]. by destruct (Hn e).
  - rewrite (IH Hin). by destruct p.
Qed.

Lemma add_infos_lookup infos cache i : add_infos infos cache !! i =
  match last (filter (λ x, ti_tokenId x = i) infos) with Some x => Some x | None => cache !! i end.
Proof.
  unfold add_infos. revert cache. induction infos as [|x infos IH]; intros cache; [done|]. cbn [fold_left]. rewrite IH, filter_cons.
  destruct (decide (ti_tokenId x = i)) as [<-|Hn]; [|by rewrite lookup_insert_ne].
  rewrite lookup_insert_eq. destruct (filter _ infos) as [|y l] eqn:E; [done|]. change (last (x :: y :: l)) with (last (y :: l)).
  destruct (last (y :: l)) eqn:El; [done|]. by apply last_None in El.
Qed.

Lemma process_throws toks (cache : gmap string tokenInfo) i : i ∈ map fst toks → cache !! i = None →
  ∃ e, processPreliminaryTokensArray toks cache = Throw e.
Proof.
  intros Hi Hn. induction toks as [|[j b] toks IH]; [by apply elem_of_nil in Hi|]. cbn [processPreliminaryTokensArray].
  cbn in Hi. apply elem_of_cons in Hi as [<-|Hi]; [rewrite Hn; by eexists|]. destruct (cache !! j); [|by eexists].
  destruct (IH Hi) as [e ->]. by eexists.
Qed.

(** The transaction of a token, as far as it is fetched. *)
Definition genesis (ck : chronik) (i : string) (info : tokenInfo) : Prop :=
  ∃ tx meta, tx_of ck i = inl tx ∧ ct_slpTxData tx = Some (meta, Some info).
Definition no_genesis (ck : chronik) (i : string) : Prop := ∃ tx, tx_of ck i = inl tx ∧ ct_slpTxData tx ≫= snd = None.
Definition unavailable (ck : chronik) (i : string) : Prop := ∃ f, tx_of ck i = inr f.

Lemma fetch_all ck ids : Forall (λ i, ∃ info, genesis ck i info) ids → ∃ infos,
  promise_all (map (returnGetTokenInfoChronikPromise ck) ids) = Resolved infos ∧ map ti_tokenId infos = ids.
Proof.
  intros H. assert (∃ infos, Forall2 (λ i x, returnGetTokenInfoChronikPromise ck i = Resolved x ∧ ti_tokenId x = i) ids infos) as [infos Hf].
  { induction H as [|i ids (info & tx & meta & E1 & E2) _ [infos IH]]; [by exists []|]. exists (with_info i info :: infos). constructor; [|done].
    unfold returnGetTokenInfoChronikPromise. by rewrite E1, E2. }
  exists infos. split.
  - apply promise_all_resolved. apply Forall2_fmap_l. eapply Forall2_impl; [exact Hf|]. by intros i x [? _].
  - clear H. induction Hf as [|i x ids infos [_ Hx] _ IH]; [done|]. cbn. by rewrite Hx, IH.
Qed.

(** Fetching the metadata of tokens.  When chronik has the genesis of every token
    that is not in the cache, [finalizeTokensArray] returns an entry for every
    token; the cache keeps what it had and has all the tokens.  When a request
    fails, the exception is logged and the function is rejected for another reason,
    the token without metadata.  When a transaction is there but is no genesis and
    no request fails, the promise stays pending for ever. *)
Theorem tokens_finalized ck toks ts (cache : gmap string tokenInfo) : books toks ts →
  let ids := uncached cache (map fst toks) in
  (Forall (λ i, ∃ info, genesis ck i info) ids → ∃ tokens cache',
    finalizeTokensArray ck toks cache = Resolved (tokens, cache', 0 <? len ids) ∧ map t_tokenId tokens = map fst toks ∧
    cache ⊆ cache' ∧ (∀ i, i ∈ map fst ts → is_Some (cache' !! i)) ∧
    ∀ t, t ∈ tokens → ∃ info, cache' !! t_tokenId t = Some info ∧ decimal (t_balance t) (units (t_tokenId t) ts) info) ∧
  (Exists (unavailable ck) ids → ∃ e, finalizeTokensArray ck toks cache = Rejected e) ∧
  (Forall (λ i, ~ unavailable ck i) ids → Exists (no_genesis ck) ids → finalizeTokensArray ck toks cache = Pending).
Proof.
  intros B ids. unfold finalizeTokensArray. fold ids. split_and!.
  - intros Hg. destruct (fetch_all ck ids Hg) as (infos & -> & Ei). cbv zeta. set (cache' := add_infos infos cache).
    assert (Hsub : cache ⊆ cache').
    { apply map_subseteq_spec. intros i x Hx. unfold cache'. rewrite add_infos_lookup, filter_none; [done|]. intros y Hy Ey.
      assert (i ∈ ids) as Hin by (rewrite <- Ei; apply list_elem_of_fmap; by exists y). apply list_elem_of_filter in Hin as [Hin _]. congruence. }
    assert (Hall : ∀ i, i ∈ map fst ts → is_Some (cache' !! i)).
    { intros i Hi. apply (bk_ids _ _ B) in Hi. destruct (cache !! i) as [x|] eqn:Ex; [exists x; by eapply lookup_weaken|].
      assert (i ∈ ids) as Hin by (by apply list_elem_of_filter). rewrite <- Ei in Hin. apply list_elem_of_fmap in Hin as (y & Ey & Hy).
      unfold cache'. rewrite add_infos_lookup. destruct (last _) eqn:El; [done|]. apply last_None in El.
      assert (y ∈ filter (λ x, ti_tokenId x = i) infos) as Hf by by apply list_elem_of_filter. rewrite El in Hf. by apply elem_of_nil in Hf. }
    destruct (process_spec toks ts cache' B Hall) as (tokens & -> & Em & Ht). exists tokens, cache'. unfold len. rewrite length_map.
    split_and!; try done. intros t Hin. destruct (Ht t Hin) as (info & ? & _ & ?). by exists info.
  - intros Hu. destruct (promise_all_rejected (map (returnGetTokenInfoChronikPromise ck) ids)) as [e ->].
    { apply Exists_fmap. eapply Exists_impl; [exact Hu|]. intros i [f Ef]. cbn. unfold returnGetTokenInfoChronikPromise. by rewrite Ef. }
    cbv zeta. apply Exists_exists in Hu as (i & Hi & _). apply list_elem_of_filter in Hi as [Hn Hi].
    destruct (process_throws toks (add_infos [] cache) i Hi Hn) as [e' ->]. by eexists.
  - intros Hn Hg. rewrite promise_all_pending; [done| |].
    + apply Forall_fmap. eapply Forall_impl; [exact Hn|]. intros i Hi. cbn. unfold returnGetTokenInfoChronikPromise.
      destruct (tx_of ck i) as [tx|f] eqn:E; [by destruct (_ ≫= _)|]. destruct Hi. by exists f.
    + apply Exists_exists in Hg as (i & Hi & tx & E1 & E2). apply list_elem_of_fmap. exists i. split; [|done].
      unfold returnGetTokenInfoChronikPromise. by rewrite E1, E2.
Qed.

End Tokens.

(** ** Amounts in the history *)

Section Amounts.
Context {Mem : UninitMem} `{WF : !Wif} `{CA : !Cashaddr} `{BN : !BigNumber} `{EI : !Ecies} `{BNS : !BigNumberSpec}.

(** The transaction spends an output of the wallet. *)
Definition spends_ours (hashes : list string) (inputs : list chronikInput) : bool :=
  existsb (λ i, match ci_outputScript i with Some s => existsb (includes s) hashes | None => false end) inputs.

Lemma parse_inputs_spec isEtokenTx hashes inputs : Forall (λ i, is_Some (ci_outputScript i)) inputs → ∀ n st,
  ∃ st', parse_inputs isEtokenTx hashes n inputs st = Ok st' ∧ is_incoming st' = is_incoming st && negb (spends_ours hashes inputs).
Proof.
  induction 1 as [|i inputs [s Hs] _ IH]; intros n st; [exists st; by rewrite andb_true_r|].
  cbn [parse_inputs spends_ours existsb]. rewrite Hs. set (st1 := match burn_amount i with Some _ => _ | None => _ end).
  assert (H1 : is_incoming st1 = is_incoming st) by (unfold st1; destruct (burn_amount i), isEtokenTx; done).
  set (st2 := if (n =? 0)%nat then _ else st1).
  assert (H2 : is_incoming st2 = is_incoming st) by (unfold st2; destruct (n =? 0)%nat; [by destruct (originating _ _)|done]).
  assert (includes_any (Some s) hashes = Ok (existsb (includes s) hashes)) as -> by by destruct hashes. cbn [mbind result_bind].
  destruct (existsb (includes s) hashes); cbn [orb negb].
  - destruct (IH (S n) (mkIn false (is_burn st2) (is_etokenAmount st2) (is_origin st2) (is_reply st2))) as (st' & E & H'). exists st'. split; [exact E|]. rewrite H'. cbn. by rewrite andb_false_r.
  - destruct (IH (S n) st2) as (st' & E & H'). exists st'. split; [exact E|]. by rewrite H', H2.
Qed.

(** The message of an output that is encrypted to someone. *)
Definition is_encrypted (parsed : list string) : Prop :=
  head (match parsed with p :: _ => if String.eqb p OpReturn.airdrop then drop 2 parsed else parsed | [] => [] end) =
    Some OpReturn.cashtabEncrypted.

(** The loop goes past the output: it has a value or tokens, or it has a message
    that need not be decrypted. *)
Definition readable (incoming : bool) (o : chronikOutput) : Prop :=
  co_value o ≠ "0"%string ∨ is_Some (co_slpToken o) ∨
  ∃ parsed, OpReturn.parseOpReturn (co_outputScript o) = Ok (Some parsed) ∧ (incoming = true → ~ is_encrypted parsed).

Lemma strip_eq st parsed : ∃ st', strip_airdrop st parsed = (st', match parsed with p :: _ => if String.eqb p OpReturn.airdrop then drop 2 parsed else parsed | [] => [] end) ∧
  os_xecAmount st' = os_xecAmount st.
Proof. unfold strip_airdrop. destruct parsed as [|p parsed]; [by exists st|]. destruct (String.eqb p OpReturn.airdrop); eexists; split; done. Qed.

Lemma readable_flow wallet incoming o st : readable incoming o →
  ∃ st' f, op_return_output wallet incoming o st = Ok (st', f) ∧ f ≠ Break ∧ os_xecAmount st' = os_xecAmount st ∧ (f = Continue → co_value o = "0"%string).
Proof.
  unfold readable, op_return_output. destruct (String.eqb_spec (co_value o) "0") as [E0|E0]; cbn [andb]; [|intros _; by exists st, GoOn].
  destruct (co_slpToken o) as [t|]; cbn [missing]; [intros _; by exists st, GoOn|].
  intros [?|[[? ?]|(parsed & -> & He)]]; [done|done|]. cbn [mbind result_bind]. destruct (strip_eq st parsed) as (st1 & -> & H1).
  unfold is_encrypted in He. set (ps := match parsed with p :: _ => _ | [] => _ end) in *. unfold parse_message.
  destruct (match ps with t :: _ => String.eqb t OpReturn.cashtab | [] => false end) eqn:Ec.
  { eexists _, _. split; [reflexivity|]. destruct (ps !! 1%nat); by rewrite <- H1. }
  destruct (match ps with t :: _ => String.eqb t OpReturn.cashtabEncrypted | [] => false end) eqn:Ee.
  - destruct incoming; cbn [negb].
    + exfalso. apply (He eq_refl). destruct ps as [|t ps']; [done|]. apply String.eqb_eq in Ee as ->. done.
    + eexists _, _. split; [reflexivity|]. by rewrite <- H1.
  - eexists _, _. split; [reflexivity|]. destruct ps; by rewrite <- H1.
Qed.

(** How many hashes of the wallet a script includes. *)
Definition hits (hashes : list string) (o : chronikOutput) : Z := len (List.filter (includes (co_outputScript o)) hashes).

Lemma amount_at_fold incoming e b g o hashes st x v : bn_is (os_xecAmount st) (inject_Z x) → co_value o = pretty v →
  bn_is (os_xecAmount (fold_left (amount_at incoming e b g o) hashes st)) (inject_Z (if incoming : bool then x + v * hits hashes o else x - v * hits hashes o)).
Proof.
  intros Hx Hv. unfold hits. revert st x Hx. induction hashes as [|h hashes IH]; intros st x Hx; cbn [fold_left List.filter].
  - change (len []) with 0. rewrite Z.mul_0_r, Z.sub_0_r, Z.add_0_r. by destruct incoming.
  - unfold amount_at at 2. destruct (includes (co_outputScript o) h); [|by apply IH]. rewrite len_cons. cbv zeta.
    set (st1 := with_amounts _ _ _). assert (H1 : bn_is (os_xecAmount st1) (inject_Z (if incoming then x + v else x - v))).
    { unfold st1. cbn [with_amounts os_xecAmount]. rewrite Hv. pose proof (bn_of_string_int v). destruct incoming; [by apply bn_plus_int|by apply bn_minus_int]. }
    specialize (IH st1 _ H1). eapply bn_is_proper; [|exact IH]. destruct incoming; apply eq_subrelation; try apply _; f_equal; lia.
Qed.

Lemma output_amounts_xec incoming e b g hashes o st x v : bn_is (os_xecAmount st) (inject_Z x) → co_value o = pretty v →
  bn_is (os_xecAmount (output_amounts incoming e b g hashes o st)) (inject_Z (x + v * (if incoming : bool then hits hashes o else 1 - hits hashes o))).
Proof.
  intros Hx Hv. pose proof (amount_at_fold incoming e b g o hashes st x v Hx Hv) as H. unfold output_amounts. destruct incoming; [done|].
  cbv zeta. cbn [with_amounts os_xecAmount]. rewrite Hv. eapply bn_is_proper; [|apply bn_plus_int; [exact H|apply bn_of_string_int]].
  apply eq_subrelation; try apply _. f_equal. lia.
Qed.

Lemma parse_outputs_xec wallet incoming e b g hashes outputs vs : Forall2 (λ o v, co_value o = pretty v) outputs vs → Forall (readable incoming) outputs → ∀ st x,
  bn_is (os_xecAmount st) (inject_Z x) →
  ∃ st', parse_outputs wallet incoming e b g hashes outputs st = Ok st' ∧
    bn_is (os_xecAmount st') (inject_Z (x + zsum (zip_with (λ o v, v * (if incoming : bool then hits hashes o else 1 - hits hashes o)) outputs vs))).
Proof.
  induction 1 as [|o v outputs vs Hv _ IH]; intros Hr st x Hx; [exists st; split; [done|]; cbn; by rewrite Z.add_0_r|].
  apply Forall_cons in Hr as [Hr1 Hr]. cbn [parse_outputs zip_with]. destruct (readable_flow wallet incoming o st Hr1) as (st1 & f & -> & Hf & Hx1 & H0).
  cbn [mbind result_bind]. change (zsum (?a :: ?l)) with (a + zsum l). rewrite Z.add_assoc. rewrite <- Hx1 in Hx. destruct f; [| |done].
  - apply IH; [done|]. by apply output_amounts_xec.
  - assert (v = 0) as ->.
    { pose proof (parseInt_pretty v) as E. rewrite <- Hv, (H0 eq_refl) in E. change (parseInt "0" 10) with (Some 0) in E. congruence. }
    rewrite Z.mul_0_l, Z.add_0_r. by apply IH.
Qed.

(** The amount that the history shows.  For a transaction whose inputs have
    scripts, with outputs that include at most one hash of the wallet each and
    messages that need not be decrypted, [parseChronikTx] returns; the transaction is
    outgoing exactly when an input includes a hash of the wallet; the amount, in
    hundredths of XEC, is what an incoming transaction pays to the wallet, and what
    an outgoing one pays to others. *)
Theorem parsed_amount tx wallet infos (vs : list Z) :
  let hashes := default [] (getHashArrayFromWallet wallet) in
  let incoming := negb (spends_ours hashes (ct_inputs tx)) in
  Forall (λ i, is_Some (ci_outputScript i)) (ct_inputs tx) → Forall2 (λ o v, co_value o = pretty v) (ct_outputs tx) vs →
  Forall (readable incoming) (ct_outputs tx) → Forall (λ o, hits hashes o <= 1) (ct_outputs tx) →
  ∃ p, parseChronikTx tx wallet infos = Ok p ∧ px_incoming p = incoming ∧
    bn_is (bn_of_string (px_xecAmount p)) (inject_Z (zsum (zip_with (λ o v,
      if bool_decide (hits hashes o = if incoming then 1 else 0) then v else 0) (ct_outputs tx) vs))%Z * ten (-2))%Q.
Proof.
  intros hashes incoming Hi Hv Hr Hh. unfold parseChronikTx. fold hashes. set (e := negb (missing (ct_slpTxData tx))). set (g := match ct_slpTxData tx with Some _ => _ | None => _ end).
  destruct (parse_inputs_spec e hashes _ Hi 0 (mkIn true false (bn_of_Z 0) EmptyString EmptyString)) as (ist & -> & Einc). cbn [is_incoming andb] in Einc.
  fold incoming in Einc. cbn [mbind result_bind]. rewrite Einc.
  destruct (parse_outputs_xec wallet incoming e (is_burn ist) g hashes _ _ Hv Hr (mkOut (bn_of_Z 0) (is_etokenAmount ist) false (Some EmptyString) [] false false false) 0 (bn_of_Z_is 0))
    as (ost & -> & Hx). cbn [mbind result_bind]. eexists. split; [reflexivity|]. cbn [px_incoming px_xecAmount]. split; [done|].
  apply bn_of_toString. change (-1 * Currency.cashDecimals) with (-2). apply bn_shiftedBy_is. eapply bn_is_proper; [|exact Hx].
  apply eq_subrelation; try apply _. f_equal. rewrite Z.add_0_l. clear Hx Hr. f_equal.
  induction Hv as [|o v os vs' _ _ IH]; [done|]. apply Forall_cons in Hh as [Ho Hh]. cbn [zip_with]. f_equal; [|by apply IH].
  pose proof (len_nonneg (List.filter (includes (co_outputScript o)) hashes)) as Hn. fold (hits hashes o) in Hn.
  destruct incoming; case_bool_decide; [rewrite H; lia| |rewrite H; lia|]; [assert (hits hashes o = 0) as -> by lia|assert (hits hashes o = 1) as -> by lia]; lia.
Qed.

End Amounts.

(** ** Messages *)

Section Messages.
Context {Mem : UninitMem} `{WF : !Wif} `{CA : !Cashaddr} `{BN : !BigNumber} `{EI : !Ecies} `{EIS : !EciesSpec}.

(** The output of a script that carries a message. *)
Definition carrier (script : buffer) : chronikOutput := mkChronikOutput "0" (Hex.toHex script) None.


(** The history is lost when new tokens are found in it.  As the code returns the
    transactions under the name [chronikTxHistory] then, and its caller reads
    [parsedTxHistory], there is a history to read exactly when no token was
    missing from the cache. *)
Theorem history_field ck wallet infos h : getTxHistoryChronik ck wallet infos = Resolved h →
  ∃ l, (th_newTokensToCache h = false ∧ th_parsedTxHistory h = Some l ∧ uncached_tokens l = [] ∧ th_tokenInfoById h = infos) ∨
       (th_newTokensToCache h = true ∧ th_parsedTxHistory h = None ∧ th_chronikTxHistory h = Some l ∧ uncached_tokens l ≠ []).
Proof.
  unfold getTxHistoryChronik. destruct (Path1899 wallet) as [a|]; [|done]. cbv zeta. destruct (promise_all _) as [txs|e|]; [|done|done].
  destruct (parse_all _ _ _) as [l|e] eqn:E; [|done]. intros H. exists l. destruct (uncached_tokens l) as [|i ids] eqn:Eu.
  - injection H as <-. by left.
  - right. destruct (promise_all _); [| |done]; injection H as <-; done.
Qed.

End Messages.

(** ** Examples *)

Section Examples.
Import Concrete ConcreteCurve ConcreteText ConcreteBn ConcreteWallet.
Local Existing Instance zero_mem.

Local Definition an_info : tokenInfo := mkTokenInfo "TK" "token" "url" "hash" 2 "aa".
Local Definition token_utxo (v : Z) : utxo :=
  mkUtxo (Hex.toHex (repeat 9 32)) 0 "546" "etoken:q" (Some (mkSlpMeta "aa" "SEND")) (Some (mkSlpToken (pretty v) false)).
Local Definition plain_utxo : utxo := mkUtxo (Hex.toHex (repeat 9 32)) 1 "1000" "ecash:q" None None.
Local Definition some_cache : gmap string tokenInfo := {["aa"%string := an_info]}.

Local Lemma token_utxo_holds v : holds_tokens (token_utxo v) ("aa"%string, v).
Proof. eexists _, _. split_and!; reflexivity. Qed.

Local Lemma two_hold : Forall2 holds_tokens [token_utxo 150; token_utxo 50] [("aa"%string, 150); ("aa"%string, 50)].
Proof. repeat (apply Forall2_cons; split); [apply token_utxo_holds|apply token_utxo_holds|by apply Forall2_nil]. Qed.

Lemma token_balances_witness : ∃ prelim tokens,
  getPreliminaryTokensArray [token_utxo 150; token_utxo 50] = Ok prelim ∧ processPreliminaryTokensArray prelim some_cache = Ok tokens.
Proof.
  destruct (token_balances [token_utxo 150; plain_utxo; token_utxo 50] [token_utxo 150; token_utxo 50] [plain_utxo]
    [("aa"%string, 150); ("aa"%string, 50)] some_cache) as (_ & _ & prelim & tokens & tus & E1 & E2 & _).
  - reflexivity.
  - exact two_hold.
  - intros i Hi. cbn in Hi. rewrite !elem_of_cons in Hi. destruct Hi as [->|[->|Hi]];
      [by exists an_info|by exists an_info|by apply elem_of_nil in Hi].
  - exists prelim, tokens. split; [exact E1|exact E2].
Defined.

Local Definition genesis_tx : chronikTx := mkChronikTx "aa" [] [] None 0 (Some (mkSlpMeta "aa" "GENESIS", Some an_info)).
Local Definition a_chronik : chronik :=
  mkChronik (λ _ _, inl None) (λ _ _ _, inl []) (λ _, inl []) (λ _, inl genesis_tx) (λ _, inr (mkFailure (Error "none") None)).

Local Lemma some_books : books [("aa"%string, bn_of_Z 200)] [("aa"%string, 150); ("aa"%string, 50)].
Proof.
  split.
  - by apply NoDup_singleton.
  - intros i. cbn. rewrite !elem_of_cons. tauto.
  - intros i b. rewrite list_elem_of_singleton. intros [-> ->]%pair_eq. exact (bn_of_Z_is 200).
Qed.

Lemma tokens_finalized_witness : ∃ tokens cache', finalizeTokensArray a_chronik [("aa"%string, bn_of_Z 200)] ∅ = Resolved (tokens, cache', true).
Proof.
  destruct (tokens_finalized a_chronik [("aa"%string, bn_of_Z 200)] [("aa"%string, 150); ("aa"%string, 50)] ∅ some_books) as [H _].
  destruct H as (tokens & cache' & E & _).
  - constructor; [|constructor]. exists an_info, genesis_tx, (mkSlpMeta "aa" "GENESIS"). split; reflexivity.
  - exists tokens, cache'. exact E.
Defined.

Local Definition hash_text (n : Z) : string := Hex.toHex (repeat n 20).
Local Definition an_account (n : Z) : account :=
  mkAccount (String.append "ecash:q" (hash_text n)) (text (128 :: 1 :: be_bytes 32 n)) (Some (hash_text n)) (Some "02"%string).
Local Definition a_state : walletState := mkState None None None (Some [mkUtxo (hash_text 9) 0 "1000" (cashAddress (an_account 5)) None None]) false None None.
Local Definition a_wallet : wallet := mkWallet "seed" "name" (an_account 3) (an_account 4) (Some (an_account 5)) (Some a_state).
Local Definition script_text (n : Z) : string := String.append "76a914" (String.append (hash_text n) "88ac").
Local Definition sent_tx : chronikTx :=
  mkChronikTx "bb" [mkChronikInput (Some (script_text 5)) "00" None]
    [mkChronikOutput "2000" (script_text 8) None; mkChronikOutput "3248" (script_text 5) None] None 0 None.

Lemma parsed_amount_witness : ∃ p, parseChronikTx sent_tx a_wallet ∅ = Ok p ∧ px_incoming p = false ∧
  bn_is (bn_of_string (px_xecAmount p)) (inject_Z 2000 * ten (-2))%Q.
Proof.
  destruct (parsed_amount sent_tx a_wallet ∅ [2000; 3248]) as (p & E & Hi & Hx).
  - constructor; [by eexists|constructor].
  - repeat (apply Forall2_cons; split); [reflexivity|reflexivity|by apply Forall2_nil].
  - constructor; [by left|]. constructor; [by left|constructor].
  - constructor; [vm_compute; discriminate|]. constructor; [vm_compute; discriminate|constructor].
  - exists p. split; [exact E|]. split; [exact Hi|exact Hx].
Defined.

Local Definition nothing_yet : outputState := mkOut (bn_of_Z 0) (bn_of_Z 0) false (Some EmptyString) [] false false false.

Local Lemma hello_short : OpReturn.short_push (OpReturn.bytes_of "hello").
Proof. apply OpReturn.short_push_long; [concrete|vm_compute; split; congruence]. Qed.

Local Lemma hello_valid : Utf8.valid (OpReturn.bytes_of "hello").
Proof.
  assert (E : Utf8.toString (OpReturn.bytes_of "hello") = OpReturn.bytes_of "hello") by (vm_compute; reflexivity).
  rewrite <- E. apply Utf8.toString_spec.
Qed.


Lemma history_field_witness : ∃ l,
  (th_newTokensToCache (mkHistory (Some []) None ∅ false) = false ∧ th_parsedTxHistory (mkHistory (Some []) None ∅ false) = Some l) ∨
  th_newTokensToCache (mkHistory (Some []) None ∅ false) = true.
Proof.
  destruct (history_field a_chronik a_wallet ∅ (mkHistory (Some []) None ∅ false)) as (l & [(H1 & H2 & _)|(H1 & _)]).
  - vm_compute. reflexivity.
  - exists l. left. split; [exact H1|exact H2].
  - exists l. right. exact H1.
Defined.

End Examples.

End HistoryLaws.
