(* ===== verification/TokenLaws.v ===== *)
(** * What a transfer of tokens sends

    [sendToken] of [cashtab/src/utils/transactions.js]: which outputs are spent, the
    amounts in the script of the transfer, and that no tokens are lost. *)

From stdpp Require Import base tactics list gmap numbers strings pretty.
From Stdlib Require Import QArith Qpower.
From S2P Require Import Prelude JsNumber JsFloat NodeBuffer Opcodes Externals Encodings BufferUtils Crypto Curve Script Asm.
From S2P Require Import Templates TemplateLaws Transaction TransactionLaws Sighash ECSignature Ecdsa Address ECPair TransactionBuilder.
From S2P Require Import TransactionBuilderLaws JsString BigNumber OpReturn WalletExternals WalletAddress Wallet Amounts TxBuilder.
From S2P Require Import CashMethods Drafts Payments Signing Built Send SendLaws.
Import Types Networks TransactionLaws Sighash TransactionBuilderLaws TxBuilder Amounts CashMethods Drafts Payments Signing Built Send SendLaws.
Open Scope Z_scope.

Module TokenLaws.
Section S.
Context {Mem : UninitMem} `{TF : !Typeforce} `{VU : !VarUint} `{CH : !CreateHash} `{B66 : !Bip66}
  `{B58 : !Bs58check} `{B32 : !Bech32} `{BI : !Bigi} `{EC : !Ecurve} `{HM : !CreateHmac} `{WF : !Wif}
  `{CA : !Cashaddr} `{BN : !BigNumber} `{SLP : !SlpMdm} `{BS58 : !Bs58} `{EI : !Ecies}.
Context `{TS : !TypeforceSpec} `{B58S : !Bs58checkSpec} `{VUS : !VarUintSpec} `{CS : !CreateHashSpec} `{B66S : !Bip66Spec}
  `{BS : !BigiSpec} `{ES : !EcurveSpec} `{HS : !CreateHmacSpec} `{BNS : !BigNumberSpec}.

(** ** Units of a token *)

(** [n] units of a token with [d] decimals. *)
Definition quantity (x : bn) (n d : Z) : Prop := bn_is x (inject_Z n * ten (- d))%Q.

Lemma quantity_units x n d : 0 <= d <= 15 → quantity x n d → bn_is (bn_times x (bn_pow10 d)) (inject_Z n).
Proof.
  intros Hd H. eapply bn_is_proper; [|eapply bn_times_is; [exact H|apply bn_pow10_is; lia]].
  rewrite <- Qmult_assoc, (Qmult_comm (ten (- d))), ten_neg by lia. apply Qmult_1_r.
Qed.

Lemma quantity_plus x y m n d : quantity x m d → quantity y n d → quantity (bn_plus x y) (m + n) d.
Proof. intros Hx Hy. eapply bn_is_proper; [|by apply bn_plus_is]. rewrite inject_Z_plus. ring. Qed.

Lemma quantity_minus x y m n d : quantity x m d → quantity y n d → quantity (bn_minus x y) (m - n) d.
Proof.
  intros Hx Hy. eapply bn_is_proper; [|by apply bn_minus_is]. unfold Z.sub. rewrite inject_Z_plus, inject_Z_opp. ring.
Qed.

Lemma ten_pos d : (0 < ten d)%Q.
Proof. unfold ten. apply Qpower_0_lt. reflexivity. Qed.

Lemma quantity_lte x y m n d : quantity x m d → quantity y n d → bn_lte x y = (m <=? n).
Proof.
  intros Hx Hy. apply eq_bool_prop_intro. rewrite !Is_true_true, (bn_lte_is _ _ _ _ Hx Hy), Z.leb_le.
  rewrite Qmult_le_r by apply ten_pos. by rewrite <- Zle_Qle.
Qed.

Lemma quantity_lt x y m n d : quantity x m d → quantity y n d → bn_lt x y = (m <? n).
Proof.
  intros Hx Hy. apply eq_bool_prop_intro. rewrite !Is_true_true, (bn_lt_is _ _ _ _ Hx Hy), Z.ltb_lt.
  rewrite Qmult_lt_r by apply ten_pos. by rewrite <- Zlt_Qlt.
Qed.

Lemma quantity_0 d : quantity (bn_of_Z 0) 0 d.
Proof. eapply bn_is_proper; [|apply bn_of_Z_is]. unfold inject_Z. ring. Qed.

(** An output of a token that holds [n] units. *)
Definition holds (i : string) (d : Z) (u : tokenUtxo) (n : Z) : Prop :=
  tu_tokenId u = i ∧ tu_decimals u = d ∧ quantity (bn_of_string (tu_tokenQty u)) n d ∧ 0 <= n.

Lemma totalTokens_units i d tus ns : 0 <= d <= 15 → Forall2 (holds i d) tus ns → bn_is (totalTokens tus d) (inject_Z (zsum ns)).
Proof.
  intros Hd H. unfold totalTokens. assert (∀ acc a, bn_is acc (inject_Z a) →
    bn_is (fold_left (λ tot txo, bn_plus tot (bn_times (bn_of_string (tu_tokenQty txo)) (bn_pow10 d))) tus acc) (inject_Z (a + zsum ns))) as G.
  { induction H as [|u n tus ns (_ & _ & Hq & _) _ IH]; intros acc a Ha; [by rewrite Z.add_0_r|]. cbn [fold_left].
    change (zsum (n :: ns)) with (n + zsum ns). rewrite Z.add_assoc. apply IH. apply bn_plus_int; [done|]. by apply quantity_units. }
  apply (G _ 0), bn_of_Z_is.
Qed.

(** The amounts in the script of a transfer of [m] units out of [total]. *)
Definition amounts_of (m total : Z) : list Z := if m <? total then [m; total - m] else [m].

Lemma amounts_conserve m total : m <= total → zsum (amounts_of m total) = total.
Proof. intros H. unfold amounts_of. destruct (Z.ltb_spec m total); cbn; lia. Qed.

(** The script of a transfer. *)
Lemma send_script i d tus ns q m : 0 <= d <= 15 → tus ≠ [] → Forall2 (holds i d) tus ns → q ≠ EmptyString → quantity (bn_of_string q) m d →
  m <= zsum ns → ∃ amounts, Forall2 (λ x n, bn_is x (inject_Z n)) amounts (amounts_of m (zsum ns)) ∧
    generateSendOpReturn tus (Some q) = s ← slp_send i amounts; Ok (s, len (amounts_of m (zsum ns))).
Proof.
  intros Hd Hne Hh Hq Hm Hle. pose proof (totalTokens_units i d tus ns Hd Hh) as Ht. destruct Hh as [|u n tus ns (Eu & Ed & _) Hh]; [done|].
  unfold generateSendOpReturn, amounts_of. cbn [falsy]. unfold OpReturn.is_empty. rewrite (proj2 (String.eqb_neq _ _)) by done.
  cbn [first mbind result_bind bn_of_option]. rewrite Eu, Ed. pose proof (quantity_units _ _ _ Hd Hm) as Hmu.
  pose proof (bn_minus_int _ _ _ _ Ht Hmu) as Hc. unfold bn_gt. rewrite (bn_lt_int _ _ _ _ (bn_of_Z_is 0) Hc).
  replace (0 <? zsum (n :: ns) - m) with (m <? zsum (n :: ns)) by (apply eq_bool_prop_intro; rewrite !Is_true_true, !Z.ltb_lt; lia).
  destruct (m <? zsum (n :: ns)); eexists; (split; [|reflexivity]); repeat constructor; by apply bn_of_toString.
Qed.

(** ** Choosing the outputs *)

Section Collect.
Context (i : string) (d m : Z) (amount : bn) (tus : list tokenUtxo) (ns : list Z).
Hypothesis Ham : quantity amount m d.
Hypothesis Hh : Forall2 (holds i d) tus ns.

Lemma collect_tokens_spec rest b k sp pays acc r : (k <= length tus)%nat → drop k tus = rest → draft b (sp ++ map (λ u, outpoint_of (tu_utxo u)) (take k tus)) pays →
  quantity acc (zsum (take k ns)) d → (∀ j, (0 < j <= k)%nat → zsum (take j ns) < m) → collect_tokens amount rest b (take k tus) acc = Ok r →
  ∃ j, (k <= j <= length tus ∧ (rest ≠ [] → k < j))%nat ∧ r.1.2 = take j tus ∧ quantity r.2 (zsum (take j ns)) d ∧
    draft r.1.1 (sp ++ map (λ u, outpoint_of (tu_utxo u)) (take j tus)) pays ∧
    (∀ l, (0 < l < j)%nat → zsum (take l ns) < m) ∧ (j = length tus ∨ m <= zsum (take j ns)).
Proof.
  revert b k acc. induction rest as [|u rest IH]; intros b k acc Hk Hd D Hacc Hl E.
  - injection E as <-. exists k. split; [by split; [lia|]|]. split_and!; try done; [intros l ?; apply Hl; lia|]. left. apply (f_equal length) in Hd. rewrite length_drop in Hd. cbn in Hd. lia.
  - cbn [collect_tokens] in E. apply bind_ok in E as (b' & Eb & E). assert (Hu : tus !! k = Some u) by (rewrite <- (Nat.add_0_r k), <- lookup_drop, Hd; done).
    destruct (Forall2_lookup_l _ _ _ _ _ Hh Hu) as (n & Hn & _ & _ & Hq & _). pose proof (lookup_lt_Some _ _ _ Hu) as Hlt.
    destruct (proj2 (draft_addInput _ _ _ _ _ D) b' Eb) as (_ & _ & D'). rewrite <- app_assoc in D'.
    assert (Ht : take (S k) tus = take k tus ++ [u]) by by apply take_S_r.
    assert (Hacc' : quantity (bn_plus acc (bn_of_string (tu_tokenQty u))) (zsum (take (S k) ns)) d) by (rewrite (zsum_take_S _ _ _ Hn); by apply quantity_plus).
    rewrite (quantity_lte _ _ _ _ _ Ham Hacc'), <- Ht in E. change [(reverse (Hex.fromHex (u_txid (tu_utxo u))), u_outIdx (tu_utxo u))] with (map (λ u, outpoint_of (tu_utxo u)) [u]) in D'.
    rewrite <- map_app, <- Ht in D'. destruct (Z.leb_spec m (zsum (take (S k) ns))) as [Hc|Hc].
    + injection E as <-. exists (S k). split; [by split; [lia|lia]|]. split_and!; try done; [|by right]. intros l ?. apply Hl. lia.
    + assert (Hd' : drop (S k) tus = rest) by (replace (S k) with (k + 1)%nat by lia; by rewrite <- drop_drop, Hd).
      destruct (IH b' (S k) _ Hlt Hd' D' Hacc') as (j & J1 & J2); [|exact E|].
      * intros l Hl'. destruct (decide (l = S k)) as [->|]; [lia|]. apply Hl. lia.
      * exists j. split; [by split; [lia|lia]|exact J2].
Qed.

End Collect.

(** What the outputs of a transfer cost: two of 546 satoshis, and the fee. *)
Definition xec_need (k : nat) : Z := Currency.etokenSats * 2 + fee_for k 4.

Lemma collect_xec_spec action us vs : String.eqb action "GENESIS" = false → Forall2 worth us vs → byte_count (len us) 4 < 2 ^ 30 →
  ∀ rest b k total rem sp pays r, (k <= length us)%nat → drop k us = rest → draft b (sp ++ map outpoint_of (take k us)) pays →
  bn_is total (inject_Z (zsum (take k vs))) → ((0 < k)%nat → bn_is rem (inject_Z (zsum (take k vs) - xec_need k))) →
  collect_xec action 4 Currency.defaultFee rest b total (take k us) rem = Ok r →
  ∃ j, (k <= j <= length us)%nat ∧ (rest ≠ [] → 0 < j)%nat ∧ r.1.2 = take j us ∧ draft r.1.1 (sp ++ map outpoint_of (take j us)) pays ∧
    ((0 < j)%nat → bn_is r.2 (inject_Z (zsum (take j vs) - xec_need j))).
Proof.
  intros Ha Hw Hsz. induction rest as [|u rest IH]; intros b k total rem sp pays r Hk Hd D Ht Hr E.
  - injection E as <-. exists k. split; [lia|]. by split_and!.
  - cbn [collect_xec] in E. apply bind_ok in E as (b' & Eb & E). assert (Hu : us !! k = Some u) by (rewrite <- (Nat.add_0_r k), <- lookup_drop, Hd; done).
    destruct (Forall2_lookup_l _ _ _ _ _ Hw Hu) as (v & Hv & Hwu). pose proof (lookup_lt_Some _ _ _ Hu) as Hlt.
    destruct (proj2 (draft_addInput _ _ _ _ _ D) b' Eb) as (_ & _ & D'). rewrite <- app_assoc in D'.
    assert (Htk : take (S k) us = take k us ++ [u]) by by apply take_S_r.
    change [(reverse (Hex.fromHex (u_txid u)), u_outIdx u)] with (map outpoint_of [u]) in D'. rewrite <- map_app, <- Htk in D'.
    assert (Htot : bn_is (bn_plus total (bn_of_string (u_value u))) (inject_Z (zsum (take (S k) vs)))) by (rewrite (zsum_take_S _ _ _ Hv); apply bn_plus_int; [done|by apply worth_bn]).
    assert (Hfee : calcFee (take (S k) us) 4 Currency.defaultFee = num_of_Z (fee_for (S k) 4)).
    { rewrite calcFee_exact; [|done|]; unfold fee_for, len; rewrite length_take, Nat.min_l by lia; [done|]. unfold byte_count, len in *. lia. }
    rewrite <- Htk, Hfee, Ha in E. pose proof (fee_for_range (S k) 4 ltac:(lia) ltac:(unfold byte_count, len in *; lia)) as Hfr.
    set (rem' := bn_minus _ (bn_of_number _)) in E.
    assert (Hrem : bn_is rem' (inject_Z (zsum (take (S k) vs) - xec_need (S k)))).
    { unfold rem', xec_need. rewrite Z.sub_add_distr. apply bn_minus_int; [|by apply bn_of_number_int]. apply bn_minus_int; [done|apply bn_of_Z_is]. }
    destruct (bn_gte rem' (bn_of_Z 0)).
    + injection E as <-. exists (S k). split; [lia|]. split; [lia|]. by split_and!.
    + assert (Hd' : drop (S k) us = rest) by (replace (S k) with (k + 1)%nat by lia; by rewrite <- drop_drop, Hd).
      destruct (IH b' (S k) _ rem' sp pays r Hlt Hd' D' Htot (λ _, Hrem) E) as (j & J1 & J2 & J3).
      exists j. split; [lia|]. split; [lia|exact J3].
Qed.

(** ** A transfer *)

Section Transfer.
Context (fuel : nat) (ck : chronik) (w : wallet) (state : walletState) (acc : account) (us : list utxo) (vs : list Z)
  (slps tus : list tokenUtxo) (tvs ns : list Z) (i q dest : string) (d m : Z) (os rs ts : buffer).

(** The wallet has outputs [us] worth [vs], and the outputs [tus] of the token [i],
    with values [tvs] and units [ns]; [m] units are to be sent to [dest]. *)
Record transfer : Prop := {
  tr_state : w_state w = Some state;
  tr_path : Path1899 w = Some acc;
  tr_us : ws_nonSlpUtxos state = Some us;
  tr_slps : ws_slpUtxos state = Some slps;
  tr_tokens : filter_tokens i slps = Ok tus;
  tr_id : i ≠ EmptyString;
  tr_worth : Forall2 worth us vs;
  tr_total : zsum vs <= SATOSHI_MAX;
  tr_values : Forall2 worth (map tu_utxo tus) tvs;
  tr_holds : Forall2 (holds i d) tus ns;
  tr_decimals : 0 <= d <= 15;
  tr_q : q ≠ EmptyString ∧ quantity (bn_of_string q) m d;
  tr_size : byte_count (len us) 4 < 2 ^ 30 ∧ len tus < 2 ^ 30;
  tr_outpoints : Forall (λ u, outpoint_ok (outpoint_of u)) (us ++ map tu_utxo tus);
  tr_own : cashAddress acc ≠ EmptyString ∧ address_script (cashAddress acc) os;
  tr_dest : address_script dest rs;
  tr_tokenAddress u : tus !! 0%nat = Some u → address_script (u_address (tu_utxo u)) ts;
  tr_script j amounts s : Forall2 (λ x n, bn_is x (inject_Z n)) amounts (amounts_of m (zsum (take j ns))) →
    slp_send i amounts = Ok s → bytes_ok s ∧ short s;
}.

Definition the_transfer : sent := sendToken fuel ck w (Some i) (Some q) (Some dest).

(** The outputs of the transaction: the script, the tokens, the rest of them, and
    the change. *)
Definition transfer_outputs (k : nat) (s : buffer) : list (buffer * Z) :=
  [(s, 0); (rs, Currency.etokenSats); (ts, Currency.etokenSats)] ++ change_outputs os (zsum (take k vs) - xec_need k).

(** The transaction spends the first [k] outputs without tokens and the first [j]
    with them; the script has the amounts [amounts]. *)
Record transfers (k j : nat) (amounts : list bn) (s : buffer) (hex : string) (tx : Transaction.transaction) : Prop := {
  tf_amounts : Forall2 (λ x n, bn_is x (inject_Z n)) amounts (amounts_of m (zsum (take j ns)));
  tf_conserve : zsum (amounts_of m (zsum (take j ns))) = zsum (take j ns);
  tf_least l : (0 < l < j)%nat → zsum (take l ns) < m;
  tf_script : slp_send i amounts = Ok s;
  tf_hex : Transaction.fromHex hex = Ok tx;
  tf_final : final w (take k us ++ map tu_utxo (take j tus)) (take k vs ++ take j tvs) (transfer_outputs k s) tx;
  tf_fee : fee_for k 4 <= zsum (take k vs) - zsum (map snd (transfer_outputs k s)) < fee_for k 4 + Currency.dustSats;
}.

Hypothesis R : transfer.

Lemma own_scripts : script_of (OutAddress (cashAddress acc)) = Ok os ∧ bytes_ok os ∧ blen os <= 25.
Proof. apply address_script_of, (tr_own R). Qed.

(** What [generateTokenTxInput] returns. *)
Lemma transfer_inputs b r : draft b [] [] →
  generateTokenTxInput "SEND" us (Some slps) (Some i) (Some q) Currency.defaultFee b = Ok r →
  ∃ k j, (us ≠ [] → 0 < k <= length us)%nat ∧ (0 < j <= length tus)%nat ∧ inputXecUtxos r = take k us ∧ inputTokenUtxos r = take j tus ∧
    draft (tti_txBuilder r) (map outpoint_of (take k us ++ map tu_utxo (take j tus))) [] ∧
    ((0 < k)%nat → bn_is (remainderXecValue r) (inject_Z (zsum (take k vs) - xec_need k)) ∧ xec_need k <= zsum (take k vs)) ∧
    (∀ l, (0 < l < j)%nat → zsum (take l ns) < m) ∧ m <= zsum (take j ns).
Proof.
  intros D E. unfold generateTokenTxInput in E. destruct (_ || _); [done|]. cbv zeta in E.
  change (String.eqb "SEND" "GENESIS") with false in E. change (String.eqb "SEND" "SEND" || String.eqb "SEND" "BURN") with true in E. cbv iota in E.
  apply bind_ok in E as ([[b1 xs] rem] & Ex & E). destruct (bn_lt rem (bn_of_Z 0)) eqn:Elt; [done|]. cbn [default from_option id] in E.
  rewrite (tr_tokens R) in E. cbn [mbind result_bind] in E. destruct (len tus =? 0) eqn:Eln; [done|].
  apply bind_ok in E as ([[b2 sp] got] & Et & E). destruct (bn_lt (bn_minus got _) (bn_of_Z 0)) eqn:Elt2; [done|]. injection E as <-.
  destruct (tr_size R) as [Hsz _]. destruct (tr_q R) as [_ Hq].
  destruct (collect_xec_spec "SEND" us vs eq_refl (tr_worth R) Hsz us b 0 (bn_of_Z 0) (bn_of_Z 0) [] [] _ ltac:(lia) (drop_0 us) D (bn_of_Z_is 0) ltac:(lia) Ex)
    as (k & K1 & K2 & K3 & K4 & K5). cbn [fst snd app] in *.
  destruct (collect_tokens_spec i d m _ tus ns Hq (tr_holds R) tus b1 0 (map outpoint_of (take k us)) [] (bn_of_Z 0) (b2, sp, got) ltac:(lia) (drop_0 tus)) as (j & J1 & J2 & J3 & J4 & J5 & J6);
    [by rewrite app_nil_r|apply quantity_0|lia|exact Et|]. cbn [fst snd] in *.
  pose proof (quantity_minus _ _ _ _ _ J3 Hq) as Hrem. cbn [bn_of_option] in Elt2. rewrite (quantity_lt _ _ _ _ _ Hrem (quantity_0 d)) in Elt2. apply Z.ltb_ge in Elt2.
  assert (Hj : (0 < j)%nat).
  { apply J1. intros Hn. rewrite Hn in Eln. done. }
  exists k, j. cbn [inputXecUtxos inputTokenUtxos tti_txBuilder remainderXecValue]. rewrite K3, J2. split; [intros Hne; specialize (K2 Hne); lia|].
  split; [lia|]. split; [done|]. split; [done|]. split; [by rewrite map_app, map_map|]. split; [|split; [exact J5|lia]].
  intros Hk. specialize (K5 Hk). split; [done|]. rewrite (bn_lt_int _ _ _ _ K5 (bn_of_Z_is 0)) in Elt. apply Z.ltb_ge in Elt. lia.
Qed.

(** What [generateTokenTxOutput] adds. *)
Lemma transfer_added b b' sp k j rem : (0 < j <= length tus)%nat → draft b sp [] → bn_is rem (inject_Z (zsum (take k vs) - xec_need k)) →
  xec_need k <= zsum (take k vs) → m <= zsum (take j ns) →
  generateTokenTxOutput b "SEND" (cashAddress acc) (take j tus) rem None (Some dest) (Some q) = Ok b' →
  ∃ amounts s, Forall2 (λ x n, bn_is x (inject_Z n)) amounts (amounts_of m (zsum (take j ns))) ∧ slp_send i amounts = Ok s ∧
    draft b' sp (transfer_outputs k s).
Proof.
  intros Hj D Hrem Hneed Hm E. unfold generateTokenTxOutput in E. destruct (_ || _); [done|]. unfold token_script in E.
  change (String.eqb "SEND" "GENESIS") with false in E. change (String.eqb "SEND" "SEND") with true in E. cbv iota in E. cbn [missing mbind result_bind] in E.
  destruct (tr_q R) as [Hq1 Hq2]. destruct own_scripts as (Hos & _). pose proof (tr_dest R) as Hd. apply address_script_of in Hd as (Hd & _).
  destruct (send_script i d (take j tus) (take j ns) q m (tr_decimals R)) as (amounts & Ham & Es); try done.
  { intros Hn. apply (f_equal length) in Hn. rewrite length_take in Hn. cbn in Hn. lia. }
  { apply Forall2_take, (tr_holds R). }
  rewrite Es in E. destruct (slp_send i amounts) as [s|] eqn:Esl; [|done]. cbn [mbind result_bind] in E. exists amounts, s. split; [done|]. split; [done|].
  apply bind_ok in E as (b1 & E1 & E). destruct (proj1 (draft_addOutput b sp [] (OutScript s) (Some 0) D) s 0 (script_of_script s) eq_refl) as (b1' & E1' & D1); [unfold SATOSHI_MAX; lia|].
  rewrite E1 in E1'. injection E1' as <-. apply bind_ok in E as (b2 & E2 & E). cbn [add_optional] in E2.
  destruct (proj1 (draft_addOutput b1 sp _ (OutAddress dest) (Some Currency.etokenSats) D1) rs Currency.etokenSats Hd eq_refl) as (b2' & E2' & D2); [unfold SATOSHI_MAX, Currency.etokenSats; lia|].
  rewrite E2 in E2'. injection E2' as <-. cbn [negb orb] in E. apply bind_ok in E as (b3 & E3 & E). apply bind_ok in E3 as (u & Eu & E3).
  assert (Hu : tus !! 0%nat = Some u) by (rewrite <- (lookup_take_lt tus j 0 ltac:(lia)); by destruct (take j tus); [|injection Eu as ->]).
  pose proof (tr_tokenAddress R u Hu) as Hts. apply address_script_of in Hts as (Hts & _).
  destruct (proj1 (draft_addOutput b2 sp _ (OutAddress (u_address (tu_utxo u))) (Some Currency.etokenSats) D2) ts Currency.etokenSats Hts eq_refl) as (b3' & E3' & D3); [unfold SATOSHI_MAX, Currency.etokenSats; lia|].
  rewrite E3 in E3'. injection E3' as <-. rewrite (bn_gte_int _ _ _ _ Hrem (bn_of_Z_is _)) in E. unfold transfer_outputs, change_outputs.
  destruct (Z.leb_spec Currency.dustSats (zsum (take k vs) - xec_need k)) as [Hc|Hc]; [|by injection E as <-; rewrite app_nil_r].
  pose proof (zsum_take_le _ k (worth_nonneg _ _ (tr_worth R))) as Hle. pose proof (tr_total R) as Ht. pose proof (fee_for_pos k 4 ltac:(lia)) as Hf.
  assert (Hr : 0 <= zsum (take k vs) - xec_need k <= SATOSHI_MAX) by (unfold xec_need, Currency.etokenSats in *; lia).
  rewrite (bn_parseInt_int _ _ Hrem) in E by (unfold SATOSHI_MAX in *; lia).
  destruct (proj1 (draft_addOutput b3 sp _ (OutAddress (cashAddress acc)) (Some (zsum (take k vs) - xec_need k)) D3) os _ Hos eq_refl Hr) as (b4 & E4 & D4).
  rewrite E in E4. injection E4 as <-. done.
Qed.

Lemma transfer_wf k j s : (k <= length us)%nat → bytes_ok s ∧ short s → tus !! 0%nat ≠ None → xec_need k <= zsum (take k vs) →
  draft_wf (map outpoint_of (take k us ++ map tu_utxo (take j tus))) (transfer_outputs k s) ∧
  Forall (λ p, bytes_ok p.1) (transfer_outputs k s) ∧
  Forall2 worth (take k us ++ map tu_utxo (take j tus)) (take k vs ++ take j tvs).
Proof.
  intros Hk Hs Hu Hneed. destruct Hs as [Hsb Hss]. destruct own_scripts as (_ & Hob & Hol). pose proof (tr_dest R) as Hd.
  apply address_script_of in Hd as (_ & Hdb & Hdl). destruct (tus !! 0%nat) as [u|] eqn:Eu; [|done]. pose proof (tr_tokenAddress R u Eu) as Ht.
  apply address_script_of in Ht as (_ & Htb & Htl). pose proof (zsum_take_le _ k (worth_nonneg _ _ (tr_worth R))) as Hle. pose proof (tr_total R) as Htot.
  pose proof (fee_for_pos k 4 ltac:(lia)) as Hf.
  assert (Hall : Forall (λ p, bytes_ok p.1 ∧ 0 <= p.2 <= SATOSHI_MAX ∧ short p.1) (transfer_outputs k s)).
  { unfold transfer_outputs. apply Forall_app. unfold SATOSHI_MAX, Currency.etokenSats, short, MAX_SAFE_INTEGER in *. split.
    - repeat (apply Forall_cons; split); [| | |by apply Forall_nil]; cbn [fst snd]; (split_and!; [done|lia|lia|lia]).
    - unfold change_outputs, xec_need, Currency.etokenSats, Currency.dustSats in *. destruct (Z.leb_spec 550 (zsum (take k vs) - (546 * 2 + fee_for k 4))); [|constructor].
      apply Forall_cons. split; [|by apply Forall_nil]. cbn [fst snd]. split_and!; [done|lia|lia|lia]. }
  split_and!.
  - destruct (tr_size R) as [S1 S2]. unfold byte_count, len in S1, S2. split.
    + pose proof (tr_outpoints R) as Ho. rewrite Forall_app in Ho. destruct Ho as [Ho1 Ho2]. rewrite Forall_map. apply Forall_app. split; [by apply Forall_take|].
      rewrite Forall_map in *. by apply Forall_take.
    + eapply Forall_impl; [exact Hall|]. by intros p (_ & ? & ?).
    + unfold len. rewrite length_map, length_app, length_map, !length_take. lia.
    + unfold transfer_outputs, change_outputs. destruct (_ <=? _); unfold len; cbn; lia.
  - eapply Forall_impl; [exact Hall|]. by intros p (? & _).
  - apply Forall2_app; [by apply Forall2_take, (tr_worth R)|]. rewrite <- firstn_map. apply Forall2_take, (tr_values R).
Qed.

(** C5: what a transfer of tokens broadcasts.  [sendToken] either broadcasts nothing
    or one transaction.  It spends the shortest prefix of the outputs of the token
    that has the units asked for; the amounts in its script are those units for the
    recipient and, when something is left, the rest for the sender, so that no
    tokens are burnt or made; the outputs are in the order that the script assumes;
    each input has a signature that verifies under the key of its account; and
    without the values of the outputs with tokens, what is not paid out is the fee,
    exceeded by less than 550 satoshis. *)
Theorem transfer_safe : us ≠ [] → broadcasts the_transfer = [] ∨
  ∃ k j amounts s hex tx, transfers k j amounts s hex tx ∧ broadcasts the_transfer = [(hex, true)].
Proof.
  intros Hne. unfold the_transfer, sendToken. destruct (token_raw _ _ _ _ _ _ _) as [hex|e] eqn:E; [|by left]. right.
  unfold token_raw in E. rewrite (tr_state R) in E. cbn [mbind result_bind] in E. unfold creation_address in E. rewrite (tr_path R) in E. cbn [mbind result_bind] in E.
  rewrite (tr_us R) in E. destruct us as [|u0 us0] eqn:Eus; [done|]. rewrite <- Eus in *. rewrite (tr_slps R) in E. apply bind_ok in E as (r & Er & E).
  destruct (transfer_inputs _ _ draft_new Er) as (k & j & K1 & J1 & Ei & Et & D & Hrem & Hl & Hm). specialize (K1 Hne). rewrite Ei, Et in E.
  destruct (Hrem ltac:(lia)) as [Hrem1 Hneed]. apply bind_ok in E as (b & Eb & E).
  destruct (transfer_added _ _ _ k j _ ltac:(lia) D Hrem1 Hneed Hm Eb) as (amounts & s & Ham & Es & Db).
  destruct (lookup_lt_is_Some_2 tus 0) as [t0 Ht0]; [lia|].
  destruct (transfer_wf k j s ltac:(lia) (tr_script R j amounts s Ham Es) ltac:(by rewrite Ht0) Hneed) as (Hwf & Hb & Hwo).
  destruct (signAndBuildTx_inv w _ _ _ Hwf Hwo fuel b hex Db Hb E) as (tx & Eh & F & _).
  exists k, j, amounts, s, hex, tx. split; [|done]. split; try done; [by apply amounts_conserve|].
  unfold transfer_outputs, change_outputs, xec_need, Currency.etokenSats, Currency.dustSats. rewrite map_app, zsum_app.
  destruct (Z.leb_spec 550 (zsum (take k vs) - (546 * 2 + fee_for k 4))); unfold xec_need, Currency.etokenSats in *; cbn; lia.
Qed.

End Transfer.
End S.

(** ** Examples: 1.2 of a token with one decimal, out of 2 *)

Section Examples.
Import Concrete ConcreteCurve ConcreteText ConcreteBn ConcreteWallet.
Local Existing Instance zero_mem.

Local Definition addr (n : Z) : string := String.append "ecash:q" (Hex.toHex (repeat n 20)).
Local Definition acct (n : Z) : account := mkAccount (addr n) (text (128 :: 1 :: be_bytes 32 n)) None None.
Local Definition coin : utxo := mkUtxo (Hex.toHex (repeat 9 32)) 0 "5000" (addr 5) None None.
Local Definition token_coin : tokenUtxo :=
  mkTokenUtxo (mkUtxo (Hex.toHex (repeat 9 32)) 1 "546" (addr 5) (Some (mkSlpMeta "aa" "SEND")) (Some (mkSlpToken "20" false))) ".20" "aa" 1.
Local Definition a_state : walletState := mkState None None (Some [token_coin]) (Some [coin]) false None None.
Local Definition a_wallet : wallet := mkWallet "seed" "name" (acct 3) (acct 4) (Some (acct 5)) (Some a_state).
Local Definition a_chronik : chronik :=
  mkChronik (λ _ _, inl (Some "ab"%string)) (λ _ _ _, inl []) (λ _, inl []) (λ _, inr (mkFailure (Error "none") None)) (λ _, inr (mkFailure (Error "none") None)).
Local Definition p2pkh (n : Z) : buffer := hash_script "P2PKH" (repeat n 20).

Local Lemma receiver_script n : n ∈ [5; 8] → address_script (addr n) (p2pkh n).
Proof.
  intros Hn. exists "ecash"%string, "P2PKH"%string, (repeat n 20).
  rewrite !elem_of_cons in Hn. destruct Hn as [->|[->|Hn]]; [| |by apply elem_of_nil in Hn];
    (split_and!; [vm_compute; reflexivity|left|concrete|reflexivity|reflexivity]).
Qed.

(** The scripts that the concrete package makes are short. *)
Local Lemma script_short amounts ls s : Forall2 (λ x n, bn_is x (inject_Z n)) amounts ls → Forall (λ n, 0 <= n < 100) ls → len ls <= 2 →
  slp_send "aa" amounts = Ok s → bytes_ok s ∧ short s.
Proof.
  intros H Hl Hlen E. change (Ok (Hex.fromHex "aa" ++ concat (map (λ a, OpReturn.bytes_of (bn_toString a)) amounts)) = Ok s) in E.
  assert (s = Hex.fromHex "aa" ++ concat (map (λ a, OpReturn.bytes_of (bn_toString a)) amounts)) as -> by congruence. clear E.
  assert (G : ∀ x n, bn_is x (inject_Z n) → 0 <= n < 100 → bytes_ok (OpReturn.bytes_of (bn_toString x)) ∧ blen (OpReturn.bytes_of (bn_toString x)) <= 2).
  { intros x n Hx Hn. rewrite (bn_toString_int _ _ Hx) by lia. clear Hx.
    assert (forallb (λ n, let b := OpReturn.bytes_of (pretty n) in forallb (λ c, (0 <=? c) && (c <? 256)) b && (blen b <=? 2)) (map Z.of_nat (seq 0 100)) = true) as F by (vm_compute; reflexivity).
    rewrite forallb_forall in F. specialize (F n). cbv zeta in F. rewrite andb_true_iff, forallb_forall, Z.leb_le in F.
    destruct F as [F1 F2]; [apply in_map_iff; exists (Z.to_nat n); split; [lia|apply in_seq; lia]|]. split; [|done].
    unfold bytes_ok. rewrite Forall_forall. intros c Hc. apply list_elem_of_In, F1 in Hc. unfold is_byte. lia. }
  assert (F : bytes_ok (concat (map (λ a, OpReturn.bytes_of (bn_toString a)) amounts)) ∧ blen (concat (map (λ a, OpReturn.bytes_of (bn_toString a)) amounts)) <= 2 * len ls).
  { clear Hlen. induction H as [|x n amounts ls Hx _ IH]; [by split; [constructor|]|]. apply Forall_cons in Hl as [Hn Hl]. destruct (IH Hl) as [I1 I2]. destruct (G x n Hx Hn) as [G1 G2].
    cbn [map concat]. rewrite bytes_ok_app, blen_app, len_cons. split; [done|lia]. }
  destruct F as [F1 F2]. split.
  - apply bytes_ok_app. split; [concrete|done].
  - unfold short, MAX_SAFE_INTEGER. rewrite blen_app. change (blen (Hex.fromHex "aa")) with 1. lia.
Qed.

Local Lemma a_transfer : transfer a_wallet a_state (acct 5) [coin] [5000] [token_coin] [token_coin] [546] [20] "aa" ".12" (addr 8) 1 12
  (p2pkh 5) (p2pkh 8) (p2pkh 5).
Proof.
  split; try reflexivity.
  - done.
  - apply Forall2_cons. split; [|by apply Forall2_nil]. split; [reflexivity|split; vm_compute; discriminate].
  - vm_compute. discriminate.
  - apply Forall2_cons. split; [|by apply Forall2_nil]. split; [reflexivity|split; vm_compute; discriminate].
  - apply Forall2_cons. split; [|by apply Forall2_nil]. split_and!; [reflexivity|reflexivity| |lia]. eexists. split; vm_compute; reflexivity.
  - lia.
  - split; [done|]. eexists. split; vm_compute; reflexivity.
  - split; vm_compute; reflexivity.
  - repeat (apply Forall_cons; split); [| |by apply Forall_nil]; (split; [vm_compute; reflexivity|split; vm_compute; discriminate]).
  - split; [done|]. apply receiver_script. left.
  - apply receiver_script. right. left.
  - intros u Hu. injection Hu as <-. apply receiver_script. left.
  - intros j amounts s H. assert (amounts_of 12 (zsum (take j [20])) = [12] ∨ amounts_of 12 (zsum (take j [20])) = [12; 8]) as [E|E]
      by (destruct j as [|[|j]]; [left|right|right]; reflexivity); rewrite E in H; (eapply script_short; [exact H|repeat constructor; lia|done]).
Qed.

Lemma transfer_safe_witness : broadcasts (the_transfer 20 a_chronik a_wallet "aa" ".12" (addr 8)) = [] ∨
  ∃ k j amounts s hex tx, transfers a_wallet [coin] [5000] [token_coin] [546] [20] "aa" 12 (p2pkh 5) (p2pkh 8) (p2pkh 5) k j amounts s hex tx.
Proof.
  destruct (transfer_safe 20 a_chronik a_wallet a_state (acct 5) [coin] [5000] [token_coin] [token_coin] [546] [20] "aa" ".12" (addr 8) 1 12
    (p2pkh 5) (p2pkh 8) (p2pkh 5) a_transfer) as [H|(k & j & amounts & s & hex & tx & H & _)].
  - discriminate.
  - left. exact H.
  - right. exists k, j, amounts, s, hex, tx. exact H.
Defined.

End Examples.
End TokenLaws.
