(* ===== verification/Message.v ===== *)
(** * Signed messages

    [xecjs-message/index.js]: signatures of texts, from which the public key can be
    recovered, and their verification against an address.  [secp256k1] and
    [buffer-equals] are npm packages outside the repository, with the laws of
    their documentation. *)

From stdpp Require Import base tactics list numbers strings.
From S2P Require Import Prelude JsNumber NodeBuffer Externals Crypto Asm Encodings JsString Base64 BigNumber OpReturn WalletExternals.
Open Scope Z_scope.

(** ** secp256k1 *)
Class Secp256k1 := {
  (** [sign(hash, privateKey, { data })]: the signature and the recovery number *)
  sp_sign : buffer → buffer → option buffer → result (buffer * Z);
  (** [recover(hash, signature, recovery, compressed)] *)
  sp_recover : buffer → buffer → Z → bool → result buffer;
  (** [publicKeyCreate(privateKey, compressed)] *)
  sp_publicKey : buffer → bool → result buffer;
}.
Class Secp256k1Spec `{!Secp256k1} : Prop := {
  sp_sign_shape hash d e sig r : sp_sign hash d e = Ok (sig, r) → bytes_ok sig ∧ blen sig = 64 ∧ 0 <= r <= 3;
  sp_recover_key hash d e sig r c pk : sp_sign hash d e = Ok (sig, r) → sp_publicKey d c = Ok pk → sp_recover hash sig r c = Ok pk;
}.

(** ** buffer-equals *)
Class BufferEquals := { be_equals : buffer → buffer → bool }.
Class BufferEqualsSpec `{!BufferEquals} : Prop := { be_equals_iff a b : be_equals a b = true ↔ a = b }.

Module Message.

(** The argument [messagePrefix] of [sign] and [verify]; [sign] also takes the
    options in its place. *)
Inductive prefix_arg :=
| NoPrefix
| PrefixText (s : string)
| PrefixBuffer (b : buffer)
| Options (extraEntropy : option buffer).

(** A private key, or an object that signs. *)
Inductive private_key :=
| KeyBuffer (d : buffer)
| Signer (sign : buffer → option buffer → result (buffer * Z)).

(** The signature, as a buffer or in base 64. *)
Inductive signature_arg :=
| SigBuffer (b : buffer)
| SigText (s : string).

Definition ecash_prefix : string := String (Ascii.ascii_of_nat 22) (String.append "eCash Signed Message:" (String (Ascii.ascii_of_nat 10) EmptyString)).
Definition bitcoin_prefix : string := String (Ascii.ascii_of_nat 24) (String.append "Bitcoin Signed Message:" (String (Ascii.ascii_of_nat 10) EmptyString)).

Section S.
Context {Mem : UninitMem} `{VU : !VarUint} `{CH : !CreateHash} `{CA : !Cashaddr} `{SP : !Secp256k1} `{BE : !BufferEquals}.

Definition sha256 (b : buffer) : buffer := ch_sha256 b.
Definition hash256 (b : buffer) : buffer := sha256 (sha256 b).
Definition hash160 (b : buffer) : buffer := ch_ripemd160 (sha256 b).

(** [Buffer.alloc(1, v)] keeps the low byte of [v]. *)
Definition encodeSignature (signature : buffer) (recovery : Z) (compressed : bool) : buffer :=
  let recovery := if compressed then recovery + 4 else recovery in
  alloc 1 ((recovery + 27) mod 256) ++ signature.

(** [compressed], [recovery] and [signature] *)
Definition decodeSignature (b : buffer) : result (bool * Z * buffer) :=
  if negb (blen b =? 65) then Throw (Error "Invalid signature length") else
  flag ← readUInt8 b 0;
  let flagByte := flag - 27 in
  if (flagByte >? 15) || (flagByte <? 0) then Throw (Error "Invalid signature parameter")
  else Ok (truthy (js_and flagByte 12), js_and flagByte 3, slice_from b 1).

(** The empty text is falsy; [Buffer.from] refuses an object. *)
Definition magicHash (message : buffer) (messagePrefix : prefix_arg) : result buffer :=
  messagePrefix ←
    match messagePrefix with
    | NoPrefix => Ok (OpReturn.bytes_of ecash_prefix)
    | PrefixText s => Ok (OpReturn.bytes_of (if OpReturn.is_empty s then ecash_prefix else s))
    | PrefixBuffer b => Ok b
    | Options _ => Throw (TypeError "The first argument must be of type string or an instance of Buffer")
    end;
  let messageVISize := vu_encodingLength (blen message) in
  let b := allocUnsafe (blen messagePrefix + messageVISize + blen message) in
  '(b, _) ← copy messagePrefix b 0;
  '(b, _) ← vu_encode (blen message) b (blen messagePrefix);
  '(b, _) ← copy message b (blen messagePrefix + messageVISize);
  Ok (hash256 b).

(** A buffer is an object too. [sigOptions]: the field [extraEntropy], if the
    argument is given. *)
Definition prepareSign (messagePrefixArg : prefix_arg) (sigOptions : option (option buffer)) : prefix_arg * option buffer :=
  match messagePrefixArg, sigOptions with
  | PrefixBuffer _, None => (NoPrefix, None)
  | Options e, None => (NoPrefix, e)
  | p, o => (p, default None o)
  end.

Definition sign_hash (privateKey : private_key) (hash : buffer) (extraEntropy : option buffer) : result (buffer * Z) :=
  match privateKey with
  | Signer f => f hash extraEntropy
  | KeyBuffer d => sp_sign hash d extraEntropy
  end.

Definition sign (message : buffer) (privateKey : private_key) (compressed : bool) (messagePrefix : prefix_arg)
    (sigOptions : option (option buffer)) : result buffer :=
  let '(messagePrefixArg, extraEntropy) := prepareSign messagePrefix sigOptions in
  hash ← magicHash message messagePrefixArg;
  '(signature, recovery) ← sign_hash privateKey hash extraEntropy;
  Ok (encodeSignature signature recovery compressed).

(** The key of [signAsync]: its [sign] may also return a promise. *)
Inductive async_key :=
| AsyncKey (key : private_key)
| AsyncSigner (sign : buffer → option buffer → promise (buffer * Z)).

Definition signAsync (message : buffer) (privateKey : async_key) (compressed : bool) (messagePrefix : prefix_arg)
    (sigOptions : option (option buffer)) : promise buffer :=
  '(signature, recovery) ← (
    let '(messagePrefixArg, extraEntropy) := prepareSign messagePrefix sigOptions in
    hash ← settle (magicHash message messagePrefixArg);
    match privateKey with
    | AsyncKey k => settle (sign_hash k hash extraEntropy)
    | AsyncSigner f => f hash extraEntropy
    end);
  Resolved (encodeSignature signature recovery compressed).

Definition verify (message : buffer) (xecAddress : string) (signature : signature_arg) (messagePrefix : prefix_arg) : result bool :=
  let signature := match signature with SigBuffer b => b | SigText s => Base64.fromBase64 s end in
  '(compressed, recovery, sig) ← decodeSignature signature;
  hashBitcoinSigned ← magicHash message (PrefixText bitcoin_prefix);
  publicKeyBitcoinSigned ← sp_recover hashBitcoinSigned sig recovery compressed;
  hashEcashSigned ← magicHash message messagePrefix;
  publicKeyEcashSigned ← sp_recover hashEcashSigned sig recovery compressed;
  '(_, _, expected) ← ca_decode xecAddress;
  Ok (be_equals (hash160 publicKeyEcashSigned) expected || be_equals (hash160 publicKeyBitcoinSigned) expected).

(** ** Laws *)

Context `{VUS : !VarUintSpec} `{CS : !CreateHashSpec} `{SPS : !Secp256k1Spec} `{BES : !BufferEqualsSpec}.

(** The bytes of a prefix. *)
Definition prefix_bytes (p : prefix_arg) : buffer :=
  match p with
  | PrefixText s => OpReturn.bytes_of (if OpReturn.is_empty s then ecash_prefix else s)
  | PrefixBuffer b => b
  | _ => OpReturn.bytes_of ecash_prefix
  end.

Definition is_prefix (p : prefix_arg) : Prop := match p with Options _ => False | _ => True end.

(** The hash is that of the prefix, the length and the message, whatever the memory
    held. *)
Lemma magicHash_eq message p : is_prefix p → blen message <= MAX_SAFE_INTEGER →
  magicHash message p = Ok (hash256 (prefix_bytes p ++ vu_bytes (blen message) ++ message)).
Proof.
  intros Hp Hl. pose proof (blen_nonneg message) as Hm. set (q := prefix_bytes p).
  assert (E : magicHash message p =
    (let messageVISize := vu_encodingLength (blen message) in
     let b := allocUnsafe (blen q + messageVISize + blen message) in
     '(b, _) ← copy q b 0; '(b, _) ← vu_encode (blen message) b (blen q); '(b, _) ← copy message b (blen q + messageVISize); Ok (hash256 b))).
  { destruct p; [reflexivity|reflexivity|reflexivity|done]. }
  rewrite E. clear E. cbv zeta. pose proof (blen_nonneg q) as Hq. pose proof (vu_bytes_len (blen message) ltac:(lia)) as Hv.
  rewrite <- Hv. pose proof (blen_nonneg (vu_bytes (blen message))) as Hvn.
  set (b := allocUnsafe _). assert (Hb : blen b = blen (q ++ vu_bytes (blen message) ++ message)) by (unfold b; rewrite blen_allocUnsafe, !blen_app by lia; lia).
  pose proof (writes_slice q [] b ltac:(rewrite Hb, !blen_app; lia)) as W1. cbn [app] in W1. rewrite blen_nil in W1.
  unfold wSlice in W1. destruct (copy q b 0) as [[b1 n1]|] eqn:E1; [|done]. cbn [mbind result_bind] in *. injection W1 as -> _.
  pose proof (vu_encode_spec (blen message) ltac:(lia) q (drop (length q) b)) as W2.
  assert (Hd : blen (drop (length q) b) = blen (vu_bytes (blen message)) + blen message) by (unfold blen in *; rewrite length_drop; rewrite !length_app in Hb; lia).
  specialize (W2 ltac:(lia)). cbn beta in W2. destruct (vu_encode (blen message) (q ++ drop (length q) b) (blen q)) as [[b2 n2]|] eqn:E2; [|done].
  cbn [mbind result_bind] in *. injection W2 as -> _.
  pose proof (writes_slice message (q ++ vu_bytes (blen message)) (drop (length (vu_bytes (blen message))) (drop (length q) b))) as W3.
  assert (Hd2 : blen (drop (length (vu_bytes (blen message))) (drop (length q) b)) = blen message) by (unfold blen in *; rewrite length_drop; lia).
  specialize (W3 ltac:(lia)). unfold wSlice in W3. rewrite blen_app in W3.
  destruct (copy message _ (blen q + blen (vu_bytes (blen message)))) as [[b3 n3]|]; [|done]. cbn [mbind result_bind] in *. injection W3 as -> _.
  do 2 f_equal. rewrite (drop_ge (drop (length (vu_bytes (blen message))) (drop (length q) b))) by (apply Nat.eq_le_incl, Nat2Z.inj; exact Hd2). by rewrite app_nil_r, <- app_assoc.
Qed.

(** With a key that does not return a promise, [signAsync] settles to what [sign] gives,
    and an exception of [sign] is a rejection. *)
Lemma signAsync_settles message key c p o : signAsync message (AsyncKey key) c p o = settle (sign message key c p o).
Proof.
  unfold signAsync, sign. destruct (prepareSign p o) as [q e]. destruct (magicHash message q) as [hash|]; [|done]. cbn [settle mbind promise_bind result_bind].
  by destruct (sign_hash key hash e) as [[sig r]|].
Qed.

(** Flags and signature survive the encoding. *)
Lemma decode_encode sig r c : blen sig = 64 → 0 <= r <= 3 → decodeSignature (encodeSignature sig r c) = Ok (c, r, sig).
Proof.
  intros Hs Hr. unfold decodeSignature, encodeSignature. change (alloc 1 ?v) with [v]. rewrite blen_app, Hs. change (blen [_] + 64) with 65. cbn [Z.eqb Pos.eqb negb app].
  change (slice_from (?x :: sig) 1) with (slice_from ([x] ++ sig) (blen [x])). rewrite slice_from_app.
  assert (Hread : ∀ x, readUInt8 (x :: sig) 0 = Ok x) by (intros x; apply (readUInt8_app [])).
  assert (r = 0 ∨ r = 1 ∨ r = 2 ∨ r = 3) as [->|[->|[->| ->]]] by lia; destruct c; rewrite Hread; reflexivity.
Qed.

(** A key signs the hash of the message, and [pk] is what is recovered from the
    signature. *)
Definition signs_as (key : private_key) (hash : buffer) (e : option buffer) (c : bool) (pk : buffer) : Prop :=
  ∃ sig r, sign_hash key hash e = Ok (sig, r) ∧ bytes_ok sig ∧ blen sig = 64 ∧ 0 <= r <= 3 ∧ sp_recover hash sig r c = Ok pk.

Lemma buffer_signs d hash e c pk : returns (sp_sign hash d e) → sp_publicKey d c = Ok pk → signs_as (KeyBuffer d) hash e c pk.
Proof.
  intros [[sig r] E] Hp. destruct (sp_sign_shape _ _ _ _ _ E) as (H1 & H2 & H3). exists sig, r. split_and!; try done; [lia|lia|].
  by apply (sp_recover_key hash d e).
Qed.

(** The prefix that [sign] really uses. *)
Definition used_prefix (p : prefix_arg) (o : option (option buffer)) : prefix_arg := (prepareSign p o).1.

(** What [sign] returns. *)
Lemma sign_eq message key c p o sig r : is_prefix (used_prefix p o) → blen message <= MAX_SAFE_INTEGER →
  sign_hash key (hash256 (prefix_bytes (used_prefix p o) ++ vu_bytes (blen message) ++ message)) (prepareSign p o).2 = Ok (sig, r) →
  sign message key c p o = Ok (encodeSignature sig r c).
Proof.
  unfold used_prefix, sign. destruct (prepareSign p o) as [q e]. cbn [fst snd]. intros Hp Hl Hs.
  rewrite (magicHash_eq message q Hp Hl). cbn [mbind result_bind]. by rewrite Hs.
Qed.

Lemma encoded_length sig r c : blen sig = 64 → blen (encodeSignature sig r c) = 65.
Proof. intros Hs. unfold encodeSignature. rewrite blen_app, Hs. by destruct c. Qed.

Lemma encoded_bytes sig r c : bytes_ok sig → bytes_ok (encodeSignature sig r c).
Proof.
  intros Hb. unfold encodeSignature. apply bytes_ok_app. split; [|done]. apply bytes_ok_cons. split; [|constructor].
  unfold is_byte. apply Z.mod_pos_bound. lia.
Qed.

(** [verify] of an encoded signature from which the key of the address is recovered. *)
Lemma verify_encoded message q c sig r address pre ty pk pk' : is_prefix q → blen message <= MAX_SAFE_INTEGER →
  bytes_ok sig → blen sig = 64 → 0 <= r <= 3 →
  sp_recover (hash256 (prefix_bytes q ++ vu_bytes (blen message) ++ message)) sig r c = Ok pk →
  sp_recover (hash256 (OpReturn.bytes_of bitcoin_prefix ++ vu_bytes (blen message) ++ message)) sig r c = Ok pk' →
  ca_decode address = Ok (pre, ty, hash160 pk) →
  verify message address (SigBuffer (encodeSignature sig r c)) q = Ok true ∧
  verify message address (SigText (Base64.toBase64 (encodeSignature sig r c))) q = Ok true.
Proof.
  intros Hp Hl Hb Hs Hr Hrec Ho Ha. assert (V : verify message address (SigBuffer (encodeSignature sig r c)) q = Ok true).
  { unfold verify. rewrite decode_encode by done. cbn [mbind result_bind]. rewrite (magicHash_eq message (PrefixText bitcoin_prefix) I Hl). cbn [mbind result_bind].
    change (prefix_bytes (PrefixText bitcoin_prefix)) with (OpReturn.bytes_of bitcoin_prefix). rewrite Ho. cbn [mbind result_bind].
    rewrite (magicHash_eq message q Hp Hl). cbn [mbind result_bind]. rewrite Hrec. cbn [mbind result_bind]. rewrite Ha. cbn [mbind result_bind].
    by rewrite (proj2 (be_equals_iff _ _)). }
  split; [done|]. unfold verify in *. rewrite Base64.fromBase64_toBase64; [done|by apply encoded_bytes].
Qed.

(** Signed messages verify.  When the key signs the hash of the message under the
    prefix that [sign] uses, the result is a signature of 65 bytes, which [signAsync]
    gives as well, and [verify] with that prefix accepts it, as a buffer and in base 64, for every address whose hash
    is that of the public key; unless no key at all can be recovered under the other
    prefix, which [verify] tries first. *)
Theorem message_verifies message key c p o address pre ty pk :
  is_prefix (used_prefix p o) → blen message <= MAX_SAFE_INTEGER →
  let hash := hash256 (prefix_bytes (used_prefix p o) ++ vu_bytes (blen message) ++ message) in
  let other := hash256 (OpReturn.bytes_of bitcoin_prefix ++ vu_bytes (blen message) ++ message) in
  signs_as key hash (prepareSign p o).2 c pk → ca_decode address = Ok (pre, ty, hash160 pk) →
  ∃ signature, sign message key c p o = Ok signature ∧ signAsync message (AsyncKey key) c p o = Resolved signature ∧ blen signature = 65 ∧
    (∀ sig r, decodeSignature signature = Ok (c, r, sig) → returns (sp_recover other sig r c) →
      verify message address (SigBuffer signature) (used_prefix p o) = Ok true ∧
      verify message address (SigText (Base64.toBase64 signature)) (used_prefix p o) = Ok true).
Proof.
  intros Hp Hl hash other (sig & r & Es & Hb & Hs & Hr & Hrec) Ha. exists (encodeSignature sig r c). rewrite signAsync_settles, (sign_eq message key c p o sig r Hp Hl Es).
  split; [done|]. split; [done|]. split; [by apply encoded_length|]. intros sig' r' Hd' [pk' Ho]. rewrite decode_encode in Hd' by done. injection Hd' as <- <-.
  by apply (verify_encoded message _ c sig r address pre ty pk pk').
Qed.

(** A prefix that is a buffer is not used for signing.  [sign] takes it for the
    options when there are none, so that the message is signed under the default
    prefix; [verify] uses the buffer. *)
Theorem buffer_prefix_ignored message key c b address signature :
  sign message key c (PrefixBuffer b) None = sign message key c NoPrefix None ∧
  (blen message <= MAX_SAFE_INTEGER →
   magicHash message (PrefixBuffer b) = Ok (hash256 (b ++ vu_bytes (blen message) ++ message)) ∧
   verify message address signature (PrefixText EmptyString) = verify message address signature NoPrefix).
Proof. split; [done|]. intros Hl. split; [by apply (magicHash_eq message (PrefixBuffer b))|done]. Qed.

End S.

(** ** Examples *)

Section Examples.
Import Concrete ConcreteWallet.
Local Existing Instance zero_mem.

(** The signature has the key and the hash; the public key is the key. *)
Local Instance a_secp : Secp256k1 := {
  sp_sign h d e := if (blen h =? 32) && (blen d =? 32) && bool_decide (bytes_ok (d ++ h)) then Ok (d ++ h, 1) else Throw (Error "invalid");
  sp_recover h s r c := Ok (if bool_decide (drop 32 s = h) then (if c then 2 else 4) :: take 32 s else h);
  sp_publicKey d c := Ok ((if c then 2 else 4) :: d);
}.

Local Instance a_secp_spec : Secp256k1Spec.
Proof.
  split.
  - intros h d e sig r. cbn [sp_sign a_secp]. destruct (_ && _) eqn:E; [|done]. intros [= <- <-]. bool_facts. apply bool_decide_eq_true in H0. rewrite blen_app. split_and!; try done; lia.
  - intros h d e sig r c pk. cbn [sp_sign sp_publicKey sp_recover a_secp]. destruct (_ && _) eqn:E; [|done]. intros [= <- <-] [= <-]. bool_facts.
    assert (length d = 32%nat) as Hd by (unfold blen in *; lia). rewrite bool_decide_true; [by rewrite take_app_length'|by rewrite drop_app_length'].
Qed.

Local Instance an_equals : BufferEquals := { be_equals a b := bool_decide (a = b) }.
Local Instance an_equals_spec : BufferEqualsSpec.
Proof. split. intros a b. apply bool_decide_eq_true. Qed.

Local Definition a_key : buffer := repeat 7 32.
Local Definition an_address : string := String.append "ecash:q" (Hex.toHex (hash160 (2 :: a_key))).
Local Definition hello : buffer := OpReturn.bytes_of "hello".

Lemma message_verifies_witness : ∃ signature, sign hello (KeyBuffer a_key) true NoPrefix None = Ok signature ∧
  verify hello an_address (SigText (Base64.toBase64 signature)) NoPrefix = Ok true.
Proof.
  destruct (message_verifies hello (KeyBuffer a_key) true NoPrefix None an_address "ecash" "P2PKH" (2 :: a_key)) as (s & E & _ & _ & H).
  - exact I.
  - vm_compute. discriminate.
  - apply buffer_signs; [|reflexivity]. eexists. vm_compute. reflexivity.
  - vm_compute. reflexivity.
  - exists s. split; [exact E|]. vm_compute in E. injection E as <-. eapply H; [vm_compute; reflexivity|by eexists].
Defined.

Lemma buffer_prefix_ignored_witness : magicHash hello (PrefixBuffer [1]) = Ok (hash256 ([1] ++ vu_bytes 5 ++ hello)).
Proof.
  destruct (buffer_prefix_ignored hello (KeyBuffer a_key) true [1] an_address (SigText EmptyString)) as [_ H].
  apply H. vm_compute. discriminate.
Defined.

End Examples.
End Message.
