(* ===== verification/Validation.v ===== *)
(** * Validation of input

    [cashtab/src/utils/validation.js], without the predicates on addresses (in
    [WalletAddress]) and [isValidXecSendAmount]; [checkForTokenById] of
    [tokenMethods.js] and [flattenContactList] of [cashMethods.js].  Values from forms
    and from storage are JSON; letters are those of ASCII. *)

From stdpp Require Import base tactics list numbers strings pretty.
From Stdlib Require Import Ascii QArith.
From S2P Require Import Prelude JsNumber JsFloat NodeBuffer Asm Encodings JsString JsDecimal JsText Regex Tickers BigNumber OpReturn WalletExternals WalletAddress TransactionBuilder Wallet Amounts.
Open Scope Z_scope.

Module Validation.

(** ** Values *)

(** A value from a form or from storage.  The fields of an object are in order; the
    first one with a name counts.  [JNumber] is an integer up to 2^53 in absolute value,
    [JDouble] any other number. *)
Inductive json :=
| JUndefined
| JNull
| JBool (b : bool)
| JNumber (n : Z)
| JDouble (x : number)
| JString (s : string)
| JArray (l : list json)
| JObject (fields : list (string * json)).

Definition json_of_number (x : number) : json := match num_integer x with Some n => JNumber n | None => JDouble x end.

(** [o[name]] and [name in o] of an object *)
Fixpoint field (name : string) (fields : list (string * json)) : option json :=
  match fields with
  | [] => None
  | (n, v) :: fields => if String.eqb n name then Some v else field name fields
  end.

(** [s.length] counts UTF-16 units: one for a character, two for one outside the
    basic plane, whose UTF-8 form has four bytes. *)
Definition units_of (c : ascii) : Z := if code c <? 128 then 1 else if code c <? 192 then 0 else if code c <? 240 then 1 else 2.
Definition length16 (s : string) : Z := zsum (map units_of (String.list_ascii_of_string s)).

Definition is_string (v : json) : bool := match v with JString _ => true | _ => false end.
Definition text_of (v : json) : string := match v with JString s => s | _ => EmptyString end.

(** ** Tokens *)

(** [s.split(' ').filter(string => string).join(sep)] *)
Fixpoint join (sep : string) (ws : list string) : string :=
  match ws with
  | [] => EmptyString
  | [w] => w
  | w :: ws => String.append w (String.append sep (join sep ws))
  end.
Definition words (s : string) : list string := List.filter (λ w, negb (OpReturn.is_empty w)) (split_on " "%char s).

Definition sanitizedTokenName (tokenName : string) : string := join " " (words (trim (toLowerCase tokenName))).
Definition sanitizedTokenTicker (tokenTicker : string) : string := join EmptyString (words (trim (toLowerCase tokenTicker))).

(** [s.split(' ').join('')] *)
Definition unspaced (s : string) : string := join EmptyString (split_on " "%char s).

Definition listed (l : list string) (s : string) : bool := existsb (String.eqb s) l.

(** A list has neither the text nor the text without spaces. *)
Definition clear_of (l : list string) (s : string) : bool := negb (listed l s) && negb (listed l (unspaced s)).

Definition isProbablyNotAScamTokenName (tokenName : string) : bool :=
  let s := sanitizedTokenName tokenName in
  clear_of Tickers.coingeckoTop500Names s && clear_of Tickers.coingeckoTop500Tickers s && clear_of Tickers.coingeckoTop500Ids s &&
  clear_of Tickers.fiatCurrency s && clear_of Tickers.bannedTickers s && clear_of Tickers.bannedNames s.

Definition isProbablyNotAScamTokenTicker (tokenTicker : string) : bool :=
  let s := sanitizedTokenTicker tokenTicker in
  clear_of Tickers.coingeckoTop500Tickers s && clear_of Tickers.coingeckoTop500Names s && clear_of Tickers.coingeckoTop500Ids s &&
  clear_of Tickers.fiatCurrency s && clear_of Tickers.bannedTickers s && clear_of Tickers.bannedNames s.

Definition isValidTokenName (tokenName : json) : bool :=
  is_string tokenName && (0 <? length16 (text_of tokenName)) && (length16 (text_of tokenName) <? 68).

Definition isValidTokenTicker (tokenTicker : json) : bool :=
  is_string tokenTicker && (0 <? length16 (text_of tokenTicker)) && (length16 (text_of tokenTicker) <? 13).

Definition isValidTokenDecimals (tokenDecimals : json) : bool :=
  is_string tokenDecimals && listed ["0"; "1"; "2"; "3"; "4"; "5"; "6"; "7"; "8"; "9"]%string (text_of tokenDecimals).

(** The characters that the pattern looks for; the code of the double quote is 34. *)
Definition special (c : ascii) : bool :=
  bool_decide (c = ascii_of_nat 34) || existsb (λ d, bool_decide (c = d)) (String.list_ascii_of_string " `!@#$%^&*()_+-=[]{};':\|,.<>/?~").

Definition isValidTokenId (tokenId : json) : bool :=
  is_string tokenId && (length16 (text_of tokenId) =? 64) && negb (OpReturn.is_empty (trim (text_of tokenId))) &&
  negb (existsb special (String.list_ascii_of_string (text_of tokenId))).

(** The pattern of a URL, with the flag [i]. *)
Module Url.
Import Regex.
Definition one_of (s : string) (c : ascii) : bool := existsb (λ d, bool_decide (lower c = d)) (String.list_ascii_of_string s).
Definition lit (c : ascii) : regex := Char (λ d, bool_decide (lower d = c)).
Fixpoint word (s : string) : regex := match s with EmptyString => Eps | String c s => Seq (lit c) (word s) end.
Definition letter (c : ascii) : bool := let n := code (lower c) in (97 <=? n) && (n <=? 122).
Definition decimal (c : ascii) : bool := (48 <=? code c) && (code c <=? 57).
Definition alnum : regex := Char (λ c, letter c || decimal c).

(** An optional [http://] or [https://] *)
Definition protocol : regex := opt (Seq (word "http") (Seq (opt (lit "s")) (word "://"))).
(** Labels with a point after each, then two letters or more. *)
Definition label : regex := Seq alnum (Star (Seq (Star (Char (λ c, letter c || decimal c || one_of "-" c))) alnum)).
Definition domain : regex := Seq (plus (Seq label (lit "."))) (Seq (Char letter) (plus (Char letter))).
(** Four numbers of one to three digits. *)
Definition byte : regex := Seq (Char decimal) (upto 2 (Char decimal)).
Definition ip : regex := Seq (times 3 (Seq byte (lit "."))) byte.
(** An optional port, and a path. *)
Definition port : regex := opt (Seq (lit ":") (plus (Char decimal))).
Definition path : regex := Star (Seq (lit "/") (Star (Char (λ c, letter c || decimal c || one_of "-%_.~+" c)))).
(** An optional query string and an optional fragment. *)
Definition query : regex := opt (Seq (lit "?") (Star (Char (λ c, letter c || decimal c || one_of ";&%_.~+=-" c)))).
Definition fragment : regex := opt (Seq (lit "#") (Star (Char (λ c, letter c || decimal c || one_of "-_" c)))).
Definition urlPattern : regex := Seq protocol (Seq (Alt domain ip) (Seq port (Seq path (Seq query fragment)))).
End Url.

Definition isValidTokenDocumentUrl (tokenDocumentUrl : json) : bool :=
  match tokenDocumentUrl with
  | JString s =>
      OpReturn.is_empty s || ((length16 s <? 68) && Regex.matches Url.urlPattern (String.list_ascii_of_string s))
  | _ => false
  end.

(** [checkForTokenById] *)
Fixpoint checkForTokenById (tokenList : list token) (specifiedTokenId : string) : bool :=
  match tokenList with
  | [] => false
  | t :: tokenList => String.eqb (t_tokenId t) specifiedTokenId || checkForTokenById tokenList specifiedTokenId
  end.

(** ** Settings *)

Definition defaultSettings : list (string * json) :=
  [("fiatCurrency", JString "usd"); ("sendModal", JBool false); ("autoCameraOn", JBool true);
   ("hideMessagesFromUnknownSenders", JBool false); ("balanceVisible", JBool true)]%string.

(** [currency.settingsValidation[param].includes(value)] *)
Definition valid_setting (param : string) (value : json) : bool :=
  if String.eqb param "fiatCurrency"
  then is_string value && listed Tickers.fiatCurrency (text_of value)
  else match value with JBool _ => true | _ => false end.

(** What is not an object has none of the parameters; [undefined] and [null] throw,
    and the exception is caught. *)
Definition isValidCashtabSettings (settings : json) : bool :=
  match settings with
  | JObject fields =>
      forallb (λ p, match field p.1 fields with Some v => valid_setting p.1 v | None => false end) defaultSettings
  | _ => false
  end.

(** The object is changed in place. *)
Definition parseInvalidSettingsForMigration (fields : list (string * json)) : list (string * json) :=
  fold_left (λ fields p, match field p.1 fields with Some _ => fields | None => fields ++ [p] end) defaultSettings fields.

Section S.
Context `{CA : !Cashaddr} `{BN : !BigNumber}.

(** ** Contacts and cache *)

(** The text of an element of an array. *)
Fixpoint array_text (v : json) : string :=
  match v with
  | JUndefined | JNull => EmptyString
  | JBool b => if b then "true" else "false"
  | JNumber n => pretty n
  | JDouble x => num_toString x
  | JString s => s
  | JArray l => join "," (map array_text l)
  | JObject _ => "[object Object]"
  end%string.

(** [isValidXecAddress] of any value: what is falsy is no address, and what has no
    method [includes] throws.  The method of an array looks for the element [':'];
    an array without it is converted to a text, one with it is no address. *)
Definition valid_address (v : json) : result bool :=
  match v with
  | JUndefined | JNull | JBool false => Ok false
  | JNumber 0 => Ok false
  | JDouble x => if num_truthy x then TransactionBuilder.no_property else Ok false
  | JString s => Ok (WalletAddress.isValidXecAddress s)
  | JArray l =>
      Ok (negb (existsb (λ v, match v with JString s => String.eqb s ":" | _ => false end) l) &&
          WalletAddress.decodes_with "ecash" (String.append "ecash:" (array_text v)))
  | _ => TransactionBuilder.no_property
  end.

(** [null] is an object for [typeof], but [in] throws.  [single]: the list has one
    element. *)
Definition valid_contact (single : bool) (contactObj : json) : result (bool * bool) :=
  match contactObj with
  | JNull => Throw (TypeError "Cannot use 'in' operator")
  | JObject fields =>
      match field "address" fields, field "name" fields with
      | Some address, Some name =>
          ok ← valid_address address;
          Ok ((ok : bool) && is_string name, false)
      | _, _ => Ok (match fields with [] => single | _ => false end, true)
      end
  | _ => Ok (false, true)
  end.

(** The loop: the second component of [valid_contact] says that the function returns
    there. *)
Fixpoint valid_contacts (single : bool) (contactList : list json) : result bool :=
  match contactList with
  | [] => Ok true
  | contactObj :: rest =>
      '(ok, stop) ← valid_contact single contactObj;
      if (stop : bool) || negb ok then Ok ok else valid_contacts single rest
  end.

Definition isValidContactList (contactList : json) : result bool :=
  match contactList with
  | JArray l => valid_contacts (len l =? 1) l
  | _ => Ok false
  end.

(** [contactList[i].address], [undefined] where there is none *)
Definition flattenContactList (contactList : json) : result (list json) :=
  valid ← isValidContactList contactList;
  match valid : bool, contactList with
  | true, JArray l => Ok (map (λ c, match c with JObject fields => default JUndefined (field "address" fields) | _ => JUndefined end) l)
  | _, _ => Ok []
  end.

(** One entry of the cache. *)
Definition valid_info (info : json) : result bool :=
  match info with
  | JUndefined | JNull => Throw (TypeError "Cannot destructure property")
  | JObject fields =>
      let get name := default JUndefined (field name fields) in
      Ok (is_string (get "tokenTicker") && is_string (get "tokenName") && is_string (get "tokenDocumentUrl") &&
          is_string (get "tokenDocumentHash") && match get "decimals" with JNumber _ | JDouble _ => true | _ => false end &&
          isValidTokenId (get "tokenId"))
  | _ => Ok false
  end%string.

Fixpoint valid_infos (infos : list (string * json)) : result bool :=
  match infos with
  | [] => Ok true
  | (thisTokenId, info) :: rest =>
      if negb (isValidTokenId (JString thisTokenId)) then Ok false
      else ok ← valid_info info; if negb (ok : bool) then Ok false else valid_infos rest
  end.

(** [Object.keys] of a number or a boolean is empty; it throws for [undefined] and
    [null].  The keys of a text or an array are numbers, and no ids. *)
Definition isValidCashtabCache (cashtabCache : json) : result bool :=
  match cashtabCache with
  | JObject fields =>
      match field "tokenInfoById" fields with
      | None => Ok false
      | Some (JObject infos) => valid_infos infos
      | Some JUndefined | Some JNull => Throw (TypeError "Cannot convert undefined or null to object")
      | Some (JString s) => Ok (OpReturn.is_empty s)
      | Some (JArray l) => Ok (match l with [] => true | _ => false end)
      | Some (JBool _) | Some (JNumber _) | Some (JDouble _) => Ok true
      end
  | JArray _ => Ok false
  | _ => Throw (TypeError "Cannot use 'in' operator")
  end.

(** ** Amounts *)

Definition fiatToCrypto (fiatAmount fiatPrice : string) : string :=
  bn_toFixed (bn_div (bn_of_string fiatAmount) (bn_of_string fiatPrice)) Currency.cashDecimals.

Definition dust_xec : bn := Amounts.fromSatoshisToXec (bn_of_Z Currency.dustSats) Currency.cashDecimals.

(** [s.split('.')[1].length], for a text that includes a point *)
Definition places (s : string) : Z := match split_on "."%char s with _ :: w :: _ => length16 w | _ => 0 end.

(** The message of the error; [None] is [false]. *)
Definition shouldRejectAmountInput (cashAmount selectedCurrency fiatPrice totalCashBalance : string) : option string :=
  let testedAmount :=
    if String.eqb selectedCurrency Currency.ticker then bn_of_string cashAmount
    else bn_of_string (fiatToCrypto cashAmount fiatPrice) in
  if bn_isNaN testedAmount then Some "Amount must be a number"
  else if bn_lte testedAmount (bn_of_Z 0) then Some "Amount must be greater than 0"
  else if bn_lt testedAmount dust_xec
       then Some (String.append "Send amount must be at least " (String.append (bn_toString dust_xec) (String.append " " Currency.ticker)))
  else if bn_gt testedAmount (bn_of_string totalCashBalance) then Some (String.append "Amount cannot exceed your " (String.append Currency.ticker " balance"))
  else if includes (bn_toString testedAmount) "." then
    if places (bn_toString testedAmount) >? Currency.cashDecimals
    then Some (String.append Currency.ticker " transactions do not support more than 2 decimal places")
    else None
  else None%string.

(** [tokenDecimals]: the digit that [isValidTokenDecimals] accepts, as a number;
    [1 / 10 ** n] prints as the decimal fraction. *)
Definition isValidTokenInitialQty (tokenInitialQty : string) (tokenDecimals : Z) : bool :=
  let minimumQty := bn_pow10 (- tokenDecimals) in
  let tokenIntialQtyBig := bn_of_string tokenInitialQty in
  bn_gte tokenIntialQtyBig minimumQty && bn_lt tokenIntialQtyBig (bn_of_Z 100000000000) &&
  (default 0 (bn_dp tokenIntialQtyBig) <=? tokenDecimals).

Definition isValidEtokenBurnAmount (tokenBurnAmount maxAmount : option string) : bool :=
  match tokenBurnAmount, maxAmount with
  | Some b, Some m => bn_gt (bn_of_string b) (bn_of_Z 0) && bn_lte (bn_of_string b) (bn_of_string m)
  | _, _ => false
  end.

(** The length is also compared with the text [''], which is never equal. *)
Definition isValidNewWalletNameLength (newWalletName : json) : bool :=
  is_string newWalletName && (0 <? length16 (text_of newWalletName)) &&
  (length16 (text_of newWalletName) <=? Currency.localStorageMaxCharacters).

(** ** Airdrops *)

Definition isValidXecAirdrop (xecAirdrop : json) : bool :=
  is_string xecAirdrop && (0 <? length16 (text_of xecAirdrop)) && negb (OpReturn.is_empty (trim (text_of xecAirdrop))) &&
  bn_gt (bn_of_string (text_of xecAirdrop)) (bn_of_Z 0).

Definition newline : ascii := ascii_of_nat 10.

(** One row: an address and a value. *)
Definition valid_output (row : string) : bool :=
  let substring := split_on ","%char row in
  negb (bn_lt (bn_of_option (substring !! 1%nat)) dust_xec || negb (len substring =? 2)).

Definition isValidAirdropOutputsArray (airdropOutputsArray : string) : bool :=
  negb (OpReturn.is_empty airdropOutputsArray) && forallb valid_output (split_on newline airdropOutputsArray).

Definition isValidAirdropExclusionArray (airdropExclusionArray : string) : bool :=
  negb (OpReturn.is_empty airdropExclusionArray) && forallb WalletAddress.isValidXecAddress (split_on ","%char airdropExclusionArray).

End S.
End Validation.

(** * Laws of validation

    Amounts and quantities that pass validation are those that the wallet can send
    and mint; which names the filter of tokens really refuses; the migration of
    settings. *)

From Stdlib Require Import Qpower.
Import Amounts Validation.
Open Scope Z_scope.
Module ValidationLaws.

(** ** Names of tokens *)

Definition capital (c : ascii) : bool := (65 <=? code c) && (code c <=? 90).
Definition no_capitals (s : string) : bool := forallb (λ c, negb (capital c)) (String.list_ascii_of_string s).

#[local] Arguments String.append : simpl nomatch.

Lemma no_capitals_cons c s : no_capitals (String c s) = negb (capital c) && no_capitals s.
Proof. done. Qed.

Lemma no_capitals_app s t : no_capitals (String.append s t) = no_capitals s && no_capitals t.
Proof. induction s as [|c s IH]; [done|]. cbn [String.append]. by rewrite !no_capitals_cons, IH, andb_assoc. Qed.

Lemma lower_no_capital c : capital (lower c) = false.
Proof. destruct c as [[] [] [] [] [] [] [] []]; vm_compute; reflexivity. Qed.

Lemma toLowerCase_no_capitals s : no_capitals (toLowerCase s) = true.
Proof. induction s as [|c s IH]; [done|]. cbn [toLowerCase]. by rewrite no_capitals_cons, lower_no_capital, IH. Qed.

Lemma trim_left_no_capitals s : no_capitals s = true → no_capitals (trim_left s) = true.
Proof.
  induction s as [|c s IH]; [done|]. cbn [trim_left]. intros H. destruct (is_space c); [|done]. apply IH.
  rewrite no_capitals_cons, andb_true_iff in H. apply H.
Qed.

Lemma trim_right_no_capitals s : no_capitals s = true → no_capitals (trim_right s) = true.
Proof.
  induction s as [|c s IH]; [done|]. rewrite no_capitals_cons, andb_true_iff. intros [Hc Hs]. cbn [trim_right]. specialize (IH Hs).
  destruct (trim_right s) as [|d t]; [destruct (is_space c)|]; try done; by rewrite no_capitals_cons, Hc.
Qed.

Lemma split_no_capitals sep s : no_capitals s = true → Forall (λ w, no_capitals w = true) (split_on sep s).
Proof.
  induction s as [|c s IH]; [by repeat constructor|]. rewrite no_capitals_cons, andb_true_iff. intros [Hc Hs]. specialize (IH Hs). cbn [split_on].
  case_bool_decide; [by constructor|]. destruct (split_on sep s) as [|w ws]; [repeat constructor; by rewrite no_capitals_cons, Hc|].
  apply Forall_cons in IH as [Hw Hws]. constructor; [|done]. by rewrite no_capitals_cons, Hc.
Qed.

Lemma join_no_capitals sep ws : no_capitals sep = true → Forall (λ w, no_capitals w = true) ws → no_capitals (join sep ws) = true.
Proof.
  intros Hsep H. induction H as [|w ws Hw Hws IH]; [done|]. destruct ws as [|v ws]; [done|].
  change (join sep (w :: v :: ws)) with (String.append w (String.append sep (join sep (v :: ws)))). by rewrite !no_capitals_app, Hw, Hsep, IH.
Qed.

Lemma words_no_capitals s : no_capitals s = true → Forall (λ w, no_capitals w = true) (words s).
Proof.
  intros H. apply (split_no_capitals " "%char) in H. unfold words. rewrite Forall_forall in *. intros w Hw. apply H.
  apply list_elem_of_In in Hw. apply filter_In in Hw as [Hw _]. by apply list_elem_of_In.
Qed.

Lemma sanitized_no_capitals name : no_capitals (sanitizedTokenName name) = true.
Proof.
  apply join_no_capitals; [done|]. apply words_no_capitals, trim_right_no_capitals, trim_left_no_capitals, toLowerCase_no_capitals.
Qed.

Lemma listed_filter l s : no_capitals s = true → listed l s = listed (List.filter no_capitals l) s.
Proof.
  intros Hs. unfold listed. induction l as [|e l IH]; [done|]. cbn [existsb List.filter]. destruct (String.eqb_spec s e) as [<-|Hn].
  - rewrite Hs. cbn [existsb]. by rewrite String.eqb_refl.
  - cbn [orb]. rewrite IH. destruct (no_capitals e); [|done]. cbn [existsb]. by rewrite (proj2 (String.eqb_neq _ _) Hn).
Qed.

(** The filter of names.  The name is put into lower case before it is looked up,
    but the list of names is not in lower case: the filter is the same as with the
    names without capitals only.  Names on the list get through, like [USD Coin]. *)
Theorem scam_names_exact :
  (∀ name, isProbablyNotAScamTokenName name =
    (let s := sanitizedTokenName name in
     clear_of (List.filter no_capitals Tickers.coingeckoTop500Names) s && clear_of Tickers.coingeckoTop500Tickers s &&
     clear_of Tickers.coingeckoTop500Ids s && clear_of Tickers.fiatCurrency s && clear_of Tickers.bannedTickers s &&
     clear_of Tickers.bannedNames s)) ∧
  listed Tickers.coingeckoTop500Names "USD Coin" = true ∧ isProbablyNotAScamTokenName "USD Coin" = true.
Proof.
  split_and!; [|vm_compute; reflexivity|vm_compute; reflexivity]. intros name. unfold isProbablyNotAScamTokenName. cbv zeta.
  pose proof (sanitized_no_capitals name) as Hs. set (s := sanitizedTokenName name) in *.
  assert (clear_of Tickers.coingeckoTop500Names s = clear_of (List.filter no_capitals Tickers.coingeckoTop500Names) s) as ->; [|done].
  unfold clear_of. rewrite (listed_filter _ s Hs), (listed_filter _ (unspaced s)); [done|].
  apply join_no_capitals; [done|by apply split_no_capitals].
Qed.

(** ** Settings *)

Lemma field_app n fs gs : field n (fs ++ gs) = match field n fs with Some v => Some v | None => field n gs end.
Proof. induction fs as [|[m v] fs IH]; [done|]. cbn. by destruct (String.eqb m n). Qed.

Lemma migrate_fold ps fields : ∀ n, field n (fold_left (λ fields p, match field p.1 fields with Some _ => fields | None => fields ++ [p] end) ps fields) =
  match field n fields with Some v => Some v | None => field n ps end.
Proof.
  revert fields. induction ps as [|[m v] ps IH]; intros fields n; cbn [fold_left fst]; [by destruct (field n fields)|]. rewrite IH.
  destruct (field m fields) as [w|] eqn:E.
  - destruct (field n fields) eqn:En; [done|]. cbn. destruct (String.eqb_spec m n) as [->|]; [congruence|done].
  - rewrite field_app. destruct (field n fields) eqn:En; [done|]. cbn. by destruct (String.eqb m n).
Qed.

Lemma default_names_valid p : p ∈ defaultSettings → field p.1 defaultSettings = Some p.2 ∧ valid_setting p.1 p.2 = true.
Proof.
  unfold defaultSettings. rewrite !elem_of_cons, elem_of_nil. intros [->|[->|[->|[->|[->|[]]]]]]; split; vm_compute; reflexivity.
Qed.

(** The migration of settings.  It keeps every setting that is there and adds the
    default for each one that is missing; the result is valid exactly when the
    settings that were there are. *)
Theorem settings_migration fields :
  let migrated := parseInvalidSettingsForMigration fields in
  (∀ n v, field n fields = Some v → field n migrated = Some v) ∧
  (∀ n, field n fields = None → field n migrated = field n defaultSettings) ∧
  (isValidCashtabSettings (JObject migrated) = true ↔
    ∀ p v, p ∈ defaultSettings → field p.1 fields = Some v → valid_setting p.1 v = true).
Proof.
  cbv zeta. unfold parseInvalidSettingsForMigration. split_and!.
  - intros n v H. by rewrite migrate_fold, H.
  - intros n H. by rewrite migrate_fold, H.
  - cbn [isValidCashtabSettings]. rewrite forallb_forall. split.
    + intros H p v Hp Hv. apply list_elem_of_In in Hp. specialize (H p Hp). by rewrite migrate_fold, Hv in H.
    + intros H p Hp. apply list_elem_of_In in Hp. rewrite migrate_fold. destruct (field p.1 fields) as [v|] eqn:E; [by apply H|].
      destruct (default_names_valid p Hp) as [-> ?]. done.
Qed.

(** ** Amounts *)

Section Amounts.
Context `{CA : !Cashaddr} `{BN : !BigNumber} `{BNS : !BigNumberSpec}.

(** The text of a number shows its decimal places, as it does without an exponent. *)
Definition plain_text (x : bn) : Prop :=
  ∀ d, bn_dp x = Some d → if includes (bn_toString x) "." then d = places (bn_toString x) else d = 0.

Lemma dust_is : bn_is dust_xec (inject_Z 550 * ten (-2))%Q.
Proof. apply bn_times_is; [apply bn_of_Z_is|by apply bn_pow10_is]. Qed.

(** An amount with at most two places is a number of hundredths. *)
Lemma two_places x p d : bn_is x p → bn_dp x = Some d → d <= 2 → ∃ n, cents x n.
Proof.
  intros Hx Hd Hle. destruct (bn_dp_is x p Hx) as (d' & E & Hp). rewrite E in Hd. injection Hd as ->.
  destruct (proj1 (Hp 2 ltac:(lia)) Hle) as [n Hn]. exists n. eapply bn_is_proper; [|exact Hx]. rewrite <- Hn, <- Qmult_assoc.
  change (-2) with (- (2)). rewrite ten_neg by done. by rewrite Qmult_1_r.
Qed.

(** What follows from an amount that is accepted. *)
Lemma accepted_amount amount price balance rows q :
  bn_is (bn_of_string balance) q → plain_text (bn_of_string amount) → amount ≠ EmptyString →
  shouldRejectAmountInput amount Currency.ticker price balance = None →
  ∃ n v y, 550 <= n ∧ Qle (inject_Z n * ten (-2))%Q q ∧ parseXecSendValue false (Some amount) rows = Ok v ∧
    fromXecToSatoshis v Currency.cashDecimals = Some y ∧ bn_is y (inject_Z n).
Proof.
  intros Hq Ht Hne H. unfold shouldRejectAmountInput in H. rewrite String.eqb_refl in H. set (x := bn_of_string amount) in *.
  destruct (bn_isNaN x) eqn:En; [done|]. destruct (bn_lte x (bn_of_Z 0)); [done|]. destruct (bn_lt x dust_xec) eqn:El; [done|].
  destruct (bn_gt x (bn_of_string balance)) eqn:Eg; [done|].
  destruct (bn_between x dust_xec (bn_of_string balance) _ _ dust_is Hq En El Eg) as [p Hp].
  destruct (bn_dp_is x p Hp) as (d & Ed & _). assert (Hd : d <= 2).
  { specialize (Ht d Ed). destruct (includes (bn_toString x) "."); [|lia]. subst d. destruct (Z.gtb_spec (places (bn_toString x)) Currency.cashDecimals); [done|].
    unfold Currency.cashDecimals in *. lia. }
  destruct (two_places x p d Hp Ed Hd) as [n Hn].
  assert (H550 : 550 <= n).
  { rewrite (cents_lt x dust_xec n 550 Hn dust_is) in El. apply Z.ltb_ge in El. lia. }
  pose proof (send_value_exact false (Some amount) rows [n]) as Hs. cbv zeta in Hs. change (zsum [n]) with (n + 0) in Hs. rewrite Z.add_0_r, (proj2 (Z.ltb_ge _ _)) in Hs by lia.
  destruct Hs as (v & Ev & Hv); [by exists amount, n|]. destruct (toSatoshis_cents v n Hv) as (y & Ey & Hy). exists n, v, y. split_and!; try done.
  unfold bn_gt in Eg. destruct (Qlt_le_dec q (inject_Z n * ten (-2))%Q) as [Hlt|]; [|done]. apply (bn_lt_is _ _ _ _ Hq Hn) in Hlt. congruence.
Qed.

(** An amount that the form accepts can be sent.  When [shouldRejectAmountInput]
    has no objection to an amount of XEC, the amount is a number of satoshis, not
    less than 550 and not more than the balance, and [parseXecSendValue] and
    [fromXecToSatoshis], which [sendXec] calls first, return exactly it. *)
Theorem validated_amount amount price balance rows q :
  bn_is (bn_of_string balance) q → plain_text (bn_of_string amount) → amount ≠ EmptyString →
  shouldRejectAmountInput amount Currency.ticker price balance = None →
  ∃ n v y, 550 <= n ∧ Qle (inject_Z n * ten (-2))%Q q ∧ parseXecSendValue false (Some amount) rows = Ok v ∧
    fromXecToSatoshis v Currency.cashDecimals = Some y ∧ bn_is y (inject_Z n).
Proof. exact (accepted_amount amount price balance rows q). Qed.

(** The quantity of a new token.  A quantity that [isValidTokenInitialQty] accepts
    for a number of decimals from 0 to 9 is a whole number of units, at least one
    and below 10 to the power of 11 plus the decimals.  With up to 7 decimals it is
    in the range of the token protocol, which has 64 bits; with 9 decimals the
    largest quantities are not. *)
Theorem initial_quantity q d : 0 <= d <= 9 → isValidTokenInitialQty q d = true →
  ∃ n, bn_is (bn_times (bn_of_string q) (bn_pow10 d)) (inject_Z n) ∧ 1 <= n < 10 ^ (11 + d) ∧ (d <= 7 → n < 2 ^ 64).
Proof.
  intros Hd H. unfold isValidTokenInitialQty in H. set (x := bn_of_string q) in *. rewrite !andb_true_iff in H. destruct H as [[H1 H2] H3].
  assert (En : bn_isNaN x = false) by (destruct (bn_isNaN x) eqn:En; [|done]; rewrite bn_lt_NaN in H2 by auto; done).
  pose proof (bn_pow10_is (- d) ltac:(lia)) as Hmin. pose proof (bn_of_Z_is 100000000000) as Hmax.
  assert (Hfin : ∃ p, bn_is x p).
  { apply (bn_between x (bn_pow10 (- d)) (bn_of_Z 100000000000) _ _ Hmin Hmax En).
    - destruct (bn_lt x (bn_pow10 (- d))) eqn:E; [|done]. exfalso. apply bn_lt_gte in E. unfold bn_gte in H1. destruct E. congruence.
    - destruct (bn_lt (bn_of_Z 100000000000) x) eqn:E; [|done]. exfalso. apply bn_lt_gte in E. destruct E. congruence. }
  destruct Hfin as [p Hp]. destruct (bn_dp_is x p Hp) as (k & Ek & Hk). rewrite Ek in H3. cbn [from_option id] in H3. apply Z.leb_le in H3.
  destruct (proj1 (Hk d ltac:(lia)) H3) as [n Hn]. exists n. split; [eapply bn_is_proper; [exact Hn|]; apply bn_times_is; [done|apply bn_pow10_is; lia]|].
  apply (bn_lte_is _ _ _ _ Hmin Hp) in H1. apply (bn_lt_is _ _ _ _ Hp Hmax) in H2.
  assert (Hten : Qlt 0 (ten d)) by (apply Qpower_0_lt; reflexivity).
  assert (L1 : Qle 1 (inject_Z n)). { rewrite <- Hn, <- (ten_neg d), Qmult_comm by lia. by apply Qmult_le_r. }
  assert (L2 : Qlt (inject_Z n) (inject_Z (10 ^ (11 + d)))).
  { rewrite <- Hn, Z.pow_add_r, inject_Z_mult, <- (ten_nonneg d) by lia. by apply Qmult_lt_r. }
  change 1%Q with (inject_Z 1) in L1. rewrite <- Zle_Qle in L1. rewrite <- Zlt_Qlt in L2. split; [lia|]. intros H7.
  pose proof (Z.pow_le_mono_r 10 (11 + d) 18 ltac:(lia) ltac:(lia)). assert (10 ^ 18 < 2 ^ 64) by reflexivity. lia.
Qed.

End Amounts.

(** ** Examples *)

Section Examples.
Import ConcreteBn.

Lemma validated_amount_witness : ∃ n v y, 550 <= n ∧ parseXecSendValue false (Some "20"%string) None = Ok v ∧
  fromXecToSatoshis v Currency.cashDecimals = Some y ∧ bn_is y (inject_Z n).
Proof.
  destruct (validated_amount "20" "1" "100" None (inject_Z 100)) as (n & v & y & H1 & _ & H2 & H3 & H4).
  - exact (bn_of_string_int 100).
  - intros d Hd. vm_compute in Hd. injection Hd as <-. vm_compute. reflexivity.
  - discriminate.
  - vm_compute. reflexivity.
  - exists n, v, y. split; [exact H1|]. split; [exact H2|]. split; [exact H3|exact H4].
Defined.

Lemma initial_quantity_witness :
  (∃ n, bn_is (bn_times (bn_of_string "20") (bn_pow10 7)) (inject_Z n) ∧ n < 2 ^ 64) ∧
  isValidTokenInitialQty "99999999999" 9 = true ∧ 2 ^ 64 < 99999999999 * 10 ^ 9.
Proof.
  split.
  - destruct (initial_quantity "20" 7) as (n & H & _ & H64).
    + lia.
    + vm_compute. reflexivity.
    + exists n. split; [exact H|apply H64; lia].
  - split; [vm_compute; reflexivity|reflexivity].
Defined.

End Examples.
End ValidationLaws.
