(* ===== verification/App.v ===== *)
(** * The state of the application

    The values that [useWallet] of [cashtab/src/hooks/useWallet.js] keeps with [useState],
    the database of the browser behind [localforage], and the effects of its functions:
    a function reads and writes both, and settles like a promise.  A call of the
    database may fail; which ones do is part of the state. *)

From stdpp Require Import base tactics list gmap numbers strings.
From S2P Require Import Prelude JsFloat NodeBuffer JsString OpReturn Wallet ChronikUtils Validation.
Import ChronikUtils Validation.
Open Scope Z_scope.

(** ** State *)

(** The items of the database.  An item that is not there is [null]; [db_wallet] may also
    be [false], which the code does not tell from [null].  [db_localWallet] is the
    [JSON.parse] of the older [localStorage], and [db_faults] says which of the next
    calls fail. *)
Record database := mkDb {
  db_wallet : option wallet;
  db_savedWallets : option (list wallet);
  db_contactList : option json;
  db_settings : option json;
  db_cashtabCache : option json;
  db_localWallet : result (option wallet);
  db_faults : list bool;
}.

(** What the user is told. *)
Inductive notification :=
| XecReceived (balances previousBalances : balances) (fiatPrice : option number)
| XecReceivedWebsocket (xecAmount : string) (fiatPrice : option number)
| ETokenReceived (ticker qty name : string).

(** The websocket: where it is connected, its [readyState] and the hashes it is
    subscribed to, each as ['p2pkh']; [ws_listener] is the wallet and the price that
    [onMessage] has. *)
Record websocket := mkWs {
  ws_url : string;
  ws_readyState : Z;
  ws_subs : list string;
  ws_listener : option wallet * option number;
}.

(** [wallet] and [cashtabSettings] are [false] at first. *)
Record hook := mkHook {
  h_chronikIndex : Z;
  h_walletRefreshInterval : Z;
  h_wallet : option wallet;
  h_chronikWebsocket : option websocket;
  h_contactList : json;
  h_cashtabSettings : option json;
  h_cashtabCache : tokenInfoMap;
  h_fiatPrice : option number;
  h_apiError : bool;
  h_hasUpdated : bool;
  h_loading : bool;
}.

(** [currency.defaultCashtabCache] is an object of the module that the code writes to.
    [w_interval] is the currency that the interval of the price was set for. *)
Record world := mkWorld {
  w_db : database;
  w_hook : hook;
  w_defaultCashtabCache : tokenInfoMap;
  w_notifications : list notification;
  w_interval : option string;
}.

(** ** Effects *)

Definition app (A : Type) : Type := world → world * promise A.

#[export] Instance app_ret : MRet app := fun A a s => (s, Resolved a).
#[export] Instance app_bind : MBind app := fun A B f m s =>
  match m s with
  | (s, Resolved a) => f a s
  | (s, Rejected e) => (s, Rejected e)
  | (s, Pending) => (s, Pending)
  end.

#[export] Instance app_fmap : FMap app := fun A B f m => a ← m; mret (f a).

Definition throw {A} (e : js_exn) : app A := λ s, (s, Rejected e).
(** [try { m } catch (err) { h }] *)
Definition try_catch {A} (m : app A) (h : js_exn → app A) : app A := λ s,
  match m s with
  | (s, Rejected e) => h e s
  | r => r
  end.
(** [m.finally(h)] *)
Definition finally {A} (m : app A) (h : app unit) : app A := λ s,
  match m s with
  | (s, Pending) => (s, Pending)
  | (s, p) => match h s with (s, Resolved _) => (s, p) | (s, Rejected e) => (s, Rejected e) | (s, Pending) => (s, Pending) end
  end.
(** A call whose promise nobody waits for. *)
Definition spawn {A} (m : app A) : app unit := λ s, ((m s).1, Resolved tt).
(** [await p], of a promise that does not change the state *)
Definition await {A} (p : promise A) : app A := λ s, (s, p).
Definition gets {A} (f : world → A) : app A := λ s, (s, Resolved (f s)).
Definition modify (f : world → world) : app unit := λ s, (f s, Resolved tt).

(** ** Setters *)

Definition on_hook (f : hook → hook) : app unit :=
  modify (λ s, mkWorld (w_db s) (f (w_hook s)) (w_defaultCashtabCache s) (w_notifications s) (w_interval s)).
Definition on_db (f : database → database) : app unit :=
  modify (λ s, mkWorld (f (w_db s)) (w_hook s) (w_defaultCashtabCache s) (w_notifications s) (w_interval s)).

Definition setChronikIndex (v : Z) := on_hook (λ h, mkHook v (h_walletRefreshInterval h) (h_wallet h) (h_chronikWebsocket h) (h_contactList h) (h_cashtabSettings h) (h_cashtabCache h) (h_fiatPrice h) (h_apiError h) (h_hasUpdated h) (h_loading h)).
Definition setWalletRefreshInterval (v : Z) := on_hook (λ h, mkHook (h_chronikIndex h) v (h_wallet h) (h_chronikWebsocket h) (h_contactList h) (h_cashtabSettings h) (h_cashtabCache h) (h_fiatPrice h) (h_apiError h) (h_hasUpdated h) (h_loading h)).
Definition setWallet (v : option wallet) := on_hook (λ h, mkHook (h_chronikIndex h) (h_walletRefreshInterval h) v (h_chronikWebsocket h) (h_contactList h) (h_cashtabSettings h) (h_cashtabCache h) (h_fiatPrice h) (h_apiError h) (h_hasUpdated h) (h_loading h)).
Definition setChronikWebsocket (v : option websocket) := on_hook (λ h, mkHook (h_chronikIndex h) (h_walletRefreshInterval h) (h_wallet h) v (h_contactList h) (h_cashtabSettings h) (h_cashtabCache h) (h_fiatPrice h) (h_apiError h) (h_hasUpdated h) (h_loading h)).
Definition setContactList (v : json) := on_hook (λ h, mkHook (h_chronikIndex h) (h_walletRefreshInterval h) (h_wallet h) (h_chronikWebsocket h) v (h_cashtabSettings h) (h_cashtabCache h) (h_fiatPrice h) (h_apiError h) (h_hasUpdated h) (h_loading h)).
Definition setCashtabSettings (v : option json) := on_hook (λ h, mkHook (h_chronikIndex h) (h_walletRefreshInterval h) (h_wallet h) (h_chronikWebsocket h) (h_contactList h) v (h_cashtabCache h) (h_fiatPrice h) (h_apiError h) (h_hasUpdated h) (h_loading h)).
Definition setCashtabCache (v : tokenInfoMap) := on_hook (λ h, mkHook (h_chronikIndex h) (h_walletRefreshInterval h) (h_wallet h) (h_chronikWebsocket h) (h_contactList h) (h_cashtabSettings h) v (h_fiatPrice h) (h_apiError h) (h_hasUpdated h) (h_loading h)).
Definition setFiatPrice (v : option number) := on_hook (λ h, mkHook (h_chronikIndex h) (h_walletRefreshInterval h) (h_wallet h) (h_chronikWebsocket h) (h_contactList h) (h_cashtabSettings h) (h_cashtabCache h) v (h_apiError h) (h_hasUpdated h) (h_loading h)).
Definition setApiError (v : bool) := on_hook (λ h, mkHook (h_chronikIndex h) (h_walletRefreshInterval h) (h_wallet h) (h_chronikWebsocket h) (h_contactList h) (h_cashtabSettings h) (h_cashtabCache h) (h_fiatPrice h) v (h_hasUpdated h) (h_loading h)).
Definition setHasUpdated (v : bool) := on_hook (λ h, mkHook (h_chronikIndex h) (h_walletRefreshInterval h) (h_wallet h) (h_chronikWebsocket h) (h_contactList h) (h_cashtabSettings h) (h_cashtabCache h) (h_fiatPrice h) (h_apiError h) v (h_loading h)).
Definition setLoading (v : bool) := on_hook (λ h, mkHook (h_chronikIndex h) (h_walletRefreshInterval h) (h_wallet h) (h_chronikWebsocket h) (h_contactList h) (h_cashtabSettings h) (h_cashtabCache h) (h_fiatPrice h) (h_apiError h) (h_hasUpdated h) v).

Definition setDefaultCashtabCache (v : tokenInfoMap) : app unit :=
  modify (λ s, mkWorld (w_db s) (w_hook s) v (w_notifications s) (w_interval s)).
Definition notify (n : notification) : app unit :=
  modify (λ s, mkWorld (w_db s) (w_hook s) (w_defaultCashtabCache s) (w_notifications s ++ [n]) (w_interval s)).
Definition setFiatInterval (v : option string) : app unit :=
  modify (λ s, mkWorld (w_db s) (w_hook s) (w_defaultCashtabCache s) (w_notifications s) v).

(** ** The database *)

(** What a failed call rejects with: the code only looks at whether it does. *)
Definition db_error : js_exn := Error "storage".

Definition db_ok (d : database) : bool := negb (default false (head (db_faults d))).
Definition db_next (d : database) : database :=
  mkDb (db_wallet d) (db_savedWallets d) (db_contactList d) (db_settings d) (db_cashtabCache d) (db_localWallet d) (tail (db_faults d)).

Definition db_call {A} (m : app A) : app A := λ s,
  let s' := mkWorld (db_next (w_db s)) (w_hook s) (w_defaultCashtabCache s) (w_notifications s) (w_interval s) in
  if db_ok (w_db s) then m s' else (s', Rejected db_error).

(** [localforage.getItem] and [localforage.setItem]: a copy goes in and comes out. *)
Definition getItem {A} (field : database → A) : app A := db_call (gets (λ s, field (w_db s))).
Definition setItem (write : database → database) : app unit := db_call (on_db write).

Definition put_wallet (v : option wallet) (d : database) : database :=
  mkDb v (db_savedWallets d) (db_contactList d) (db_settings d) (db_cashtabCache d) (db_localWallet d) (db_faults d).
Definition put_savedWallets (v : list wallet) (d : database) : database :=
  mkDb (db_wallet d) (Some v) (db_contactList d) (db_settings d) (db_cashtabCache d) (db_localWallet d) (db_faults d).
Definition put_contactList (v : json) (d : database) : database :=
  mkDb (db_wallet d) (db_savedWallets d) (Some v) (db_settings d) (db_cashtabCache d) (db_localWallet d) (db_faults d).
Definition put_settings (v : json) (d : database) : database :=
  mkDb (db_wallet d) (db_savedWallets d) (db_contactList d) (Some v) (db_cashtabCache d) (db_localWallet d) (db_faults d).
Definition put_cashtabCache (v : json) (d : database) : database :=
  mkDb (db_wallet d) (db_savedWallets d) (db_contactList d) (db_settings d) (Some v) (db_localWallet d) (db_faults d).

(** ** Reasoning

    [wp m Q s]: running [m] in [s] ends as [Q] says, with the promise it returns and the
    state it leaves. *)

Definition wp {A} (m : app A) (Q : promise A → world → Prop) (s : world) : Prop := Q (m s).2 (m s).1.

(** The state after a call of the database. *)
Definition tick (s : world) : world :=
  mkWorld (db_next (w_db s)) (w_hook s) (w_defaultCashtabCache s) (w_notifications s) (w_interval s).

Section Wp.
Context {A : Type}.
Implicit Type (Q : promise A → world → Prop) (s : world).

Lemma wp_mret (a : A) Q s : wp (mret a) Q s ↔ Q (Resolved a) s.
Proof. done. Qed.

Lemma wp_bind {B} (m : app B) (f : B → app A) Q s : wp (m ≫= f) Q s ↔
  wp m (λ p s, match p with Resolved b => wp (f b) Q s | Rejected e => Q (Rejected e) s | Pending => Q Pending s end) s.
Proof. unfold wp, mbind, app_bind. destruct (m s) as [s' [b|e|]]; cbn; done. Qed.

Lemma wp_fmap {B} (f : B → A) (m : app B) Q s : wp (f <$> m) Q s ↔
  wp m (λ p s, match p with Resolved b => Q (Resolved (f b)) s | Rejected e => Q (Rejected e) s | Pending => Q Pending s end) s.
Proof. apply wp_bind. Qed.

Lemma wp_throw e Q s : wp (throw e : app A) Q s ↔ Q (Rejected e) s.
Proof. done. Qed.

Lemma wp_try (m : app A) (h : js_exn → app A) Q s : wp (try_catch m h) Q s ↔
  wp m (λ p s, match p with Rejected e => wp (h e) Q s | p => Q p s end) s.
Proof. unfold wp, try_catch. destruct (m s) as [s' [b|e|]]; cbn; done. Qed.

Lemma wp_spawn {B} (m : app B) (Q : promise unit → world → Prop) s : wp (spawn m) Q s ↔ wp m (λ _ s, Q (Resolved tt) s) s.
Proof. done. Qed.

Lemma wp_await (p : promise A) Q s : wp (await p) Q s ↔ Q p s.
Proof. done. Qed.

Lemma wp_gets (f : world → A) Q s : wp (gets f) Q s ↔ Q (Resolved (f s)) s.
Proof. done. Qed.

Lemma wp_get (f : database → A) Q s : wp (getItem f) Q s ↔
  if db_ok (w_db s) then Q (Resolved (f (db_next (w_db s)))) (tick s) else Q (Rejected db_error) (tick s).
Proof. unfold wp, getItem, db_call. fold (tick s). by destruct (db_ok (w_db s)). Qed.

Lemma wp_mono (m : app A) Q R s : wp m Q s → (∀ p s', Q p s' → R p s') → wp m R s.
Proof. unfold wp. eauto. Qed.

End Wp.

Lemma wp_modify f Q s : wp (modify f) Q s ↔ Q (Resolved tt) (f s).
Proof. done. Qed.

Definition put (write : database → database) (s : world) : world :=
  mkWorld (write (w_db s)) (w_hook s) (w_defaultCashtabCache s) (w_notifications s) (w_interval s).

Lemma wp_set write Q s : wp (setItem write) Q s ↔
  if db_ok (w_db s) then Q (Resolved tt) (put write (tick s)) else Q (Rejected db_error) (tick s).
Proof. unfold wp, setItem, db_call. fold (tick s). by destruct (db_ok (w_db s)). Qed.

(** The state after a setter. *)
Definition hooked (f : hook → hook) (s : world) : world :=
  mkWorld (w_db s) (f (w_hook s)) (w_defaultCashtabCache s) (w_notifications s) (w_interval s).

Lemma wp_on_hook f Q s : wp (on_hook f) Q s ↔ Q (Resolved tt) (hooked f s).
Proof. done. Qed.

Create HintDb wp.
#[export] Hint Rewrite @wp_mret @wp_bind @wp_fmap @wp_throw @wp_try @wp_spawn @wp_await @wp_gets @wp_get wp_modify wp_set wp_on_hook : wp.

(** One case for each call of the database that may fail. *)
Ltac wp_cases :=
  unfold setChronikIndex, setWalletRefreshInterval, setWallet, setChronikWebsocket, setContactList, setCashtabSettings, setCashtabCache,
    setFiatPrice, setApiError, setHasUpdated, setLoading, setDefaultCashtabCache, notify, setFiatInterval;
  repeat (autorewrite with wp;
    match goal with |- context [if db_ok ?d then _ else _] => destruct (db_ok d) eqn:? | _ => idtac end).

(** ** A database that does not fail *)

Definition sound (s : world) : Prop := db_faults (w_db s) = [].

Lemma sound_ok s : sound s → db_ok (w_db s) = true.
Proof. unfold sound, db_ok. by intros ->. Qed.
Lemma sound_tick s : sound s → sound (tick s).
Proof. unfold sound, tick, db_next. cbn. by intros ->. Qed.
Lemma sound_hooked f s : sound s → sound (hooked f s).
Proof. done. Qed.
Lemma sound_put_wallet v s : sound s → sound (put (put_wallet v) s).
Proof. done. Qed.
Lemma sound_put_saved v s : sound s → sound (put (put_savedWallets v) s).
Proof. done. Qed.
Lemma sound_put_contacts v s : sound s → sound (put (put_contactList v) s).
Proof. done. Qed.
Lemma sound_put_settings v s : sound s → sound (put (put_settings v) s).
Proof. done. Qed.
Lemma sound_put_cache v s : sound s → sound (put (put_cashtabCache v) s).
Proof. done. Qed.

#[export] Hint Resolve sound_tick sound_hooked sound_put_wallet sound_put_saved sound_put_contacts sound_put_settings sound_put_cache : wp.

(** Every call of the database succeeds. *)
Ltac wp_sound :=
  unfold setChronikIndex, setWalletRefreshInterval, setWallet, setChronikWebsocket, setContactList, setCashtabSettings, setCashtabCache,
    setFiatPrice, setApiError, setHasUpdated, setLoading, setDefaultCashtabCache, notify, setFiatInterval;
  repeat (autorewrite with wp; rewrite ?sound_ok by eauto 20 with wp).
