(* ===== verification/Accounts.v ===== *)
(** * The accounts of a wallet

    The functions of [cashtab/src/hooks/useWallet.js] that make a wallet from a mnemonic,
    and those of [cashtab/src/utils/cashMethods.js] on stored wallets. *)

From stdpp Require Import base tactics list gmap numbers strings.
From S2P Require Import Prelude JsNumber JsFloat NodeBuffer Externals Encodings Crypto Curve Asm ECPair TransactionBuilder HDNode JsString BigNumber OpReturn WalletExternals WalletAddress Wallet Amounts TxBuilder CashMethods Send App.
Import TxBuilder CashMethods Send.
Open Scope Z_scope.

Module Accounts.

(** [!s], of a field that may be missing *)
Definition absent (s : option string) : bool := match s with Some s => OpReturn.is_empty s | None => true end.

Definition isLegacyMigrationRequired (wallet : wallet) : bool :=
  match Path1899 wallet with
  | None => true
  | Some path1899 =>
      absent (publicKey path1899) || absent (hash160 path1899) ||
      absent (publicKey (Path145 wallet)) || absent (hash160 (Path145 wallet)) ||
      absent (publicKey (Path245 wallet)) || absent (hash160 (Path245 wallet))
  end.

(** The state of a wallet that has none: the two zeros are numbers there. *)
Definition getWalletState (wallet : option wallet) : walletState :=
  match wallet ≫= w_state with
  | Some state => state
  | None => mkState (Some (mkBalances "0" "0")) (Some []) (Some []) (Some []) true None (Some [])
  end.

(** [ws] is the websocket that the state has. *)
Definition isActiveWebsocket (ws : option websocket) : bool :=
  match ws with
  | Some ws => (ws_readyState ws =? 1) && negb (len (ws_subs ws) =? 0)
  | None => false
  end.

Section S.
Context {Mem : UninitMem} `{TF : !Typeforce} `{BI : !Bigi} `{EC : !Ecurve} `{HM : !CreateHmac} `{CH : !CreateHash}
  `{B58 : !Bs58check} `{WF : !Wif} `{CA : !Cashaddr} `{BN : !BigNumber} `{BS58 : !Bs58} `{B39 : !Bip39}.

(** [Object.keys(state).length === 0] *)
Definition no_keys (s : walletState) : bool :=
  missing (ws_balances s) && missing (ws_tokens s) && missing (ws_slpUtxos s) && missing (ws_nonSlpUtxos s) &&
  negb (ws_hydratedUtxoDetails s) && missing (ws_slpBalancesAndUtxos s) && missing (ws_parsedTxHistory s).

Definition with_balances (s : walletState) (b : balances) : walletState :=
  mkState (Some b) (ws_tokens s) (ws_slpUtxos s) (ws_nonSlpUtxos s) (ws_hydratedUtxoDetails s) (ws_slpBalancesAndUtxos s) (ws_parsedTxHistory s).

(** The balances of tokens are texts, so that there are none to restore. *)
Definition loadStoredWallet (walletStateFromStorage : option walletState) : result walletState :=
  let liveWalletState := default (mkState None None None None false None None) walletStateFromStorage in
  balancesRebased ←
    (if no_keys liveWalletState then Ok (mkBalances "0" "0")
     else
       let nonSlpUtxosToParseForBalance :=
         match ws_slpBalancesAndUtxos liveWalletState with Some utxos => Some utxos | None => ws_nonSlpUtxos liveWalletState end in
       match nonSlpUtxosToParseForBalance with
       | Some utxos => Ok (Amounts.getWalletBalanceFromUtxos utxos)
       | None => TransactionBuilder.no_property
       end);
  Ok (with_balances liveWalletState balancesRebased).

(** ** From a mnemonic *)

(** [fuel] bounds the search of each step of the path for a usable key. *)
Definition deriveAccount (fuel : nat) (masterHDNode : hdnode) (path : string) : result account :=
  node ← HDNode.derivePath fuel masterHDNode path;
  publicKey ← HDNode.getPublicKeyBuffer node;
  id ← HDNode.getIdentifier node;
  cashAddress ← ca_encode "ecash" "P2PKH" id;
  hash160 ← WalletAddress.toHash160 cashAddress;
  fundingWif ← ECPair.toWIF (hd_keyPair node);
  Ok (mkAccount cashAddress fundingWif (Some hash160) (Some (Hex.toHex publicKey))).

(** The three accounts, in the order in which they are derived. *)
Definition deriveAccounts (fuel : nat) (mnemonic : string) : promise (account * account * account) :=
  rootSeedBuffer ← b39_mnemonicToSeed mnemonic EmptyString;
  settle (
    masterHDNode ← HDNode.fromSeedBuffer rootSeedBuffer (Some ecash);
    Path245 ← deriveAccount fuel masterHDNode "m/44'/245'/0'/0/0";
    Path145 ← deriveAccount fuel masterHDNode "m/44'/145'/0'/0/0";
    Path1899 ← deriveAccount fuel masterHDNode "m/44'/1899'/0'/0/0";
    Ok (Path245, Path145, Path1899)).

(** The argument has a mnemonic and perhaps a name; [None] is [false]. *)
Definition getWalletDetails (fuel : nat) (w : option (string * option string)) : promise (option wallet) :=
  match w with
  | None => Resolved None
  | Some (mnemonic, name) =>
      '(Path245, Path145, Path1899) ← deriveAccounts fuel mnemonic;
      let name := if absent name then substring (cashAddress Path1899) 6 11 else default EmptyString name in
      Resolved (Some (mkWallet mnemonic name Path245 Path145 (Some Path1899) None))
  end.

(** The wallet in the database is replaced, if that is possible. *)
Definition migrateLegacyWallet (fuel : nat) (w : wallet) : app wallet :=
  '(Path245, Path145, Path1899) ← await (deriveAccounts fuel (w_mnemonic w));
  let w := mkWallet (w_mnemonic w) (w_name w) Path245 Path145 (Some Path1899) (w_state w) in
  try_catch (setItem (put_wallet (Some w))) (λ _, mret tt);;
  mret w.

End S.
End Accounts.

(** * Wallets from mnemonics

    The accounts that [getWalletDetails] derives: the key that is stored with an address
    is the key of the address. *)

From S2P Require Import Ecdsa Drafts Payments Signing.
Import Networks TxBuilder CashMethods Signing Send Accounts.
Module AccountsLaws.
Section S.
Context {Mem : UninitMem} `{TF : !Typeforce} `{BI : !Bigi} `{EC : !Ecurve} `{HM : !CreateHmac} `{CH : !CreateHash}
  `{B58 : !Bs58check} `{WF : !Wif} `{CA : !Cashaddr} `{BN : !BigNumber} `{BS58 : !Bs58} `{B39 : !Bip39}.
Context `{TS : !TypeforceSpec} `{BS : !BigiSpec} `{ES : !EcurveSpec} `{HS : !CreateHmacSpec} `{CS : !CreateHashSpec}
  `{B58S : !Bs58checkSpec} `{WS : !WifSpec} `{CAS : !CashaddrSpec} `{BS58S : !Bs58Spec} `{B39S : !Bip39Spec}.

(** ** Nodes *)

(** A node with a private key of the network of the wallet. *)
Record private_node (self : hdnode) : Prop := {
  pn_ok : HDNode.node_ok self;
  pn_private : HDNode.isNeutered self = false;
  pn_network : HDNode.getNetwork self = ecash;
}.

Lemma seed_node seed hd : HDNode.fromSeedBuffer seed (Some ecash) = Ok hd → private_node hd.
Proof.
  unfold HDNode.fromSeedBuffer. intros H. apply guard_ok in H as [Hn H]. destruct (blen seed <? 16); [done|]. destruct (blen seed >? 64); [done|].
  apply bind_ok in H as (kp & Hk & H). destruct (HDNode.hmac_halves HDNode.MASTER_SECRET seed) as (_ & H1 & H2).
  assert (Hp : ECPair.pair_ok kp) by (eapply ECPair.pair_new_ok; [|exact Hk]; done).
  unfold ECPair.new in Hk. rewrite Hn in Hk. cbn [guard_js mbind result_bind] in Hk. inv_result. unfold HDNode.new in H. cbn [kp_compressed negb default from_option id] in H.
  injection H as <-. split; [split|done|done]; cbn; done || lia.
Qed.

Lemma derive_private fuel self i c : private_node self → HDNode.derive fuel self i = Ok c → private_node c.
Proof.
  intros [H1 H2 H3] Hc. destruct (HDNode.derive_invariant _ _ _ _ H1 Hc) as (G1 & _ & _ & _ & G2 & G3 & _). split; congruence.
Qed.

Lemma derive_steps_private fuel path self c : private_node self → HDNode.derive_steps fuel self path = Ok c → private_node c.
Proof.
  revert self. induction path as [|w path IH]; intros self Hp; cbn [HDNode.derive_steps]; [by intros [= <-]|].
  intros (hd & Hh & H)%bind_ok. apply (IH hd); [|done]. unfold HDNode.derive_step, HDNode.deriveHardened in Hh.
  destruct (Path.quote w) as [ds []]; [apply guard_ok in Hh as [_ Hh]|]; by eapply derive_private.
Qed.

Lemma derive_path_private fuel path self c : private_node self → HDNode.derivePath fuel self path = Ok c → private_node c.
Proof.
  intros Hp. unfold HDNode.derivePath. intros [_ H]%guard_ok. destruct (Path.split path) as [|w ws]; [by eapply derive_steps_private|].
  destruct (bool_decide _); [destruct (truthy _); [done|]|]; by eapply derive_steps_private.
Qed.

(** ** Accounts *)

(** The stored key is that of the address; the hash and the public key go with it. *)
Definition account_ok (a : account) : Prop :=
  ∃ p d, getECPairFromWIF (fundingWif a) = Ok p ∧ kp_d p = Some d ∧ kp_compressed p = true ∧
    ca_decode (cashAddress a) = Ok ("ecash"%string, "P2PKH"%string, Crypto.hash160 (public_of p d)) ∧
    hash160 a = Some (Hex.toHex (Crypto.hash160 (public_of p d))) ∧ publicKey a = Some (Hex.toHex (public_of p d)).

Lemma pair_public p q b : ECPair.pair_ok p → ECPair.pair_ok q → ECPair.pair_eq p q → ECPair.getPublicKeyBuffer q = Ok b → ECPair.getPublicKeyBuffer p = Ok b.
Proof. intros Hp Hq (_ & E & C & _) H. by rewrite (HDNode.same_public_key p q Hp Hq E C). Qed.

Lemma derived_account fuel self path a : private_node self → deriveAccount fuel self path = Ok a → account_ok a.
Proof.
  intros Hs H. unfold deriveAccount in H. apply bind_ok in H as (node & Hn & H). pose proof (derive_path_private _ _ _ _ Hs Hn) as [Hok Hpr Hnet].
  apply bind_ok in H as (pk & Hpk & H). apply bind_ok in H as (id & Hid & H). unfold HDNode.getIdentifier in Hid. change (ECPair.getPublicKeyBuffer (hd_keyPair node) = Ok pk) in Hpk.
  rewrite Hpk in Hid. injection Hid as <-. destruct (Crypto.hash160_ok pk) as [Hl Hb].
  destruct (ca_roundtrip "ecash" "P2PKH" (Crypto.hash160 pk)) as (addr & Ea & Da & _ & _); [by left|by left|done|done|]. rewrite Ea in H. cbn [mbind result_bind] in H.
  unfold WalletAddress.toHash160 in H. rewrite Da in H. cbn [mbind result_bind] in H. rewrite b58_roundtrip in H by done. cbn [mbind result_bind] in H.
  unfold HDNode.isNeutered in Hpr. destruct (kp_d (hd_keyPair node)) as [d|] eqn:Ed; [|done].
  destruct (ECPair.wif_form _ _ (HDNode.no_pair _ Hok) Ed) as (s & k & p & Es & Ds & En & Ep & EQ & Ek). rewrite Es in H. injection H as <-.
  assert (Hp : ECPair.pair_ok p) by (eapply ECPair.pair_new_ok; [|exact En]; done).
  pose proof (pair_public _ _ _ Hp (HDNode.no_pair _ Hok) Ep Hpk) as Hpub.
  assert (Hd : 0 < bi_Z (bi_fromBuffer k) < bi_Z ec_n) by (destruct Hp as [_ Hp]; by rewrite Ek, EQ in Hp).
  destruct (public_of_ok p _ Hd Ek EQ) as [E _]. rewrite E in Hpub. injection Hpub as <-.
  exists p, (bi_fromBuffer k). cbn [fundingWif cashAddress hash160 publicKey]. split_and!; try done.
  - unfold getECPairFromWIF, ECPair.fromWIF. rewrite Ds. cbn [mbind result_bind default from_option id].
    unfold HDNode.getNetwork, ECPair.getNetwork in Hnet. rewrite Hnet, Z.eqb_refl. cbn [negb mbind result_bind]. by rewrite Hnet in En.
  - destruct Ep as (_ & _ & -> & _). by apply HDNode.no_compressed.
Qed.

Definition accounts (w : wallet) : list account := [Path245 w; Path145 w] ++ option_list (Path1899 w).

Lemma toHex_nonempty b : b ≠ [] → OpReturn.is_empty (Hex.toHex b) = false.
Proof. by destruct b. Qed.

Lemma wif_key_range s p d : getECPairFromWIF s = Ok p → kp_d p = Some d → 0 < bi_Z d < bi_Z ec_n.
Proof.
  intros H1 H2. assert (Hp : ECPair.pair_ok p).
  { unfold getECPairFromWIF, ECPair.fromWIF in H1. apply bind_ok in H1 as ([[v k] c] & _ & H1). apply bind_ok in H1 as (n & _ & H1). by eapply ECPair.pair_new_ok; [|exact H1]. }
  destruct Hp as [_ Hp]. rewrite H2 in Hp. destruct (kp_Q p); tauto.
Qed.

Lemma account_present a : account_ok a → absent (publicKey a) = false ∧ absent (hash160 a) = false.
Proof.
  intros (p & d & H1 & H2 & H3 & H4 & -> & ->). cbn [absent]. split; apply toHex_nonempty; intros E.
  - pose proof (wif_key_range _ _ _ H1 H2) as Hd.
    pose proof (ECDSA.dl_generator d Hd) as Hdl. destruct (getEncoded_len (pt_multiply ec_G d) (kp_compressed p)) as [_ Hl]; [lia|].
    unfold public_of in E. rewrite E, H3 in Hl. done.
  - destruct (Crypto.hash160_ok (public_of p d)) as [Hl _]. by rewrite E in Hl.
Qed.

(** The key that the wallet finds for an output is that of the last account with its
    address. *)
Lemma wif_of_last u w path1899 : Path1899 w = Some path1899 → (∃ a, a ∈ accounts w ∧ cashAddress a = u_address u) →
  ∃ b, b ∈ accounts w ∧ cashAddress b = u_address u ∧ getUtxoWif u (Some w) = Ok (fundingWif b).
Proof.
  intros E (a & Ha & Eu). unfold getUtxoWif, accounts in *. rewrite E in *. cbn [option_list app] in *. cbn [filter_accounts mbind result_bind]. rewrite <- Eu in *.
  destruct (String.eqb_spec (cashAddress path1899) (cashAddress a)) as [E3|N3];
    destruct (String.eqb_spec (cashAddress (Path145 w)) (cashAddress a)) as [E2|N2];
    destruct (String.eqb_spec (cashAddress (Path245 w)) (cashAddress a)) as [E1|N1]; cbn [last];
    try (exists path1899; split; [by do 2 right; left|done]); try (exists (Path145 w); split; [by right; left|done]); try (exists (Path245 w); split; [by left|done]).
  exfalso. apply elem_of_cons in Ha as [->|Ha]; [done|]. apply elem_of_cons in Ha as [->|Ha]; [done|]. by apply list_elem_of_singleton in Ha as ->.
Qed.

(** C11: a wallet made from a mnemonic can spend what it receives.  When [getWalletDetails]
    returns a wallet, it has the mnemonic, needs no migration, and each of its three
    accounts holds the hash and the public key of its address; for an output at an
    address of the wallet, the key that is found for signing is the private key of the
    hash that the address stands for. *)
Theorem mnemonic_wallet_signs fuel m name w : getWalletDetails fuel (Some (m, name)) = Resolved (Some w) →
  w_mnemonic w = m ∧ isLegacyMigrationRequired w = false ∧ length (accounts w) = 3%nat ∧ Forall account_ok (accounts w) ∧
  ∀ u, (∃ a, a ∈ accounts w ∧ cashAddress a = u_address u) → ∃ p d, signer w u p d ∧
    ca_decode (u_address u) = Ok ("ecash"%string, "P2PKH"%string, Crypto.hash160 (public_of p d)).
Proof.
  cbn [getWalletDetails]. destruct (deriveAccounts fuel m) as [[[a b] c]| |] eqn:E; [|done|done]. cbn [mbind promise_bind]. intros [= <-].
  assert (F : Forall account_ok [a; b; c]).
  { unfold deriveAccounts in E. destruct (b39_mnemonicToSeed m EmptyString) as [seed| |]; [|done|done]. cbn [mbind promise_bind] in E.
    destruct (_ ≫= _) as [x|] eqn:Ex in E; [|done]. injection E as ->. apply bind_ok in Ex as (master & Em & Ex). apply seed_node in Em.
    apply bind_ok in Ex as (a' & Ea & Ex). apply bind_ok in Ex as (b' & Eb & Ex). apply bind_ok in Ex as (c' & Ec & Ex). injection Ex as -> -> ->.
    repeat (apply Forall_cons; split); [by eapply derived_account..|constructor]. }
  split; [done|]. split.
  { unfold isLegacyMigrationRequired. cbn [Path1899 Path145 Path245]. inversion_clear F as [|?? Ha F1]. inversion_clear F1 as [|?? Hb F2]. inversion_clear F2 as [|?? Hc _].
    destruct (account_present _ Ha) as [-> ->], (account_present _ Hb) as [-> ->], (account_present _ Hc) as [-> ->]. done. }
  split; [done|]. split; [done|]. intros u Hu. apply (wif_of_last u _ c) in Hu as (x & Hx & Ex & Ew); [|done].
  rewrite Forall_forall in F. destruct (F x Hx) as (p & d & H1 & H2 & _ & H4 & _). exists p, d. rewrite <- Ex. split; [|done]. by exists (fundingWif x).
Qed.

End S.

(** ** Examples *)

Section Examples.
Import Concrete ConcreteText ConcreteCurve ConcreteBn ConcreteWallet.
Local Existing Instance zero_mem.

Lemma mnemonic_wallet_signs_witness : ∃ w, getWalletDetails 20 (Some ("b"%string, None)) = Resolved (Some w) ∧ isLegacyMigrationRequired w = false.
Proof.
  destruct (getWalletDetails 20 (Some ("b"%string, None))) as [[w|]| |] eqn:E; try (vm_compute in E; discriminate E).
  exists w. split; [reflexivity|]. exact (proj1 (proj2 (mnemonic_wallet_signs 20 "b" None w E))).
Defined.

End Examples.
End AccountsLaws.
