(* ===== verification/SavedWallets.v ===== *)
(** * The stored wallets

    The functions of [cashtab/src/hooks/useWallet.js] that read and write the active
    wallet and the list of saved wallets: start, creation, import, activation, new
    names and deletion.  A call of the database that fails is handled as the code
    does, and each function runs to its end before the next one starts. *)

From stdpp Require Import base tactics list gmap numbers strings.
From S2P Require Import Prelude JsNumber JsFloat NodeBuffer Externals Encodings Crypto Curve Asm ECPair TransactionBuilder HDNode JsString.
From S2P Require Import BigNumber OpReturn WalletExternals WalletAddress Wallet Amounts TxBuilder CashMethods Send App Accounts.
Import TxBuilder CashMethods Send Accounts.
Open Scope Z_scope.

Module SavedWallets.

(** [for (let i = 0; i < l.length; i += 1) if (p(l[i])) l.splice(i, 1)]: the element after
    one that is removed is passed over. *)
Fixpoint splice_matching {A} (p : A → bool) (l : list A) : list A :=
  match l with
  | [] => []
  | x :: l => if p x then match l with [] => [] | y :: l => y :: splice_matching p l end else x :: splice_matching p l
  end.

Definition same_name (a b : wallet) : bool := String.eqb (w_name a) (w_name b).
Definition with_name (name : string) (w : wallet) : wallet :=
  mkWallet (w_mnemonic w) name (Path245 w) (Path145 w) (Path1899 w) (w_state w).
Definition with_state (state : option walletState) (w : wallet) : wallet :=
  mkWallet (w_mnemonic w) (w_name w) (Path245 w) (Path145 w) (Path1899 w) state.

(** [localforage.getItem('savedWallets')] whose failure gives [false] at once. *)
Definition load_saved {A} (on_error : app A) (m : option (list wallet) → app A) : app A :=
  r ← try_catch (Some <$> getItem db_savedWallets) (λ _, mret None);
  match r with Some savedWallets => m savedWallets | None => on_error end.

(** Reading the length of a list that is [null] or [undefined] throws. *)
Definition not_missing {A} (x : option A) : app A :=
  match x with Some x => mret x | None => throw (TypeError "Cannot read properties of null or undefined") end.

Section S.
Context {Mem : UninitMem} `{TF : !Typeforce} `{BI : !Bigi} `{EC : !Ecurve} `{HM : !CreateHmac} `{CH : !CreateHash}
  `{B58 : !Bs58check} `{WF : !Wif} `{CA : !Cashaddr} `{BN : !BigNumber} `{BS58 : !Bs58} `{B39 : !Bip39}.

(** ** The active wallet *)

Definition getActiveWalletFromLocalForage : app (option wallet) :=
  try_catch (getItem db_wallet) (λ _, mret None).

Definition set_active (w : option wallet) : app unit := setItem (put_wallet w).

Definition details_of (w : option wallet) : option (string * option string) := w ← w; Some (w_mnemonic w, Some (w_name w)).

(** The body of the [try] of [getWallet], after the database was read: it may return the
    wallet, or go on with [existingWallet], whose value at the time of an exception is
    kept. *)
Definition look_from (fuel : nat) (existingWallet : option wallet) : app (option wallet * option (option wallet)) :=
  match existingWallet with
  | Some w =>
      if isLegacyMigrationRequired w then
        try_catch (w ← migrateLegacyWallet fuel w; mret (Some w, None)) (λ _, mret (Some w, None))
      else mret (Some w, None)
  | None =>
      local ← gets (λ s, db_localWallet (w_db s));
      match local with
      | Throw _ => mret (None, None)
      | Ok None => mret (None, None)
      | Ok (Some w) =>
          try_catch (wallet ← await (getWalletDetails fuel (details_of (Some w)));
                     set_active wallet;;
                     mret (Some w, Some wallet))
                    (λ _, mret (Some w, None))
      end
  end.

(** What follows the [try]. *)
Definition look_done (fuel : nat) (existingWallet : option wallet) (found : option (option wallet)) : app (option wallet) :=
  match found with
  | Some wallet => mret wallet
  | None =>
      match existingWallet with
      | None =>
          wallet ← await (getWalletDetails fuel (details_of None));
          set_active wallet;;
          mret wallet
      | Some w => mret (Some w)
      end
  end.

Definition getWallet (fuel : nat) : app (option wallet) :=
  existingWallet ← getActiveWalletFromLocalForage;
  '(existingWallet, found) ← look_from fuel existingWallet;
  look_done fuel existingWallet found.

Definition loadWalletFromStorageOnStartup (fuel : nat) : app unit :=
  wallet ← getWallet fuel;
  match wallet with
  | Some w =>
      if isValidStoredWallet w then
        liveWalletState ← await (settle (loadStoredWallet (w_state w)));
        setWallet (Some (with_state (Some liveWalletState) w));;
        setLoading false
      else setWallet (Some w)
  | None => setWallet None
  end.

Definition handleUpdateWallet (fuel : nat) : app unit := loadWalletFromStorageOnStartup fuel.

Definition writeWalletState (w : wallet) (newState : walletState) : app unit :=
  try_catch (set_active (Some (with_state (Some newState) w))) (λ _, mret tt).

(** ** The list *)

Definition getSavedWallets (activeWallet : option wallet) : app (list wallet) :=
  setLoading true;;
  savedWallets ← try_catch (default [] <$> getItem db_savedWallets) (λ _, mret []);
  let matches w := match activeWallet with
                   | Some a => negb (OpReturn.is_empty (w_name a)) && same_name w a
                   | None => false
                   end in
  let savedWallets := splice_matching matches savedWallets in
  setLoading false;;
  mret savedWallets.

(** The wallet that [activateWallet] returns, or [None] for [false]: it becomes the one in
    the database. *)
Definition activate_new (fuel : nat) (walletToActivate : wallet) : app (option wallet) :=
  activated ←
    (if isLegacyMigrationRequired walletToActivate then Some <$> migrateLegacyWallet fuel walletToActivate
     else try_catch (set_active (Some walletToActivate);; mret (Some walletToActivate)) (λ _, mret None));
  match activated with
  | None => mret None
  | Some walletToActivate =>
      liveWalletState ← await (settle (loadStoredWallet (w_state walletToActivate)));
      mret (Some (with_state (Some liveWalletState) walletToActivate))
  end.

Definition activateWallet (fuel : nat) (currentlyActiveWallet walletToActivate : wallet) : app (option wallet) :=
  setHasUpdated false;;
  load_saved (mret None) (λ savedWallets,
    savedWallets ← not_missing savedWallets;
    let walletInSavedWallets := existsb (λ w, same_name w currentlyActiveWallet) savedWallets in
    let savedWallets := map (λ w, if same_name w currentlyActiveWallet then currentlyActiveWallet else w) savedWallets in
    try_catch (setItem (put_savedWallets savedWallets)) (λ _, mret tt);;
    (if walletInSavedWallets then mret tt
     else try_catch (setItem (put_savedWallets (savedWallets ++ [currentlyActiveWallet]))) (λ _, mret tt));;
    activate_new fuel walletToActivate).

Definition rename (oldName newName : string) (savedWallets : list wallet) : list wallet :=
  map (λ w, if String.eqb (w_name w) oldName then with_name newName w else w) savedWallets.

Definition renameSavedWallet (oldName newName : string) : app bool :=
  setLoading true;;
  load_saved (setLoading false;; mret false) (λ savedWallets,
    savedWallets ← not_missing savedWallets;
    if existsb (λ w, String.eqb (w_name w) newName) savedWallets then setLoading false;; mret false
    else
      saved ← try_catch (setItem (put_savedWallets (rename oldName newName savedWallets));; mret true) (λ _, mret false);
      setLoading false;;
      mret saved).

(** [activeWallet] is the object of the state, which has the new name as soon as it is
    assigned. *)
Definition renameActiveWallet (activeWallet : wallet) (oldName newName : string) : app bool :=
  setLoading true;;
  load_saved (setLoading false;; mret false) (λ savedWallets,
    savedWallets ← not_missing savedWallets;
    if existsb (λ w, String.eqb (w_name w) newName) savedWallets then setLoading false;; mret false
    else
      saved ← try_catch (setItem (put_savedWallets (rename oldName newName savedWallets));; mret true) (λ _, mret false);
      if (saved : bool) then
        let activeWallet := with_name newName activeWallet in
        setWallet (Some activeWallet);;
        saved ← try_catch (set_active (Some activeWallet);; mret true) (λ _, mret false);
        if (saved : bool) then setWallet (Some activeWallet);; setLoading false;; mret true
        else setLoading false;; mret false
      else setLoading false;; mret false).

Definition deleteWallet (walletToBeDeleted : wallet) : app bool :=
  setLoading true;;
  load_saved (setLoading false;; mret false) (λ savedWallets,
    savedWallets ← not_missing savedWallets;
    let matches w := same_name w walletToBeDeleted && String.eqb (w_mnemonic w) (w_mnemonic walletToBeDeleted) in
    let walletFoundAndRemoved := existsb matches savedWallets in
    if negb walletFoundAndRemoved then setLoading false;; mret false
    else
      saved ← try_catch (setItem (put_savedWallets (splice_matching matches savedWallets));; mret true) (λ _, mret false);
      setLoading false;;
      mret saved).

(** [generated] is what [bip39.generateMnemonic] draws.  A read that fails leaves
    [savedWallets] undefined. *)
Definition addNewSavedWallet (fuel : nat) (generated : string) (importMnemonic : option string) : app bool :=
  setLoading true;;
  let mnemonic := if absent importMnemonic then generated else default EmptyString importMnemonic in
  newSavedWallet ← await (getWalletDetails fuel (Some (mnemonic, None)));
  savedWallets ← try_catch (x ← getItem db_savedWallets; mret (Some (default [] x))) (λ _, mret None);
  savedWallets ← not_missing savedWallets;
  if negb (absent importMnemonic) && existsb (λ w, String.eqb (w_mnemonic w) mnemonic) savedWallets then setLoading false;; mret false
  else
    try_catch (setItem (put_savedWallets (savedWallets ++ option_list newSavedWallet))) (λ _, mret tt);;
    setLoading false;;
    mret true.

(** The function in the body of the hook; the one it returns calls it. *)
Definition createWallet (fuel : nat) (generated : string) (importMnemonic : option string) : app (option wallet) :=
  let mnemonic := if absent importMnemonic then generated else default EmptyString importMnemonic in
  wallet ← await (getWalletDetails fuel (Some (mnemonic, None)));
  try_catch (set_active wallet) (λ _, mret tt);;
  try_catch (setItem (put_savedWallets (option_list wallet))) (λ _, mret tt);;
  mret wallet.

End S.
End SavedWallets.
