(* ===== verification/SavedWalletsLaws.v ===== *)
(** * No wallet is lost

    What the functions on stored wallets do to the saved list and to the active wallet,
    whichever calls of the database fail. *)

From stdpp Require Import base tactics list gmap numbers strings.
From S2P Require Import Prelude JsNumber JsFloat NodeBuffer Externals Encodings Crypto Curve Asm ECPair TransactionBuilder HDNode JsString.
From S2P Require Import BigNumber OpReturn WalletExternals WalletAddress Wallet Amounts TxBuilder CashMethods Send Validation App Accounts SavedWallets.
Import TxBuilder CashMethods Send Validation Accounts SavedWallets.
Open Scope Z_scope.

Module SavedWalletsLaws.

(** The wallets of the list. *)
Definition saved (s : world) : list wallet := default [] (db_savedWallets (w_db s)).

(** ** Lists *)

(** Induction for functions that look at two elements at a time. *)
Lemma list_ind2 {A} (P : list A → Prop) : P [] → (∀ x, P [x]) → (∀ x y l, P l → P (y :: l) → P (x :: y :: l)) → ∀ l, P l.
Proof.
  intros H0 H1 H2 l. assert (P l ∧ ∀ x, P (x :: l)) as [? _]; [|done]. induction l as [|y l [IH1 IH2]]; [by split|].
  split; [done|]. intros x. by apply H2.
Qed.

Lemma splice_sublist {A} (p : A → bool) l : splice_matching p l `sublist_of` l.
Proof.
  induction l as [|x|x y l IH1 IH2] using list_ind2; cbn [splice_matching]; [done|destruct (p x); by repeat constructor|].
  destruct (p x); [by do 2 constructor|by constructor].
Qed.

Lemma splice_keeps {A} (p : A → bool) l x : x ∈ l → p x = false → x ∈ splice_matching p l.
Proof.
  intros Hx Hp. revert Hx. induction l as [|a|a y l IH1 IH2] using list_ind2; intros Hx; cbn [splice_matching].
  - by apply not_elem_of_nil in Hx.
  - apply list_elem_of_singleton in Hx as <-. rewrite Hp. by left.
  - apply elem_of_cons in Hx as [<-|Hx]; [rewrite Hp; by left|]. destruct (p a); [|right; by apply IH2].
    apply elem_of_cons in Hx as [<-|Hx]; [by left|right; by apply IH1].
Qed.

(** Without two matches in a row nothing that matches stays. *)
Lemma splice_once {A} (p : A → bool) l : (∀ i x y, l !! i = Some x → l !! S i = Some y → p x = true → p y = false) →
  splice_matching p l = List.filter (λ x, negb (p x)) l.
Proof.
  induction l as [|a|a y l IH1 IH2] using list_ind2; intros H; cbn [splice_matching List.filter]; [done|by destruct (p a)|].
  destruct (p a) eqn:E; cbn [negb].
  - rewrite (H 0%nat a y) by done. cbn [negb]. f_equal. apply IH1. intros i. apply (H (S (S i))).
  - f_equal. apply IH2. intros i. apply (H (S i)).
Qed.

Definition replace (cur : wallet) (l : list wallet) : list wallet := map (λ w, if same_name w cur then cur else w) l.

Lemma replace_names cur l : map w_name (replace cur l) = map w_name l.
Proof.
  unfold replace. rewrite map_map. apply map_ext. intros w. unfold same_name. destruct (String.eqb_spec (w_name w) (w_name cur)); congruence.
Qed.

Lemma replace_seeds cur l : (∀ w, w ∈ l → w_name w = w_name cur → w_mnemonic w = w_mnemonic cur) →
  map w_mnemonic (replace cur l) = map w_mnemonic l.
Proof.
  intros H. unfold replace. rewrite map_map. apply map_ext_in. intros w Hw. unfold same_name.
  destruct (String.eqb_spec (w_name w) (w_name cur)); [|done]. symmetry. apply H; [by apply list_elem_of_In|done].
Qed.

Lemma rename_seeds o n l : map w_mnemonic (rename o n l) = map w_mnemonic l.
Proof. unfold rename. rewrite map_map. apply map_ext. intros w. by destruct (String.eqb _ _). Qed.

Lemma rename_names o n l : map w_name (rename o n l) = map (λ x, if String.eqb x o then n else x) (map w_name l).
Proof. unfold rename. rewrite !map_map. apply map_ext. intros w. by destruct (String.eqb _ _). Qed.

(** A new name that is not taken leaves the names distinct. *)
Lemma rename_distinct o n l : NoDup (map w_name l) → existsb (λ w, String.eqb (w_name w) n) l = false → NoDup (map w_name (rename o n l)).
Proof.
  intros Hd Hn. rewrite rename_names. apply NoDup_ListNoDup. apply NoDup_ListNoDup in Hd.
  assert (Hf : ∀ x, In x (map w_name l) → x ≠ n).
  { intros x (w & <- & Hw)%in_map_iff E. apply not_true_iff_false in Hn. apply Hn, existsb_exists. exists w. split; [done|by apply String.eqb_eq]. }
  induction (map w_name l) as [|x xs IH]; cbn [map]; [constructor|]. inversion_clear Hd as [|?? Hx Hxs]. constructor.
  - intros (y & Ey & Hy)%in_map_iff. assert (y ≠ x) by (intros ->; done). assert (y ≠ n) by (apply Hf; by right). assert (x ≠ n) by (apply Hf; by left).
    destruct (String.eqb_spec y o), (String.eqb_spec x o); congruence.
  - apply IH; [done|]. intros z Hz. apply Hf. by right.
Qed.

(** ** The operations *)

Section S.
Context {Mem : UninitMem} `{TF : !Typeforce} `{BI : !Bigi} `{EC : !Ecurve} `{HM : !CreateHmac} `{CH : !CreateHash}
  `{B58 : !Bs58check} `{WF : !Wif} `{CA : !Cashaddr} `{BN : !BigNumber} `{BS58 : !Bs58} `{B39 : !Bip39}.
Implicit Type (s : world) (w : wallet).

Definition list_of (s : world) : option (list wallet) := db_savedWallets (w_db s).

Lemma migrate_list fuel w s : wp (migrateLegacyWallet fuel w) (λ _ s', list_of s' = list_of s) s.
Proof.
  unfold migrateLegacyWallet. autorewrite with wp. destruct (deriveAccounts fuel (w_mnemonic w)) as [[[a b] c]| |]; [|done|done].
  wp_cases; done.
Qed.

Lemma activate_new_list fuel w s : wp (activate_new fuel w) (λ _ s', list_of s' = list_of s) s.
Proof.
  unfold activate_new, set_active. autorewrite with wp. destruct (isLegacyMigrationRequired w).
  - autorewrite with wp. eapply wp_mono; [apply migrate_list|]. intros [w'| |] s' E; [|done|done]. autorewrite with wp.
    by destruct (loadStoredWallet _).
  - wp_cases; [|done]. by destruct (loadStoredWallet _).
Qed.

(** What activation leaves in the list when the list was [l]. *)
Definition activated (cur : wallet) (l : list wallet) : list wallet :=
  replace cur l ++ (if existsb (λ w, same_name w cur) l then [] else [cur]).

Lemma activate_list fuel cur new s : wp (activateWallet fuel cur new)
  (λ _ s', list_of s' = list_of s ∨ ∃ l, list_of s = Some l ∧ (list_of s' = Some (replace cur l) ∨ list_of s' = Some (activated cur l))) s.
Proof.
  unfold activateWallet, load_saved. wp_cases; [|by left].
  destruct (db_savedWallets _) as [l|] eqn:El; cbn [not_missing]; [|by left]. change (list_of s = Some l) in El.
  fold (replace cur l). unfold activated. wp_cases; destruct (existsb _ l) eqn:Ex; wp_cases; (eapply wp_mono; [apply activate_new_list|]); intros _ s' ->;
    first [by left|right; exists l; rewrite Ex, ?app_nil_r; split; [done|]; first [by left|by right]].
Qed.

Lemma list_after_load {A} on_error (m : option (list wallet) → app A) Q s :
  wp on_error Q (tick s) → wp (m (list_of s)) Q (tick s) → wp (load_saved on_error m) Q s.
Proof. intros H1 H2. unfold load_saved. by wp_cases. Qed.

(** New names are given only when they are not taken. *)
Definition renamed (o n : string) (l l' : option (list wallet)) : Prop :=
  l' = l ∨ ∃ x, l = Some x ∧ existsb (λ w, String.eqb (w_name w) n) x = false ∧ l' = Some (rename o n x).

Lemma rename_saved_list o n s : wp (renameSavedWallet o n) (λ _ s', renamed o n (list_of s) (list_of s')) s.
Proof.
  unfold renameSavedWallet. wp_cases. apply list_after_load; [by wp_cases; left|]. change (list_of (hooked _ s)) with (list_of s).
  destruct (list_of s) as [l|] eqn:El; cbn [not_missing]; [|by left]. autorewrite with wp. destruct (existsb _ l) eqn:Ex; wp_cases; try by left.
  right. by exists l.
Qed.

Lemma rename_active_list w o n s : wp (renameActiveWallet w o n) (λ _ s', renamed o n (list_of s) (list_of s')) s.
Proof.
  unfold renameActiveWallet, set_active. wp_cases. apply list_after_load; [by wp_cases; left|]. change (list_of (hooked _ s)) with (list_of s).
  destruct (list_of s) as [l|] eqn:El; cbn [not_missing]; [|by left]. autorewrite with wp.
  destruct (existsb _ l) eqn:Ex; wp_cases; try (by left); right; by exists l.
Qed.

Definition is_wallet (d w : wallet) : bool := same_name w d && String.eqb (w_mnemonic w) (w_mnemonic d).

Lemma delete_list d s : wp (deleteWallet d)
  (λ _ s', list_of s' = list_of s ∨ ∃ l, list_of s = Some l ∧ list_of s' = Some (splice_matching (is_wallet d) l)) s.
Proof.
  unfold deleteWallet. wp_cases. apply list_after_load; [by wp_cases; left|]. change (list_of (hooked _ s)) with (list_of s).
  destruct (list_of s) as [l|] eqn:El; cbn [not_missing]; [|by left]. autorewrite with wp. fold (is_wallet d).
  destruct (existsb _ l) eqn:Ex; cbn [negb]; wp_cases; try by left. right. by exists l.
Qed.

(** The mnemonic of a new wallet, and the wallet. *)
Definition new_mnemonic (generated : string) (import : option string) : string :=
  if absent import then generated else default EmptyString import.
Definition new_wallet (fuel : nat) (generated : string) (import : option string) : promise (option wallet) :=
  getWalletDetails fuel (Some (new_mnemonic generated import, None)).

Lemma add_list fuel generated import s : wp (addNewSavedWallet fuel generated import)
  (λ _ s', list_of s' = list_of s ∨ ∃ w, new_wallet fuel generated import = Resolved (Some w) ∧ list_of s' = Some (saved s ++ [w])) s.
Proof.
  unfold addNewSavedWallet. wp_cases. fold (new_mnemonic generated import). fold (new_wallet fuel generated import).
  destruct (new_wallet fuel generated import) as [[w|]| |] eqn:Ew; cbn [option_list]; wp_cases; try (by left);
    cbn [not_missing]; autorewrite with wp; (destruct (_ && _); wp_cases); try (by left).
  - right. by exists w.
  - unfold new_wallet, getWalletDetails in Ew. by destruct (deriveAccounts _ _) as [[[??]?]| |].
Qed.

Lemma look_from_list fuel o s : wp (look_from fuel o) (λ _ s', list_of s' = list_of s) s.
Proof.
  unfold look_from, set_active. destruct o as [w|].
  - destruct (isLegacyMigrationRequired w); autorewrite with wp; [|done]. eapply wp_mono; [apply migrate_list|].
    intros [w'| |] s' E'; autorewrite with wp; congruence.
  - autorewrite with wp. destruct (db_localWallet (w_db s)) as [[w|]|]; autorewrite with wp; [|done|done].
    destruct (getWalletDetails _ _) as [x| |]; wp_cases; done.
Qed.

Lemma look_done_list fuel e f s : wp (look_done fuel e f) (λ _ s', list_of s' = list_of s) s.
Proof.
  unfold look_done, set_active. destruct f; [by autorewrite with wp|]. destruct e; autorewrite with wp; [done|].
  cbn [details_of getWalletDetails option_bind mbind]. by wp_cases.
Qed.

(** A computation that leaves the list as it was, and one after another. *)
Definition keeps_list {A} (m : app A) : Prop := ∀ s, wp m (λ _ s', list_of s' = list_of s) s.

Lemma keeps_bind {A B} (m : app A) (f : A → app B) : keeps_list m → (∀ a, keeps_list (f a)) → keeps_list (m ≫= f).
Proof.
  intros Hm Hf s. apply wp_bind. eapply wp_mono; [apply Hm|]. intros [a| |] s' E; [|done|done]. rewrite <- E. apply Hf.
Qed.

Lemma get_wallet_list fuel : keeps_list (getWallet fuel).
Proof.
  apply keeps_bind; [intros s; unfold getActiveWalletFromLocalForage; by wp_cases|]. intros e.
  apply keeps_bind; [intros s; apply look_from_list|]. intros [e' f] s. apply look_done_list.
Qed.

(** ** What the user can do *)

Inductive op :=
| Start
| Activate (cur new : wallet)
| RenameSaved (o n : string)
| RenameActive (w : wallet) (o n : string)
| Delete (w : wallet)
| AddNew (generated : string) (import : option string).

Definition run (fuel : nat) (o : op) : app unit :=
  (match o with
   | Start => getWallet fuel;; mret tt
   | Activate cur new => activateWallet fuel cur new;; mret tt
   | RenameSaved o n => renameSavedWallet o n;; mret tt
   | RenameActive w o n => renameActiveWallet w o n;; mret tt
   | Delete w => deleteWallet w;; mret tt
   | AddNew generated import => addNewSavedWallet fuel generated import;; mret tt
   end).

(** The list after an operation, as a relation to the list before. *)
Inductive list_step (fuel : nat) : op → option (list wallet) → option (list wallet) → Prop :=
| StepNone o l : list_step fuel o l l
| StepReplace cur new l : list_step fuel (Activate cur new) (Some l) (Some (replace cur l))
| StepActivate cur new l : list_step fuel (Activate cur new) (Some l) (Some (activated cur l))
| StepRenameSaved o n l : existsb (λ w, String.eqb (w_name w) n) l = false →
    list_step fuel (RenameSaved o n) (Some l) (Some (rename o n l))
| StepRenameActive w o n l : existsb (λ w, String.eqb (w_name w) n) l = false →
    list_step fuel (RenameActive w o n) (Some l) (Some (rename o n l))
| StepDelete d l : list_step fuel (Delete d) (Some l) (Some (splice_matching (is_wallet d) l))
| StepAdd generated import l w : new_wallet fuel generated import = Resolved (Some w) →
    list_step fuel (AddNew generated import) l (Some (default [] l ++ [w])).

Lemma run_then {A} (m : app A) (P : world → Prop) s : wp m (λ _ s', P s') s → wp (m;; mret tt) (λ _ s', P s') s.
Proof. intros H. apply wp_bind. eapply wp_mono; [exact H|]. by intros [a| |] s' H'. Qed.

Lemma run_step fuel o s : wp (run fuel o) (λ _ s', list_step fuel o (list_of s) (list_of s')) s.
Proof.
  destruct o; apply run_then.
  - eapply wp_mono; [apply get_wallet_list|]. intros _ s' ->. constructor.
  - eapply wp_mono; [apply activate_list|]. intros _ s' [->|(l & -> & [->| ->])]; constructor.
  - eapply wp_mono; [apply rename_saved_list|]. intros _ s' [->|(l & -> & E & ->)]; by constructor.
  - eapply wp_mono; [apply rename_active_list|]. intros _ s' [->|(l & -> & E & ->)]; by constructor.
  - eapply wp_mono; [apply delete_list|]. intros _ s' [->|(l & -> & ->)]; constructor.
  - eapply wp_mono; [apply add_list|]. intros _ s' [->|(w & E & ->)]; by constructor.
Qed.

(** The wallet being left, if it is in the list, has the mnemonic it has there; the
    name of a new wallet is not taken. *)
Definition consistent (fuel : nat) (o : op) (l : list wallet) : Prop :=
  match o with
  | Activate cur _ => ∀ w, w ∈ l → w_name w = w_name cur → w_mnemonic w = w_mnemonic cur
  | AddNew generated import => ∀ w, new_wallet fuel generated import = Resolved (Some w) → w_name w ∉ map w_name l
  | _ => True
  end.

Definition deletes (o : op) (w : wallet) : bool := match o with Delete d => is_wallet d w | _ => false end.

Lemma activated_names cur l : NoDup (map w_name l) → NoDup (map w_name (activated cur l)).
Proof.
  intros H. unfold activated. rewrite map_app, replace_names. destruct (existsb _ l) eqn:E; cbn [map]; [by rewrite app_nil_r|].
  apply NoDup_app. split_and!; [done| |by apply NoDup_singleton]. intros x Hx Hc. apply list_elem_of_singleton in Hc as ->.
  apply list_elem_of_In, in_map_iff in Hx as (w & Hw & Hi). apply not_true_iff_false in E. apply E, existsb_exists. exists w.
  split; [done|]. by apply String.eqb_eq.
Qed.

Lemma list_step_names fuel o l l' : list_step fuel o l l' → consistent fuel o (default [] l) → NoDup (map w_name (default [] l)) →
  NoDup (map w_name (default [] l')).
Proof.
  intros H. destruct H as [| | |????|????|d l|???? Ew]; cbn [default from_option id consistent]; intros Hc Hd; try done.
  - by rewrite replace_names.
  - by apply activated_names.
  - by apply rename_distinct.
  - by apply rename_distinct.
  - eapply sublist_NoDup; [exact Hd|]. apply (fmap_sublist w_name), splice_sublist.
  - rewrite map_app. apply NoDup_app. split_and!; [done| |by apply NoDup_singleton].
    intros x Hx Hn. apply list_elem_of_singleton in Hn as ->. by eapply Hc.
Qed.

Lemma list_step_seeds fuel o l l' w : list_step fuel o l l' → consistent fuel o (default [] l) → w ∈ default [] l → deletes o w = false →
  w_mnemonic w ∈ map w_mnemonic (default [] l').
Proof.
  intros H Hc Hw Hd. assert (Hm : ∀ x, x ∈ default [] l → w_mnemonic x ∈ map w_mnemonic (default [] l)).
  { intros x Hx. by apply (list_elem_of_fmap_2 w_mnemonic). }
  destruct H; cbn [default from_option id deletes consistent] in *.
  - by apply Hm.
  - rewrite replace_seeds by done. by apply Hm.
  - unfold activated. rewrite map_app, replace_seeds by done. apply elem_of_app. left. by apply Hm.
  - rewrite rename_seeds. by apply Hm.
  - rewrite rename_seeds. by apply Hm.
  - apply (list_elem_of_fmap_2 w_mnemonic). by apply splice_keeps.
  - rewrite map_app. apply elem_of_app. left. by apply Hm.
Qed.


(** ** Runs of the wallet *)

Definition active_of (s : world) : option wallet := db_wallet (w_db s).
Definition local_of (s : world) : result (option wallet) := db_localWallet (w_db s).

(** The same wallet, whatever else is stored with it. *)
Definition same (a b : wallet) : Prop := w_name a = w_name b ∧ w_mnemonic a = w_mnemonic b.
Definition same_opt (a b : option wallet) : Prop := option_Forall2 same a b.

Lemma same_opt_refl a : same_opt a a.
Proof. destruct a; by repeat constructor. Qed.

Definition store : Type := option (list wallet) * option wallet.
Definition store_of (s : world) : store := (list_of s, active_of s).

(** The stored wallets after an operation when the database does not fail. *)
Inductive store_step (fuel : nat) : op → store → store → Prop :=
| StoreSame o l a a' : same_opt a a' → store_step fuel o (l, a) (l, a')
| StoreActivate cur new l a a' : (a' = a ∨ ∃ n, a' = Some n ∧ same n new) →
    store_step fuel (Activate cur new) (Some l, a) (Some (activated cur l), a')
| StoreRenameSaved o n l a : existsb (λ w, String.eqb (w_name w) n) l = false →
    store_step fuel (RenameSaved o n) (Some l, a) (Some (rename o n l), a)
| StoreRenameActive w o n l a : existsb (λ w, String.eqb (w_name w) n) l = false →
    store_step fuel (RenameActive w o n) (Some l, a) (Some (rename o n l), Some (with_name n w))
| StoreDelete d l a : store_step fuel (Delete d) (Some l, a) (Some (splice_matching (is_wallet d) l), a)
| StoreAdd generated import l a w : new_wallet fuel generated import = Resolved (Some w) →
    store_step fuel (AddNew generated import) (l, a) (Some (default [] l ++ [w]), a).

Definition clean (s : world) : Prop := sound s ∧ local_of s = Ok None.

Lemma migrate_active fuel w s : clean s → wp (migrateLegacyWallet fuel w) (λ p s', clean s' ∧ list_of s' = list_of s ∧
  match p with Resolved w' => same w' w ∧ active_of s' = Some w' | _ => active_of s' = active_of s end) s.
Proof.
  intros [Hs Hl]. unfold migrateLegacyWallet. autorewrite with wp. destruct (deriveAccounts fuel (w_mnemonic w)) as [[[a b] c]| |]; [|done|done].
  wp_sound. repeat split; auto with wp.
Qed.

Lemma activate_new_active fuel w s : clean s → wp (activate_new fuel w) (λ _ s', clean s' ∧ list_of s' = list_of s ∧
  (active_of s' = active_of s ∨ ∃ n, active_of s' = Some n ∧ same n w)) s.
Proof.
  intros Hc. pose proof Hc as [Hs Hl]. unfold activate_new, set_active. autorewrite with wp. destruct (isLegacyMigrationRequired w).
  - autorewrite with wp. eapply wp_mono; [by apply migrate_active|]. intros [w'| |] s' (H1 & H2 & H3); [|by auto|by auto]. autorewrite with wp.
    destruct H3 as [H3 H4]. destruct (loadStoredWallet _); repeat split; try apply H1; eauto.
  - wp_sound. destruct (loadStoredWallet _); cbn [settle]; autorewrite with wp; (split; [split; [eauto 10 with wp|done]|]; split; [done|]; right; by exists w).
Qed.

Lemma activate_store fuel cur new s : clean s →
  wp (activateWallet fuel cur new) (λ _ s', clean s' ∧ store_step fuel (Activate cur new) (store_of s) (store_of s')) s.
Proof.
  intros [Hs Hl]. unfold activateWallet, load_saved. wp_sound.
  destruct (db_savedWallets _) as [l|] eqn:El; cbn [not_missing]; autorewrite with wp;
    [|split; [split; [eauto 10 with wp|done]|constructor; apply same_opt_refl]].
  change (list_of s = Some l) in El. fold (replace cur l). unfold store_of at 1. rewrite El. wp_sound.
  destruct (existsb _ l) eqn:Ex; wp_sound;
    (eapply wp_mono; [apply activate_new_active; split; [eauto 10 with wp|done]|]; intros p s' (H1 & H2 & H3); split; [done|]; unfold store_of; rewrite H2);
    pose proof (StoreActivate fuel cur new l (active_of s) (active_of s') H3) as H; unfold activated in H; rewrite Ex in H; [by rewrite app_nil_r in H|done].
Qed.

(** On a database that does not fail, the list is always written. *)
Lemma activate_list_sound fuel cur new s l : clean s → list_of s = Some l →
  wp (activateWallet fuel cur new) (λ _ s', list_of s' = Some (activated cur l)) s.
Proof.
  intros [Hs Hl] El. unfold activateWallet, load_saved. wp_sound. change (db_savedWallets _) with (list_of s). rewrite El. cbn [not_missing]. wp_sound.
  unfold activated. destruct (existsb _ l) eqn:Ex; wp_sound; (eapply wp_mono; [apply activate_new_list|]); intros p s' ->; [by rewrite app_nil_r|done].
Qed.

Lemma load_sound {A} on_error (m : option (list wallet) → app A) Q s : sound s → wp (m (list_of s)) Q (tick s) → wp (load_saved on_error m) Q s.
Proof. intros Hs H. unfold load_saved. by wp_sound. Qed.

(** Nothing stored changes. *)
Ltac unchanged := split; [split; [eauto 20 with wp|done]|apply StoreSame, same_opt_refl].

Lemma rename_saved_store fuel o n s : clean s →
  wp (renameSavedWallet o n) (λ _ s', clean s' ∧ store_step fuel (RenameSaved o n) (store_of s) (store_of s')) s.
Proof.
  intros [Hs Hl]. unfold renameSavedWallet. wp_sound. apply load_sound; [by eauto with wp|]. change (list_of (hooked _ s)) with (list_of s).
  destruct (list_of s) as [l|] eqn:El; cbn [not_missing]; autorewrite with wp; [|unchanged]. unfold store_of at 1. rewrite El.
  destruct (existsb _ l) eqn:Ex; wp_sound; [unfold store_of; rewrite <- El; unchanged|]. split; [split; [eauto 20 with wp|done]|]. by apply StoreRenameSaved.
Qed.

Lemma rename_active_store fuel w o n s : clean s →
  wp (renameActiveWallet w o n) (λ _ s', clean s' ∧ store_step fuel (RenameActive w o n) (store_of s) (store_of s')) s.
Proof.
  intros [Hs Hl]. unfold renameActiveWallet, set_active. wp_sound. apply load_sound; [by eauto with wp|]. change (list_of (hooked _ s)) with (list_of s).
  destruct (list_of s) as [l|] eqn:El; cbn [not_missing]; autorewrite with wp; [|unchanged]. unfold store_of at 1. rewrite El.
  destruct (existsb _ l) eqn:Ex; wp_sound; [unfold store_of; rewrite <- El; unchanged|]. split; [split; [eauto 20 with wp|done]|]. by apply StoreRenameActive.
Qed.

Lemma delete_store fuel d s : clean s →
  wp (deleteWallet d) (λ _ s', clean s' ∧ store_step fuel (Delete d) (store_of s) (store_of s')) s.
Proof.
  intros [Hs Hl]. unfold deleteWallet. wp_sound. apply load_sound; [by eauto with wp|]. change (list_of (hooked _ s)) with (list_of s).
  destruct (list_of s) as [l|] eqn:El; cbn [not_missing]; autorewrite with wp; [|unchanged]. unfold store_of at 1. rewrite El. fold (is_wallet d).
  destruct (existsb _ l) eqn:Ex; cbn [negb]; wp_sound; [|unfold store_of; rewrite <- El; unchanged].
  split; [split; [eauto 20 with wp|done]|]. by apply StoreDelete.
Qed.

Lemma add_store fuel generated import s : clean s →
  wp (addNewSavedWallet fuel generated import) (λ _ s', clean s' ∧ store_step fuel (AddNew generated import) (store_of s) (store_of s')) s.
Proof.
  intros [Hs Hl]. unfold addNewSavedWallet. wp_sound. fold (new_mnemonic generated import). fold (new_wallet fuel generated import).
  destruct (new_wallet fuel generated import) as [[w|]| |] eqn:Ew; cbn [option_list]; [| |unchanged|unchanged].
  - wp_sound. cbn [not_missing]. autorewrite with wp. destruct (_ && _); wp_sound; [unchanged|].
    split; [split; [eauto 20 with wp|done]|]. by apply StoreAdd.
  - unfold new_wallet, getWalletDetails in Ew. by destruct (deriveAccounts _ _) as [[[??]?]| |].
Qed.

Lemma start_store fuel s : clean s →
  wp (getWallet fuel) (λ _ s', clean s' ∧ store_step fuel Start (store_of s) (store_of s')) s.
Proof.
  intros [Hs Hl]. unfold getWallet, getActiveWalletFromLocalForage. wp_sound. change (db_wallet (db_next (w_db s))) with (active_of s).
  assert (Hc : clean (tick s)) by (split; [eauto with wp|done]). unfold store_of at 1. destruct (active_of s) as [w|] eqn:Ea; cbn [look_from].
  - destruct (isLegacyMigrationRequired w); autorewrite with wp.
    + eapply wp_mono; [by apply migrate_active|]. intros [w'| |] s' (H1 & H2 & H3); autorewrite with wp; cbn [look_done]; autorewrite with wp.
      * split; [done|]. unfold store_of. rewrite H2. destruct H3 as [[E1 E2] ->]. apply StoreSame. by constructor.
      * split; [done|]. unfold store_of. rewrite H2, H3. change (active_of (tick s)) with (active_of s). rewrite Ea. apply StoreSame, same_opt_refl.
      * split; [done|]. unfold store_of. rewrite H2, H3. change (active_of (tick s)) with (active_of s). rewrite Ea. apply StoreSame, same_opt_refl.
    + cbn [look_done]. autorewrite with wp. split; [done|]. unfold store_of. change (active_of (tick s)) with (active_of s). rewrite Ea. apply StoreSame, same_opt_refl.
  - autorewrite with wp. change (db_localWallet (w_db (tick s))) with (local_of s). rewrite Hl. autorewrite with wp. cbn [look_done details_of getWalletDetails option_bind mbind].
    unfold set_active. wp_sound. split; [split; [eauto 20 with wp|done]|]. apply StoreSame. constructor.
Qed.

Lemma run_store fuel o s : clean s → wp (run fuel o) (λ _ s', clean s' ∧ store_step fuel o (store_of s) (store_of s')) s.
Proof.
  intros Hc. destruct o; apply (run_then _ (λ s', clean s' ∧ store_step fuel _ (store_of s) (store_of s'))).
  - by apply start_store.
  - by apply activate_store.
  - by apply rename_saved_store.
  - by apply rename_active_store.
  - by apply delete_store.
  - by apply add_store.
Qed.

(** ** The invariant *)

(** The names in the list are distinct, and the active wallet is one of the list. *)
Record inv (st : store) : Prop := {
  inv_names : NoDup (map w_name (default [] st.1));
  inv_active a : st.2 = Some a → ∃ w, w ∈ default [] st.1 ∧ same w a;
}.

(** What the pages of the wallet offer: to leave the active wallet for a saved one, to
    rename it or another, to delete another, to add one whose name is free. *)
Definition admissible (fuel : nat) (o : op) (st : store) : Prop :=
  let l := default [] st.1 in
  match o with
  | Start => True
  | Activate cur new => (∃ a, st.2 = Some a ∧ same cur a) ∧ ∃ w, w ∈ l ∧ same w new
  | RenameSaved o _ => ∀ a, st.2 = Some a → w_name a ≠ o
  | RenameActive w o _ => o = w_name w ∧ ∃ a, st.2 = Some a ∧ same w a
  | Delete d => ∀ a, st.2 = Some a → w_name a ≠ w_name d
  | AddNew generated import => ∀ w, new_wallet fuel generated import = Resolved (Some w) → w_name w ∉ map w_name l
  end.

Lemma names_determine (l : list wallet) w w' : NoDup (map w_name l) → w ∈ l → w' ∈ l → w_name w = w_name w' → w = w'.
Proof.
  intros Hd Hw Hw' E. apply list_elem_of_lookup in Hw as [i Hi]. apply list_elem_of_lookup in Hw' as [j Hj].
  assert (i = j) as ->; [|congruence]. eapply (NoDup_lookup (map w_name l) i j (w_name w) Hd).
  - by rewrite lookup_map, Hi.
  - rewrite lookup_map, Hj. cbn. by rewrite E.
Qed.

Lemma admissible_consistent fuel o st : inv st → admissible fuel o st → consistent fuel o (default [] st.1).
Proof.
  intros [Hn Ha] Hp. destruct o; try done. cbn in *. destruct Hp as ((a & Ea & En & Em) & _). intros w Hw E.
  destruct (Ha a Ea) as (w' & Hw' & En' & Em'). assert (w = w') as -> by (eapply names_determine; [done..|congruence]). congruence.
Qed.

Lemma replace_has cur l w : w ∈ l → (w_name w = w_name cur → w_mnemonic w = w_mnemonic cur) → ∃ w', w' ∈ activated cur l ∧ same w' w.
Proof.
  intros Hw Hc. exists (if same_name w cur then cur else w). split.
  - unfold activated. apply elem_of_app. left. by apply (list_elem_of_fmap_2 (λ w, if same_name w cur then cur else w)).
  - unfold same_name. destruct (String.eqb_spec (w_name w) (w_name cur)) as [E|]; [|done]. split; [done|]. symmetry. by apply Hc.
Qed.

Lemma rename_has o n l w : w ∈ l → ∃ w', w' ∈ rename o n l ∧ w_mnemonic w' = w_mnemonic w ∧ w_name w' = if String.eqb (w_name w) o then n else w_name w.
Proof.
  intros Hw. exists (if String.eqb (w_name w) o then with_name n w else w). split.
  - by apply (list_elem_of_fmap_2 (λ w, if String.eqb (w_name w) o then with_name n w else w)).
  - by destruct (String.eqb _ _).
Qed.

Lemma same_trans a b c : same a b → same b c → same a c.
Proof. intros [] []. split; congruence. Qed.
Lemma same_sym a b : same a b → same b a.
Proof. intros []. by split. Qed.

(** The list of a step of the store is one that [list_step] allows. *)
Lemma store_list_step fuel o st st' : store_step fuel o st st' → list_step fuel o st.1 st'.1.
Proof. destruct 1; by constructor. Qed.

Lemma inv_step fuel o st st' : store_step fuel o st st' → inv st → admissible fuel o st → inv st'.
Proof.
  intros H Hi Hp. pose proof (admissible_consistent _ _ _ Hi Hp) as Hc. pose proof Hi as [Hn Ha]. split.
  { exact (list_step_names _ _ _ _ (store_list_step _ _ _ _ H) Hc Hn). }
  intros a Ea. destruct H as [o l a0 a' Hs|cur new l a0 a' Hx|o n l a0 Ex|w o n l a0 Ex|d l a0|generated import l a0 w Ew]; cbn [fst snd default from_option id] in *.
  - subst a'. inversion Hs as [a1 ? E|]; subst. destruct (Ha a1 eq_refl) as (w & Hw & E'). exists w. split; [done|]. by eapply same_trans.
  - destruct Hx as [->|(nw & -> & E)].
    + destruct (Ha a Ea) as (w & Hw & E). destruct (replace_has cur l w Hw (Hc w Hw)) as (w' & Hw' & E'). exists w'. split; [done|]. by eapply same_trans.
    + injection Ea as <-. destruct Hp as [_ (w & Hw & E')]. destruct (replace_has cur l w Hw (Hc w Hw)) as (w' & Hw' & E'').
      exists w'. split; [done|]. eapply same_trans; [done|]. eapply same_trans; [done|]. by apply same_sym.
  - destruct (Ha a Ea) as (w & Hw & E1 & E2). destruct (rename_has o n l w Hw) as (w' & Hw' & Em & En). exists w'. split; [done|].
    rewrite (proj2 (String.eqb_neq _ _)) in En by (rewrite E1; by apply Hp). split; congruence.
  - injection Ea as <-. destruct Hp as (-> & b & Eb & E1 & E2). destruct (Ha b Eb) as (w' & Hw' & E3 & E4). destruct (rename_has (w_name w) n l w' Hw') as (w'' & Hw'' & Em & En).
    exists w''. split; [done|]. rewrite (proj2 (String.eqb_eq _ _)) in En by congruence. split; cbn; congruence.
  - destruct (Ha a Ea) as (w & Hw & E1 & E2). exists w. split; [|by split]. apply splice_keeps; [done|]. unfold is_wallet, same_name.
    rewrite (proj2 (String.eqb_neq _ _)); [done|]. rewrite E1. by apply Hp.
  - destruct (Ha a Ea) as (w' & Hw' & E). exists w'. split; [|done]. apply elem_of_app. by left.
Qed.

(** A run of operations, each offered in the state in which it is made. *)
Inductive history (fuel : nat) : world → list op → world → Prop :=
| HistoryEnd s : history fuel s [] s
| HistoryStep s o os s' : admissible fuel o (store_of s) → history fuel (run fuel o s).1 os s' → history fuel s (o :: os) s'.


(** Two wallets of one name.  When the list has a wallet of the name of the active one
    but with another mnemonic, which a default name of five characters can make happen,
    leaving the active wallet overwrites it: on a database that does not fail, its
    mnemonic is gone from the list unless it is there once more under another name. *)
Theorem same_name_overwritten fuel cur new s w l : clean s → list_of s = Some l → w ∈ l →
  w_name w = w_name cur → w_mnemonic w ≠ w_mnemonic cur → (∀ x, x ∈ l → w_mnemonic x = w_mnemonic w → w_name x = w_name cur) →
  wp (activateWallet fuel cur new) (λ _ s', list_of s' = Some (activated cur l) ∧ w_mnemonic w ∉ map w_mnemonic (saved s')) s.
Proof.
  intros Hc El Hw En Em Hu. eapply wp_mono; [by apply activate_list_sound|]. intros p s' E. split; [done|].
  unfold saved. unfold list_of in E. rewrite E. cbn [default from_option id]. unfold activated. rewrite map_app. intros [H|H]%elem_of_app.
  - apply list_elem_of_fmap in H as (x & Ex & Hx). apply list_elem_of_fmap in Hx as (y & -> & Hy). unfold same_name in Ex.
    destruct (String.eqb_spec (w_name y) (w_name cur)) as [|Hn]; [done|]. apply Hn, Hu; [done|by symmetry].
  - destruct (existsb _ l); [by apply not_elem_of_nil in H|]. apply list_elem_of_singleton in H. done.
Qed.

End S.

(** ** Examples *)

Section Examples.
Import Concrete ConcreteText ConcreteCurve ConcreteBn ConcreteWallet.
Local Existing Instance zero_mem.

Local Definition an_account : account := mkAccount "ecash:a" "wif" (Some "00"%string) (Some "02"%string).
Local Definition wallet_of (name mnemonic : string) : wallet := mkWallet mnemonic name an_account an_account (Some an_account) None.
Local Definition w1 : wallet := wallet_of "one" "seed 1".
Local Definition w2 : wallet := wallet_of "two" "seed 2".
Local Definition world_of (faults : list bool) (a : option wallet) (l : list wallet) : world :=
  mkWorld (mkDb a (Some l) None None None (Ok None) faults)
    (mkHook 0 5000 None None JNull None ∅ None false false true) ∅ [] None.


Local Definition start : world := world_of [] (Some w1) [w1; w2].


Lemma same_name_overwritten_witness :
  "seed 2"%string ∉ map w_mnemonic (saved (activateWallet 1 w1 w1 (world_of [] (Some w1) [wallet_of "one" "seed 2"])).1).
Proof.
  refine (proj2 (same_name_overwritten 1 w1 w1 (world_of [] (Some w1) [wallet_of "one" "seed 2"]) (wallet_of "one" "seed 2") [wallet_of "one" "seed 2"] _ _ _ _ _ _)).
  - split; reflexivity.
  - reflexivity.
  - left.
  - reflexivity.
  - discriminate.
  - intros x Hx _. apply list_elem_of_singleton in Hx as ->. reflexivity.
Defined.

End Examples.
End SavedWalletsLaws.
