(* ===== verification/Settings.v ===== *)
(** * Settings, contacts, cache and price

    The functions of [cashtab/src/hooks/useWallet.js] that load and store the settings, the
    list of contacts and the cache of tokens, and those that ask for the price of the
    coin. *)

From stdpp Require Import base tactics list gmap numbers strings.
From S2P Require Import Prelude JsFloat NodeBuffer JsString OpReturn WalletExternals Wallet ChronikUtils Validation App.
Import ChronikUtils Validation.
Open Scope Z_scope.

(** ** The price of the coin *)

(** What the service answers for a currency: the request fails, the answer has not the
    expected form, or it has a value, which may not be a number. *)
Inductive price_answer := FetchFails | BadAnswer | Answer (price : option number).
Class PriceApi := { api_price : string → price_answer }.

Module Settings.

(** ** The cache as a stored value *)

Definition info_json (i : tokenInfo) : json :=
  JObject [("tokenTicker", JString (ti_tokenTicker i)); ("tokenName", JString (ti_tokenName i)); ("tokenDocumentUrl", JString (ti_tokenDocumentUrl i));
           ("tokenDocumentHash", JString (ti_tokenDocumentHash i)); ("decimals", JNumber (ti_decimals i)); ("tokenId", JString (ti_tokenId i))]%string.

Definition cache_json (m : tokenInfoMap) : json :=
  JObject [("tokenInfoById"%string, JObject (map (λ p, (p.1, info_json p.2)) (map_to_list m)))].

(** What the code reads of an entry, and of a cache. *)
Definition read_info (v : json) : tokenInfo :=
  let fields := match v with JObject fields => fields | _ => [] end in
  let get name := default JUndefined (field name fields) in
  mkTokenInfo (text_of (get "tokenTicker")) (text_of (get "tokenName")) (text_of (get "tokenDocumentUrl")) (text_of (get "tokenDocumentHash"))
    (match get "decimals" with JNumber n => n | _ => 0 end) (text_of (get "tokenId")).

Definition read_cache (v : json) : tokenInfoMap :=
  match v with
  | JObject fields =>
      match field "tokenInfoById" fields with
      | Some (JObject infos) => list_to_map (map (λ p, (p.1, read_info p.2)) infos)
      | _ => ∅
      end
  | _ => ∅
  end.

(** [[{}]] *)
Definition no_contacts : json := JArray [JObject []].

Definition default_settings : json := JObject defaultSettings.

(** [parseInvalidSettingsForMigration] of any value that is stored: an array gets the
    defaults as properties, a property of a primitive value cannot be set. *)
Definition migrate (v : json) : result json :=
  match v with
  | JObject fields => Ok (JObject (parseInvalidSettingsForMigration fields))
  | JArray _ => Ok default_settings
  | _ => Throw (TypeError "Cannot create property")
  end.

Section S.
Context `{CA : !Cashaddr} `{PA : !PriceApi}.

(** ** Contacts *)

(** [None] is [null]. *)
Definition getContactListFromLocalForage : app (option json) :=
  try_catch (getItem db_contactList) (λ _, mret None).

Definition updateContactList (contactListArray : json) : app bool :=
  setLoading true;;
  updateSuccess ← try_catch (setItem (put_contactList contactListArray);; setContactList contactListArray;; mret true) (λ _, mret false);
  setLoading false;;
  mret updateSuccess.

Definition loadContactList : app json :=
  localContactList ← try_catch (Some <$> getItem db_contactList) (λ _, mret None);
  match localContactList with
  | None => setContactList no_contacts;; mret no_contacts
  | Some None =>
      spawn (setItem (put_contactList no_contacts));;
      setContactList no_contacts;;
      mret no_contacts
  | Some (Some localContactList) =>
      valid ← await (settle (isValidContactList localContactList));
      if (valid : bool) then setContactList localContactList;; mret localContactList
      else setContactList no_contacts;; mret no_contacts
  end.

(** ** Settings *)

Definition loadCashtabSettings : app json :=
  localSettings ← try_catch (Some <$> getItem db_settings) (λ _, mret None);
  match localSettings with
  | None => setCashtabSettings (Some default_settings);; mret default_settings
  | Some None =>
      spawn (setItem (put_settings default_settings));;
      setCashtabSettings (Some default_settings);;
      mret default_settings
  | Some (Some localSettings) =>
      if isValidCashtabSettings localSettings then setCashtabSettings (Some localSettings);; mret localSettings
      else
        modifiedLocalSettings ← await (settle (migrate localSettings));
        if isValidCashtabSettings modifiedLocalSettings then
          spawn (setItem (put_settings modifiedLocalSettings));;
          setCashtabSettings (Some modifiedLocalSettings);;
          mret modifiedLocalSettings
        else setCashtabSettings (Some default_settings);; mret default_settings
  end.

(** ** Cache *)

(** The default is the object of the module, with what was written to it. *)
Definition loadCashtabCache : app tokenInfoMap :=
  localCashtabCache ← try_catch (Some <$> getItem db_cashtabCache) (λ _, mret None);
  defaultCashtabCache ← gets w_defaultCashtabCache;
  match localCashtabCache with
  | None => setCashtabCache defaultCashtabCache;; mret defaultCashtabCache
  | Some None =>
      spawn (setItem (put_cashtabCache (cache_json defaultCashtabCache)));;
      setCashtabCache defaultCashtabCache;;
      mret defaultCashtabCache
  | Some (Some localCashtabCache) =>
      valid ← await (settle (isValidCashtabCache localCashtabCache));
      if (valid : bool) then setCashtabCache (read_cache localCashtabCache);; mret (read_cache localCashtabCache)
      else setCashtabCache defaultCashtabCache;; mret defaultCashtabCache
  end.

Definition writeTokenInfoByIdToCache (tokenInfoById : tokenInfoMap) : app unit :=
  setDefaultCashtabCache tokenInfoById;;
  spawn (setItem (put_cashtabCache (cache_json tokenInfoById))).

(** ** Price *)

Definition fetchBchPrice (fiatCode : string) : app unit :=
  match api_price fiatCode with
  | FetchFails | BadAnswer => mret tt
  | Answer price => setFiatPrice price
  end.

Definition initializeFiatPriceApi (selectedFiatCurrency : string) : app unit :=
  fetchBchPrice selectedFiatCurrency;;
  setFiatInterval (Some selectedFiatCurrency).

Definition clearFiatPriceApi : app unit := setFiatInterval None.

(** [currency.settingsValidation[key].includes(newValue)] throws for a key that is not
    there. *)
Definition allowed (key : string) (newValue : json) : result bool :=
  match field key defaultSettings with
  | Some _ => Ok (valid_setting key newValue)
  | None => Throw (TypeError "Cannot read properties of undefined")
  end.

Fixpoint set_field (key : string) (v : json) (fields : list (string * json)) : list (string * json) :=
  match fields with
  | [] => [(key, v)]
  | (k, x) :: fields => if String.eqb k key then (k, v) :: fields else (k, x) :: set_field key v fields
  end.

(** [newSettings[key] = newValue] *)
Definition assign (key : string) (newValue : json) (settings : option json) : result json :=
  match settings with
  | Some (JObject fields) => Ok (JObject (set_field key newValue fields))
  | Some (JArray l) => Ok (JObject [(key, newValue)])
  | _ => Throw (TypeError "Cannot set properties")
  end.

(** The call of [initializeFiatPriceApi] is not waited for; its parts come before the
    settings are written. *)
Definition changeCashtabSettings (key : string) (newValue : json) : app unit :=
  (if String.eqb key "balanceVisible" then mret tt else setLoading true);;
  currentSettings ← try_catch (Some <$> getItem db_settings) (λ _, mret None);
  match currentSettings with
  | None => setFiatPrice None;; setLoading false
  | Some currentSettings =>
      ok ← await (settle (allowed key newValue));
      if (ok : bool) then
        newSettings ← await (settle (assign key newValue currentSettings));
        setCashtabSettings (Some newSettings);;
        (if String.eqb key "fiatCurrency" then clearFiatPriceApi;; initializeFiatPriceApi (text_of newValue) else mret tt);;
        spawn (setItem (put_settings newSettings));;
        setLoading false
      else setFiatPrice None;; setLoading false
  end.

(** ** Start *)

(** The effect that runs once: the list of contacts and the cache are loaded before the
    settings. *)
Definition start_effect (handleUpdateWallet : app unit) : app unit :=
  spawn handleUpdateWallet;;
  loadContactList;;
  loadCashtabCache;;
  initialSettings ← loadCashtabSettings;
  let fields := match initialSettings with JObject fields => fields | _ => [] end in
  initializeFiatPriceApi (text_of (default JUndefined (field "fiatCurrency" fields))).

End S.
End Settings.

(** * Settings stay valid

    What the functions on settings, contacts and cache keep, whatever is stored and
    whichever calls of the database fail. *)

From S2P Require Import Tickers WalletAddress.
Import ChronikUtils Validation ValidationLaws Settings.
Module SettingsLaws.
Section S.
Context `{CA : !Cashaddr} `{PA : !PriceApi}.

Definition stored_settings (s : world) : option json := db_settings (w_db s).
Definition settings_of (s : world) : option json := h_cashtabSettings (w_hook s).

Lemma default_valid : isValidCashtabSettings default_settings = true.
Proof. reflexivity. Qed.

(** ** Loading *)

(** What is left in the database: what was there, the defaults where there was nothing, or
    the migrated settings. *)
Definition settings_step (v v' : option json) : Prop :=
  v' = v ∨ (v = None ∧ v' = Some default_settings) ∨ ∃ x y, v = Some x ∧ migrate x = Ok y ∧ isValidCashtabSettings y = true ∧ v' = Some y.

Lemma load_settings s : wp loadCashtabSettings (λ p s', settings_step (stored_settings s) (stored_settings s') ∧
  match p with
  | Resolved v => isValidCashtabSettings v = true ∧ settings_of s' = Some v
  | Rejected _ => settings_of s' = settings_of s ∧ ∃ x e, stored_settings s = Some x ∧ migrate x = Throw e
  | Pending => False
  end) s.
Proof.
  unfold loadCashtabSettings. wp_cases; [|by split; [left|]]. change (db_settings (db_next (w_db s))) with (stored_settings s).
  destruct (stored_settings s) as [v|] eqn:Ev; [|wp_cases; (split; [|done]); [by right; left|by left]].
  destruct (isValidCashtabSettings v) eqn:E1; autorewrite with wp; [by split; [left|]|].
  destruct (migrate v) as [y|e] eqn:E2; cbn [settle]; autorewrite with wp; [|split; [by left|split; [done|by exists v, e]]].
  destruct (isValidCashtabSettings y) eqn:E3; wp_cases; (split; [|done]); try by left. right. right. by exists v, y.
Qed.

(** ** Changing *)

Lemma field_set n key v fields : field n (set_field key v fields) = if String.eqb key n then Some v else field n fields.
Proof.
  induction fields as [|[k x] fields IH]; cbn [set_field field]; [by destruct (String.eqb_spec key n) as [->|]|].
  destruct (String.eqb_spec k key) as [->|Hk]; cbn [field].
  - by destruct (String.eqb_spec key n).
  - rewrite IH. destruct (String.eqb_spec k n) as [->|]; [|done]. by rewrite (proj2 (String.eqb_neq _ _)).
Qed.

Lemma assign_valid key v settings y : valid_setting key v = true → isValidCashtabSettings settings = true →
  assign key v (Some settings) = Ok y → isValidCashtabSettings y = true.
Proof.
  intros Hv Hs. destruct settings as [| | | | | | |fields]; try done. cbn [assign]. intros [= <-]. cbn [isValidCashtabSettings] in *.
  rewrite forallb_forall in *. intros p Hp. specialize (Hs p Hp). rewrite field_set. by destruct (String.eqb_spec key p.1) as [<-|].
Qed.

(** The stored settings, if there are any, and those in use, if any, are valid. *)
Definition settings_ok (s : world) : Prop :=
  (∀ x, stored_settings s = Some x → isValidCashtabSettings x = true) ∧ (∀ x, settings_of s = Some x → isValidCashtabSettings x = true).

Lemma price_settings code s : wp (initializeFiatPriceApi code) (λ p s', p = Resolved tt ∧ w_db s' = w_db s ∧ settings_of s' = settings_of s) s.
Proof. unfold initializeFiatPriceApi, fetchBchPrice. autorewrite with wp. destruct (api_price code); by wp_cases. Qed.

Lemma change_settings key v s : settings_ok s → wp (changeCashtabSettings key v) (λ _ s', settings_ok s') s.
Proof.
  intros [H1 H2]. unfold changeCashtabSettings. autorewrite with wp.
  eapply wp_mono with (Q := λ p s0, p = Resolved tt ∧ w_db s0 = w_db s ∧ settings_of s0 = settings_of s).
  { destruct (String.eqb key "balanceVisible"); by wp_cases. }
  intros p s0 (-> & Ed & Es). assert (Est : stored_settings s0 = stored_settings s) by (unfold stored_settings; congruence).
  wp_cases; [|by split; [rewrite <- Est in H1|rewrite <- Es in H2]]. change (db_settings (db_next (w_db s0))) with (stored_settings s0).
  destruct (allowed key v) as [[]|] eqn:Ea; cbn [settle]; autorewrite with wp; try (by split; [rewrite <- Est in H1|rewrite <- Es in H2]).
  destruct (assign key v (stored_settings s0)) as [y|] eqn:Ey; cbn [settle]; autorewrite with wp; [|by split; [rewrite <- Est in H1|rewrite <- Es in H2]].
  assert (Hy : isValidCashtabSettings y = true).
  { rewrite Est in Ey. destruct (stored_settings s) as [x|] eqn:Ex; [|done]. unfold allowed in Ea. destruct (field key defaultSettings); [|done].
    injection Ea as Ea. eapply assign_valid; [exact Ea|by apply H1|exact Ey]. }
  set (s1 := hooked _ _). eapply wp_mono with (Q := λ p s2, p = Resolved tt ∧ w_db s2 = w_db s1 ∧ settings_of s2 = settings_of s1).
  { destruct (String.eqb key "fiatCurrency"); unfold clearFiatPriceApi; wp_cases; [|done]. eapply wp_mono; [apply price_settings|]. by intros p s2 (? & -> & ->). }
  intros p s2 (-> & Ed2 & Es2). assert (Hs2 : ∀ x, settings_of s2 = Some x → isValidCashtabSettings x = true) by (rewrite Es2; by intros x [= <-]).
  wp_cases; (split; [|done]).
  - by intros x [= <-].
  - intros x Hx. apply H1. rewrite <- Est. unfold stored_settings in *. cbn in Hx. rewrite Ed2 in Hx. exact Hx.
Qed.

(** The settings in use are valid.  Whatever is stored and whichever calls of the
    database fail, [loadCashtabSettings] leaves valid settings in use, and settings of the
    user that are valid as they are or once defaults are added are never replaced by
    others; it fails only when the stored value is not an object.  Changing a setting
    keeps the stored settings and those in use valid, for every key and value. *)
Theorem settings_stay_valid s key v :
  wp loadCashtabSettings (λ p s', settings_step (stored_settings s) (stored_settings s') ∧
    match p with
    | Resolved x => isValidCashtabSettings x = true ∧ settings_of s' = Some x
    | Rejected _ => settings_of s' = settings_of s ∧ ∃ x e, stored_settings s = Some x ∧ migrate x = Throw e
    | Pending => False
    end) s ∧
  (settings_ok s → wp (changeCashtabSettings key v) (λ _ s', settings_ok s') s).
Proof. split; [apply load_settings|apply change_settings]. Qed.

(** The price of the last currency.  When the service does not answer for a new currency,
    the settings show the new one, the price stays that of the old one, and the page is
    not locked. *)
Theorem price_of_old_currency s code fields : db_settings (w_db s) = Some (JObject fields) → sound s → listed Tickers.fiatCurrency code = true →
  (api_price code = FetchFails ∨ api_price code = BadAnswer) →
  wp (changeCashtabSettings "fiatCurrency" (JString code)) (λ p s', p = Resolved tt ∧
    settings_of s' = Some (JObject (set_field "fiatCurrency" (JString code) fields)) ∧
    h_fiatPrice (w_hook s') = h_fiatPrice (w_hook s) ∧ h_loading (w_hook s') = false) s.
Proof.
  intros Ed Hs Hc Hp. unfold changeCashtabSettings. cbn [String.eqb Ascii.eqb Bool.eqb]. wp_sound. change (db_settings _) with (db_settings (w_db s)). rewrite Ed.
  change (allowed "fiatCurrency" (JString code)) with (Ok (is_string (JString code) && listed Tickers.fiatCurrency (text_of (JString code))) : result bool).
  cbn [is_string text_of andb]. rewrite Hc. cbn [settle]. autorewrite with wp. cbn [assign settle]. unfold clearFiatPriceApi, initializeFiatPriceApi, fetchBchPrice. cbn [text_of].
  destruct Hp as [-> | ->]; wp_cases; done.
Qed.

(** ** Cache *)

Lemma read_info_json i : read_info (info_json i) = i.
Proof. by destruct i. Qed.

Definition entry_ok (p : string * tokenInfo) : bool := isValidTokenId (JString p.1) && isValidTokenId (JString (ti_tokenId p.2)).

Lemma valid_infos_json l : valid_infos (map (λ p, (p.1, info_json p.2)) l) = Ok (forallb entry_ok l).
Proof.
  induction l as [|[k i] l IH]; [done|]. cbn [map forallb valid_infos fst snd]. unfold entry_ok at 1. cbn [fst snd].
  destruct (isValidTokenId (JString k)); [|done]. cbn [negb]. change (valid_info (info_json i)) with (Ok (isValidTokenId (JString (ti_tokenId i))) : result bool).
  cbn [mbind result_bind andb]. by destruct (isValidTokenId _).
Qed.

Lemma cache_valid m : isValidCashtabCache (cache_json m) = Ok (forallb entry_ok (map_to_list m)).
Proof. unfold cache_json. cbn [isValidCashtabCache field]. rewrite (String.eqb_refl "tokenInfoById"). apply valid_infos_json. Qed.

Lemma read_cache_json m : read_cache (cache_json m) = m.
Proof.
  unfold cache_json. cbn [read_cache field]. rewrite (String.eqb_refl "tokenInfoById"), map_map.
  rewrite (map_ext _ id); [|intros [k i]; cbn; by rewrite read_info_json]. rewrite map_id. apply list_to_map_to_list.
Qed.

(** The cache of tokens.  What [writeTokenInfoByIdToCache] stores is what the next start
    loads, when every token in it is under a valid id and has one; with one that has not,
    which the handler of the websocket adds, the whole cache is dropped at the next start
    and the default of the module, a fresh one then, is used. *)
Theorem cache_kept m s : sound s →
  wp (writeTokenInfoByIdToCache m;; loadCashtabCache) (λ p s', p = Resolved m ∧ h_cashtabCache (w_hook s') = m) s ∧
  (∀ s', sound s' → db_cashtabCache (w_db s') = Some (cache_json m) → wp loadCashtabCache (λ p s'', ∃ x, p = Resolved x ∧ h_cashtabCache (w_hook s'') = x ∧
    x = if forallb entry_ok (map_to_list m) then m else w_defaultCashtabCache s') s').
Proof.
  intros Hs0. assert (L : ∀ s', sound s' → db_cashtabCache (w_db s') = Some (cache_json m) → wp loadCashtabCache (λ p s'', ∃ x, p = Resolved x ∧ h_cashtabCache (w_hook s'') = x ∧
    x = if forallb entry_ok (map_to_list m) then m else w_defaultCashtabCache s') s').
  { intros s' Hs Ed. unfold loadCashtabCache. wp_sound. change (db_cashtabCache (db_next (w_db s'))) with (db_cashtabCache (w_db s')). rewrite Ed, cache_valid. cbn [settle].
    autorewrite with wp. destruct (forallb _ _); wp_cases; eexists; rewrite ?read_cache_json; done. }
  split; [|done]. unfold writeTokenInfoByIdToCache. wp_sound. eapply wp_mono; [apply L; [apply sound_put_cache, sound_tick; exact Hs0|done]|].
  intros p s' (x & -> & E1 & E2). cbn in E2. rewrite E1. assert (x = m) as -> by (by destruct (forallb _ _)). done.
Qed.

(** ** Start *)

(** A list of contacts that stops the start.  A stored list that holds [null] at its head
    makes [isValidContactList] throw: the effect that starts the wallet is rejected, the
    cache, the settings and the price are not loaded, and the settings stay [false]. *)
Theorem bad_contacts_stop_start s l (m : app unit) : sound s → (∀ s', sound s' → wp m (λ _ s'', sound s'' ∧ db_contactList (w_db s'') = db_contactList (w_db s') ∧ settings_of s'' = settings_of s') s') →
  db_contactList (w_db s) = Some (JArray (JNull :: l)) → settings_of s = None →
  wp (start_effect m) (λ p s', p = Rejected (TypeError "Cannot use 'in' operator") ∧ settings_of s' = None) s.
Proof.
  intros Hs Hm El En. unfold start_effect. autorewrite with wp. eapply wp_mono; [by apply Hm|]. intros p s1 (Hs1 & E1 & E2).
  unfold loadContactList. wp_sound. change (db_contactList (db_next (w_db s1))) with (db_contactList (w_db s1)). rewrite E1, El.
  cbn [isValidContactList valid_contacts valid_contact mbind result_bind settle]. autorewrite with wp. split; [done|]. by rewrite <- En, <- E2.
Qed.

End S.

(** ** Examples *)

Section Examples.
Import ConcreteWallet.

Local Definition world_with (contacts settings cache : option json) : world :=
  mkWorld (mkDb None None contacts settings cache (Ok None) []) (mkHook 0 5000 None None JNull None ∅ (Some (num_of_Z 2)) false false true) ∅ [] None.
Local Instance no_service : PriceApi := {| api_price _ := FetchFails |}.

Local Definition stored : world := world_with None (Some default_settings) None.
Lemma price_of_old_currency_witness :
  h_fiatPrice (w_hook (changeCashtabSettings "fiatCurrency" (JString "eur") stored).1) = Some (num_of_Z 2).
Proof.
  refine (proj1 (proj2 (proj2 (price_of_old_currency stored "eur" _ _ _ _ _)))); [reflexivity|reflexivity|reflexivity|left; reflexivity].
Defined.

Local Definition infos : tokenInfoMap := {["ab"%string := mkTokenInfo "T" "Token" "u" "h" 2 "ab"]}.
Lemma cache_kept_witness : h_cashtabCache (w_hook ((writeTokenInfoByIdToCache infos;; loadCashtabCache) (world_with None None None)).1) = infos.
Proof. refine (proj2 (proj1 (cache_kept infos (world_with None None None) _))). reflexivity. Defined.

Lemma bad_contacts_stop_start_witness :
  (start_effect (mret tt) (world_with (Some (JArray [JNull])) None None)).2 = Rejected (TypeError "Cannot use 'in' operator").
Proof.
  refine (proj1 (bad_contacts_stop_start (world_with (Some (JArray [JNull])) None None) [] (mret tt) _ _ _ _)); [reflexivity| |reflexivity|reflexivity].
  intros s' H. repeat split; exact H.
Defined.

End Examples.
End SettingsLaws.
