(* ===== verification/Update.v ===== *)
(** * Keeping the wallet up to date

    [update] of [cashtab/src/hooks/useWallet.js] and what calls it: the outputs, tokens and
    history of the active wallet are asked for, and its state is replaced; when that
    fails another server is tried.  The client of a server is a parameter. *)

From stdpp Require Import base tactics list gmap numbers strings.
From S2P Require Import Prelude JsNumber JsFloat NodeBuffer Externals Encodings Crypto Curve Asm ECPair TransactionBuilder HDNode JsString BigNumber OpReturn WalletExternals WalletAddress Wallet Amounts TxBuilder CashMethods Send ChronikUtils History Validation.
From S2P Require Import App Accounts SavedWallets Settings.
Import CashMethods ChronikUtils History Accounts SavedWallets Settings.
Open Scope Z_scope.

(** [new ChronikClient(url)] *)
Class ChronikClient := { cc_new : string → chronik }.

Module Update.
Section S.
Context {Mem : UninitMem} `{TF : !Typeforce} `{BI : !Bigi} `{EC : !Ecurve} `{HM : !CreateHmac} `{CH : !CreateHash}
  `{B58 : !Bs58check} `{WF : !Wif} `{CA : !Cashaddr} `{BN : !BigNumber} `{BS58 : !Bs58} `{B39 : !Bip39} `{EI : !Ecies} `{CC : !ChronikClient}.

(** The client of the state is that of the server with the index of the state. *)
Definition chronik_of (h : hook) : chronik := cc_new (default EmptyString (Currency.chronikUrls !! Z.to_nat (h_chronikIndex h))).

Definition tryNextChronikUrl : app unit :=
  currentChronikIndex ← gets (λ s, h_chronikIndex (w_hook s));
  let chronikUrlCount := len Currency.chronikUrls in
  if chronikUrlCount =? 1 then mret tt
  else if currentChronikIndex <? chronikUrlCount - 1 then setChronikIndex (currentChronikIndex + 1)
  else setChronikIndex 0.

(** [hash160AndAddressObjArray], as pairs of a hash and its address *)
Definition hashes_and_addresses (w : wallet) : result (list (string * string)) :=
  match Path1899 w with
  | None => TransactionBuilder.no_property
  | Some path1899 => Ok (map (λ a, (default "undefined"%string (hash160 a), cashAddress a)) [Path145 w; Path245 w; path1899])
  end.

(** New metadata is written to the cache. *)
Definition cache_tokens (new : bool) (tokenInfoById : tokenInfoMap) : app unit :=
  if new then spawn (writeTokenInfoByIdToCache tokenInfoById);; setCashtabCache tokenInfoById else mret tt.

(** The new state of the wallet, from the answers of the server.  [ck] and [cache] are
    those of the render that the function belongs to. *)
Definition fetch_state (ck : chronik) (cache : tokenInfoMap) (w : wallet) : app walletState :=
  hash160AndAddressObjArray ← await (settle (hashes_and_addresses w));
  chronikUtxos ← await (getUtxosChronik ck hash160AndAddressObjArray);
  let '(preliminarySlpUtxos, nonSlpUtxos) := organizeUtxosByType chronikUtxos in
  preliminaryTokensArray ← await (settle (getPreliminaryTokensArray preliminarySlpUtxos));
  '(tokens, updatedTokenInfoById, newTokensToCache) ← await (finalizeTokensArray ck preliminaryTokensArray cache);
  cache_tokens newTokensToCache updatedTokenInfoById;;
  slpUtxos ← await (settle (finalizeSlpUtxos preliminarySlpUtxos updatedTokenInfoById));
  h ← await (getTxHistoryChronik ck w updatedTokenInfoById);
  cache_tokens (th_newTokensToCache h) (th_tokenInfoById h);;
  mret (mkState (Some (Amounts.getWalletBalanceFromUtxos nonSlpUtxos)) (Some tokens) (Some slpUtxos) (Some nonSlpUtxos) false None (th_parsedTxHistory h)).

(** The last statements of the [try]. *)
Definition commit (w : wallet) (newState : walletState) : app unit :=
  setWallet (Some (with_state (Some newState) w));;
  spawn (writeWalletState w newState);;
  setApiError false.

Definition update (wallet : option wallet) : app unit :=
  h ← gets w_hook;
  (if h_walletRefreshInterval h =? 10 then setWalletRefreshInterval Currency.websocketConnectedRefreshInterval else mret tt);;
  match wallet with
  | None => mret tt
  | Some w =>
      try_catch (newState ← fetch_state (chronik_of h) (h_cashtabCache h) w; commit w newState)
                (λ _, setApiError true;; tryNextChronikUrl)
  end.

(** [update(...).finally(() => setLoading(false))] *)
Definition after_update (m : app unit) (h : app unit) : app unit := spawn (finally m h).

(** The callback of the interval. *)
Definition tick_interval (fuel : nat) : app unit :=
  wallet ← getWallet fuel;
  after_update (update wallet)
    (setLoading false;;
     hasUpdated ← gets (λ s, h_hasUpdated (w_hook s));
     if (hasUpdated : bool) then mret tt else setHasUpdated true).

(** The functions that the hook returns under these names. *)
Definition createWallet_hook (fuel : nat) (generated : string) (importMnemonic : option string) : app unit :=
  setLoading true;;
  newWallet ← createWallet fuel generated importMnemonic;
  setWallet newWallet;;
  after_update (update newWallet) (setLoading false).

Definition activateWallet_hook (fuel : nat) (currentlyActiveWallet walletToActivate : wallet) : app unit :=
  setLoading true;;
  setWalletRefreshInterval Currency.websocketDisconnectedRefreshInterval;;
  newWallet ← activateWallet fuel currentlyActiveWallet walletToActivate;
  setWallet newWallet;;
  setWalletRefreshInterval 10;;
  setLoading false.

End S.
End Update.

(** * Updates end well

    What an update of the wallet leaves, how servers are tried in turn, and what happens
    when the wallet is changed while an update is under way. *)

From S2P Require Import SavedWalletsLaws.
Import CashMethods ChronikUtils History Validation Accounts SavedWallets SavedWalletsLaws Settings Update.
Module UpdateLaws.
Section S.
Context {Mem : UninitMem} `{TF : !Typeforce} `{BI : !Bigi} `{EC : !Ecurve} `{HM : !CreateHmac} `{CH : !CreateHash}
  `{B58 : !Bs58check} `{WF : !Wif} `{CA : !Cashaddr} `{BN : !BigNumber} `{BS58 : !Bs58} `{B39 : !Bip39} `{EI : !Ecies} `{CC : !ChronikClient}.
Implicit Type (s : world) (w : wallet).

Definition index_of s : Z := h_chronikIndex (w_hook s).
Definition shown s : option wallet := h_wallet (w_hook s).
Definition error_of_api s : bool := h_apiError (w_hook s).

(** ** What fetching changes *)

(** All but the cache of tokens. *)
Record same_but_cache s s' : Prop := {
  sb_active : active_of s' = active_of s;
  sb_list : list_of s' = list_of s;
  sb_shown : shown s' = shown s;
  sb_index : index_of s' = index_of s;
  sb_error : error_of_api s' = error_of_api s;
}.

Lemma same_refl s : same_but_cache s s.
Proof. done. Qed.
Lemma same_but_trans s1 s2 s3 : same_but_cache s1 s2 → same_but_cache s2 s3 → same_but_cache s1 s3.
Proof. intros [] []. split; congruence. Qed.

Lemma cache_tokens_same new m s : wp (cache_tokens new m) (λ p s', p = Resolved tt ∧ same_but_cache s s') s.
Proof. unfold cache_tokens, writeTokenInfoByIdToCache. destruct new; wp_cases; done. Qed.

(** The state that is made of the answers. *)
Definition fresh_state (ck : chronik) (w : wallet) (st : walletState) : Prop :=
  ∃ pairs utxos, hashes_and_addresses w = Ok pairs ∧ getUtxosChronik ck pairs = Resolved utxos ∧
    ws_nonSlpUtxos st = Some (organizeUtxosByType utxos).2 ∧
    ws_balances st = Some (Amounts.getWalletBalanceFromUtxos (organizeUtxosByType utxos).2) ∧
    Send.isValidStoredWallet (with_state (Some st) w) = true.

Lemma fetch_outcome ck cache w s : wp (fetch_state ck cache w)
  (λ p s', same_but_cache s s' ∧ ∀ st, p = Resolved st → fresh_state ck w st) s.
Proof.
  unfold fetch_state. autorewrite with wp. destruct (hashes_and_addresses w) as [pairs|e] eqn:E1; cbn [settle]; autorewrite with wp; [|done].
  destruct (getUtxosChronik ck pairs) as [utxos|e|] eqn:E2; [|done|done]. destruct (organizeUtxosByType utxos) as [slp rest] eqn:E3.
  autorewrite with wp. destruct (getPreliminaryTokensArray slp) as [pre|e]; cbn [settle]; autorewrite with wp; [|done].
  destruct (finalizeTokensArray ck pre cache) as [[[tokens m] new]|e|]; autorewrite with wp; [|done|done].
  eapply wp_mono; [apply cache_tokens_same|]. intros p s1 [-> H1]. autorewrite with wp.
  destruct (finalizeSlpUtxos slp m) as [us|e]; cbn [settle]; autorewrite with wp; [|done].
  destruct (getTxHistoryChronik ck w m) as [h|e|]; autorewrite with wp; [|done|done].
  eapply wp_mono; [apply cache_tokens_same|]. intros p s2 [-> H2]. autorewrite with wp. split; [by eapply same_but_trans|].
  intros st [= <-]. exists pairs, utxos. rewrite E3. done.
Qed.

(** ** One update *)

Lemma next_url s : 0 <= index_of s < len Currency.chronikUrls → wp tryNextChronikUrl (λ p s', p = Resolved tt ∧
  index_of s' = (index_of s + 1) mod len Currency.chronikUrls ∧ active_of s' = active_of s ∧ list_of s' = list_of s ∧ shown s' = shown s ∧ error_of_api s' = error_of_api s) s.
Proof.
  unfold tryNextChronikUrl. intros Hi. autorewrite with wp. change (len Currency.chronikUrls) with 2 in *. cbn [Z.eqb Pos.eqb]. fold (index_of s).
  destruct (Z.ltb_spec (index_of s) (2 - 1)); wp_cases; (split; [done|]); (split; [|done]); cbn.
  - rewrite Z.mod_small; [done|lia].
  - assert (index_of s = 1) as -> by lia. done.
Qed.

(** What is shown, what is stored, and the server for the next update. *)
Definition committed (w : wallet) s s' : Prop :=
  ∃ st, fresh_state (chronik_of (w_hook s)) w st ∧ shown s' = Some (with_state (Some st) w) ∧ error_of_api s' = false ∧ index_of s' = index_of s ∧
    (active_of s' = shown s' ∨ active_of s' = active_of s).
Definition failed s s' : Prop :=
  shown s' = shown s ∧ active_of s' = active_of s ∧ error_of_api s' = true ∧ index_of s' = (index_of s + 1) mod len Currency.chronikUrls.

(** The answers of the server that is asked, to this wallet, with some cache and state. *)
Definition fetch_gives (ck : chronik) (w : wallet) (P : promise walletState → Prop) : Prop :=
  ∃ cache s, wp (fetch_state ck cache w) (λ p _, P p) s.

Lemma wp_with {A} (m : app A) (Q : promise A → world → Prop) s : wp m Q s → wp m (λ p s', Q p s' ∧ wp m (λ q _, q = p) s) s.
Proof. done. Qed.

(** How an update ends, and how the request ended that it made. *)
Lemma update_run w s : 0 <= index_of s < len Currency.chronikUrls → wp (update (Some w)) (λ p s', list_of s' = list_of s ∧
  match p with
  | Resolved _ => committed w s s' ∨ (failed s s' ∧ fetch_gives (chronik_of (w_hook s)) w (λ p, ∃ e, p = Rejected e))
  | Rejected _ => False
  | Pending => same_but_cache s s' ∧ fetch_gives (chronik_of (w_hook s)) w (λ p, p = Pending)
  end) s.
Proof.
  intros Hi. unfold update. autorewrite with wp. eapply wp_mono with (Q := λ p s1, p = Resolved tt ∧ same_but_cache s s1).
  { destruct (_ =? 10); by wp_cases. }
  intros p s1 [-> H1]. autorewrite with wp. eapply wp_mono; [apply wp_with, fetch_outcome|]. intros [st|e|] s2 [[H2 Hf] Hg];
    pose proof (same_but_trans _ _ _ H1 H2) as HA; pose proof HA as [A1 A2 A3 A4 A5].
  - specialize (Hf st eq_refl). unfold commit, writeWalletState, set_active.
    wp_cases; (split; [exact A2|]); left; exists st; (split; [done|]); (split; [done|]); (split; [done|]); (split; [exact A4|]).
    + by left.
    + right. exact A1.
  - wp_cases. eapply wp_mono; [apply next_url; by rewrite <- A4 in Hi|].
    intros p s3 (-> & B1 & B2 & B3 & B4 & B5). split; [by rewrite B3|]. right. split; [|eexists _, s1; eapply wp_mono; [exact Hg|by intros q s' ->; exists e]].
    change (index_of (hooked _ s2)) with (index_of s2) in B1. unfold failed. rewrite B4, B2, B5, B1, A4. by split_and!.
  - split; [done|]. split; [done|]. by eexists _, s1.
Qed.


(** ** The servers in turn *)

Definition server (i : Z) : chronik := cc_new (default EmptyString (Currency.chronikUrls !! Z.to_nat i)).
Definition serves (i : Z) (w : wallet) : Prop := ∀ cache s, wp (fetch_state (server i) cache w) (λ p _, ∃ st, p = Resolved st) s.
Definition settles (i : Z) (w : wallet) : Prop := ∀ cache s, wp (fetch_state (server i) cache w) (λ p _, p ≠ Pending) s.

(** [k] updates, one after the other *)
Fixpoint updates (k : nat) (w : wallet) : app unit :=
  match k with O => mret tt | S k => update (Some w);; updates k w end.

Definition up_to_date (w : wallet) s : Prop :=
  ∃ st, fresh_state (server (index_of s)) w st ∧ shown s = Some (with_state (Some st) w) ∧ error_of_api s = false.

Lemma committed_up_to_date w s s' : committed w s s' → up_to_date w s'.
Proof. intros (st & H1 & H2 & H3 & H4 & _). exists st. unfold server. by rewrite H4. Qed.

(** When the server in use settles, the update does, and the wallet is up to date unless
    the server refused. *)
Lemma update_settles w s : 0 <= index_of s < len Currency.chronikUrls → settles (index_of s) w →
  wp (update (Some w)) (λ p s', p = Resolved tt ∧ (up_to_date w s' ∨ (¬ serves (index_of s) w ∧ index_of s' = (index_of s + 1) mod len Currency.chronikUrls))) s.
Proof.
  intros Hi Hs. eapply wp_mono; [by apply update_run|]. intros [[]|e|] s' [_ HU]; [|done|].
  - split; [done|]. destruct HU as [HU|[(_ & _ & _ & F) (c & s0 & e & H)]]; [by left; eapply committed_up_to_date|].
    right. split; [|done]. intros Ha. destruct (Ha c s0) as [st H']. unfold server, index_of in H'. fold (chronik_of (w_hook s)) in H'. congruence.
  - destruct HU as [_ (c & s0 & H)]. exfalso. by apply (Hs c s0).
Qed.

Lemma updates_reach n w (d : nat) s j : n = len Currency.chronikUrls → 0 <= index_of s < n → 0 <= j < n → (j - index_of s) mod n = Z.of_nat d →
  (∀ i, 0 <= i < n → settles i w) → serves j w →
  ∃ k, (1 <= k <= S d)%nat ∧ wp (updates k w) (λ p s', p = Resolved tt ∧ up_to_date w s') s.
Proof.
  intros En. revert s. induction d as [|d IH]; intros s Hi Hj Hd Hs Ha; pose proof (update_settles w s) as HU; rewrite <- En in HU; specialize (HU Hi (Hs _ Hi));
    unfold wp in HU; destruct (update (Some w) s) as [s' p] eqn:EU; cbn [fst snd] in HU; destruct HU as [-> HU].
  all: assert (HN : ∀ k (Q : promise unit → world → Prop), wp (updates k w) Q s' → wp (updates (S k) w) Q s)
    by (intros k Q HW; cbn [updates]; rewrite wp_bind; unfold wp at 1; by rewrite EU).
  all: destruct HU as [HU|[Hns HI]]; [exists 1%nat; split; [lia|]; apply HN; cbn [updates]; by autorewrite with wp|].
  - destruct Hns. assert (j = index_of s) as <-; [|done]. rewrite <- (Z.mod_small j n), <- (Z.mod_small (index_of s) n) by lia. by apply Z.cong_iff_0.
  - destruct (IH s') as (k & Hk & HW); [rewrite HI; apply Z.mod_pos_bound; lia|done| |done|done|].
    { rewrite HI, Zminus_mod_idemp_r. replace (j - (index_of s + 1)) with (j - index_of s - 1) by lia.
      rewrite <- Zminus_mod_idemp_l, Hd. rewrite Z.mod_small; [lia|]. pose proof (Z.mod_pos_bound (j - index_of s) n). lia. }
    exists (S k). split; [lia|]. by apply HN.
Qed.

(** C14: a server that answers is found.  If no server leaves a request without an answer and
    one of them serves the wallet, then from whichever server is in use, at most as many
    updates as there are servers bring the wallet up to date: one of them ends with the
    wallet shown with a fresh state and without an error. *)
Theorem server_found w s j : 0 <= index_of s < len Currency.chronikUrls → 0 <= j < len Currency.chronikUrls →
  (∀ i, 0 <= i < len Currency.chronikUrls → settles i w) → serves j w →
  ∃ k, (1 <= k <= length Currency.chronikUrls)%nat ∧ wp (updates k w) (λ p s', p = Resolved tt ∧ up_to_date w s') s.
Proof.
  intros Hi Hj Hs Ha. remember (len Currency.chronikUrls) as n eqn:En. pose proof (Z.mod_pos_bound (j - index_of s) n ltac:(lia)) as Hd.
  destruct (updates_reach n w (Z.to_nat ((j - index_of s) mod n)) s j) as (k & Hk & HW); [done..|rewrite Z2Nat.id; lia|done|done|].
  exists k. split; [|done]. unfold len in En. lia.
Qed.

(** ** An update that comes late *)

(** An update that comes late.  The state that an update has fetched for the wallet that
    was active is committed without looking at the wallet that is active then: after
    another wallet has been activated, which the database and the page show, the commit
    puts the former wallet back in both. *)
Theorem late_update_reverts fuel w new live st l s : sound s → list_of s = Some l → isLegacyMigrationRequired new = false → loadStoredWallet (w_state new) = Ok live →
  wp (activateWallet_hook fuel w new) (λ p s1, p = Resolved tt ∧ active_of s1 = Some new ∧ shown s1 = Some (with_state (Some live) new) ∧
    wp (commit w st) (λ q s2, q = Resolved tt ∧ active_of s2 = Some (with_state (Some st) w) ∧ shown s2 = active_of s2) s1) s.
Proof.
  intros Hs Hl Hm Hn. unfold activateWallet_hook, activateWallet, load_saved. wp_sound. change (db_savedWallets _) with (list_of s). rewrite Hl. cbn [not_missing].
  wp_sound. unfold activate_new. rewrite Hm. destruct (existsb _ l); unfold set_active; wp_sound; rewrite Hn; cbn [settle]; wp_sound;
    (split; [done|]); (split; [done|]); (split; [done|]); unfold commit, writeWalletState, set_active; wp_sound; done.
Qed.

End S.

(** ** Examples *)

Section Examples.
Import Concrete ConcreteText ConcreteCurve ConcreteBn ConcreteWallet.
Local Existing Instance zero_mem.

Local Definition an_account : account := mkAccount "ecash:a" "wif" (Some "00"%string) (Some "02"%string).
Local Definition w1 : wallet := mkWallet "seed 1" "one" an_account an_account (Some an_account) None.
Local Definition w2 : wallet := mkWallet "seed 2" "two" an_account an_account (Some an_account) None.
Local Definition start : world :=
  mkWorld (mkDb (Some w1) (Some [w1; w2]) None None None (Ok None) [])
    (mkHook 0 5000 None None JNull None ∅ None false false true) ∅ [] None.
Local Definition no_answer {A} : A + failure := inr (mkFailure (Error "none") None).
(** The first server refuses, the second answers that the wallet is empty. *)
Local Definition refusing : chronik := mkChronik (λ _ _, no_answer) (λ _ _ _, no_answer) (λ _, no_answer) (λ _, no_answer) (λ _, no_answer).
Local Definition answering : chronik := mkChronik (λ _ _, no_answer) (λ _ _ _, inl []) (λ _, inl []) (λ _, no_answer) (λ _, no_answer).
Local Instance two_servers : ChronikClient := {| cc_new url := if String.eqb url "https://chronik.be.cash/xec" then answering else refusing |}.


Lemma server_found_witness : ∃ k, (1 <= k <= 2)%nat ∧ wp (updates k w1) (λ p s', p = Resolved tt ∧ up_to_date w1 s') start.
Proof.
  refine (server_found w1 start 1 _ _ _ _); [change (0 <= 0 < 2); lia|change (0 <= 1 < 2); lia| |].
  - intros i Hi. assert (i = 0 ∨ i = 1) as [-> | ->] by (change (len Currency.chronikUrls) with 2 in Hi; lia); intros cache s; discriminate.
  - intros cache s. eexists. reflexivity.
Defined.

Lemma late_update_reverts_witness : active_of (commit w1 (getWalletState None) (activateWallet_hook 1 w1 w2 start).1).1 = Some (with_state (Some (getWalletState None)) w1).
Proof.
  refine (proj1 (proj2 (proj2 (proj2 (proj2 (late_update_reverts 1 w1 w2 _ (getWalletState None) [w1; w2] start _ _ _ _)))))); reflexivity.
Defined.

End Examples.
End UpdateLaws.
