(* ===== verification/WalletForms.v ===== *)
(** * The forms for saved wallets

    The handlers of [cashtab/src/components/Configure/Configure.js] that import, rename,
    delete and activate wallets, on top of the functions of the hook.  The active wallet
    is the one of the state of the application.  An exception in a handler leaves what
    was set before it; nobody waits for the promise. *)

From stdpp Require Import base tactics list gmap numbers strings.
From S2P Require Import Prelude JsNumber JsFloat NodeBuffer Externals Encodings Crypto Curve Asm ECPair TransactionBuilder HDNode JsString BigNumber OpReturn WalletExternals WalletAddress Wallet Amounts TxBuilder CashMethods Send ChronikUtils History Validation.
From S2P Require Import App Accounts SavedWallets Settings Update.
Import ChronikUtils Validation SavedWallets.
Open Scope Z_scope.

(** [bip39.validateMnemonic(mnemonic, bip39.wordlists.english)] *)
Class Bip39Words := { b39_validateMnemonic : string → result bool }.

Module WalletForms.

(** What a dialog says at the end. *)
Inductive said := WalletAdded | WalletExists | Renamed (oldName newName : string) | RenameFailed | Deleted (name : string) | DeleteFailed (name : string).

Record renameForm := mkRename { rw_shown : bool; rw_wallet : option wallet; rw_name : string; rw_valid : option bool }.
Record deleteForm := mkDelete { dw_shown : bool; dw_wallet : option wallet; dw_text : string; dw_valid : option bool }.

(** [p_locked] is what [passLoadingStatus] was given last: the effect on [savedWallets] unlocks
    the page when they are set. *)
Record page := mkPage {
  p_savedWallets : list wallet;
  p_mnemonic : string;
  p_isValidMnemonic : option bool;
  p_rename : renameForm;
  p_delete : deleteForm;
  p_locked : bool;
  p_said : list said;
}.

Definition initial : page := mkPage [] EmptyString None (mkRename false None EmptyString None) (mkDelete false None EmptyString None) false [].

Definition set_saved (l : list wallet) (p : page) : page := mkPage l (p_mnemonic p) (p_isValidMnemonic p) (p_rename p) (p_delete p) false (p_said p).
Definition lock (p : page) : page := mkPage (p_savedWallets p) (p_mnemonic p) (p_isValidMnemonic p) (p_rename p) (p_delete p) true (p_said p).
Definition set_rename (f : renameForm → renameForm) (p : page) : page :=
  mkPage (p_savedWallets p) (p_mnemonic p) (p_isValidMnemonic p) (f (p_rename p)) (p_delete p) (p_locked p) (p_said p).
Definition set_delete (f : deleteForm → deleteForm) (p : page) : page :=
  mkPage (p_savedWallets p) (p_mnemonic p) (p_isValidMnemonic p) (p_rename p) (f (p_delete p)) (p_locked p) (p_said p).
Definition say (m : said) (p : page) : page :=
  mkPage (p_savedWallets p) (p_mnemonic p) (p_isValidMnemonic p) (p_rename p) (p_delete p) (p_locked p) (p_said p ++ [m]).

(** ** Dialogs *)

Definition showPopulatedDeleteWalletModal (walletInfo : wallet) : page → page := set_delete (λ f, mkDelete true (Some walletInfo) (dw_text f) (dw_valid f)).
Definition showPopulatedRenameWalletModal (walletInfo : wallet) : page → page := set_rename (λ f, mkRename true (Some walletInfo) (rw_name f) (rw_valid f)).
Definition cancelRenameWallet : page → page := set_rename (λ f, mkRename false (rw_wallet f) EmptyString (rw_valid f)).
Definition cancelDeleteWallet : page → page := set_delete (λ f, mkDelete false None EmptyString (dw_valid f)).

Definition handleWalletNameInput (value : string) : page → page :=
  set_rename (λ f, mkRename (rw_shown f) (rw_wallet f) value (Some (negb (OpReturn.is_empty value) && isValidNewWalletNameLength (JString value)))).

Definition delete_phrase (w : wallet) : string := String.append "delete " (w_name w).

(** Without a wallet the handler throws. *)
Definition handleWalletToDeleteInput (value : string) (p : page) : page :=
  match dw_wallet (p_delete p) with
  | Some w => set_delete (λ f, mkDelete (dw_shown f) (dw_wallet f) value (Some (negb (OpReturn.is_empty value) && String.eqb value (delete_phrase w)))) p
  | None => p
  end.

Section S.
Context {Mem : UninitMem} `{TF : !Typeforce} `{BI : !Bigi} `{EC : !Ecurve} `{HM : !CreateHmac} `{CH : !CreateHash}
  `{B58 : !Bs58check} `{WF : !Wif} `{CA : !Cashaddr} `{BN : !BigNumber} `{BS58 : !Bs58} `{B39 : !Bip39} `{BW : !Bip39Words}.

(** ** Import *)

(** A text that is split has a part at least. *)
Definition validateMnemonic (mnemonic : string) : bool :=
  if OpReturn.is_empty mnemonic then false
  else match b39_validateMnemonic mnemonic with Ok b => b | Throw _ => false end.

Definition handleChange (value : string) (p : page) : page :=
  mkPage (p_savedWallets p) value (Some (validateMnemonic value)) (p_rename p) (p_delete p) (p_locked p) (p_said p).

Definition active : app (option wallet) := gets (λ s, h_wallet (w_hook s)).

Definition updateSavedWallets (activeWallet : option wallet) (p : page) : app page :=
  let p := lock p in
  match activeWallet with
  | Some w => try_catch (savedWallets ← getSavedWallets (Some w); mret (set_saved savedWallets p)) (λ _, mret p)
  | None => mret p
  end.

Definition updateSavedWalletsOnCreate (fuel : nat) (generated : string) (importMnemonic : option string) (p : page) : app page :=
  wallet ← active;
  walletAdded ← addNewSavedWallet fuel generated importMnemonic;
  updateSavedWallets wallet (say (if (walletAdded : bool) then WalletAdded else WalletExists) p).

Definition submit (fuel : nat) (generated : string) (p : page) : app page :=
  if OpReturn.is_empty (p_mnemonic p) then mret p
  else if negb (default false (p_isValidMnemonic p)) then mret p
  else try_catch (updateSavedWalletsOnCreate fuel generated (Some (p_mnemonic p)) p) (λ _, mret p).

Definition updateSavedWalletsOnLoad (fuel : nat) (walletToActivate : wallet) : app unit :=
  wallet ← active;
  match wallet with
  | Some wallet => Update.activateWallet_hook fuel wallet walletToActivate
  | None => throw (TypeError "Cannot read properties of false")
  end.

(** ** New name *)

(** The active wallet is looked up again after the call: the code changes the object. *)
Definition changeWalletName (p : page) : app page :=
  let newWalletName := rw_name (p_rename p) in
  if negb (isValidNewWalletNameLength (JString newWalletName)) then mret (set_rename (λ f, mkRename (rw_shown f) (rw_wallet f) (rw_name f) (Some false)) p)
  else
    let p := set_rename (λ f, mkRename false (rw_wallet f) (rw_name f) (rw_valid f)) p in
    match rw_wallet (p_rename p) with
    | None => mret p
    | Some walletToBeRenamed =>
        wallet ← active;
        let is_active := match wallet with Some wallet => same_name walletToBeRenamed wallet | None => false end in
        try_catch
          (renameSuccess ← match wallet with
                           | Some wallet => if is_active then renameActiveWallet wallet (w_name walletToBeRenamed) newWalletName
                                            else renameSavedWallet (w_name walletToBeRenamed) newWalletName
                           | None => renameSavedWallet (w_name walletToBeRenamed) newWalletName
                           end;
           let p := say (if (renameSuccess : bool) then Renamed (w_name walletToBeRenamed) newWalletName else RenameFailed) p in
           wallet ← active;
           p ← updateSavedWallets wallet p;
           mret (set_rename (λ f, mkRename (rw_shown f) (rw_wallet f) EmptyString (rw_valid f)) p))
          (λ _, mret p)
    end.

(** ** Deletion *)

Definition deleteSelectedWallet (p : page) : app page :=
  match dw_valid (p_delete p), dw_wallet (p_delete p) with
  | Some false, _ => mret p
  | _, None => mret p
  | _, Some w =>
      if negb (String.eqb (dw_text (p_delete p)) (delete_phrase w)) then mret (set_delete (λ f, mkDelete (dw_shown f) (dw_wallet f) (dw_text f) (Some false)) p)
      else
        let p := set_delete (λ f, mkDelete false (dw_wallet f) (dw_text f) (dw_valid f)) p in
        wallet ← active;
        try_catch
          (walletDeletedSuccess ← deleteWallet w;
           p ← updateSavedWallets wallet (say (if (walletDeletedSuccess : bool) then Deleted (w_name w) else DeleteFailed (w_name w)) p);
           mret (set_delete (λ f, mkDelete (dw_shown f) (dw_wallet f) EmptyString (dw_valid f)) p))
          (λ _, mret p)
  end.

(** ** Events *)

Inductive event :=
| MnemonicInput (value : string) | ImportClick | CreateClick
| RenameClick (w : wallet) | NameInput (value : string) | RenameOk | RenameCancel
| DeleteClick (w : wallet) | PhraseInput (value : string) | DeleteOk | DeleteCancel.

Definition enabled (p : page) (e : event) : bool :=
  match e with
  | ImportClick => default false (p_isValidMnemonic p)
  | NameInput _ | RenameOk | RenameCancel => rw_shown (p_rename p)
  | PhraseInput _ | DeleteOk | DeleteCancel => dw_shown (p_delete p)
  | _ => true
  end.

(** [generated] is what a new mnemonic would be. *)
Definition step (fuel : nat) (generated : string) (e : event) (p : page) : app page :=
  match e with
  | MnemonicInput v => mret (handleChange v p)
  | ImportClick => submit fuel generated p
  | CreateClick => try_catch (updateSavedWalletsOnCreate fuel generated None p) (λ _, mret p)
  | RenameClick w => mret (showPopulatedRenameWalletModal w p)
  | NameInput v => mret (handleWalletNameInput v p)
  | RenameOk => changeWalletName p
  | RenameCancel => mret (cancelRenameWallet p)
  | DeleteClick w => mret (showPopulatedDeleteWalletModal w p)
  | PhraseInput v => mret (handleWalletToDeleteInput v p)
  | DeleteOk => deleteSelectedWallet p
  | DeleteCancel => mret (cancelDeleteWallet p)
  end.

End S.
End WalletForms.

(** * What the forms for saved wallets do

    The list of saved wallets changes only in the way that the form shows and the user
    confirmed, in every session of the page. *)

From S2P Require Import SavedWalletsLaws.
Import Validation SavedWallets SavedWalletsLaws WalletForms.
Module WalletFormsLaws.
Section S.
Context {Mem : UninitMem} `{TF : !Typeforce} `{BI : !Bigi} `{EC : !Ecurve} `{HM : !CreateHmac} `{CH : !CreateHash}
  `{B58 : !Bs58check} `{WF : !Wif} `{CA : !Cashaddr} `{BN : !BigNumber} `{BS58 : !Bs58} `{B39 : !Bip39} `{BW : !Bip39Words}.
Implicit Type (p : page) (s : world).

(** The pages that a session reaches, whatever the rest of the application does between
    two events. *)
Inductive reached (fuel : nat) : page → Prop :=
| ReachedStart : reached fuel initial
| ReachedStep p e generated s s' p' : reached fuel p → enabled p e = true → step fuel generated e p s = (s', Resolved p') → reached fuel p'.

(** The mark of the mnemonic is that of the text in the form. *)
Definition marked p : Prop := p_isValidMnemonic p = Some true → validateMnemonic (p_mnemonic p) = true.

(** ** The mark *)

(** The text and the mark of the import form stay. *)
Definition same_import p p' : Prop := p_mnemonic p' = p_mnemonic p ∧ p_isValidMnemonic p' = p_isValidMnemonic p.
Definition keeps_import (m : app page) p : Prop := ∀ s, wp m (λ r _, match r with Resolved p' => same_import p p' | _ => True end) s.

Lemma keeps_mret p p' : same_import p p' → keeps_import (mret p') p.
Proof. by intros H s. Qed.

Lemma keeps_try p p' (m : app page) : keeps_import m p → same_import p p' → keeps_import (try_catch m (λ _, mret p')) p.
Proof. intros H Hp s. apply wp_try. eapply wp_mono; [apply H|]. by intros [q| |] s' Hq. Qed.

Lemma keeps_after {A} p (m : app A) (f : A → app page) : (∀ a, keeps_import (f a) p) → keeps_import (m ≫= f) p.
Proof. intros H s. apply wp_bind. unfold wp. destruct (m s) as [s' [a| |]]; cbn; [apply H|done|done]. Qed.

Lemma keeps_update p o p' : same_import p p' → keeps_import (updateSavedWallets o p') p.
Proof.
  intros H. unfold updateSavedWallets. destruct o as [w|]; [|by apply keeps_mret]. apply keeps_try; [|done].
  apply keeps_after. intros l. by apply keeps_mret.
Qed.

Lemma keeps_then p (m : app page) (f : page → page) : keeps_import m p → (∀ q, same_import q (f q)) → keeps_import (q ← m; mret (f q)) p.
Proof.
  intros H Hf s. apply wp_bind. eapply wp_mono; [apply H|]. intros [q| |] s' Hq; [|done|done]. destruct Hq, (Hf q). split; congruence.
Qed.

Lemma step_import fuel generated e p : (∀ v, e ≠ MnemonicInput v) → keeps_import (step fuel generated e p) p.
Proof.
  intros He. destruct e as [v| | |w|v| | |w|v| | ]; cbn [step]; try (by apply keeps_mret).
  - by destruct (He v).
  - unfold submit. repeat case_match; try by apply keeps_mret. apply keeps_try; [|done].
    repeat (apply keeps_after; intros ?). by apply keeps_update.
  - apply keeps_try; [|done]. repeat (apply keeps_after; intros ?). by apply keeps_update.
  - unfold changeWalletName. repeat case_match; try by apply keeps_mret. apply keeps_after. intros o. apply keeps_try; [|done].
    apply keeps_after. intros b. apply keeps_after. intros o'. apply keeps_then; [by apply keeps_update|done].
  - unfold handleWalletToDeleteInput. case_match; by apply keeps_mret.
  - unfold deleteSelectedWallet. repeat case_match; try by apply keeps_mret.
    all: apply keeps_after; intros o; apply keeps_try; [|done]; apply keeps_after; intros b'; apply keeps_then; [by apply keeps_update|done].
Qed.

Lemma reached_marked fuel p : reached fuel p → marked p.
Proof.
  induction 1 as [|p e generated s s' p' Hr IH He Hs]; [done|]. unfold marked in *.
  assert (H : (∃ v, e = MnemonicInput v) ∨ ∀ v, e ≠ MnemonicInput v) by (destruct e; (by left; eexists) || by right).
  destruct H as [[v ->]|Hv]; [cbn in Hs; inversion Hs; subst; cbn; by intros [=]|].
  pose proof (step_import fuel generated e p Hv s) as H. unfold wp in H. rewrite Hs in H. cbn in H. destruct H as [-> ->]. exact IH.
Qed.

(** ** The list *)

(** What an event may do to the list of saved wallets. *)
Definition confirmed (generated : string) (e : event) p (l l' : option (list wallet)) : Prop :=
  match e with
  | ImportClick => validateMnemonic (p_mnemonic p) = true ∧ ∃ w, w_mnemonic w = p_mnemonic p ∧ l' = Some (default [] l ++ [w])
  | CreateClick => ∃ w, w_mnemonic w = generated ∧ l' = Some (default [] l ++ [w])
  | RenameOk => ∃ w x, rw_wallet (p_rename p) = Some w ∧ isValidNewWalletNameLength (JString (rw_name (p_rename p))) = true ∧
      l = Some x ∧ existsb (λ w, String.eqb (w_name w) (rw_name (p_rename p))) x = false ∧ l' = Some (rename (w_name w) (rw_name (p_rename p)) x)
  | DeleteOk => ∃ w x, dw_wallet (p_delete p) = Some w ∧ dw_text (p_delete p) = delete_phrase w ∧
      l = Some x ∧ l' = Some (splice_matching (is_wallet w) x)
  | _ => False
  end.

Lemma update_keeps_list o p : keeps_list (updateSavedWallets o p).
Proof.
  unfold updateSavedWallets. destruct o as [w|]; [|done]. intros s. unfold getSavedWallets. by wp_cases.
Qed.

(** A change of the list, then something that keeps it, then a handler of exceptions. *)
Lemma list_then {A B} (P : option (list wallet) → Prop) (m : app A) (f : A → app B) (h : B) s :
  wp m (λ _ s', P (list_of s')) s → (∀ a, keeps_list (f a)) → wp (try_catch (m ≫= f) (λ _, mret h)) (λ _ s', P (list_of s')) s.
Proof.
  intros Hm Hf. apply wp_try, wp_bind. eapply wp_mono; [exact Hm|]. intros [a| |] s' H; [|done|done].
  eapply wp_mono; [apply Hf|]. intros [b| |] s'' E; by rewrite <- E in H.
Qed.

Lemma new_mnemonic_kept fuel generated import w : new_wallet fuel generated import = Resolved (Some w) → w_mnemonic w = new_mnemonic generated import.
Proof.
  unfold new_wallet, Accounts.getWalletDetails. destruct (Accounts.deriveAccounts _ _) as [[[??]?]| |]; [|done|done]. by intros [= <-].
Qed.

Lemma create_list fuel generated import p s :
  wp (try_catch (updateSavedWalletsOnCreate fuel generated import p) (λ _, mret p))
    (λ _ s', list_of s' = list_of s ∨ ∃ w, w_mnemonic w = new_mnemonic generated import ∧ list_of s' = Some (saved s ++ [w])) s.
Proof.
  unfold updateSavedWalletsOnCreate, active. apply wp_try, wp_bind, wp_gets.
  apply (proj1 (wp_try _ _ _ _)). apply (list_then (λ l, l = list_of s ∨ ∃ w, w_mnemonic w = new_mnemonic generated import ∧ l = Some (saved s ++ [w]))).
  - eapply wp_mono; [apply add_list|]. intros _ s' [H|(w & E & H)]; [by left|right]. exists w. split; [by eapply new_mnemonic_kept|done].
  - intros b. apply update_keeps_list.
Qed.

Lemma rename_list p s : wp (changeWalletName p) (λ _ s', list_of s' = list_of s ∨ confirmed EmptyString RenameOk p (list_of s) (list_of s')) s.
Proof.
  unfold changeWalletName. destruct (isValidNewWalletNameLength _) eqn:Ev; cbn [negb]; [|by left]. cbn [p_rename set_rename rw_wallet].
  destruct (rw_wallet (p_rename p)) as [w|] eqn:Ew; [|by left]. unfold active. apply wp_bind, wp_gets.
  apply (list_then (λ l, l = list_of s ∨ confirmed EmptyString RenameOk p (list_of s) l)).
  - assert (H : ∀ (s' : world), renamed (w_name w) (rw_name (p_rename p)) (list_of s) (list_of s') →
      list_of s' = list_of s ∨ confirmed EmptyString RenameOk p (list_of s) (list_of s')).
    { intros s' [?|(x & El & Ex & El')]; [by left|right]. exists w, x. by split_and!. }
    destruct (h_wallet (w_hook s)) as [wa|]; [destruct (same_name w wa)|].
    + eapply wp_mono; [apply rename_active_list|]. intros r s'. apply H.
    + eapply wp_mono; [apply rename_saved_list|]. intros r s'. apply H.
    + eapply wp_mono; [apply rename_saved_list|]. intros r s'. apply H.
  - intros b. apply keeps_bind; [done|]. intros o. apply keeps_bind; [apply update_keeps_list|done].
Qed.

Lemma delete_confirmed p s : wp (deleteSelectedWallet p) (λ _ s', list_of s' = list_of s ∨ confirmed EmptyString DeleteOk p (list_of s) (list_of s')) s.
Proof.
  unfold deleteSelectedWallet.
  assert (H : ∀ w, dw_wallet (p_delete p) = Some w → dw_text (p_delete p) = delete_phrase w → ∀ q (f : bool → app page), (∀ b, keeps_list (f b)) →
    wp (try_catch (deleteWallet w ≫= f) (λ _, mret q)) (λ _ s', list_of s' = list_of s ∨ confirmed EmptyString DeleteOk p (list_of s) (list_of s')) s).
  { intros w Ew Et q f Hf. apply (list_then (λ l, l = list_of s ∨ confirmed EmptyString DeleteOk p (list_of s) l)); [|done].
    eapply wp_mono; [apply delete_list|]. intros _ s' [?|(x & El & El')]; [by left|right]. exists w, x. by split_and!. }
  destruct (dw_valid (p_delete p)) as [[]|], (dw_wallet (p_delete p)) as [w|] eqn:Ew; try (by left);
    (destruct (String.eqb_spec (dw_text (p_delete p)) (delete_phrase w)); cbn [negb]; [|by left]); unfold active; apply wp_bind, wp_gets;
    (apply (H w); [done|done|]); intros b; (apply keeps_bind; [apply update_keeps_list|done]).
Qed.


End S.

(** ** Example *)
Section Examples.
Import Concrete ConcreteText ConcreteCurve ConcreteBn ConcreteWallet.
Local Existing Instance zero_mem.
Local Instance every_mnemonic : Bip39Words := {| b39_validateMnemonic := λ _, Ok true |}.

Local Definition an_account : account := mkAccount "ecash:a" "wif" (Some "00"%string) (Some "02"%string).
Local Definition wallet_of (name mnemonic : string) : wallet := mkWallet mnemonic name an_account an_account (Some an_account) None.
Local Definition w1 : wallet := wallet_of "one" "seed 1".
Local Definition w2 : wallet := wallet_of "two" "seed 2".
Local Definition start : world :=
  mkWorld (mkDb (Some w1) (Some [w1; w2]) None None None (Ok None) []) (mkHook 0 5000 (Some w1) None JNull None ∅ None false false true) ∅ [] None.
Local Definition typed : page := handleWalletToDeleteInput "delete two" (showPopulatedDeleteWalletModal w2 initial).


End Examples.

End WalletFormsLaws.
