(* ===== verification/Websocket.v ===== *)
(** * The websocket and the notifications

    [processChronikWsMsg], [initializeWebsocket] and the checks for received coins and
    tokens of [cashtab/src/hooks/useWallet.js].  The connection is a parameter: what
    opening it gives, and how subscribing and unsubscribing change what it lists. *)

From stdpp Require Import base tactics list gmap numbers strings.
From Stdlib Require Import SpecFloat.
From S2P Require Import Prelude JsNumber JsFloat NodeBuffer Externals Encodings Crypto Curve Asm ECPair TransactionBuilder HDNode JsString BigNumber OpReturn WalletExternals WalletAddress Wallet Amounts TxBuilder CashMethods Send ChronikUtils History Validation.
From S2P Require Import App Accounts SavedWallets Settings Update.
Import CashMethods ChronikUtils History Validation Accounts SavedWallets Settings Update.
Open Scope Z_scope.

(** [chronik.ws]: the [readyState] of a new connection, how waiting for it to open ends
    and its [readyState] then; and [_subs] after [subscribe] and [unsubscribe], as the
    payloads of ['p2pkh'].  An array that was read before stays as it was. *)
Class WsClient := {
  ws_new : string → Z;
  ws_waitForOpen : string → promise Z;
  ws_subscribe : list string → string → list string;
  ws_unsubscribe : list string → string → list string;
}.

Class WsClientSpec `{!WsClient} : Prop := {
  elem_of_subscribe x subs h : x ∈ ws_subscribe subs h ↔ x ∈ subs ∨ x = h;
  elem_of_unsubscribe x subs h : x ∈ ws_unsubscribe subs h ↔ x ∈ subs ∧ x ≠ h;
}.

Module Websocket.
Section S.
Context {Mem : UninitMem} `{TF : !Typeforce} `{BI : !Bigi} `{EC : !Ecurve} `{HM : !CreateHmac} `{CH : !CreateHash}
  `{B58 : !Bs58check} `{WF : !Wif} `{CA : !Cashaddr} `{BN : !BigNumber} `{BS58 : !Bs58} `{B39 : !Bip39} `{EI : !Ecies} `{WS : !WsClient}.

(** ** A message *)

(** The cache with one more id whose value is [undefined]: the code does not tell it from
    one that is not there, but it is stored. *)
Definition undefined_entry (tokenId : string) (m : tokenInfoMap) : json :=
  JObject [("tokenInfoById"%string, JObject (map (λ p, (p.1, info_json p.2)) (map_to_list m) ++ [(tokenId, JUndefined)]))].

(** The metadata of a token that the cache has not; an exception is caught.  What chronik
    gives has no [tokenId]: [ti_tokenId] is empty then. *)
Definition cache_new_token (ck : chronik) (tokenInfoById : tokenInfoMap) (e : etokenFields) : app unit :=
  let incomingTokenId := sm_tokenId (ef_slpMeta e) in
  match tx_of ck incomingTokenId with
  | inr _ => mret tt
  | inl tokenGenesisInfo =>
      match ct_slpTxData tokenGenesisInfo with
      | None => mret tt
      | Some (_, None) =>
          setDefaultCashtabCache tokenInfoById;;
          spawn (setItem (put_cashtabCache (undefined_entry incomingTokenId tokenInfoById)));;
          setCashtabCache tokenInfoById
      | Some (_, Some genesisInfo) =>
          let tokenInfoByIdUpdatedForThisToken := <[incomingTokenId := genesisInfo]> tokenInfoById in
          spawn (writeTokenInfoByIdToCache tokenInfoByIdUpdatedForThisToken);;
          setCashtabCache tokenInfoByIdUpdatedForThisToken;;
          let eTokenAmountReceived := bn_shiftedBy (bn_of_string (ef_etokenAmount e)) (-1 * ti_decimals genesisInfo) in
          notify (ETokenReceived (ti_tokenTicker genesisInfo) (bn_toString eTokenAmountReceived) (ti_tokenName genesisInfo))
      end
  end.

(** [ck] and [tokenInfoById] are the client and the cache of the render that the function
    belongs to, as they are when the message comes. *)
Definition processChronikWsMsg (ck : chronik) (tokenInfoById : tokenInfoMap) (type txid : string) (wallet : wallet) (fiatPrice : option number) : app unit :=
  if negb (String.eqb type "AddedToMempool") then mret tt
  else
    setWalletRefreshInterval 10;;
    match tx_of ck txid with
    | inr _ => mret tt
    | inl incomingTxDetails =>
        parsedChronikTx ← await (settle (parseChronikTx incomingTxDetails wallet tokenInfoById));
        if px_incoming parsedChronikTx then
          match px_etoken parsedChronikTx with
          | Some e =>
              match ef_genesisInfo e with
              | Some i => notify (ETokenReceived (ti_tokenTicker i) (ef_etokenAmount e) (ti_tokenName i))
              | None => cache_new_token ck tokenInfoById e
              end
          | None => notify (XecReceivedWebsocket (px_xecAmount parsedChronikTx) fiatPrice)
          end
        else mret tt
    end.

(** ** The connection *)

(** Every hash of the wallet is subscribed to. *)
Definition subscriptions_match (subs hash160Array : list string) : bool :=
  negb (len subs =? 0) && forallb (λ h, existsb (String.eqb h) subs) hash160Array.

Definition with_subs (subs : list string) (ws : websocket) : websocket := mkWs (ws_url ws) (ws_readyState ws) subs (ws_listener ws).

(** What follows the opening of the connection. *)
Definition subscribe_wallet (ws : websocket) (hash160Array : list string) : app unit :=
  let previousWebsocketSubscriptions := ws_subs ws in
  if subscriptions_match previousWebsocketSubscriptions hash160Array then setChronikWebsocket (Some ws)
  else
    let subs := fold_left ws_unsubscribe previousWebsocketSubscriptions (ws_subs ws) in
    let subs := fold_left ws_subscribe hash160Array subs in
    setChronikWebsocket (Some (with_subs subs ws)).

(** The connection to use: a new one, which is in the state while it opens, or the one of
    the state with a new listener. *)
Definition connect (hasChronikUrlChanged : bool) (url : string) (wallet : wallet) (fiatPrice : option number) : app websocket :=
  current ← gets (λ s, h_chronikWebsocket (w_hook s));
  let listener := (Some wallet, fiatPrice) in
  match current, hasChronikUrlChanged with
  | Some ws, false => mret (mkWs (ws_url ws) (ws_readyState ws) (ws_subs ws) listener)
  | _, _ =>
      setChronikWebsocket (Some (mkWs url (ws_new url) [] listener));;
      readyState ← await (ws_waitForOpen url);
      mret (mkWs url readyState [] listener)
  end.

(** [hasChronikUrlChanged] is [chronik !== previousChronik], and [url] that of [chronik]. *)
Definition initializeWebsocket (hasChronikUrlChanged : bool) (url : string) (wallet : option wallet) (fiatPrice : option number) : app unit :=
  match wallet, wallet ≫= getHashArrayFromWallet with
  | Some wallet, Some hash160Array =>
      ws ← connect hasChronikUrlChanged url wallet fiatPrice;
      subscribe_wallet ws hash160Array
  | _, _ => setChronikWebsocket None
  end.

(** [onConnect], which the client calls when a connection opens. *)
Definition onConnect : app unit := setWalletRefreshInterval Currency.websocketConnectedRefreshInterval.

(** ** Received coins and tokens *)

(** The checks that every render makes, on the values of this render and the previous one. *)
Definition notify_xec (previousBalances balances : option balances) : app unit :=
  h ← gets w_hook;
  match previousBalances, balances with
  | Some prev, Some cur =>
      if negb (isActiveWebsocket (h_chronikWebsocket h)) &&
         bn_gt (bn_minus (bn_of_string (totalBalance cur)) (bn_of_string (totalBalance prev))) (bn_of_Z 0) && h_hasUpdated h
      then notify (XecReceived cur prev (h_fiatPrice h)) else mret tt
  | _, _ => mret tt
  end.

Definition notify_token (t : token) (qty : string) : app unit :=
  match t_info t with
  | Some i => notify (ETokenReceived (ti_tokenTicker i) qty (ti_tokenName i))
  | None => throw (TypeError "Cannot read properties of undefined")
  end.

(** The first token whose id is not among the previous ones; the quantity of the text is
    compared as a number. *)
Definition notify_new_token (tokens previousTokens : list token) : app unit :=
  let is_new t := negb (existsb (λ p, String.eqb (t_tokenId p) (t_tokenId t)) previousTokens) in
  match List.find is_new tokens with
  | None => throw (TypeError "Cannot read properties of undefined")
  | Some t =>
      match t_info t with
      | None => throw (TypeError "Cannot read properties of undefined")
      | Some _ => if SFltb (num_of_Z 0) (bn_toNumber (bn_of_string (t_balance t))) then notify_token t (t_balance t) else mret tt
      end
  end.

Fixpoint notify_increases (tokens previousTokens : list token) : app unit :=
  match tokens, previousTokens with
  | t :: tokens, p :: previousTokens =>
      let new := bn_of_string (t_balance t) in
      let old := bn_of_string (t_balance p) in
      if bn_gt new old then
        if negb (String.eqb (t_tokenId p) (t_tokenId t)) then mret tt
        else notify_token t (bn_toString (bn_minus new old));; notify_increases tokens previousTokens
      else notify_increases tokens previousTokens
  | _, _ => mret tt
  end.

(** The first token of a list is there and has a balance. *)
Definition has_balance (tokens : option (list token)) : bool :=
  match tokens ≫= head with Some t => negb (OpReturn.is_empty (t_balance t)) | None => false end.

Definition notify_tokens (previousTokens tokens : option (list token)) : app unit :=
  h ← gets w_hook;
  if negb (isActiveWebsocket (h_chronikWebsocket h)) && has_balance tokens && has_balance previousTokens && h_hasUpdated h then
    let tokens := default [] tokens in
    let previousTokens := default [] previousTokens in
    if len previousTokens <? len tokens then notify_new_token tokens previousTokens
    else notify_increases tokens previousTokens
  else mret tt.

End S.
End Websocket.

(** * What the wallet listens to and what it tells

    The subscriptions follow the wallet; an increase of a balance is announced with its
    amount; and two ways in which the handlers go wrong: a run that waits for the
    connection while the wallet changes, and an entry of the cache without its id. *)

From Stdlib Require Import QArith.
From stdpp Require Import pretty.
Import CashMethods ChronikUtils History Validation Accounts SavedWallets Settings SettingsLaws Update Websocket.
Open Scope Z_scope.
Module WebsocketLaws.
Section S.
Context {Mem : UninitMem} `{TF : !Typeforce} `{BI : !Bigi} `{EC : !Ecurve} `{HM : !CreateHmac} `{CH : !CreateHash}
  `{B58 : !Bs58check} `{WF : !Wif} `{CA : !Cashaddr} `{BN : !BigNumber} `{BS58 : !Bs58} `{B39 : !Bip39} `{EI : !Ecies}.
Implicit Type (s : world) (w : wallet).

(** ** Subscriptions *)

Section Subscriptions.
Context `{WS : !WsClient} `{WSS : !WsClientSpec}.

Definition socket_of s : option websocket := h_chronikWebsocket (w_hook s).
(** The subscriptions are the hashes. *)
Definition listens (ws : websocket) (hashes : list string) : Prop := ∀ h, h ∈ ws_subs ws ↔ h ∈ hashes.

Lemma elem_of_unsubscribe_all x l subs : x ∈ fold_left ws_unsubscribe l subs ↔ x ∈ subs ∧ x ∉ l.
Proof. revert subs. induction l as [|h l IH]; intros subs; cbn [fold_left]; [set_solver|]. rewrite IH, elem_of_unsubscribe. set_solver. Qed.

Lemma elem_of_subscribe_all x l subs : x ∈ fold_left ws_subscribe l subs ↔ x ∈ subs ∨ x ∈ l.
Proof. revert subs. induction l as [|h l IH]; intros subs; cbn [fold_left]; [set_solver|]. rewrite IH, elem_of_subscribe. set_solver. Qed.

Lemma match_all subs hashes : subscriptions_match subs hashes = true → ∀ h, h ∈ hashes → h ∈ subs.
Proof.
  unfold subscriptions_match. intros [_ H]%andb_prop h Hh. rewrite forallb_forall in H. apply list_elem_of_In in Hh. specialize (H h Hh).
  apply existsb_exists in H as (x & Hx & ->%String.eqb_eq). by apply list_elem_of_In.
Qed.

Lemma match_some subs hashes h : h ∈ hashes → h ∉ subs → subscriptions_match subs hashes = false.
Proof. intros Hh Hn. destruct (subscriptions_match subs hashes) eqn:E; [|done]. by destruct Hn; eapply match_all. Qed.

(** Nothing but the hashes, when they are all subscribed to. *)
Definition no_more (subs hashes : list string) : Prop := (∀ h, h ∈ hashes → h ∈ subs) → ∀ h, h ∈ subs → h ∈ hashes.

Lemma subscribe_listens ws hashes s : no_more (ws_subs ws) hashes → wp (subscribe_wallet ws hashes) (λ p s', p = Resolved tt ∧
  ∃ ws', socket_of s' = Some ws' ∧ listens ws' hashes ∧ ws_listener ws' = ws_listener ws ∧ ws_url ws' = ws_url ws ∧ ws_readyState ws' = ws_readyState ws) s.
Proof.
  intros Hm. unfold subscribe_wallet. destruct (subscriptions_match _ _) eqn:E; wp_cases; (split; [done|]); eexists; (split; [done|]); (split; [|done]).
  - pose proof (match_all _ _ E) as Ha. intros h. split; [by apply Hm|apply Ha].
  - intros h. cbn. rewrite elem_of_subscribe_all, elem_of_unsubscribe_all. naive_solver.
Qed.

(** The connection that the effect uses, and whether it has to be opened. *)
Definition reused (changed : bool) s : option websocket := if changed then None else socket_of s.

Lemma connect_gives changed url w price s : wp (connect changed url w price) (λ p s',
  match p with
  | Resolved ws => ws_listener ws = (Some w, price) ∧ ws_url ws = from_option ws_url url (reused changed s) ∧ ws_subs ws = from_option ws_subs [] (reused changed s)
  | _ => socket_of s' = Some (mkWs url (ws_new url) [] (Some w, price)) ∧ reused changed s = None ∧ ∀ r, ws_waitForOpen url ≠ Resolved r
  end) s.
Proof.
  unfold connect, reused. autorewrite with wp. change (h_chronikWebsocket (w_hook s)) with (socket_of s).
  destruct (socket_of s), changed; wp_cases; try done; by destruct (ws_waitForOpen url); autorewrite with wp.
Qed.


(** A run that waits while the wallet changes.  The effect for a wallet [w1] waits for
    its connection to open; the one for [w2] runs and subscribes to its hashes.  When
    the first goes on it subscribes to the hashes of [w1] again: the connection listens
    to [w1] and hands what it hears to the listener for [w2]. *)
Theorem late_subscription url w1 w2 price l1 l2 ws s : getHashArrayFromWallet w1 = Some l1 → getHashArrayFromWallet w2 = Some l2 →
  socket_of s = Some ws → ws_subs ws = [] → (∃ h, h ∈ l1 ∧ h ∉ l2) →
  wp (initializeWebsocket false url (Some w2) price) (λ p s1, p = Resolved tt ∧ ∃ ws1, socket_of s1 = Some ws1 ∧ listens ws1 l2 ∧
    wp (subscribe_wallet ws1 l1) (λ q s2, q = Resolved tt ∧ ∃ ws2, socket_of s2 = Some ws2 ∧ listens ws2 l1 ∧ ws_listener ws2 = (Some w2, price)) s1) s.
Proof.
  intros E1 E2 Es En (h & Hh1 & Hh2). unfold initializeWebsocket. change (Some w2 ≫= getHashArrayFromWallet) with (getHashArrayFromWallet w2). rewrite E2.
  unfold connect. autorewrite with wp. unfold socket_of in Es. rewrite Es. autorewrite with wp. rewrite En.
  eapply wp_mono; [apply subscribe_listens; intros H x Hx; by apply not_elem_of_nil in Hx|].
  intros p s1 (-> & ws1 & H1 & H2 & H3 & H4 & H5). split; [done|]. exists ws1. split; [done|]. split; [done|].
  eapply wp_mono; [apply subscribe_listens; intros H; by destruct Hh2; apply H2, H|].
  intros q s2 (-> & ws2 & K1 & K2 & K3 & _). split; [done|]. exists ws2. by rewrite K3, H3.
Qed.

End Subscriptions.

(** ** Notifications *)

Section Notifications.
Context `{BNS : !BigNumberSpec}.

(** The value of a token, for a reading of the texts of balances. *)
Variable value : string → Q.
Definition readable_token (t : token) : Prop := bn_is (bn_of_string (t_balance t)) (value (t_balance t)).

(** What is told of a token: its name and the difference. *)
Definition announces (tp : token * token) (n : notification) : Prop :=
  ∃ i qty, t_info tp.1 = Some i ∧ n = ETokenReceived (ti_tokenTicker i) qty (ti_tokenName i) ∧
    bn_is (bn_of_string qty) (value (t_balance tp.1) - value (t_balance tp.2)).
Definition increased (tp : token * token) : bool := bn_gt (bn_of_string (t_balance tp.1)) (bn_of_string (t_balance tp.2)).

Lemma increased_spec tp : readable_token tp.1 → readable_token tp.2 → increased tp = true ↔ (value (t_balance tp.2) < value (t_balance tp.1))%Q.
Proof. intros H1 H2. by apply bn_lt_is. Qed.

Lemma increases_announced tokens prev s : Forall2 (λ t p, t_tokenId t = t_tokenId p ∧ readable_token t ∧ readable_token p ∧ t_info t ≠ None) tokens prev →
  wp (notify_increases tokens prev) (λ p s', p = Resolved tt ∧
    ∃ ns, w_notifications s' = w_notifications s ++ ns ∧ Forall2 announces (List.filter increased (zip tokens prev)) ns) s.
Proof.
  intros H. revert s. induction H as [|t p tokens prev (Hi & Ht & Hp & Hn) _ IH]; intros s; cbn [notify_increases zip zip_with List.filter].
  { autorewrite with wp. split; [done|]. exists []. by rewrite app_nil_r. }
  unfold increased at 1. cbn [fst snd]. destruct (bn_gt _ _); [|apply IH]. rewrite (proj2 (String.eqb_eq _ _)) by done. cbn [negb]. unfold notify_token.
  destruct (t_info t) as [i|] eqn:Ei; [|done]. wp_cases. eapply wp_mono; [apply IH|]. intros q s' (-> & ns & E & Hns). split; [done|].
  eexists (_ :: ns). split; [rewrite E; cbn; by rewrite <- app_assoc|]. constructor; [|done]. eexists i, _. split; [done|]. split; [done|].
  apply bn_of_toString. by apply bn_minus_is.
Qed.

(** What is received is told.  When no websocket is live and the wallet was updated, a
    render that follows another with the same tokens tells of each token whose balance
    is greater than before, in order, and of no other, with the difference; with a live
    websocket it tells nothing. *)
Theorem increases_told tokens prev s : h_hasUpdated (w_hook s) = true → has_balance (Some tokens) = true → has_balance (Some prev) = true →
  Forall2 (λ t p, t_tokenId t = t_tokenId p ∧ readable_token t ∧ readable_token p ∧ t_info t ≠ None) tokens prev →
  wp (notify_tokens (Some prev) (Some tokens)) (λ p s', p = Resolved tt ∧
    ∃ ns, w_notifications s' = w_notifications s ++ ns ∧
      Forall2 announces (if isActiveWebsocket (h_chronikWebsocket (w_hook s)) then [] else List.filter increased (zip tokens prev)) ns) s ∧
  (∀ tp, readable_token tp.1 → readable_token tp.2 → increased tp = true ↔ (value (t_balance tp.2) < value (t_balance tp.1))%Q).
Proof.
  intros Hu H1 H2 H. split; [|by apply increased_spec]. unfold notify_tokens. autorewrite with wp. rewrite H1, H2, Hu. destruct (isActiveWebsocket _); cbn [negb andb].
  - autorewrite with wp. split; [done|]. exists []. by rewrite app_nil_r.
  - cbn [default from_option id]. unfold len. rewrite (Forall2_length _ _ _ H), Z.ltb_irrefl. by apply increases_announced.
Qed.

End Notifications.

(** ** The cache after a message *)

(** A token that the websocket tells of empties the cache.  A message for a transaction
    with a token that is not in the cache adds the metadata of chronik, which has no
    [tokenId]; the token is announced, but what is stored is not a valid cache, and the
    next start of the page, with its empty default, loads an empty one. *)
Theorem message_spoils_cache ck m txid tx w price parsed e info g s : sound s → tx_of ck txid = inl tx → parseChronikTx tx w m = Ok parsed → px_incoming parsed = true →
  px_etoken parsed = Some e → ef_genesisInfo e = None → tx_of ck (sm_tokenId (ef_slpMeta e)) = inl g → ct_slpTxData g ≫= snd = Some info → ti_tokenId info = EmptyString →
  wp (processChronikWsMsg ck m "AddedToMempool" txid w price) (λ p s1, p = Resolved tt ∧ h_cashtabCache (w_hook s1) = <[sm_tokenId (ef_slpMeta e) := info]> m ∧
    (∃ qty, w_notifications s1 = w_notifications s ++ [ETokenReceived (ti_tokenTicker info) qty (ti_tokenName info)]) ∧
    ∀ s2, sound s2 → db_cashtabCache (w_db s2) = db_cashtabCache (w_db s1) → w_defaultCashtabCache s2 = ∅ →
      wp loadCashtabCache (λ q s3, q = Resolved ∅ ∧ h_cashtabCache (w_hook s3) = ∅) s2) s.
Proof.
  intros Hs Et Ep Ei Ee Eg Et2 Eg2 Ein. unfold processChronikWsMsg. rewrite String.eqb_refl. cbn [negb]. rewrite Et, Ep. cbn [settle]. wp_sound. rewrite Ei, Ee, Eg.
  unfold cache_new_token. rewrite Et2. destruct (ct_slpTxData g) as [[meta [i|]]|]; try done. injection Eg2 as ->.
  unfold writeTokenInfoByIdToCache. wp_sound. split; [done|]. split; [done|]. split; [by eexists|]. intros s2 H2 Ed E0.
  set (m' := <[sm_tokenId (ef_slpMeta e) := info]> m) in *. assert (Ed' : db_cashtabCache (w_db s2) = Some (cache_json m')) by exact Ed. unfold loadCashtabCache. wp_sound. change (db_cashtabCache (db_next (w_db s2))) with (db_cashtabCache (w_db s2)).
  rewrite Ed', cache_valid. cbn [settle]. autorewrite with wp.
  assert (Hb : forallb entry_ok (map_to_list m') = false).
  { apply not_true_iff_false. rewrite forallb_forall. intros H. specialize (H (sm_tokenId (ef_slpMeta e), info)). unfold entry_ok in H. cbn [fst snd] in H. rewrite Ein, andb_false_r in H.
    discriminate H. apply list_elem_of_In, elem_of_map_to_list. apply lookup_insert_eq. }
  rewrite Hb. change (w_defaultCashtabCache (tick s2)) with (w_defaultCashtabCache s2). rewrite E0. wp_cases. done.
Qed.

End S.

(** ** Examples *)

Section Examples.
Import Concrete ConcreteText ConcreteCurve ConcreteBn ConcreteWallet.
Local Existing Instance zero_mem.

Local Instance a_client : WsClient := {|
  ws_new _ := 0; ws_waitForOpen _ := Resolved 1; ws_subscribe subs h := subs ++ [h]; ws_unsubscribe subs h := filter (λ x, x ≠ h) subs |}.
Local Instance a_client_spec : WsClientSpec.
Proof. split; cbn; intros x subs h; [by rewrite elem_of_app, list_elem_of_singleton|]. rewrite list_elem_of_filter. tauto. Qed.

Local Definition an_account (h : string) : account := mkAccount "ecash:a" "wif" (Some h) (Some "02"%string).
Local Definition w1 : wallet := mkWallet "seed 1" "one" (an_account "11") (an_account "12") (Some (an_account "13")) None.
Local Definition w2 : wallet := mkWallet "seed 2" "two" (an_account "21") (an_account "22") (Some (an_account "23")) None.
Local Definition world_of (ws : option websocket) (updated : bool) : world :=
  mkWorld (mkDb (Some w1) (Some [w1; w2]) None None None (Ok None) []) (mkHook 0 5000 None ws JNull None ∅ None false updated true) ∅ [] None.


Local Definition opening : websocket := mkWs "u" 0 [] (Some w1, None).
Lemma late_subscription_witness : ∃ ws1, socket_of (initializeWebsocket false "u" (Some w2) None (world_of (Some opening) true)).1 = Some ws1 ∧
  (subscribe_wallet ws1 ["11"; "12"; "13"]%string (initializeWebsocket false "u" (Some w2) None (world_of (Some opening) true)).1).2 = Resolved tt.
Proof.
  destruct (late_subscription "u" w1 w2 None ["11"; "12"; "13"]%string ["21"; "22"; "23"]%string opening (world_of (Some opening) true)) as (_ & ws1 & H1 & _ & H2 & _).
  - reflexivity.
  - reflexivity.
  - reflexivity.
  - reflexivity.
  - exists "11"%string. split; [left|]. apply (bool_decide_unpack _). reflexivity.
  - exists ws1. split; [exact H1|exact H2].
Defined.

Local Definition an_info : tokenInfo := mkTokenInfo "T" "Token" "u" "h" 0 EmptyString.
Local Definition amount (n : Z) : token := mkToken "aa" (pretty n) (Some an_info).
Local Definition value_of (s : string) : Q := if String.eqb s "7" then inject_Z 7 else inject_Z 5.

Lemma increases_told_witness : ∃ ns, w_notifications (notify_tokens (Some [amount 5]) (Some [amount 7]) (world_of None true)).1 = ns ∧ length ns = 1%nat.
Proof.
  destruct (increases_told value_of [amount 7] [amount 5] (world_of None true)) as [(_ & ns & E & F) _].
  - reflexivity.
  - reflexivity.
  - reflexivity.
  - constructor; [|constructor]. split; [reflexivity|]. split; [exact (bn_of_string_int 7)|]. split; [exact (bn_of_string_int 5)|discriminate].
  - exists ns. split; [exact E|]. symmetry. exact (Forall2_length _ _ _ F).
Defined.

(** Five tokens at the third hash. *)
Local Definition token_tx : chronikTx :=
  mkChronikTx "cc" [] [mkChronikOutput "546" "76a9141388ac" (Some (mkSlpToken "5" false))] None 0 (Some (mkSlpMeta "aa" "SEND", None)).
Local Definition genesis_tx : chronikTx := mkChronikTx "aa" [] [] None 0 (Some (mkSlpMeta "aa" "GENESIS", Some an_info)).
Local Definition a_chronik : chronik :=
  mkChronik (λ _ _, inl None) (λ _ _ _, inl []) (λ _, inl []) (λ i, inl (if String.eqb i "cc" then token_tx else genesis_tx)) (λ _, inr (mkFailure (Error "none") None)).

Local Definition after_message : world := (processChronikWsMsg a_chronik ∅ "AddedToMempool" "cc" w1 None (world_of None true)).1.
Local Definition next_start : world := mkWorld (w_db after_message) (w_hook (world_of None false)) ∅ [] None.

Lemma message_spoils_cache_witness : (loadCashtabCache next_start).2 = Resolved ∅ ∧ h_cashtabCache (w_hook after_message) = {["aa"%string := an_info]}.
Proof.
  destruct (message_spoils_cache a_chronik ∅ "cc" token_tx w1 None
    (mkParsed true "..546" EmptyString (Some (mkEtoken "5" false (mkSlpMeta "aa" "SEND") None)) false (Some EmptyString) [] false false false EmptyString)
    (mkEtoken "5" false (mkSlpMeta "aa" "SEND") None) an_info genesis_tx (world_of None true)) as (_ & H1 & _ & H2); try reflexivity.
  split; [|exact H1]. refine (proj1 (H2 next_start _ _ _)); reflexivity.
Defined.

End Examples.
End WebsocketLaws.
