(* ===== verification/SendForm.v ===== *)
(** * The page that sends coins

    The state and the handlers of [cashtab/src/components/Send/Send.js], with
    [parseAddressForParams] of [Ticker.js] and [isValidXecSendAmount] of [validation.js].
    A handler is a function of the state of the page: the setters of React take effect in
    the order in which they are called.  What is drawn is not modelled, but for the
    conditions under which a control can be used. *)

From stdpp Require Import base tactics list gmap numbers strings.
From Stdlib Require Import Ascii.
From S2P Require Import Prelude JsNumber JsFloat NodeBuffer Externals Encodings Crypto Curve Asm ECPair TransactionBuilder HDNode JsString JsDecimal BigNumber OpReturn WalletExternals WalletAddress Wallet Amounts TxBuilder CashMethods Send ChronikUtils History Validation App Accounts.
Import CashMethods Validation.
Open Scope Z_scope.

Module SendForm.
Section S.
Context {Mem : UninitMem} `{TF : !Typeforce} `{VU : !VarUint} `{CH : !CreateHash} `{B66 : !Bip66}
  `{B58 : !Bs58check} `{B32 : !Bech32} `{BI : !Bigi} `{EC : !Ecurve} `{HM : !CreateHmac} `{WF : !Wif}
  `{CA : !Cashaddr} `{BN : !BigNumber} `{SLP : !SlpMdm} `{BS58 : !Bs58} `{EI : !Ecies}.

(** ** Addresses with parameters *)

Record addressInfo := mkInfo { ai_address : string; ai_queryString : option string; ai_amount : option string }.

(** A [BigNumber] of any number is made without an exception. *)
Definition parseAddressForParams (addressString : string) : addressInfo :=
  let paramCheck := split_on "?" addressString in
  let cleanAddress := default EmptyString (paramCheck !! 0%nat) in
  let queryString := paramCheck !! 1%nat in
  let amount :=
    match queryString with
    | Some query => (λ v, bn_toString (bn_of_number (parseFloat v))) <$> params_get (URLSearchParams query) "amount"
    | None => None
    end in
  mkInfo cleanAddress queryString amount.

Definition isValidXecSendAmount (xecSendAmount : option string) : bool :=
  match xecSendAmount with
  | None => false
  | Some s =>
      negb (num_isNaN (parseFloat s)) &&
      num_leb (bn_toNumber (Amounts.fromSatoshisToXec (bn_of_Z Currency.dustSats) Currency.cashDecimals)) (parseFloat s)
  end.

(** ** State *)

(** The fields of [formData]; one that is not set is [undefined]. *)
Record formData := mkForm { f_value : json; f_address : json; f_airdropTokenId : json }.

(** An error is a text, or [None] for [false].  [s_opReturnMsg] is [false] at first;
    [s_loading] is what was last given to [passLoadingStatus]. *)
Record sendState := mkSend {
  s_isOneToManyXECSend : bool;
  s_opReturnMsg : json;
  s_isEncryptedOptionalOpReturnMsg : bool;
  s_formData : formData;
  s_queryStringText : option string;
  s_sendBchAddressError : option string;
  s_sendBchAmountError : option string;
  s_selectedCurrency : string;
  s_txInfoFromUrl : option (gmap string (option string));
  s_isModalVisible : bool;
  s_airdropFlag : bool;
  s_loading : bool;
}.

Definition initial : sendState :=
  mkSend false (JBool false) false (mkForm (JString EmptyString) (JString EmptyString) (JString EmptyString)) None None None Currency.ticker None false false false.

Definition setIsOneToManyXECSend v s := mkSend v (s_opReturnMsg s) (s_isEncryptedOptionalOpReturnMsg s) (s_formData s) (s_queryStringText s) (s_sendBchAddressError s) (s_sendBchAmountError s) (s_selectedCurrency s) (s_txInfoFromUrl s) (s_isModalVisible s) (s_airdropFlag s) (s_loading s).
Definition setOpReturnMsg v s := mkSend (s_isOneToManyXECSend s) v (s_isEncryptedOptionalOpReturnMsg s) (s_formData s) (s_queryStringText s) (s_sendBchAddressError s) (s_sendBchAmountError s) (s_selectedCurrency s) (s_txInfoFromUrl s) (s_isModalVisible s) (s_airdropFlag s) (s_loading s).
Definition setIsEncryptedOptionalOpReturnMsg v s := mkSend (s_isOneToManyXECSend s) (s_opReturnMsg s) v (s_formData s) (s_queryStringText s) (s_sendBchAddressError s) (s_sendBchAmountError s) (s_selectedCurrency s) (s_txInfoFromUrl s) (s_isModalVisible s) (s_airdropFlag s) (s_loading s).
Definition setFormData v s := mkSend (s_isOneToManyXECSend s) (s_opReturnMsg s) (s_isEncryptedOptionalOpReturnMsg s) v (s_queryStringText s) (s_sendBchAddressError s) (s_sendBchAmountError s) (s_selectedCurrency s) (s_txInfoFromUrl s) (s_isModalVisible s) (s_airdropFlag s) (s_loading s).
Definition setQueryStringText v s := mkSend (s_isOneToManyXECSend s) (s_opReturnMsg s) (s_isEncryptedOptionalOpReturnMsg s) (s_formData s) v (s_sendBchAddressError s) (s_sendBchAmountError s) (s_selectedCurrency s) (s_txInfoFromUrl s) (s_isModalVisible s) (s_airdropFlag s) (s_loading s).
Definition setSendBchAddressError v s := mkSend (s_isOneToManyXECSend s) (s_opReturnMsg s) (s_isEncryptedOptionalOpReturnMsg s) (s_formData s) (s_queryStringText s) v (s_sendBchAmountError s) (s_selectedCurrency s) (s_txInfoFromUrl s) (s_isModalVisible s) (s_airdropFlag s) (s_loading s).
Definition setSendBchAmountError v s := mkSend (s_isOneToManyXECSend s) (s_opReturnMsg s) (s_isEncryptedOptionalOpReturnMsg s) (s_formData s) (s_queryStringText s) (s_sendBchAddressError s) v (s_selectedCurrency s) (s_txInfoFromUrl s) (s_isModalVisible s) (s_airdropFlag s) (s_loading s).
Definition setSelectedCurrency v s := mkSend (s_isOneToManyXECSend s) (s_opReturnMsg s) (s_isEncryptedOptionalOpReturnMsg s) (s_formData s) (s_queryStringText s) (s_sendBchAddressError s) (s_sendBchAmountError s) v (s_txInfoFromUrl s) (s_isModalVisible s) (s_airdropFlag s) (s_loading s).
Definition setTxInfoFromUrl v s := mkSend (s_isOneToManyXECSend s) (s_opReturnMsg s) (s_isEncryptedOptionalOpReturnMsg s) (s_formData s) (s_queryStringText s) (s_sendBchAddressError s) (s_sendBchAmountError s) (s_selectedCurrency s) v (s_isModalVisible s) (s_airdropFlag s) (s_loading s).
Definition setIsModalVisible v s := mkSend (s_isOneToManyXECSend s) (s_opReturnMsg s) (s_isEncryptedOptionalOpReturnMsg s) (s_formData s) (s_queryStringText s) (s_sendBchAddressError s) (s_sendBchAmountError s) (s_selectedCurrency s) (s_txInfoFromUrl s) v (s_airdropFlag s) (s_loading s).
Definition setAirdropFlag v s := mkSend (s_isOneToManyXECSend s) (s_opReturnMsg s) (s_isEncryptedOptionalOpReturnMsg s) (s_formData s) (s_queryStringText s) (s_sendBchAddressError s) (s_sendBchAmountError s) (s_selectedCurrency s) (s_txInfoFromUrl s) (s_isModalVisible s) v (s_loading s).
Definition passLoadingStatus v s := mkSend (s_isOneToManyXECSend s) (s_opReturnMsg s) (s_isEncryptedOptionalOpReturnMsg s) (s_formData s) (s_queryStringText s) (s_sendBchAddressError s) (s_sendBchAmountError s) (s_selectedCurrency s) (s_txInfoFromUrl s) (s_isModalVisible s) (s_airdropFlag s) v.

Definition with_value (v : json) (f : formData) : formData := mkForm v (f_address f) (f_airdropTokenId f).
Definition with_address (v : json) (f : formData) : formData := mkForm (f_value f) v (f_airdropTokenId f).

Definition updateForm (f : formData → formData) (s : sendState) : sendState := setFormData (f (s_formData s)) s.

(** ** Context *)

(** What the page gets from [useWallet]: [c_fiatPrice] is the text of the price, or [None]
    for [null]; [c_sendModal] is the setting of that name. *)
Record context := mkContext {
  c_chronik : chronik;
  c_wallet : wallet;
  c_fiatPrice : option string;
  c_apiError : bool;
  c_sendModal : bool;
}.

Definition totalBalance_of (c : context) : string :=
  match ws_balances (Accounts.getWalletState (Some (c_wallet c))) with Some b => totalBalance b | None => EmptyString end.
Definition nonSlpUtxos_of (c : context) : option (list utxo) := ws_nonSlpUtxos (Accounts.getWalletState (Some (c_wallet c))).
(** [!balances.totalBalance]: the balance of a wallet without a state is the number 0. *)
Definition no_balance (c : context) : bool := CashMethods.missing (w_state (c_wallet c)) || OpReturn.is_empty (totalBalance_of c).

(** What is falsy among the values of a field. *)
Definition falsy (v : json) : bool :=
  match v with
  | JUndefined | JNull | JBool false | JNumber 0 => true
  | JDouble x => negb (num_truthy x)
  | JString s => OpReturn.is_empty s
  | _ => false
  end.

(** ** Input *)

Definition handleBchAmountChange (c : context) (value : string) (s : sendState) : sendState :=
  let error := shouldRejectAmountInput value (s_selectedCurrency s) (default "null"%string (c_fiatPrice c)) (totalBalance_of c) in
  updateForm (with_value (JString value)) (setSendBchAmountError error s).

(** [selectedCurrency] and [formData] are those of the render: the call of
    [handleBchAmountChange] sees the currency from before [setSelectedCurrency]. *)
Definition handleAddressChange (c : context) (value : string) (s0 : sendState) : sendState :=
  let info := parseAddressForParams value in
  let error :=
    if WalletAddress.isValidXecAddress (ai_address info) then None
    else if WalletAddress.isValidEtokenAddress (ai_address info) then Some "eToken addresses are not supported for XEC sends"%string
    else Some "Invalid address"%string in
  let s := setSendBchAddressError error (setQueryStringText (ai_queryString info) s0) in
  let s :=
    match ai_amount info with
    | Some amount =>
        let error := shouldRejectAmountInput amount (s_selectedCurrency s0) (default "null"%string (c_fiatPrice c)) (totalBalance_of c) in
        let s := setSelectedCurrency Currency.ticker s in
        let s := updateForm (with_value (JString amount)) (setSendBchAmountError error s) in
        setFormData (with_value (JString amount) (s_formData s0)) s
    | None => s
    end in
  updateForm (with_address (JString value)) s.

(** The error of the first row that has one. *)
Fixpoint row_errors (rows : list string) : option string :=
  match rows with
  | [] => None
  | row :: rows =>
      if OpReturn.is_empty (trim row) then Some "Empty spaces and rows must be removed"%string
      else if negb (WalletAddress.isValidXecAddress (default EmptyString (split_on "," row !! 0%nat))) then Some "Ensure each XEC address is valid"%string
      else if negb (isValidXecSendAmount (split_on "," row !! 1%nat)) then Some "Ensure each tx is at least 5.5 XEC"%string
      else row_errors rows
  end.

Definition multi_error (value : string) : option string :=
  if OpReturn.is_empty value then Some "Input must not be blank"%string else row_errors (split_on newline value).

Definition handleMultiAddressChange (value : string) (s : sendState) : sendState :=
  updateForm (with_address (JString value)) (setSendBchAddressError (multi_error value) s).

Definition handleSelectedCurrencyChange (e : string) (s : sendState) : sendState :=
  updateForm (with_value (JString EmptyString)) (setSelectedCurrency e s).

(** A value of [0] is the number.  An exception, of a wallet without outputs, is caught. *)
Definition onMax (c : context) (s : sendState) : sendState :=
  let s' := setSelectedCurrency Currency.ticker (setSendBchAmountError None s) in
  match nonSlpUtxos_of c with
  | None => s'
  | Some nonSlpUtxos =>
      let txFeeSats := Amounts.calcFee nonSlpUtxos 2 Currency.defaultFee in
      let txFeeBch := num_div txFeeSats (num_of_Z (10 ^ Currency.cashDecimals)) in
      let rest := num_sub (Number (totalBalance_of c)) txFeeBch in
      let value := if num_leb (num_of_Z 0) rest then JString (default EmptyString (toFixed rest Currency.cashDecimals)) else JNumber 0 in
      setFormData (with_value value (s_formData s)) s'
  end.

(** The two switches; the second one is disabled while the first one is on. *)
Definition toggleOneToMany (s : sendState) : sendState :=
  setIsEncryptedOptionalOpReturnMsg false (setIsOneToManyXECSend (negb (s_isOneToManyXECSend s)) s).
Definition togglePrivate (s : sendState) : sendState :=
  setIsOneToManyXECSend false (setIsEncryptedOptionalOpReturnMsg (negb (s_isEncryptedOptionalOpReturnMsg s)) s).

(** ** Opening the page *)

(** [location.state] and [window.location.hash]; an empty hash is [None]. *)
Record location := mkLocation {
  l_replyAddress : option string;
  l_contactSend : option string;
  l_airdropRecipients : option string;
  l_airdropTokenId : option string;
  l_hash : option string;
}.

Definition populateFormsFromUrl (txInfo : gmap string (option string)) (s : sendState) : sendState :=
  match txInfo !! "address"%string, txInfo !! "value"%string with
  | Some (Some address), Some (Some value) =>
      if OpReturn.is_empty address || OpReturn.is_empty value then s
      else setFormData (mkForm (JString value) (JString address) JUndefined) s
  | _, _ => s
  end.

(** A field of the object for each [key=value]; the last one with a key counts. *)
Definition read_txInfo (query : string) : gmap string (option string) :=
  fold_left (λ m kv, <[default EmptyString (split_on "=" kv !! 0%nat) := split_on "=" kv !! 1%nat]> m) (split_on "&" query) ∅.

(** A field that is missing or empty is falsy. *)
Definition filled (o : option string) : option string := match o with Some s => if OpReturn.is_empty s then None else Some s | None => None end.

Definition from_reply (l : location) (s : sendState) : sendState :=
  match filled (l_replyAddress l) with
  | Some a => setFormData (mkForm (JString (bn_toString (Amounts.fromSatoshisToXec (bn_of_Z Currency.dustSats) Currency.cashDecimals))) (JString a) JUndefined) s
  | None => s
  end.
Definition from_contact (l : location) (s : sendState) : sendState :=
  match filled (l_contactSend l) with Some a => setFormData (mkForm JUndefined (JString a) JUndefined) s | None => s end.
(** [handleMultiAddressChange] is called without a name: the field it sets is not read. *)
Definition from_airdrop (l : location) (s : sendState) : sendState :=
  match filled (l_airdropRecipients l), filled (l_airdropTokenId l) with
  | Some recipients, Some tokenId =>
      let s := setFormData (mkForm JUndefined (JString recipients) (JString tokenId)) (setIsOneToManyXECSend true s) in
      setAirdropFlag true (setSendBchAddressError (multi_error recipients) s)
  | _, _ => s
  end.

(** The effect of the first render. *)
Definition on_load (l : location) (s : sendState) : sendState * result unit :=
  let s := from_airdrop l (from_contact l (from_reply l s)) in
  match l_hash l with
  | None => (s, Ok tt)
  | Some hash =>
      if String.eqb hash "#/send" then (s, Ok tt)
      else
        match split_on "?" hash !! 1%nat with
        | None => (s, TransactionBuilder.no_property)
        | Some query => let txInfo := read_txInfo query in (populateFormsFromUrl txInfo (setTxInfoFromUrl (Some txInfo) s), Ok tt)
        end
  end.

(** ** Sending *)

Definition clearInputForms (s : sendState) : sendState :=
  setOpReturnMsg (JString EmptyString) (setFormData (mkForm (JString EmptyString) (JString EmptyString) JUndefined) s).

(** A link clears the form; an exception unlocks the page. *)
Definition finish (airdrop : bool) (r : Send.sent) (s : sendState) : sendState :=
  match Send.returned r with
  | Send.Sent _ => let s := clearInputForms s in if airdrop then setAirdropFlag false s else s
  | Send.Failed _ _ => passLoadingStatus false s
  end.

Definition encryptedMsgCharLimit : Z := 125.

(** A message that is [false] is none. *)
Definition message_of (v : json) : option string := match v with JString m => Some m | _ => None end.
(** [Number(v)] *)
Definition number_of (v : json) : number := match v with JString t => Number t | JNumber n => num_of_Z n | JDouble x => x | JNull | JBool false => num_of_Z 0 | _ => SpecFloat.S754_nan end.

(** The state after the call, how it ends, and what [sendXec] did if it was called. *)
Definition send (fuel : nat) (c : context) (s : sendState) : sendState * promise unit * option Send.sent :=
  let call message many rows address value encrypted airdrop tokenId :=
    Send.sendXec fuel (c_chronik c) (c_wallet c) (default [] (nonSlpUtxos_of c)) Currency.defaultFee message many rows address value encrypted airdrop tokenId None in
  let f := s_formData s in
  if s_isOneToManyXECSend s then
    if falsy (f_address f) then (s, Resolved tt, None)
    else
      let s := passLoadingStatus true s in
      let addressAndValueArray := split_on newline (text_of (f_address f)) in
      let r := call (message_of (s_opReturnMsg s)) true (Some addressAndValueArray) None None false (s_airdropFlag s) (message_of (f_airdropTokenId f)) in
      (finish true r s, Resolved tt, Some r)
  else
    if falsy (f_address f) || falsy (f_value f) || num_leb (number_of (f_value f)) (num_of_Z 0) then (s, Resolved tt, None)
    else
      let s := passLoadingStatus true s in
      let cleanAddress := default EmptyString (split_on "?" (text_of (f_address f)) !! 0%nat) in
      let value := text_of (f_value f) in
      let bchValue := if String.eqb (s_selectedCurrency s) "XEC" then value else fiatToCrypto value (default "null"%string (c_fiatPrice c)) in
      match s_isEncryptedOptionalOpReturnMsg s, s_opReturnMsg s with
      | true, JString m =>
          let r := call (Some (substring m 0 encryptedMsgCharLimit)) false None (Some cleanAddress) (Some bchValue) true false None in
          (finish false r s, Resolved tt, Some r)
      | true, _ => (s, Rejected (TypeError "opReturnMsg.substring is not a function"), None)
      | false, m =>
          let r := call (message_of m) false None (Some cleanAddress) (Some bchValue) false false None in
          (finish false r s, Resolved tt, Some r)
      end.

Definition checkForConfirmationBeforeSendXec (fuel : nat) (c : context) (s : sendState) : sendState * promise unit * option Send.sent :=
  match s_txInfoFromUrl s with
  | Some _ => (setIsModalVisible true s, Resolved tt, None)
  | None => if c_sendModal c then (setIsModalVisible true s, Resolved tt, None) else send fuel c s
  end.

Definition handleOk (fuel : nat) (c : context) (s : sendState) : sendState * promise unit * option Send.sent :=
  send fuel c (setIsModalVisible false s).
Definition handleCancel (s : sendState) : sendState := setIsModalVisible false s.

(** ** Controls *)

Definition priceApiError (c : context) (s : sendState) : bool := CashMethods.missing (c_fiatPrice c) && negb (String.eqb (s_selectedCurrency s) "XEC").

(** The button is there, not a disabled one. *)
Definition can_send (c : context) (s : sendState) : bool :=
  negb (no_balance c || c_apiError c || negb (CashMethods.missing (s_sendBchAmountError s)) || negb (CashMethods.missing (s_sendBchAddressError s)) || priceApiError c s).

Inductive event :=
| AddressChange (value : string)
| MultiAddressChange (value : string)
| AmountChange (value : string)
| CurrencyChange (e : string)
| Max
| MessageChange (value : string)
| ToggleOneToMany
| TogglePrivate
| ClickSend
| ClickOk
| ClickCancel.

(** What the page lets the user do. *)
Definition enabled (c : context) (s : sendState) (e : event) : bool :=
  match e with
  | AddressChange _ | Max => negb (s_isOneToManyXECSend s)
  | AmountChange _ => negb (s_isOneToManyXECSend s) && negb (priceApiError c s)
  | CurrencyChange _ => negb (s_isOneToManyXECSend s) && CashMethods.missing (s_queryStringText s)
  | MultiAddressChange _ => s_isOneToManyXECSend s
  | TogglePrivate => negb (s_isOneToManyXECSend s)
  | ClickSend => can_send c s
  | ClickOk | ClickCancel => s_isModalVisible s
  | MessageChange _ | ToggleOneToMany => true
  end.

Definition step (fuel : nat) (c : context) (e : event) (s : sendState) : sendState * promise unit * option Send.sent :=
  match e with
  | AddressChange v => (handleAddressChange c v s, Resolved tt, None)
  | MultiAddressChange v => (handleMultiAddressChange v s, Resolved tt, None)
  | AmountChange v => (handleBchAmountChange c v s, Resolved tt, None)
  | CurrencyChange v => (handleSelectedCurrencyChange v s, Resolved tt, None)
  | Max => (onMax c s, Resolved tt, None)
  | MessageChange v => (setOpReturnMsg (JString v) s, Resolved tt, None)
  | ToggleOneToMany => (toggleOneToMany s, Resolved tt, None)
  | TogglePrivate => (togglePrivate s, Resolved tt, None)
  | ClickSend => checkForConfirmationBeforeSendXec fuel c s
  | ClickOk => handleOk fuel c s
  | ClickCancel => (handleCancel s, Resolved tt, None)
  end.

End S.
End SendForm.

(** * The page that sends coins, over its events

    Sequences of events that the page lets the user make, and what is sent in them. *)

From stdpp Require Import pretty.
From Stdlib Require Import QArith.
Import CashMethods Validation ValidationLaws SendForm.
Open Scope Z_scope.
Module SendFormLaws.
Section S.
Context {Mem : UninitMem} `{TF : !Typeforce} `{VU : !VarUint} `{CH : !CreateHash} `{B66 : !Bip66}
  `{B58 : !Bs58check} `{B32 : !Bech32} `{BI : !Bigi} `{EC : !Ecurve} `{HM : !CreateHmac} `{WF : !Wif}
  `{CA : !Cashaddr} `{BN : !BigNumber} `{SLP : !SlpMdm} `{BS58 : !Bs58} `{EI : !Ecies}.
Implicit Type (c : context) (s : sendState) (e : event).

Section Session.
Variable (fuel : nat) (c : context).

(** Events one after the other, with the payment that each one makes. *)
Inductive session : sendState → list (event * option Send.sent) → sendState → Prop :=
| session_nil s : session s [] s
| session_cons s e s1 p r t s2 : enabled c s e = true → step fuel c e s = (s1, p, r) → session s1 t s2 → session s ((e, r) :: t) s2.

(** A property that every event keeps. *)
Lemma session_invariant (P : sendState → Prop) s t s' :
  (∀ s e, enabled c s e = true → P s → P (step fuel c e s).1.1) → session s t s' → P s → P s' ∧ ∀ e r, (e, r) ∈ t → ∃ s1, P s1 ∧ enabled c s1 e = true ∧ (step fuel c e s1).2 = r.
Proof.
  intros HP. induction 1 as [|s e s1 p r t s2 He Es _ IH]; intros H; [split; [done|]; intros e r Hr; by apply not_elem_of_nil in Hr|].
  assert (H1 : P s1) by (specialize (HP s e He H); by rewrite Es in HP). destruct (IH H1) as [H2 H3]. split; [done|].
  intros e' r' [E|Hr]%elem_of_cons; [|by apply H3]. injection E as -> ->. exists s. by rewrite Es.
Qed.

(** What a step does to the fields that no payment depends on. *)
Lemma send_keeps s : let s' := (send fuel c s).1.1 in s_txInfoFromUrl s' = s_txInfoFromUrl s ∧ s_isOneToManyXECSend s' = s_isOneToManyXECSend s ∧
  s_isEncryptedOptionalOpReturnMsg s' = s_isEncryptedOptionalOpReturnMsg s.
Proof.
  unfold send, finish. cbv zeta. destruct (s_isOneToManyXECSend s) eqn:E1; [destruct (falsy _); [done|]; cbn; destruct (Send.returned _); done|].
  destruct (_ || _); [done|]. destruct (s_isEncryptedOptionalOpReturnMsg s) eqn:E2; [destruct (s_opReturnMsg _)|]; try (by cbn; rewrite E1, E2); cbn; destruct (Send.returned _); by cbn; rewrite ?E1, ?E2.
Qed.

Lemma step_url e s : s_txInfoFromUrl (step fuel c e s).1.1 = s_txInfoFromUrl s.
Proof.
  destruct e; cbn [step fst]; try done.
  - unfold handleAddressChange. cbv zeta. by destruct (ai_amount _).
  - unfold onMax. by destruct (nonSlpUtxos_of c).
  - unfold checkForConfirmationBeforeSendXec. destruct (s_txInfoFromUrl s) eqn:E; [done|]. destruct (c_sendModal c); [done|]. by rewrite (proj1 (send_keeps s)).
  - unfold handleOk. by rewrite (proj1 (send_keeps _)).
Qed.

(** C7: a request from a web page is confirmed.  When the page is opened with a query string,
    as the button of a web page and the extension open it, then in every sequence of
    events nothing is sent but by the button of the confirmation: whatever was filled in,
    changed or sent before, and whatever the settings say. *)
Theorem url_payment_confirmed l hash s0 t s : l_hash l = Some hash → hash ≠ "#/send"%string → on_load l initial = (s0, Ok tt) → session s0 t s →
  ∀ e r, (e, Some r) ∈ t → e = ClickOk.
Proof.
  intros Eh Hn El Hs. assert (H0 : s_txInfoFromUrl s0 ≠ None).
  { unfold on_load in El. rewrite Eh, (proj2 (String.eqb_neq _ _) Hn) in El. destruct (split_on "?" hash !! 1%nat); [|done]. injection El as <-.
    unfold populateFormsFromUrl. repeat case_match; done. }
  destruct (session_invariant (λ s, s_txInfoFromUrl s ≠ None) s0 t s) as [_ H]; [intros; by rewrite step_url|done|done|].
  intros e r Hr. destruct (H e (Some r) Hr) as (s1 & H1 & _ & Er). destruct e; try done. unfold step, checkForConfirmationBeforeSendXec in Er.
  by destruct (s_txInfoFromUrl s1).
Qed.

(** ** Private messages *)

(** Never both switches. *)
Definition one_switch s : Prop := s_isOneToManyXECSend s = true → s_isEncryptedOptionalOpReturnMsg s = false.

Lemma step_switches e s : one_switch s → one_switch (step fuel c e s).1.1.
Proof.
  unfold one_switch. destruct e; cbn [step fst]; try done.
  - unfold handleAddressChange. cbv zeta. by destruct (ai_amount _).
  - unfold onMax. by destruct (nonSlpUtxos_of c).
  - unfold checkForConfirmationBeforeSendXec. destruct (s_txInfoFromUrl s); [done|]. destruct (c_sendModal c); [done|]. by destruct (send_keeps s) as (_ & -> & ->).
  - unfold handleOk. by destruct (send_keeps (setIsModalVisible false s)) as (_ & -> & ->).
Qed.

Lemma load_switches l : one_switch (on_load l initial).1.
Proof.
  unfold on_load, from_reply, from_contact, from_airdrop, populateFormsFromUrl, one_switch. repeat case_match; done.
Qed.

(** What a payment with a private message is. *)
Definition private_payment s (r : Send.sent) : Prop :=
  ∃ m address value, s_opReturnMsg s = JString m ∧
    r = Send.sendXec fuel (c_chronik c) (c_wallet c) (default [] (nonSlpUtxos_of c)) Currency.defaultFee (Some (substring m 0 encryptedMsgCharLimit))
          false None (Some address) (Some value) true false None None.

(** C12: what is marked private is encrypted.  However the page was opened and whatever was
    done on it, a payment that is made while the message is marked private goes to one
    recipient and [sendXec] is told to encrypt its message. *)
Theorem private_is_encrypted l t s r : session (on_load l initial).1 t s → s_isEncryptedOptionalOpReturnMsg s = true → (send fuel c s).2 = Some r → private_payment s r.
Proof.
  intros Hs Hp. destruct (session_invariant one_switch _ t s (λ s e _, step_switches e s) Hs (load_switches l)) as [Hi _].
  unfold send. destruct (s_isOneToManyXECSend s) eqn:Em; [by rewrite Hi in Hp|]. cbv zeta. destruct (_ || _); [done|].
  change (s_isEncryptedOptionalOpReturnMsg (passLoadingStatus true s)) with (s_isEncryptedOptionalOpReturnMsg s). rewrite Hp.
  change (s_opReturnMsg (passLoadingStatus true s)) with (s_opReturnMsg s). unfold private_payment. destruct (s_opReturnMsg s) as [| | | | |m| |] eqn:Eo; try done. intros [= <-].
  by eexists m, _, _.
Qed.

(** Private without a message.  Marked private, with an address and a positive amount
    but no message typed yet, a payment ends with an exception that nobody catches:
    nothing is sent, and the page stays locked. *)
Theorem private_without_message s : s_isOneToManyXECSend s = false → s_isEncryptedOptionalOpReturnMsg s = true → s_opReturnMsg s = s_opReturnMsg initial →
  falsy (f_address (s_formData s)) = false → falsy (f_value (s_formData s)) = false → num_leb (number_of (f_value (s_formData s))) (num_of_Z 0) = false →
  send fuel c s = (passLoadingStatus true s, Rejected (TypeError "opReturnMsg.substring is not a function"), None) ∧ s_loading (passLoadingStatus true s) = true.
Proof.
  intros E1 E2 E3 E4 E5 E6. unfold send. cbv zeta. rewrite E1, E4, E5, E6. cbn [orb]. change (s_isEncryptedOptionalOpReturnMsg (passLoadingStatus true s)) with (s_isEncryptedOptionalOpReturnMsg s).
  change (s_opReturnMsg (passLoadingStatus true s)) with (s_opReturnMsg s). rewrite E2, E3. done.
Qed.

(** ** Amounts *)

(** The amount of an address.  When an address with an amount is put in while the amount is
    given in a currency, the page switches to XEC and takes the amount, but checks it as if
    it were still in the currency. *)
Theorem amount_checked_in_old_currency value amount s : ai_amount (parseAddressForParams value) = Some amount →
  let s' := handleAddressChange c value s in
  s_selectedCurrency s' = Currency.ticker ∧ f_value (s_formData s') = JString amount ∧ f_address (s_formData s') = JString value ∧
  s_sendBchAmountError s' = shouldRejectAmountInput amount (s_selectedCurrency s) (default "null"%string (c_fiatPrice c)) (totalBalance_of c).
Proof. intros E. unfold handleAddressChange. rewrite E. done. Qed.

(** ** Airdrops *)

Lemma airdrop_needs_token many rows address value enc : Send.broadcasts (Send.sendXec fuel (c_chronik c) (c_wallet c) (default [] (nonSlpUtxos_of c)) Currency.defaultFee
  value many rows address enc false true None None) = [].
Proof.
  unfold Send.sendXec, Send.sendXec_raw. cbn [mbind result_bind]. destruct (Amounts.parseXecSendValue _ _ _) as [v|err]; [|done]. cbn [mbind result_bind].
  destruct (Amounts.fromXecToSatoshis _ _); [|done]. cbn [mbind result_bind]. unfold Send.has_op_return. rewrite orb_true_r.
  done.
Qed.

(** An airdrop that is not made.  After a payment to one recipient on a page that was opened
    for an airdrop, the page still marks payments as airdrops but has lost the token: every
    later payment to many recipients is refused, until one of the page is opened again. *)
Theorem airdrop_mark_stays s s1 p r rows : s_isOneToManyXECSend s = false → s_airdropFlag s = true → send fuel c s = (s1, p, Some r) → Send.returned r = Send.Sent rows →
  s_airdropFlag s1 = true ∧ f_airdropTokenId (s_formData s1) = JUndefined ∧
  ∀ v s2 p2 r2, send fuel c (handleMultiAddressChange v (toggleOneToMany s1)) = (s2, p2, Some r2) → Send.broadcasts r2 = [].
Proof.
  intros Em Ea Es Er. assert (H : s_airdropFlag s1 = true ∧ f_airdropTokenId (s_formData s1) = JUndefined ∧ s_isOneToManyXECSend s1 = false).
  { unfold send in Es. cbv zeta in Es. rewrite Em in Es. destruct (_ || _); [done|]. destruct (s_isEncryptedOptionalOpReturnMsg _); [destruct (s_opReturnMsg _)|]; try done;
      injection Es as <- _ <-; unfold finish; rewrite Er; done. }
  destruct H as (H1 & H2 & H3). split; [done|]. split; [done|]. intros v s2 p2 r2 E2. unfold send in E2. cbv zeta in E2.
  change (s_isOneToManyXECSend (handleMultiAddressChange v (toggleOneToMany s1))) with (negb (s_isOneToManyXECSend s1)) in E2. rewrite H3 in E2. cbn [negb] in E2.
  destruct (falsy _); [done|]. injection E2 as _ _ <-.
  change (s_airdropFlag (passLoadingStatus true (handleMultiAddressChange v (toggleOneToMany s1)))) with (s_airdropFlag s1). rewrite H1.
  change (f_airdropTokenId (s_formData (handleMultiAddressChange v (toggleOneToMany s1)))) with (f_airdropTokenId (s_formData s1)). rewrite H2. apply airdrop_needs_token.
Qed.

(** ** From the form to the payment *)

Section Accepted.
Context `{BNS : !BigNumberSpec}.

(** C6: an accepted form is sent as it is.  A valid address without parameters and an amount
    in XEC that the page accepts, put in one after the other, with no confirmation asked
    for: the button calls [sendXec] once, with exactly this address and this amount,
    which is a number of satoshis from 550 to the balance that [sendXec] reads back. *)
Theorem accepted_form_sends address amount s q :
  s_isOneToManyXECSend s = false → s_isEncryptedOptionalOpReturnMsg s = false → s_selectedCurrency s = Currency.ticker → s_txInfoFromUrl s = None → c_sendModal c = false →
  parseAddressForParams address = mkInfo address None None → address ≠ EmptyString → amount ≠ EmptyString →
  bn_is (bn_of_string (totalBalance_of c)) q → plain_text (bn_of_string amount) → num_leb (Number amount) (num_of_Z 0) = false →
  let s2 := handleBchAmountChange c amount (handleAddressChange c address s) in
  can_send c s2 = true →
  WalletAddress.isValidXecAddress address = true ∧
  (step fuel c ClickSend s2).2 = Some (Send.sendXec fuel (c_chronik c) (c_wallet c) (default [] (nonSlpUtxos_of c)) Currency.defaultFee (message_of (s_opReturnMsg s))
    false None (Some address) (Some amount) false false None None) ∧
  ∃ n v y, 550 <= n ∧ Qle (inject_Z n * ten (-2))%Q q ∧ Amounts.parseXecSendValue false (Some amount) None = Ok v ∧
    Amounts.fromXecToSatoshis v Currency.cashDecimals = Some y ∧ bn_is y (inject_Z n).
Proof.
  intros E1 E2 E3 E4 E5 Ep Ha Hm Hq Ht Hn s2 Hc. assert (Es2 : s_formData s2 = mkForm (JString amount) (JString address) (f_airdropTokenId (s_formData s))).
  { unfold s2, handleAddressChange. rewrite Ep. done. }
  assert (Ee : s_sendBchAmountError s2 = shouldRejectAmountInput amount (s_selectedCurrency s) (default "null"%string (c_fiatPrice c)) (totalBalance_of c)).
  { unfold s2, handleAddressChange. rewrite Ep. done. }
  assert (Ef : s_sendBchAddressError s2 = if WalletAddress.isValidXecAddress address then None else if WalletAddress.isValidEtokenAddress address
    then Some "eToken addresses are not supported for XEC sends"%string else Some "Invalid address"%string).
  { unfold s2, handleAddressChange. rewrite Ep. done. }
  unfold can_send in Hc. apply negb_true_iff in Hc. rewrite !orb_false_iff, !negb_false_iff in Hc. destruct Hc as [[[[_ _] Hc1] Hc2] _].
  rewrite Ee in Hc1. rewrite Ef in Hc2. destruct (shouldRejectAmountInput _ _ _ _) eqn:Er; [done|]. rewrite E3 in Er.
  destruct (WalletAddress.isValidXecAddress address); [|by destruct (WalletAddress.isValidEtokenAddress _)]. split; [done|]. split.
  - assert (K : s_txInfoFromUrl s2 = s_txInfoFromUrl s ∧ s_isOneToManyXECSend s2 = s_isOneToManyXECSend s ∧ s_selectedCurrency s2 = s_selectedCurrency s ∧
      s_isEncryptedOptionalOpReturnMsg s2 = s_isEncryptedOptionalOpReturnMsg s ∧ s_opReturnMsg s2 = s_opReturnMsg s).
    { unfold s2, handleAddressChange. rewrite Ep. done. }
    destruct K as (K1 & K2 & K3 & K4 & K5). cbn [step]. unfold checkForConfirmationBeforeSendXec. rewrite K1, E4, E5. unfold send. cbv zeta. rewrite K2, E1, Es2.
    cbn [f_address f_value falsy number_of text_of]. unfold OpReturn.is_empty. rewrite (proj2 (String.eqb_neq _ _) Ha), (proj2 (String.eqb_neq _ _) Hm), Hn. cbn [orb].
    change (s_isEncryptedOptionalOpReturnMsg (passLoadingStatus true s2)) with (s_isEncryptedOptionalOpReturnMsg s2). rewrite K4, E2.
    change (s_selectedCurrency (passLoadingStatus true s2)) with (s_selectedCurrency s2). rewrite K3, E3. change (String.eqb Currency.ticker "XEC") with true.
    change (s_opReturnMsg (passLoadingStatus true s2)) with (s_opReturnMsg s2). rewrite K5.
    assert (Ec : default EmptyString (split_on "?" address !! 0%nat) = address) by (change (ai_address (parseAddressForParams address) = address); by rewrite Ep).
    by rewrite Ec.
  - eapply accepted_amount; eauto.
Qed.

End Accepted.

End Session.
End S.

(** ** Examples: a wallet with outputs of 10 and of 50 XEC *)

Section Examples.
Import Concrete ConcreteCurve ConcreteText ConcreteBn ConcreteWallet.
Local Existing Instance zero_mem.

Local Definition addr (n : Z) : string := String.append "ecash:q" (Hex.toHex (repeat n 20)).
Local Definition acct (n : Z) : account := mkAccount (addr n) (text (128 :: 1 :: be_bytes 32 n)) None None.
Local Definition coin (i v : Z) : utxo := mkUtxo (Hex.toHex (repeat 9 32)) i (pretty v) (addr 5) None None.
Local Definition a_state : walletState := mkState (Some (mkBalances "6000" "60")) (Some []) (Some []) (Some [coin 0 1000; coin 1 5000]) false None None.
Local Definition a_wallet : wallet := mkWallet "seed" "name" (acct 3) (acct 4) (Some (acct 5)) (Some a_state).
Local Definition a_chronik : chronik :=
  mkChronik (λ _ _, inl (Some "ab"%string)) (λ _ _ _, inl []) (λ _, inl []) (λ _, inr (mkFailure (Error "none") None)) (λ _, inr (mkFailure (Error "none") None)).
Local Definition a_context : context := mkContext a_chronik a_wallet (Some "2"%string) false false.

Local Definition linked : location := mkLocation None None None None (Some "#/send?address=a&value=20"%string).
Local Definition opened : sendState := (on_load linked initial).1.
Local Definition shown : sendState := (step 20 a_context ClickSend opened).1.1.

Lemma url_payment_confirmed_witness : s_formData shown = mkForm (JString "20") (JString "a") JUndefined ∧ s_isModalVisible shown = true ∧
  ∀ e r, (e, Some r) ∈ [(ClickSend, (step 20 a_context ClickSend opened).2); (ClickCancel, None)] → e = ClickOk.
Proof.
  split; [reflexivity|]. split; [reflexivity|].
  refine (url_payment_confirmed 20 a_context linked "#/send?address=a&value=20" opened _ (handleCancel shown) _ _ _ _); [reflexivity|discriminate|reflexivity|].
  eapply session_cons; [reflexivity|reflexivity|]. eapply session_cons; [reflexivity|reflexivity|constructor].
Defined.

Local Definition nowhere : location := mkLocation None None None None None.
Local Definition filled : sendState := handleBchAmountChange a_context "20" (handleAddressChange a_context (addr 8) initial).
Local Definition secret : sendState := setOpReturnMsg (JString "hi") (togglePrivate filled).

Lemma private_is_encrypted_witness : ∃ r, private_payment 20 a_context secret r.
Proof.
  eexists. refine (private_is_encrypted 20 a_context nowhere [(AddressChange (addr 8), None); (AmountChange "20", None); (TogglePrivate, None); (MessageChange "hi", None)] secret _ _ _ _).
  - do 4 (eapply session_cons; [reflexivity|reflexivity|]). constructor.
  - reflexivity.
  - reflexivity.
Defined.

Lemma private_without_message_witness : (send 20 a_context (togglePrivate filled)).1.2 = Rejected (TypeError "opReturnMsg.substring is not a function").
Proof.
  rewrite (proj1 (private_without_message 20 a_context (togglePrivate filled) eq_refl eq_refl eq_refl eq_refl eq_refl eq_refl)). reflexivity.
Defined.

Local Definition with_amount : string := String.append (addr 8) "?amount=20".
Lemma amount_checked_in_old_currency_witness :
  s_sendBchAmountError (handleAddressChange a_context with_amount (handleSelectedCurrencyChange "USD" initial)) = shouldRejectAmountInput "20" "USD" "2" "60".
Proof.
  refine (proj2 (proj2 (proj2 (amount_checked_in_old_currency a_context with_amount "20" (handleSelectedCurrencyChange "USD" initial) _)))). vm_compute. reflexivity.
Defined.

Local Definition airdropping : sendState := toggleOneToMany (on_load (mkLocation None None (Some "x"%string) (Some "ab"%string) None) initial).1.
Local Definition paying : sendState := handleBchAmountChange a_context "20" (handleAddressChange a_context (addr 8) airdropping).
Lemma airdrop_mark_stays_witness : s_airdropFlag (send 20 a_context paying).1.1 = true.
Proof.
  refine (proj1 (airdrop_mark_stays 20 a_context paying _ _ _ (Send.link_of "ab") eq_refl eq_refl _ _)).
  - reflexivity.
  - vm_compute. reflexivity.
Defined.

Lemma accepted_form_sends_witness : ∃ n v y, 550 <= n ∧ Qle (inject_Z n * ten (-2))%Q (inject_Z 60) ∧ Amounts.parseXecSendValue false (Some "20"%string) None = Ok v ∧
    Amounts.fromXecToSatoshis v Currency.cashDecimals = Some y ∧ bn_is y (inject_Z n).
Proof.
  refine (proj2 (proj2 (accepted_form_sends 20 a_context (addr 8) "20" initial (inject_Z 60) eq_refl eq_refl eq_refl eq_refl eq_refl _ _ _ _ _ _ _))).
  - vm_compute. reflexivity.
  - discriminate.
  - discriminate.
  - exact (bn_of_string_int 60).
  - intros d Hd. vm_compute in Hd. injection Hd as <-. vm_compute. reflexivity.
  - vm_compute. reflexivity.
  - vm_compute. reflexivity.
Defined.

End Examples.
End SendFormLaws.
