(* ===== verification/Airdrop.v ===== *)
(** * The airdrop calculator

    [cashtab/src/components/Airdrop/Airdrop.js]: the holders of a token are asked for,
    some are left out, and an amount is divided among the others; the page that sends
    gets the result as rows of an address and an amount.  The list of holders comes from
    [etoken-list], a parameter. *)

From stdpp Require Import base tactics list gmap numbers strings.
From Stdlib Require Import Ascii QArith Qabs.
From S2P Require Import Prelude JsNumber JsFloat NodeBuffer Asm Encodings JsString BigNumber OpReturn WalletExternals WalletAddress Wallet Amounts CashMethods ChronikUtils History Validation.
Import ChronikUtils Validation.
Open Scope Z_scope.

(** ** Rounding of decimal numbers *)

(** [decimalPlaces(k)] *)
Class BnRound `{!BigNumber} := { bn_decimalPlaces : bn → Z → bn }.

(** The documentation: a quotient is rounded to 20 places, and [decimalPlaces] rounds to the
    nearest number with that many places. *)
Class BnRoundSpec `{!BigNumber} `{!BnRound} : Prop := {
  bn_div_near x y p q : bn_is x p → bn_is y q → ~ Qeq q 0 →
    ∃ r, bn_is (bn_div x y) r ∧ Qle (Qabs (Qminus (Qmult q r) p)) (Qmult (Qabs q) (ten (-20)));
  bn_decimalPlaces_near x p k : bn_is x p → 0 <= k →
    ∃ n, bn_is (bn_decimalPlaces x k) (Qmult (inject_Z n) (ten (- k))) ∧
      Qle (Qabs (Qminus (Qmult (inject_Z n) (ten (- k))) p)) (Qmult (Qmake 1 2) (ten (- k)));
}.

(** [etokenList.List.GetAddressListFor(tokenId, block, true)]: a map from addresses to
    balances, in its order. *)
Class EtokenList := { el_GetAddressListFor : string → Z → promise (list (string * string)) }.

Module Airdrop.

(** A map of JavaScript, in the order of insertion. *)
Definition holders : Type := list (string * string).

(** [airdropList.delete(key)]; a key that is an [Error] is not there. *)
Definition delete_key (key : string + js_exn) (l : holders) : holders :=
  match key with
  | inl key => List.filter (λ h, negb (String.eqb h.1 key)) l
  | inr _ => l
  end.

(** ** The form *)

Record airdropForm := mkAirdrop {
  a_tokenId : string;
  a_totalAirdrop : string;
  a_tokenIdIsValid : option bool;
  a_totalAirdropIsValid : option bool;
  a_equalDistributionRatio : bool;
  a_ignoreOwnAddress : bool;
  a_ignoreRecipientsBelowDust : bool;
  a_ignoreMintAddress : bool;
  a_ignoreCustomAddresses : bool;
  a_ignoreCustomAddressesList : string;
  a_ignoreCustomAddressesListIsValid : bool;
  a_ignoreMinEtokenBalance : bool;
  a_ignoreMinEtokenBalanceAmount : string;
  a_ignoreMinEtokenBalanceAmountIsValid : bool;
}.

(** What the calculation sets. *)
Record airdropResult := mkResult {
  r_airdropRecipients : string;
  r_airdropOutputIsValid : bool;
  r_showAirdropOutputs : bool;
  r_etokenHolders : Z;
  r_isAirdropCalcModalVisible : bool;
  r_loading : bool;
}.

Definition set_recipients (v : string) (r : airdropResult) : airdropResult :=
  mkResult v (r_airdropOutputIsValid r) (r_showAirdropOutputs r) (r_etokenHolders r) (r_isAirdropCalcModalVisible r) (r_loading r).
Definition set_holders (v : Z) (r : airdropResult) : airdropResult :=
  mkResult (r_airdropRecipients r) (r_airdropOutputIsValid r) (r_showAirdropOutputs r) v (r_isAirdropCalcModalVisible r) (r_loading r).
Definition set_outputs (valid shown : bool) (r : airdropResult) : airdropResult :=
  mkResult (r_airdropRecipients r) valid shown (r_etokenHolders r) (r_isAirdropCalcModalVisible r) (r_loading r).
Definition set_busy (busy : bool) (r : airdropResult) : airdropResult :=
  mkResult (r_airdropRecipients r) (r_airdropOutputIsValid r) (r_showAirdropOutputs r) (r_etokenHolders r) busy busy.

Section S.
Context {Mem : UninitMem} `{CA : !Cashaddr} `{BN : !BigNumber} `{BR : !BnRound} `{EL : !EtokenList} `{BS58 : !Bs58}.

Definition handleTokenIdInput (value : string) (f : airdropForm) : airdropForm :=
  mkAirdrop value (a_totalAirdrop f) (Some (isValidTokenId (JString value))) (a_totalAirdropIsValid f) (a_equalDistributionRatio f) (a_ignoreOwnAddress f)
    (a_ignoreRecipientsBelowDust f) (a_ignoreMintAddress f) (a_ignoreCustomAddresses f) (a_ignoreCustomAddressesList f)
    (a_ignoreCustomAddressesListIsValid f) (a_ignoreMinEtokenBalance f) (a_ignoreMinEtokenBalanceAmount f) (a_ignoreMinEtokenBalanceAmountIsValid f).

Definition handleTotalAirdropInput (value : string) (f : airdropForm) : airdropForm :=
  mkAirdrop (a_tokenId f) value (a_tokenIdIsValid f) (Some (isValidXecAirdrop (JString value))) (a_equalDistributionRatio f) (a_ignoreOwnAddress f)
    (a_ignoreRecipientsBelowDust f) (a_ignoreMintAddress f) (a_ignoreCustomAddresses f) (a_ignoreCustomAddressesList f)
    (a_ignoreCustomAddressesListIsValid f) (a_ignoreMinEtokenBalance f) (a_ignoreMinEtokenBalanceAmount f) (a_ignoreMinEtokenBalanceAmountIsValid f).

Definition handleMinEtokenBalanceChange (value : string) (f : airdropForm) : airdropForm :=
  mkAirdrop (a_tokenId f) (a_totalAirdrop f) (a_tokenIdIsValid f) (a_totalAirdropIsValid f) (a_equalDistributionRatio f) (a_ignoreOwnAddress f)
    (a_ignoreRecipientsBelowDust f) (a_ignoreMintAddress f) (a_ignoreCustomAddresses f) (a_ignoreCustomAddressesList f)
    (a_ignoreCustomAddressesListIsValid f) (a_ignoreMinEtokenBalance f) value (bn_gt (bn_of_string value) (bn_of_Z 0)).

(** [s.replace(/ /g, '')] *)
Fixpoint without_spaces (s : string) : string :=
  match s with
  | EmptyString => EmptyString
  | String c s => if Ascii.eqb c " "%char then without_spaces s else String c (without_spaces s)
  end.

Definition handleIgnoreCustomAddressesList (value : string) (f : airdropForm) : airdropForm :=
  if negb (a_ignoreCustomAddresses f) then f
  else
    let customAddressList := without_spaces value in
    mkAirdrop (a_tokenId f) (a_totalAirdrop f) (a_tokenIdIsValid f) (a_totalAirdropIsValid f) (a_equalDistributionRatio f) (a_ignoreOwnAddress f)
      (a_ignoreRecipientsBelowDust f) (a_ignoreMintAddress f) (a_ignoreCustomAddresses f) customAddressList
      (isValidAirdropExclusionArray customAddressList) (a_ignoreMinEtokenBalance f) (a_ignoreMinEtokenBalanceAmount f) (a_ignoreMinEtokenBalanceAmountIsValid f).

Definition airdropCalcInputIsValid (f : airdropForm) : bool :=
  default false (a_tokenIdIsValid f) && default false (a_totalAirdropIsValid f) &&
  (negb (a_ignoreMinEtokenBalance f) || a_ignoreMinEtokenBalanceAmountIsValid f) &&
  (negb (a_ignoreCustomAddresses f) || a_ignoreCustomAddressesListIsValid f).

(** ** Who is left out *)

(** [convertEcashtoEtokenAddr(convertToEcashPrefix(wallet.Path1899.cashAddress))] *)
Definition own_address (w : wallet) : result (string + js_exn) :=
  match Path1899 w with
  | None => Throw (TypeError "Cannot read properties of undefined")
  | Some a => x ← WalletAddress.convertToEcashPrefix (cashAddress a); Ok (WalletAddress.convertEcashtoEtokenAddr x)
  end.

Definition custom_filter (f : airdropForm) (l : holders) : holders :=
  if a_ignoreCustomAddresses f && a_ignoreCustomAddressesListIsValid f
  then fold_left (λ l a, delete_key (WalletAddress.convertEcashtoEtokenAddr a) l) (split_on ","%char (a_ignoreCustomAddressesList f)) l
  else l.

Definition min_filter (f : airdropForm) (l : holders) : holders :=
  if a_ignoreMinEtokenBalance f then List.filter (λ h, negb (bn_lt (bn_of_string h.2) (bn_of_string (a_ignoreMinEtokenBalanceAmount f)))) l else l.

(** The sum of the balances. *)
Definition total_tokens (l : holders) : bn := fold_left (λ t h, bn_plus t (bn_of_string h.2)) l (bn_of_Z 0).

Definition dust_filter (f : airdropForm) (l : holders) : holders :=
  if a_ignoreRecipientsBelowDust f then
    let minEligibleAirdrop := Amounts.fromSatoshisToXec (bn_of_Z Currency.dustSats) Currency.cashDecimals in
    let initialCircToAirdropRatio := bn_div (bn_of_string (a_totalAirdrop f)) (total_tokens l) in
    List.filter (λ h, negb (bn_lt (bn_times (bn_of_string h.2) initialCircToAirdropRatio) minEligibleAirdrop)) l
  else l.

(** ** The amounts *)

Definition payout (f : airdropForm) (l : holders) (h : string * string) : bn :=
  bn_decimalPlaces
    (if a_equalDistributionRatio f then bn_div (bn_of_string (a_totalAirdrop f)) (bn_of_Z (len l))
     else bn_times (bn_of_string h.2) (bn_div (bn_of_string (a_totalAirdrop f)) (total_tokens l)))
    Currency.cashDecimals.

(** The text of an address or of an [Error] *)
Definition address_text (a : string + js_exn) : string :=
  match a with
  | inl a => a
  | inr (TypeError m) => String.append "TypeError: " m
  | inr (Error m) => String.append "Error: " m
  | inr _ => "Error"
  end.

Definition row (f : airdropForm) (l : holders) (h : string * string) : string :=
  String.append (address_text (WalletAddress.convertEtokenToEcashAddr h.1)) (String "," (bn_toString (payout f l h))).

Definition resultString (f : airdropForm) (l : holders) : string :=
  let s := foldr (λ h s, String.append (row f l h) (String newline s)) EmptyString l in
  substring s 0 (strlen s - 1).

(** ** The calculation *)

(** The state that is left, and how the promise settles: what is thrown outside the [try]
    blocks leaves the page busy.  [tip] is what [chronik.blockchainInfo()] gives.
    [getMintAddress] does not throw, it returns an [Error]; a map is never falsy, and the two
    tests for an empty list do nothing. *)
Definition calculateXecAirdrop (ck : chronik) (tip : promise Z) (w : wallet) (f : airdropForm) (r : airdropResult) : airdropResult * promise unit :=
  let r := set_busy true (set_outputs (r_airdropOutputIsValid r) false r) in
  let stop := (set_busy false r, Resolved tt) in
  match tip with
  | Pending => (r, Pending)
  | Rejected _ => stop
  | Resolved latestBlock =>
      match el_GetAddressListFor (a_tokenId f) latestBlock with
      | Pending => (r, Pending)
      | Rejected _ => stop
      | Resolved airdropList =>
          match (if a_ignoreOwnAddress f then a ← own_address w; Ok (delete_key a airdropList) else Ok airdropList) with
          | Throw e => (r, Rejected e)
          | Ok airdropList =>
              let airdropList := if a_ignoreMintAddress f then delete_key (History.getMintAddress ck (a_tokenId f)) airdropList else airdropList in
              let airdropList := dust_filter f (min_filter f (custom_filter f airdropList)) in
              let s := resultString f airdropList in
              let r := set_recipients s (set_holders (len airdropList) r) in
              if OpReturn.is_empty s then (set_busy false r, Resolved tt)
              else (set_busy false (set_outputs (isValidAirdropOutputsArray s) true r), Resolved tt)
          end
      end
  end.

(** What the link passes to the page that sends, also when the amounts are not valid. *)
Definition to_send (f : airdropForm) (r : airdropResult) : option (string * string) :=
  if r_showAirdropOutputs r && negb (OpReturn.is_empty (r_airdropRecipients r)) then Some (r_airdropRecipients r, a_tokenId f) else None.

End S.
End Airdrop.

(** * What an airdrop pays

    The rows that the calculator shows, who is left out of them, and how far the sum of the
    amounts is from the total that was entered. *)

From Stdlib Require Import Lqa.
Import ChronikUtils Validation Airdrop.
Open Scope Z_scope.
Module AirdropLaws.

(** ** The text of the result *)

Definition newline_text : string := String newline EmptyString.

Lemma take_append a b : str_take (String.length a) (String.append a b) = a.
Proof. induction a as [|x a IH]; [by destruct b|]. change (String x (str_take (String.length a) (String.append a b)) = String x a). by rewrite IH. Qed.

(** Each row and its newline, without the last one. *)
Lemma rows_joined rows : rows ≠ [] → foldr (λ r s, String.append r (String newline s)) EmptyString rows = String.append (String.concat newline_text rows) newline_text.
Proof.
  induction rows as [|r rows IH]; [done|]. intros _. cbn [foldr]. destruct rows as [|r' rows]; [done|]. rewrite IH by done.
  cbn [String.concat]. rewrite !append_assoc. done.
Qed.

Lemma length_append a b : String.length (String.append a b) = (String.length a + String.length b)%nat.
Proof. induction a as [|x a IH]; [done|]. change (S (String.length (String.append a b)) = S (String.length a + String.length b)). by rewrite IH. Qed.

Section S.
Context {Mem : UninitMem} `{CA : !Cashaddr} `{BN : !BigNumber} `{BNS : !BigNumberSpec} `{BR : !BnRound} `{BRS : !BnRoundSpec} `{EL : !EtokenList} `{BS58 : !Bs58}.
Implicit Type (f : airdropForm) (l : holders).

Lemma result_rows f l : resultString f l = String.concat newline_text (map (row f l) l).
Proof.
  unfold resultString. assert (E : ∀ k, foldr (λ h s, String.append (row f l h) (String newline s)) EmptyString k =
    foldr (λ r s, String.append r (String newline s)) EmptyString (map (row f l) k)) by (induction k as [|h k IH]; [done|]; cbn; by rewrite IH).
  rewrite E. destruct (decide (l = [])) as [->|Hl]; [done|]. rewrite rows_joined by by destruct l. set (s := String.concat _ _).
  rewrite substring_0.
  - unfold strlen. rewrite length_append. cbn. replace (Z.to_nat _) with (String.length s) by lia. apply take_append.
  - unfold strlen. rewrite length_append. cbn. lia.
Qed.

(** ** The amounts *)

Open Scope Q_scope.

(** Rewrites a rational as another form of it. *)
Local Ltac q_as a b := let E := fresh in assert (E : Qeq a b) by (cbn; ring); rewrite E; clear E.

Definition qsum (ps : list Q) : Q := foldr Qplus 0 ps.

(** Amounts that are each near a multiple of a number have a sum near the multiple of the sum. *)
Lemma qsum_near (ps vs : list Q) (r e : Q) : Forall2 (λ p v, Qabs (p - v * r) <= e) ps vs →
  Qabs (qsum ps - qsum vs * r) <= inject_Z (Z.of_nat (length vs)) * e.
Proof.
  induction 1 as [|p v ps vs Hp Hs IH]; cbn [qsum foldr length].
  - q_as (0 - 0 * r) 0. q_as (inject_Z 0 * e) 0. apply Qle_refl.
  - fold (qsum ps) (qsum vs). rewrite Nat2Z.inj_succ, <- Z.add_1_l, inject_Z_plus.
    q_as (p + qsum ps - (v + qsum vs) * r) ((p - v * r) + (qsum ps - qsum vs * r)).
    q_as ((inject_Z 1 + inject_Z (Z.of_nat (length vs))) * e) (e + inject_Z (Z.of_nat (length vs)) * e).
    eapply Qle_trans; [apply Qabs_triangle|]. by apply Qplus_le_compat.
Qed.

Lemma total_sum l vs b q : Forall2 (λ h v, bn_is (bn_of_string h.2) v) l vs → bn_is b q →
  bn_is (fold_left (λ t h, bn_plus t (bn_of_string h.2)) l b) (q + qsum vs).
Proof.
  intros H. revert b q. induction H as [|h v l vs Hv Hs IH]; intros b q Hb; cbn [fold_left qsum foldr].
  - eapply bn_is_proper; [|exact Hb]. ring.
  - fold (qsum vs). eapply bn_is_proper; [|apply IH; by apply bn_plus_is]. ring.
Qed.

Lemma total_tokens_is l vs : Forall2 (λ h v, bn_is (bn_of_string h.2) v) l vs → bn_is (total_tokens l) (qsum vs).
Proof. intros H. eapply bn_is_proper; [|apply (total_sum l vs _ _ H (bn_of_Z_is 0))]. ring. Qed.

(** Half of the last place of an amount. *)
Definition half_cent : Q := (1 # 2) * ten (- Currency.cashDecimals).

Lemma amount_near x p : bn_is x p → ∃ r, bn_is (bn_decimalPlaces x Currency.cashDecimals) r ∧ Qabs (r - p) <= half_cent.
Proof. intros H. destruct (bn_decimalPlaces_near x p Currency.cashDecimals H ltac:(done)) as (n & Hn & E). eauto. Qed.

(** The numbers that texts stand for. *)
Definition balances_are l (vs : list Q) : Prop := Forall2 (λ h v, bn_is (bn_of_string h.2) v) l vs.
Definition paid f l (ps : list Q) : Prop := Forall2 (λ h p, bn_is (payout f l h) p) l ps.

(** Each amount is a rounded part, in the proportion of its weight. *)
Lemma paid_near f l (ws : list Q) r : Forall2 (λ h w, ∃ x, payout f l h = bn_decimalPlaces x Currency.cashDecimals ∧ bn_is x (w * r)) l ws →
  ∃ ps, paid f l ps ∧ Qabs (qsum ps - qsum ws * r) <= inject_Z (Z.of_nat (length ws)) * half_cent.
Proof.
  unfold paid. generalize (payout f l). intros pay H. assert (Hp : ∃ ps, Forall2 (λ h p, bn_is (pay h) p) l ps ∧ Forall2 (λ p w, Qabs (p - w * r) <= half_cent) ps ws).
  { induction H as [|h w k ws (x & E & Hx) Hs IH]; [by exists []|]. destruct IH as (ps & H1 & H2).
    destruct (amount_near _ _ Hx) as (p & Hp & Ep). exists (p :: ps). rewrite <- E in Hp. split; by constructor. }
  destruct Hp as (ps & H1 & H2). exists ps. split; [done|]. by apply qsum_near.
Qed.

(** The weights: every holder the same, or each its balance. *)
Definition weights f l (vs : list Q) : list Q := if a_equalDistributionRatio f then map (λ _, 1) l else vs.

Lemma qsum_ones l : qsum (map (λ _, 1) l) == inject_Z (len l).
Proof.
  induction l as [|h l IH]; [done|]. unfold len in *. cbn [map qsum foldr length]. fold (qsum (map (λ _ : string * string, 1) l)).
  rewrite IH, Nat2Z.inj_succ, <- Z.add_1_l, inject_Z_plus. done.
Qed.

Lemma weights_paid f l vs T : l ≠ [] → balances_are l vs → ~ qsum vs == 0 → bn_is (bn_of_string (a_totalAirdrop f)) T →
  ∃ r, Forall2 (λ h w, ∃ x, payout f l h = bn_decimalPlaces x Currency.cashDecimals ∧ bn_is x (w * r)) l (weights f l vs) ∧
    Qabs (qsum (weights f l vs) * r - T) <= Qabs (qsum (weights f l vs)) * ten (-20).
Proof.
  intros Hl Hv Hq HT. unfold weights, payout. destruct (a_equalDistributionRatio f).
  - destruct (bn_div_near _ _ _ _ HT (bn_of_Z_is (len l))) as (r & Hr & E).
    { intros E. apply (inject_Z_injective (len l) 0) in E. destruct l; [done|]. unfold len in E. cbn [length] in E. lia. }
    exists r. rewrite qsum_ones. split; [|done]. clear E Hl Hv. revert Hr. generalize (bn_div (bn_of_string (a_totalAirdrop f)) (bn_of_Z (len l))). intros x Hx.
    induction l as [|h k IH]; cbn [map]; constructor; [|done]. exists x. split; [done|]. eapply bn_is_proper; [|exact Hx]. ring.
  - destruct (bn_div_near _ _ _ _ HT (total_tokens_is _ _ Hv) Hq) as (r & Hr & E). exists r. split; [|done].
    eapply Forall2_impl; [exact Hv|]. intros h v Hh. eexists. split; [done|]. by apply bn_times_is.
Qed.

Lemma airdrop_near f l vs T : l ≠ [] → balances_are l vs → ~ qsum vs == 0 → bn_is (bn_of_string (a_totalAirdrop f)) T →
  ∃ ps, paid f l ps ∧ Qabs (qsum ps - T) <= inject_Z (len l) * half_cent + Qabs (qsum (weights f l vs)) * ten (-20).
Proof.
  intros Hl Hv Hq HT. destruct (weights_paid f l vs T Hl Hv Hq HT) as (r & Hw & E). destruct (paid_near f l _ r Hw) as (ps & Hp & Ep).
  exists ps. split; [done|]. rewrite <- (Forall2_length _ _ _ Hw) in Ep. fold (len l) in Ep.
  q_as (qsum ps - T) ((qsum ps - qsum (weights f l vs) * r) + (qsum (weights f l vs) * r - T)).
  eapply Qle_trans; [apply Qabs_triangle|]. by apply Qplus_le_compat.
Qed.

Close Scope Q_scope.

(** ** Who is paid *)

Lemma delete_key_elem h k l : h ∈ delete_key k l → h ∈ l ∧ k ≠ inl h.1.
Proof.
  destruct k as [k|e]; cbn; [|by intros; split]. rewrite list_elem_of_In, filter_In, <- list_elem_of_In. intros [H E]. split; [done|].
  intros [= ->]. by rewrite String.eqb_refl in E.
Qed.

Lemma delete_key_sub k l : delete_key k l `sublist_of` l.
Proof.
  destruct k as [k|e]; cbn; [|done]. induction l as [|h l IH]; [done|]. cbn. destruct (negb _); by constructor.
Qed.

Lemma filter_sub {A} (p : A → bool) (l : list A) : List.filter p l `sublist_of` l.
Proof. induction l as [|h l IH]; [done|]. cbn. destruct (p h); by constructor. Qed.

Lemma fold_delete_sub (ks : list string) (c : string → string + js_exn) l : fold_left (λ l a, delete_key (c a) l) ks l `sublist_of` l.
Proof. revert l. induction ks as [|k ks IH]; intros l; [done|]. cbn. etrans; [apply IH|apply delete_key_sub]. Qed.

Lemma fold_delete_elem (ks : list string) (c : string → string + js_exn) l h a : a ∈ ks → c a = inl h.1 → h ∉ fold_left (λ l a, delete_key (c a) l) ks l.
Proof.
  revert l. induction ks as [|k ks IH]; intros l Ha E Hh; [by apply not_elem_of_nil in Ha|]. cbn in Hh.
  apply elem_of_cons in Ha as [->|Ha]; [|by apply (IH _ Ha E Hh)].
  assert (Hd : h ∈ delete_key (c k) l) by (eapply elem_of_submseteq; [exact Hh|]; apply sublist_submseteq, fold_delete_sub).
  by apply delete_key_elem in Hd as [_ ?].
Qed.

Lemma custom_sub f l : custom_filter f l `sublist_of` l.
Proof. unfold custom_filter. destruct (_ && _); [apply (fold_delete_sub _ WalletAddress.convertEcashtoEtokenAddr)|done]. Qed.
Lemma min_sub f l : min_filter f l `sublist_of` l.
Proof. unfold min_filter. destruct (a_ignoreMinEtokenBalance f); [apply filter_sub|done]. Qed.
Lemma dust_sub f l : dust_filter f l `sublist_of` l.
Proof. unfold dust_filter. destruct (a_ignoreRecipientsBelowDust f); [apply filter_sub|done]. Qed.

(** The holders that the form leaves out. *)
Definition left_out (ck : chronik) (w : wallet) f (h : string * string) : Prop :=
  (a_ignoreOwnAddress f = true ∧ own_address w = Ok (inl h.1)) ∨
  (a_ignoreMintAddress f = true ∧ History.getMintAddress ck (a_tokenId f) = inl h.1) ∨
  (a_ignoreCustomAddresses f = true ∧ a_ignoreCustomAddressesListIsValid f = true ∧
     ∃ a, a ∈ split_on ","%char (a_ignoreCustomAddressesList f) ∧ WalletAddress.convertEcashtoEtokenAddr a = inl h.1) ∨
  (a_ignoreMinEtokenBalance f = true ∧ bn_lt (bn_of_string h.2) (bn_of_string (a_ignoreMinEtokenBalanceAmount f)) = true).

(** The list that is paid, from the list that the service gives. *)
Definition own_filter (w : wallet) f l : result holders := if a_ignoreOwnAddress f then a ← own_address w; Ok (delete_key a l) else Ok l.
Definition mint_filter (ck : chronik) f l : holders := if a_ignoreMintAddress f then delete_key (History.getMintAddress ck (a_tokenId f)) l else l.
Definition paid_list (ck : chronik) f l : holders := dust_filter f (min_filter f (custom_filter f (mint_filter ck f l))).

Lemma own_sub w f l l' : own_filter w f l = Ok l' → l' `sublist_of` l ∧ ∀ h, h ∈ l' → a_ignoreOwnAddress f = true → own_address w ≠ Ok (inl h.1).
Proof.
  unfold own_filter. destruct (a_ignoreOwnAddress f); [|intros [= <-]; by split].
  destruct (own_address w) as [a|e]; [|done]. intros [= <-]. split; [apply delete_key_sub|]. intros h Hh _ [= ->]. by apply delete_key_elem in Hh as [_ ?].
Qed.

Lemma mint_sub ck f l : mint_filter ck f l `sublist_of` l.
Proof. unfold mint_filter. destruct (a_ignoreMintAddress f); [apply delete_key_sub|done]. Qed.

Lemma in_sub (l k : holders) h : l `sublist_of` k → h ∈ l → h ∈ k.
Proof. intros H Hh. eapply elem_of_submseteq; [done|by apply sublist_submseteq]. Qed.

Lemma paid_not_left_out ck w f l l' h : own_filter w f l = Ok l' → h ∈ paid_list ck f l' → ¬ left_out ck w f h.
Proof.
  intros Ho Hh. destruct (own_sub _ _ _ _ Ho) as [_ Hown]. unfold paid_list in Hh. apply (in_sub _ _ _ (dust_sub f _)) in Hh.
  assert (Hmin := Hh). apply (in_sub _ _ _ (min_sub f _)) in Hh. assert (Hcust := Hh). apply (in_sub _ _ _ (custom_sub f _)) in Hh.
  assert (Hmint := Hh). apply (in_sub _ _ _ (mint_sub ck f _)) in Hh. intros [[H1 H2]|[[H1 H2]|[(H1 & H2 & a & Ha & H3)|[H1 H2]]]].
  - by apply (Hown h Hh H1).
  - unfold mint_filter in Hmint. rewrite H1 in Hmint. by apply delete_key_elem in Hmint as [_ ?].
  - unfold custom_filter in Hcust. rewrite H1, H2 in Hcust. by apply (fold_delete_elem _ WalletAddress.convertEcashtoEtokenAddr _ h a Ha H3 Hcust).
  - unfold min_filter in Hmin. rewrite H1 in Hmin. apply list_elem_of_In, filter_In in Hmin as [_ E]. by rewrite H2 in E.
Qed.

Lemma paid_list_sub ck f l : paid_list ck f l `sublist_of` l.
Proof. unfold paid_list. etrans; [apply dust_sub|]. etrans; [apply min_sub|]. etrans; [apply custom_sub|]. apply mint_sub. Qed.

(** What the calculation did when it shows a result. *)
Lemma calculated ck tip w f r r' : calculateXecAirdrop ck tip w f r = (r', Resolved tt) → r_showAirdropOutputs r' = true →
  ∃ block all l, tip = Resolved block ∧ el_GetAddressListFor (a_tokenId f) block = Resolved all ∧ own_filter w f all = Ok l ∧
    r_airdropRecipients r' = resultString f (paid_list ck f l) ∧ paid_list ck f l ≠ [].
Proof.
  unfold calculateXecAirdrop. destruct tip as [block| |]; [|by intros [= <-]|done].
  destruct (el_GetAddressListFor _ _) as [all| |] eqn:Ea; [|by intros [= <-]|done].
  match goal with |- context [match ?x with Ok _ => _ | Throw _ => _ end] => change x with (own_filter w f all) end.
  destruct (own_filter w f all) as [l|] eqn:Eo; [|done]. fold (mint_filter ck f l). fold (paid_list ck f l).
  destruct (OpReturn.is_empty _) eqn:Ee; intros [= <-]; [done|]. intros _. exists block, all, l. split_and!; [done|done|done|done|].
  intros E. rewrite E in Ee. done.
Qed.


(** A third of 20 is rounded up: three holders get 20.01 together. *)
Theorem airdrop_over_total f l h : a_equalDistributionRatio f = true → bn_is (bn_of_string (a_totalAirdrop f)) (inject_Z 20) → len l = 3 →
  bn_is (payout f l h) (667 # 100)%Q ∧ Qlt (inject_Z 20) (Qmult (inject_Z (len l)) (667 # 100)%Q).
Proof.
  intros He HT Hl. rewrite Hl. split; [|done]. unfold payout. rewrite He, Hl.
  destruct (bn_div_near _ _ _ _ HT (bn_of_Z_is 3)) as (r & Hr & E); [done|].
  destruct (bn_decimalPlaces_near _ _ Currency.cashDecimals Hr ltac:(done)) as (n & Hn & En).
  apply Qabs_Qle_condition in E, En. change (Currency.cashDecimals) with 2 in *. change (ten (-20)) with (1 # 100000000000000000000)%Q in E.
  change (ten (Z.opp 2)) with (1 # 100)%Q in *. change (Qabs (inject_Z 3)) with (inject_Z 3) in E.
  change (inject_Z 3) with (3 # 1)%Q in E. change (inject_Z 20) with (20 # 1)%Q in E.
  assert (Hlo : Qlt (666 # 1) (inject_Z n)) by lra. assert (Hhi : Qlt (inject_Z n) (668 # 1)) by lra.
  change (666 # 1)%Q with (inject_Z 666) in Hlo. change (668 # 1)%Q with (inject_Z 668) in Hhi.
  rewrite <- Zlt_Qlt in Hlo, Hhi. assert (n = 667) as -> by lia. eapply bn_is_proper; [|exact Hn]. done.
Qed.

End S.

(** ** A concrete instance *)
Module ConcreteRound.
Import ConcreteBn.

#[export] Instance bnround : BnRound := {
  bn_decimalPlaces (x : dec) k := a ← x; Some ((2 * a.1 * 10 ^ k + Zpos (scale a.2)) / (2 * Zpos (scale a.2)), Z.to_nat k);
}.

Lemma div_near (N D : Z) : D ≠ 0 → Z.abs (D * (N / D) - N) <= Z.abs D.
Proof. intros HD. pose proof (Z_div_mod_eq_full N D). destruct (Z.lt_trichotomy D 0) as [?|[?|?]]; [pose proof (Z.mod_neg_bound N D)|done|pose proof (Z.mod_pos_bound N D)]; lia. Qed.

#[export] Instance bnround_spec : BnRoundSpec.
Proof.
  split.
  - intros x y p q (a & -> & Ha) (b & -> & Hb) Hq. eexists. split; [eexists; split; [reflexivity|apply Qeq_refl]|].
    assert (Hb0 : b.1 ≠ 0) by (intros E; apply Hq; rewrite <- Hb; unfold dval, Qeq; cbn; by rewrite E).
    rewrite <- Ha, <- Hb. destruct a as [m s], b as [m' t]. cbn [fst snd] in *.
    pose proof (div_near (m * Zpos (scale t) * 10 ^ 20) (m' * Zpos (scale s)) ltac:(lia)) as Hd.
    set (d := _ / _) in *. change (ten (-20)) with (Qmake 1 (scale 20)). unfold dval, Qle, Qabs, Qminus, Qmult, Qplus, Qopp. cbn [Qnum Qden fst snd].
    rewrite !Pos2Z.inj_mul. change (Zpos (scale 20)) with (10 ^ 20). rewrite Z.mul_1_r.
    replace (m' * d * Zpos (scale s) + - m * (Zpos (scale t) * 10 ^ 20)) with (m' * Zpos (scale s) * d - m * Zpos (scale t) * 10 ^ 20) by lia.
    rewrite Z.abs_mul in Hd. rewrite (Z.abs_eq (Zpos (scale s))) in Hd by lia.
    replace (Z.abs m' * (Zpos (scale t) * 10 ^ 20 * Zpos (scale s))) with ((Z.abs m' * Zpos (scale s)) * (Zpos (scale t) * 10 ^ 20)) by lia.
    apply Z.mul_le_mono_nonneg_r; lia.
  - intros x p k (a & -> & Ha) Hk. set (n := (2 * a.1 * 10 ^ k + Zpos (scale a.2)) / (2 * Zpos (scale a.2))). exists n. split.
    + exists (n, Z.to_nat k). split; [done|]. replace k with (Z.of_nat (Z.to_nat k)) at 2 by lia. change (inject_Z n) with (dval (n, O)). by rewrite dval_div_ten.
    + assert (Et : Qeq (ten (- k)) (Qmake 1 (scale (Z.to_nat k)))).
      { rewrite ten_opp by done. replace k with (Z.of_nat (Z.to_nat k)) at 1 by lia. rewrite <- scale_pos. done. }
      rewrite Et, <- Ha. destruct a as [m s]. cbn [fst snd] in *.
      pose proof (Z_div_mod_eq_full (2 * m * 10 ^ k + Zpos (scale s)) (2 * Zpos (scale s))) as Hd.
      pose proof (Z.mod_pos_bound (2 * m * 10 ^ k + Zpos (scale s)) (2 * Zpos (scale s)) ltac:(lia)) as Hm. fold n in Hd.
      set (z := _ mod _) in *. unfold dval, Qle, Qabs, Qminus, Qmult, Qplus, Qopp, inject_Z. cbn [Qnum Qden fst snd].
      rewrite !Pos2Z.inj_mul, (scale_pos (Z.to_nat k)), Z2Nat.id by lia. pose proof (Z.pow_pos_nonneg 10 k). nia.
Qed.

End ConcreteRound.

(** ** Examples *)
Section Examples.
Import ConcreteText ConcreteBn ConcreteRound ConcreteWallet.
Local Existing Instance zero_mem.

Local Definition three : holders := [("etoken:q00", "1"); ("etoken:q01", "2"); ("etoken:q02", "3")]%string.
Local Instance three_holders : EtokenList := {| el_GetAddressListFor := λ _ _, Resolved three |}.
Local Definition an_account : account := mkAccount "ecash:q02" "wif" (Some "00"%string) (Some "02"%string).
Local Definition a_wallet : wallet := mkWallet "seed" "one" an_account an_account (Some an_account) None.
Local Definition off : failure := mkFailure (Error "off") None.
Local Definition no_chronik : chronik := mkChronik (λ _ _, inr off) (λ _ _ _, inr off) (λ _, inr off) (λ _, inr off) (λ _, inr off).
Local Definition form (own : bool) : airdropForm := mkAirdrop "id" "20" (Some true) (Some true) true own false false false EmptyString false false "0" false.
Local Definition fresh : airdropResult := mkResult EmptyString true false 0 false false.


Lemma airdrop_over_total_witness : bn_is (payout (form false) three ("etoken:q00", "1")%string) (667 # 100)%Q.
Proof. refine (proj1 (airdrop_over_total (form false) three _ eq_refl _ eq_refl)). exists (20, O). split; reflexivity. Defined.

End Examples.

End AirdropLaws.
