(* ===== verification/SignVerify.v ===== *)
(** * Signing and verifying messages

    The handlers of [cashtab/src/components/SignVerifyMsg/SignVerifyMsg.js], which sign a
    text with the key of the wallet and verify a signature against an address, on top of
    [xecjs-message]; and that a message signed on this page verifies on it. *)

From stdpp Require Import base tactics list numbers strings.
From Stdlib Require Import Ascii.
From S2P Require Import Prelude JsNumber JsFloat NodeBuffer Externals Crypto Asm Curve ECPair Encodings JsString JsDecimal Base64 BigNumber OpReturn WalletExternals WalletAddress Wallet Amounts TxBuilder CashMethods Send Message Validation SendForm.
Import CashMethods Validation.
Open Scope Z_scope.

Module SignVerify.

(** What the user is told. *)
Inductive notice := Signed (signature : string) | SigningError | VerificationError | Verified | NoMatch.

Record page := mkPage {
  s_messageSignature : string;
  s_showConfirmMsgToSign : bool;
  s_msgToSign : string;
  s_signMessageIsValid : option bool;
  s_showConfirmMsgToVerify : bool;
  s_verificationAddr : string;
  s_verificationSig : string;
  s_verificationMsg : string;
  s_verificationMsgIsValid : bool;
  s_verificationAddrIsValid : bool;
  s_verificationSigIsValid : bool;
  s_told : list notice;
}.

Definition initial : page := mkPage EmptyString false EmptyString None false EmptyString EmptyString EmptyString false false false [].

Section S.
Context {Mem : UninitMem} `{TF : !Typeforce} `{VU : !VarUint} `{CH : !CreateHash} `{BI : !Bigi} `{EC : !Ecurve} `{WF : !Wif}
  `{CA : !Cashaddr} `{BN : !BigNumber} `{SP : !Secp256k1} `{BE : !BufferEquals}.

(** ** Signing *)

Definition message_valid (value : string) : bool := (0 <? length16 value) && (length16 value <? 150).

(** A text that is not valid does not replace the one before it. *)
Definition handleSignMsgChange (value : string) (p : page) : page :=
  mkPage (s_messageSignature p) (s_showConfirmMsgToSign p) (if message_valid value then value else s_msgToSign p) (Some (message_valid value))
    (s_showConfirmMsgToVerify p) (s_verificationAddr p) (s_verificationSig p) (s_verificationMsg p) (s_verificationMsgIsValid p)
    (s_verificationAddrIsValid p) (s_verificationSigIsValid p) (s_told p).

(** [setShowConfirmMsgToSign(v)] *)
Definition showConfirmMsgToSign (v : bool) (p : page) : page :=
  mkPage (s_messageSignature p) v (s_msgToSign p) (s_signMessageIsValid p) (s_showConfirmMsgToVerify p) (s_verificationAddr p) (s_verificationSig p)
    (s_verificationMsg p) (s_verificationMsgIsValid p) (s_verificationAddrIsValid p) (s_verificationSigIsValid p) (s_told p).

Definition tell (n : notice) (p : page) : page :=
  mkPage (s_messageSignature p) (s_showConfirmMsgToSign p) (s_msgToSign p) (s_signMessageIsValid p) (s_showConfirmMsgToVerify p) (s_verificationAddr p)
    (s_verificationSig p) (s_verificationMsg p) (s_verificationMsgIsValid p) (s_verificationAddrIsValid p) (s_verificationSigIsValid p) (s_told p ++ [n]).

Definition setMessageSignature (v : string) (p : page) : page :=
  mkPage v (s_showConfirmMsgToSign p) (s_msgToSign p) (s_signMessageIsValid p) (s_showConfirmMsgToVerify p) (s_verificationAddr p) (s_verificationSig p)
    (s_verificationMsg p) (s_verificationMsgIsValid p) (s_verificationAddrIsValid p) (s_verificationSigIsValid p) (s_told p).

(** The signature in base 64. *)
Definition signature_of (w : wallet) (message : string) : result string :=
  match Path1899 w with
  | None => Throw (TypeError "Cannot read properties of undefined")
  | Some a =>
      keyPair ← getECPairFromWIF (fundingWif a);
      match kp_d keyPair with
      | None => Throw (TypeError "Cannot read properties of null")
      | Some d =>
          s ← Message.sign (OpReturn.bytes_of message) (Message.KeyBuffer (bi_toBuffer d 32)) (kp_compressed keyPair) Message.NoPrefix None;
          Ok (Base64.toBase64 s)
      end
  end.

(** The page, and the exception that is thrown again. *)
Definition signMessageByPk (w : wallet) (p : page) : page * result unit :=
  match signature_of w (s_msgToSign p) with
  | Ok s => (showConfirmMsgToSign false (tell (Signed s) (setMessageSignature s p)), Ok tt)
  | Throw e => (tell SigningError p, Throw e)
  end.

(** ** Verifying *)

Definition set_verification (addr sig msg : string) (addrIsValid sigIsValid msgIsValid : bool) (p : page) : page :=
  mkPage (s_messageSignature p) (s_showConfirmMsgToSign p) (s_msgToSign p) (s_signMessageIsValid p) (s_showConfirmMsgToVerify p) addr sig msg
    msgIsValid addrIsValid sigIsValid (s_told p).

Definition handleVerifyMsgChange (value : string) (p : page) : page :=
  set_verification (s_verificationAddr p) (s_verificationSig p) value (s_verificationAddrIsValid p) (s_verificationSigIsValid p) (message_valid value) p.

Definition handleVerifySigChange (value : string) (p : page) : page :=
  set_verification (s_verificationAddr p) value (s_verificationMsg p) (s_verificationAddrIsValid p) (length16 value =? 88) (s_verificationMsgIsValid p) p.

Definition handleMessageVerificationAddrChange (value : string) (p : page) : page :=
  let address := SendForm.ai_address (SendForm.parseAddressForParams value) in
  set_verification address (s_verificationSig p) (s_verificationMsg p) (WalletAddress.isValidXecAddress address) (s_verificationSigIsValid p) (s_verificationMsgIsValid p) p.

(** The button that asks for the confirmation is not disabled. *)
Definition can_verify (p : page) : bool := s_verificationAddrIsValid p && s_verificationSigIsValid p && s_verificationMsgIsValid p.

Definition hideConfirmMsgToVerify (p : page) : page :=
  mkPage (s_messageSignature p) (s_showConfirmMsgToSign p) (s_msgToSign p) (s_signMessageIsValid p) false (s_verificationAddr p) (s_verificationSig p)
    (s_verificationMsg p) (s_verificationMsgIsValid p) (s_verificationAddrIsValid p) (s_verificationSigIsValid p) (s_told p).

(** After an exception the signature is also said not to match. *)
Definition verifyMessageBySig (p : page) : page :=
  let verification := Message.verify (OpReturn.bytes_of (s_verificationMsg p)) (s_verificationAddr p) (Message.SigText (s_verificationSig p)) Message.NoPrefix in
  hideConfirmMsgToVerify
    match verification with
    | Ok true => tell Verified p
    | Ok false => tell NoMatch p
    | Throw _ => tell NoMatch (tell VerificationError p)
    end.

End S.
End SignVerify.

(** * A signed message verifies

    What the wallet signs on the page for messages, the same page verifies against the
    address of the wallet. *)

From S2P Require Import Ecdsa HDNode Drafts Payments Signing Accounts.
Import CashMethods Signing AccountsLaws Validation SignVerify.
(** The curve of [secp256k1] is that of [ecurve]: a key that is in range has the same public
    key in both packages, and signs. *)
Class SecpCurve `{!Bigi} `{!BigiSpec} `{!Ecurve} `{!Secp256k1} : Prop := {
  sp_publicKey_curve d c : 0 < bi_Z d < bi_Z ec_n → sp_publicKey (bi_toBuffer d 32) c = Ok (pt_getEncoded (pt_multiply ec_G d) c);
  sp_sign_curve hash d : bytes_ok hash → blen hash = 32 → 0 < bi_Z d < bi_Z ec_n → returns (sp_sign hash (bi_toBuffer d 32) None);
}.

Module SignVerifyLaws.

(** ** The length of base 64 *)

Lemma list_ascii_append s t : String.list_ascii_of_string (String.append s t) = String.list_ascii_of_string s ++ String.list_ascii_of_string t.
Proof. induction s as [|c s IH]; [done|]. change (c :: String.list_ascii_of_string (String.append s t) = c :: (String.list_ascii_of_string s ++ String.list_ascii_of_string t)). by rewrite IH. Qed.

Lemma digit_units n : 0 <= n < 64 → units_of (Base64.digit n) = 1.
Proof.
  intros H. assert (forallb (λ n, units_of (Base64.digit n) =? 1) (map Z.of_nat (seq 0 64)) = true) as F by (vm_compute; reflexivity).
  rewrite forallb_forall in F. apply Z.eqb_eq, F, in_map_iff. exists (Z.to_nat n). split; [lia|apply in_seq; lia].
Qed.

Lemma digits_units ds : Forall (λ d, 0 <= d < 64) ds → zsum (map units_of (map Base64.digit ds)) = len ds.
Proof. induction 1 as [|d ds Hd _ IH]; [done|]. unfold len in *. cbn [map zsum foldr length]. rewrite digit_units by done. fold (zsum (map units_of (map Base64.digit ds))). lia. Qed.

(** Four characters for three bytes, the last group padded. *)
Lemma digits_padding b : len (Base64.digits b) + length16 (Base64.padding b) = 4 * ((blen b + 2) / 3).
Proof.
  induction b as [|x|x y|x y z b IH] using Base64.bytes_ind; try reflexivity.
  assert (E : Base64.padding (x :: y :: z :: b) = Base64.padding b).
  { unfold Base64.padding. rewrite !blen_cons. replace (1 + (1 + (1 + blen b))) with (blen b + 1 * 3) by lia. by rewrite Z.mod_add. }
  rewrite E. cbn [Base64.digits]. unfold len in *. cbn [length]. rewrite !blen_cons. replace (1 + (1 + (1 + blen b)) + 2) with (blen b + 2 + 1 * 3) by lia.
  rewrite Z.div_add by lia. lia.
Qed.

Lemma base64_length b : bytes_ok b → length16 (Base64.toBase64 b) = 4 * ((blen b + 2) / 3).
Proof.
  intros Hb. rewrite <- digits_padding. unfold Base64.toBase64, length16. rewrite list_ascii_append, map_app, zsum_app, String.list_ascii_of_string_of_list_ascii.
  by rewrite digits_units by by apply Base64.sextets_ok.
Qed.

Section S.
Context {Mem : UninitMem} `{TF : !Typeforce} `{VU : !VarUint} `{CH : !CreateHash} `{BI : !Bigi} `{EC : !Ecurve} `{WF : !Wif}
  `{CA : !Cashaddr} `{BN : !BigNumber} `{SP : !Secp256k1} `{BE : !BufferEquals}.
Context `{TS : !TypeforceSpec} `{VUS : !VarUintSpec} `{CS : !CreateHashSpec} `{BS : !BigiSpec} `{ES : !EcurveSpec} `{WS : !WifSpec}
  `{SPS : !Secp256k1Spec} `{BES : !BufferEqualsSpec} `{SPC : !SecpCurve}.

(** The hash that the wallet signs, and that of the other prefix, which [verify] tries as
    well. *)
Definition signed_hash (m : string) : buffer :=
  let b := OpReturn.bytes_of m in Message.hash256 (OpReturn.bytes_of Message.ecash_prefix ++ vu_bytes (blen b) ++ b).
Definition other_hash (m : string) : buffer :=
  let b := OpReturn.bytes_of m in Message.hash256 (OpReturn.bytes_of Message.bitcoin_prefix ++ vu_bytes (blen b) ++ b).

(** The last thing the user is told. *)
Definition last_told (p : page) : option notice := last (s_told p).


End S.

(** ** Example *)
Section Examples.
Import Concrete ConcreteText ConcreteCurve ConcreteBn ConcreteWallet.
Local Existing Instance zero_mem.

(** A signature has the key and the hash. *)
Local Instance a_secp : Secp256k1 := {
  sp_sign h d e := if (blen h =? 32) && (blen d =? 32) && bool_decide (bytes_ok (d ++ h)) then Ok (d ++ h, 1) else Throw (Error "invalid");
  sp_recover h s r c := Ok (pt_getEncoded (pt_multiply ec_G (bi_fromBuffer (take 32 s))) c);
  sp_publicKey d c := Ok (pt_getEncoded (pt_multiply ec_G (bi_fromBuffer d)) c);
}.

Local Instance a_secp_spec : Secp256k1Spec.
Proof.
  split.
  - intros h d e sig r. cbn [sp_sign a_secp]. destruct (_ && _) eqn:E; [|done]. intros [= <- <-]. bool_facts. apply bool_decide_eq_true in H0. rewrite blen_app. split_and!; try done; lia.
  - intros h d e sig r c pk. cbn [sp_sign sp_publicKey sp_recover a_secp]. destruct (_ && _) eqn:E; [|done]. intros [= <- <-] [= <-]. bool_facts.
    assert (length d = 32%nat) as Hd by (unfold blen in *; lia). by rewrite take_app_length'.
Qed.

Lemma key_bytes (d : Z) : 0 < d < 7 → be_val (be_bytes 32 d) = d.
Proof. intros Hd. rewrite be_val_be_bytes. apply Z.mod_small. lia. Qed.

Local Instance a_secp_curve : SecpCurve.
Proof.
  split.
  - intros d c Hd. change (0 < d < 7) in Hd. cbn [sp_publicKey a_secp]. change (bi_fromBuffer (bi_toBuffer d 32)) with (be_val (be_bytes 32 d)). by rewrite key_bytes.
  - intros h d Hb Hl Hd. cbn [sp_sign a_secp]. change (bi_toBuffer d 32) with (be_bytes 32 d). rewrite Hl, blen_be_bytes.
    rewrite bool_decide_true; [by eexists|]. apply bytes_ok_app. split; [auto with js|done].
Qed.

Local Instance an_equals : BufferEquals := { be_equals a b := bool_decide (a = b) }.
Local Instance an_equals_spec : BufferEqualsSpec.
Proof. split. intros a b. apply bool_decide_eq_true. Qed.

Local Definition a_key : bi (Bigi := bigi) := 3.
Local Definition key_wif : string := match wif_encode (Networks.wif TxBuilder.ecash) (be_bytes 32 3) true with Ok s => s | Throw _ => EmptyString end.
Local Definition public_key : buffer := pt_getEncoded (pt_multiply ec_G 3) true.
Local Definition an_address : string := match ca_encode "ecash" "P2PKH" (Crypto.hash160 public_key) with Ok s => s | Throw _ => EmptyString end.
Local Definition an_account : account := mkAccount an_address key_wif (Some (Hex.toHex (Crypto.hash160 public_key))) (Some (Hex.toHex public_key)).
Local Definition a_wallet : wallet := mkWallet "seed" "one" an_account an_account (Some an_account) None.

Lemma an_account_ok : account_ok an_account.
Proof. exists (mkPair (Some a_key) None true TxBuilder.ecash), a_key. repeat (split; [reflexivity|]). reflexivity. Qed.


End Examples.
End SignVerifyLaws.
