(* ===== verification/Extension.v ===== *)
(** * The browser extension

    The messages between a web page, the content script, the background script and the
    window of the extension: [cashtab/extension/src/contentscript.js], [background.js] and
    the handlers of [components/App.js].  A message is a value; the browser is asked for the
    active tab and the stored address. *)

From stdpp Require Import base tactics list gmap numbers strings pretty.
From Stdlib Require Import Ascii.
From S2P Require Import Prelude JsNumber JsFloat NodeBuffer Encodings JsString JsDecimal BigNumber OpReturn WalletExternals WalletAddress Wallet TransactionBuilder Validation.
Import Validation.
Open Scope Z_scope.

Module Extension.

(** [o[name]] of any value that is not [null] or [undefined] *)
Definition prop (name : string) (v : json) : json :=
  match v with JObject fields => default JUndefined (field name fields) | _ => JUndefined end.

(** [v == text], for a text that is not that of a number *)
Definition loose_text (t : string) (v : json) : bool :=
  match v with
  | JString s => String.eqb s t
  | JArray _ => String.eqb (array_text v) t
  | _ => false
  end.
Definition strict_text (t : string) (v : json) : bool := match v with JString s => String.eqb s t | _ => false end.

Definition truthy (v : json) : bool :=
  match v with
  | JUndefined | JNull | JBool false | JNumber 0 => false
  | JDouble x => num_truthy x
  | JString s => negb (OpReturn.is_empty s)
  | _ => true
  end.

(** The text of a value in [+] and in a template. *)
Definition template_text (v : json) : string :=
  match v with JUndefined => "undefined" | JNull => "null" | _ => array_text v end.

(** ** The content script *)

(** What is posted to the port for a message that the window gets; [own] says whether the
    window itself posted it.  Reading a field of [null] or [undefined] throws. *)
Definition contentscript_message (own : bool) (data : json) : result (option json) :=
  match data with
  | JUndefined | JNull => TransactionBuilder.no_property
  | _ => Ok (if negb own then None else if truthy (prop "type" data) && loose_text "FROM_PAGE" (prop "type" data) then Some data else None)
  end.

(** What is posted to the window for a message of the background script. *)
Definition contentscript_reply (message : json) : option json :=
  if truthy message && truthy (prop "address" message)
  then Some (JObject [("type", JString "FROM_CASHTAB"); ("address", prop "address" message)]%string) else None.

(** [window.location.hash] of a window at an address: from the first [#]; [None] is empty. *)
Definition location_hash (url : string) : option string :=
  match (split_first "#" url).2 with EmptyString => None | s => Some (String "#" s) end.

(** ** The background script *)

Record tab := mkTab { tab_id : Z; tab_url : string }.

(** What the script asks the browser to do: a message to the tab with a number, or a window
    at an address. *)
Inductive action :=
| SendToTab (tabId : json) (message : json)
| OpenWindow (url : string).

(** The state of the browser: the tab that [tabs.query] gives first, or [None] when it
    fails, and the item [address] of the storage. *)
Record browser := mkBrowser { b_active : option tab; b_address : option string }.

(** [Number(tabId)] is taken by the browser for the number of a tab. *)
Definition fetchAddress (b : browser) (tabId : json) : action :=
  SendToTab tabId (JObject [("address"%string, match b_address b with Some a => JString a | None => JUndefined end)]).

Definition handleDeniedAddressRequest (tabId : json) : action :=
  SendToTab tabId (JObject [("address", JString "Address request denied by user")]%string).

Definition openAddressShareApproval (request : string) (t : tab) : action :=
  let queryString := String.append "request=" (String.append request (String.append "&tabId=" (String.append (pretty (tab_id t)) (String.append "&tabUrl=" (tab_url t))))) in
  OpenWindow (String.append "index.html#/wallet?" queryString).

(** The keys of an object in order, and the texts of its values. *)
Definition openSendXec (txInfo : json) : action :=
  let keys := match txInfo with JObject fields => fields | _ => [] end in
  let queryString := join "&" (map (λ kv, String.append kv.1 (String.append "=" (template_text kv.2))) keys) in
  OpenWindow (String.append "index.html#/send?" queryString).

(** The listener of the port.  It does not look at where the message comes from. *)
Definition onMessage (b : browser) (msg : json) : list action :=
  (if loose_text "Cashtab" (prop "text" msg) && truthy (prop "txInfo" msg) then [openSendXec (prop "txInfo" msg)] else []) ++
  (if strict_text "Cashtab" (prop "text" msg) && truthy (prop "addressRequest" msg)
   then match b_active b with Some t => [openAddressShareApproval "addressRequest" t] | None => [] end else []) ++
  (if strict_text "Cashtab" (prop "text" msg) && match msg with JObject fields => match field "addressRequestApproved" fields with Some _ => true | None => false end | _ => false end
   then if truthy (prop "addressRequestApproved" msg) then [fetchAddress b (prop "tabId" msg)] else [handleDeniedAddressRequest (prop "tabId" msg)]
   else []).

(** ** The window of the extension *)

(** The request that the window asks the user about: the tab and its address. *)
Record request := mkRequest { r_tabId : option string; r_tabUrl : option string }.

(** [s.split(sep)[1]] *)
Definition second_part (sep s : string) : option string :=
  let i := indexOf s sep in
  if i <? 0 then None
  else
    let rest := str_drop (Z.to_nat (i + strlen sep)) s in
    let j := indexOf rest sep in
    Some (if j <? 0 then rest else str_take (Z.to_nat j) rest).

(** The effect of the first render; [hash] is that of the window, and an exception is
    caught. *)
Definition read_request (hash : option string) : option request :=
  match hash with
  | None => None
  | Some hash =>
      if String.eqb hash "#/wallet" then None
      else
        let queryString := default EmptyString (second_part "#/wallet?" hash) in
        let params := URLSearchParams queryString in
        match params_get params "request" with
        | Some r => if String.eqb r "addressRequest" then Some (mkRequest (params_get params "tabId") (params_get params "tabUrl")) else None
        | None => None
        end
  end.

Definition text_json (o : option string) : json := match o with Some s => JString s | None => JNull end.

(** What the window posts to the background script. *)
Definition answer (approved : bool) (r : request) : json :=
  JObject [("type", JString "FROM_CASHTAB"); ("text", JString "Cashtab"); ("addressRequestApproved", JBool approved); ("url", text_json (r_tabUrl r)); ("tabId", text_json (r_tabId r))]%string.
Definition handleApprovedAddressShare : request → json := answer true.
Definition handleRejectedAddressShare : request → json := answer false.

Section Storage.
Context `{CA : !Cashaddr}.

(** The item of the storage after the wallet of the window has changed. *)
Definition copyAddressToExtensionStorage (wallet : option wallet) (stored : option string) : option string :=
  match wallet ≫= Path1899 with
  | None => stored
  | Some account =>
      match WalletAddress.convertToEcashPrefix (cashAddress account) with
      | Throw _ => stored
      | Ok address => if bool_decide (Some address = stored) then stored else Some address
      end
  end.

End Storage.
End Extension.

(** * From a web page to the wallet and back

    What happens to a request of a web page on its way through the content script, the
    background script and the window of the extension. *)

From S2P Require Import JsText Utf8 SendForm.
Import Validation Extension.
Module ExtensionLaws.

(** ** Texts without separators *)

Definition lacks (seps : list ascii) (s : string) : Prop := Forall (λ c, c ∉ seps) (String.list_ascii_of_string s).

Lemma split_on_lacks sep s : lacks [sep] s → split_on sep s = [s].
Proof.
  induction s as [|c s IH]; [done|]. unfold lacks. cbn [String.list_ascii_of_string]. intros [Hc H]%Forall_cons. cbn [split_on].
  rewrite bool_decide_eq_false_2 by (intros ->; apply Hc; left). by rewrite IH.
Qed.

Lemma append_cons c s t : String.append (String c s) t = String c (String.append s t).
Proof. done. Qed.
Lemma append_nil t : String.append EmptyString t = t.
Proof. done. Qed.

Lemma split_on_app sep s t : lacks [sep] s → split_on sep (String.append s (String sep t)) = s :: split_on sep t.
Proof.
  induction s as [|c s IH]; [intros _; rewrite append_nil; cbn [split_on]; by rewrite bool_decide_eq_true_2|]. unfold lacks. cbn [String.list_ascii_of_string]. intros [Hc H]%Forall_cons.
  rewrite append_cons. cbn [split_on]. rewrite bool_decide_eq_false_2 by (intros ->; apply Hc; left). by rewrite IH.
Qed.

Lemma lacks_app seps s t : lacks seps s → lacks seps t → lacks seps (String.append s t).
Proof.
  unfold lacks. induction s as [|c s IH]; [done|]. rewrite append_cons. cbn [String.list_ascii_of_string]. intros [Hc H]%Forall_cons Ht. constructor; [done|by apply IH].
Qed.

Lemma lacks_cons seps c s : c ∉ seps → lacks seps s → lacks seps (String c s).
Proof. intros Hc H. by constructor. Qed.

Lemma lacks_sub seps seps' s : seps' ⊆ seps → lacks seps s → lacks seps' s.
Proof. intros Hs H. eapply Forall_impl; [exact H|]. intros c Hc Hc'. by apply Hc, Hs. Qed.

Lemma split_first_app sep s t : lacks [sep] s → split_first sep (String.append s (String sep t)) = (s, t).
Proof.
  induction s as [|c s IH]; [intros _; rewrite append_nil; cbn [split_first]; by rewrite bool_decide_eq_true_2|]. unfold lacks. cbn [String.list_ascii_of_string]. intros [Hc H]%Forall_cons.
  rewrite append_cons. cbn [split_first]. rewrite bool_decide_eq_false_2 by (intros ->; apply Hc; left). by rewrite IH.
Qed.

(** Characters that an encoded form has as they are. *)
Definition plain_char (c : ascii) : Prop := code c < 128 ∧ c ≠ "+"%char ∧ c ≠ "%"%char.
Definition plain (s : string) : Prop := Forall plain_char (String.list_ascii_of_string s).

Lemma percent_decode_plain s : plain s → percent_decode s = s.
Proof.
  induction s as [|c s IH]; [done|]. unfold plain. cbn [String.list_ascii_of_string]. intros [(_ & H1 & H2) H]%Forall_cons. specialize (IH H).
  destruct c as [[] [] [] [] [] [] [] []]; cbn [percent_decode]; try (by rewrite IH); done.
Qed.

Lemma toString_ascii bs : Forall (λ b, 0 <= b < 128) bs → Utf8.toString bs = bs.
Proof.
  induction 1 as [|b bs Hb _ IH]; [done|]. unfold Utf8.toString in *. cbn [Utf8.decode_from]. unfold Utf8.followers, Utf8.within.
  rewrite (proj2 (Z.leb_le 0 b)), (proj2 (Z.leb_le b 0x7f)) by lia. cbn [andb]. by rewrite IH.
Qed.

Lemma read_plain s : plain s → read_utf8 (percent_decode s) = s.
Proof.
  intros H. rewrite percent_decode_plain by done. unfold read_utf8. rewrite toString_ascii.
  - rewrite map_map, (map_ext _ id), map_id; [apply String.string_of_list_ascii_of_string|]. intros c. unfold code. by rewrite N2Z.id, ascii_N_embedding.
  - apply Forall_map. eapply Forall_impl; [exact H|]. intros c (Hc & _). unfold code in *. lia.
Qed.

(** ** Digits *)

Lemma pretty_lacks (z : Z) : lacks ["&"; "#"]%char (pretty z).
Proof. apply (pretty_all (λ c, c ∉ ["&"; "#"]%char)); [decided|]. apply (digit_cases (λ c, c ∉ ["&"; "#"]%char)). decided. Qed.

Lemma pretty_plain (z : Z) : plain (pretty z).
Proof. apply (pretty_all plain_char); [done|]. apply (digit_cases plain_char). repeat constructor; done. Qed.

(** ** Requests for the address *)

(** A web page approves its own request.  A message that a page posts to itself, of the form
    that the window of the extension uses after the user has agreed, is forwarded by the
    content script; the background script answers with the address of the wallet to
    whichever tab the message names, without opening a window, and the content script of
    that tab hands it to its page. *)
Theorem page_approves_itself b address tabId : b_address b = Some address → address ≠ EmptyString →
  let data := JObject [("type", JString "FROM_PAGE"); ("text", JString "Cashtab"); ("addressRequestApproved", JBool true); ("tabId", tabId)]%string in
  let reply := JObject [("address"%string, JString address)] in
  contentscript_message true data = Ok (Some data) ∧ onMessage b data = [SendToTab tabId reply] ∧
  contentscript_reply reply = Some (JObject [("type", JString "FROM_CASHTAB"); ("address", JString address)]%string).
Proof.
  intros Ea Hne data reply. split; [reflexivity|]. split; [unfold onMessage, fetchAddress; cbn; by rewrite Ea|].
  unfold contentscript_reply, reply, prop. cbn [field]. change (String.eqb "address" "address") with true. cbn [default from_option id truthy].
  unfold OpReturn.is_empty. by rewrite (proj2 (String.eqb_neq _ _) Hne).
Qed.

(** A text without the first character of another does not have it. *)
Lemma indexOf_lacks c p s : lacks [c] s → indexOf s (String c p) = -1.
Proof.
  induction s as [|d s IH]; [done|]. unfold lacks. cbn [String.list_ascii_of_string]. intros [Hd H]%Forall_cons. cbn [indexOf].
  assert (E : starts (String c p) (String d s) = false). { unfold starts. cbn. destruct (ascii_dec c d) as [->|]; [by destruct Hd; left|done]. }
  rewrite E, IH by done. done.
Qed.

(** The query string of the window. *)
Lemma approval_params (id : Z) url : plain url → lacks ["&"; "#"]%char url →
  let q := String.append "request=addressRequest&tabId=" (String.append (pretty id) (String.append "&tabUrl=" url)) in
  lacks ["#"%char] q ∧ URLSearchParams q = [("request", "addressRequest"); ("tabId", pretty id); ("tabUrl", url)]%string.
Proof.
  intros Hp Hl q. assert (Hi : lacks ["&"; "#"]%char (pretty id)) by apply pretty_lacks. assert (Hq : lacks ["#"%char] q).
  { repeat apply lacks_app; try decided; (eapply lacks_sub; [|eassumption]); intros c ->%list_elem_of_singleton; right; left. }
  split; [done|]. unfold URLSearchParams. change (strip_question q) with q.
  assert (Es : split_on "&" q = ["request=addressRequest"; String.append "tabId=" (pretty id); String.append "tabUrl=" url]%string).
  { unfold q. change (String.append "request=addressRequest&tabId=" ?x) with (String.append "request=addressRequest" (String "&" (String.append "tabId=" x))).
    rewrite split_on_app by decided. f_equal.
    change (String.append "&tabUrl=" url) with (String "&" (String.append "tabUrl=" url)). rewrite <- append_assoc.
    rewrite split_on_app by (apply lacks_app; [decided|eapply lacks_sub; [|exact Hi]; intros c ->%list_elem_of_singleton; left]). f_equal.
    apply split_on_lacks, lacks_app; [decided|eapply lacks_sub; [|exact Hl]; intros c ->%list_elem_of_singleton; left]. }
  rewrite Es. change (List.filter _ _) with ["request=addressRequest"%string; String.append "tabId" (String "=" (pretty id)); String.append "tabUrl" (String "=" url)].
  cbn [map]. rewrite !split_first_app by decided. rewrite (read_plain (pretty id)) by apply pretty_plain. rewrite (read_plain url) by done. done.
Qed.

(** The address is shared with the tab that the user sees.  A request for the address opens
    one window; the window shows the address of the active tab, for every address of a page
    without the characters that separate a query; when the user agrees, the address of the
    wallet goes to that tab, and when the user does not, the tab gets a refusal. *)
Theorem address_request_flow b t address : b_active b = Some t → b_address b = Some address → plain (tab_url t) → lacks ["&"; "#"]%char (tab_url t) →
  let data := JObject [("type", JString "FROM_PAGE"); ("text", JString "Cashtab"); ("addressRequest", JBool true)]%string in
  let tabId := JString (pretty (tab_id t)) in
  ∃ url r, contentscript_message true data = Ok (Some data) ∧ onMessage b data = [OpenWindow url] ∧
    read_request (location_hash url) = Some r ∧ r_tabUrl r = Some (tab_url t) ∧
    onMessage b (handleApprovedAddressShare r) = [SendToTab tabId (JObject [("address"%string, JString address)])] ∧
    onMessage b (handleRejectedAddressShare r) = [SendToTab tabId (JObject [("address", JString "Address request denied by user")]%string)].
Proof.
  intros Et Ea Hp Hl data tabId. destruct (approval_params (tab_id t) (tab_url t) Hp Hl) as [Hq Hu].
  set (q := String.append "request=addressRequest&tabId=" (String.append (pretty (tab_id t)) (String.append "&tabUrl=" (tab_url t)))) in *.
  exists (String.append "index.html#/wallet?" q), (mkRequest (Some (pretty (tab_id t))) (Some (tab_url t))).
  split; [reflexivity|]. split; [unfold onMessage; cbn; by rewrite Et|]. split.
  - change (location_hash _) with (Some (String.append "#/wallet?" q)). unfold read_request.
    change (String.eqb (String.append "#/wallet?" q) "#/wallet") with false. cbv iota.
    assert (E : second_part "#/wallet?" (String.append "#/wallet?" q) = Some q).
    { unfold second_part. change (indexOf (String.append "#/wallet?" q) "#/wallet?") with 0. cbv zeta. change (str_drop _ _) with q. by rewrite indexOf_lacks. }
    rewrite E. cbn [default from_option id]. rewrite Hu. reflexivity.
  - split; [reflexivity|]. split; [unfold onMessage, fetchAddress; cbn; by rewrite Ea|reflexivity].
Qed.

(** ** Requests for a payment *)

Section Payments.
Context `{BN : !BigNumber} `{CA : !Cashaddr}.

(** What the page that sends coins shows for a message whose amount has a text. *)
Lemma payment_form b address v value : address ≠ EmptyString → value ≠ EmptyString → template_text v = value →
  lacks ["?"; "&"; "="; "#"]%char address → lacks ["?"; "&"; "="; "#"]%char value →
  let data := JObject [("type", JString "FROM_PAGE"); ("text", JString "Cashtab"); ("txInfo", JObject [("address", JString address); ("value", v)])]%string in
  ∃ url s, contentscript_message true data = Ok (Some data) ∧ onMessage b data = [OpenWindow url] ∧
    SendForm.on_load (SendForm.mkLocation None None None None (location_hash url)) SendForm.initial = (s, Ok tt) ∧
    SendForm.s_formData s = SendForm.mkForm (JString value) (JString address) JUndefined ∧ SendForm.s_txInfoFromUrl s ≠ None.
Proof.
  intros Ha Hv Et Hla Hlv data. set (q := String.append "address=" (String.append address (String.append "&value=" value))).
  assert (Hq : lacks ["?"%char] q). { repeat apply lacks_app; try decided; (eapply lacks_sub; [|eassumption]); intros c ->%list_elem_of_singleton; left. }
  assert (Er : SendForm.read_txInfo q = <["value"%string := Some value]> (<["address"%string := Some address]> ∅)).
  { unfold SendForm.read_txInfo. change q with (String.append "address" (String "=" (String.append address (String "&" (String.append "value" (String "=" value)))))).
    change (String.append "address" (String "=" ?x)) with (String.append "address=" x). rewrite <- append_assoc.
    rewrite split_on_app by (apply lacks_app; [decided|eapply lacks_sub; [|exact Hla]; intros c ->%list_elem_of_singleton; right; left]).
    rewrite (split_on_lacks "&") by (apply lacks_app; [decided|]; apply lacks_cons; [decided|]; eapply lacks_sub; [|exact Hlv]; intros c ->%list_elem_of_singleton; right; left).
    cbn [fold_left]. change (String.append "address=" address) with (String.append "address" (String "=" address)).
    rewrite !split_on_app, !split_on_lacks by (try decided; (eapply lacks_sub; [|eassumption]); intros c ->%list_elem_of_singleton; right; right; left). done. }
  exists (String.append "index.html#/send?" q). eexists. split; [reflexivity|]. split; [unfold onMessage, openSendXec; cbn; by rewrite Et|].
  change (location_hash _) with (Some (String.append "#/send" (String "?" q))). unfold SendForm.on_load. cbn [SendForm.l_hash].
  change (String.eqb (String.append "#/send" (String "?" q)) "#/send") with false. cbv iota. rewrite split_on_app, split_on_lacks by (done || decided). cbn [lookup list_lookup].
  split; [reflexivity|]. rewrite Er. unfold SendForm.populateFormsFromUrl. rewrite lookup_insert_eq, lookup_insert_ne, lookup_insert_eq by done.
  unfold OpReturn.is_empty. rewrite (proj2 (String.eqb_neq _ _) Ha), (proj2 (String.eqb_neq _ _) Hv). done.
Qed.

(** A request of a page fills the form.  The address and the amount that the button of a
    page posts reach the page that sends coins as they are, when they have none of the
    characters that separate a query, and that page knows that they came from outside, so
    that it asks for a confirmation. *)
Theorem request_fills_form b address value : address ≠ EmptyString → value ≠ EmptyString →
  lacks ["?"; "&"; "="; "#"]%char address → lacks ["?"; "&"; "="; "#"]%char value →
  let data := JObject [("type", JString "FROM_PAGE"); ("text", JString "Cashtab"); ("txInfo", JObject [("address", JString address); ("value", JString value)])]%string in
  ∃ url s, contentscript_message true data = Ok (Some data) ∧ onMessage b data = [OpenWindow url] ∧
    SendForm.on_load (SendForm.mkLocation None None None None (location_hash url)) SendForm.initial = (s, Ok tt) ∧
    SendForm.s_formData s = SendForm.mkForm (JString value) (JString address) JUndefined ∧ SendForm.s_txInfoFromUrl s ≠ None.
Proof. intros Ha Hv Hla Hlv. by apply (payment_form b address (JString value) value). Qed.

End Payments.

(** ** Examples *)

Section Examples.
Import ConcreteBn ConcreteWallet.

Local Definition a_browser : browser := mkBrowser (Some (mkTab 7 "https://shop.example/")) (Some "ecash:qa"%string).

Lemma page_approves_itself_witness :
  onMessage a_browser (JObject [("type", JString "FROM_PAGE"); ("text", JString "Cashtab"); ("addressRequestApproved", JBool true); ("tabId", JNumber 7)]%string) =
    [SendToTab (JNumber 7) (JObject [("address"%string, JString "ecash:qa")])].
Proof. refine (proj1 (proj2 (page_approves_itself a_browser "ecash:qa" (JNumber 7) eq_refl _))). discriminate. Defined.

Lemma address_request_flow_witness : ∃ url r, read_request (location_hash url) = Some r ∧ r_tabUrl r = Some "https://shop.example/"%string.
Proof.
  destruct (address_request_flow a_browser (mkTab 7 "https://shop.example/") "ecash:qa") as (url & r & _ & _ & H1 & H2 & _).
  - reflexivity.
  - reflexivity.
  - repeat (constructor; [split; [reflexivity|split; discriminate]|]). constructor.
  - decided.
  - exists url, r. split; [exact H1|exact H2].
Defined.

Lemma request_fills_form_witness : ∃ url s,
  SendForm.on_load (SendForm.mkLocation None None None None (location_hash url)) SendForm.initial = (s, Ok tt) ∧
  SendForm.s_formData s = SendForm.mkForm (JString "20") (JString "ecash:qa") JUndefined.
Proof.
  destruct (request_fills_form a_browser "ecash:qa" "20") as (url & s & _ & _ & H1 & H2 & _); [discriminate|discriminate|decided|decided|].
  exists url, s. split; [exact H1|exact H2].
Defined.

End Examples.
End ExtensionLaws.
