(* ===== verification/Contacts.v ===== *)
(** * The list of contacts

    The handlers of [cashtab/src/components/Configure/Configure.js] for the list of
    contacts, which the page keeps beside the database and the state of the application.
    An exception in a handler leaves the page as it was; nobody waits for the promise. *)

From stdpp Require Import base tactics list gmap numbers strings.
From S2P Require Import Prelude JsFloat NodeBuffer JsString OpReturn WalletExternals WalletAddress Wallet ChronikUtils Validation App Settings Extension.
Import ChronikUtils Validation Settings.
Open Scope Z_scope.

(** ** Contacts *)
Module Contacts.

(** What the user is told. *)
Inductive message := Added (address : string) | Exists_ (address : string) | Removed (address : json) | NotStored | NotFound.

Record renameForm := mkRename { rn_shown : bool; rn_contact : json; rn_valid : option bool; rn_name : string }.
Record deleteForm := mkDelete { dl_shown : bool; dl_address : json; dl_valid : option bool; dl_text : string }.
(** The name and the address are also those of the saved wallet that is to be added. *)
Record manualForm := mkManual {
  mn_shown : bool; mn_savedShown : bool; mn_name : string; mn_address : string; mn_nameValid : option bool; mn_addressValid : option bool;
}.

(** [p_contactListArray] is [None] for [null] and [undefined].  [p_shared] says that the list
    of the state of the application is the same array: an element that is pushed or changed
    here is then changed there. *)
Record page := mkPage {
  p_contactListArray : option (list json);
  p_shared : bool;
  p_rename : renameForm;
  p_delete : deleteForm;
  p_manual : manualForm;
  p_told : list message;
}.

Definition initial : page :=
  mkPage (Some [JObject []]) false (mkRename false JNull None EmptyString) (mkDelete false JNull None EmptyString)
    (mkManual false false EmptyString EmptyString None None) [].

Definition set_list (l : option (list json)) (shared : bool) (p : page) : page := mkPage l shared (p_rename p) (p_delete p) (p_manual p) (p_told p).
Definition set_rename (f : renameForm → renameForm) (p : page) : page := mkPage (p_contactListArray p) (p_shared p) (f (p_rename p)) (p_delete p) (p_manual p) (p_told p).
Definition set_delete (f : deleteForm → deleteForm) (p : page) : page := mkPage (p_contactListArray p) (p_shared p) (p_rename p) (f (p_delete p)) (p_manual p) (p_told p).
Definition set_manual (f : manualForm → manualForm) (p : page) : page := mkPage (p_contactListArray p) (p_shared p) (p_rename p) (p_delete p) (f (p_manual p)) (p_told p).
Definition tell (m : message) (p : page) : page := mkPage (p_contactListArray p) (p_shared p) (p_rename p) (p_delete p) (p_manual p) (p_told p ++ [m]).

(** ** Elements *)

(** [element.name] of any element *)
Definition get (name : string) (element : json) : result json :=
  match element with
  | JNull | JUndefined => Throw (TypeError "Cannot read properties of null")
  | _ => Ok (Extension.prop name element)
  end.

(** [a === b]; an address is not an object *)
Definition same (a b : json) : bool :=
  match a, b with
  | JUndefined, JUndefined | JNull, JNull => true
  | JBool a, JBool b => Bool.eqb a b
  | JNumber a, JNumber b => a =? b
  | JDouble a, JDouble b => SpecFloat.SFeqb a b
  | JString a, JString b => String.eqb a b
  | _, _ => false
  end.

Definition contact (name address : string) : json := JObject [("name", JString name); ("address", JString address)]%string.

(** The loop that looks for an address. *)
Fixpoint has_address (address : string) (l : list json) : result bool :=
  match l with
  | [] => Ok false
  | element :: l =>
      a ← get "address" element;
      if same a (JString address) then Ok true else has_address address l
  end.

(** [l.filter(element => element.address !== address)] *)
Fixpoint without (address : json) (l : list json) : result (list json) :=
  match l with
  | [] => Ok []
  | element :: l =>
      a ← get "address" element;
      l ← without address l;
      Ok (if same a address then l else element :: l)
  end.

(** [l.filter(element => element.address === address)] *)
Fixpoint with_address (address : json) (l : list json) : result (list json) :=
  match l with
  | [] => Ok []
  | element :: l =>
      a ← get "address" element;
      l ← with_address address l;
      Ok (if same a address then element :: l else l)
  end.

(** The first element with the address gets the name; [None] when there is none.  The name
    of an element that is not an object is not kept. *)
Fixpoint rename_first (address : json) (name : string) (l : list json) : result (option (list json)) :=
  match l with
  | [] => Ok None
  | element :: l =>
      a ← get "address" element;
      if same a address then
        Ok (Some (match element with JObject fields => JObject (set_field "name" (JString name) fields) | _ => element end :: l))
      else
        l ← rename_first address name l;
        Ok (match l with Some l => Some (element :: l) | None => None end)
  end.

(** [tempContactListArray[0].address === undefined] and [shift] *)
Definition drop_blank (l : list json) : result (list json) :=
  match l with
  | [] => Throw (TypeError "Cannot read properties of undefined")
  | first :: rest =>
      a ← get "address" first;
      Ok (match a with JUndefined => rest | _ => l end)
  end.

Section P.
Context `{CA : !Cashaddr}.

(** ** Opening the page *)

(** A stored list is an array: only the functions of this file and of the settings write it. *)
Definition array_of (v : option json) : result (option (list json)) :=
  match v with
  | None | Some JNull => Ok None
  | Some (JArray l) => Ok (Some l)
  | Some _ => Throw (TypeError "not an array")
  end.

Definition add_to (newAddress newName : string) (l : option (list json)) : result (list json * message) :=
  match l with
  | None | Some [] => Ok ([contact newName newAddress], Added newAddress)
  | Some l =>
      duplicate ← has_address newAddress l;
      l ← drop_blank l;
      Ok (if (duplicate : bool) then (l, Exists_ newAddress) else (l ++ [contact newName newAddress], Added newAddress))
  end.

(** The effect that runs when the page opens; [contactToAdd] comes from the first page. *)
Definition on_load (contactToAdd : option string) (p : page) : app page :=
  stored ← getContactListFromLocalForage;
  stored ← await (settle (array_of stored));
  match contactToAdd with
  | Some address =>
      '(l, m) ← await (settle (add_to address (substring address 6 11) stored));
      ok ← updateContactList (JArray l);
      let p := tell m p in
      mret (set_list (Some l) ok (if (ok : bool) then p else tell NotStored p))
  | None =>
      match stored with
      | None => mret (set_list None false p)
      | Some l => l ← await (settle (drop_blank l)); mret (set_list (Some l) false p)
      end
  end.

Definition open_page (contactToAdd : option string) : app page := try_catch (on_load contactToAdd initial) (λ _, mret initial).

(** ** Renaming *)

Definition name_valid (value : string) : bool := (0 <? length16 value) && (length16 value <? Currency.localStorageMaxCharacters).

Definition handleContactNameInput (value : string) : page → page :=
  set_rename (λ f, mkRename (rn_shown f) (rn_contact f) (Some (name_valid value)) value).

Definition handleRenameContact (contactObj : json) (p : page) : page :=
  if Extension.truthy contactObj then set_rename (λ f, mkRename true contactObj (rn_valid f) (rn_name f)) p else p.

Definition handleRenameContactCancel : page → page := set_rename (λ f, mkRename false (rn_contact f) (rn_valid f) (rn_name f)).

(** An array of this page that was changed in place is changed in the state of the
    application when it is the same. *)
Definition changed_in_place (l : list json) (p : page) : app unit :=
  if p_shared p then setContactList (JArray l) else mret tt.

Definition renameContactByName (contactObj : json) (p : page) : app page :=
  l ← await (settle match p_contactListArray p with Some l => Ok l | None => Throw (TypeError "Cannot read properties of null") end);
  address ← await (settle (get "address" contactObj));
  found ← await (settle (rename_first address (rn_name (p_rename p)) l));
  match found with
  | Some l =>
      changed_in_place l p;;
      ok ← updateContactList (JArray l);
      let p := set_list (Some l) (p_shared p || ok) p in
      mret (if (ok : bool) then p else tell NotStored p)
  | None => mret (tell NotFound p)
  end.

Definition holds (v : option bool) : bool := default false v.

Definition handleRenameContactModalOk (p : page) : app page :=
  let f := p_rename p in
  if negb (holds (rn_valid f)) || negb (Extension.truthy (rn_contact f)) then mret p
  else handleRenameContactCancel <$> try_catch (renameContactByName (rn_contact f) p) (λ _, mret p).

(** ** Deleting *)

(** [None] is [undefined]. *)
Definition getContactNameByAddress (contactAddress : json) (p : page) : result json :=
  if negb (Extension.truthy contactAddress) then Ok JUndefined
  else
    match p_contactListArray p with
    | None => Throw (TypeError "Cannot read properties of null")
    | Some l =>
        filteredContactList ← with_address contactAddress l;
        match filteredContactList with
        | [] => Throw (TypeError "Cannot read properties of undefined")
        | element :: _ => get "name" element
        end
    end.

Definition deleteContactByAddress (contactAddress : json) (p : page) : app page :=
  if negb (Extension.truthy contactAddress) then mret p
  else
    l ← await (settle match p_contactListArray p with Some l => without contactAddress l | None => Throw (TypeError "Cannot read properties of null") end);
    ok ← updateContactList (JArray l);
    mret (tell (if (ok : bool) then Removed (dl_address (p_delete p)) else NotStored) (set_list (Some l) ok p)).

Definition handleDeleteContact (contactAddress : json) (p : page) : page :=
  if Extension.truthy contactAddress then set_delete (λ f, mkDelete true contactAddress (dl_valid f) (dl_text f)) p else p.

Definition handleDeleteContactModalCancel : page → page := set_delete (λ f, mkDelete false (dl_address f) (dl_valid f) (dl_text f)).

Definition handleDeleteContactModalOk (p : page) : app page :=
  let f := p_delete p in
  if negb (holds (dl_valid f)) || negb (Extension.truthy (dl_address f)) then mret p
  else
    let p := handleDeleteContactModalCancel p in
    try_catch (deleteContactByAddress (dl_address f) p) (λ _, mret p).

Definition handleContactToDeleteInput (value : string) (p : page) : page :=
  match getContactNameByAddress (dl_address (p_delete p)) p with
  | Ok contactName =>
      let valid := negb (OpReturn.is_empty value) && String.eqb value (String.append "delete " (Extension.template_text contactName)) in
      set_delete (λ f, mkDelete (dl_shown f) (dl_address f) (Some valid) value) p
  | Throw _ => p
  end.

(** ** Adding *)

(** The list with a new contact, whether it is another array, and what is said. *)
Definition add_contact (name address : string) (l : option (list json)) : result (list json * bool * list message) :=
  match l with
  | None | Some [] => Ok ([contact name address], true, [])
  | Some l =>
      duplicate ← has_address address l;
      Ok (if (duplicate : bool) then (l, false, [Exists_ address]) else (l ++ [contact name address], false, [Added address]))
  end.

Definition add_and_store (p : page) : app page :=
  let f := p_manual p in
  '(l, fresh, said) ← await (settle (add_contact (mn_name f) (mn_address f) (p_contactListArray p)));
  (if (fresh : bool) then mret tt else changed_in_place l p);;
  ok ← updateContactList (JArray l);
  mret (foldr tell (set_list (Some l) ((negb fresh && p_shared p) || ok) p) said).

Definition clear_manual : page → page :=
  set_manual (λ f, mkManual false (mn_savedShown f) EmptyString EmptyString (mn_nameValid f) (mn_addressValid f)).
Definition clear_saved : page → page :=
  set_manual (λ f, mkManual (mn_shown f) false EmptyString EmptyString (mn_nameValid f) (mn_addressValid f)).

Definition handleAddSavedWalletAsContactOk (p : page) : app page :=
  try_catch (clear_saved <$> add_and_store p) (λ _, mret p).

Definition handleAddSavedWalletAsContactCancel : page → page := clear_saved.

(** A wallet without an account has no address: the handler throws after the name was set. *)
Definition addSavedWalletToContact (walletInfo : wallet) (p : page) : page :=
  let address := match Path1899 walletInfo with Some a => Some (WalletAddress.convertToEcashPrefix (cashAddress a)) | None => None end in
  set_manual (λ f, match address with
                   | Some (Ok address) => mkManual (mn_shown f) true (w_name walletInfo) address (mn_nameValid f) (mn_addressValid f)
                   | _ => mkManual (mn_shown f) (mn_savedShown f) (w_name walletInfo) (mn_address f) (mn_nameValid f) (mn_addressValid f)
                   end) p.

(** [setShowManualAddContactModal(true)] *)
Definition showManualAddContactModal : page → page :=
  set_manual (λ f, mkManual true (mn_savedShown f) (mn_name f) (mn_address f) (mn_nameValid f) (mn_addressValid f)).

Definition handleManualAddContactModalOk (p : page) : app page :=
  let f := p_manual p in
  if negb (holds (mn_nameValid f)) || negb (holds (mn_addressValid f)) then mret p
  else try_catch (clear_manual <$> add_and_store p) (λ _, mret p).

Definition handleManualAddContactModalCancel : page → page := clear_manual.

Definition handleManualContactNameInput (value : string) : page → page :=
  set_manual (λ f, mkManual (mn_shown f) (mn_savedShown f) value (mn_address f) (Some (name_valid value)) (mn_addressValid f)).

Definition handleManualContactAddressInput (value : string) : page → page :=
  set_manual (λ f, mkManual (mn_shown f) (mn_savedShown f) (mn_name f) value (mn_nameValid f) (Some (WalletAddress.isValidXecAddress value))).

(** ** Exporting *)

(** The content of the file before it is encoded: the text of an array has commas. *)
Definition csvContent (l : list json) : result string :=
  rows ← mapM (λ element, n ← get "name" element; a ← get "address" element;
    Ok (String newline (String.append (Extension.template_text n) (String.append "|" (Extension.template_text a))))) l;
  Ok (String.append "data:text/csv;charset=utf-8," (String.concat "," rows)).

End P.

End Contacts.

(** * What the list of contacts keeps

    The page of contacts implements an address book, a list of names with distinct valid
    addresses, which the database keeps for the next start; and what its forms forget to
    reset. *)

Import ChronikUtils Validation Settings Contacts.
Module ContactsLaws.

(** ** The address book *)

Definition entry : Type := string * string.
Definition address_of (c : entry) : string := c.2.
Definition book_has (a : string) (b : list entry) : bool := existsb (λ c, String.eqb (address_of c) a) b.
Definition book_add (n a : string) (b : list entry) : list entry := if book_has a b then b else b ++ [(n, a)].
Definition book_rename (a n : string) (b : list entry) : list entry := map (λ c, if String.eqb (address_of c) a then (n, a) else c) b.
Definition book_remove (a : string) (b : list entry) : list entry := List.filter (λ c, negb (String.eqb (address_of c) a)) b.

(** How the page keeps it. *)
Definition repr (b : list entry) : list json := map (λ c, contact c.1 c.2) b.

Section S.
Context `{CA : !Cashaddr}.
Implicit Type (b : list entry) (p : page) (s : world).

Definition good b : Prop := NoDup (map address_of b) ∧ Forall (λ c, WalletAddress.isValidXecAddress (address_of c) = true) b.

Lemma book_has_spec a b : reflect (a ∈ map address_of b) (book_has a b).
Proof.
  apply iff_reflect. unfold book_has. rewrite existsb_exists. rewrite list_elem_of_In, in_map_iff. split.
  - intros (c & <- & Hc). exists c. by rewrite String.eqb_refl.
  - intros (c & Hc & E). apply String.eqb_eq in E. by exists c.
Qed.

Lemma good_add n a b : good b → WalletAddress.isValidXecAddress a = true → good (book_add n a b).
Proof.
  intros [Hd Hv] Ha. unfold book_add. destruct (book_has_spec a b) as [|Hn]; [done|]. split.
  - rewrite map_app. apply NoDup_app. split_and!; [done| |apply NoDup_singleton]. intros x Hx ->%list_elem_of_singleton. done.
  - apply Forall_app. by repeat constructor.
Qed.

Lemma rename_addresses a n b : map address_of (book_rename a n b) = map address_of b.
Proof. unfold book_rename. rewrite map_map. apply map_ext. intros c. by destruct (String.eqb_spec (address_of c) a). Qed.

Lemma good_rename a n b : good b → good (book_rename a n b).
Proof.
  intros [Hd Hv]. split; [by rewrite rename_addresses|]. apply (Forall_map address_of (λ x, WalletAddress.isValidXecAddress x = true)).
  rewrite rename_addresses. by apply (Forall_map address_of (λ x, WalletAddress.isValidXecAddress x = true)).
Qed.

Lemma good_remove a b : good b → good (book_remove a b).
Proof.
  intros [Hd Hv]. unfold book_remove. split.
  - induction b as [|c b IH]; [constructor|]. cbn in *. apply NoDup_cons in Hd as [Hc Hd]. inversion_clear Hv.
    destruct (String.eqb _ a); cbn; [by apply IH|]. apply NoDup_cons. split; [|by apply IH].
    intros Hx. apply Hc. apply list_elem_of_In, in_map_iff in Hx as (c' & E & Hc'). apply filter_In in Hc' as [Hc' _].
    apply list_elem_of_In, in_map_iff. by exists c'.
  - apply Forall_forall. intros c Hc. apply list_elem_of_In, filter_In in Hc as [Hc _]. rewrite Forall_forall in Hv. apply Hv. by apply list_elem_of_In.
Qed.

(** ** The functions on lists *)

Lemma same_text (x a : string) : same (JString x) (JString a) = String.eqb x a.
Proof. done. Qed.

Lemma has_repr a b : has_address a (repr b) = Ok (book_has a b).
Proof. induction b as [|c b IH]; [done|]. cbn. fold (address_of c). by destruct (String.eqb (address_of c) a). Qed.

Lemma without_repr a b : without (JString a) (repr b) = Ok (repr (book_remove a b)).
Proof. induction b as [|c b IH]; [done|]. cbn. fold (repr b). rewrite IH. cbn. fold (address_of c). by destruct (String.eqb (address_of c) a). Qed.

Lemma with_repr a b : with_address (JString a) (repr b) = Ok (repr (List.filter (λ c, String.eqb (address_of c) a) b)).
Proof. induction b as [|c b IH]; [done|]. cbn. fold (repr b). rewrite IH. cbn. fold (address_of c). by destruct (String.eqb (address_of c) a). Qed.

Lemma rename_absent a n b : a ∉ map address_of b → book_rename a n b = b.
Proof.
  intros H. unfold book_rename. rewrite <- (map_id b) at 2. apply map_ext_in. intros c Hc.
  destruct (String.eqb_spec (address_of c) a) as [E|]; [|done]. destruct H. apply list_elem_of_In, in_map_iff. by exists c.
Qed.

Lemma rename_repr a n b : NoDup (map address_of b) → a ∈ map address_of b →
  rename_first (JString a) n (repr b) = Ok (Some (repr (book_rename a n b))).
Proof.
  induction b as [|c b IH]; [by intros _ ?%not_elem_of_nil|]. cbn. intros [Hc Hd]%NoDup_cons Ha.
  fold (address_of c). fold (repr b). destruct (String.eqb_spec (address_of c) a) as [<-|Hn].
  - cbn. fold (book_rename (address_of c) n b). by rewrite rename_absent.
  - apply elem_of_cons in Ha as [->|Ha]; [done|]. by rewrite IH.
Qed.

Lemma repr_valid b : good b → isValidContactList (JArray (repr b)) = Ok true.
Proof.
  intros [_ Hv]. cbn [isValidContactList]. generalize (len (repr b) =? 1). intros single. induction b as [|c b IH]; [done|].
  inversion_clear Hv as [|?? Hc Hb]. cbn. unfold address_of in Hc. rewrite Hc. cbn. by apply IH.
Qed.

(** ** The page *)

Definition stored s : option json := db_contactList (w_db s).

Lemma update_stores v s : sound s →
  wp (updateContactList v) (λ r s', r = Resolved true ∧ sound s' ∧ stored s' = Some v ∧ h_contactList (w_hook s') = v) s.
Proof. intros Hs. unfold updateContactList. wp_sound. split_and!; [done|eauto 20 with wp|done|done]. Qed.

Lemma in_place_sound l p s : sound s → wp (changed_in_place l p) (λ r s', r = Resolved tt ∧ sound s') s.
Proof. intros Hs. unfold changed_in_place. by destruct (p_shared p). Qed.

(** What a handler leaves: the book on the page, in the database and in the state. *)
Definition keeps_book b (m : app page) s : Prop :=
  wp m (λ r s', ∃ p', r = Resolved p' ∧ sound s' ∧ p_contactListArray p' = Some (repr b) ∧
    stored s' = Some (JArray (repr b)) ∧ h_contactList (w_hook s') = JArray (repr b)) s.

Lemma keeps_book_try b (m : app page) q s : keeps_book b m s → keeps_book b (try_catch m (λ _, mret q)) s.
Proof. unfold keeps_book. intros H. apply wp_try. eapply wp_mono; [exact H|]. by intros r s' (p' & -> & ?); exists p'. Qed.

Lemma keeps_book_fmap b (m : app page) (f : page → page) s : keeps_book b m s → (∀ p, p_contactListArray (f p) = p_contactListArray p) → keeps_book b (f <$> m) s.
Proof.
  unfold keeps_book. intros H Hf. apply wp_fmap. eapply wp_mono; [exact H|]. intros r s' (p' & -> & Hs & Hp & H1 & H2). exists (f p'). by rewrite Hf.
Qed.

(** The end of every handler: the list is written and set. *)
Lemma update_page b (f : bool → page) s : sound s → (∀ ok, p_contactListArray (f ok) = Some (repr b)) →
  keeps_book b (ok ← updateContactList (JArray (repr b)); mret (f ok)) s.
Proof.
  intros Hs Hf. apply wp_bind. eapply wp_mono; [by apply update_stores|]. intros r s' (-> & ? & ? & ?). apply wp_mret. by exists (f true).
Qed.

Lemma add_book p b s : sound s → p_contactListArray p = Some (repr b) →
  keeps_book (book_add (mn_name (p_manual p)) (mn_address (p_manual p)) b) (add_and_store p) s.
Proof.
  intros Hs Hp. unfold add_and_store. rewrite Hp. set (n := mn_name (p_manual p)). set (a := mn_address (p_manual p)).
  assert (Hl : ∃ fresh said, add_contact n a (Some (repr b)) = Ok (repr (book_add n a b), fresh, said)).
  { unfold add_contact, book_add. destruct b as [|c b]; [cbn; eauto|]. cbn [repr map]. change (_ :: map _ b) with (repr (c :: b)).
    rewrite has_repr. cbn [mbind result_bind]. destruct (book_has a (c :: b)); [eauto|]. unfold repr. rewrite map_app. cbn. eauto. }
  destruct Hl as (fresh & said & ->). cbn [settle]. apply wp_bind, wp_await. apply wp_bind.
  eapply (wp_mono _ (λ r s', r = Resolved tt ∧ sound s')).
  - destruct fresh; [done|]. by apply in_place_sound.
  - intros r s' [-> Hs']. apply update_page; [done|]. intros ok. clear. induction said as [|m said IH]; [done|]. exact IH.
Qed.

(** What the user does with a form, from its opening to the button. *)
Inductive edit := Add (n a : string) | Rename (m a n : string) | Remove (m a : string).

Definition perform (e : edit) (p : page) : app page :=
  match e with
  | Add n a => handleManualAddContactModalOk (handleManualContactAddressInput a (handleManualContactNameInput n (showManualAddContactModal p)))
  | Rename m a n => handleRenameContactModalOk (handleContactNameInput n (handleRenameContact (contact m a) p))
  | Remove m a => handleDeleteContactModalOk (handleContactToDeleteInput (String.append "delete " m) (handleDeleteContact (JString a) p))
  end.

Definition edited (e : edit) b : list entry :=
  match e with
  | Add n a => book_add n a b
  | Rename m a n => book_rename a n b
  | Remove m a => book_remove a b
  end.

(** The input is valid, and the contact is one of the list. *)
Definition allowed (e : edit) b : Prop :=
  match e with
  | Add n a => name_valid n = true ∧ WalletAddress.isValidXecAddress a = true
  | Rename m a n => (m, a) ∈ b ∧ name_valid n = true
  | Remove m a => (m, a) ∈ b
  end.

Lemma good_edited e b : good b → allowed e b → good (edited e b).
Proof. intros Hb He. destruct e; [by apply good_add, He|by apply good_rename|by apply good_remove]. Qed.

Lemma filter_unique m a b : NoDup (map address_of b) → (m, a) ∈ b → List.filter (λ c, String.eqb (address_of c) a) b = [(m, a)].
Proof.
  induction b as [|c b IH]; [by intros _ ?%not_elem_of_nil|]. cbn. intros [Hc Hd]%NoDup_cons [<-|Hi]%elem_of_cons.
  - cbn. rewrite String.eqb_refl. f_equal. clear IH Hd. induction b as [|d b IH]; [done|]. cbn in *.
    apply not_elem_of_cons in Hc as [Hn Hc]. destruct (String.eqb_spec (address_of d) a); [by destruct Hn|]. by apply IH.
  - destruct (String.eqb_spec (address_of c) a) as [E|]; [|by apply IH]. destruct Hc. rewrite E.
    apply list_elem_of_In, in_map_iff. exists (m, a). split; [done|by apply list_elem_of_In].
Qed.

Lemma good_address b m a : good b → (m, a) ∈ b → OpReturn.is_empty a = false.
Proof.
  intros [_ Hv] Hi. rewrite Forall_forall in Hv. specialize (Hv _ Hi). destruct a; [discriminate Hv|done].
Qed.

Lemma rename_book m a n p b s : sound s → good b → p_contactListArray p = Some (repr b) → (m, a) ∈ b → name_valid n = true →
  keeps_book (book_rename a n b) (perform (Rename m a n) p) s.
Proof.
  intros Hs Hb Hp Hi Hn. cbn [perform]. unfold handleRenameContactModalOk, handleContactNameInput, handleRenameContact. cbn. rewrite Hn. cbn.
  apply keeps_book_fmap; [|done]. apply keeps_book_try. unfold renameContactByName. cbn. rewrite Hp. apply wp_bind, wp_await. cbn [settle].
  apply wp_bind, wp_await. cbn [settle]. apply wp_bind, wp_await. rewrite rename_repr; [|apply Hb|].
  - cbn [settle]. apply wp_bind. eapply wp_mono; [by apply in_place_sound|]. intros r s' [-> Hs']. apply update_page; [done|]. by intros [].
  - apply list_elem_of_In, in_map_iff. exists (m, a). split; [done|by apply list_elem_of_In].
Qed.

(** The mark of the deletion form after a contact was deleted. *)
Lemma remove_mark m a p b s : sound s → good b → p_contactListArray p = Some (repr b) → (m, a) ∈ b →
  wp (perform (Remove m a) p) (λ r s', ∃ p', r = Resolved p' ∧ sound s' ∧ p_contactListArray p' = Some (repr (book_remove a b)) ∧
    dl_valid (p_delete p') = Some true ∧ stored s' = Some (JArray (repr (book_remove a b))) ∧ h_contactList (w_hook s') = JArray (repr (book_remove a b))) s.
Proof.
  intros Hs Hb Hp Hi. pose proof (good_address b m a Hb Hi) as Ha. cbn [perform]. unfold handleDeleteContact. cbn. rewrite Ha. cbn.
  unfold handleContactToDeleteInput, getContactNameByAddress. cbn. rewrite Ha, Hp. cbn. rewrite with_repr, (filter_unique m) by (apply Hb || done). cbn.
  rewrite String.eqb_refl. unfold handleDeleteContactModalOk. cbn. rewrite Ha. cbn. unfold deleteContactByAddress. cbn. rewrite Ha, Hp. cbn.
  rewrite without_repr. cbn [settle]. apply wp_try, wp_bind, wp_await, wp_bind. eapply wp_mono; [by apply update_stores|].
  intros r s' (-> & ? & ? & ?). apply wp_mret. eexists. split; [done|]. by split_and!.
Qed.

Lemma remove_book m a p b s : sound s → good b → p_contactListArray p = Some (repr b) → (m, a) ∈ b →
  keeps_book (book_remove a b) (perform (Remove m a) p) s.
Proof.
  intros Hs Hb Hp Hi. eapply wp_mono; [by apply (remove_mark m a p b)|]. intros r s' (p' & -> & ? & ? & _ & ? & ?). by exists p'.
Qed.

Lemma edit_book e p b s : sound s → good b → p_contactListArray p = Some (repr b) → allowed e b → keeps_book (edited e b) (perform e p) s.
Proof.
  intros Hs Hb Hp He. destruct e as [n a|m a n|m a]; cbn [edited].
  - destruct He as [Hn Ha]. cbn [perform]. unfold handleManualAddContactModalOk, handleManualContactAddressInput, handleManualContactNameInput.
    cbn [p_manual set_manual mn_nameValid mn_addressValid holds default from_option id]. rewrite Hn, Ha. cbn [negb orb].
    apply keeps_book_try. apply keeps_book_fmap; [|done]. by apply add_book.
  - destruct He. by apply rename_book.
  - by apply remove_book.
Qed.

(** ** Sessions *)

Fixpoint perform_all (es : list edit) (p : page) : app page :=
  match es with [] => mret p | e :: es => p ← perform e p; perform_all es p end.
Fixpoint all_edited (es : list edit) b : list entry := match es with [] => b | e :: es => all_edited es (edited e b) end.
Fixpoint all_allowed (es : list edit) b : Prop := match es with [] => True | e :: es => allowed e b ∧ all_allowed es (edited e b) end.

Lemma all_good es b : good b → all_allowed es b → good (all_edited es b).
Proof. revert b. induction es as [|e es IH]; intros b Hb He; [done|]. destruct He. apply IH; [by apply good_edited|done]. Qed.

Lemma session_book es p b s : sound s → good b → p_contactListArray p = Some (repr b) →
  stored s = Some (JArray (repr b)) → h_contactList (w_hook s) = JArray (repr b) → all_allowed es b →
  keeps_book (all_edited es b) (perform_all es p) s.
Proof.
  revert p b s. induction es as [|e es IH]; intros p b s Hs Hb Hp H1 H2 He; [by exists p|]. destruct He as [He Hes].
  cbn [perform_all all_edited]. apply wp_bind. pose proof (edit_book e p b s Hs Hb Hp He) as Hk. unfold keeps_book in Hk.
  eapply wp_mono; [exact Hk|]. intros r s' (p' & -> & ? & ? & ? & ?). apply IH; try done. by apply good_edited.
Qed.

(** The next start, and the page when it is opened next. *)
Lemma load_valid l s : sound s → stored s = Some (JArray l) → isValidContactList (JArray l) = Ok true →
  wp loadContactList (λ r s', r = Resolved (JArray l) ∧ h_contactList (w_hook s') = JArray l) s.
Proof.
  intros Hs Hl Hv. unfold loadContactList. wp_sound. change (db_contactList (db_next (w_db s))) with (stored s). rewrite Hl.
  rewrite Hv. cbn [settle]. by wp_sound.
Qed.

Lemma open_book b s : sound s → stored s = Some (JArray (repr b)) → b ≠ [] →
  wp (on_load None initial) (λ r _, ∃ p, r = Resolved p ∧ p_contactListArray p = Some (repr b)) s.
Proof.
  intros Hs Hl Hb. unfold on_load, getContactListFromLocalForage. wp_sound. change (db_contactList (db_next (w_db s))) with (stored s). rewrite Hl.
  cbn [array_of settle]. destruct b as [|c b]; [done|]. cbn. by eexists.
Qed.

(** C18: the page of contacts is an address book.  When the database does not fail, every
    sequence of additions, new names and deletions, each with its form filled in as it asks,
    leaves the page, the database and the state of the application with the list that the
    same changes of an address book give; its addresses are valid and distinct.  The next
    start of the wallet loads exactly this list, and the page shows it again when it is
    opened, unless the list is empty. *)
Theorem contact_book_refined es p b s : sound s → good b → p_contactListArray p = Some (repr b) →
  stored s = Some (JArray (repr b)) → h_contactList (w_hook s) = JArray (repr b) → all_allowed es b →
  wp (perform_all es p) (λ r s', (∃ p', r = Resolved p' ∧ p_contactListArray p' = Some (repr (all_edited es b))) ∧
    good (all_edited es b) ∧ h_contactList (w_hook s') = JArray (repr (all_edited es b)) ∧
    wp loadContactList (λ r _, r = Resolved (JArray (repr (all_edited es b)))) s' ∧
    (all_edited es b ≠ [] → wp (on_load None initial) (λ r _, ∃ p, r = Resolved p ∧ p_contactListArray p = Some (repr (all_edited es b))) s')) s.
Proof.
  intros Hs Hb Hp H1 H2 He. pose proof (session_book es p b s Hs Hb Hp H1 H2 He) as Hk. unfold keeps_book in Hk.
  eapply wp_mono; [exact Hk|]. intros r s' (p' & -> & Hs' & Hp' & H1' & H2'). pose proof (all_good es b Hb He) as Hg.
  split_and!; [by exists p'|done|done| |by intros; apply open_book].
  eapply wp_mono; [apply (load_valid _ _ Hs' H1'), repr_valid, Hg|]. by intros r' s'' [-> _].
Qed.

(** ** What is not reset *)

Lemma tells_manual said p : p_manual (foldr tell p said) = p_manual p.
Proof. by induction said. Qed.

(** The forms that a handler leaves alone. *)
Lemma add_manual p s : wp (add_and_store p) (λ r _, match r with Resolved p' => p_manual p' = p_manual p | _ => True end) s.
Proof.
  unfold add_and_store. apply wp_bind, wp_await. destruct (add_contact _ _ _) as [[[l fresh] said]|]; [|done]. cbn [settle].
  apply wp_bind. unfold wp. destruct (_ s) as [s' [[]| |]]; cbn; [|done|done]. 
  change (wp (ok ← updateContactList (JArray l); mret (foldr tell (set_list (Some l) ((negb fresh && p_shared p) || ok) p) said))
    (λ r _, match r with Resolved p' => p_manual p' = p_manual p | _ => True end) s').
  apply wp_bind. unfold wp. destruct (updateContactList _ s') as [s'' [ok| |]]; cbn; [|done|done]. by rewrite tells_manual.
Qed.

Lemma wp_both {A} (m : app A) P Q s : wp m P s → wp m Q s → wp m (λ r s', P r s' ∧ Q r s') s.
Proof. by split. Qed.

(** The marks of the form after a contact was added. *)
Definition marks p : option bool * option bool := (mn_nameValid (p_manual p), mn_addressValid (p_manual p)).

Lemma add_marks n a p b s : sound s → good b → p_contactListArray p = Some (repr b) → allowed (Add n a) b →
  wp (perform (Add n a) p) (λ r s', ∃ p', r = Resolved p' ∧ sound s' ∧ p_contactListArray p' = Some (repr (book_add n a b)) ∧
    marks p' = (Some true, Some true) ∧ mn_name (p_manual p') = EmptyString ∧ mn_address (p_manual p') = EmptyString) s.
Proof.
  intros Hs Hb Hp [Hn Ha]. cbn [perform]. unfold handleManualAddContactModalOk, handleManualContactAddressInput, handleManualContactNameInput.
  cbn [p_manual set_manual mn_nameValid mn_addressValid holds default from_option id]. rewrite Hn, Ha. cbn [negb orb].
  apply wp_try, wp_fmap. match goal with |- wp (add_and_store ?x) _ _ => set (q := x) end.
  assert (Hq : keeps_book (book_add n a b) (add_and_store q) s) by by apply (add_book q).
  unfold keeps_book in Hq. eapply wp_mono; [exact (wp_both _ _ _ _ Hq (add_manual q s))|].
  intros r s' [(p' & -> & ? & ? & ? & ?) Hm]. exists (clear_manual p'). unfold clear_manual, marks. cbn. rewrite Hm. by split_and!.
Qed.

Lemma load_invalid l s : sound s → stored s = Some (JArray l) → isValidContactList (JArray l) = Ok false →
  wp loadContactList (λ r s', r = Resolved no_contacts ∧ h_contactList (w_hook s') = no_contacts) s.
Proof.
  intros Hs Hl Hv. unfold loadContactList. wp_sound. change (db_contactList (db_next (w_db s))) with (stored s). rewrite Hl.
  rewrite Hv. cbn [settle]. by wp_sound.
Qed.

Definition blank : entry := (EmptyString, EmptyString).

Lemma repr_blank b : good b → isValidContactList (JArray (repr (b ++ [blank]))) = Ok false.
Proof.
  intros [_ Hv]. cbn [isValidContactList]. generalize (len (repr (b ++ [blank])) =? 1). intros single. induction b as [|c b IH]; [done|].
  inversion_clear Hv as [|?? Hc Hb]. cbn. unfold address_of in Hc. rewrite Hc. cbn. by apply IH.
Qed.

Lemma blank_absent b : good b → book_has EmptyString b = false.
Proof.
  intros [_ Hv]. destruct (book_has_spec EmptyString b) as [Hi|]; [|done]. apply list_elem_of_In, in_map_iff in Hi as (c & Ec & Hc).
  rewrite Forall_forall in Hv. specialize (Hv c). rewrite Ec in Hv. discriminate Hv. by apply list_elem_of_In.
Qed.

(** A contact without name and address can be added, and then the whole list is lost to
    the wallet.  The marks of the form stay when its fields are cleared: after a contact was
    added, the button of the form that is opened again and left empty adds a contact with an
    empty name and an empty address, and at the next start the stored list is refused:
    the wallet has no contact any more. *)
Theorem blank_contact_added n a p b s : sound s → good b → p_contactListArray p = Some (repr b) → allowed (Add n a) b →
  wp (p ← perform (Add n a) p; handleManualAddContactModalOk (showManualAddContactModal p))
    (λ r s', (∃ p', r = Resolved p' ∧ p_contactListArray p' = Some (repr (book_add n a b ++ [blank]))) ∧
       wp loadContactList (λ r s'', r = Resolved no_contacts ∧ h_contactList (w_hook s'') = no_contacts) s') s.
Proof.
  intros Hs Hb Hp He. apply wp_bind. eapply wp_mono; [by apply (add_marks n a p b)|]. intros r s1 (p1 & -> & Hs1 & Hp1 & Hm & Hn & Ha).
  unfold marks in Hm. injection Hm as Hm1 Hm2. unfold handleManualAddContactModalOk, showManualAddContactModal.
  cbn [p_manual set_manual mn_nameValid mn_addressValid]. rewrite Hm1, Hm2. cbn [holds default from_option id negb orb].
  assert (Hg : good (book_add n a b)) by (apply good_add; [done|apply He]).
  match goal with |- wp (try_catch (clear_manual <$> add_and_store ?x) _) _ _ => set (q := x) end.
  assert (Hq : keeps_book (book_add n a b ++ [blank]) (try_catch (clear_manual <$> add_and_store q) (λ _, mret q)) s1).
  { apply keeps_book_try, keeps_book_fmap; [|done]. pose proof (add_book q (book_add n a b) s1 Hs1 Hp1) as H.
    change (mn_name (p_manual q)) with (mn_name (p_manual p1)) in H. change (mn_address (p_manual q)) with (mn_address (p_manual p1)) in H. rewrite Hn, Ha in H. unfold book_add at 1 in H. by rewrite blank_absent in H. }
  unfold keeps_book in Hq. eapply wp_mono; [exact Hq|]. intros r s2 (p2 & -> & Hs2 & Hp2 & H1 & H2). split; [by exists p2|].
  by apply (load_invalid _ _ Hs2 H1), repr_blank.
Qed.

(** The second contact goes without a phrase.  After one contact was deleted with its
    phrase, the button of the form deletes the next contact that is chosen although nothing
    was typed for it. *)
Theorem second_contact_unasked m a m' a' p b s : sound s → good b → p_contactListArray p = Some (repr b) →
  (m, a) ∈ b → (m', a') ∈ b → a ≠ a' →
  wp (p ← perform (Remove m a) p; handleDeleteContactModalOk (handleDeleteContact (JString a') p))
    (λ r s', (∃ p', r = Resolved p' ∧ p_contactListArray p' = Some (repr (book_remove a' (book_remove a b)))) ∧
       stored s' = Some (JArray (repr (book_remove a' (book_remove a b))))) s.
Proof.
  intros Hs Hb Hp Hi Hi' Hn. apply wp_bind. eapply wp_mono; [by apply (remove_mark m a p b)|]. intros r s1 (p1 & -> & Hs1 & Hp1 & Hd & _).
  pose proof (good_address b m' a' Hb Hi') as Ha. unfold handleDeleteContact. cbn. rewrite Ha. cbn. unfold handleDeleteContactModalOk. cbn.
  rewrite Hd, Ha. cbn. unfold deleteContactByAddress. cbn. rewrite Ha, Hp1. cbn. rewrite without_repr. cbn [settle].
  apply wp_try, wp_bind, wp_await, wp_bind. eapply wp_mono; [by apply update_stores|]. intros r s' (-> & ? & ? & ?). apply wp_mret. by split; [eexists|].
Qed.

(** The page after an empty list was stored. *)
Lemma open_empty s : sound s → stored s = Some (JArray []) →
  wp (on_load None initial) (λ r s', r = Rejected (TypeError "Cannot read properties of undefined") ∧ sound s') s.
Proof.
  intros Hs Hl. unfold on_load, getContactListFromLocalForage. wp_sound. change (db_contactList (db_next (w_db s))) with (stored s). rewrite Hl.
  cbn [array_of settle drop_blank]. wp_sound. eauto with wp.
Qed.

Lemma add_to_initial n a s : sound s → name_valid n = true → WalletAddress.isValidXecAddress a = true →
  wp (perform (Add n a) initial) (λ _ s', sound s' ∧ stored s' = Some (JArray [JObject []; contact n a])) s.
Proof.
  intros Hs Hn Ha. cbn [perform]. unfold handleManualAddContactModalOk, handleManualContactAddressInput, handleManualContactNameInput.
  cbn [p_manual set_manual mn_nameValid mn_addressValid holds default from_option id]. rewrite Hn, Ha. cbn [negb orb].
  apply wp_try, wp_fmap. unfold add_and_store. cbn. apply wp_bind, wp_await, wp_bind, wp_mret, wp_bind.
  eapply wp_mono; [by apply update_stores|]. by intros r s' (-> & ? & ? & ?).
Qed.

(** Deleting the last contact breaks the page.  An empty list is stored, and the effect
    that opens the page next is rejected, because it reads the first element: the page then
    shows one contact without name and address.  A contact that is added there is stored
    behind that element, and at the next start the stored list is refused. *)
Theorem last_contact_deleted m a n a' p s : sound s → WalletAddress.isValidXecAddress a = true → p_contactListArray p = Some (repr [(m, a)]) →
  name_valid n = true → WalletAddress.isValidXecAddress a' = true →
  wp (perform (Remove m a) p) (λ _ s',
    wp (on_load None initial) (λ r _, r = Rejected (TypeError "Cannot read properties of undefined")) s' ∧
    wp (p ← open_page None; perform (Add n a') p) (λ _ s'',
      stored s'' = Some (JArray [JObject []; contact n a']) ∧
      wp loadContactList (λ r s, r = Resolved no_contacts ∧ h_contactList (w_hook s) = no_contacts) s'') s') s.
Proof.
  intros Hs Ha Hp Hn Ha'. assert (Hb : good [(m, a)]) by (split; [apply NoDup_singleton|by repeat constructor]).
  eapply wp_mono; [apply (remove_mark m a p [(m, a)]); [done|done|done|by left]|]. intros r s1 (p1 & -> & Hs1 & _ & _ & H1 & _).
  unfold book_remove in H1. cbn in H1. rewrite String.eqb_refl in H1. cbn in H1. split.
  - eapply wp_mono; [by apply open_empty|]. by intros r s' [-> _].
  - apply wp_bind. unfold open_page. apply wp_try. eapply wp_mono; [by apply open_empty|]. intros r s2 [-> Hs2]. apply wp_mret.
    eapply wp_mono; [by apply add_to_initial|]. intros r s3 [Hs3 H3]. split; [done|]. by apply (load_invalid _ _ Hs3 H3).
Qed.

End S.

(** ** Examples *)
Section Examples.
Import ConcreteWallet.

Local Definition ann : string := "ecash:q00".
Local Definition bob : string := "ecash:q01".
Local Definition world_of (b : list entry) : world :=
  mkWorld (mkDb None None (Some (JArray (repr b))) None None (Ok None) [])
    (mkHook 0 5000 None None (JArray (repr b)) None ∅ None false false true) ∅ [] None.
Local Definition page_of (b : list entry) : page := set_list (Some (repr b)) false initial.
Local Definition one : list entry := [("ann"%string, ann)].
Local Definition two : list entry := [("ann"%string, ann); ("bob"%string, bob)].

Lemma good_one : good one.
Proof. split; [apply NoDup_singleton|repeat constructor]. Qed.
Lemma good_two : good two.
Proof. split; [apply (bool_decide_unpack _); reflexivity|repeat constructor]. Qed.

Local Definition some_edits : list edit := [Add "bob" bob; Rename "ann" ann "anna"; Remove "bob" bob].

Lemma contact_book_refined_witness : all_edited some_edits one = [("anna"%string, ann)] ∧
  wp (perform_all some_edits (page_of one)) (λ r s', wp loadContactList (λ r _, r = Resolved (JArray (repr (all_edited some_edits one)))) s') (world_of one).
Proof.
  split; [reflexivity|].
  eapply wp_mono; [apply (contact_book_refined some_edits (page_of one) one (world_of one) eq_refl good_one eq_refl eq_refl eq_refl)|].
  - split; [split; reflexivity|]. split; [split; [left|reflexivity]|]. split; [right; left|exact I].
  - intros r s' (_ & _ & _ & H & _). exact H.
Defined.

Lemma blank_contact_added_witness :
  wp (p ← perform (Add "bob" bob) (page_of one); handleManualAddContactModalOk (showManualAddContactModal p))
    (λ r s', wp loadContactList (λ r s'', r = Resolved no_contacts ∧ h_contactList (w_hook s'') = no_contacts) s') (world_of one).
Proof.
  eapply wp_mono; [apply (blank_contact_added "bob" bob (page_of one) one (world_of one) eq_refl good_one eq_refl)|].
  - split; reflexivity.
  - intros r s' [_ H]. exact H.
Defined.

Lemma second_contact_unasked_witness :
  wp (p ← perform (Remove "ann" ann) (page_of two); handleDeleteContactModalOk (handleDeleteContact (JString bob) p)) (λ _ s', stored s' = Some (JArray [])) (world_of two).
Proof.
  eapply wp_mono; [apply (second_contact_unasked "ann" ann "bob" bob (page_of two) two (world_of two) eq_refl good_two eq_refl)|].
  - left.
  - right. left.
  - discriminate.
  - intros r s' [_ H]. exact H.
Defined.

Lemma last_contact_deleted_witness :
  wp (perform (Remove "ann" ann) (page_of one)) (λ _ s',
    wp (on_load None initial) (λ r _, r = Rejected (TypeError "Cannot read properties of undefined")) s') (world_of one).
Proof.
  eapply wp_mono; [apply (last_contact_deleted "ann" ann "bob" bob (page_of one) (world_of one)); reflexivity|].
  intros r s' [H _]. exact H.
Defined.

End Examples.

End ContactsLaws.
