(* ===== verification/TokenForms.v ===== *)
(** * The pages of a token

    The state and the handlers of [cashtab/src/components/Send/SendToken.js], which sends and
    burns a token, and of [cashtab/src/components/Tokens/CreateTokenForm.js], which makes
    one.  The icon of a new token, which goes to another server, is left out. *)

From stdpp Require Import base tactics list gmap numbers strings pretty.
From Stdlib Require Import Ascii.
From S2P Require Import Prelude JsNumber JsFloat NodeBuffer Externals Encodings Crypto Curve Asm ECPair TransactionBuilder HDNode JsString JsDecimal BigNumber OpReturn WalletExternals WalletAddress Wallet Amounts TxBuilder CashMethods Send ChronikUtils History Validation App Accounts SendForm.
Import CashMethods Validation.
Open Scope Z_scope.

Module SendToken.
Section S.
Context {Mem : UninitMem} `{TF : !Typeforce} `{VU : !VarUint} `{CH : !CreateHash} `{B66 : !Bip66}
  `{B58 : !Bs58check} `{B32 : !Bech32} `{BI : !Bigi} `{EC : !Ecurve} `{HM : !CreateHmac} `{WF : !Wif}
  `{CA : !Cashaddr} `{BN : !BigNumber} `{SLP : !SlpMdm} `{BS58 : !Bs58} `{EI : !Ecies}.

(** ** State *)

(** [t_burnAmount] is a text or a [BigNumber], which [burnToken] reads as a text. *)
Record tokenState := mkTokenState {
  t_value : string;
  t_address : string;
  t_queryStringText : option string;
  t_addressError : option string;
  t_amountError : option string;
  t_isModalVisible : bool;
  t_eTokenBurnAmount : string;
  t_showConfirmBurnEtoken : bool;
  t_burnTokenAmountError : option string;
  t_burnConfirmationValid : option bool;
  t_confirmationOfEtokenToBeBurnt : string;
  t_loading : bool;
}.

Definition initial : tokenState := mkTokenState EmptyString EmptyString None None None false "1" false None None EmptyString false.

(** The token of the page, with its metadata. *)
Record context := mkContext {
  c_chronik : chronik;
  c_wallet : wallet;
  c_tokenId : string;
  c_balance : string;
  c_info : tokenInfo;
  c_apiError : bool;
  c_sendModal : bool;
}.

Definition set_form value address (s : tokenState) : tokenState :=
  mkTokenState value address (t_queryStringText s) (t_addressError s) (t_amountError s) (t_isModalVisible s) (t_eTokenBurnAmount s) (t_showConfirmBurnEtoken s) (t_burnTokenAmountError s) (t_burnConfirmationValid s) (t_confirmationOfEtokenToBeBurnt s) (t_loading s).
Definition setSendTokenAmountError e (s : tokenState) : tokenState :=
  mkTokenState (t_value s) (t_address s) (t_queryStringText s) (t_addressError s) e (t_isModalVisible s) (t_eTokenBurnAmount s) (t_showConfirmBurnEtoken s) (t_burnTokenAmountError s) (t_burnConfirmationValid s) (t_confirmationOfEtokenToBeBurnt s) (t_loading s).
Definition setAddressError q e (s : tokenState) : tokenState :=
  mkTokenState (t_value s) (t_address s) q e (t_amountError s) (t_isModalVisible s) (t_eTokenBurnAmount s) (t_showConfirmBurnEtoken s) (t_burnTokenAmountError s) (t_burnConfirmationValid s) (t_confirmationOfEtokenToBeBurnt s) (t_loading s).
Definition setIsModalVisible v (s : tokenState) : tokenState :=
  mkTokenState (t_value s) (t_address s) (t_queryStringText s) (t_addressError s) (t_amountError s) v (t_eTokenBurnAmount s) (t_showConfirmBurnEtoken s) (t_burnTokenAmountError s) (t_burnConfirmationValid s) (t_confirmationOfEtokenToBeBurnt s) (t_loading s).
Definition setBurnAmount v e (s : tokenState) : tokenState :=
  mkTokenState (t_value s) (t_address s) (t_queryStringText s) (t_addressError s) (t_amountError s) (t_isModalVisible s) v (t_showConfirmBurnEtoken s) e (t_burnConfirmationValid s) (t_confirmationOfEtokenToBeBurnt s) (t_loading s).
Definition setShowConfirmBurnEtoken v (s : tokenState) : tokenState :=
  mkTokenState (t_value s) (t_address s) (t_queryStringText s) (t_addressError s) (t_amountError s) (t_isModalVisible s) (t_eTokenBurnAmount s) v (t_burnTokenAmountError s) (t_burnConfirmationValid s) (t_confirmationOfEtokenToBeBurnt s) (t_loading s).
Definition setBurnConfirmationValid v (s : tokenState) : tokenState :=
  mkTokenState (t_value s) (t_address s) (t_queryStringText s) (t_addressError s) (t_amountError s) (t_isModalVisible s) (t_eTokenBurnAmount s) (t_showConfirmBurnEtoken s) (t_burnTokenAmountError s) v (t_confirmationOfEtokenToBeBurnt s) (t_loading s).
Definition setConfirmationOfEtokenToBeBurnt v (s : tokenState) : tokenState :=
  mkTokenState (t_value s) (t_address s) (t_queryStringText s) (t_addressError s) (t_amountError s) (t_isModalVisible s) (t_eTokenBurnAmount s) (t_showConfirmBurnEtoken s) (t_burnTokenAmountError s) (t_burnConfirmationValid s) v (t_loading s).
Definition passLoadingStatus v (s : tokenState) : tokenState :=
  mkTokenState (t_value s) (t_address s) (t_queryStringText s) (t_addressError s) (t_amountError s) (t_isModalVisible s) (t_eTokenBurnAmount s) (t_showConfirmBurnEtoken s) (t_burnTokenAmountError s) (t_burnConfirmationValid s) (t_confirmationOfEtokenToBeBurnt s) v.

(** ** Sending *)

Definition clearInputForms : tokenState → tokenState := set_form EmptyString EmptyString.

(** [Number(formData.value <= 0)] is truthy when the comparison is. *)
Definition submit (fuel : nat) (c : context) (s : tokenState) : tokenState * option Send.sent :=
  if OpReturn.is_empty (t_address s) || OpReturn.is_empty (t_value s) || num_leb (Number (t_value s)) (num_of_Z 0) || negb (CashMethods.missing (t_amountError s))
  then (s, None)
  else
    let s := passLoadingStatus true s in
    let cleanAddress := default EmptyString (split_on "?" (t_address s) !! 0%nat) in
    let r := Send.sendToken fuel (c_chronik c) (c_wallet c) (Some (c_tokenId c)) (Some (t_value s)) (Some cleanAddress) in
    match Send.returned r with
    | Send.Sent _ => (clearInputForms s, Some r)
    | Send.Failed _ _ => (passLoadingStatus false s, Some r)
    end.

Definition amount_error (c : context) (value : string) : option string :=
  if num_isNaN (Number value) then Some "Amount must be a number"
  else if num_leb (Number value) (num_of_Z 0) then Some "Amount must be greater than 0"
  else if negb (OpReturn.is_empty (c_balance c)) && bn_gt (bn_of_string value) (bn_of_string (c_balance c)) 
       then Some (String.append "Amount cannot exceed your " (String.append (ti_tokenTicker (c_info c)) (String.append " balance of " (c_balance c))))
  else if includes value "." && (places value >? ti_decimals (c_info c))
       then Some (String.append "This token only supports " (String.append (pretty (ti_decimals (c_info c))) " decimal places"))
  else None%string.

Definition handleSlpAmountChange (c : context) (value : string) (s : tokenState) : tokenState :=
  set_form value (t_address s) (setSendTokenAmountError (amount_error c value) s).

Definition handleTokenAddressChange (value : string) (s : tokenState) : tokenState :=
  let info := SendForm.parseAddressForParams value in
  let isValid := WalletAddress.isValidEtokenAddress (SendForm.ai_address info) || WalletAddress.isValidXecAddress (SendForm.ai_address info) in
  set_form (t_value s) value (setAddressError (SendForm.ai_queryString info) (if isValid then None else Some "Invalid address"%string) s).

Definition onMax (c : context) (s : tokenState) : tokenState := set_form (c_balance c) (t_address s) (setSendTokenAmountError None s).

Definition checkForConfirmationBeforeSendEtoken (fuel : nat) (c : context) (s : tokenState) : tokenState * option Send.sent :=
  if c_sendModal c then (setIsModalVisible true s, None) else submit fuel c s.
Definition handleOk (fuel : nat) (c : context) (s : tokenState) : tokenState * option Send.sent := submit fuel c (setIsModalVisible false s).
Definition handleCancel : tokenState → tokenState := setIsModalVisible false.

(** ** Burning *)

(** The amount is kept as a [BigNumber]. *)
Definition handleEtokenBurnAmountChange (c : context) (value : string) (s : tokenState) : tokenState :=
  let burnAmount := bn_toString (bn_of_string value) in
  setBurnAmount burnAmount (if isValidEtokenBurnAmount (Some burnAmount) (Some (c_balance c)) then None else Some (String.append "Burn amount must be between 1 and " (c_balance c))) s.

Definition onMaxBurn (c : context) (s : tokenState) : tokenState := handleEtokenBurnAmountChange c (c_balance c) s.

Definition burn_phrase (c : context) : string := String.append "burn " (ti_tokenTicker (c_info c)).

Definition handleBurnConfirmationInput (c : context) (value : string) (s : tokenState) : tokenState :=
  setConfirmationOfEtokenToBeBurnt value (setBurnConfirmationValid (Some (negb (OpReturn.is_empty value) && String.eqb value (burn_phrase c))) s).

Definition handleBurnAmountInput (s : tokenState) : tokenState :=
  if CashMethods.missing (t_burnTokenAmountError s) then setShowConfirmBurnEtoken true s else s.

(** An amount that is a [BigNumber] is truthy. *)
Definition burn (fuel : nat) (c : context) (s : tokenState) : tokenState * option Send.sent :=
  if negb (default false (t_burnConfirmationValid s)) then (s, None)
  else
    let s := passLoadingStatus true s in
    let r := Send.burnToken fuel (c_chronik c) (c_wallet c) (Some (c_tokenId c)) (Some (t_eTokenBurnAmount s)) in
    match Send.returned r with
    | Send.Sent _ => (setConfirmationOfEtokenToBeBurnt EmptyString (setShowConfirmBurnEtoken false (clearInputForms s)), Some r)
    | Send.Failed _ _ => (setConfirmationOfEtokenToBeBurnt EmptyString (passLoadingStatus false (setShowConfirmBurnEtoken false s)), Some r)
    end.

(** ** Controls *)

Definition can_send (c : context) (s : tokenState) : bool :=
  negb (c_apiError c || negb (CashMethods.missing (t_amountError s)) || negb (CashMethods.missing (t_addressError s))).

Inductive event :=
| AmountChange (value : string)
| AddressChange (value : string)
| Max
| ClickSend
| ClickOk
| ClickCancel
| BurnAmountChange (value : string)
| MaxBurn
| ClickBurn
| PhraseChange (value : string)
| ConfirmBurn
| CancelBurn.

Definition enabled (c : context) (s : tokenState) (e : event) : bool :=
  match e with
  | ClickSend => can_send c s
  | ClickOk | ClickCancel => t_isModalVisible s
  | PhraseChange _ | ConfirmBurn | CancelBurn => t_showConfirmBurnEtoken s
  | _ => true
  end.

Definition step (fuel : nat) (c : context) (e : event) (s : tokenState) : tokenState * option Send.sent :=
  match e with
  | AmountChange v => (handleSlpAmountChange c v s, None)
  | AddressChange v => (handleTokenAddressChange v s, None)
  | Max => (onMax c s, None)
  | ClickSend => checkForConfirmationBeforeSendEtoken fuel c s
  | ClickOk => handleOk fuel c s
  | ClickCancel => (handleCancel s, None)
  | BurnAmountChange v => (handleEtokenBurnAmountChange c v s, None)
  | MaxBurn => (onMaxBurn c s, None)
  | ClickBurn => (handleBurnAmountInput s, None)
  | PhraseChange v => (handleBurnConfirmationInput c v s, None)
  | ConfirmBurn => burn fuel c s
  | CancelBurn => (setShowConfirmBurnEtoken false s, None)
  end.

End S.
End SendToken.

Module CreateTokenForm.
Section S.
Context {Mem : UninitMem} `{TF : !Typeforce} `{VU : !VarUint} `{CH : !CreateHash} `{B66 : !Bip66}
  `{B58 : !Bs58check} `{B32 : !Bech32} `{BI : !Bigi} `{EC : !Ecurve} `{HM : !CreateHmac} `{WF : !Wif}
  `{CA : !Cashaddr} `{BN : !BigNumber} `{SLP : !SlpMdm} `{BS58 : !Bs58} `{EI : !Ecies}.

(** [isValidTokenInitialQty] for decimals that are not a digit: a power with any text. *)
Variable odd_quantity : string → string → bool.

(** ** State *)

(** A check that was not made yet is [null].  The decimals are the number 0 at first, then
    the text of the input. *)
Record createState := mkCreate {
  n_name : string;
  n_nameIsValid : option bool;
  n_nameIsProbablyNotAScam : option bool;
  n_nameError : string;
  n_ticker : string;
  n_tickerIsValid : option bool;
  n_tickerIsProbablyNotAScam : option bool;
  n_tickerError : string;
  n_decimals : json;
  n_decimalsIsValid : bool;
  n_initialQty : string;
  n_initialQtyIsValid : option bool;
  n_documentUrl : string;
  n_documentUrlIsValid : bool;
  n_showConfirmCreateToken : bool;
  n_loading : bool;
}.

Definition initial : createState :=
  mkCreate EmptyString None None EmptyString EmptyString None None EmptyString (JNumber 0) true EmptyString None EmptyString true false false.

(** ** Input *)

(** The text of the error after an input: one that both checks clear, and otherwise that of
    the last check that fails. *)
Definition name_error (valid safe : bool) : string := if negb safe then "Blacklisted Error" else if negb valid then "Validation Error" else EmptyString.

Definition handleNewTokenNameInput (value : string) (s : createState) : createState :=
  let valid := isValidTokenName (JString value) in
  let safe := isProbablyNotAScamTokenName value in
  mkCreate value (Some valid) (Some safe) (name_error valid safe) (n_ticker s) (n_tickerIsValid s) (n_tickerIsProbablyNotAScam s) (n_tickerError s) (n_decimals s) (n_decimalsIsValid s)
    (n_initialQty s) (n_initialQtyIsValid s) (n_documentUrl s) (n_documentUrlIsValid s) (n_showConfirmCreateToken s) (n_loading s).

Definition handleNewTokenTickerInput (value : string) (s : createState) : createState :=
  let valid := isValidTokenTicker (JString value) in
  let safe := isProbablyNotAScamTokenTicker value in
  mkCreate (n_name s) (n_nameIsValid s) (n_nameIsProbablyNotAScam s) (n_nameError s) value (Some valid) (Some safe) (name_error valid safe) (n_decimals s) (n_decimalsIsValid s)
    (n_initialQty s) (n_initialQtyIsValid s) (n_documentUrl s) (n_documentUrlIsValid s) (n_showConfirmCreateToken s) (n_loading s).

(** The decimals as a number, when they are a digit. *)
Definition digit_of (v : json) : option Z :=
  match v with
  | JNumber n => Some n
  | JString (String c EmptyString) => if (48 <=? code c) && (code c <=? 57) then Some (code c - 48) else None
  | _ => None
  end.

Definition quantity_valid (tokenInitialQty : string) (tokenDecimals : json) : bool :=
  match digit_of tokenDecimals with
  | Some d => isValidTokenInitialQty tokenInitialQty d
  | None => odd_quantity tokenInitialQty (text_of tokenDecimals)
  end.

(** The quantity that is checked is the value of this input, with the decimals from before. *)
Definition handleNewTokenDecimalsInput (value : string) (s : createState) : createState :=
  let qtyIsValid := match n_initialQtyIsValid s with Some _ => Some (quantity_valid value (n_decimals s)) | None => None end in
  mkCreate (n_name s) (n_nameIsValid s) (n_nameIsProbablyNotAScam s) (n_nameError s) (n_ticker s) (n_tickerIsValid s) (n_tickerIsProbablyNotAScam s) (n_tickerError s)
    (JString value) (isValidTokenDecimals (JString value)) (n_initialQty s) qtyIsValid (n_documentUrl s) (n_documentUrlIsValid s) (n_showConfirmCreateToken s) (n_loading s).

Definition handleNewTokenInitialQtyInput (value : string) (s : createState) : createState :=
  mkCreate (n_name s) (n_nameIsValid s) (n_nameIsProbablyNotAScam s) (n_nameError s) (n_ticker s) (n_tickerIsValid s) (n_tickerIsProbablyNotAScam s) (n_tickerError s)
    (n_decimals s) (n_decimalsIsValid s) value (Some (quantity_valid value (n_decimals s))) (n_documentUrl s) (n_documentUrlIsValid s) (n_showConfirmCreateToken s) (n_loading s).

Definition handleNewTokenDocumentUrlInput (value : string) (s : createState) : createState :=
  mkCreate (n_name s) (n_nameIsValid s) (n_nameIsProbablyNotAScam s) (n_nameError s) (n_ticker s) (n_tickerIsValid s) (n_tickerIsProbablyNotAScam s) (n_tickerError s)
    (n_decimals s) (n_decimalsIsValid s) (n_initialQty s) (n_initialQtyIsValid s) value (isValidTokenDocumentUrl (JString value)) (n_showConfirmCreateToken s) (n_loading s).

Definition set_page (shown loading : bool) (s : createState) : createState :=
  mkCreate (n_name s) (n_nameIsValid s) (n_nameIsProbablyNotAScam s) (n_nameError s) (n_ticker s) (n_tickerIsValid s) (n_tickerIsProbablyNotAScam s) (n_tickerError s)
    (n_decimals s) (n_decimalsIsValid s) (n_initialQty s) (n_initialQtyIsValid s) (n_documentUrl s) (n_documentUrlIsValid s) shown loading.

(** ** Making the token *)

Definition tokenGenesisDataIsValid (s : createState) : bool :=
  default false (n_nameIsValid s) && default false (n_tickerIsValid s) && n_decimalsIsValid s && default false (n_initialQtyIsValid s) && n_documentUrlIsValid s &&
  default false (n_nameIsProbablyNotAScam s) && default false (n_tickerIsProbablyNotAScam s).

Definition newTokenDefaultUrl : string := "https://cashtab.com/".

(** The decimals are those of an input that was accepted. *)
Definition configObj (s : createState) : tokenConfig :=
  mkTokenConfig (n_name s) (n_ticker s) (if OpReturn.is_empty (n_documentUrl s) then newTokenDefaultUrl else n_documentUrl s) EmptyString (default 0 (digit_of (n_decimals s))) (n_initialQty s) None.

(** Data that is not valid leaves the page locked. *)
Definition createPreviewedToken (fuel : nat) (ck : chronik) (w : wallet) (s : createState) : createState * option Send.sent :=
  if negb (tokenGenesisDataIsValid s) then (set_page (n_showConfirmCreateToken s) true s, None)
  else (set_page false false s, Some (Send.createToken fuel ck w Currency.defaultFee (Some (configObj s)))).

Inductive event :=
| NameInput (value : string)
| TickerInput (value : string)
| DecimalsInput (value : string)
| QuantityInput (value : string)
| UrlInput (value : string)
| ClickCreate
| Confirm
| Cancel.

Definition enabled (s : createState) (e : event) : bool :=
  match e with
  | ClickCreate => tokenGenesisDataIsValid s
  | Confirm | Cancel => n_showConfirmCreateToken s
  | _ => true
  end.

Definition step (fuel : nat) (ck : chronik) (w : wallet) (e : event) (s : createState) : createState * option Send.sent :=
  match e with
  | NameInput v => (handleNewTokenNameInput v s, None)
  | TickerInput v => (handleNewTokenTickerInput v s, None)
  | DecimalsInput v => (handleNewTokenDecimalsInput v s, None)
  | QuantityInput v => (handleNewTokenInitialQtyInput v s, None)
  | UrlInput v => (handleNewTokenDocumentUrlInput v s, None)
  | ClickCreate => (set_page true (n_loading s) s, None)
  | Confirm => createPreviewedToken fuel ck w s
  | Cancel => (set_page false (n_loading s) s, None)
  end.

End S.
End CreateTokenForm.

(** * The pages of a token, over their events

    A burn and its phrase, and what the form for a new token checks. *)

From Stdlib Require Import QArith.
Import CashMethods Validation.
Open Scope Z_scope.
Module TokenFormsLaws.
Section S.
Context {Mem : UninitMem} `{TF : !Typeforce} `{VU : !VarUint} `{CH : !CreateHash} `{B66 : !Bip66}
  `{B58 : !Bs58check} `{B32 : !Bech32} `{BI : !Bigi} `{EC : !Ecurve} `{HM : !CreateHmac} `{WF : !Wif}
  `{CA : !Cashaddr} `{BN : !BigNumber} `{SLP : !SlpMdm} `{BS58 : !Bs58} `{EI : !Ecies}.

(** ** Burning *)

Section Burn.
Import SendToken.
Variable (fuel : nat) (c : context).

(** The events so far, the last one first, and the state they lead to. *)
Inductive reached : list event → tokenState → Prop :=
| reached_initial : reached [] initial
| reached_step t s e : reached t s → enabled c s e = true → reached (e :: t) (step fuel c e s).1.

(** The last text that was typed for the phrase. *)
Fixpoint last_phrase (t : list event) : option string :=
  match t with
  | [] => None
  | PhraseChange v :: _ => Some v
  | _ :: t => last_phrase t
  end.

Definition matches_phrase (v : string) : bool := negb (OpReturn.is_empty v) && String.eqb v (burn_phrase c).

Lemma submit_keeps s : t_burnConfirmationValid (submit fuel c s).1 = t_burnConfirmationValid s.
Proof. unfold submit. cbv zeta. destruct (_ || _); [done|]. by destruct (Send.returned _). Qed.

Lemma burn_keeps s : t_burnConfirmationValid (burn fuel c s).1 = t_burnConfirmationValid s.
Proof. unfold burn. cbv zeta. destruct (negb _); [done|]. by destruct (Send.returned _). Qed.

(** The check is that of the last text, whatever was done since. *)
Lemma phrase_checked t s : reached t s → t_burnConfirmationValid s = matches_phrase <$> last_phrase t.
Proof.
  induction 1 as [|t s e _ IH _]; [done|]. destruct e; cbn [step fst last_phrase]; try exact IH.
  - unfold checkForConfirmationBeforeSendEtoken. destruct (c_sendModal c); [exact IH|by rewrite submit_keeps].
  - unfold handleOk. by rewrite submit_keeps.
  - unfold handleBurnAmountInput. by destruct (CashMethods.missing _).
  - done.
  - by rewrite burn_keeps.
Qed.


(** The second burn asks for nothing.  After a burn that went through, the text of the phrase
    is cleared but not the check of it: opening the confirmation again and agreeing burns
    the amount once more, with nothing typed. *)
Theorem second_burn_unasked s s1 r link : burn fuel c s = (s1, Some r) → Send.returned r = Send.Sent link → t_burnTokenAmountError s = None →
  let s2 := handleBurnAmountInput s1 in
  t_showConfirmBurnEtoken s2 = true ∧ t_confirmationOfEtokenToBeBurnt s2 = EmptyString ∧
  (burn fuel c s2).2 = Some (Send.burnToken fuel (c_chronik c) (c_wallet c) (Some (c_tokenId c)) (Some (t_eTokenBurnAmount s))).
Proof.
  intros Eb Er Ee s2. unfold burn in Eb. cbv zeta in Eb. destruct (default false (t_burnConfirmationValid s)) eqn:Ev; [|done]. cbn [negb] in Eb.
  destruct (Send.returned _) eqn:E in Eb; injection Eb as <- <-; [|change (t_eTokenBurnAmount (passLoadingStatus true s)) with (t_eTokenBurnAmount s) in E, Er; congruence].
  assert (Es2 : s2 = setShowConfirmBurnEtoken true (setConfirmationOfEtokenToBeBurnt EmptyString (setShowConfirmBurnEtoken false (clearInputForms (passLoadingStatus true s))))).
  { unfold s2, handleBurnAmountInput.
    change (t_burnTokenAmountError (setConfirmationOfEtokenToBeBurnt _ _)) with (t_burnTokenAmountError s). by rewrite Ee. }
  rewrite Es2. split; [done|]. split; [done|]. unfold burn. cbv zeta.
  change (t_burnConfirmationValid (setShowConfirmBurnEtoken true _)) with (t_burnConfirmationValid s). rewrite Ev. cbn [negb]. by destruct (Send.returned _).
Qed.

End Burn.

(** ** A new token *)

Section Create.
Import CreateTokenForm.
Variable odd_quantity : string → string → bool.
Variable (fuel : nat) (ck : chronik) (w : wallet).

Inductive create_reached : createState → Prop :=
| create_initial : create_reached initial
| create_step s e : create_reached s → enabled s e = true → create_reached (step odd_quantity fuel ck w e s).1.

(** The checks are those of the fields; a field that was not typed in is not accepted, but
    for the decimals, 0 at first, and the address, which may be empty. *)
Record checked (s : createState) : Prop := {
  ck_name : default false (n_nameIsValid s) = true → isValidTokenName (JString (n_name s)) = true;
  ck_name_scam : default false (n_nameIsProbablyNotAScam s) = true → isProbablyNotAScamTokenName (n_name s) = true;
  ck_ticker : default false (n_tickerIsValid s) = true → isValidTokenTicker (JString (n_ticker s)) = true;
  ck_ticker_scam : default false (n_tickerIsProbablyNotAScam s) = true → isProbablyNotAScamTokenTicker (n_ticker s) = true;
  ck_decimals : n_decimalsIsValid s = true → n_decimals s = JNumber 0 ∨ isValidTokenDecimals (n_decimals s) = true;
  ck_url : n_documentUrlIsValid s = true → isValidTokenDocumentUrl (JString (n_documentUrl s)) = true;
}.

Lemma step_checked e s : checked s → checked (step odd_quantity fuel ck w e s).1.
Proof.
  intros [H1 H2 H3 H4 H5 H6]. destruct e; cbn [step fst]; try (split; cbn; auto; done).
  unfold createPreviewedToken. destruct (negb _); split; cbn; auto.
Qed.

Lemma reached_checked s : create_reached s → checked s.
Proof. induction 1 as [|s e _ IH _]; [split; cbn; auto; done|by apply step_checked]. Qed.

Lemma decimals_digit v : v = JNumber 0 ∨ isValidTokenDecimals v = true → ∃ d, digit_of v = Some d ∧ 0 <= d <= 9.
Proof.
  intros [->|H]; [by exists 0|]. destruct v as [| | | | |t| |]; try done. cbn [isValidTokenDecimals is_string text_of andb] in H. unfold listed in H. cbn [existsb] in H.
  repeat (apply orb_prop in H as [->%String.eqb_eq|H]; [eexists; split; [reflexivity|vm_compute; split; congruence]|]). done.
Qed.


Section Quantity.
Context `{BNS : !BigNumberSpec}.

Lemma small_quantity n d : 1 <= n < 100000000000 → 0 <= d <= 9 → isValidTokenInitialQty (pretty n) d = true.
Proof.
  intros Hn Hd. unfold isValidTokenInitialQty. pose proof (bn_of_string_int n) as Hx. pose proof (bn_pow10_is (- d) ltac:(lia)) as Hp.
  assert (E1 : bn_gte (bn_of_string (pretty n)) (bn_pow10 (- d)) = true).
  { apply (proj2 (bn_lte_is _ _ _ _ Hp Hx)). rewrite ten_opp by lia. apply Qle_trans with 1%Q; [|unfold Qle; cbn; lia].
    apply Qle_shift_inv_r; [|unfold Qle]; cbn; pose proof (Z.pow_pos_nonneg 10 d); [unfold Qlt; cbn|]; lia. }
  rewrite E1, (bn_lt_int _ _ n 100000000000 Hx (bn_of_Z_is _)), (proj2 (Z.ltb_lt _ _)) by lia. cbn [andb].
  destruct (bn_dp_is _ _ Hx) as (k & -> & Hk). cbn [default from_option id]. apply Z.leb_le. apply (Hk d); [lia|]. exists (n * 10 ^ d). rewrite ten_nonneg by lia. by rewrite <- inject_Z_mult.
Qed.

(** A quantity that slips through.  The decimals are changed after the quantity was accepted:
    what is checked again is the number of decimals in place of the quantity, with the old
    decimals.  So with 8 decimals first and 2 then, every quantity that has up to 8 places
    is accepted, and the token is created with a quantity that 2 decimals do not allow. *)
Theorem quantity_slips_through name ticker qty :
  isValidTokenName (JString name) = true → isProbablyNotAScamTokenName name = true → isValidTokenTicker (JString ticker) = true → isProbablyNotAScamTokenTicker ticker = true →
  isValidTokenInitialQty qty 8 = true → isValidTokenInitialQty qty 2 = false →
  let s := fold_left (λ s e, (step odd_quantity fuel ck w e s).1) [NameInput name; TickerInput ticker; DecimalsInput "8"; QuantityInput qty; DecimalsInput "2"; ClickCreate] initial in
  (step odd_quantity fuel ck w Confirm s).2 = Some (Send.createToken fuel ck w Currency.defaultFee (Some (mkTokenConfig name ticker newTokenDefaultUrl EmptyString 2 qty None))).
Proof.
  intros H1 H2 H3 H4 H5 H6 s. assert (E : isValidTokenInitialQty "2" 8 = true) by (apply (small_quantity 2 8); lia).
  cbn [step]. unfold createPreviewedToken. assert (Ev : tokenGenesisDataIsValid s = true).
  { unfold tokenGenesisDataIsValid, s. cbn [fold_left step fst handleNewTokenNameInput handleNewTokenTickerInput handleNewTokenDecimalsInput handleNewTokenInitialQtyInput set_page
      n_nameIsValid n_tickerIsValid n_decimalsIsValid n_initialQtyIsValid n_documentUrlIsValid n_nameIsProbablyNotAScam n_tickerIsProbablyNotAScam n_decimals default from_option id].
    unfold quantity_valid. change (digit_of (JString "8")) with (Some 8). cbn [initial n_documentUrlIsValid]. rewrite H1, H2, H3, H4, E. done. }
  rewrite Ev. done.
Qed.

End Quantity.
End Create.
End S.

(** ** Examples *)

Section Examples.
Import Concrete ConcreteCurve ConcreteText ConcreteBn ConcreteWallet.
Local Existing Instance zero_mem.

Local Definition addr (n : Z) : string := String.append "ecash:q" (Hex.toHex (repeat n 20)).
Local Definition acct (n : Z) : account := mkAccount (addr n) (text (128 :: 1 :: be_bytes 32 n)) None None.
Local Definition coin : utxo := mkUtxo (Hex.toHex (repeat 9 32)) 0 "5000" (addr 5) None None.
Local Definition token_coin : tokenUtxo :=
  mkTokenUtxo (mkUtxo (Hex.toHex (repeat 9 32)) 1 "546" (addr 5) (Some (mkSlpMeta "aa" "SEND")) (Some (mkSlpToken "20" false))) "20" "aa" 0.
Local Definition a_state : walletState := mkState (Some (mkBalances "5000" "50")) (Some []) (Some [token_coin]) (Some [coin]) false None None.
Local Definition a_wallet : wallet := mkWallet "seed" "name" (acct 3) (acct 4) (Some (acct 5)) (Some a_state).
Local Definition a_chronik : chronik :=
  mkChronik (λ _ _, inl (Some "ab"%string)) (λ _ _ _, inl []) (λ _, inl []) (λ _, inr (mkFailure (Error "none") None)) (λ _, inr (mkFailure (Error "none") None)).

Section BurnExamples.
Import SendToken.
Local Definition a_context : context := mkContext a_chronik a_wallet "aa" "20" (mkTokenInfo "T" "Token" "u" "h" 0 "aa") false false.
Local Definition asked : tokenState := handleBurnConfirmationInput a_context "burn T" (handleBurnAmountInput initial).


Lemma second_burn_unasked_witness : (burn 20 a_context (handleBurnAmountInput (burn 20 a_context asked).1)).2 =
  Some (Send.burnToken 20 a_chronik a_wallet (Some "aa"%string) (Some "1"%string)).
Proof.
  refine (proj2 (proj2 (second_burn_unasked 20 a_context asked _ (Send.burnToken 20 a_chronik a_wallet (Some "aa"%string) (Some "1"%string)) (Send.link_of "ab") _ _ _))); vm_compute; reflexivity.
Defined.
End BurnExamples.

Section CreateExamples.
Import CreateTokenForm.
Local Definition no_quantity (_ _ : string) : bool := false.
Local Definition inputs : list event := [NameInput "Token of a test"; TickerInput "TEST"; QuantityInput "100"; ClickCreate].
Local Definition confirming : createState := fold_left (λ s e, (step no_quantity 20 a_chronik a_wallet e s).1) inputs initial.


Lemma quantity_slips_through_witness :
  let s := fold_left (λ s e, (step no_quantity 20 a_chronik a_wallet e s).1) [NameInput "Token of a test"; TickerInput "TEST"; DecimalsInput "8"; QuantityInput "....12345"; DecimalsInput "2"; ClickCreate] initial in
  (step no_quantity 20 a_chronik a_wallet Confirm s).2 =
    Some (Send.createToken 20 a_chronik a_wallet Currency.defaultFee (Some (mkTokenConfig "Token of a test" "TEST" newTokenDefaultUrl EmptyString 2 "....12345" None))).
Proof. apply (quantity_slips_through no_quantity 20 a_chronik a_wallet "Token of a test" "TEST" "....12345"); vm_compute; reflexivity. Defined.
End CreateExamples.

End Examples.
End TokenFormsLaws.
