(* ===== verification/Formatting.v ===== *)
(** * Formatting

    [cashtab/src/utils/formatting.js].  What a number or a date looks like in a language is
    a service of the browser: the class [Intl]. *)

From stdpp Require Import base tactics list numbers strings.
From S2P Require Import Prelude JsFloat JsString JsDecimal JsText BigNumber Wallet.
Open Scope Z_scope.

(** [undefined], and what stands for an empty list of languages, is the language of the
    browser. *)
Inductive locale := DefaultLocale | Locale (tag : string).

Record fractionDigits := mkDigits { minimumFractionDigits : option Z; maximumFractionDigits : option Z }.

(** A tag that is not a language throws.  The date is a number of milliseconds, [None] is
    now; the options of the date are those of [formatDate]. *)
Class Intl := {
  toLocaleString : number → locale → fractionDigits → result string;
  toLocaleDateString : option number → locale → result string;
  navigator_language : option string;
}.

(** With the language of the browser and no options a number always has a text. *)
Class IntlSpec `{!Intl} : Prop := {
  default_locale_text x : ∃ s, toLocaleString x DefaultLocale (mkDigits None None) = Ok s;
}.

Module Formatting.

(** What a function returns: a text, or its argument as it is. *)
Inductive output := Text (s : string) | Same.

(** [try { return f } catch { return other }] *)
Definition otherwise (f : result string) (other : output) : output := match f with Ok s => Text s | Throw _ => other end.

(** [{ maximumFractionDigits: 2 }] where a language is expected: an object without
    elements. *)
Definition options_as_locale : locale := DefaultLocale.
Definition no_digits : fractionDigits := mkDigits None None.
Definition two_digits : fractionDigits := mkDigits None (Some Currency.cashDecimals).

Section S.
Context `{IN : !Intl} `{BN : !BigNumber}.

(** [dateString] is a number of seconds; [None] is a falsy value. *)
Definition formatDate (dateString : option Z) (userLocale : string) : string :=
  match toLocaleDateString (option_map (λ s, num_mul (num_of_Z s) (num_of_Z 1000)) dateString) (Locale userLocale) with
  | Ok s => s
  | Throw _ => "Unable to format date."
  end.

(** [None] is [undefined], which has no methods. *)
Definition formatFiatBalance (fiatBalance : option number) (optionalLocale : option string) : output :=
  match fiatBalance with
  | None => Same
  | Some x =>
      if SpecFloat.SFeqb x (num_of_Z 0) then Text (num_toFixed x Currency.cashDecimals)
      else
        match optionalLocale with
        | None => otherwise (toLocaleString x options_as_locale no_digits) Same
        | Some l => otherwise (toLocaleString x (Locale l) two_digits) Same
        end
  end.

Definition formatSavedBalance (swBalance : option string) (optionalLocale : option string) : output :=
  match swBalance with
  | None => Text "N/A"
  | Some s =>
      match optionalLocale with
      | None => otherwise (toLocaleString (Number s) options_as_locale no_digits) (Text "N/A")
      | Some l => otherwise (toLocaleString (Number s) (Locale l) two_digits) (Text "N/A")
      end
  end.

Definition formatBalance (unformattedBalance : string) (optionalLocale : option string) : output :=
  match optionalLocale with
  | None => otherwise (toLocaleString (Number unformattedBalance) options_as_locale no_digits) Same
  | Some l => otherwise (toLocaleString (Number unformattedBalance) (Locale l) two_digits) Same
  end.

(** [None] as a result is [undefined]. *)
Definition formatTokenBalance (unformattedBalance : option bn) (tokenDecimal : option Z) (defaultLocale : string) : option output :=
  match tokenDecimal, unformattedBalance with
  | Some decimals, Some b =>
      let locale := match navigator_language with Some l => if String.eqb l EmptyString then defaultLocale else l | None => defaultLocale end in
      Some (otherwise (toLocaleString (parseFloat (bn_toFixed b decimals)) (Locale locale) (mkDigits (Some decimals) None)) Same)
  | _, _ => None
  end.

End S.
End Formatting.

(** ** A concrete instance *)
Module ConcreteIntl.

#[export] Instance intl : Intl := {
  toLocaleString x _ _ := Ok (num_toString x);
  toLocaleDateString _ _ := Ok "today"%string;
  navigator_language := Some "en-US"%string;
}.
#[export] Instance intl_spec : IntlSpec.
Proof. constructor. intros x. by exists (num_toString x). Qed.

End ConcreteIntl.
