(* ===== verification/Home.v ===== *)
(** * The first page

    What [cashtab/src/components/Home] shows: the balances, the history with its messages,
    and the tokens ([Home.js], [TxHistory.js], [Tx.js], [TokenList.js], and the headers of
    [components/Common]).  A page is a list of items in their order; how they look is left
    out, but for what hides a text.  Reading a field of [undefined] throws. *)

From stdpp Require Import base tactics list gmap numbers strings.
From Stdlib Require Import Ascii.
From S2P Require Import Prelude JsNumber JsFloat NodeBuffer Encodings JsString JsDecimal JsText BigNumber OpReturn WalletExternals Wallet TransactionBuilder Tickers ChronikUtils Validation App Accounts Extension Contacts Formatting.
Import ChronikUtils Validation Formatting.
Open Scope Z_scope.

(** ** Currencies *)
Module Fiat.
Local Open Scope string_scope.

Record fiat := mkFiat { f_name : string; f_symbol : string; f_slug : string }.

Definition fiatCurrencies : list (string * fiat) := [
  ("usd", mkFiat "US Dollar" "$" "usd");
  ("aud", mkFiat "Australian Dollar" "$" "aud");
  ("bhd", mkFiat "Bahraini Dinar" "BD" "bhd");
  ("brl", mkFiat "Brazilian Real" "R$" "brl");
  ("gbp", mkFiat "British Pound" "£" "gbp");
  ("cad", mkFiat "Canadian Dollar" "$" "cad");
  ("clp", mkFiat "Chilean Peso" "$" "clp");
  ("cny", mkFiat "Chinese Yuan" "元" "cny");
  ("eur", mkFiat "Euro" "€" "eur");
  ("hkd", mkFiat "Hong Kong Dollar" "HK$" "hkd");
  ("inr", mkFiat "Indian Rupee" "₹" "inr");
  ("idr", mkFiat "Indonesian Rupiah" "Rp" "idr");
  ("ils", mkFiat "Israeli Shekel" "₪" "ils");
  ("jpy", mkFiat "Japanese Yen" "¥" "jpy");
  ("krw", mkFiat "Korean Won" "₩" "krw");
  ("ngn", mkFiat "Nigerian Naira" "₦" "ngn");
  ("nzd", mkFiat "New Zealand Dollar" "$" "nzd");
  ("nok", mkFiat "Norwegian Krone" "kr" "nok");
  ("php", mkFiat "Philippine Peso" "₱" "php");
  ("rub", mkFiat "Russian Ruble" "р." "rub");
  ("twd", mkFiat "New Taiwan Dollar" "NT$" "twd");
  ("sar", mkFiat "Saudi Riyal" "SAR" "sar");
  ("zar", mkFiat "South African Rand" "R" "zar");
  ("chf", mkFiat "Swiss Franc" "Fr." "chf");
  ("try", mkFiat "Turkish Lira" "₺" "try");
  ("vnd", mkFiat "Vietnamese đồng" "đ" "vnd")].

(** [currency.fiatCurrencies[code]] *)
Fixpoint find (code : string) (l : list (string * fiat)) : result fiat :=
  match l with
  | [] => TransactionBuilder.no_property
  | (k, f) :: l => if String.eqb k code then Ok f else find code l
  end.
Definition fiat_of (code : string) : result fiat := find code fiatCurrencies.

End Fiat.

Module Home.

(** ** Items *)

Inductive link :=
| ToSend (replyAddress : string)
| ToConfigure (contactToAdd : string)
| ToRename
| ToSendToken (tokenId : string)
| ToTokens
| ToUrl (url : string).

(** How the text of a message is shown. *)
Inductive style := Plain | Decrypted (authorized : bool) | Unauthorized.

(** [Balance false] is transparent.  [Copy] is a button with a label, and what it copies. *)
Inductive item :=
| Icon (name : string)
| TokenIcon (tokenId : option string)
| Label (s : string)
| Balance (visible : bool) (s : string)
| TokenAmount (sign amount : string) (ticker : option string)
| Message (how : style) (m : buffer)
| ShowHide (label : string)
| Copy (label : string) (data : buffer)
| Link (to : link) (label : string).

(** ** Entries of the history *)

(** A transaction of the history, with the time of its block if it has one; [e_parsed] is
    missing in the history of an old version. *)
Record entry := mkEntry { e_tx : chronikTx; e_blockTimestamp : Z; e_parsed : option parsedTx }.

Record txProps := mkProps {
  p_fiatPrice : option number;
  p_fiatCurrency : string;
  p_addresses : list json;
  p_contactList : json;
  p_settings : option json;
  p_cache : tokenInfoMap;
}.

(** [cashtabSettings.name], of settings that may be [false] *)
Definition setting (settings : option json) (name : string) : json :=
  match settings with Some v => Extension.prop name v | None => JUndefined end.
Definition hides (settings : option json) : bool := Extension.truthy (setting settings "hideMessagesFromUnknownSenders").

(** [addressesInContactList.includes(data.parsed.replyAddress)] *)
Definition known (addresses : list json) (p : parsedTx) : bool := existsb (Contacts.same (JString (px_replyAddress p))) addresses.

Definition is_burn (p : parsedTx) : bool := match px_etoken p with Some e => ef_isTokenBurn e | None => false end.

(** [data.parsed.isEtokenTx && data.slpTxData.slpMeta.txType === 'GENESIS'] *)
Definition is_genesis (tx : chronikTx) (p : parsedTx) : result bool :=
  match px_etoken p with
  | None => Ok false
  | Some _ =>
      match ct_slpTxData tx with
      | Some (meta, _) => Ok (String.eqb (sm_txType meta) "GENESIS")
      | None => TransactionBuilder.no_property
      end
  end.

Section S.
Context `{CA : !Cashaddr} `{BN : !BigNumber} `{IN : !Intl}.

Definition text_or_same (o : output) (argument : string) : string := match o with Text s => s | Same => argument end.

Definition txDate (e : entry) : result string :=
  let locale := default "en"%string navigator_language in
  if negb (ct_timeFirstSeen (e_tx e) =? 0) then Ok (formatDate (Some (ct_timeFirstSeen (e_tx e))) locale)
  else
    match ct_block (e_tx e) with
    | Some _ => Ok (formatDate (Some (e_blockTimestamp e)) locale)
    | None => TransactionBuilder.no_property
    end.

Definition tx_icon (genesis : bool) (p : parsedTx) : item :=
  Icon (if negb (px_incoming p)
        then if genesis then "GenesisIcon" else if is_burn p then "ThemedBurnOutlined" else if px_airdropFlag p then "AirdropIcon" else "SendIcon"
        else if px_airdropFlag p then "AirdropIcon" else "ReceiveIcon").

(** The names of the contacts with the address, and an empty text for each other one. *)
Definition from_contacts (contactList : json) (p : parsedTx) : result (list item) :=
  match contactList with
  | JArray l =>
      mapM (λ c, address ← Contacts.get "address" c; name ← Contacts.get "name" c;
                 Ok (Label (if Contacts.same address (JString (px_replyAddress p)) then text_of name else EmptyString))) l
  | _ => TransactionBuilder.no_property
  end.

Definition tx_heading (props : txProps) (genesis : bool) (p : parsedTx) : result (list item) :=
  if negb (px_incoming p)
  then Ok [Label (if genesis then "Genesis" else if is_burn p then "Burned" else if px_airdropFlag p then "Airdrop" else "Sent")]
  else
    names ← (if known (p_addresses props) p then names ← from_contacts (p_contactList props) p; Ok (Label "from" :: names) else Ok []);
    Ok (Label (if px_airdropFlag p then "Airdrop" else "Received") :: names).

(** The value in another currency; [currency.fiatCurrencies.fiatCurrency] is [undefined],
    which shows nothing. *)
Definition fiat_value (props : txProps) (sign : string) (p : parsedTx) : result (list item) :=
  match p_fiatPrice props with
  | Some price =>
      if num_isNaN (Number (px_xecAmount p)) then Ok []
      else
        f ← Fiat.fiat_of (p_fiatCurrency props);
        Ok [Label (String.append sign (String.append (Fiat.f_symbol f) (String.append (num_toFixed (num_mul (Number (px_xecAmount p)) price) 2) " ")))]
  | None => Ok []
  end.

Definition xec_value (sign : string) (p : parsedTx) : item :=
  Label (String.append sign (String.append (text_or_same (formatBalance (px_xecAmount p) None) (px_xecAmount p)) (String.append " " Currency.ticker))).

Definition airdrop_token (props : txProps) (p : parsedTx) : list item :=
  if px_airdropFlag p then
    TokenIcon (px_airdropTokenId p) ::
    match px_airdropTokenId p ≫= λ id, p_cache props !! id with Some i => [Label (ti_tokenName i)] | None => [] end
  else [].

Definition tx_amounts (props : txProps) (genesis : bool) (p : parsedTx) : result (list item) :=
  match px_etoken p with
  | Some e =>
      let sign := (if negb (px_incoming p) then if genesis then "+ " else "- " else "+ ")%string in
      Ok [TokenIcon (Some (sm_tokenId (ef_slpMeta e))); TokenAmount sign (ef_etokenAmount e) (option_map ti_tokenTicker (ef_genesisInfo e));
          Label (default EmptyString (option_map ti_tokenName (ef_genesisInfo e)))]
  | None =>
      let sign := (if negb (px_incoming p) then "-" else "+")%string in
      fiat ← fiat_value props sign p;
      Ok (airdrop_token props p ++ [xec_value sign p] ++ fiat)
  end.

(** ** Messages *)

(** The part for the setting that hides messages of senders who are not in the list. *)
Definition hidden_message (props : txProps) (displayedMessage : bool) (p : parsedTx) : list item :=
  let unknown := px_incoming p && negb (known (p_addresses props) p) in
  if negb displayedMessage && unknown then [ShowHide "Show"]
  else if negb (px_isEncryptedMessage p)
  then Message Plain (px_opReturnMessage p) :: (if unknown then [ShowHide "Hide"] else [])
  else Message (Decrypted (px_decryptionSuccess p)) (px_opReturnMessage p) ::
       (if negb (known (p_addresses props) p) && px_decryptionSuccess p then [ShowHide "Hide"] else []).

Definition open_message (p : parsedTx) : list item :=
  [Message (if negb (px_isEncryptedMessage p) then Plain else if px_decryptionSuccess p then Plain else Unauthorized) (px_opReturnMessage p)].

Definition has_reply (p : parsedTx) : bool := px_incoming p && negb (OpReturn.is_empty (px_replyAddress p)).

Definition reply_link (props : txProps) (displayedMessage : bool) (p : parsedTx) : list item :=
  if (negb (hides (p_settings props)) && has_reply p) || (hides (p_settings props) && displayedMessage) ||
     (known (p_addresses props) p && has_reply p)
  then [Link (ToSend (px_replyAddress p)) "Reply"] else [].

Definition tx_message (props : txProps) (displayedMessage : bool) (p : parsedTx) : list item :=
  match px_opReturnMessage p with
  | [] => []
  | _ =>
      (if px_incoming p && negb (known (p_addresses props) p) then [Label "Warning: This sender is not in your contact list. Beware of scams."] else []) ++
      [Label (if px_isCashtabMessage p then "Cashtab Message " else "External Message")] ++
      (if px_isEncryptedMessage p then [Label " - Encrypted"] else []) ++
      (if hides (p_settings props) then hidden_message props displayedMessage p else open_message p) ++
      reply_link props displayedMessage p
  end.

(** ** One transaction *)

(** The header of the panel, which is always there. *)
Definition tx_header (props : txProps) (displayedMessage : bool) (e : entry) : result (list item) :=
  date ← txDate e;
  match e_parsed e with
  | None => Ok [Icon "UnparsedIcon"; Label "Unparsed"; Label date; Label "Open in Explorer"]
  | Some p =>
      genesis ← is_genesis (e_tx e) p;
      heading ← tx_heading props genesis p;
      amounts ← tx_amounts props genesis p;
      Ok ([tx_icon genesis p] ++ heading ++ [Label date] ++ amounts ++ tx_message props displayedMessage p)
  end.

Definition pdfReceiptUrl : string := "https://blockchair.com/ecash/transaction".

(** The panel, when it is open. *)
Definition tx_panel (props : txProps) (e : entry) : list item :=
  match e_parsed e with
  | None => []
  | Some p =>
      let txid := ct_txid (e_tx e) in
      [Copy "Txid" (OpReturn.bytes_of txid)] ++
      (match px_opReturnMessage p with [] => [] | m => [Copy "Msg" m] end) ++
      [Link (ToUrl (String.append Currency.blockExplorerUrl (String.append "/tx/" txid))) "View on e.cash";
       Link (ToUrl (String.append pdfReceiptUrl (String.append "/" (String.append txid ".pdf")))) "Receipt"] ++
      (if has_reply p && negb (known (p_addresses props) p) then [Link (ToConfigure (px_replyAddress p)) "Add to contacts"] else [])
  end.

(** The click on [Show] or [Hide], where there is such a button. *)
Definition handleShowMessage (displayedMessage : bool) : bool := negb displayedMessage.
Definition can_toggle (items : list item) : bool := existsb (λ i, match i with ShowHide _ => true | _ => false end) items.

(** ** The page *)

Definition TxHistory (txs : list entry) (fiatPrice : option number) (fiatCurrency : string) (contactList : json) (settings : option json) (cache : tokenInfoMap)
    (displayed : string → bool) : result (list (list item)) :=
  addressesInContactList ← flattenContactList contactList;
  let props := mkProps fiatPrice fiatCurrency addressesInContactList contactList settings cache in
  mapM (λ e, tx_header props (displayed (ct_txid (e_tx e))) e) txs.

Definition TokenList (tokens : list token) : result (list (list item)) :=
  mapM (λ t,
    match t_info t with
    | Some i =>
        let balance := formatTokenBalance (Some (bn_of_string (t_balance t))) (Some (ti_decimals i)) "en" in
        Ok [Link (ToSendToken (t_tokenId t)) (ti_tokenTicker i); TokenIcon (Some (t_tokenId t)); Label (ti_tokenTicker i);
            Label (match balance with Some o => text_or_same o (t_balance t) | None => EmptyString end)]
    | None => TransactionBuilder.no_property
    end) tokens.

Definition BalanceHeader (balance ticker : string) (settings : option json) : item :=
  Balance (Extension.truthy (setting settings "balanceVisible"))
    (String.append (text_or_same (formatBalance balance None) balance) (String.append " " (String.append ticker " "))).

(** The letters of a code, which is of ASCII letters. *)
Definition upper (c : ascii) : ascii := if (97 <=? code c) && (code c <=? 122) then ascii_of_N (Z.to_N (code c - 32)) else c.
Definition toUpperCase (s : string) : string := String.string_of_list_ascii (map upper (String.list_ascii_of_string s)).

(** A price of 0 or [NaN] is shown as it is, once for each part.  The last line reads a field
    of the settings even when they are [false]. *)
Definition BalanceHeaderFiat (balance : string) (settings : option json) (fiatPrice : option number) : result (list item) :=
  match fiatPrice with
  | Some price =>
      if negb (num_truthy price) then Ok [Label (num_toString price); Label (num_toString price)]
      else
        '(symbol, slug) ← match settings with
                          | Some _ => f ← Fiat.fiat_of (text_of (setting settings "fiatCurrency")); Ok (Fiat.f_symbol f, String.append (toUpperCase (Fiat.f_slug f)) " ")
                          | None => Ok ("$"%string, "USD"%string)
                          end;
        value ← toLocaleString (parseFloat (bn_toFixed (bn_times (bn_of_string balance) (bn_of_number price)) 2)) DefaultLocale no_digits;
        let shown := Balance (Extension.truthy (setting settings "balanceVisible")) (String.append symbol (String.append value (String.append " " slug))) in
        match setting settings "fiatCurrency" with
        | JString code => Ok [shown; Label (String.append "1 " (String.append Currency.ticker (String.append " = " (String.append (num_toFixed price 9) (String.append " " (toUpperCase code))))))]
        | _ => TransactionBuilder.no_property
        end
  | None => Ok []
  end.

(** The two tabs are both part of the page; one of them is not displayed. *)
Record pageItems := mkItems {
  i_label : list item; i_balance : item; i_fiat : list item; i_error : list item; i_history : list (list item); i_tokens : list (list item);
}.

(** The history of the state; [blockTime] is the field [block.timestamp] of a transaction. *)
Definition entries (blockTime : string → Z) (state : walletState) : list entry :=
  map (λ '(tx, p), mkEntry tx (blockTime (ct_txid tx)) (Some p)) (default [] (ws_parsedTxHistory state)).

Definition WalletInfo (h : hook) (wallet : wallet) (blockTime : string → Z) (displayed : string → bool) : result pageItems :=
  let state := Accounts.getWalletState (Some wallet) in
  match ws_balances state with
  | None => TransactionBuilder.no_property
  | Some b =>
      let settings := h_cashtabSettings h in
      let currency := match setting settings "fiatCurrency" with JString c => if OpReturn.is_empty c then "usd" else c | _ => "usd" end%string in
      fiat ← BalanceHeaderFiat (totalBalance b) settings (h_fiatPrice h);
      txs ← TxHistory (entries blockTime state) (h_fiatPrice h) currency (h_contactList h) settings (h_cashtabCache h) displayed;
      tokens ← TokenList (default [] (ws_tokens state));
      Ok (mkItems [Label (w_name wallet); Link ToRename EmptyString] (BalanceHeader (totalBalance b) Currency.ticker settings) fiat
            (if h_apiError h then [Label "Error in chronik connection"] else [])
            (match txs with [] => [[Label "Congratulations on your new wallet!"]] | _ => txs end)
            ([Link ToTokens "Create eToken"] :: match tokens with [] => [[Label "Tokens sent to your eToken address will appear here"]] | _ => tokens end))
  end.

(** [previousWallet.path1899] is never there: the field is [Path1899]. *)
Inductive homePage := Loading | Onboarding | Wallet (items : pageItems).

Definition Home (h : hook) (blockTime : string → Z) (displayed : string → bool) : result homePage :=
  if h_loading h then Ok Loading
  else
    match h_wallet h with
    | Some w => match Path1899 w with Some _ => items ← WalletInfo h w blockTime displayed; Ok (Wallet items) | None => Ok Onboarding end
    | None => Ok Onboarding
    end.

End S.
End Home.

(** * What the first page shows

    The page is there for every wallet that the application keeps; messages of strangers are
    hidden until the user asks for them; a reply goes to whoever sent the message. *)

From S2P Require Import Externals Curve Asm WalletAddress Amounts CashMethods History SendForm.
Import ChronikUtils History Validation Formatting Home.
Module HomeLaws.

(** ** Currencies *)

(** Every currency that may be set has a symbol. *)
Lemma fiat_known code : listed Tickers.fiatCurrency code = true → ∃ f, Fiat.fiat_of code = Ok f.
Proof.
  unfold listed. rewrite existsb_exists. intros (c & Hc & ->%String.eqb_eq).
  assert (H : forallb (λ c, match Fiat.fiat_of c with Ok _ => true | Throw _ => false end) Tickers.fiatCurrency = true) by (vm_compute; reflexivity).
  rewrite forallb_forall in H. specialize (H c Hc). destruct (Fiat.fiat_of c) as [f|]; [by exists f|done].
Qed.

Lemma settings_currency settings : isValidCashtabSettings settings = true →
  ∃ code f, setting (Some settings) "fiatCurrency" = JString code ∧ Fiat.fiat_of code = Ok f.
Proof.
  destruct settings as [| | | | | | |fields]; try done. intros H. cbn [isValidCashtabSettings] in H. apply andb_prop in H as [H _]. cbn [fst] in H.
  unfold setting, Extension.prop. destruct (field "fiatCurrency" fields) as [v|]; [|done]. unfold valid_setting in H. change (String.eqb "fiatCurrency" "fiatCurrency") with true in H. cbv iota in H.
  apply andb_prop in H as [Hs Hl]. destruct v; try done. destruct (fiat_known _ Hl) as [f Hf]. by exists s, f.
Qed.

(** ** Contacts *)

Section Contacts.
Context `{CA : !Cashaddr}.

Definition is_object (c : json) : Prop := ∃ fields, c = JObject fields.

Lemma contact_object single c ok stop : valid_contact single c = Ok (ok, stop) → ok = true → is_object c ∧ (stop = true → single = true).
Proof.
  destruct c; cbn [valid_contact]; try (intros [= <- <-]; done); try done. intros E ->. split; [by eexists|]. intros ->. revert E.
  destruct (field "address" fields) as [a|]; [destruct (field "name" fields) as [n|]|].
  - destruct (valid_address a) as [[]|]; cbn; congruence.
  - by destruct fields; intros [= <-].
  - by destruct fields; intros [= <-].
Qed.

Lemma contacts_objects l : isValidContactList (JArray l) = Ok true → Forall is_object l.
Proof.
  assert (Hmany : ∀ l, valid_contacts false l = Ok true → Forall is_object l).
  { clear l. induction l as [|c l IH]; [done|]. cbn [valid_contacts]. destruct (valid_contact false c) as [[ok stop]|] eqn:E; [|done]. cbn.
    intros H. destruct ok; [|by destruct stop]. destruct (contact_object _ _ _ _ E eq_refl) as [Hc Hs]. destruct stop; [by specialize (Hs eq_refl)|]. constructor; [done|by apply IH]. }
  cbn [isValidContactList]. destruct (Z.eqb_spec (len l) 1) as [Hl|]; [|apply Hmany]. destruct l as [|c [|]]; [done| |unfold len in Hl; cbn in Hl; lia].
  cbn [valid_contacts]. destruct (valid_contact true c) as [[ok stop]|] eqn:E; [|done]. cbn. intros H. destruct ok; [|by destruct stop].
  constructor; [apply (contact_object _ _ _ _ E eq_refl)|done].
Qed.

Lemma from_contacts_ok l p : Forall is_object l → ∃ names, from_contacts (JArray l) p = Ok names.
Proof.
  cbn [from_contacts]. induction 1 as [|c l [fields ->] _ [names IH]]; [by eexists|]. cbn [mapM Contacts.get mbind result_bind]. rewrite IH. by eexists.
Qed.

Lemma flatten_ok contactList b : isValidContactList contactList = Ok b → ∃ l, flattenContactList contactList = Ok l ∧ (l ≠ [] → ∃ c, contactList = JArray c ∧ Forall is_object c).
Proof.
  intros E. unfold flattenContactList. rewrite E. cbn. destruct b; [|by exists []]. destruct contactList; try done. eexists. split; [reflexivity|]. intros _. eexists. split; [reflexivity|by apply contacts_objects].
Qed.

End Contacts.

(** ** The page is there *)

(** A parsed transaction is the parse of a transaction, by some wallet with some metadata. *)
Section Parsed.
Context {Mem : UninitMem} `{WF : !Wif} `{CA : !Cashaddr} `{BN : !BigNumber} `{EI : !Ecies}.

Definition parse_of (tx : chronikTx) (p : parsedTx) : Prop := ∃ w infos, parseChronikTx tx w infos = Ok p.

Lemma parsed_meta tx p : parse_of tx p → is_Some (px_etoken p) → is_Some (ct_slpTxData tx).
Proof.
  intros (w & infos & E). revert E. unfold parseChronikTx. destruct (parse_inputs _ _ _ _ _); [|done]. cbn [mbind result_bind]. destruct (parse_outputs _ _ _ _ _ _ _ _); [|done].
  cbn [mbind result_bind]. intros [= <-]. cbn [px_etoken]. destruct (ct_slpTxData tx) as [[]|]; [done|by intros []].
Qed.

End Parsed.

Section Page.
Context {Mem : UninitMem} `{WF : !Wif} `{EI : !Ecies} `{CA : !Cashaddr} `{BN : !BigNumber} `{IN : !Intl} `{INS : !IntlSpec}.

(** A transaction whose time is known, and whose token is that of chronik. *)
Definition datable (tx : chronikTx) : Prop := ct_timeFirstSeen tx ≠ 0 ∨ is_Some (ct_block tx).
Definition has_meta (tx : chronikTx) (p : parsedTx) : Prop := is_Some (px_etoken p) → is_Some (ct_slpTxData tx).

Definition can_render (props : txProps) : Prop :=
  (is_Some (p_fiatPrice props) → ∃ f, Fiat.fiat_of (p_fiatCurrency props) = Ok f) ∧
  (p_addresses props ≠ [] → ∃ c, p_contactList props = JArray c ∧ Forall is_object c).

Lemma header_ok props d tx time p : can_render props → datable tx → has_meta tx p → ∃ items, tx_header props d (mkEntry tx time (Some p)) = Ok items.
Proof.
  intros [Hf Hc] Ht Hm. unfold tx_header.
  assert (Ed : ∃ date, txDate (mkEntry tx time (Some p)) = Ok date).
  { unfold txDate. cbn [e_tx e_blockTimestamp]. destruct (Z.eqb_spec (ct_timeFirstSeen tx) 0) as [E|E]; [|by eexists]. destruct Ht as [|[h ->]]; [done|by eexists]. }
  destruct Ed as [date ->]. cbn [e_parsed e_tx mbind result_bind].
  assert (Eg : ∃ g, is_genesis tx p = Ok g). { unfold is_genesis, has_meta in *. destruct (px_etoken p); [|by eexists]. destruct (ct_slpTxData tx) as [[]|]; [by eexists|by destruct Hm]. }
  destruct Eg as [g ->]. cbn [mbind result_bind].
  assert (Eh : ∃ h, tx_heading props g p = Ok h).
  { unfold tx_heading. destruct (px_incoming p); [|by eexists]. cbn [negb]. destruct (known (p_addresses props) p) eqn:Ek; [|by eexists].
    destruct Hc as (c & -> & Ho); [intros E; unfold known in Ek; by rewrite E in Ek|]. destruct (from_contacts_ok c p Ho) as [names ->]. by eexists. }
  destruct Eh as [h ->]. cbn [mbind result_bind].
  assert (Ea : ∃ a, tx_amounts props g p = Ok a).
  { unfold tx_amounts, fiat_value. destruct (px_etoken p); [by eexists|]. destruct (p_fiatPrice props); [|by eexists]. destruct (num_isNaN _); [by eexists|]. destruct Hf as [f ->]; [done|by eexists]. }
  destruct Ea as [a ->]. by eexists.
Qed.

Lemma mapM_ok {A B} (f : A → result B) l : Forall (λ x, ∃ y, f x = Ok y) l → ∃ ys, mapM f l = Ok ys ∧ length ys = length l.
Proof.
  induction 1 as [|x l [y E] _ (ys & IH & Hl)]; [by eexists|]. cbn [mapM]. rewrite E. cbn [mbind result_bind]. rewrite IH. eexists. split; [reflexivity|]. cbn. by rewrite Hl.
Qed.

Lemma fiat_header_ok balance settings price : isValidCashtabSettings settings = true → ∃ items, BalanceHeaderFiat balance (Some settings) price = Ok items.
Proof.
  intros H. destruct (settings_currency _ H) as (code & f & Es & Ef). unfold BalanceHeaderFiat. destruct price as [x|]; [|by eexists]. destruct (num_truthy x); [|by eexists]. cbn [negb].
  rewrite Es. cbn [text_of]. rewrite Ef. cbn [mbind result_bind]. destruct (default_locale_text (parseFloat (bn_toFixed (bn_times (bn_of_string balance) (bn_of_number x)) 2))) as [s Hs].
  unfold no_digits. rewrite Hs. by eexists.
Qed.

Lemma tokens_ok tokens : Forall (λ t, is_Some (t_info t)) tokens → ∃ items, TokenList tokens = Ok items ∧ length items = length tokens.
Proof. intros H. apply mapM_ok. eapply Forall_impl; [exact H|]. intros t [i Hi]. cbn. rewrite Hi. by eexists. Qed.

Lemma history_ok props displayed blockTime state : can_render props → Forall (λ '(tx, p), datable tx ∧ parse_of tx p) (default [] (ws_parsedTxHistory state)) →
  ∃ items, mapM (λ e, tx_header props (displayed (ct_txid (e_tx e))) e) (entries blockTime state) = Ok items ∧ length items = length (default [] (ws_parsedTxHistory state)).
Proof.
  intros Hr Hh. destruct (mapM_ok (λ e, tx_header props (displayed (ct_txid (e_tx e))) e) (entries blockTime state)) as (items & -> & Hl).
  - unfold entries. apply Forall_map. eapply Forall_impl; [exact Hh|]. intros [tx p] [Hd Hp]. cbn. apply header_ok; [done..|]. intros Hi. by apply (parsed_meta tx p).
  - exists items. split; [done|]. rewrite Hl. unfold entries. by rewrite length_map.
Qed.

(** C36: the first page is there.  With valid settings, a list of contacts that can be
    checked, and a wallet whose state has balances, tokens with their metadata and a history
    that was parsed, [Home] shows the wallet and throws nothing, whatever messages are open. *)
Theorem home_renders h w account settings state b blockTime displayed :
  h_loading h = false → h_wallet h = Some w → Path1899 w = Some account → w_state w = Some state → ws_balances state = Some b →
  h_cashtabSettings h = Some settings → isValidCashtabSettings settings = true → (∃ ok, isValidContactList (h_contactList h) = Ok ok) →
  Forall (λ t, is_Some (t_info t)) (default [] (ws_tokens state)) →
  Forall (λ '(tx, p), datable tx ∧ parse_of tx p) (default [] (ws_parsedTxHistory state)) →
  ∃ items, Home h blockTime displayed = Ok (Wallet items) ∧
    length (i_history items) = Nat.max 1 (length (default [] (ws_parsedTxHistory state))) ∧
    length (i_tokens items) = S (Nat.max 1 (length (default [] (ws_tokens state)))).
Proof.
  intros Hl Hw Ha Hst Hb Hs Hv [ok Hc] Ht Hh. unfold Home. rewrite Hl, Hw, Ha. unfold WalletInfo, Accounts.getWalletState. cbn [mbind option_bind]. rewrite Hst, Hb, Hs.
  destruct (settings_currency _ Hv) as (code & f & Es & Ef). destruct (fiat_header_ok (totalBalance b) settings (h_fiatPrice h) Hv) as [fiat ->]. cbn [mbind result_bind].
  unfold TxHistory. destruct (flatten_ok _ _ Hc) as (addresses & -> & Hobj). cbn [mbind result_bind]. rewrite Es.
  set (props := mkProps _ _ _ _ _ _). assert (Hr : can_render props).
  { split; [intros _|done]. cbn [p_fiatCurrency props]. destruct (OpReturn.is_empty code); [by eexists|by exists f]. }
  destruct (history_ok props displayed blockTime state Hr Hh) as (txs & -> & Hlt). cbn [mbind result_bind].
  destruct (tokens_ok _ Ht) as (toks & -> & Hlk).
  cbn [mbind result_bind]. eexists. split; [reflexivity|]. cbn [i_history i_tokens]. rewrite <- Hlt, <- Hlk.
  split; [by destruct txs|]. destruct toks; cbn; lia.
Qed.

End Page.

(** ** Messages *)

Section Messages.
Context {Mem : UninitMem} `{WF : !Wif} `{EI : !Ecies} `{CA : !Cashaddr} `{BN : !BigNumber} `{IN : !Intl}.

(** The clicks on a transaction: each one on a button that is there. *)
Inductive opened (props : txProps) (p : parsedTx) : nat → bool → Prop :=
| opened_start : opened props p 0 false
| opened_click n d : opened props p n d → can_toggle (tx_message props d p) = true → opened props p (S n) (handleShowMessage d).

Lemma opened_odd props p n d : opened props p n d → d = Nat.odd n.
Proof. induction 1 as [|n d _ ->]; [done|]. rewrite Nat.odd_succ. unfold handleShowMessage. by rewrite Nat.negb_odd. Qed.

(** A sender whose messages are to be hidden. *)
Definition stranger (props : txProps) (p : parsedTx) : bool := hides (p_settings props) && px_incoming p && negb (known (p_addresses props) p).

(** What is not a message and not a link of a reply. *)
Definition other (i : item) : Prop := match i with Message _ _ | Link (ToSend _) _ => False | _ => True end.

Lemma names_other contactList p names : from_contacts contactList p = Ok names → Forall other names.
Proof.
  destruct contactList; try done. cbn [from_contacts]. revert names. induction l as [|c l IH]; intros names; [intros [= <-]; constructor|]. cbn [mapM mbind result_bind].
  destruct (Contacts.get "address" c); [|done]. cbn [mbind result_bind]. destruct (Contacts.get "name" c); [|done]. cbn [mbind result_bind].
  destruct (mapM _ l) as [ys|] eqn:E; [|done]. cbn. intros [= <-]. constructor; [done|by apply IH].
Qed.

(** The parts before the message have neither. *)
Lemma header_parts props d e p items : e_parsed e = Some p → tx_header props d e = Ok items → ∃ before, items = before ++ tx_message props d p ∧ Forall other before.
Proof.
  intros Ep. unfold tx_header. rewrite Ep. destruct (txDate e) as [date|]; [|done]. cbn [mbind result_bind]. destruct (is_genesis (e_tx e) p) as [g|]; [|done]. cbn [mbind result_bind].
  destruct (tx_heading props g p) as [h|] eqn:Eh; [|done]. cbn [mbind result_bind]. destruct (tx_amounts props g p) as [a|] eqn:Ea; [|done]. cbn [mbind result_bind]. intros [= <-].
  exists ([tx_icon g p] ++ h ++ [Label date] ++ a). split; [by rewrite <- !app_assoc|]. repeat (apply Forall_app; split); try (repeat constructor; done).
  - revert Eh. unfold tx_heading. destruct (px_incoming p); cbn [negb]; [|intros [= <-]; repeat constructor]. destruct (known _ p); [|intros [= <-]; repeat constructor].
    destruct (from_contacts _ p) as [names|] eqn:En; [|done]. cbn [mbind result_bind]. intros [= <-]. constructor; [done|]. constructor; [done|by eapply names_other].
  - revert Ea. unfold tx_amounts, fiat_value. destruct (px_etoken p); [intros [= <-]; repeat constructor|].
    assert (Hd : Forall other (airdrop_token props p)). { unfold airdrop_token. destruct (px_airdropFlag p); [|constructor]. constructor; [done|]. destruct (_ ≫= _); repeat constructor. }
    destruct (p_fiatPrice props); [|intros [= <-]; apply Forall_app; split; [done|repeat constructor]]. destruct (num_isNaN _); [intros [= <-]; apply Forall_app; split; [done|repeat constructor]|].
    destruct (Fiat.fiat_of _); [|done]. cbn [mbind result_bind]. intros [= <-]. apply Forall_app; split; [done|repeat constructor].
Qed.

(** Which messages the part for the message has. *)
Lemma message_shown props d p how m : Message how m ∈ tx_message props d p → m = px_opReturnMessage p ∧ (stranger props p = true → d = true).
Proof.
  unfold tx_message. destruct (px_opReturnMessage p) as [|x l] eqn:Em; [by intros ?%elem_of_nil|]. rewrite !elem_of_app.
  intros [H|[H|[H|[H|H]]]].
  1-3: revert H; repeat match goal with |- context [if ?b then _ else _] => destruct b end; rewrite ?list_elem_of_singleton, ?elem_of_nil; done.
  2: revert H; unfold reply_link; destruct (_ || _); rewrite ?list_elem_of_singleton, ?elem_of_nil; done.
  revert H. unfold stranger. destruct (hides (p_settings props)).
  - unfold hidden_message. rewrite Em. destruct d; [|destruct (px_incoming p), (known _ p)]; cbn [negb andb]; destruct (px_isEncryptedMessage p); cbn [negb];
    repeat match goal with |- context [if ?b then _ else _] => destruct b end; rewrite ?elem_of_cons, ?elem_of_nil; intros H; destruct_or?; simplify_eq; done.
  - unfold open_message. rewrite list_elem_of_singleton, Em. intros [= _ ->]. done.
Qed.

Lemma message_there props d p : px_opReturnMessage p ≠ [] → (stranger props p = true → d = true) → ∃ how, Message how (px_opReturnMessage p) ∈ tx_message props d p.
Proof.
  intros Hm Hd. unfold tx_message. destruct (px_opReturnMessage p) as [|x l] eqn:Em; [done|]. 
  assert (H : ∃ how, Message how (x :: l) ∈ (if hides (p_settings props) then hidden_message props d p else open_message p)).
  { revert Hd. unfold stranger, hidden_message, open_message. rewrite Em. destruct (hides _); [|intros _; eexists; left]. cbn [andb]. intros Hd.
    assert (E : negb d && (px_incoming p && negb (known (p_addresses props) p)) = false). { destruct d; [done|]. cbn. destruct (px_incoming p && _); [by specialize (Hd eq_refl)|done]. }
    rewrite E. destruct (px_isEncryptedMessage p); eexists; left. }
  destruct H as [how H]. exists how. rewrite !elem_of_app. tauto.
Qed.

Lemma stranger_asks props p : px_opReturnMessage p ≠ [] → stranger props p = true → can_toggle (tx_message props false p) = true.
Proof.
  intros Hm Hs. unfold stranger in Hs. apply andb_prop in Hs as [Hs Hk]. apply andb_prop in Hs as [Hh Hi]. unfold tx_message. destruct (px_opReturnMessage p); [done|].
  rewrite Hh. unfold hidden_message, can_toggle. rewrite Hi, Hk. cbn [negb andb]. rewrite !existsb_app. cbn [existsb]. by rewrite !orb_true_r.
Qed.

(** C32: messages of strangers are hidden until the user asks.  The text of a message is part of
    its transaction at once when the sender is in the list of contacts, when the wallet sent
    it, or when the setting is off; otherwise it is there exactly after an odd number of
    clicks on the button, which is there, and nothing else shows a message. *)
Theorem stranger_hidden props e p items n d : e_parsed e = Some p → px_opReturnMessage p ≠ [] → opened props p n d → tx_header props d e = Ok items →
  (∀ how m, Message how m ∈ items → m = px_opReturnMessage p) ∧
  ((∃ how, Message how (px_opReturnMessage p) ∈ items) ↔ (stranger props p = true → Nat.odd n = true)) ∧
  (stranger props p = true → opened props p 1 true).
Proof.
  intros Ep Hm Ho Eh. rewrite <- (opened_odd _ _ _ _ Ho). destruct (header_parts _ _ _ _ _ Ep Eh) as (before & -> & Hb).
  assert (Hin : ∀ how m, Message how m ∈ before ++ tx_message props d p → Message how m ∈ tx_message props d p).
  { intros how m [H|H]%elem_of_app; [|done]. rewrite Forall_forall in Hb. by destruct (Hb _ H). }
  split; [intros how m H; by eapply message_shown, Hin|]. split; [split|intros Hs; apply (opened_click props p 0 false); [constructor|by apply stranger_asks]].
  - intros [how H]. by eapply message_shown, Hin.
  - intros H. destruct (message_there props d p Hm H) as [how Hh]. exists how. rewrite elem_of_app. by right.
Qed.

(** ** Replies *)

(** A message that the wallet sent was not decrypted. *)
Lemma outputs_sent w e b g hashes outputs st st' : parse_outputs w false e b g hashes outputs st = Ok st' → os_decrypted st' = os_decrypted st.
Proof.
  revert st. induction outputs as [|o outputs IH]; intros st; [by intros [= <-]|]. cbn [parse_outputs].
  assert (H : ∀ st1 f, op_return_output w false o st = Ok (st1, f) → os_decrypted st1 = os_decrypted st).
  { intros st1 f. unfold op_return_output. destruct (_ && _); [|by intros [= <-]]. destruct (OpReturn.parseOpReturn _) as [[parsed|]|]; cbn [mbind result_bind]; [|by intros [= <-]|done].
    unfold strip_airdrop, parse_message. destruct parsed as [|x parsed]; [by intros [= <-]|]. destruct (String.eqb x OpReturn.airdrop); cbn [negb];
    repeat match goal with |- context [if ?c then _ else _] => destruct c | |- context [match ?c with _ => _ end] => destruct c end; by intros [= <-]. }
  destruct (op_return_output w false o st) as [[st1 f]|]; [|done]. cbn [mbind result_bind]. specialize (H _ _ eq_refl). rewrite <- H. destruct f; [|apply IH|by intros [= <-]].
  intros E. rewrite (IH _ E). unfold output_amounts, with_amounts. clear. cbn [os_decrypted]. cbn. revert st1. induction hashes as [|h hashes IHh]; [done|]. intros st1. cbn [fold_left]. rewrite IHh. unfold amount_at. by destruct (includes _ _).
Qed.

Lemma sent_undecrypted tx p : parse_of tx p → px_incoming p = false → px_decryptionSuccess p = false.
Proof.
  intros (w & infos & E). revert E. unfold parseChronikTx. destruct (parse_inputs _ _ _ _ _) as [ist|]; [|done]. cbn [mbind result_bind]. destruct (parse_outputs _ _ _ _ _ _ _ _) as [ost|] eqn:Eo; [|done].
  cbn [mbind result_bind]. intros [= <-]. cbn [px_incoming px_decryptionSuccess]. intros Hi. rewrite Hi in Eo. by apply outputs_sent in Eo.
Qed.

(** Only the message of another has a button. *)
Lemma opened_incoming props tx p n d : parse_of tx p → opened props p n d → d = true → px_incoming p = true.
Proof.
  intros Hp Ho. induction Ho as [|n d Ho IH Ht]; [done|]. intros _. destruct (px_incoming p) eqn:Ei; [done|]. exfalso. revert Ht. pose proof (sent_undecrypted tx p Hp Ei) as Hd.
  unfold tx_message. destruct (px_opReturnMessage p); [done|]. unfold can_toggle. rewrite !existsb_app. unfold hidden_message, open_message, reply_link. rewrite Ei, Hd. cbn [negb andb]. rewrite !andb_false_r.
  repeat match goal with |- context [if ?b then _ else _] => destruct b end; done.
Qed.

Lemma inputs_reply e hashes inputs n st st' : parse_inputs e hashes (S n) inputs st = Ok st' → is_reply st' = is_reply st.
Proof.
  revert n st. induction inputs as [|i inputs IH]; intros n st; [by intros [= <-]|]. cbn [parse_inputs Nat.eqb]. destruct (includes_any _ _) as [[]|]; [| |done]; cbn [mbind result_bind]; intros E; rewrite (IH _ _ E); cbn [is_reply];
  by destruct (burn_amount i), e.
Qed.

Lemma reply_address tx p : parse_of tx p → px_replyAddress p ≠ EmptyString →
  ∃ i rest script, ct_inputs tx = i :: rest ∧ ci_outputScript i = Some script ∧ WalletAddress.hash160ToAddress (script_hash script) = Ok (px_replyAddress p).
Proof.
  intros (w & infos & E). revert E. unfold parseChronikTx. destruct (parse_inputs _ _ _ _ _) as [ist|] eqn:Ei; [|done]. cbn [mbind result_bind]. destruct (parse_outputs _ _ _ _ _ _ _ _); [|done].
  cbn [mbind result_bind]. intros [= <-]. cbn [px_replyAddress]. destruct (ct_inputs tx) as [|i rest]; [revert Ei; cbn [parse_inputs]; by intros [= <-]|]. revert Ei. cbn [parse_inputs Nat.eqb].
  assert (Es : ∀ st, is_reply st = EmptyString → is_reply (match burn_amount i with Some amount => if negb (CashMethods.missing (ct_slpTxData tx)) then mkIn (is_incoming st) true (bn_plus (is_etokenAmount st) (bn_of_string amount)) (is_origin st) (is_reply st) else st | None => st end) = EmptyString).
  { intros st Hs. by destruct (burn_amount i), (ct_slpTxData tx). }
  rewrite Es by done. unfold originating. destruct (ci_outputScript i) as [script|] eqn:Esc.
  - destruct (WalletAddress.hash160ToAddress (script_hash script)) as [addr|] eqn:Ea; destruct (includes_any _ _) as [[]|]; cbn [mbind result_bind]; try done; intros E; rewrite (inputs_reply _ _ _ _ _ _ E); cbn [is_reply]; try done; intros _; by exists i, rest, script.
  - destruct (includes_any _ _) as [[]|]; cbn [mbind result_bind]; try done; intros E; by rewrite (inputs_reply _ _ _ _ _ _ E).
Qed.

Lemma reply_in props d p a l : Link (ToSend a) l ∈ tx_message props d p → a = px_replyAddress p ∧ (px_incoming p = true ∨ d = true).
Proof.
  unfold tx_message. destruct (px_opReturnMessage p) as [|x m]; [by intros ?%elem_of_nil|]. rewrite !elem_of_app. intros [H|[H|[H|[H|H]]]].
  1-4: exfalso; revert H; unfold hidden_message, open_message; repeat match goal with |- context [if ?b then _ else _] => destruct b end; rewrite ?elem_of_cons, ?elem_of_nil; intros H; destruct_or?; done.
  revert H. unfold reply_link, has_reply. destruct (px_incoming p), d, (hides _), (known _ p); cbn [negb andb orb]; repeat match goal with |- context [if ?b then _ else _] => destruct b end;
  rewrite ?list_elem_of_singleton, ?elem_of_nil; intros H; by simplify_eq; auto.
Qed.

(** A reply goes to the sender.  In the history of a wallet a link for a reply is only at
    messages that the wallet received, after any clicks; its address is that of the output
    that the first input of the transaction spends, and the page that sends coins opens with
    that address and the least amount that can be sent. *)
Theorem reply_to_sender props tx time p items n d a l : parse_of tx p → opened props p n d → tx_header props d (mkEntry tx time (Some p)) = Ok items →
  Link (ToSend a) l ∈ items → a ≠ EmptyString →
  px_incoming p = true ∧
  (∃ i rest script, ct_inputs tx = i :: rest ∧ ci_outputScript i = Some script ∧ WalletAddress.hash160ToAddress (script_hash script) = Ok a) ∧
  ∃ s, SendForm.on_load (SendForm.mkLocation (Some a) None None None None) SendForm.initial = (s, Ok tt) ∧
    SendForm.s_formData s = SendForm.mkForm (JString (bn_toString (Amounts.fromSatoshisToXec (bn_of_Z Currency.dustSats) Currency.cashDecimals))) (JString a) JUndefined.
Proof.
  intros Hp Ho Eh Hin Ha. destruct (header_parts _ _ (mkEntry tx time (Some p)) _ _ eq_refl Eh) as (before & -> & Hb).
  apply elem_of_app in Hin as [Hin|Hin]; [rewrite Forall_forall in Hb; by destruct (Hb _ Hin)|]. destruct (reply_in _ _ _ _ _ Hin) as [-> Hi].
  split; [destruct Hi as [|Hi]; [done|by eapply opened_incoming]|]. split; [by apply reply_address|]. unfold SendForm.on_load, SendForm.from_reply, SendForm.filled. cbn [SendForm.l_replyAddress SendForm.l_hash].
  unfold OpReturn.is_empty. rewrite (proj2 (String.eqb_neq _ _) Ha). eexists. split; reflexivity.
Qed.

End Messages.

(** ** Examples *)

Section Examples.
Import Concrete ConcreteCurve ConcreteText ConcreteBn ConcreteWallet ConcreteIntl.
Local Existing Instance zero_mem.

Local Definition hash_of (n : Z) : string := Hex.toHex (repeat n 20).
Local Definition acct (n : Z) : account := mkAccount (String.append "ecash:q" (hash_of n)) (text (128 :: 1 :: be_bytes 32 n)) (Some (hash_of n)) None.
Local Definition script_text (n : Z) : string := String.append "76a914" (String.append (hash_of n) "88ac").
Local Definition greeting : buffer := match OpReturn.generateOpReturnScript (Some "hello"%string) false false None None with Ok s => s | Throw _ => [] end.
Local Definition tx : chronikTx :=
  mkChronikTx "bb" [mkChronikInput (Some (script_text 8)) "00" None]
    [mkChronikOutput "0" (Hex.toHex greeting) None; mkChronikOutput "2000" (script_text 5) None] None 7 None.
Local Definition base_wallet : wallet := mkWallet "seed" "name" (acct 3) (acct 4) (Some (acct 5)) None.
Local Definition p : parsedTx :=
  mkParsed true "20" (hash_of 8) None false (Some EmptyString) (OpReturn.bytes_of "hello") true false false (String.append "ecash:q" (hash_of 8)).
Local Definition hiding : json :=
  JObject [("fiatCurrency", JString "eur"); ("sendModal", JBool false); ("autoCameraOn", JBool true); ("hideMessagesFromUnknownSenders", JBool true); ("balanceVisible", JBool true)]%string.
Local Definition props : txProps := mkProps (Some (num_of_Z 2)) "eur" [] (JArray [JObject []]) (Some hiding) ∅.

Local Lemma p_parsed : parse_of tx p.
Proof. exists base_wallet, ∅. vm_compute. reflexivity. Qed.

Local Lemma p_meta : has_meta tx p.
Proof. intros [e H]. discriminate. Qed.

Local Lemma props_ok : can_render props.
Proof. split; [intros _; exists (Fiat.mkFiat "Euro" "€" "eur"); reflexivity|intros []; reflexivity]. Qed.

Local Lemma p_message : px_opReturnMessage p = OpReturn.bytes_of "hello".
Proof. reflexivity. Qed.

Local Definition the_state : walletState := mkState (Some (mkBalances "2000" "20")) (Some []) (Some []) (Some []) false None (Some [(tx, p)]).
Local Definition the_wallet : wallet := mkWallet "seed" "name" (acct 3) (acct 4) (Some (acct 5)) (Some the_state).
Local Definition the_hook : hook := mkHook 0 5000 (Some the_wallet) None (JArray [JObject []]) (Some hiding) ∅ (Some (num_of_Z 2)) false true false.

Lemma home_renders_witness : ∃ items, Home the_hook (λ _, 0) (λ _, false) = Ok (Wallet items) ∧ length (i_history items) = 1%nat.
Proof.
  destruct (home_renders the_hook the_wallet (acct 5) hiding the_state (mkBalances "2000" "20") (λ _, 0) (λ _, false)) as (items & E & Hl & _); try reflexivity.
  - exists true. reflexivity.
  - constructor.
  - constructor; [|constructor]. split; [left; discriminate|exact p_parsed].
  - exists items. split; [exact E|exact Hl].
Defined.

Lemma stranger_hidden_witness : ∃ closed open, tx_header props false (mkEntry tx 0 (Some p)) = Ok closed ∧ tx_header props true (mkEntry tx 0 (Some p)) = Ok open ∧
  (∃ how, Message how (OpReturn.bytes_of "hello") ∈ open) ∧ ~ (∃ how, Message how (OpReturn.bytes_of "hello") ∈ closed).
Proof.
  destruct (header_ok props false tx 0 p props_ok) as [closed E0]; [left; discriminate|exact p_meta|].
  destruct (header_ok props true tx 0 p props_ok) as [open E1]; [left; discriminate|exact p_meta|]. exists closed, open. split; [exact E0|]. split; [exact E1|]. rewrite <- p_message.
  destruct (stranger_hidden props (mkEntry tx 0 (Some p)) p closed 0 false) as (_ & H0 & H1); [reflexivity|rewrite p_message; discriminate|constructor|exact E0|].
  destruct (stranger_hidden props (mkEntry tx 0 (Some p)) p open 1 true) as (_ & H2 & _); [reflexivity|rewrite p_message; discriminate|apply H1; reflexivity|exact E1|].
  split; [apply H2; reflexivity|]. intros H. pose proof (proj1 H0 H eq_refl) as H'. discriminate H'.
Defined.

Local Lemma reply_there : Link (ToSend (px_replyAddress p)) "Reply" ∈ tx_message props true p.
Proof. vm_compute. repeat (first [apply list_elem_of_here|apply list_elem_of_further]). Qed.

Lemma reply_to_sender_witness : ∃ s, SendForm.on_load (SendForm.mkLocation (Some (px_replyAddress p)) None None None None) SendForm.initial = (s, Ok tt) ∧
  SendForm.f_address (SendForm.s_formData s) = JString (px_replyAddress p).
Proof.
  destruct (header_ok props true tx 0 p props_ok) as [open E1]; [left; discriminate|exact p_meta|].
  destruct (reply_to_sender props tx 0 p open 1 true (px_replyAddress p) "Reply") as (_ & _ & s & E & Ef).
  - exact p_parsed.
  - apply (opened_click props p 0 false); [constructor|reflexivity].
  - exact E1.
  - destruct (header_parts props true (mkEntry tx 0 (Some p)) p open eq_refl E1) as (before & -> & _). apply elem_of_app. right. exact reply_there.
  - discriminate.
  - exists s. split; [exact E|]. rewrite Ef. reflexivity.
Defined.

End Examples.
End HomeLaws.
