(* ===== verification/Receive.v ===== *)
(** * Showing and scanning addresses

    [components/Common/QRCode.js], [components/Common/ScanQRCode.js] and
    [components/Receive/Receive.js] of the wallet: the code of an address, the camera that
    reads codes into the form, and the page with the code of the wallet.  The camera is a
    step machine: a scan waits for its reader, which answers with a text or an error. *)

From stdpp Require Import base tactics list gmap numbers strings.
From Stdlib Require Import Ascii.
From S2P Require Import Prelude JsFloat NodeBuffer Encodings JsString JsDecimal JsText BigNumber OpReturn WalletExternals WalletAddress Wallet ChronikUtils Validation App Accounts Settings Extension SendForm Formatting Home TransactionBuilder.
Import ChronikUtils Validation Settings.
Open Scope Z_scope.

(** ** The code of an address *)
Module QRCode.

(** [s.slice(a, b)]: a negative position counts from the end. *)
Definition slice (s : string) (a b : Z) : string :=
  let at_ i := Z.to_nat (if i <? 0 then Z.max 0 (strlen s + i) else i) in
  str_take (at_ b - at_ a) (str_drop (at_ a) s).

(** What is drawn, and the four parts in which the address is written. *)
Record code := mkCode { q_value : string; q_parts : list string }.

Definition trimAmount : Z := 8.

Section S.
Context `{CA : !Cashaddr}.

Definition QRCode (address : string) : result code :=
  address ← (if OpReturn.is_empty address then Ok EmptyString else WalletAddress.convertToEcashPrefix address);
  if OpReturn.is_empty address then Ok (mkCode EmptyString [])
  else
    let address_trim := strlen address - trimAmount in
    let addressPrefix := default EmptyString (split_on ":" address !! 0%nat) in
    let prefixLength := strlen addressPrefix + 1 in
    Ok (mkCode address
      [ slice address 0 prefixLength;
        slice address prefixLength (prefixLength + trimAmount);
        slice address (prefixLength + trimAmount) address_trim;
        str_slice address (- trimAmount) ]).

End S.

(** Whether the label that says that the address was copied is there, and the timers that
    take it away. *)
Record label := mkLabel { l_visible : bool; l_timers : nat }.

Inductive label_event := OnClick | OnCopy | Timer.

Definition label_step (e : label_event) (l : label) : option label :=
  match e with
  | OnClick => Some (mkLabel true (S (l_timers l)))
  | OnCopy => Some (mkLabel true (l_timers l))
  | Timer => match l_timers l with S n => Some (mkLabel false n) | O => None end
  end.

End QRCode.

(** ** The camera *)
Module ScanQRCode.

(** A scan asks for the cameras first and then for codes. *)
Inductive stage := Devices | Decoding.

(** [s_scans]: the scans that wait for their readers; [s_scanned] is what was given to
    [onScan]; [s_said] are the notifications; [s_stopped] the readers that were stopped. *)
Record scanner := mkScanner {
  s_visible : bool;
  s_error : bool;
  s_activeCodeReader : option nat;
  s_next : nat;
  s_scans : list (nat * stage);
  s_scanned : list string;
  s_said : list string;
  s_stopped : list nat;
}.

Definition set_visible v s := mkScanner v (s_error s) (s_activeCodeReader s) (s_next s) (s_scans s) (s_scanned s) (s_said s) (s_stopped s).
Definition set_error v s := mkScanner (s_visible s) v (s_activeCodeReader s) (s_next s) (s_scans s) (s_scanned s) (s_said s) (s_stopped s).
Definition set_scans l s := mkScanner (s_visible s) (s_error s) (s_activeCodeReader s) (s_next s) l (s_scanned s) (s_said s) (s_stopped s).
Definition scan_done a s := mkScanner (s_visible s) (s_error s) (s_activeCodeReader s) (s_next s) (s_scans s) (s_scanned s ++ [a]) (s_said s) (s_stopped s).
Definition say t s := mkScanner (s_visible s) (s_error s) (s_activeCodeReader s) (s_next s) (s_scans s) (s_scanned s) (s_said s ++ [t]) (s_stopped s).

Definition teardownCodeReader (codeReader : option nat) (s : scanner) : scanner :=
  match codeReader with
  | Some r => mkScanner (s_visible s) (s_error s) None (s_next s) (s_scans s) (s_scanned s) (s_said s) (s_stopped s ++ [r])
  | None => s
  end.

Section S.
Context `{CA : !Cashaddr} `{BN : !BigNumber}.

(** The address in a text that was read, with what follows it. *)
Definition parseContent (content : string) : option string :=
  let addressInfo := SendForm.parseAddressForParams content in
  if WalletAddress.isValidXecAddress (SendForm.ai_address addressInfo) || WalletAddress.isValidEtokenAddress content then Some content else None.

(** [scanForQrCode] up to its first wait: a reader of its own. *)
Definition scanForQrCode (s : scanner) : scanner :=
  mkScanner (s_visible s) (s_error s) (Some (s_next s)) (S (s_next s)) ((s_next s, Devices) :: s_scans s) (s_scanned s) (s_said s) (s_stopped s).

(** The effect that runs when the camera is opened or closed. *)
Definition visible_effect (s : scanner) : scanner :=
  if s_visible s then scanForQrCode s else teardownCodeReader (s_activeCodeReader s) (set_error false s).

Definition setVisible (v : bool) (s : scanner) : scanner :=
  if Bool.eqb v (s_visible s) then s else visible_effect (set_visible v s).

Definition without (r : nat) (l : list (nat * stage)) : list (nat * stage) := List.filter (λ p, negb (p.1 =? r)%nat) l.

(** The [catch] of a scan *)
Definition scan_failed (r : nat) (s : scanner) : scanner := teardownCodeReader (Some r) (set_error true (set_scans (without r (s_scans s)) s)).

(** The body of the loop for one code. *)
Definition after_decode (r : nat) (text : string) (s : scanner) : scanner :=
  match parseContent text with
  | Some address => teardownCodeReader (Some r) (scan_done address (setVisible false (set_scans (without r (s_scans s)) s)))
  | None => say (String.append text " is not a valid eCash address") s
  end.

Inductive event := Click | Cancel | Answer (r : nat) (answer : result string).

(** The answer of [getVideoInputDevices] is not looked at. *)
Definition step (e : event) (s : scanner) : option scanner :=
  match e with
  | Click => Some (setVisible (negb (s_visible s)) s)
  | Cancel => Some (setVisible false s)
  | Answer r answer =>
      match List.find (λ p, (p.1 =? r)%nat) (s_scans s), answer with
      | Some (_, Devices), Ok _ => Some (set_scans ((r, Decoding) :: without r (s_scans s)) s)
      | Some (_, Decoding), Ok text => Some (after_decode r text s)
      | Some _, Throw _ => Some (scan_failed r s)
      | None, _ => None
      end
  end.

(** The component at its first effect. *)
Definition mounted (loadWithCameraOpen : bool) : scanner := visible_effect (mkScanner loadWithCameraOpen false None 0 [] [] [] []).

Fixpoint run (es : list event) (s : scanner) : option scanner :=
  match es with
  | [] => Some s
  | e :: es => step e s ≫= run es
  end.

(** What the window of the camera shows. *)
Inductive shows := Nothing | ErrorAlert | Preview.
Definition render (s : scanner) : shows := if s_visible s then if s_error s then ErrorAlert else Preview else Nothing.

End S.
End ScanQRCode.

(** ** The page with the code of the wallet *)
Module Receive.
Import Home.

Inductive receivePage := Loading | Onboarding | WalletPresent (label : list item) (balance : list item) (qr : option QRCode.code) (alert : string).

Section S.
Context `{IN : !Intl} `{BN : !BigNumber} `{CA : !Cashaddr}.

Definition ReceiveWithWalletPresent (wallet : wallet) (settings : option json) (balances : balances) (fiatPrice : option number) : result receivePage :=
  balance ← (if OpReturn.is_empty (totalBalance balances)
             then Ok [Label (String.append "You currently have 0 " Currency.ticker); Label "Deposit some funds to use this feature"]
             else fiat ← BalanceHeaderFiat (totalBalance balances) settings fiatPrice; Ok (BalanceHeader (totalBalance balances) Currency.ticker settings :: fiat));
  qr ← match Path1899 wallet with Some a => c ← QRCode.QRCode (cashAddress a); Ok (Some c) | None => Ok None end;
  Ok (WalletPresent [Label (w_name wallet); Link ToRename EmptyString] balance qr "Cashtab now supports receiving eTokens at your eCash address").

(** As on the first page, [previousWallet.path1899] is never there. *)
Definition Receive (h : hook) : result receivePage :=
  if h_loading h then Ok Loading
  else
    match h_wallet h with
    | Some w =>
        match Path1899 w with
        | Some _ =>
            match ws_balances (Accounts.getWalletState (Some w)) with
            | Some b => ReceiveWithWalletPresent w (h_cashtabSettings h) b (h_fiatPrice h)
            | None => TransactionBuilder.no_property
            end
        | None => Ok Onboarding
        end
    | None => Ok Onboarding
    end.

End S.
End Receive.

(** * What is shown and scanned

    The code of an address leads back to the address, and what the camera gives to a form is
    an address. *)

Import ChronikUtils Validation Settings ScanQRCode.
Module ReceiveLaws.

(** ** The parts of an address *)

#[local] Arguments String.append : simpl nomatch.

Lemma take_drop_append n s : String.append (str_take n s) (str_drop n s) = s.
Proof. revert s. induction n as [|n IH]; intros [|c s]; try done. cbn. by rewrite IH. Qed.

Lemma drop_drop n m s : str_drop n (str_drop m s) = str_drop (m + n) s.
Proof. revert s. induction m as [|m IH]; intros [|c s]; cbn; [by destruct n|done|by destruct n|apply IH]. Qed.

(** Four parts one after another. *)
Lemma parts_append s p : 0 <= p → p + 16 <= strlen s →
  String.append (QRCode.slice s 0 p) (String.append (QRCode.slice s p (p + 8)) (String.append (QRCode.slice s (p + 8) (strlen s - 8)) (str_slice s (- (8))))) = s.
Proof.
  intros Hp Hl. unfold QRCode.slice, str_slice. cbv zeta. rewrite !(proj2 (Z.ltb_ge _ 0)) by lia. change (- (8) <? 0) with true. cbv iota.
  set (l := strlen s) in *. etrans; [|exact (take_drop_append (Z.to_nat p) s)]. apply (f_equal2 String.append); [by rewrite Nat.sub_0_r|].
  etrans; [|exact (take_drop_append 8 (str_drop (Z.to_nat p) s))]. apply (f_equal2 String.append); [f_equal; lia|]. rewrite drop_drop. replace (Z.to_nat (p + 8)) with (Z.to_nat p + 8)%nat by lia. set (t := str_drop (Z.to_nat p + 8) s).
  etrans; [|exact (take_drop_append (Z.to_nat (l - 8) - (Z.to_nat p + 8)) t)]. apply (f_equal2 String.append); [done|]. subst t. rewrite drop_drop. f_equal. lia.
Qed.

(** ** The camera *)
Section Camera.
Context `{CA : !Cashaddr} `{BN : !BigNumber}.

Lemma torn r s : s_scanned (teardownCodeReader r s) = s_scanned s ∧ s_visible (teardownCodeReader r s) = s_visible s.
Proof. by destruct r. Qed.

Lemma visible_scanned v s : s_scanned (setVisible v s) = s_scanned s ∧ s_visible (setVisible v s) = v.
Proof.
  unfold setVisible, visible_effect. destruct (Bool.eqb_spec v (s_visible s)) as [->|]; [done|]. cbn [s_visible set_visible]. destruct v; [done|]. exact (torn (s_activeCodeReader s) (set_error false (set_visible false s))).
Qed.

(** The camera holds no reader while it is closed, and all that it has read are addresses. *)
Definition sound (s : scanner) : Prop := (s_visible s = false → s_activeCodeReader s = None) ∧ Forall (λ a, parseContent a = Some a) (s_scanned s).

Lemma closed_reader s : s_activeCodeReader (teardownCodeReader (s_activeCodeReader s) s) = None.
Proof. unfold teardownCodeReader. by destruct (s_activeCodeReader s) eqn:E. Qed.

Lemma sound_visible v s : sound s → sound (setVisible v s).
Proof.
  intros [H1 H2]. split; [|by destruct (visible_scanned v s) as [-> _]]. unfold setVisible, visible_effect. destruct (Bool.eqb v (s_visible s)); [done|]. cbn [s_visible set_visible]. destruct v; [done|]. intros _. apply (closed_reader (set_error false (set_visible false s))).
Qed.

Lemma parse_same text a : parseContent text = Some a → a = text.
Proof. unfold parseContent. cbv zeta. destruct (_ || _); congruence. Qed.

Lemma sound_step e s s' : step e s = Some s' → sound s → sound s'.
Proof.
  intros E Hs. pose proof Hs as [H1 H2]. revert E. destruct e as [| |r answer]; cbn [step]; [intros [= <-]; by apply sound_visible..|]. destruct (List.find _ _) as [[i []]|], answer as [text|err]; try done; intros [= <-].
  - by split.
  - by split.
  - unfold after_decode. destruct (parseContent text) as [a|] eqn:Ea; [|by split]. pose proof (parse_same _ _ Ea) as ->. destruct (visible_scanned false (set_scans (without r (s_scans s)) s)) as [E1 E2]. split; [done|]. cbn [s_scanned teardownCodeReader scan_done]. rewrite E1.
    apply Forall_app. split; [done|by repeat constructor].
  - by split.
Qed.

(** What the camera gives to a form is an address.  However the camera is opened and closed
    and whatever its readers answer, each text that it gives to the form is an eCash
    address, perhaps with an amount, or an eToken address; and a camera that is closed holds
    no reader. *)
Theorem scanned_addresses open es s : run es (mounted open) = Some s →
  Forall (λ a, WalletAddress.isValidXecAddress (SendForm.ai_address (SendForm.parseAddressForParams a)) = true ∨ WalletAddress.isValidEtokenAddress a = true) (s_scanned s) ∧
  (s_visible s = false → s_activeCodeReader s = None).
Proof.
  intros Hr. assert (Hs : sound s).
  { assert (H0 : sound (mounted open)) by (by destruct open). revert H0 Hr. generalize (mounted open) as s0. induction es as [|e es IH]; intros s0 H0; cbn [run]; [by intros [= <-]|]. destruct (step e s0) as [s1|] eqn:E; [|done]. apply IH. by eapply sound_step. }
  destruct Hs as [H1 H2]. split; [|done]. eapply Forall_impl; [exact H2|]. intros a Ha. cbn in Ha. unfold parseContent in Ha. cbv zeta in Ha.
  destruct (WalletAddress.isValidXecAddress _); [by left|]. destruct (WalletAddress.isValidEtokenAddress a); [by right|done].
Qed.

(** The camera is left on.  A reader that fails after the camera was closed and opened again
    takes the place of the one that runs; closing the camera then does not stop that one. *)
Theorem camera_left_on e : ∃ s, run [Click; Click; Click; Answer 0 (Throw e); Cancel] (mounted false) = Some s ∧
  s_visible s = false ∧ (1%nat, Devices) ∈ s_scans s ∧ 1%nat ∉ s_stopped s.
Proof. eexists. split; [reflexivity|]. cbn. split; [done|]. split; [left|]. intros [|[|[]%elem_of_nil]%elem_of_cons]%elem_of_cons; done. Qed.

End Camera.

(** ** From one wallet to another *)
Section Exchange.
Context `{CA : !Cashaddr} `{CAS : !CashaddrSpec} `{BN : !BigNumber} `{IN : !Intl}.

Lemma code_of x : WalletAddress.isValidXecAddress (String.append "ecash:" x) = true → WalletAddress.convertToEcashPrefix (String.append "ecash:" x) = Ok (String.append "ecash:" x).
Proof.
  intros Hv. pose proof (WalletAddress.includes_app "ecash" x) as Hi. change (String.append "ecash" (String ":" x)) with (String.append "ecash:" x) in Hi. unfold WalletAddress.convertToEcashPrefix. rewrite Hi.
  unfold WalletAddress.isValidXecAddress in Hv. rewrite Hi in Hv. cbn [OpReturn.is_empty String.append String.eqb] in Hv. destruct (negb _); [done|]. unfold WalletAddress.decodes_with in Hv.
  destruct (ca_decode _) as [[[prefix t] h]|]; [|done]. apply String.eqb_eq in Hv as ->. done.
Qed.

Lemma valid_encoded x t h : ca_decode (String.append "ecash:" x) = Ok ("ecash"%string, t, h) → WalletAddress.isValidXecAddress (String.append "ecash:" x) = true.
Proof.
  intros E. pose proof (WalletAddress.tested_prefixed "ecash" x 6 eq_refl) as (H1 & H2 & H3). change (String.append "ecash" (String ":" x)) with (String.append "ecash:" x) in *. change (String.append "ecash" ":") with "ecash:"%string in H2.
  unfold WalletAddress.isValidXecAddress, WalletAddress.decodes_with. by rewrite H3, H1, H2, E.
Qed.

Lemma unquestioned x : ExtensionLaws.lacks ["?"; ":"]%char x → split_on "?" (String.append "ecash:" x) = [String.append "ecash:" x].
Proof. intros Hq. apply ExtensionLaws.split_on_lacks, ExtensionLaws.lacks_app; [decided|]. eapply ExtensionLaws.lacks_sub; [|exact Hq]. intros c ->%list_elem_of_singleton. left. Qed.

Lemma parts_of x : 16 <= strlen x → ExtensionLaws.lacks ["?"; ":"]%char x →
  let a := String.append "ecash:" x in let p := strlen (default EmptyString (split_on ":" a !! 0%nat)) + 1 in
  foldr String.append EmptyString [QRCode.slice a 0 p; QRCode.slice a p (p + QRCode.trimAmount); QRCode.slice a (p + QRCode.trimAmount) (strlen a - QRCode.trimAmount); str_slice a (- QRCode.trimAmount)] = a.
Proof.
  intros Hl Hq a. assert (Es : split_on ":" a = ["ecash"%string; x]).
  { change a with (String.append "ecash" (String ":" x)). rewrite ExtensionLaws.split_on_app by decided. rewrite ExtensionLaws.split_on_lacks; [done|]. eapply ExtensionLaws.lacks_sub; [|exact Hq]. intros c ->%list_elem_of_singleton. right. left. }
  rewrite Es. cbv zeta. change (strlen (default EmptyString (["ecash"%string; x] !! 0%nat)) + 1) with 6. cbn [foldr]. rewrite append_empty. apply parts_append; [lia|]. subst a. rewrite strlen_app. change (strlen "ecash:") with 6. lia.
Qed.

Lemma content_of x : ExtensionLaws.lacks ["?"; ":"]%char x → WalletAddress.isValidXecAddress (String.append "ecash:" x) = true → parseContent (String.append "ecash:" x) = Some (String.append "ecash:" x).
Proof. intros Hq Hv. unfold parseContent, SendForm.parseAddressForParams. cbv zeta. rewrite unquestioned by done. cbn [lookup list_lookup default from_option id SendForm.ai_address]. by rewrite Hv. Qed.

Lemma form_takes x c f : ExtensionLaws.lacks ["?"; ":"]%char x → WalletAddress.isValidXecAddress (String.append "ecash:" x) = true →
  SendForm.s_sendBchAddressError (SendForm.handleAddressChange c (String.append "ecash:" x) f) = None ∧
  SendForm.f_address (SendForm.s_formData (SendForm.handleAddressChange c (String.append "ecash:" x) f)) = JString (String.append "ecash:" x).
Proof. intros Hq Hv. unfold SendForm.handleAddressChange, SendForm.parseAddressForParams. cbv zeta. rewrite unquestioned by done. cbn [lookup list_lookup default from_option id SendForm.ai_address SendForm.ai_amount]. by rewrite Hv. Qed.


End Exchange.

(** ** Examples *)
Section Examples.
Import ConcreteBn ConcreteWallet.

Local Definition a_hash : buffer := repeat 7 20.
Local Definition an_address : string := match ca_encode "ecash" "P2PKH" a_hash with Ok a => a | Throw _ => EmptyString end.
Local Definition after_scan : scanner := default (mounted true) (run [Answer 0 (Ok EmptyString); Answer 0 (Ok "hello"%string); Answer 0 (Ok an_address)] (mounted true)).

Lemma scanned_addresses_witness : s_scanned after_scan = [an_address] ∧ s_activeCodeReader after_scan = None.
Proof.
  split; [vm_compute; reflexivity|]. apply (scanned_addresses true [Answer 0 (Ok EmptyString); Answer 0 (Ok "hello"%string); Answer 0 (Ok an_address)] after_scan); vm_compute; reflexivity.
Defined.


End Examples.
End ReceiveLaws.
