(* ===== verification/Shell.v ===== *)
(** * The frame of the wallet

    [components/App.js] (routes, menu, the request for permanent storage), the first page of
    a new user [components/OnBoarding/OnBoarding.js], the notifications of
    [components/Common/Notifications.js], the menus of currencies of
    [components/Common/EnhancedInputs.js] and the page [components/Tokens/Tokens.js].  The
    router is a parameter. *)

From stdpp Require Import base tactics list gmap numbers strings pretty.
From Stdlib Require Import Ascii.
From S2P Require Import Prelude JsNumber JsFloat NodeBuffer Encodings JsString JsDecimal JsText BigNumber OpReturn Amounts WalletExternals WalletAddress Wallet Tickers ChronikUtils Validation App Accounts Send Settings Extension WalletForms Formatting Home TransactionBuilder.
Import ChronikUtils Validation Settings Home.
Open Scope Z_scope.

(** ** Notifications *)
Module Notifications.

Inductive kind := Success | Failure.
Inductive icon := CashReceived | TokenReceived | MessageSigned.

(** [None] for the duration is that of the library. *)
Record notification := mkNotification {
  n_kind : kind;
  n_message : string;
  n_description : string;
  n_link : option string;
  n_duration : option Z;
  n_icon : option icon;
  n_style : list (string * string);
}.

Definition notificationDurationShort : Z := 3.
Definition notificationDurationLong : Z := 5.

Definition getDeviceNotificationStyle (isMobile : bool) : list (string * string) :=
  if isMobile then [("width", "100%"); ("marginTop", "10%")]%string else [("width", "100%")]%string.

Section S.
Context (isMobile : bool).
Local Abbreviation style := (getDeviceNotificationStyle isMobile).

Definition sendXecNotification (link : string) : notification :=
  mkNotification Success "Success" "Transaction successful. Click to view in block explorer." (Some link) (Some notificationDurationShort) (Some CashReceived) style.
Definition createTokenNotification (link : string) : notification :=
  mkNotification Success "Success" "Token created! Click to view in block explorer." (Some link) None (Some TokenReceived) style.
Definition tokenIconSubmitSuccess : notification :=
  mkNotification Success "Success" "Your eToken icon was successfully submitted." None None (Some TokenReceived) style.
Definition sendTokenNotification (link : string) : notification :=
  mkNotification Success "Success" "Transaction successful. Click to view in block explorer." (Some link) (Some notificationDurationShort) (Some TokenReceived) style.
Definition burnTokenNotification (link : string) : notification :=
  mkNotification Success "Success" "eToken burn successful. Click to view in block explorer." (Some link) (Some notificationDurationLong) (Some TokenReceived) style.
Definition errorNotification (message : string) : notification :=
  mkNotification Failure "Error" message None (Some notificationDurationLong) None style.
Definition messageSignedNotification (msgSignature : string) : notification :=
  mkNotification Success "Message Signature Generated" msgSignature None None (Some MessageSigned) style.
Definition generalNotification (data msgStr : string) : notification :=
  mkNotification Success msgStr data None None None style.

Section Amounts.
Context `{IN : !Intl} `{BN : !BigNumber}.

(** [(symbol value CODE)], if the settings name a currency, which is a text; the price is [0]
    where it is [null]. *)
Definition fiat_part (settings : option json) (amount : number) (fiatPrice : option number) : result string :=
  match setting settings "fiatCurrency" with
  | JString code =>
      if OpReturn.is_empty code then Ok EmptyString
      else
        f ← Fiat.fiat_of code;
        Ok (foldr String.append EmptyString ["("; Fiat.f_symbol f; num_toFixed (num_mul amount (default (num_of_Z 0) fiatPrice)) Currency.cashDecimals; " "; toUpperCase code; ")"]%string)
  | _ => Ok EmptyString
  end.

Definition xecReceivedNotification (balance previousBalance : string) (settings : option json) (fiatPrice : option number) : result notification :=
  let received := num_sub (Number balance) (Number previousBalance) in
  amount ← toLocaleString (parseFloat (num_toFixed received Currency.cashDecimals)) DefaultLocale (mkDigits None None);
  fiat ← fiat_part settings received fiatPrice;
  Ok (mkNotification Success "Transaction received" (foldr String.append EmptyString ["+ "; amount; " "; Currency.ticker; " "; fiat]%string) None (Some notificationDurationShort) (Some CashReceived) style).

Definition xecReceivedNotificationWebsocket (xecAmount : number) (settings : option json) (fiatPrice : option number) : result notification :=
  amount ← toLocaleString xecAmount DefaultLocale (mkDigits None None);
  fiat ← fiat_part settings xecAmount fiatPrice;
  Ok (mkNotification Success "eCash received" (foldr String.append EmptyString ["+ "; amount; " "; Currency.ticker; " "; fiat]%string) None (Some notificationDurationShort) (Some CashReceived) style).

Definition eTokenReceivedNotification (tokenTicker receivedSlpTicker : string) (receivedSlpQty : bn) (receivedSlpName : string) : notification :=
  mkNotification Success (foldr String.append EmptyString [tokenTicker; " transaction received: "; receivedSlpTicker]%string)
    (foldr String.append EmptyString ["You received "; bn_toString receivedSlpQty; " "; receivedSlpName]%string) None (Some notificationDurationShort) (Some TokenReceived) style.

End Amounts.
End S.
End Notifications.

(** ** Menus of currencies *)
Module EnhancedInputs.

(** The value and the label of each choice *)
Definition SendBchInput_currencies (activeFiatCode : string) : list (string * string) :=
  let code := if OpReturn.is_empty activeFiatCode then "USD"%string else activeFiatCode in
  [(Currency.ticker, Currency.ticker); (code, code)].

(** The step of the field of the amount *)
Definition SendBchInput_step (dollar : bool) : number :=
  if dollar then num_div (num_of_Z 1) (num_of_Z 100) else num_div (num_of_Z 1) (num_of_Z (10 ^ Currency.cashDecimals)).

Definition CurrencySelectDropdown : list (string * string) :=
  map (λ '(_, f), (Fiat.f_slug f, foldr String.append EmptyString [Fiat.f_name f; " ("; Fiat.f_symbol f; ")"]%string)) Fiat.fiatCurrencies.

End EnhancedInputs.

(** ** The first page of a new user *)
Module OnBoarding.

(** [f_modal]: the warning about the backup is shown. *)
Record form := mkForm { f_dirty : bool; f_mnemonic : string; f_seedInput : bool; f_isValidMnemonic : bool; f_modal : bool }.

Definition initial : form := mkForm true EmptyString false false false.

Section S.
Context `{BW : !Bip39Words}.

(** The wallet that is asked for: [Some m] of a phrase, [None] a new one. *)
Definition submit (f : form) : form * option (option string) :=
  let f' := mkForm false (f_mnemonic f) (f_seedInput f) (f_isValidMnemonic f) (f_modal f) in
  if OpReturn.is_empty (f_mnemonic f) then (f', None) else (f', Some (Some (f_mnemonic f))).

Definition handleChange (value : string) (f : form) : form :=
  mkForm (f_dirty f) value (f_seedInput f) (WalletForms.validateMnemonic value) (f_modal f).

Definition showBackupConfirmModal (f : form) : form := mkForm (f_dirty f) (f_mnemonic f) (f_seedInput f) (f_isValidMnemonic f) true.
Definition onOk (f : form) : form * option (option string) := (mkForm (f_dirty f) (f_mnemonic f) (f_seedInput f) (f_isValidMnemonic f) false, Some None).

Inductive event := NewWallet | Confirm | ToggleImport | Type_ (value : string) | Import.

(** The field and the button are there after [ToggleImport]; the button works for a phrase
    that is marked as valid. *)
Definition step (e : event) (f : form) : option (form * option (option string)) :=
  match e with
  | NewWallet => if f_modal f then None else Some (showBackupConfirmModal f, None)
  | Confirm => if f_modal f then Some (onOk f) else None
  | ToggleImport => Some (mkForm (f_dirty f) (f_mnemonic f) (negb (f_seedInput f)) (f_isValidMnemonic f) (f_modal f), None)
  | Type_ value => if f_seedInput f then Some (handleChange value f, None) else None
  | Import => if f_seedInput f && f_isValidMnemonic f then Some (submit f) else None
  end.

(** What is said under the field *)
Definition help (f : form) : string := if OpReturn.is_empty (f_mnemonic f) || negb (f_isValidMnemonic f) then "Valid mnemonic seed phrase required" else EmptyString.

End S.
End OnBoarding.

(** ** The router *)

(** [match_path pattern pathname] are the values of the parameters of the pattern, if a route
    with it is taken; [resolve_path to from] is where a link [to] on the page [from] leads. *)
Class Router := {
  match_path : string → string → option (list string);
  resolve_path : string → string → string;
}.

(** A name of one segment, of letters, digits and dashes. *)
Definition plain (c : ascii) : bool :=
  let n := code c in ((48 <=? n) && (n <=? 57)) || ((65 <=? n) && (n <=? 90)) || ((97 <=? n) && (n <=? 122)) || (n =? 45).
Definition segment (s : string) : Prop := s ≠ EmptyString ∧ Forall (λ c, plain c = true) (String.list_ascii_of_string s).

(** Names are compared as a whole; a link that does not start with a slash replaces the last
    segment. *)
Class RouterSpec `{!Router} : Prop := {
  match_same a : segment a → match_path (String "/" a) (String "/" a) = Some [];
  match_other a b : segment a → segment b → toLowerCase a ≠ toLowerCase b → match_path (String "/" a) (String "/" b) = None;
  match_deep a b c : segment a → segment b → segment c → toLowerCase a ≠ toLowerCase b → match_path (String "/" a) (String "/" (String.append b (String "/" c))) = None;
  match_parameter a n c : segment a → segment n → segment c → match_path (String "/" (String.append a (String.append "/:" n))) (String "/" (String.append a (String "/" c))) = Some [c];
  match_short a n b : segment a → segment n → segment b → match_path (String "/" (String.append a (String.append "/:" n))) (String "/" b) = None;
  resolve_absolute to from : resolve_path (String "/" to) from = String "/" to;
  resolve_relative to a : segment to → segment a → resolve_path to (String "/" a) = String "/" to;
  resolve_deep to a b : segment to → segment a → segment b → resolve_path to (String "/" (String.append a (String "/" b))) = String "/" (String.append a (String "/" to));
}.

(** ** [App.js] *)
Module Shell.

Inductive screen :=
| HomeScreen | ReceiveScreen | TokensScreen | SendScreen | SendTokenScreen (tokenId : string) | AirdropScreen | SignVerifyScreen | ConfigureScreen | Redirected (to : string) | NotFound.

(** The state of the component: what the pages say while they work, and the menu. *)
Record shell := mkShell { sh_loadingUtxosAfterSend : bool; sh_updatingWalletInfo : bool; sh_navMenuClicked : bool }.

Section S.
Context `{RT : !Router}.

(** The first route that is taken. *)
Fixpoint switch (routes : list (string * (list string → screen))) (pathname : string) : screen :=
  match routes with
  | [] => if String.eqb pathname "/" then Redirected "/wallet" else NotFound
  | (path, s) :: routes => match match_path path pathname with Some params => s params | None => switch routes pathname end
  end.

Definition routes : list (string * (list string → screen)) := [
  ("/wallet", λ _, HomeScreen);
  ("/receive", λ _, ReceiveScreen);
  ("/tokens", λ _, TokensScreen);
  ("/send", λ _, SendScreen);
  ("/send-token/:tokenId", λ params, SendTokenScreen (default EmptyString (params !! 0%nat)));
  ("/airdrop", λ _, AirdropScreen);
  ("/signverifymsg", λ _, SignVerifyScreen);
  ("/configure", λ _, ConfigureScreen)
]%string.

Definition screen_of (pathname : string) : screen := switch routes pathname.

(** The buttons at the bottom and in the menu *)
Inductive nav := NavWallet | NavSend | NavReceive | NavAirdrop | NavSignVerify | NavSettings.

Definition nav_target (n : nav) : string :=
  match n with
  | NavWallet => "/wallet"
  | NavSend => "/send"
  | NavReceive => "receive"
  | NavAirdrop => "/airdrop"
  | NavSignVerify => "/signverifymsg"
  | NavSettings => "/configure"
  end.

(** [history.push] *)
Definition navigate (n : nav) (pathname : string) : string := resolve_path (nav_target n) pathname.

End S.

(** [location.pathname.substr(1)] *)
Definition selectedKey (pathname : string) : string := str_drop 1 pathname.

Definition nav_key (n : nav) : string :=
  match n with
  | NavWallet => "wallet"
  | NavSend => "send"
  | NavReceive => "receive"
  | NavAirdrop => "airdrop"
  | NavSignVerify => "signverifymsg"
  | NavSettings => "configure"
  end.

Definition active (n : nav) (pathname : string) : bool := String.eqb (selectedKey pathname) (nav_key n).

(** The heading of a page *)
Definition nav_header (pathname : string) : option string :=
  if String.eqb (selectedKey pathname) "airdrop" then Some "Airdrop"
  else if String.eqb (selectedKey pathname) "configure" then Some "Settings"
  else if String.eqb (selectedKey pathname) "signverifymsg" then Some "Sign & Verify Msg"
  else None%string.

Definition easterEggToken : string := "50d8292c6255cda7afc6c8566fed3cf42a2794e9619740fe8f4c95431271410e".

(** [wallet] may be [false], and then it is not valid. *)
Definition validWallet (wallet : option wallet) : bool := match wallet with Some w => Send.isValidStoredWallet w | None => false end.
Definition hasTab (wallet : option wallet) : bool :=
  match wallet with
  | Some w => if Send.isValidStoredWallet w then checkForTokenById (default [] (w_state w ≫= ws_tokens)) easterEggToken else false
  | None => false
  end.

(** Nothing can be pressed while it turns. *)
Definition spinning (h : hook) (s : shell) : bool :=
  h_loading h || sh_loadingUtxosAfterSend s || sh_updatingWalletInfo s || match h_wallet h with Some w => negb (Send.isValidStoredWallet w) | None => false end.

(** The menu is there with a wallet. *)
Definition footer (h : hook) : bool := match h_wallet h with Some _ => true | None => false end.
Definition handleNavMenuClick (s : shell) : shell := mkShell (sh_loadingUtxosAfterSend s) (sh_updatingWalletInfo s) (negb (sh_navMenuClicked s)).

(** *** Permanent storage *)

(** What the browser offers and answers: [storage.persisted()], [storage.persist()], whether
    there are notifications, and [Notification.permission]. *)
Record browser := mkBrowser {
  br_storage : bool;
  br_persisted : result bool;
  br_persist : result bool;
  br_notifications : bool;
  br_permission : string;
}.

(** Whether the user is asked for the permission of notifications. *)
Definition checkForPersistentStorage (b : browser) : result bool :=
  if br_storage b then
    isPersisted ← br_persisted b;
    if (isPersisted : bool) then Ok false
    else
      persistanceRequestResult ← br_persist b;
      if (persistanceRequestResult : bool) then Ok false
      else if br_notifications b then Ok (negb (String.eqb (br_permission b) "granted")) else Ok false
  else Ok false.

(** A browser calls back, or returns a promise, or both; the first answer counts. *)
Inductive modal := Warn (title content : string) | SuccessModal (title content : string) (reloads : bool).

Definition askPermissionForNotifications (answer : result string) : result modal :=
  permissionResult ← answer;
  if negb (String.eqb permissionResult "granted")
  then Ok (Warn "Notification permission refused" "Please enable notifications from Cashtab.com to help prevent your browser from deleting Cashtab wallet info.")
  else Ok (SuccessModal "Notification permission granted" "Please refresh the page" true).

End Shell.

(** ** [Tokens.js] *)
Module TokensPage.

Record tokensPage := mkTokensPage { tp_label : list item; tp_balance : list item; tp_apiError : bool; tp_disabled : bool; tp_alert : option string }.

Section S.
Context `{IN : !Intl} `{BN : !BigNumber}.

(** The least balance, in coins *)
Definition dust_text : string := bn_toString (Amounts.fromSatoshisToXec (bn_of_Z Currency.dustSats) Currency.cashDecimals).

(** A text times a number; the price may be [null]. *)
Definition too_poor (settings : option json) (fiatPrice : option number) : result string :=
  '(symbol, slug) ← match settings with
                    | Some _ => f ← Fiat.fiat_of (text_of (setting settings "fiatCurrency")); Ok (Fiat.f_symbol f, toUpperCase (Fiat.f_slug f))
                    | None => Ok ("$", "USD")%string
                    end;
  Ok (foldr String.append EmptyString ["You need at least "; dust_text; " "; Currency.ticker; " ("; symbol; num_toFixed (num_mul (Number dust_text) (default (num_of_Z 0) fiatPrice)) 4; " "; slug; ") to create a token"]%string).

(** [wallet.name] of a wallet that is [false] is [undefined]. *)
Definition Tokens (h : hook) : result tokensPage :=
  match ws_balances (Accounts.getWalletState (h_wallet h)) with
  | None => TransactionBuilder.no_property
  | Some b =>
      let settings := h_cashtabSettings h in
      fiat ← BalanceHeaderFiat (totalBalance b) settings (h_fiatPrice h);
      let poor := bn_lt (bn_of_string (totalBalanceInSatoshis b)) (bn_of_Z Currency.dustSats) in
      alert ← (if poor then a ← too_poor settings (h_fiatPrice h); Ok (Some a) else Ok None);
      Ok (mkTokensPage [Label (match h_wallet h with Some w => w_name w | None => EmptyString end); Link ToRename EmptyString]
            (BalanceHeader (totalBalance b) Currency.ticker settings :: fiat) (h_apiError h) poor alert)
  end.

End S.
End TokensPage.

(** * What the frame of the wallet does

    Where its buttons lead, which wallets the first page asks for, and that a notification of
    coins can be shown. *)

Import ChronikUtils Validation Settings Home.
(** ** A router *)
Module ConcreteRouter.

#[local] Arguments String.append : simpl nomatch.

(** The values of the parameters, segment by segment. *)
Fixpoint match_segments (pattern pathname values : list string) : option (list string) :=
  match pattern, pathname with
  | [], _ => Some values
  | String ":" _ :: pattern, s :: pathname => if OpReturn.is_empty s then None else match_segments pattern pathname (values ++ [s])
  | p :: pattern, s :: pathname => if String.eqb (toLowerCase p) (toLowerCase s) then match_segments pattern pathname values else None
  | _ :: _, [] => None
  end.

Fixpoint slashed (s : string) : bool :=
  match s with EmptyString => false | String c s => bool_decide (c = "/"%char) || slashed s end.

(** Up to the last slash. *)
Fixpoint directory (s : string) : string :=
  match s with
  | EmptyString => EmptyString
  | String c s => if slashed s then String c (directory s) else if bool_decide (c = "/"%char) then "/" else EmptyString
  end.

#[export] Instance router : Router := {
  match_path pattern pathname := match_segments (split_on "/" pattern) (split_on "/" pathname) [];
  resolve_path to from := if starts "/" to then to else String.append (directory from) to;
}.

Lemma segment_lacks s : segment s → ExtensionLaws.lacks ["/"; ":"]%char s.
Proof. intros [_ F]. eapply Forall_impl; [exact F|]. intros c Hc. cbn in Hc. intros [->|[->|[]%elem_of_nil]%elem_of_cons]%elem_of_cons; done. Qed.

Lemma segment_slash s : segment s → ExtensionLaws.lacks ["/"%char] s.
Proof. intros H. eapply ExtensionLaws.lacks_sub; [|by apply segment_lacks]. intros c ->%list_elem_of_singleton. left. Qed.

Lemma split_one a : segment a → split_on "/" (String "/" a) = [EmptyString; a].
Proof. intros H. change (String "/" a) with (String.append EmptyString (String "/" a)). rewrite ExtensionLaws.split_on_app by constructor. by rewrite ExtensionLaws.split_on_lacks by by apply segment_slash. Qed.

Lemma split_two a b : ExtensionLaws.lacks ["/"%char] b → segment a → split_on "/" (String "/" (String.append a (String "/" b))) = [EmptyString; a; b].
Proof.
  intros Hb H. change (String "/" (String.append a (String "/" b))) with (String.append EmptyString (String "/" (String.append a (String "/" b)))). rewrite ExtensionLaws.split_on_app by constructor.
  rewrite ExtensionLaws.split_on_app by by apply segment_slash. by rewrite ExtensionLaws.split_on_lacks.
Qed.

(** A segment is not a parameter. *)
Lemma match_segment a pattern s pathname values : segment a →
  match_segments (a :: pattern) (s :: pathname) values = if String.eqb (toLowerCase a) (toLowerCase s) then match_segments pattern pathname values else None.
Proof. intros [_ F]. destruct a as [|c a]; [done|]. cbn [String.list_ascii_of_string] in F. apply Forall_cons in F as [Hc _]. destruct c as [[] [] [] [] [] [] [] []]; done. Qed.

Lemma slashed_segment s : segment s → slashed s = false.
Proof. intros [_ F]. induction s as [|c s IH]; [done|]. cbn [String.list_ascii_of_string] in F. apply Forall_cons in F as [Hc F]. cbn [slashed]. rewrite IH by done. rewrite bool_decide_eq_false_2; [done|]. by intros ->. Qed.

Lemma slashed_app a b : slashed (String.append a (String "/" b)) = true.
Proof. induction a as [|c a IH]; [done|]. cbn. by rewrite IH, orb_true_r. Qed.

Lemma directory_app a b : slashed b = false → directory (String.append a (String "/" b)) = String.append a "/".
Proof. intros Hb. induction a as [|c a IH]; [cbn; by rewrite Hb|]. cbn. by rewrite slashed_app, IH. Qed.

Lemma relative to from : segment to → resolve_path to from = String.append (directory from) to.
Proof. intros [_ F]. cbn. destruct to as [|c s]; [done|]. cbn [String.list_ascii_of_string] in F. apply Forall_cons in F as [Hc _]. destruct c as [[] [] [] [] [] [] [] []]; done. Qed.

Lemma parameter_lacks n : segment n → ExtensionLaws.lacks ["/"%char] (String ":" n).
Proof. intros H. apply ExtensionLaws.lacks_cons; [decided|by apply segment_slash]. Qed.

#[export] Instance router_spec : RouterSpec.
Proof.
  split; cbn [match_path resolve_path router].
  - intros a Ha. rewrite split_one by done. change (match_segments [EmptyString; a] [EmptyString; a] []) with (match_segments [a] [a] []). by rewrite match_segment, String.eqb_refl.
  - intros a b Ha Hb Hn. rewrite !split_one by done. change (match_segments [EmptyString; a] [EmptyString; b] []) with (match_segments [a] [b] []). by rewrite match_segment, (proj2 (String.eqb_neq _ _)) by done.
  - intros a b c Ha Hb Hc Hn. rewrite (split_one a), (split_two b) by (done || by apply segment_slash). change (match_segments [EmptyString; a] [EmptyString; b; c] []) with (match_segments [a] [b; c] []). by rewrite match_segment, (proj2 (String.eqb_neq _ _)) by done.
  - intros a n c Ha Hn Hc. change (String.append "/:" n) with (String "/" (String ":" n)). rewrite !split_two by (done || by apply parameter_lacks || by apply segment_slash).
    change (match_segments [EmptyString; a; String ":" n] [EmptyString; a; c] []) with (match_segments [a; String ":" n] [a; c] []). rewrite match_segment, String.eqb_refl by done. destruct Hc as [Hc _]. by destruct c.
  - intros a n b Ha Hn Hb. change (String.append "/:" n) with (String "/" (String ":" n)). rewrite (split_two a), (split_one b) by (done || by apply parameter_lacks).
    change (match_segments [EmptyString; a; String ":" n] [EmptyString; b] []) with (match_segments [a; String ":" n] [b] []). rewrite match_segment by done. by destruct (String.eqb _ _).
  - intros to from. by destruct to.
  - intros to a Ht Ha. change (resolve_path to (String "/" a) = String "/" to). rewrite relative by done. change (String "/" a) with (String.append EmptyString (String "/" a)). by rewrite directory_app by by apply slashed_segment.
  - intros to a b Ht Ha Hb. change (resolve_path to (String "/" (String.append a (String "/" b))) = String "/" (String.append a (String "/" to))). rewrite relative by done.
    change (String "/" (String.append a (String "/" b))) with (String.append (String "/" a) (String "/" b)). rewrite directory_app by by apply slashed_segment. rewrite append_assoc. done.
Qed.

End ConcreteRouter.

Module ShellLaws.

(** ** Where the buttons lead *)
Section Navigation.
Import Shell.
Context `{RT : !Router} `{RS : !RouterSpec}.

Definition nav_screen (n : nav) : screen :=
  match n with
  | NavWallet => HomeScreen
  | NavSend => SendScreen
  | NavReceive => ReceiveScreen
  | NavAirdrop => AirdropScreen
  | NavSignVerify => SignVerifyScreen
  | NavSettings => ConfigureScreen
  end.

Lemma word s : (bool_decide (s ≠ EmptyString) && forallb plain (String.list_ascii_of_string s)) = true → segment s.
Proof. intros [H1 H2]%andb_prop. split; [by apply bool_decide_eq_true in H1|]. rewrite forallb_forall in H2. rewrite Forall_forall. intros c Hc. by apply H2, list_elem_of_In. Qed.

(** A route of one name is passed over for another name. *)
Lemma pass a b : segment a → segment b → toLowerCase a ≠ toLowerCase b → ∀ s rest, switch ((String "/" a, s) :: rest) (String "/" b) = switch rest (String "/" b).
Proof. intros Ha Hb Hn s rest. cbn [switch]. by rewrite match_other. Qed.

Lemma pass_token b : segment b → ∀ s rest, switch (("/send-token/:tokenId"%string, s) :: rest) (String "/" b) = switch rest (String "/" b).
Proof. intros Hb s rest. cbn [switch]. by rewrite (match_short "send-token" "tokenId") by (done || by apply word). Qed.

Lemma take_route a s rest : segment a → switch ((String "/" a, s) :: rest) (String "/" a) = s [].
Proof. intros Ha. cbn [switch]. by rewrite match_same. Qed.

Lemma screen_of_key n : screen_of (String "/" (nav_key n)) = nav_screen n.
Proof. unfold screen_of, routes. destruct n; cbn [nav_key nav_screen]; repeat first [rewrite pass by (by apply word || discriminate)|rewrite pass_token by by apply word]; by rewrite take_route by by apply word. Qed.

(** Where the buttons of the wallet lead.  A button of the menu opens its page and is marked,
    from wherever it is pressed, with one exception: the button that receives coins has an
    address that is relative to the page.  From a page of one name it leads where it should;
    from the page that sends a token it leads to the page that sends the token [receive]. *)
Theorem navigation : (∀ n from, n ≠ NavReceive → screen_of (navigate n from) = nav_screen n ∧ active n (navigate n from) = true) ∧
  (∀ a, segment a → screen_of (navigate NavReceive (String "/" a)) = ReceiveScreen) ∧
  (∀ tokenId, segment tokenId → screen_of (navigate NavReceive (String.append "/send-token/" tokenId)) = SendTokenScreen "receive").
Proof.
  split_and!.
  - intros n from Hn. assert (E : navigate n from = String "/" (nav_key n)) by (unfold navigate; destruct n; [apply resolve_absolute..|done|apply resolve_absolute|apply resolve_absolute|apply resolve_absolute]).
    rewrite E, screen_of_key. split; [done|]. unfold active. apply String.eqb_refl.
  - intros a Ha. unfold navigate. cbn [nav_target]. rewrite resolve_relative by (done || by apply word). apply (screen_of_key NavReceive).
  - intros id Hid. unfold navigate. cbn [nav_target]. change (String.append "/send-token/" id) with (String "/" (String.append "send-token" (String "/" id))). rewrite resolve_deep by (done || by apply word).
    unfold screen_of, routes. cbn [switch]. change "/wallet"%string with (String "/" "wallet"). change "/receive"%string with (String "/" "receive"). change "/tokens"%string with (String "/" "tokens"). change "/send"%string with (String "/" "send").
    do 4 (rewrite (match_deep _ "send-token" "receive") by (by apply word || discriminate)). change "/send-token/:tokenId"%string with (String "/" (String.append "send-token" (String.append "/:" "tokenId"))).
    by rewrite match_parameter by by apply word.
Qed.

End Navigation.

(** ** The first wallet *)
Section FirstWallet.
Import OnBoarding.
Context `{BW : !Bip39Words}.

(** A visit: what was typed last, whether the warning was shown, and the wallets that were
    asked for. *)
Inductive visit : form → list (option string) → Prop :=
| visit_start : visit initial []
| visit_step e f f' asked r : visit f asked → step e f = Some (f', r) → visit f' (asked ++ option_list r).

Definition marked (f : form) : Prop := f_isValidMnemonic f = true → WalletForms.validateMnemonic (f_mnemonic f) = true.

Lemma marked_step e f f' r : step e f = Some (f', r) → marked f → marked f' ∧ (∀ m, r = Some (Some m) → WalletForms.validateMnemonic m = true ∧ f_mnemonic f = m) ∧ (r = Some None → f_modal f = true).
Proof.
  intros E Hm. destruct e; cbn [step] in E.
  - destruct (f_modal f); [done|]. simplify_eq. split; [exact Hm|by split].
  - destruct (f_modal f) eqn:Ef; [|done]. injection E as <- <-. split; [exact Hm|by split].
  - simplify_eq. split; [exact Hm|by split].
  - destruct (f_seedInput f); [|done]. simplify_eq. split; [by intros H|by split].
  - destruct (f_seedInput f), (f_isValidMnemonic f) eqn:Ev; try done. cbn [andb] in E. unfold submit in E. cbv zeta in E. specialize (Hm Ev).
    assert (Hm' : marked f') by (destruct (OpReturn.is_empty (f_mnemonic f)); injection E as <- <-; intros _; exact Hm). split; [done|]. destruct (OpReturn.is_empty (f_mnemonic f)); injection E as <- <-; [done|]. split; [|done]. by intros m [= <-].
Qed.

(** The first wallet is what the user asked for.  A phrase that is imported was checked, the
    words and the checksum; and a new wallet is made only after the warning that it must be
    backed up was confirmed. *)
Theorem first_wallet f asked : visit f asked → Forall (λ w, match w with Some m => WalletForms.validateMnemonic m = true | None => True end) asked ∧
  (∀ e f' w, step e f = Some (f', Some w) → match w with Some m => e = Import ∧ f_mnemonic f = m ∧ WalletForms.validateMnemonic m = true | None => e = Confirm ∧ f_modal f = true end).
Proof.
  intros Hv. assert (H : marked f ∧ Forall (λ w, match w with Some m => WalletForms.validateMnemonic m = true | None => True end) asked).
  { induction Hv as [|e f f' asked r _ [Hm F] E]; [by split; [|constructor]|]. destruct (marked_step e f f' r E Hm) as (H1 & H2 & _). split; [done|]. apply Forall_app. split; [done|]. destruct r as [[m|]|]; cbn; repeat constructor. by apply (H2 m). }
  destruct H as [Hm F]. split; [done|]. intros e f' w E. destruct (marked_step e f f' (Some w) E Hm) as (_ & H2 & H3).
  assert (He : match w with Some _ => e = Import | None => e = Confirm end).
  { destruct e; cbn [step] in E; [by destruct (f_modal f)|destruct (f_modal f); [|done]; by injection E as _ <-|done|by destruct (f_seedInput f)|]. destruct (f_seedInput f && _); [|done]. unfold submit in E. cbv zeta in E. destruct (OpReturn.is_empty _); [done|]. by injection E as _ <-. }
  destruct w as [m|]; [|by split; [|apply H3]]. destruct (H2 m eq_refl). by split.
Qed.

End FirstWallet.

(** ** Notifications *)
Section Notices.
Import Notifications.
Context `{IN : !Intl} `{INS : !IntlSpec} `{BN : !BigNumber}.

(** A notification of coins can be shown, with settings that the wallet accepts or without. *)
Theorem received_shown m settings x price : match settings with Some s => isValidCashtabSettings s = true | None => True end →
  ∃ n, xecReceivedNotificationWebsocket m x settings price = Ok n ∧ n_kind n = Success.
Proof.
  intros Hs. assert (Hf : ∃ t, fiat_part settings x price = Ok t).
  { unfold fiat_part. destruct settings as [s|]; [|by eexists]. destruct (HomeLaws.settings_currency s Hs) as (code & f & Es & Ef). rewrite Es, Ef. destruct (OpReturn.is_empty code); by eexists. }
  destruct Hf as [t Et]. destruct (default_locale_text x) as [a Ea]. unfold xecReceivedNotificationWebsocket. rewrite Ea, Et. cbn [mbind result_bind]. by eexists.
Qed.

End Notices.

(** ** Examples *)
Section Examples.
Import ConcreteRouter Shell OnBoarding.

Lemma navigation_witness : screen_of (navigate NavReceive "/send-token/50d8") = SendTokenScreen "receive".
Proof. apply (proj2 (proj2 navigation) "50d8"%string). apply word. reflexivity. Defined.

Local Instance any_phrase : Bip39Words := { b39_validateMnemonic m := Ok (String.eqb m "twelve words") }.

Lemma first_wallet_witness : ∃ f, visit f [Some "twelve words"%string] ∧ Forall (λ w, match w with Some m => WalletForms.validateMnemonic m = true | None => True end) [Some "twelve words"%string].
Proof.
  assert (V : visit (mkForm false "twelve words" true true false) [Some "twelve words"%string]).
  { apply (visit_step Import (mkForm true "twelve words" true true false) (mkForm false "twelve words" true true false) [] (Some (Some "twelve words"%string))); [|reflexivity].
    apply (visit_step (Type_ "twelve words") (mkForm true EmptyString true false false) (mkForm true "twelve words" true true false) [] None); [|reflexivity].
    apply (visit_step ToggleImport initial (mkForm true EmptyString true false false) [] None); [apply visit_start|reflexivity]. }
  exists (mkForm false "twelve words" true true false). split; [exact V|]. exact (proj1 (first_wallet _ _ V)).
Defined.

End Examples.
End ShellLaws.
