(* ===== verification/CurrencyHelpers.v ===== *)
(** * Currencies of the payment button

    [cashtab-components/src/utils/currency-helpers.ts]: the codes of the currencies, the list of
    them, and their symbols. *)

From stdpp Require Import base strings.

Module CurrencyHelpers.

Inductive CurrencyCode :=
  | AED | AFN | ALL | AMD | AND | AOA | ARS | AUD | AWG | AZN | BAM | BBD | BDT | BGN | BHD | BIF | BMD | BND | BOB
  | BRL | BSD | BTN | BWP | BYN | BZD | CAD | CDF | CHF | CLF | CLP | CNH | CNY | COP | CRC | CUC | CUP | CVE | CZK
  | DJF | DKK | DOP | DZD | EGP | ERN | ETB | EUR | FJD | FKP | GBP | GEL | GGP | GHS | GIP | GMD | GNF | GTQ | GYD
  | HKD | HNL | HRK | HTG | HUF | IDR | ILS | IMP | INR | IQD | IRR | ISK | JEP | JMD | JOD | JPY | KES | KGS | KHR
  | KMF | KPW | KRW | KWD | KYD | KZT | LAK | LBP | LKR | LRD | LSL | LYD | MAD | MDL | MGA | MKD | MMK | MNT | MOP
  | MRO | MUR | MVR | MWK | MXN | MYR | MZN | NAD | NGN | NIO | NOK | NPR | NZD | OMR | PAB | PEN | PGK | PHP | PKR
  | PLN | PYG | QAR | RON | RSD | RUB | RWF | SAR | SBD | SCR | SDG | SEK | SGD | SHP | SLL | SOS | SRD | SSP | STD
  | SVC | SYP | SZL | THB | TJS | TMT | TND | TOP | TRY | TTD | TWD | TZS | UAH | UGX | USD | UYU | UZS | VEF | VND
  | VUV | WST | XAF | XAG | XAU | XCD | XDR | XOF | XPD | XPF | XPT | YER | ZAR | ZMW | ZWL.

Definition currencyOptions : list CurrencyCode := [
  AED; AFN; ALL; AMD; AND; AOA; ARS; AUD; AWG; AZN; BAM; BBD; BDT; BGN; BHD; BIF; BMD; BND; BOB; BRL; BSD; BTN; BWP;
  BYN; BZD; CAD; CDF; CHF; CLF; CLP; CNH; CNY; COP; CRC; CUC; CUP; CVE; CZK; DJF; DKK; DOP; DZD; EGP; ERN; ETB; EUR;
  FJD; FKP; GBP; GEL; GGP; GHS; GIP; GMD; GNF; GTQ; GYD; HKD; HNL; HRK; HTG; HUF; IDR; ILS; IMP; INR; IQD; IRR; ISK;
  JEP; JMD; JOD; JPY; KES; KGS; KHR; KMF; KPW; KRW; KWD; KYD; KZT; LAK; LBP; LKR; LRD; LSL; LYD; MAD; MDL; MGA; MKD;
  MMK; MNT; MOP; MRO; MUR; MVR; MWK; MXN; MYR; MZN; NAD; NGN; NIO; NOK; NPR; NZD; OMR; PAB; PEN; PGK; PHP; PKR; PLN;
  PYG; QAR; RON; RSD; RUB; RWF; SAR; SBD; SCR; SDG; SEK; SGD; SHP; SLL; SOS; SRD; SSP; STD; SVC; SYP; SZL; THB; TJS;
  TMT; TND; TOP; TRY; TTD; TWD; TZS; UAH; UGX; USD; UYU; UZS; VEF; VND; VUV; WST; XAF; XAG; XAU; XCD; XDR; XOF; XPD;
  XPF; XPT; YER; ZAR; ZMW; ZWL].

(** The text of a code *)
Definition code_text (c : CurrencyCode) : string :=
  match c with
  | AED => "AED" | AFN => "AFN" | ALL => "ALL" | AMD => "AMD" | AND => "AND" | AOA => "AOA" | ARS => "ARS"
  | AUD => "AUD" | AWG => "AWG" | AZN => "AZN" | BAM => "BAM" | BBD => "BBD" | BDT => "BDT" | BGN => "BGN"
  | BHD => "BHD" | BIF => "BIF" | BMD => "BMD" | BND => "BND" | BOB => "BOB" | BRL => "BRL" | BSD => "BSD"
  | BTN => "BTN" | BWP => "BWP" | BYN => "BYN" | BZD => "BZD" | CAD => "CAD" | CDF => "CDF" | CHF => "CHF"
  | CLF => "CLF" | CLP => "CLP" | CNH => "CNH" | CNY => "CNY" | COP => "COP" | CRC => "CRC" | CUC => "CUC"
  | CUP => "CUP" | CVE => "CVE" | CZK => "CZK" | DJF => "DJF" | DKK => "DKK" | DOP => "DOP" | DZD => "DZD"
  | EGP => "EGP" | ERN => "ERN" | ETB => "ETB" | EUR => "EUR" | FJD => "FJD" | FKP => "FKP" | GBP => "GBP"
  | GEL => "GEL" | GGP => "GGP" | GHS => "GHS" | GIP => "GIP" | GMD => "GMD" | GNF => "GNF" | GTQ => "GTQ"
  | GYD => "GYD" | HKD => "HKD" | HNL => "HNL" | HRK => "HRK" | HTG => "HTG" | HUF => "HUF" | IDR => "IDR"
  | ILS => "ILS" | IMP => "IMP" | INR => "INR" | IQD => "IQD" | IRR => "IRR" | ISK => "ISK" | JEP => "JEP"
  | JMD => "JMD" | JOD => "JOD" | JPY => "JPY" | KES => "KES" | KGS => "KGS" | KHR => "KHR" | KMF => "KMF"
  | KPW => "KPW" | KRW => "KRW" | KWD => "KWD" | KYD => "KYD" | KZT => "KZT" | LAK => "LAK" | LBP => "LBP"
  | LKR => "LKR" | LRD => "LRD" | LSL => "LSL" | LYD => "LYD" | MAD => "MAD" | MDL => "MDL" | MGA => "MGA"
  | MKD => "MKD" | MMK => "MMK" | MNT => "MNT" | MOP => "MOP" | MRO => "MRO" | MUR => "MUR" | MVR => "MVR"
  | MWK => "MWK" | MXN => "MXN" | MYR => "MYR" | MZN => "MZN" | NAD => "NAD" | NGN => "NGN" | NIO => "NIO"
  | NOK => "NOK" | NPR => "NPR" | NZD => "NZD" | OMR => "OMR" | PAB => "PAB" | PEN => "PEN" | PGK => "PGK"
  | PHP => "PHP" | PKR => "PKR" | PLN => "PLN" | PYG => "PYG" | QAR => "QAR" | RON => "RON" | RSD => "RSD"
  | RUB => "RUB" | RWF => "RWF" | SAR => "SAR" | SBD => "SBD" | SCR => "SCR" | SDG => "SDG" | SEK => "SEK"
  | SGD => "SGD" | SHP => "SHP" | SLL => "SLL" | SOS => "SOS" | SRD => "SRD" | SSP => "SSP" | STD => "STD"
  | SVC => "SVC" | SYP => "SYP" | SZL => "SZL" | THB => "THB" | TJS => "TJS" | TMT => "TMT" | TND => "TND"
  | TOP => "TOP" | TRY => "TRY" | TTD => "TTD" | TWD => "TWD" | TZS => "TZS" | UAH => "UAH" | UGX => "UGX"
  | USD => "USD" | UYU => "UYU" | UZS => "UZS" | VEF => "VEF" | VND => "VND" | VUV => "VUV" | WST => "WST"
  | XAF => "XAF" | XAG => "XAG" | XAU => "XAU" | XCD => "XCD" | XDR => "XDR" | XOF => "XOF" | XPD => "XPD"
  | XPF => "XPF" | XPT => "XPT" | YER => "YER" | ZAR => "ZAR" | ZMW => "ZMW" | ZWL => "ZWL"
  end.

(** The symbols, also of codes that the type does not have. *)
Definition currencySymbolMap : list (string * string) := [
  ("AED", "د.إ"); ("AFN", "؋"); ("ALL", "L"); ("AMD", "֏"); ("AND", "ƒ"); ("AOA", "Kz"); ("ARS", "$"); ("AUD", "$");
  ("AWG", "ƒ"); ("AZN", "₼"); ("BAM", "KM"); ("BBD", "$"); ("BDT", "৳"); ("BGN", "лв"); ("BHD", ".د.ب");
  ("BIF", "FBu"); ("BMD", "$"); ("BND", "$"); ("BOB", "$b"); ("BRL", "R$"); ("BSD", "$"); ("BTC", "฿");
  ("BTN", "Nu."); ("BWP", "P"); ("BYR", "Br"); ("BYN", "Br"); ("BZD", "BZ$"); ("CAD", "$"); ("CDF", "FC");
  ("CHF", "CHF"); ("CLF", "CLF"); ("CNH", "CNH"); ("XAG", "XAG"); ("XAU", "XAU"); ("XDR", "XDR"); ("XPD", "XPD");
  ("XPT", "XPT"); ("ZMW", "ZMW"); ("ZWL", "ZWL"); ("CLP", "$"); ("CNY", "¥"); ("COP", "$"); ("CRC", "₡");
  ("CUC", "$"); ("CUP", "₱"); ("CVE", "$"); ("CZK", "Kč"); ("DJF", "Fdj"); ("DKK", "kr"); ("DOP", "RD$");
  ("DZD", "دج"); ("EEK", "kr"); ("EGP", "£"); ("ERN", "Nfk"); ("ETB", "Br"); ("ETH", "Ξ"); ("EUR", "€");
  ("FJD", "$"); ("FKP", "£"); ("GBP", "£"); ("GEL", "₾"); ("GGP", "£"); ("GHC", "₵"); ("GHS", "GH₵"); ("GIP", "£");
  ("GMD", "D"); ("GNF", "FG"); ("GTQ", "Q"); ("GYD", "$"); ("HKD", "$"); ("HNL", "L"); ("HRK", "kn"); ("HTG", "G");
  ("HUF", "Ft"); ("IDR", "Rp"); ("ILS", "₪"); ("IMP", "£"); ("INR", "₹"); ("IQD", "ع.د"); ("IRR", "﷼");
  ("ISK", "kr"); ("JEP", "£"); ("JMD", "J$"); ("JOD", "JD"); ("JPY", "¥"); ("KES", "KSh"); ("KGS", "лв");
  ("KHR", "៛"); ("KMF", "CF"); ("KPW", "₩"); ("KRW", "₩"); ("KWD", "KD"); ("KYD", "$"); ("KZT", "лв"); ("LAK", "₭");
  ("LBP", "£"); ("LKR", "₨"); ("LRD", "$"); ("LSL", "M"); ("LTC", "Ł"); ("LTL", "Lt"); ("LVL", "Ls"); ("LYD", "LD");
  ("MAD", "MAD"); ("MDL", "lei"); ("MGA", "Ar"); ("MKD", "ден"); ("MMK", "K"); ("MNT", "₮"); ("MOP", "MOP$");
  ("MRO", "UM"); ("MRU", "UM"); ("MUR", "₨"); ("MVR", "Rf"); ("MWK", "MK"); ("MXN", "$"); ("MYR", "RM");
  ("MZN", "MT"); ("NAD", "$"); ("NGN", "₦"); ("NIO", "C$"); ("NOK", "kr"); ("NPR", "₨"); ("NZD", "$"); ("OMR", "﷼");
  ("PAB", "B/."); ("PEN", "S/."); ("PGK", "K"); ("PHP", "₱"); ("PKR", "₨"); ("PLN", "zł"); ("PYG", "Gs");
  ("QAR", "﷼"); ("RMB", "￥"); ("RON", "lei"); ("RSD", "Дин."); ("RUB", "₽"); ("RWF", "R₣"); ("SAR", "﷼");
  ("SBD", "$"); ("SCR", "₨"); ("SDG", "ج.س."); ("SEK", "kr"); ("SGD", "$"); ("SHP", "£"); ("SLL", "Le");
  ("SOS", "S"); ("SRD", "$"); ("SSP", "£"); ("STD", "Db"); ("STN", "Db"); ("SVC", "$"); ("SYP", "£"); ("SZL", "E");
  ("THB", "฿"); ("TJS", "SM"); ("TMT", "T"); ("TND", "د.ت"); ("TOP", "T$"); ("TRL", "₤"); ("TRY", "₺");
  ("TTD", "TT$"); ("TVD", "$"); ("TWD", "NT$"); ("TZS", "TSh"); ("UAH", "₴"); ("UGX", "USh"); ("USD", "$");
  ("UYU", "$U"); ("UZS", "лв"); ("VEF", "Bs"); ("VND", "₫"); ("VUV", "VT"); ("WST", "WS$"); ("XAF", "FCFA");
  ("XBT", "Ƀ"); ("XCD", "$"); ("XOF", "CFA"); ("XPF", "₣"); ("YER", "﷼"); ("ZAR", "R"); ("ZWD", "Z$")]%string.

Fixpoint lookup_symbol (k : string) (l : list (string * string)) : option string :=
  match l with
  | [] => None
  | (k', s) :: l => if String.eqb k' k then Some s else lookup_symbol k l
  end.

(** [currencySymbolMap[currency]], of [getCurrencyPreSymbol] *)
Definition getCurrencyPreSymbol (c : CurrencyCode) : option string := lookup_symbol (code_text c) currencySymbolMap.

(** Every currency of the list, which has them all, has a symbol. *)
Theorem every_currency_listed c : c ∈ currencyOptions ∧ is_Some (getCurrencyPreSymbol c).
Proof. split; [|destruct c; vm_compute; by eexists]. destruct c; repeat constructor. Qed.

End CurrencyHelpers.
