(* ===== verification/PayButton.v ===== *)
(** * The payment button

    [cashtab-components]: the helpers of [utils/cashtab-helpers.ts], the component
    [hoc/CashtabBase/CashtabBase.tsx] that buttons and badges share, and the address of the
    code that [atoms/ButtonQR/ButtonQR.tsx] draws.  A component is a record of its
    properties, its state, the timers that run and the requests that wait for an answer; an
    event is a click, a timer, an answer, or new properties.  A call of [setState] changes
    the state at once, as React does after a timer or an answer; elsewhere no function reads
    what it has set.  In a component that is gone it does nothing. *)

From stdpp Require Import base tactics list numbers strings pretty.
From Stdlib Require Import Ascii QArith Qround.
From S2P Require Import Prelude JsNumber JsFloat NodeBuffer Encodings JsString JsDecimal JsText BigNumber OpReturn Validation Extension Formatting CurrencyHelpers TransactionBuilder.
Import Validation CurrencyHelpers.
Open Scope Z_scope.

(** [integerValue(BigNumber.ROUND_FLOOR)] *)
Class BnFloor `{!BigNumber} := { bn_floor : bn → bn }.
Class BnFloorSpec `{!BigNumber} `{!BnFloor} : Prop := {
  bn_floor_is x p : bn_is x p → bn_is (bn_floor x) (inject_Z (Qfloor p));
}.

(** [x.toLocaleString('en-US', { style: 'currency', currency: 'USD' })] *)
Class IntlCurrency := { usd_text : number → string }.

(** ** Helpers *)
Module CashtabHelpers.

(** [Ticker] of [atoms/Ticker/Ticker.tsx] *)
Definition installLink : string := "https://chrome.google.com/webstore/detail/cashtab/obldfcmebhllhjlhjbnghaipekcppeag".
Definition coinName : string := "eCash".
Definition coinDecimals : Z := 2.
Definition coinSymbol : string := "XEC".
Definition coingeckoId : string := "bitcoin-cash-abc-2".
Definition tokenName : string := "eToken".
Definition tokenTicker : string := "eToken".

(** An amount is a number, or the text that [adjustAmount] returns. *)
Inductive quantity := QNumber (x : number) | QText (s : string).

Definition present (x : option number) : bool := match x with Some x => num_truthy x | None => false end.

Section S.
Context `{BN : !BigNumber} `{BF : !BnFloor} `{IN : !Intl} `{IC : !IntlCurrency}.

Definition buildPriceEndpoint (currency : CurrencyCode) : string :=
  String.append "https://api.coingecko.com/api/v3/simple/price?ids=" (String.append coingeckoId (String.append "&vs_currencies=" (String.append (code_text currency) "&include_last_updated_at=true"))).

(** [answer] is what the service sends. *)
Definition getAddressUnconfirmed (answer : json) : result json :=
  match answer with
  | JUndefined | JNull => TransactionBuilder.no_property
  | _ => let utxos := Extension.prop "utxos" answer in Ok (if Extension.truthy utxos then utxos else JArray [])
  end.

(** [v.length] *)
Definition length_of (v : json) : option Z :=
  match v with JArray l => Some (len l) | JString s => Some (length16 s) | _ => None end.

Definition formatPriceDisplay (price : option number) : option string :=
  match price with
  | Some x => if negb (num_truthy x) then None else Some (if num_ltb (num_of_Z 1) x then str_slice (usd_text x) 1 else num_toFixed x 5)
  | None => None
  end.

(** [new BigNumber(amount)] *)
Definition bn_of_quantity (q : quantity) : bn := match q with QNumber x => bn_of_number x | QText s => bn_of_string s end.
Definition quantity_truthy (q : option quantity) : bool :=
  match q with Some (QNumber x) => num_truthy x | Some (QText s) => negb (OpReturn.is_empty s) | None => false end.

Fixpoint dashes (n : nat) : string := match n with O => EmptyString | S n => String "-" (dashes n) end.

Definition formatAmount (amount : option quantity) (decimals : option Z) : result string :=
  match decimals with
  | None | Some 0 => Ok "-.--------"%string
  | Some d =>
      match amount with
      | Some q =>
          if quantity_truthy amount then
            let adjustDecimals := bn_toFixed (bn_shiftedBy (bn_of_quantity q) (-1 * d)) 2 in
            s ← toLocaleString (parseFloat adjustDecimals) DefaultLocale (mkDigits (Some 2) (Some 2));
            Ok (String.append s " ")
          else Ok (String.append "-." (dashes (Z.to_nat d)))
      | None => Ok (String.append "-." (dashes (Z.to_nat d)))
      end
  end.

Definition priceToSatoshis (BCHRate price : number) : number :=
  let singleDollarSatoshis := bn_div (bn_of_Z 100000000) (bn_of_number BCHRate) in
  bn_toNumber (bn_floor (bn_times singleDollarSatoshis (bn_of_number price))).

Definition priceToFiat (BCHRate price : number) : number := bn_toNumber (bn_times (bn_of_number BCHRate) (bn_of_number price)).

(** A value that is not a number becomes [NaN]. *)
Definition json_number (v : json) : number := match v with JNumber n => num_of_Z n | JDouble x => x | _ => SpecFloat.S754_nan end.

(** [o[name]], which throws for [null] and [undefined] *)
Definition get (name : string) (v : json) : result json :=
  match v with JUndefined | JNull => TransactionBuilder.no_property | _ => Ok (Extension.prop name v) end.

Definition fiatToSatoshis (currency : CurrencyCode) (price : number) (answer : json) : result number :=
  coin ← get coingeckoId answer;
  rate ← get (toLowerCase (code_text currency)) coin;
  Ok (priceToSatoshis (json_number rate) price).

Definition bchToFiat (currency : CurrencyCode) (price : number) (answer : json) : result number :=
  entry ← get (code_text currency) answer;
  rate ← get "rate" entry;
  Ok (priceToFiat (json_number rate) price).

Definition adjustAmount (amount : option number) (decimals : option Z) (fromSatoshis : bool) : option string :=
  let decimals := default 0 decimals in
  let shiftBy := if negb fromSatoshis then decimals else decimals * -1 in
  match amount with
  | Some x => if num_truthy x then Some (bn_toString (bn_shiftedBy (bn_of_number x) shiftBy)) else None
  | None => None
  end.

(** [window.bitcoinAbc] is what the extension sets. *)
Definition getCashtabProviderStatus (bitcoinAbc : json) : bool :=
  Extension.truthy bitcoinAbc && Extension.strict_text "cashtab" bitcoinAbc.

End S.
End CashtabHelpers.

(** ** The component *)
Module PayButton.
Import CashtabHelpers.

Inductive ButtonStates := fresh | pending | complete | expired | install.

Record props := mkProps {
  p_to : string;
  p_stepControlled : option ButtonStates;
  p_currency : CurrencyCode;
  p_price : option number;
  p_coinType : string;
  p_tokenId : option string;
  p_amount : option number;
  p_isRepeatable : bool;
  p_watchAddress : bool;
  p_opReturn : list string;
  p_showQR : bool;
}.

(** The numbers of intervals are positive.  [errors] and [intervalTimer] are never set. *)
Record state := mkState {
  s_step : ButtonStates;
  s_satoshis : option number;
  s_coinSymbol : json;
  s_coinName : json;
  s_coinDecimals : option Z;
  s_unconfirmedCount : option Z;
  s_intervalPrice : option nat;
  s_intervalUnconfirmed : option nat;
}.

Definition initial : state := mkState fresh None JUndefined JUndefined None None None None.

Definition set_step v s := mkState v (s_satoshis s) (s_coinSymbol s) (s_coinName s) (s_coinDecimals s) (s_unconfirmedCount s) (s_intervalPrice s) (s_intervalUnconfirmed s).
Definition set_satoshis v s := mkState (s_step s) v (s_coinSymbol s) (s_coinName s) (s_coinDecimals s) (s_unconfirmedCount s) (s_intervalPrice s) (s_intervalUnconfirmed s).
Definition set_coin symbol name decimals s := mkState (s_step s) (s_satoshis s) symbol name decimals (s_unconfirmedCount s) (s_intervalPrice s) (s_intervalUnconfirmed s).
Definition set_unconfirmedCount v s := mkState (s_step s) (s_satoshis s) (s_coinSymbol s) (s_coinName s) (s_coinDecimals s) v (s_intervalPrice s) (s_intervalUnconfirmed s).
Definition set_intervalPrice v s := mkState (s_step s) (s_satoshis s) (s_coinSymbol s) (s_coinName s) (s_coinDecimals s) (s_unconfirmedCount s) v (s_intervalUnconfirmed s).
Definition set_intervalUnconfirmed v s := mkState (s_step s) (s_satoshis s) (s_coinSymbol s) (s_coinName s) (s_coinDecimals s) (s_unconfirmedCount s) (s_intervalPrice s) v.

(** What an interval does, what a timeout does, and what a request waits for. *)
Inductive interval := PriceInterval | WatchInterval (address : string).
Inductive timeout := RepeatTimeout | ProviderTimeout.
Inductive request :=
| PriceRequest (currency : CurrencyCode) (price : number)
| FirstCount (address : string)
| NextCount (address : string) (prevUnconfirmedCount : option Z)
| TokenRequest (tokenId : string).

(** What the component does to the window. *)
Inductive effect := Open (url : string) | Post (message : json).

(** A component is created, in the page, or gone. *)
Inductive phase := Created | Mounted | Unmounted.

(** [b_updates]: [updateSatoshisFiat] was called and its body has not run since; [debounce]
    runs it once for several calls, at a time of its own.  [b_bitcoinAbc] is the field of the
    window. *)
Record button := mkButton {
  b_props : props;
  b_state : state;
  b_phase : phase;
  b_intervals : list (nat * interval);
  b_next : nat;
  b_timeouts : list timeout;
  b_requests : list request;
  b_updates : bool;
  b_effects : list effect;
  b_bitcoinAbc : json;
}.

Definition created (p : props) (bitcoinAbc : json) : button := mkButton p initial Created [] 1 [] [] false [] bitcoinAbc.

Definition with_props p b := mkButton p (b_state b) (b_phase b) (b_intervals b) (b_next b) (b_timeouts b) (b_requests b) (b_updates b) (b_effects b) (b_bitcoinAbc b).
Definition b_mounted b := match b_phase b with Mounted => true | _ => false end.
Definition setState (f : state → state) b :=
  if b_mounted b then mkButton (b_props b) (f (b_state b)) (b_phase b) (b_intervals b) (b_next b) (b_timeouts b) (b_requests b) (b_updates b) (b_effects b) (b_bitcoinAbc b) else b.
Definition with_phase v b := mkButton (b_props b) (b_state b) v (b_intervals b) (b_next b) (b_timeouts b) (b_requests b) (b_updates b) (b_effects b) (b_bitcoinAbc b).
Definition with_timeouts l b := mkButton (b_props b) (b_state b) (b_phase b) (b_intervals b) (b_next b) l (b_requests b) (b_updates b) (b_effects b) (b_bitcoinAbc b).
Definition with_requests l b := mkButton (b_props b) (b_state b) (b_phase b) (b_intervals b) (b_next b) (b_timeouts b) l (b_updates b) (b_effects b) (b_bitcoinAbc b).
Definition with_updates v b := mkButton (b_props b) (b_state b) (b_phase b) (b_intervals b) (b_next b) (b_timeouts b) (b_requests b) v (b_effects b) (b_bitcoinAbc b).
Definition do_effect e b := mkButton (b_props b) (b_state b) (b_phase b) (b_intervals b) (b_next b) (b_timeouts b) (b_requests b) (b_updates b) (b_effects b ++ [e]) (b_bitcoinAbc b).
Definition with_bitcoinAbc v b := mkButton (b_props b) (b_state b) (b_phase b) (b_intervals b) (b_next b) (b_timeouts b) (b_requests b) (b_updates b) (b_effects b) v.

(** [setInterval], whose number is [b_next b], and [id && clearInterval(id)] *)
Definition setInterval (i : interval) b :=
  mkButton (b_props b) (b_state b) (b_phase b) ((b_next b, i) :: b_intervals b) (S (b_next b)) (b_timeouts b) (b_requests b) (b_updates b) (b_effects b) (b_bitcoinAbc b).
Definition clearInterval (id : option nat) b :=
  match id with
  | Some n => mkButton (b_props b) (b_state b) (b_phase b) (List.filter (λ p, negb (p.1 =? n)%nat) (b_intervals b)) (b_next b) (b_timeouts b) (b_requests b) (b_updates b) (b_effects b) (b_bitcoinAbc b)
  | None => b
  end.

Definition send_request (r : request) b := with_requests (b_requests b ++ [r]) b.

Section S.
Context `{BN : !BigNumber} `{BF : !BnFloor}.

Definition startRepeatable (b : button) : button := with_timeouts (b_timeouts b ++ [RepeatTimeout]) b.

Definition paymentSendSuccess (b : button) : button :=
  let intervalUnconfirmed := s_intervalUnconfirmed (b_state b) in
  let unconfirmedCountInt := default 0 (s_unconfirmedCount (b_state b)) in
  let count := if unconfirmedCountInt =? 0 then 1 else unconfirmedCountInt + 1 in
  let b := setState (λ s, set_step complete (set_unconfirmedCount (Some count) s)) b in
  if p_isRepeatable (b_props b) then startRepeatable b else clearInterval intervalUnconfirmed b.

(** [10 ** (-1 * Ticker.coinDecimals)] *)
Definition hundredth : number := num_div (num_of_Z 1) (num_of_Z 100).

(** The amount that is posted *)
Definition post_value (satoshis amount : option number) : json :=
  match satoshis with
  | Some x => if num_truthy x then json_of_number (parseFloat (num_toFixed (num_mul x hundredth) 2)) else match amount with Some a => json_of_number a | None => JUndefined end
  | None => match amount with Some a => json_of_number a | None => JUndefined end
  end.

Definition post_message (to : string) (value : json) : json :=
  JObject [("type", JString "FROM_PAGE"); ("text", JString "Cashtab"); ("txInfo", JObject [("address", JString to); ("value", value)])]%string.

(** What follows the two branches of the status is never reached. *)
Definition handleClick (b : button) : button :=
  let p := b_props b in
  let satoshis := s_satoshis (b_state b) in
  if negb (present (p_amount p)) && negb (present satoshis) then b
  else if negb (getCashtabProviderStatus (b_bitcoinAbc b)) then do_effect (Open installLink) (setState (set_step install) b)
  else
    let b := setState (set_step fresh) b in
    if String.eqb (p_coinType p) tokenName then b
    else do_effect (Post (post_message (p_to p) (post_value satoshis (p_amount p)))) b.

(** The body of [updateSatoshisFiat], up to its request. *)
Definition updateSatoshisFiat (b : button) : button :=
  match p_price (b_props b) with
  | Some price => if num_truthy price then send_request (PriceRequest (p_currency (b_props b)) price) b else b
  | None => b
  end.

Definition setupSatoshisFiat (b : button) : button :=
  let b := clearInterval (s_intervalPrice (b_state b)) b in
  let b := with_updates true b in
  let intervalPriceNext := b_next b in
  setState (set_intervalPrice (Some intervalPriceNext)) (setInterval PriceInterval b).

(** Up to its first request. *)
Definition setupWatchAddress (b : button) : button :=
  send_request (FirstCount (p_to (b_props b))) (clearInterval (s_intervalUnconfirmed (b_state b)) b).

Definition setupCoinMeta (b : button) : button :=
  let p := b_props b in
  if String.eqb (p_coinType p) coinSymbol then setState (set_coin (JString coinSymbol) (JString coinName) (Some coinDecimals)) b
  else
    match p_tokenId p with
    | Some id =>
        if String.eqb (p_coinType p) tokenTicker && negb (OpReturn.is_empty id)
        then send_request (TokenRequest id) (setState (set_coin JUndefined JUndefined None) b) else b
    | None => b
    end.

Definition confirmCashtabProviderStatus (b : button) : button :=
  if getCashtabProviderStatus (b_bitcoinAbc b) then setState (set_step fresh) b else b.

Definition componentDidMount (b : button) : button :=
  let p := b_props b in
  let b := if p_watchAddress p then setupWatchAddress b else b in
  let b := if present (p_price p) then setupSatoshisFiat b else b in
  let b := setupCoinMeta b in
  let b := with_timeouts (b_timeouts b ++ [ProviderTimeout]) b in
  setState (set_step (if getCashtabProviderStatus (b_bitcoinAbc b) then fresh else install)) b.

Definition componentWillUnmount (b : button) : button :=
  clearInterval (s_intervalUnconfirmed (b_state b)) (clearInterval (s_intervalPrice (b_state b)) b).

(** [price !== prevPrice] *)
Definition price_differs (a b : option number) : bool :=
  match a, b with Some x, Some y => negb (SpecFloat.SFeqb x y) | None, None => false | _, _ => true end.

Definition componentDidUpdate (prevProps : props) (b : button) : button :=
  let p := b_props b in
  let b := if negb (String.eqb (code_text (p_currency p)) (code_text (p_currency prevProps))) || price_differs (p_price p) (p_price prevProps) then setupSatoshisFiat b else b in
  let b := if p_isRepeatable p && negb (Bool.eqb (p_isRepeatable p) (p_isRepeatable prevProps)) then startRepeatable b else b in
  if negb (Bool.eqb (p_watchAddress p) (p_watchAddress prevProps)) then
    if p_watchAddress p then setupWatchAddress b else clearInterval (s_intervalUnconfirmed (b_state b)) b
  else b.

(** ** Answers *)

(** What the functions do after their request: [Throw] is a request that fails. *)
Definition after_price (currency : CurrencyCode) (price : number) (answer : result json) (b : button) : button :=
  match answer ≫= fiatToSatoshis currency price with
  | Ok satoshis => setState (set_satoshis (Some satoshis)) b
  | Throw _ => b
  end.

Definition after_first_count (address : string) (answer : result json) (b : button) : button :=
  match answer ≫= getAddressUnconfirmed with
  | Ok initialUnconfirmed =>
      let b := setState (set_unconfirmedCount (length_of initialUnconfirmed)) b in
      let intervalUnconfirmedNext := b_next b in
      setState (set_intervalUnconfirmed (Some intervalUnconfirmedNext)) (setInterval (WatchInterval address) b)
  | Throw _ => b
  end.

Definition exceeds (unconfirmedCount prevUnconfirmedCount : option Z) : bool :=
  match unconfirmedCount, prevUnconfirmedCount with Some n, Some m => m <? n | _, _ => false end.

Definition after_next_count (prevUnconfirmedCount : option Z) (answer : result json) (b : button) : button :=
  match answer ≫= getAddressUnconfirmed with
  | Ok targetTransactions =>
      let unconfirmedCount := length_of targetTransactions in
      let b := setState (set_unconfirmedCount unconfirmedCount) b in
      if exceeds unconfirmedCount prevUnconfirmedCount then paymentSendSuccess b else b
  | Throw _ => b
  end.

Definition after_token (answer : result json) (b : button) : button :=
  match answer with
  | Ok (JUndefined | JNull) | Throw _ => b
  | Ok info =>
      setState (set_coin (Extension.prop "symbol" info) (Extension.prop "name" info) (match Extension.prop "decimals" info with JNumber n => Some n | _ => None end)) b
  end.

Definition after (r : request) : result json → button → button :=
  match r with
  | PriceRequest currency price => after_price currency price
  | FirstCount address => after_first_count address
  | NextCount _ prev => after_next_count prev
  | TokenRequest _ => after_token
  end.

(** ** Events *)

Inductive event :=
| Mount
| Unmount
| Update (p : props)
| Click
| Tick (id : nat)
| RunUpdate
| Answer (i : nat) (answer : result json)
| Fire (i : nat)
| Inject (bitcoinAbc : json).

(** The step of an event, where it can happen. *)
Definition step (e : event) (b : button) : option button :=
  match e with
  | Mount => match b_phase b with Created => Some (componentDidMount (with_phase Mounted b)) | _ => None end
  | Unmount => if b_mounted b then Some (with_phase Unmounted (componentWillUnmount b)) else None
  | Update p => if b_mounted b then Some (componentDidUpdate (b_props b) (with_props p b)) else None
  | Click => if b_mounted b then Some (handleClick b) else None
  | Tick id =>
      match List.find (λ p, (p.1 =? id)%nat) (b_intervals b) with
      | Some (_, PriceInterval) => Some (with_updates true b)
      | Some (_, WatchInterval address) => Some (send_request (NextCount address (s_unconfirmedCount (b_state b))) b)
      | None => None
      end
  | RunUpdate => if b_updates b then Some (updateSatoshisFiat (with_updates false b)) else None
  | Answer i answer => r ← b_requests b !! i; Some (after r answer (with_requests (delete i (b_requests b)) b))
  | Fire i =>
      t ← b_timeouts b !! i;
      let b := with_timeouts (delete i (b_timeouts b)) b in
      Some (match t with RepeatTimeout => setState (set_step fresh) b | ProviderTimeout => confirmCashtabProviderStatus b end)
  | Inject v => Some (with_bitcoinAbc v b)
  end.

Fixpoint run (es : list event) (b : button) : option button :=
  match es with
  | [] => Some b
  | e :: es => step e b ≫= run es
  end.

(** ** Rendering *)

Record rendered := mkRendered { r_showQR : bool; r_step : ButtonStates; r_amount : option quantity; r_to : string }.

Definition render (b : button) : rendered :=
  let p := b_props b in
  let s := b_state b in
  let adjusted := adjustAmount (p_amount p) (s_coinDecimals s) false in
  let calculatedAmount :=
    match adjusted with
    | Some t => if OpReturn.is_empty t then option_map QNumber (s_satoshis s) else Some (QText t)
    | None => option_map QNumber (s_satoshis s)
    end in
  let shouldShowQR := p_showQR p && String.eqb (p_coinType p) coinSymbol && match p_opReturn p with [] => true | _ => false end in
  mkRendered shouldShowQR (default (s_step s) (p_stepControlled p)) calculatedAmount (p_to p).

(** [Number(amountSatoshis)] *)
Definition number_of_quantity (q : quantity) : number := match q with QNumber x => x | QText s => Number s end.

(** The address of the code *)
Definition uri (r : rendered) : string :=
  match r_amount r with
  | Some q =>
      if quantity_truthy (Some q)
      then String.append (r_to r) (String.append "?amount=" (num_toString (num_div (number_of_quantity q) (num_of_Z 100000000))))
      else r_to r
  | None => r_to r
  end.

End S.
End PayButton.

(** ** An instance of the rounding *)
Module ConcreteFloor.
Import ConcreteBn.

#[export] Instance bn_floor_concrete : BnFloor := { bn_floor x := match x with Some a => Some (a.1 / Zpos (scale a.2), O) | None => None end }.

#[export] Instance bn_floor_concrete_spec : BnFloorSpec.
Proof.
  split. intros x p ([m s] & -> & E). exists (m / Zpos (scale s), O). split; [done|]. rewrite <- (Qfloor_comp _ _ E). done.
Qed.

End ConcreteFloor.
