(* ===== verification/PayButtonLaws.v ===== *)
(** * What the payment button does

    The states it can be in, its timers, what it notices of payments, and what the wallet is
    asked to pay. *)

From stdpp Require Import base tactics list numbers strings pretty.
From Stdlib Require Import Ascii QArith Qround Lqa SpecFloat.
From S2P Require Import Prelude JsNumber JsFloat NodeBuffer Encodings JsString JsDecimal JsText BigNumber OpReturn WalletExternals WalletAddress Validation Extension SendForm Formatting CurrencyHelpers PayButton TransactionBuilder.
Import Validation CurrencyHelpers CashtabHelpers PayButton.
Open Scope Z_scope.

Module PayButtonLaws.

Section Machine.
Context `{BN : !BigNumber} `{BF : !BnFloor}.

(** ** Steps *)

(** A property of the step that holds of [fresh] and of [install] is kept by everything but
    a payment. *)
Section Steps.
Context (P : ButtonStates → Prop) (Pfresh : P fresh) (Pinstall : P install).
Local Abbreviation holds b := (P (s_step (b_state b))).

Lemma holds_set f b : (∀ s, P (s_step s) → P (s_step (f s))) → holds b → holds (setState f b).
Proof. intros Hf H. unfold setState. destruct (b_mounted b); [by apply Hf|done]. Qed.

Lemma holds_clear id b : holds b → holds (clearInterval id b).
Proof. by destruct id. Qed.

Lemma holds_click b : holds b → holds (handleClick b).
Proof.
  intros H. unfold handleClick. cbv zeta. destruct (_ && _); [done|]. destruct (negb _); [by apply (holds_set (set_step install))|].
  destruct (String.eqb _ _); by apply (holds_set (set_step fresh)).
Qed.

Lemma holds_fiat b : holds b → holds (setupSatoshisFiat b).
Proof. intros H. apply (holds_set (set_intervalPrice _)); [done|]. apply (holds_clear (s_intervalPrice (b_state b)) b H). Qed.

Lemma holds_watch b : holds b → holds (setupWatchAddress b).
Proof. intros H. apply (holds_clear (s_intervalUnconfirmed (b_state b)) b H). Qed.

Lemma holds_meta b : holds b → holds (setupCoinMeta b).
Proof.
  intros H. unfold setupCoinMeta. cbv zeta. destruct (String.eqb _ _); [by apply (holds_set (set_coin _ _ _))|]. destruct (p_tokenId _); [|done]. destruct (_ && _); [|done].
  by apply (holds_set (set_coin JUndefined JUndefined None)).
Qed.

Lemma holds_mount b : holds b → holds (componentDidMount b).
Proof.
  intros H. unfold componentDidMount. cbv zeta. apply holds_set; [intros s Hs; by destruct (getCashtabProviderStatus _)|]. apply holds_meta.
  destruct (present _); [apply holds_fiat|]; (destruct (p_watchAddress _); [by apply holds_watch|done]).
Qed.

Lemma holds_update p b : holds b → holds (componentDidUpdate p b).
Proof.
  intros H. unfold componentDidUpdate. cbv zeta. set (b1 := if _ || _ then setupSatoshisFiat b else b). assert (H1 : holds b1) by (subst b1; destruct (_ || _); [by apply holds_fiat|done]).
  set (b2 := if _ && _ then startRepeatable b1 else b1). assert (H2 : holds b2) by (subst b2; by destruct (_ && _)). clearbody b1 b2.
  destruct (negb _); [|done]. destruct (p_watchAddress _); [by apply holds_watch|by apply holds_clear].
Qed.

(** The answer of a poll that saw more outputs than the poll before. *)
Definition seen_more (r : request) (answer : result json) : bool :=
  match r with
  | NextCount _ prev => match answer ≫= getAddressUnconfirmed with Ok v => exceeds (length_of v) prev | Throw _ => false end
  | _ => false
  end.

Definition sees_payment (e : event) (b : button) : bool :=
  match e with Answer i answer => match b_requests b !! i with Some r => seen_more r answer | None => false end | _ => false end.

Lemma holds_after r answer b : P complete ∨ seen_more r answer = false → holds b → holds (after r answer b).
Proof.
  intros Hq H. destruct r; cbn [after seen_more] in *; unfold after_price, after_first_count, after_next_count, after_token.
  - destruct (answer ≫= _); [by apply (holds_set (set_satoshis _))|done].
  - destruct (answer ≫= _); [|done]. cbv zeta. apply (holds_set (set_intervalUnconfirmed _)); [done|]. by apply (holds_set (set_unconfirmedCount _)).
  - destruct (answer ≫= _) as [v|]; [|done]. cbv zeta. set (b1 := setState _ b). assert (H1 : holds b1) by by apply (holds_set (set_unconfirmedCount _)). clearbody b1.
    destruct (exceeds _ _); [|done]. destruct Hq as [Hq|]; [|done]. unfold paymentSendSuccess. cbv zeta. set (b2 := setState _ b1). assert (H2 : holds b2) by by apply (holds_set (λ s, set_step complete (set_unconfirmedCount _ s))).
    clearbody b2. destruct (p_isRepeatable _); [done|by apply holds_clear].
  - destruct answer as [[]|]; try done; by apply (holds_set (set_coin _ _ _)).
Qed.

Lemma holds_step e b b' : P complete ∨ sees_payment e b = false → step e b = Some b' → holds b → holds b'.
Proof.
  intros Hq E H. revert E. destruct e; cbn [step sees_payment] in *.
  - destruct (b_phase b); try done. intros [= <-]. by apply holds_mount.
  - destruct (b_mounted b); [|done]. intros [= <-]. unfold componentWillUnmount. by apply (holds_clear _ (clearInterval _ b)), holds_clear.
  - destruct (b_mounted b); [|done]. intros [= <-]. by apply holds_update.
  - destruct (b_mounted b); [|done]. intros [= <-]. by apply holds_click.
  - destruct (List.find _ _) as [[? []]|]; [| |done]; by intros [= <-].
  - destruct (b_updates b); [|done]. intros [= <-]. unfold updateSatoshisFiat. destruct (p_price _); [|done]. by destruct (num_truthy _).
  - destruct (b_requests b !! i) as [r|]; [|done]. intros [= <-]. by apply holds_after.
  - destruct (b_timeouts b !! i) as [[]|]; [| |done]; intros [= <-]; unfold confirmCashtabProviderStatus; [|destruct (getCashtabProviderStatus _); [|done]]; by apply (holds_set (set_step fresh)).
  - by intros [= <-].
Qed.

End Steps.

(** The button never gets to [pending] or [expired]: the code that would is not reached. *)
Theorem steps_reached p v es b : run es (created p v) = Some b → s_step (b_state b) ∈ [fresh; install; complete].
Proof.
  cut (∀ b0, s_step (b_state b0) ∈ [fresh; install; complete] → run es b0 = Some b → s_step (b_state b) ∈ [fresh; install; complete]); [intros H; apply H; left|].
  induction es as [|e es IH]; intros b0 H0; cbn [run]; [by intros [= <-]|]. destruct (step e b0) as [b1|] eqn:E; [|done]. apply IH. revert E H0. apply (holds_step (λ s, s ∈ [fresh; install; complete])); [left|do 1 right; left|left; do 2 right; left].
Qed.

(** The button says that it was paid only after it saw a payment: a step that makes it
    complete is the answer to a poll of the address that has more outputs than the count that
    the poll started from. *)
Theorem complete_after_payment e b b' : step e b = Some b' → s_step (b_state b') = complete → s_step (b_state b) ≠ complete →
  ∃ i a m answer v n, e = Answer i (Ok answer) ∧ b_requests b !! i = Some (NextCount a (Some m)) ∧ getAddressUnconfirmed answer = Ok v ∧ length_of v = Some n ∧ m < n.
Proof.
  intros E Hc Hn. destruct (sees_payment e b) eqn:Hs; [|exfalso; by eapply (holds_step (λ s, s ≠ complete)); eauto]. clear E Hc Hn. revert Hs.
  destruct e; cbn [sees_payment]; try done. destruct (b_requests b !! i) as [r|] eqn:Er; [|done]. destruct r; cbn [seen_more]; try done.
  destruct answer as [answer|]; cbn [mbind result_bind]; [|done]. destruct (getAddressUnconfirmed answer) as [v|] eqn:Ev; [|done]. unfold exceeds. destruct (length_of v) as [n|] eqn:El; [|done].
  destruct prevUnconfirmedCount as [m|]; [|done]. intros Hm%Z.ltb_lt. by exists i, address, m, answer, v, n.
Qed.

(** ** Timers *)

Definition is_first (r : request) : bool := match r with FirstCount _ => true | _ => false end.
Definition firsts (b : button) : nat := length (List.filter is_first (b_requests b)).
Definition no_watch (l : list (nat * interval)) : Prop := ∀ id a, (id, WatchInterval a) ∉ l.

(** The intervals that run are those whose numbers the state has; at most one first request
    of [setupWatchAddress] waits, and then no interval watches; a component that is not in
    the page has no interval. *)
Record tidy (b : button) : Prop := {
  td_live : ∀ id i, (id, i) ∈ b_intervals b →
    match i with PriceInterval => s_intervalPrice (b_state b) = Some id | WatchInterval _ => s_intervalUnconfirmed (b_state b) = Some id end;
  td_first : firsts b = 0%nat ∨ firsts b = 1%nat ∧ b_phase b = Mounted ∧ no_watch (b_intervals b);
  td_gone : b_phase b ≠ Mounted → b_intervals b = [];
}.

(** What [tidy] depends on. *)
Definition same_timers (b b' : button) : Prop :=
  b_phase b' = b_phase b ∧ b_intervals b' = b_intervals b ∧ s_intervalPrice (b_state b') = s_intervalPrice (b_state b) ∧
  s_intervalUnconfirmed (b_state b') = s_intervalUnconfirmed (b_state b) ∧ firsts b' = firsts b.

#[global] Instance same_timers_refl : Reflexive same_timers.
Proof. by repeat split. Qed.
#[global] Instance same_timers_trans : Transitive same_timers.
Proof. intros a b c (? & ? & ? & ? & ?) (? & ? & ? & ? & ?). split_and!; congruence. Qed.

Lemma tidy_same b b' : same_timers b b' → tidy b → tidy b'.
Proof. intros (H1 & H2 & H3 & H4 & H5) [L F G]. split; rewrite ?H1, ?H2, ?H3, ?H4, ?H5; done. Qed.

Lemma same_set f b : (∀ s, s_intervalPrice (f s) = s_intervalPrice s ∧ s_intervalUnconfirmed (f s) = s_intervalUnconfirmed s) → same_timers b (setState f b).
Proof. intros Hf. unfold setState. destruct (b_mounted b); [|reflexivity]. destruct (Hf (b_state b)). by repeat split. Qed.

Lemma same_request r b : is_first r = false → same_timers b (send_request r b).
Proof. intros Hr. repeat split. unfold firsts, send_request. cbn. rewrite List.filter_app, length_app. cbn. rewrite Hr. cbn. lia. Qed.

Lemma in_clear id b x : x ∈ b_intervals (clearInterval id b) → x ∈ b_intervals b ∧ id ≠ Some x.1.
Proof.
  destruct id as [n|]; [|done]. cbn. rewrite list_elem_of_In, List.filter_In, <- list_elem_of_In. intros [Hx Hn]. split; [done|]. intros [= ->]. by rewrite Nat.eqb_refl in Hn.
Qed.

Lemma tidy_clear id b : tidy b → tidy (clearInterval id b).
Proof.
  intros [L F G]. assert (E : b_phase (clearInterval id b) = b_phase b ∧ b_state (clearInterval id b) = b_state b ∧ firsts (clearInterval id b) = firsts b) by by destruct id.
  destruct E as (Ep & Es & Ef). split; rewrite ?Ep, ?Es, ?Ef.
  - intros n i Hi. by apply L, (in_clear id).
  - destruct F as [F|(F & Hm & Hn)]; [by left|]. right. split_and!; [done..|]. intros n a Hi. by eapply Hn, in_clear.
  - intros Hp. destruct id; [|by apply G]. cbn. by rewrite G.
Qed.

Lemma mounted_phase b : b_mounted b = true ↔ b_phase b = Mounted.
Proof. unfold b_mounted. by destruct (b_phase b). Qed.

Lemma tidy_fiat b : b_phase b = Mounted → tidy b → tidy (setupSatoshisFiat b).
Proof.
  intros Hm Ht. pose proof (tidy_clear (s_intervalPrice (b_state b)) b Ht) as [L F G]. unfold setupSatoshisFiat. cbv zeta. set (c := clearInterval _ b) in *.
  assert (Hc : b_phase c = Mounted ∧ b_state c = b_state b) by (subst c; by destruct (s_intervalPrice _)). destruct Hc as [Hc Hs].
  unfold setState, b_mounted. cbn [b_phase with_updates setInterval b_state b_next]. rewrite Hc. split; cbn.
  - intros n i [Hi|Hi]%elem_of_cons; [by simplify_eq|]. destruct i; [|by apply (L n (WatchInterval address))]. exfalso. pose proof (L _ _ Hi) as Hl. cbn in Hl.
    apply in_clear in Hi as [_ Hi]. rewrite Hs in Hl. done.
  - destruct F as [F|(F & _ & Hn)]; [by left|]. right. split_and!; [done..|]. intros n a [Hi|Hi]%elem_of_cons; [done|by eapply Hn].
  - done.
Qed.

Lemma tidy_watch b : b_phase b = Mounted → firsts b = 0%nat → tidy b → tidy (setupWatchAddress b).
Proof.
  intros Hm Hf Ht. pose proof (tidy_clear (s_intervalUnconfirmed (b_state b)) b Ht) as [L F G]. unfold setupWatchAddress, send_request. set (c := clearInterval _ b) in *.
  assert (Hc : b_phase c = Mounted ∧ b_state c = b_state b ∧ firsts c = 0%nat) by (subst c; by destruct (s_intervalUnconfirmed _)). destruct Hc as (Hc & Hs & Hfc).
  split; cbn; [exact L| |intros Hx; by destruct Hx].
  right. split_and!; [|done|].
  - unfold firsts in *. cbn. rewrite List.filter_app, length_app, Hfc. done.
  - intros n a Hi. pose proof (L _ _ Hi) as Hl. cbn in Hl. apply in_clear in Hi as [_ Hi]. rewrite Hs in Hl. done.
Qed.

Lemma same_meta b : same_timers b (setupCoinMeta b).
Proof.
  unfold setupCoinMeta. cbv zeta. destruct (String.eqb _ _); [by apply same_set|]. destruct (p_tokenId _); [|done]. destruct (_ && _); [|done].
  etrans; [by apply (same_set (set_coin JUndefined JUndefined None))|by apply same_request].
Qed.

Lemma tidy_mount b : b_phase b = Mounted → firsts b = 0%nat → tidy b → tidy (componentDidMount b).
Proof.
  intros Hm Hf Ht. unfold componentDidMount. cbv zeta. eapply tidy_same; [by apply (same_set (set_step _))|]. eapply tidy_same; [by repeat split|]. eapply tidy_same; [apply same_meta|].
  set (b1 := if p_watchAddress _ then setupWatchAddress b else b). assert (H1 : tidy b1 ∧ b_phase b1 = Mounted).
  { subst b1. destruct (p_watchAddress _); [|done]. split; [by apply tidy_watch|]. unfold setupWatchAddress. by destruct (s_intervalUnconfirmed _). }
  destruct H1. destruct (present _); [by apply tidy_fiat|done].
Qed.

Lemma fiat_kept b : b_phase (setupSatoshisFiat b) = b_phase b ∧ firsts (setupSatoshisFiat b) = firsts b.
Proof. unfold setupSatoshisFiat, setState. cbv zeta. destruct (b_mounted _); by destruct (s_intervalPrice _). Qed.

Lemma tidy_update p b : b_phase b = Mounted → p_watchAddress (b_props b) = p_watchAddress p ∨ firsts b = 0%nat → tidy b → tidy (componentDidUpdate p b).
Proof.
  intros Hm Hq Ht. unfold componentDidUpdate. cbv zeta. set (w := p_watchAddress (b_props b)) in *. clearbody w. set (b1 := if _ || _ then setupSatoshisFiat b else b).
  assert (H1 : tidy b1 ∧ b_phase b1 = Mounted ∧ firsts b1 = firsts b). { subst b1. destruct (_ || _); [|done]. destruct (fiat_kept b) as [-> ->]. split; [by apply tidy_fiat|done]. }
  set (b2 := if _ && _ then startRepeatable b1 else b1). assert (H2 : tidy b2 ∧ b_phase b2 = Mounted ∧ firsts b2 = firsts b). { subst b2. destruct (_ && _); [|done]. destruct H1 as (H1 & H1' & H1''). split_and!; [|done..]. by apply (tidy_same b1). }
  clearbody b1 b2. destruct H2 as (H2 & H2' & H2''). destruct (Bool.eqb_spec w (p_watchAddress p)) as [->|Hw]; [done|]. cbn [negb]. destruct w; [|by apply tidy_clear].
  apply tidy_watch; [done| |done]. destruct Hq; [done|congruence].
Qed.

Lemma same_success b : p_isRepeatable (b_props b) = true → same_timers b (paymentSendSuccess b).
Proof.
  intros Hr. unfold paymentSendSuccess. cbv zeta. set (f := λ s, set_step _ _). assert (E : p_isRepeatable (b_props (setState f b)) = true) by (unfold setState; by destruct (b_mounted b)). rewrite E.
  etrans; [by apply (same_set f)|by repeat split].
Qed.

Lemma tidy_success b : tidy b → tidy (paymentSendSuccess b).
Proof.
  intros Ht. destruct (p_isRepeatable (b_props b)) eqn:Hr; [eapply tidy_same; [by apply same_success|done]|].
  unfold paymentSendSuccess. cbv zeta. set (f := λ s, set_step _ _). assert (E : p_isRepeatable (b_props (setState f b)) = false) by (unfold setState; by destruct (b_mounted b)). rewrite E.
  apply tidy_clear. eapply tidy_same; [by apply (same_set f)|done].
Qed.

Lemma delete_count (f : request → bool) l i r : l !! i = Some r → length (List.filter f l) = ((if f r then 1 else 0) + length (List.filter f (delete i l)))%nat.
Proof.
  revert i. induction l as [|x l IH]; intros i Hi; [done|]. destruct i as [|i]; cbn in Hi.
  - simplify_eq. cbn. by destruct (f r).
  - change (delete (S i) (x :: l)) with (x :: delete i l). cbn [List.filter]. destruct (f x); cbn [length]; rewrite (IH i Hi); lia.
Qed.

(** Dropping a request that was answered. *)
Lemma tidy_answered b i r : b_requests b !! i = Some r → tidy b → let c := with_requests (delete i (b_requests b)) b in
  tidy c ∧ (is_first r = true → firsts c = 0%nat ∧ b_phase c = Mounted ∧ no_watch (b_intervals c)).
Proof.
  intros Hi [L F G] c. pose proof (delete_count is_first _ _ _ Hi) as Hd. fold (firsts b) in Hd. assert (Ec : firsts c = length (List.filter is_first (delete i (b_requests b)))) by done. rewrite <- Ec in Hd.
  destruct (is_first r).
  - destruct F as [F|(F & Hm & Hn)]; [lia|]. assert (firsts c = 0%nat) by lia. split; [|done]. split; [exact L|by left|exact G].
  - split; [|done]. split; [exact L| |exact G]. destruct F as [F|F]; [left; lia|right]. by replace (firsts c) with (firsts b) by lia.
Qed.

Lemma tidy_after r answer b : tidy b → (is_first r = true → firsts b = 0%nat ∧ b_phase b = Mounted ∧ no_watch (b_intervals b)) → tidy (after r answer b).
Proof.
  intros Ht Hr. destruct r; cbn [after is_first] in *; unfold after_price, after_first_count, after_next_count, after_token.
  - destruct (answer ≫= _); [|done]. eapply tidy_same; [by apply (same_set (set_satoshis _))|done].
  - destruct (answer ≫= _) as [v|]; [|done]. cbv zeta. set (b1 := setState (set_unconfirmedCount (length_of v)) b). assert (Hs : same_timers b b1) by by apply same_set.
    destruct (Hr eq_refl) as (Hf & Hm & Hn). apply (tidy_same _ _ Hs) in Ht as [L F G]. destruct Hs as (Ep & Ei & _ & _ & Ef). unfold setState, b_mounted. cbn [setInterval b_phase b_state b_next]. rewrite Ep, Hm.
    split; cbn; [|left; unfold firsts in *; cbn; congruence|intros Hx; congruence].
    intros n i [Hi|Hi]%elem_of_cons; [by simplify_eq|]. destruct i; [by apply (L n PriceInterval)|]. rewrite Ei in Hi. by destruct (Hn n address0).
  - destruct (answer ≫= _); [|done]. cbv zeta. set (b1 := setState _ b). assert (H1 : tidy b1) by (eapply tidy_same; [by apply (same_set (set_unconfirmedCount _))|done]). destruct (exceeds _ _); [by apply tidy_success|done].
  - destruct answer as [[]|]; try done; (eapply tidy_same; [by apply (same_set (set_coin _ _ _))|done]).
Qed.

(** The first answer of [setupWatchAddress] comes before the component goes or the property
    changes. *)
Definition careful (e : event) (b : button) : Prop :=
  match e with
  | Unmount => firsts b = 0%nat
  | Update p => p_watchAddress p = p_watchAddress (b_props b) ∨ firsts b = 0%nat
  | _ => True
  end.

Inductive session : button → button → Prop :=
| session_nil b : session b b
| session_cons e b b1 b2 : careful e b → step e b = Some b1 → session b1 b2 → session b b2.

Lemma tidy_step e b b' : careful e b → step e b = Some b' → tidy b → tidy b'.
Proof.
  intros Hq E Ht. revert E. destruct e; cbn [step careful] in *.
  - destruct (b_phase b) eqn:Ep; try done. intros [= <-]. pose proof Ht as [L F G]. assert (Hf : firsts b = 0%nat) by (destruct F as [|(_ & ? & _)]; [done|congruence]).
    apply tidy_mount; [done|done|]. split; cbn; [exact L|by left|intros Hx; by destruct Hx].
  - destruct (b_mounted b); [|done]. intros [= <-]. assert (Hi : b_intervals (componentWillUnmount b) = []).
    { unfold componentWillUnmount. set (c := clearInterval (s_intervalPrice _) b). destruct (b_intervals (clearInterval _ c)) as [|[n i] l] eqn:E; [done|]. exfalso.
      assert (Hin : (n, i) ∈ b_intervals (clearInterval (s_intervalUnconfirmed (b_state b)) c)) by (rewrite E; left). apply in_clear in Hin as [Hin Hu]. apply in_clear in Hin as [Hin Hp].
      pose proof (td_live b Ht n i Hin) as Hl. by destruct i. }
    assert (Hf : firsts (componentWillUnmount b) = firsts b) by (unfold componentWillUnmount; by destruct (s_intervalPrice _), (s_intervalUnconfirmed _)).
    split; cbn; rewrite ?Hi; [by intros ? ? ?%elem_of_nil|left; change (firsts (componentWillUnmount b) = 0%nat); congruence|done].
  - destruct (b_mounted b) eqn:Em; [|done]. intros [= <-]. apply mounted_phase in Em. apply tidy_update; [done|exact Hq|by apply (tidy_same b)].
  - destruct (b_mounted b); [|done]. intros [= <-]. unfold handleClick. cbv zeta. destruct (_ && _); [done|]. destruct (negb _); [|destruct (String.eqb _ _)].
    + eapply tidy_same; [by repeat split|]. eapply tidy_same; [by apply (same_set (set_step install))|done].
    + eapply tidy_same; [by apply (same_set (set_step fresh))|done].
    + eapply tidy_same; [by repeat split|]. eapply tidy_same; [by apply (same_set (set_step fresh))|done].
  - destruct (List.find _ _) as [[? []]|]; [| |done]; intros [= <-]; [by apply (tidy_same b)|]. eapply tidy_same; [by apply same_request|done].
  - destruct (b_updates b); [|done]. intros [= <-]. unfold updateSatoshisFiat. destruct (p_price _); [destruct (num_truthy _)|]; try by apply (tidy_same b). eapply tidy_same; [by apply same_request|by apply (tidy_same b)].
  - destruct (b_requests b !! i) as [r|] eqn:Er; [|done]. intros [= <-]. destruct (tidy_answered b i r Er Ht) as [H1 H2]. by apply tidy_after.
  - destruct (b_timeouts b !! i) as [[]|]; [| |done]; intros [= <-]; unfold confirmCashtabProviderStatus; [|destruct (getCashtabProviderStatus _); [|by apply (tidy_same b)]];
    (eapply tidy_same; [by apply (same_set (set_step fresh))|by apply (tidy_same b)]).
  - intros [= <-]. by apply (tidy_same b).
Qed.

(** C35: a button that is gone stops asking.  When the first answer about the address comes before
    the component goes and before the property changes, no interval runs after the component
    has gone, and while it is there each interval is one that it can clear. *)
Theorem intervals_cleared p v b : session (created p v) b →
  (b_phase b = Unmounted → ∀ id, step (Tick id) b = None) ∧
  (∀ id i, (id, i) ∈ b_intervals b → s_intervalPrice (b_state b) = Some id ∨ s_intervalUnconfirmed (b_state b) = Some id).
Proof.
  intros Hs. assert (Ht : tidy b).
  { assert (H0 : tidy (created p v)) by (split; [by intros ? ? ?%elem_of_nil|by left|done]). induction Hs as [|e b0 b1 b2 Hq E _ IH]; [done|]. apply IH. by eapply tidy_step. }
  destruct Ht as [L F G]. split; [intros Hu id; cbn; rewrite G by congruence; done|]. intros id i Hi. specialize (L id i Hi). destruct i; auto.
Qed.

(** An interval of a component that is gone, which the state does not know. *)
Definition lurks (id : nat) (b : button) : Prop :=
  b_phase b = Unmounted ∧ s_intervalUnconfirmed (b_state b) = None ∧ (id < b_next b)%nat ∧ ∃ a, List.find (λ p, (p.1 =? id)%nat) (b_intervals b) = Some (id, WatchInterval a).

Lemma gone_set f b : b_phase b = Unmounted → setState f b = b.
Proof. intros H. unfold setState, b_mounted. by rewrite H. Qed.

Lemma lurks_after id r answer b : lurks id b → lurks id (after r answer b).
Proof.
  intros Hl. pose proof Hl as (Hp & Hi & Hn & a & Hf). destruct r; cbn [after]; unfold after_price, after_first_count, after_next_count, after_token.
  - destruct (answer ≫= _); [|done]. by rewrite gone_set.
  - destruct (answer ≫= _); [|done]. cbv zeta. rewrite !(gone_set _ b Hp), gone_set by done. split_and!; [done|done|cbn; lia|]. exists a. cbn. rewrite (proj2 (Nat.eqb_neq _ _)) by lia. done.
  - destruct (answer ≫= _); [|done]. cbv zeta. rewrite gone_set by done. destruct (exceeds _ _); [|done]. unfold paymentSendSuccess. cbv zeta. rewrite gone_set, Hi by done. by destruct (p_isRepeatable _).
  - destruct answer as [[]|]; try done; by rewrite gone_set.
Qed.

Lemma lurks_step id e b b' : lurks id b → step e b = Some b' → lurks id b'.
Proof.
  intros Hl E. pose proof Hl as (Hp & Hi & Hn & a & Hf). assert (Hm : b_mounted b = false) by (unfold b_mounted; by rewrite Hp). revert E. destruct e; cbn [step]; rewrite ?Hm, ?Hp; try done.
  - destruct (List.find _ _) as [[? []]|] in |- *; [| |done]; by intros [= <-].
  - destruct (b_updates b); [|done]. intros [= <-]. unfold updateSatoshisFiat. destruct (p_price _); [|done]. by destruct (num_truthy _).
  - destruct (b_requests b !! i); [|done]. intros [= <-]. by apply lurks_after.
  - destruct (b_timeouts b !! i) as [[]|]; [| |done]; intros [= <-]; unfold confirmCashtabProviderStatus; [|destruct (getCashtabProviderStatus _); [|done]]; by rewrite gone_set.
  - by intros [= <-].
Qed.

Lemma lurks_run id es b b' : lurks id b → run es b = Some b' → step (Tick id) b' ≠ None.
Proof.
  revert b. induction es as [|e es IH]; intros b Hl; cbn [run]; [|destruct (step e b) as [b1|] eqn:E; [|done]; apply IH; by eapply lurks_step].
  intros [= ->]. destruct Hl as (_ & _ & _ & a & Hf). cbn. by rewrite Hf.
Qed.

Lemma mount_watches p v : p_watchAddress p = true → let m := componentDidMount (with_phase Mounted (created p v)) in
  b_phase m = Mounted ∧ s_intervalUnconfirmed (b_state m) = None ∧ b_requests m !! 0%nat = Some (FirstCount (p_to p)).
Proof.
  intros Hw. unfold componentDidMount, setupCoinMeta. cbn -[coinSymbol tokenTicker]. rewrite Hw. destruct (present (p_price p)); cbn -[coinSymbol tokenTicker]; (destruct (String.eqb (p_coinType p) coinSymbol); [done|]);
  (destruct (p_tokenId p) as [id|]; [|done]); by destruct (_ && _).
Qed.

(** A button that goes too early goes on asking.  When the component goes before the first
    answer about its address, that answer starts an interval that nothing clears: whatever
    happens later, it asks again. *)
Theorem interval_leaks p v utxos : p_watchAddress p = true →
  ∃ b id, run [Mount; Unmount; Answer 0 (Ok (JObject [("utxos"%string, JArray utxos)]))] (created p v) = Some b ∧ b_phase b = Unmounted ∧
    ∀ es b', run es b = Some b' → step (Tick id) b' ≠ None.
Proof.
  intros Hw. destruct (mount_watches p v Hw) as (Hm & Hi & Hr). set (m := componentDidMount _) in *. set (g := with_phase Unmounted (componentWillUnmount m)).
  assert (Hg : b_requests g = b_requests m ∧ b_state g = b_state m) by (subst g; unfold componentWillUnmount; by destruct (s_intervalPrice _), (s_intervalUnconfirmed _)). destruct Hg as [Eg Es].
  set (c := with_requests (delete 0%nat (b_requests m)) g). exists (setInterval (WatchInterval (p_to p)) c), (b_next c). split_and!; [|done|].
  - cbn [run step created b_phase]. fold m. cbn [mbind option_bind]. unfold b_mounted. rewrite Hm. fold g. cbn [mbind option_bind]. rewrite Eg, Hr. cbn [mbind option_bind after]. unfold after_first_count. fold c.
    change (Ok _ ≫= getAddressUnconfirmed) with (Ok (JArray utxos)). cbv beta iota zeta. by rewrite (gone_set _ c), gone_set.
  - intros es b'. apply lurks_run. split_and!; [done|change (s_intervalUnconfirmed (b_state g) = None); by rewrite Es|apply Nat.lt_succ_diag_r|].
    exists (p_to p). cbn [b_intervals setInterval List.find fst]. by rewrite Nat.eqb_refl.
Qed.

(** ** Payments *)

(** The number of outputs of an answer. *)
Definition counts (answer : json) (n : Z) : Prop := ∃ utxos, answer = JObject [("utxos"%string, JArray utxos)] ∧ len utxos = n.

Lemma counted answer n : counts answer n → ∃ v, getAddressUnconfirmed answer = Ok v ∧ length_of v = Some n.
Proof. intros (utxos & -> & <-). by exists (JArray utxos). Qed.

Lemma success_state b : b_mounted b = true → s_step (b_state (paymentSendSuccess b)) = complete ∧
  s_unconfirmedCount (b_state (paymentSendSuccess b)) = Some (let n := default 0 (s_unconfirmedCount (b_state b)) in if n =? 0 then 1 else n + 1).
Proof.
  intros Hm. unfold paymentSendSuccess, setState. cbv zeta. rewrite Hm. cbn [b_props]. destruct (p_isRepeatable _); [done|]. by destruct (s_intervalUnconfirmed _).
Qed.

(** A payment is missed.  When a poll notices a payment, the count that the component keeps
    is one more than the number of outputs that it saw; the next payment, if it comes before
    the next poll, is not noticed, although the number has grown. *)
Theorem payment_missed b i a m answer c b1 : b_mounted b = true → b_requests b !! i = Some (NextCount a (Some m)) → counts answer c → 0 <= m < c →
  step (Answer i (Ok answer)) b = Some b1 →
  s_step (b_state b1) = complete ∧ s_unconfirmedCount (b_state b1) = Some (c + 1) ∧
  ∀ b2 j a' answer' b3, b_requests b2 !! j = Some (NextCount a' (s_unconfirmedCount (b_state b1))) → counts answer' (c + 1) → step (Answer j (Ok answer')) b2 = Some b3 →
    s_step (b_state b3) = s_step (b_state b2) ∧ b_timeouts b3 = b_timeouts b2.
Proof.
  intros Hm Hi Ha Hc. cbn [step]. rewrite Hi. intros [= <-]. cbn [after]. unfold after_next_count. destruct (counted _ _ Ha) as (v & Ev & El). cbn [mbind result_bind]. rewrite Ev. cbv zeta. rewrite El.
  cbn [exceeds]. rewrite (proj2 (Z.ltb_lt m c)) by lia. set (b0 := with_requests _ b). assert (H0 : b_mounted b0 = true) by done.
  assert (E1 : b_mounted (setState (set_unconfirmedCount (Some c)) b0) = true ∧ s_unconfirmedCount (b_state (setState (set_unconfirmedCount (Some c)) b0)) = Some c) by (unfold setState; by rewrite H0).
  destruct E1 as [E1 E2]. destruct (success_state _ E1) as [S1 S2]. rewrite S2, E2. cbn [default from_option id]. rewrite (proj2 (Z.eqb_neq c 0)) by lia. split; [done|]. split; [done|].
  intros b2 j a' answer' b3 Hj Hb. rewrite Hj. cbn [mbind option_bind]. intros [= <-]. cbn [after]. unfold after_next_count. destruct (counted _ _ Hb) as (v' & Ev' & El'). cbn [mbind result_bind]. rewrite Ev'. cbv zeta. rewrite El'.
  cbn [exceeds]. rewrite (proj2 (Z.ltb_ge (c + 1) (c + 1))) by lia. unfold setState. by destruct (b_mounted (with_requests _ b2)).
Qed.

(** ** What the wallet is asked to pay *)

Lemma append_not_empty s t : s ≠ EmptyString → String.append s t ≠ EmptyString.
Proof. by destruct s. Qed.

Lemma pretty_some (n : Z) : pretty n ≠ EmptyString.
Proof.
  destruct n as [|p|p]; [done| |done]. destruct (pretty_head (Zpos p) EmptyString) as (c & s & E & _); [lia|]. rewrite append_empty in E. by rewrite E.
Qed.

Lemma decimal_not_empty s e : decimal_text s e ≠ EmptyString.
Proof.
  pose proof (pretty_some s) as Hp. unfold decimal_text. repeat match goal with |- context [if ?b then _ else _] => destruct b end; try by apply append_not_empty.
  - by destruct (str_take _ _).
  - by destruct (str_take _ _).
Qed.

Lemma number_not_empty x : Extension.template_text (json_of_number x) ≠ EmptyString.
Proof.
  unfold json_of_number. destruct (num_integer x); [apply pretty_some|]. destruct x as [s|s| |s m e]; [done|by destruct s|done|]. cbn [Extension.template_text array_text num_toString].
  destruct (num_fraction m e) as [a b], (shortest _ _ _ _ _ _) as [d e1], (strip_zeros _ _ _) as [d2 e2]. destruct s; [done|apply decimal_not_empty].
Qed.

Lemma number_lacks x : ExtensionLaws.lacks ["?"; "&"; "="; "#"]%char (Extension.template_text (json_of_number x)).
Proof.
  assert (H : number_chars (Extension.template_text (json_of_number x))) by (unfold json_of_number; destruct (num_integer x); [apply pretty_chars|apply num_toString_chars]).
  eapply Forall_impl; [exact H|]. intros c Hc Hs. assert (Hd : Forall (λ c, c ∉ ["?"; "&"; "="; "#"]%char) (String.list_ascii_of_string "0123456789.+-eINaifnty")) by decided.
  rewrite Forall_forall in Hd. by apply (Hd c).
Qed.

(** The number that a click posts. *)
Definition asked (b : button) : option number :=
  match s_satoshis (b_state b) with
  | Some x => if num_truthy x then Some (parseFloat (num_toFixed (num_mul x hundredth) 2)) else p_amount (b_props b)
  | None => p_amount (b_props b)
  end.

Lemma click_posts b x : b_mounted b = true → getCashtabProviderStatus (b_bitcoinAbc b) = true → p_coinType (b_props b) ≠ tokenName → asked b = Some x → present (p_amount (b_props b)) = true ∨ present (s_satoshis (b_state b)) = true →
  ∃ b', step Click b = Some b' ∧ b_effects b' = b_effects b ++ [Post (post_message (p_to (b_props b)) (json_of_number x))].
Proof.
  intros Hm Hp Ht Ha Hx. cbn [step]. rewrite Hm. eexists. split; [done|]. unfold handleClick. cbv zeta. rewrite Hp, (proj2 (String.eqb_neq _ _) Ht). cbn [negb].
  assert (E : negb (present (p_amount (b_props b))) && negb (present (s_satoshis (b_state b))) = false) by (destruct Hx as [-> | ->]; [done|by rewrite andb_false_r]). rewrite E.
  assert (Ev : post_value (s_satoshis (b_state b)) (p_amount (b_props b)) = json_of_number x).
  { unfold asked in Ha. unfold post_value. destruct (s_satoshis _) as [y|]; [destruct (num_truthy y)|]; [by injection Ha as ->|by rewrite Ha..]. }
  unfold setState. rewrite Hm. cbn [do_effect b_effects]. by rewrite Ev.
Qed.

(** C31: a click on the button of a shop fills the form of the wallet.  With the extension there,
    a click on a button for coins posts one message; the script of the page lets it through,
    the background opens the wallet on it, and the page that sends coins shows the address of
    the shop and the amount, and knows that they came from outside. *)
Theorem button_fills_form `{CA : !Cashaddr} b w x : b_mounted b = true → getCashtabProviderStatus (b_bitcoinAbc b) = true → p_coinType (b_props b) ≠ tokenName →
  asked b = Some x → present (p_amount (b_props b)) = true ∨ present (s_satoshis (b_state b)) = true →
  p_to (b_props b) ≠ EmptyString → ExtensionLaws.lacks ["?"; "&"; "="; "#"]%char (p_to (b_props b)) →
  ∃ b' data url s, step Click b = Some b' ∧ b_effects b' = b_effects b ++ [Post data] ∧
    Extension.contentscript_message true data = Ok (Some data) ∧ Extension.onMessage w data = [Extension.OpenWindow url] ∧
    SendForm.on_load (SendForm.mkLocation None None None None (Extension.location_hash url)) SendForm.initial = (s, Ok tt) ∧
    SendForm.s_formData s = SendForm.mkForm (JString (Extension.template_text (json_of_number x))) (JString (p_to (b_props b))) JUndefined ∧ SendForm.s_txInfoFromUrl s ≠ None.
Proof.
  intros Hm Hp Ht Ha Hx Hto Hl. destruct (click_posts b x Hm Hp Ht Ha Hx) as (b' & Es & Ee).
  destruct (ExtensionLaws.payment_form w (p_to (b_props b)) (json_of_number x) _ Hto (number_not_empty x) eq_refl Hl (number_lacks x)) as (url & s & E1 & E2 & E3 & E4 & E5).
  by exists b', (post_message (p_to (b_props b)) (json_of_number x)), url, s.
Qed.

(** The number that an exact quotient of the price gives. *)
Lemma price_counted `{BS : !BigNumberSpec} `{FS : !BnFloorSpec} rate price ρ σ p : bn_is (bn_of_number rate) ρ → ~ Qeq ρ 0 → Qeq (Qmult ρ σ) (inject_Z (10 ^ 8)) →
  (∃ n, Qeq (Qmult σ (ten 20)) (inject_Z n)) → bn_is (bn_of_number price) p → Z.abs (Qfloor (Qmult σ p)) < 2 ^ 53 →
  priceToSatoshis rate price = num_of_Z (Qfloor (Qmult σ p)).
Proof.
  intros Hr H0 Hs Hp Hb Hn. unfold priceToSatoshis. apply bn_toNumber_int; [|done]. apply bn_floor_is, bn_times_is; [|done]. eapply bn_div_is; [apply bn_of_Z_is|exact Hr|done..].
Qed.


End Machine.

(** ** Examples *)

Section Examples.
Import ConcreteBn ConcreteWallet ConcreteFloor.

Local Definition shop (watch : bool) : props := mkProps "ecash:qa" None USD None coinSymbol None (Some (num_of_Z 20)) true watch [] true.
Local Definition priced : props := mkProps "ecash:qa" None USD (Some (num_of_Z 1)) coinSymbol None None true false [] true.
Local Definition outputs (n : nat) : json := JObject [("utxos"%string, JArray (repeat JNull n))].
Local Definition after_run (es : list event) (b : button) : button := default b (run es b).
Local Definition watching : button := after_run [Mount; Answer 0 (Ok (outputs 1)); Tick 1] (created (shop true) (JString "cashtab")).
Local Definition waiting : button := after_run [Mount; RunUpdate] (created priced (JString "cashtab")).

Local Definition at_end (n : nat) : button := after_run (take n [Mount; Answer 0 (Ok (outputs 1)); Unmount]) (created (shop true) JUndefined).

Lemma intervals_cleared_witness : b_phase (at_end 3) = Unmounted ∧ ∀ id, step (Tick id) (at_end 3) = None.
Proof.
  split; [reflexivity|]. refine (proj1 (intervals_cleared (shop true) JUndefined (at_end 3) _) _); [|reflexivity].
  apply (session_cons Mount (at_end 0) (at_end 1)); [exact I|vm_compute; reflexivity|]. apply (session_cons (Answer 0 (Ok (outputs 1))) (at_end 1) (at_end 2)); [exact I|vm_compute; reflexivity|].
  apply (session_cons Unmount (at_end 2) (at_end 3)); [vm_compute; reflexivity|vm_compute; reflexivity|]. apply session_nil.
Defined.

Lemma interval_leaks_witness : ∃ b id, b_phase b = Unmounted ∧ ∀ es b', run es b = Some b' → step (Tick id) b' ≠ None.
Proof. destruct (interval_leaks (shop true) JUndefined [] eq_refl) as (b & id & _ & H). exists b, id. exact H. Defined.

Lemma complete_after_payment_witness : ∃ i a m answer v n, Answer 0 (Ok (outputs 2)) = Answer i (Ok answer) ∧ b_requests watching !! i = Some (NextCount a (Some m)) ∧ getAddressUnconfirmed answer = Ok v ∧ length_of v = Some n ∧ m < n.
Proof. apply (complete_after_payment (Answer 0 (Ok (outputs 2))) watching (after_run [Answer 0 (Ok (outputs 2))] watching)); [reflexivity|reflexivity|discriminate]. Defined.

Lemma payment_missed_witness : s_step (b_state (after_run [Answer 0 (Ok (outputs 2))] watching)) = complete ∧ s_unconfirmedCount (b_state (after_run [Answer 0 (Ok (outputs 2))] watching)) = Some 3.
Proof.
  destruct (payment_missed watching 0 "ecash:qa" 1 (outputs 2) 2 (after_run [Answer 0 (Ok (outputs 2))] watching)) as (H1 & H2 & _).
  - reflexivity.
  - reflexivity.
  - exists (repeat JNull 2). split; reflexivity.
  - lia.
  - reflexivity.
  - split; [exact H1|exact H2].
Defined.

Lemma button_fills_form_witness : ∃ url s, SendForm.on_load (SendForm.mkLocation None None None None (Extension.location_hash url)) SendForm.initial = (s, Ok tt) ∧
  SendForm.s_formData s = SendForm.mkForm (JString "20") (JString "ecash:qa") JUndefined.
Proof.
  destruct (button_fills_form (after_run [Mount] (created (shop false) (JString "cashtab"))) (Extension.mkBrowser None None) (num_of_Z 20)) as (b' & data & url & s & _ & _ & _ & _ & H1 & H2 & _).
  1-2: reflexivity.
  - discriminate.
  - reflexivity.
  - left. reflexivity.
  - discriminate.
  - decided.
  - exists url, s. split; [exact H1|exact H2].
Defined.


End Examples.
End PayButtonLaws.
