(* ===== verification/Widgets.v ===== *)
(** * The widgets of the payment library

    What [atoms/Button/Button.tsx], [atoms/ButtonQR/ButtonQR.tsx],
    [components/PriceDisplay/PriceDisplay.tsx], [components/CashtabButton/CashtabButton.tsx]
    and [components/CashtabBadge/CashtabBadge.tsx] draw for the component of [PayButton], and
    the component [components/GetAddress/GetAddress.tsx], which asks the extension for the
    address of the wallet.  A drawing is a record of what a user sees and can press; styles
    are left out. *)

From stdpp Require Import base tactics list numbers strings pretty.
From Stdlib Require Import Ascii.
From S2P Require Import Prelude JsNumber JsFloat NodeBuffer Encodings JsString JsDecimal JsText BigNumber OpReturn Validation Extension Formatting CurrencyHelpers PayButton.
Import Validation CurrencyHelpers CashtabHelpers PayButton.
Open Scope Z_scope.

Module Widgets.

Inductive cover := PendingCover | CompleteCover | WarningCover (href : string).

(** A button with its text, the covers over it, and the code above it with its width.  The
    browser sends no click to a button that is disabled. *)
Record drawn_button := mkDrawn { d_code : option (string * Z); d_disabled : bool; d_covers : list cover; d_children : string }.

Definition is_fresh (step : ButtonStates) : bool := match step with fresh => true | _ => false end.

Definition covers (step : ButtonStates) : list cover :=
  match step with pending => [PendingCover] | complete => [CompleteCover] | install => [WarningCover installLink] | _ => [] end.

Definition Button (step : ButtonStates) (children : string) : drawn_button := mkDrawn None (negb (is_fresh step)) (covers step) children.

(** [sizeQR] is 125 where it is not given. *)
Definition ButtonQR (r : rendered) (sizeQR : Z) (children : string) : drawn_button :=
  mkDrawn (Some (uri r, if 125 <=? sizeQR then sizeQR else 125)) (negb (is_fresh (r_step r))) (covers (r_step r)) children.

(** [l_pre] is the symbol before the price, or [None] for the image of a coin, which is that
    of eCash where [l_coin] says so. *)
Record price_line := mkLine { l_pre : option string; l_coin : bool; l_price : string; l_symbol : json; l_name : option json }.

Definition PriceDisplay (price : option string) (name : json) (coinType : option string) (symbol : json) (preSymbol : option string) : price_line :=
  mkLine (match preSymbol with Some t => if OpReturn.is_empty t then None else Some t | None => None end)
    (match coinType with Some t => String.eqb t coinSymbol | None => false end)
    (match price with Some t => if OpReturn.is_empty t then "-"%string else t | None => "-"%string end)
    symbol (if Extension.truthy name then Some name else None).

Section Payments.
Context `{BN : !BigNumber} `{IN : !Intl} `{IC : !IntlCurrency}.

(** The button, by whether a code is shown. *)
Definition pay_button (b : button) (children : string) : drawn_button :=
  let r := render b in
  if r_showQR r then ButtonQR r 125 children else Button (r_step r) children.

(** The line of the amount, in the coin or token. *)
Definition amount_line (b : button) : result price_line :=
  let s := b_state b in
  price ← formatAmount (r_amount (render b)) (s_coinDecimals s);
  Ok (PriceDisplay (Some price) (s_coinName s) (Some (p_coinType (b_props b))) (s_coinSymbol s) None).

Record cashtab_button := mkCashtabButton { cb_text : string; cb_button : drawn_button; cb_amount : option price_line }.

(** The text on the button *)
Definition buttonPriceDisplay (p : props) : string :=
  if present (p_price p)
  then String.append (default EmptyString (getCurrencyPreSymbol (p_currency p))) (String.append " " (String.append (default EmptyString (formatPriceDisplay (p_price p))) (String.append " " (code_text (p_currency p)))))
  else "Cashtab Pay".

(** The amount is formatted also where it is not shown. *)
Definition CashtabButton (b : button) (text : string) (showAmount : bool) : result cashtab_button :=
  line ← amount_line b;
  Ok (mkCashtabButton text (pay_button b (buttonPriceDisplay (b_props b))) (if showAmount then Some line else None)).

Record cashtab_badge := mkCashtabBadge { bg_text : string; bg_price : option price_line; bg_amount : option price_line; bg_button : drawn_button; bg_brand : bool }.

Definition CashtabBadge (b : button) (text tag : string) (showAmount showBrand : bool) : result cashtab_badge :=
  let p := b_props b in
  let price := option_map (λ x, PriceDisplay (formatPriceDisplay (Some x)) JUndefined None (JString (code_text (p_currency p))) (getCurrencyPreSymbol (p_currency p))) (p_price p) in
  amount ← (if showAmount then line ← amount_line b; Ok (Some line) else Ok None);
  Ok (mkCashtabBadge text price amount (pay_button b tag) (match r_step (render b) with install => true | _ => showBrand end)).

(** A click on the button that is drawn *)
Definition press `{BF : !BnFloor} (b : button) : option button :=
  if d_disabled (pay_button b EmptyString) then None else step Click b.

End Payments.
End Widgets.

(** ** The address of the wallet *)
Module GetAddress.
Import Widgets.

(** [g_listens]: the listener is there, which is while the component is in the page;
    [g_timer]: the timeout has not run. *)
Record state := mkState { g_address : json; g_step : ButtonStates; g_listens : bool; g_timer : bool }.

Definition initial : state := mkState (JString EmptyString) pending false false.

Definition confirmCashtabProviderStatus (bitcoinAbc : json) (s : state) : state :=
  let s := mkState (g_address s) (g_step s) (g_listens s) false in
  if negb (g_listens s) then s
  else mkState (g_address s) (if negb (getCashtabProviderStatus bitcoinAbc) then install else fresh) (g_listens s) (g_timer s).

Definition componentDidMount (s : state) : state := mkState (g_address s) (g_step s) true true.
Definition componentWillUnmount (s : state) : state := mkState (g_address s) (g_step s) false (g_timer s).

(** [data] is that of the event. *)
Definition handleMessage (data : json) (s : state) : state :=
  if Extension.truthy data && Extension.truthy (Extension.prop "type" data) && Extension.strict_text "FROM_CASHTAB" (Extension.prop "type" data)
  then mkState (Extension.prop "address" data) (g_step s) (g_listens s) (g_timer s) else s.

(** What is posted to the window *)
Definition handleGetAddress : json :=
  JObject [("type", JString "FROM_PAGE"); ("text", JString "Cashtab"); ("addressRequest", JBool true)]%string.

Definition not_found : string := "Address not found, open extension and try again".

(** The covers of the button, which is never disabled, and the value of the field *)
Record drawn := mkView { v_covers : list cover; v_value : json }.

Definition render (s : state) : drawn :=
  mkView (match g_step s with pending => [PendingCover] | install => [WarningCover installLink] | _ => [] end)
    (match g_address s with JUndefined => JString not_found | a => a end).

Inductive event := Mount | Unmount | Timeout (bitcoinAbc : json) | Message (data : json).

(** The step of an event, where it can happen. *)
Definition step (e : event) (s : state) : option state :=
  match e with
  | Mount => if g_listens s then None else Some (componentDidMount s)
  | Unmount => if g_listens s then Some (componentWillUnmount s) else None
  | Timeout v => if g_timer s then Some (confirmCashtabProviderStatus v s) else None
  | Message data => if g_listens s then Some (handleMessage data s) else None
  end.

Fixpoint run (es : list event) (s : state) : option state :=
  match es with
  | [] => Some s
  | e :: es => step e s ≫= run es
  end.

End GetAddress.

(** * What the widgets of the payment library do

    A button that has been paid is not pressed again, the amount that a button shows is the
    one it asks for, and the address that a page asks for reaches its field. *)

From Stdlib Require Import QArith Qround Qpower SpecFloat.
From S2P Require Import PayButtonLaws.
Import Validation CurrencyHelpers CashtabHelpers PayButton Widgets.
Open Scope Z_scope.
Module WidgetsLaws.

Section Payments.
Context `{BN : !BigNumber} `{BF : !BnFloor}.

(** ** Payments *)

(** What happens to a button whose properties stay as they are: it is clicked only where it
    can be pressed. *)
Inductive pressed : button → button → Prop :=
| pressed_refl b : pressed b b
| pressed_click b b1 b2 : press b = Some b1 → pressed b1 b2 → pressed b b2
| pressed_step e b b1 b2 : e ≠ Click → (∀ p, e ≠ Update p) → step e b = Some b1 → pressed b1 b2 → pressed b b2.

(** A button that is paid, is not to be paid again, and has no timeout left. *)
Definition paid (b : button) : Prop :=
  s_step (b_state b) = complete ∧ p_isRepeatable (b_props b) = false ∧ p_stepControlled (b_props b) = None ∧ b_timeouts b = [] ∧ b_phase b ≠ Created.

Lemma paid_set f b : (∀ s, s_step s = complete → s_step (f s) = complete) → paid b → paid (setState f b).
Proof. intros Hf (H & ?). unfold setState. destruct (b_mounted b); [|done]. split; [by apply Hf|done]. Qed.

Lemma paid_clear id b : paid b → paid (clearInterval id b).
Proof. by destruct id. Qed.

Lemma paid_success b : paid b → paid (paymentSendSuccess b).
Proof.
  intros H. unfold paymentSendSuccess. cbv zeta. set (b1 := setState _ b). assert (H1 : paid b1) by (by apply paid_set). clearbody b1.
  rewrite (proj1 (proj2 H1)). by apply paid_clear.
Qed.

Lemma paid_after r answer b : paid b → paid (after r answer b).
Proof.
  intros H. destruct r as [c p|a|a prev|id]; cbn [after].
  - unfold after_price. destruct (_ ≫= _); [by apply paid_set|done].
  - unfold after_first_count. destruct (_ ≫= _); [|done]. cbv zeta. apply paid_set; [done|]. apply (paid_set (set_unconfirmedCount _)); done.
  - unfold after_next_count. destruct (_ ≫= _); [|done]. cbv zeta. destruct (exceeds _ _); [apply paid_success|]; by apply paid_set.
  - unfold after_token. destruct answer as [[]|]; try done; by apply paid_set.
Qed.

Lemma paid_not_pressed b : paid b → press b = None.
Proof.
  intros (Hs & _ & Hc & _). unfold press, pay_button. destruct (r_showQR _); cbn [d_disabled ButtonQR Button]; unfold render; cbn [r_step]; by rewrite Hc, Hs.
Qed.

Lemma paid_step e b b1 : e ≠ Click → (∀ p, e ≠ Update p) → step e b = Some b1 → paid b → paid b1.
Proof.
  intros He Hu E H. destruct e as [| |p| |id| |i answer|i|v]; cbn [step] in E; try done.
  - destruct H as (_ & _ & _ & _ & H). by destruct (b_phase b).
  - destruct (b_mounted b); [|done]. injection E as <-. unfold componentWillUnmount.
    assert (H1 : paid (clearInterval (s_intervalUnconfirmed (b_state b)) (clearInterval (s_intervalPrice (b_state b)) b))) by (by apply paid_clear, paid_clear).
    destruct H1 as (? & ? & ? & ? & ?). by repeat split.
  - by destruct (Hu p).
  - destruct (find _ _) as [[? []]|]; [| |done]; by injection E as <-.
  - destruct (b_updates b); [|done]. injection E as <-. unfold updateSatoshisFiat. destruct (p_price _) as [x|]; [|done]. by destruct (num_truthy x).
  - destruct (b_requests b !! i) as [r|]; [|done]. cbn in E. injection E as <-. by apply paid_after.
  - destruct H as (_ & _ & _ & H & _). rewrite H in E. done.
  - by injection E as <-.
Qed.

(** A button is paid once.  When a button that is not repeatable has seen its payment and its
    timeouts have run, it cannot be pressed again, whatever answers, ticks and messages still
    arrive, as long as its properties do not change. *)
Theorem paid_once b b' : s_step (b_state b) = complete → p_isRepeatable (b_props b) = false → p_stepControlled (b_props b) = None → b_timeouts b = [] → b_phase b = Mounted →
  pressed b b' → press b' = None ∧ s_step (b_state b') = complete.
Proof.
  intros H1 H2 H3 H4 H5 Hp. assert (H : paid b) by (repeat split; [done..|by rewrite H5]). clear H1 H2 H3 H4 H5.
  induction Hp as [b|b b1 b2 E Hp IH|e b b1 b2 He Hu E Hp IH].
  - split; [by apply paid_not_pressed|apply H].
  - by rewrite (paid_not_pressed b H) in E.
  - apply IH. by eapply paid_step.
Qed.

(** ** The amount *)

Lemma ten_back p d : Qeq (Qmult (Qmult p (ten d)) (ten (-1 * d))) p.
Proof. rewrite <- Qmult_assoc. unfold ten. rewrite <- Qpower_plus by done. replace (d + -1 * d) with 0 by lia. cbn. apply Qmult_1_r. Qed.

(** The amount that is shown is the amount asked for.  A button with an amount turns it into
    the smallest unit of its coin or token, and the line of the amount turns it back: the
    number that is printed is the amount, and so is the number that a click posts. *)
Theorem amount_shown `{BS : !BigNumberSpec} `{IN : !Intl} b x p d n : p_amount (b_props b) = Some x → num_truthy x = true → bn_is (bn_of_number x) p →
  s_coinDecimals (b_state b) = Some d → d ≠ 0 → Qeq (Qmult p (ten d)) (inject_Z n) → Z.abs n < 10 ^ 21 → s_satoshis (b_state b) = None →
  r_amount (render b) = Some (QText (pretty n)) ∧
  (∃ y, bn_is y p ∧ formatAmount (r_amount (render b)) (Some d) = (s ← toLocaleString (parseFloat (bn_toFixed y 2)) DefaultLocale (mkDigits (Some 2) (Some 2)); Ok (String.append s " "))) ∧
  post_value (s_satoshis (b_state b)) (p_amount (b_props b)) = json_of_number x.
Proof.
  intros Ea Ht Hx Ed Hd Hn Hb Es. assert (Hne : OpReturn.is_empty (pretty n) = false) by (apply String.eqb_neq, PayButtonLaws.pretty_some).
  assert (Hs : bn_is (bn_shiftedBy (bn_of_number x) d) (inject_Z n)) by (eapply bn_is_proper; [exact Hn|by apply bn_shiftedBy_is]).
  assert (Er : r_amount (render b) = Some (QText (pretty n))).
  { unfold render. cbn [r_amount]. unfold adjustAmount. rewrite Ea, Ed, Ht. cbn [default from_option id negb]. by rewrite (bn_toString_int _ _ Hs Hb), Hne. }
  split; [exact Er|]. split.
  - exists (bn_shiftedBy (bn_of_string (pretty n)) (-1 * d)). split.
    + eapply bn_is_proper; [|apply bn_shiftedBy_is, bn_of_string_int]. rewrite <- Hn. apply ten_back.
    + rewrite Er. unfold formatAmount, quantity_truthy. rewrite Hne. by destruct d.
  - by rewrite Es, Ea.
Qed.

End Payments.

(** ** The address *)


(** ** Examples *)

Section Examples.
Import ConcreteBn ConcreteFloor ConcreteIntl.

Local Definition once : props := mkProps "ecash:qa" None USD None coinSymbol None (Some (num_of_Z 20)) false true [] true.
Local Definition outputs (n : nat) : json := JObject [("utxos"%string, JArray (repeat JNull n))].
Local Definition reach (es : list event) : button := default (created once JUndefined) (run es (created once (JString "cashtab"))).
Local Definition events : list event := [Mount; Fire 0; Answer 0 (Ok (outputs 1)); Tick 1; Answer 0 (Ok (outputs 2)); Inject JNull].

Lemma paid_once_witness : press (reach events) = None ∧ s_step (b_state (reach events)) = complete.
Proof.
  refine (paid_once (reach (take 5 events)) (reach events) _ _ _ _ _ _); [vm_compute; reflexivity..|].
  apply (pressed_step (Inject JNull) _ (reach events)); [discriminate|intros p; discriminate|vm_compute; reflexivity|]. apply pressed_refl.
Defined.

Lemma amount_shown_witness : r_amount (render (reach [Mount])) = Some (QText (pretty 2000)).
Proof.
  refine (proj1 (amount_shown (reach [Mount]) (num_of_Z 20) (inject_Z 20) 2 2000 _ _ _ _ _ _ _ _)).
  1,2,4,6,8: vm_compute; reflexivity.
  - apply bn_of_number_int. lia.
  - lia.
  - lia.
Defined.


End Examples.
End WidgetsLaws.
