(* ===== verification/Explorer.v ===== *)
(** * The pages of the block explorer

    The scripts of [explorer/explorer-server/code] that run in a browser: what they show of
    numbers, blocks and transactions, how they split long lists into pages, and what they
    ask the server for.  A page is a record of its address, the attributes that the server
    put into it, and what the scripts have put there; an event of a page is a step.  What
    the libraries give - the texts of numbers and dates, the width of an element - is a
    parameter.  Positions and pages are integers below [2 ^ 53], where a double is exact. *)

From stdpp Require Import base tactics list numbers strings pretty.
From Stdlib Require Import Ascii SpecFloat.
From S2P Require Import Prelude JsNumber JsFloat NodeBuffer Encodings JsString JsDecimal JsText TransactionBuilder WalletExternals WalletAddress Validation Asm.
Import Validation.
Open Scope Z_scope.

(** [Intl.NumberFormat('en-EN').format(x)], and of the library moment [moment(ms).fromNow()],
    [moment(ms).format(f)] and [moment.utc(ms).format(f)] *)
Class PageTexts := {
  format_en : number → string;
  moment_fromNow : number → string;
  moment_format : number → string → string;
  moment_utc_format : number → string → string;
}.

(** ** [common.js] *)
Module Common.

(** Markup, with a single quote for each double quote of the source. *)
Fixpoint h (s : string) : string :=
  match s with
  | EmptyString => EmptyString
  | String c s => String (if bool_decide (c = "'"%char) then ascii_of_N 34 else c) (h s)
  end.

Definition concat_all (l : list string) : string := foldr String.append EmptyString l.

(** [s.substr(a, n)] and [s.slice(a, b)], for positions that are not negative *)
Definition substr (s : string) (a n : Z) : string := str_take (Z.to_nat n) (str_drop (Z.to_nat a) s).
Definition slice (s : string) (a b : Z) : string := substr s a (b - a).

(** [parseInt(s)]: in base 16 after [0x] *)
Definition parse_int (s : string) : option Z :=
  match (sign_prefix (trim_left s)).2 with
  | String "0" (String c _) => if (code c =? 120) || (code c =? 88) then parseInt s 16 else parseInt s 10
  | _ => parseInt s 10
  end.

(** As a number: a minus sign before zeros is kept. *)
Definition parse_number (s : string) : number :=
  match parse_int s with
  | Some 0 => S754_zero ((sign_prefix (trim_left s)).1 <? 0)
  | Some z => num_of_Z z
  | None => S754_nan
  end.

(** [Math.round(x)] *)
Definition num_round (x : number) : number :=
  match x with
  | S754_finite s m e =>
      let m := if s then Zneg m else Zpos m in
      let z := if 0 <=? e then m * 2 ^ e else (2 * m + 2 ^ (- e)) / (2 * 2 ^ (- e)) in
      if z =? 0 then S754_zero s else num_of_Z z
  | _ => x
  end.

Section Texts.
Context `{PT : !PageTexts}.

(** [offset] is [new Date().getTimezoneOffset()]. *)
Definition tzOffset (offsetMinutes : Z) : string :=
  if offsetMinutes <? 0 then moment_utc_format (num_of_Z (- offsetMinutes * 60000)) "+HH:mm"
  else moment_utc_format (num_of_Z (offsetMinutes * 60000)) "-HH:mm".

Definition formatByteSize (size : Z) : string :=
  if size <? 1024 then String.append (pretty size) " B"
  else if size <? 1024 * 1024 then String.append (num_toFixed (num_div (num_of_Z size) (num_of_Z 1000)) 2) " kB"
  else String.append (num_toFixed (num_div (num_of_Z size) (num_of_Z 1000000)) 2) " MB".

Definition renderInteger (number : number) : string := format_en number.

(** One section of three digits. *)
Definition fract_section (section : string) (allZeros first : bool) : string :=
  concat_all [h "<small class='"; if allZeros then "zeros " else ""; if first then "" else "digit-sep "; h "'>"; section; "</small>"]%string.

(** The loop, from the section [sectionIdx] down to the first one. *)
Fixpoint fract_loop (fractPart : string) (numFractSections : Z) (sections : nat) (allZeros : bool) (fractRendered : string) : string :=
  match sections with
  | O => fractRendered
  | S sectionIdx =>
      let section := substr fractPart (Z.of_nat sectionIdx * 3) 3 in
      let allZeros := if bool_decide (parse_int section = Some 0) then allZeros else false in
      fract_loop fractPart numFractSections sectionIdx allZeros
        (String.append (fract_section section allZeros (Z.of_nat sectionIdx =? numFractSections - 1)) fractRendered)
  end.

(** [decimals] is [None] where it is [undefined]. *)
Definition renderAmount (baseAmount : number) (decimals : option Z) : result string :=
  match decimals with
  | Some 0 => Ok (renderInteger baseAmount)
  | Some decimals =>
      if 100 <? decimals then Throw RangeError
      else
        let humanAmount := num_div baseAmount (num_of_Z (10 ^ decimals)) in
        let parts := split_on "." (num_toFixed humanAmount decimals) in
        let integerPart := parse_number (default EmptyString (parts !! 0%nat)) in
        match parts !! 1%nat with
        | None => TransactionBuilder.no_property
        | Some fractPart =>
            let numFractSections := (decimals + 2) / 3 in
            Ok (String.append (renderInteger integerPart) (String "." (fract_loop fractPart numFractSections (Z.to_nat numFractSections) true EmptyString)))
        end
  | None => Ok (String.append (renderInteger S754_nan) ".")
  end.

(** Both branches return the same text. *)
Definition renderSats (sats : number) : string :=
  let parts := split_on "." (num_toFixed (num_div sats (num_of_Z 100)) 2) in
  let integerPart := parse_number (default EmptyString (parts !! 0%nat)) in
  concat_all [renderInteger integerPart; ".<small>"; default "undefined" (parts !! 1%nat); "</small>"]%string.

Definition renderTxHash (txHash : string) : string := concat_all [substr txHash 0 10; "&hellip;"; substr txHash 60 4]%string.

(** [timestamps.js]: the text of an element with the attribute [data-timestamp] *)
Definition human_timestamp (offset : Z) (timestamp : option string) : option string :=
  match timestamp with
  | None | Some EmptyString => None
  | Some t => Some (concat_all [moment_format (num_mul (Number t) (num_of_Z 1000)) "L LTS"; " <small>(UTC "; tzOffset offset; ")</small>"]%string)
  end.

End Texts.

(** *** Searching *)

Definition regHex32 (s : string) : bool :=
  (strlen s =? 64) && forallb (λ c, match Hex.value c with Some _ => true | None => false end) (String.list_ascii_of_string s).

(** The page that is opened, if any. *)
Definition searchButton (search : string) : option string :=
  if String.eqb search EmptyString then None
  else if regHex32 search then Some (String.append "/search/" search)
  else if String.eqb (slice search 0 6) "ecash:" || String.eqb (slice search 0 7) "etoken:" then Some (String.append "/search/" search)
  else if 6 <? length16 search then Some (String.append "/search/" (String.append "ecash:" search))
  else if negb (num_isNaN (Number search)) then Some (String.append "/block-height/" search)
  else None.

(** [key] is [event.key]. *)
Definition searchBarChange (key : option string) (search : string) : option string :=
  if bool_decide (key = Some "Enter"%string) then searchButton search
  else if regHex32 search then Some (String.append "/search/" search)
  else None.

Definition minifyHash (hash : string) : string := concat_all [slice hash 0 1; "..."; slice hash 39 64]%string.
Definition minifyBlockID (hash : string) : string := concat_all [slice hash 0 6; "..."; slice hash 54 64]%string.

(** An array has no negative length. *)
Definition generateRange (start last : Z) : result (list Z) :=
  if last - start + 1 <? 0 then Throw RangeError else Ok (seqZ start (last - start + 1)).

(** [reduce] of an empty array throws. *)
Definition findClosest (haystack : list Z) (needle : Z) : result Z :=
  match haystack with
  | [] => Throw (TypeError "Reduce of empty array with no initial value")
  | a :: haystack => Ok (fold_left (λ a b, if Z.abs (b - needle) <? Z.abs (a - needle) then b else a) haystack a)
  end.

End Common.

(** ** The address of a page and the list of its pages *)
Module Pagination.
Import Common.

(** [w_search] are the pairs of [window.location.search]; [w_total] is the attribute
    [data-total-entries]; [w_width] is the width of the container in pixels; [w_pagination]
    is the list of pages as it was put into the page; [w_loading] says whether the table is
    hidden while it waits. *)
Record window := mkWindow {
  w_pathname : string;
  w_search : list (string * string);
  w_total : Z;
  w_width : Z;
  w_pagination : string;
  w_loading : bool;
}.

Definition with_search l w := mkWindow (w_pathname w) l (w_total w) (w_width w) (w_pagination w) (w_loading w).
Definition with_width n w := mkWindow (w_pathname w) (w_search w) (w_total w) n (w_pagination w) (w_loading w).
Definition with_pagination s w := mkWindow (w_pathname w) (w_search w) (w_total w) (w_width w) s (w_loading w).
Definition with_loading b w := mkWindow (w_pathname w) (w_search w) (w_total w) (w_width w) (w_pagination w) b.

(** *** [state] *)

Definition DEFAULT_PAGE : Z := 1.
Definition DEFAULT_ROWS_PER_PAGE : Z := 100.
Definition DEFAULT_ORDER : string := "desc".

Definition validatePaginationInts (value : option string) (fallback : Z) : Z :=
  match value ≫= parse_int with Some parsedValue => Z.max parsedValue 1 | None => fallback end.

Record parameters := mkParameters { page : Z; humanPage : Z; rows : Z; order : string; start : Z; last : Z }.

(** [v || fallback] *)
Definition or_Z (v : option Z) (fallback : Z) : Z := match v with Some 0 | None => fallback | Some z => z end.

Definition getParameters (w : window) : parameters :=
  let urlParams := w_search w in
  let page := validatePaginationInts (params_get urlParams "page") DEFAULT_PAGE - 1 in
  mkParameters page (page + 1)
    (validatePaginationInts (params_get urlParams "rows") DEFAULT_ROWS_PER_PAGE)
    (match params_get urlParams "order" with None | Some EmptyString => DEFAULT_ORDER | Some o => o end)
    (or_Z (params_get urlParams "start" ≫= parse_int) 0)
    (or_Z (params_get urlParams "end" ≫= parse_int) (w_total w)).

(** A field of an object, which is kept at its place.  Nothing reads the order. *)
Fixpoint set_field (name v : string) (l : list (string * string)) : list (string * string) :=
  match l with
  | [] => [(name, v)]
  | (n, x) :: l => if String.eqb n name then (n, v) :: l else (n, x) :: set_field name v l
  end.
Definition assign (l params : list (string * string)) : list (string * string) := fold_left (λ l p, set_field p.1 p.2 l) params l.

Definition updateParameters (params : list (string * string)) (w : window) : window :=
  with_search (assign (assign [] (w_search w)) params) w.

(** *** [pagination] *)

(** [Math.round] of a quotient *)
Definition round_div (a b : Z) : Z := (2 * a + b) / (2 * b).

(** [None] is [NaN]. *)
Definition determinePaginationSlots (availableWidth lastPage : Z) : option Z :=
  let padding := 2 * 16 in
  let letter := 8 in
  let tier1 := padding + 1 * letter in
  let tier2 := padding + 2 * letter in
  let tier3 := padding + 3 * letter in
  let tier4 := padding + 4 * letter in
  let predictedTier :=
    if (0 <? lastPage) && (lastPage <? 10) then Some tier1
    else if (9 <? lastPage) && (lastPage <? 100) then Some tier2
    else if (99 <? lastPage) && (lastPage <? 1000) then Some tier3
    else if (999 <? lastPage) && (lastPage <=? 10000) then Some tier4
    else None in
  t ← predictedTier; Some (round_div (availableWidth - tier1 - t) t).

Definition generatePaginationRequestRange (w : window) : Z * Z :=
  let p := getParameters w in
  let startPosition := last p - page p * rows p in
  (startPosition, Z.max (startPosition - rows p) (start p)).

Definition generatePaginationRequest (w : window) : list (string * string) :=
  let p := getParameters w in [("page", pretty (page p)); ("take", pretty (rows p))]%string.

(** [parseFloat(value.toPrecision(precision))] of a positive integer: the larger of two that
    are as close *)
Definition to_precision (value precision : Z) : Z :=
  let d := 10 ^ (strlen (pretty value) - precision) in (2 * value + d) / (2 * d) * d.

(** A page that is far away is rounded. *)
Definition rounds (currentIncrement value : Z) : bool := (10 <=? currentIncrement) && negb (strlen (pretty value) - 1 =? 0).
Definition rounded (value : Z) : Z := to_precision value (strlen (pretty value) - 1).

Definition increments_of (slots : option Z) : list Z :=
  match slots with
  | Some slots =>
      if slots <=? 6 then [1; 100; 500; 1000; 2000; 4000]
      else if slots <=? 10 then [1; 10; 50; 100; 500; 1000; 2000; 4000]
      else [1; 2; 10; 50; 100; 500; 1000; 2000; 4000]
  | None => [1; 2; 10; 50; 100; 500; 1000; 2000; 4000]
  end.

(** The pages before the current one, the closest first. *)
Fixpoint pages_before (currentPage : Z) (increments : list Z) (n : nat) : list Z :=
  match n, increments with
  | S n, currentIncrement :: increments =>
      if currentPage - currentIncrement <=? 1 then []
      else
        let value := currentPage - currentIncrement in
        (if rounds currentIncrement value then rounded value else value) :: pages_before currentPage increments n
  | _, _ => []
  end.

(** The pages after it. *)
Fixpoint pages_after (currentPage max : Z) (increments : list Z) (n : nat) : list Z :=
  match n, increments with
  | S n, currentIncrement :: increments =>
      let value := currentPage + currentIncrement in
      if max <? value then []
      else if rounds currentIncrement value then
        let round := rounded value in
        if max <=? round then [] else round :: pages_after currentPage max increments n
      else value :: pages_after currentPage max increments n
  | _, _ => []
  end.

(** [findIndex] and [indexOf] *)
Fixpoint find_index (f : Z → bool) (l : list Z) : Z :=
  match l with
  | [] => -1
  | x :: l => if f x then 0 else let i := find_index f l in if i <? 0 then -1 else 1 + i
  end.

(** [l.slice(i)] *)
Definition slice_from (i : Z) (l : list Z) : list Z := drop (Z.to_nat (if i <? 0 then len l + i else i)) l.

(** The first ten pages in the place of the first of [pageArray]. *)
Definition extended (currentPage : Z) (pageArray : list Z) : list Z :=
  let indexRound := find_index (λ x, x mod 10 =? 0) pageArray in
  let indexPage := find_index (Z.eqb currentPage) pageArray in
  let index :=
    if indexRound <=? 0 then 1
    else if (indexPage <? indexRound) && (10 <? currentPage) then indexPage - 2
    else indexRound in
  let ten := if 0 <=? index then bool_decide (pageArray !! Z.to_nat index = Some 10) else false in
  tail (seqZ 1 9 ++ (if ten then [] else [10]) ++ slice_from index pageArray).

Definition generatePaginationArray (currentPage max : Z) (slots : option Z) : list Z :=
  if match slots with Some slots => max <? slots | None => false end then seqZ 2 (max - 1)
  else
    let increments := increments_of slots in
    let half := match slots with Some slots => Z.to_nat (slots / 2) | None => O end in
    let pageArray := rev (pages_before currentPage increments half) in
    let pageArray := if currentPage =? 1 then pageArray else pageArray ++ [currentPage] in
    let remainingSlots := match slots with Some slots => Z.to_nat (slots - len pageArray) | None => O end in
    let pageArray := pageArray ++ pages_after currentPage max increments remainingSlots in
    let pageArray := if currentPage =? max then removelast pageArray else pageArray in
    if (max <? 50000) && match slots with Some slots => 10 <? slots - len pageArray | None => false end then extended currentPage pageArray
    else pageArray.

(** [Math.ceil(totalEntries / rows)] *)
Definition last_page (totalEntries rows : Z) : Z := - ((- totalEntries) / rows).

Definition generatePaginationUIParams (w : window) : option (Z * list Z) :=
  let p := getParameters w in
  let lastPage := last_page (w_total w) (rows p) in
  if lastPage =? 1 then None
  else
    let slots := determinePaginationSlots (w_width w) lastPage in
    let pageArray := 1 :: generatePaginationArray (humanPage p) lastPage slots in
    Some (humanPage p, if bool_decide (list.last pageArray = Some lastPage) then pageArray else pageArray ++ [lastPage]).

Definition page_item (path : string) (currentPage number : Z) : string :=
  let n := pretty number in
  if number =? currentPage then concat_all [h "<a class='item active'>"; n; "</a>"]%string
  else concat_all [h "<a class='item' href='"; path; "?page="; n; h "' onclick='goToPage(event, "; n; h ")'>"; n; "</a>"]%string.

(** Without a list of pages nothing is changed. *)
Definition generatePaginationUI (ui : option (Z * list Z)) (w : window) : window :=
  match ui with
  | None => w
  | Some (currentPage, pageArray) =>
      with_pagination (concat_all [h "<div class='ui pagination menu'>"; concat_all (map (page_item (w_pathname w) currentPage) pageArray); "</div>"]%string) w
  end.

(** What the scripts of a page do besides. *)
Inductive effect := Load (url : string) | PageLength (rows : Z) | DrawPage (page : Z) | Rebuild (table : string).

End Pagination.

(** ** Rows and tables *)
Module Tables.
Import Common.

(** What the server sends of a transaction; [blockHeight] is [None] where it is [null]. *)
Record tx_stats := mkStats { satsInput : Z; satsOutput : Z; deltaSats : Z; deltaTokens : Z; tokenOutput : Z }.
Record token := mkToken { tokenId : string; tokenTicker : string; decimals : Z }.
Record tx_row := mkRow {
  txHash : string;
  blockHeight : option Z;
  timestamp : Z;
  isCoinbase : bool;
  size : Z;
  numInputs : Z;
  numOutputs : Z;
  stats : tx_stats;
  row_token : option token;
}.

(** What it sends of a block. *)
Record block_row := mkBlock { hash : string; height : Z; block_timestamp : Z; difficulty : number; block_size : Z; numTxs : Z }.

(** A column of a table: the field or the fields that it reads, and what it shows. *)
Record column (row : Type) := mkColumn {
  c_name : option string;
  c_data : list string;
  c_title : option string;
  c_className : option string;
  c_orderable : bool;
  c_orderSequence : list string;
  c_render : row → result string;
}.
Arguments mkColumn {row}.
Arguments c_render {row}.

Record table (row : Type) := mkTable {
  t_dom : string;
  t_buttons : list (string * string);
  t_searching : bool;
  t_lengthMenu : list Z;
  t_pageLength : Z;
  t_ajax : option string;
  t_order : list (Z * string);
  t_columns : list (column row);
}.
Arguments mkTable {row}.

Definition desc_asc : list string := ["desc"; "asc"]%string.

(** [null] is [0] as a number and the text [null]. *)
Definition height_text (h : option Z) : string := match h with Some n => pretty n | None => "null" end.
Definition height_number (h : option Z) : number := num_of_Z (default 0 h).

Section S.
Context `{PT : !PageTexts}.

Definition renderFeePerByte (row : tx_row) : string :=
  if isCoinbase row then EmptyString
  else
    let fee := num_sub (num_of_Z (satsInput (stats row))) (num_of_Z (satsOutput (stats row))) in
    let feePerByte := num_div fee (num_of_Z (size row)) in
    String.append (renderInteger (num_round (num_mul feePerByte (num_of_Z 1000)))) "/kB".

(** [space] is what stands before the bracket: the two pages differ in it. *)
Definition renderFee (space : string) (row : tx_row) : string :=
  if isCoinbase row then h "<div class='ui green horizontal label'>Coinbase</div>"
  else
    let fee := renderInteger (num_div (num_sub (num_of_Z (satsInput (stats row))) (num_of_Z (satsOutput (stats row)))) (num_of_Z 100)) in
    concat_all ["<span>"; fee; "</span>"; h "<span class='fee-per-byte'>"; space; "("; renderFeePerByte row; ")</span>"]%string.

Definition tx_link (row : tx_row) (text : string) : string :=
  concat_all [if bool_decide (blockHeight row = Some 0) then h "<a style='color:#CD0BC3' href='/tx/" else h "<a href='/tx/"; txHash row; h "'>"; text; "</a>"]%string.

End S.
End Tables.

(** ** [blocks.js] *)
Module BlocksPage.
Import Common Pagination Tables.

Section S.
Context `{PT : !PageTexts}.

Definition renderInt (number : number) : string :=
  let parts := split_on "," (format_en number) in
  String.append (concat_all (map (λ p, concat_all [h "<span class='digit-sep'>"; p; "</span>"]) (removelast parts)))
    (concat_all ["<span>"; List.last parts EmptyString; "</span>"])%string.

Definition renderAge (timestamp : Z) : string := moment_fromNow (num_of_Z (timestamp * 1000)).
Definition renderTemplate (height : Z) : string :=
  concat_all [h "<a href='/block-height/"; pretty height; h "'>"; renderInt (num_of_Z height); "</a>"]%string.

(** [responsiveHidden] is what the table says of its column 4. *)
Definition renderHash (responsiveHidden : bool) (hash : string) : string :=
  let isHidden := negb responsiveHidden in
  let minifiedHash := minifyHash hash in
  let minifiedHash := if isHidden then String.append "0..." (str_slice minifiedHash (strlen minifiedHash - 6)) else minifiedHash in
  concat_all [h "<a href='/block/"; hash; h "'>"; minifiedHash; "</a>"]%string.

Definition renderNumtTxs (numTxs : Z) : string := renderInt (num_of_Z numTxs).

Definition renderSize (size : Z) : string :=
  if size <? 1024 then String.append (pretty size) " B"
  else if size <? 1024 * 1024 then String.append (num_toFixed (num_div (num_of_Z size) (num_of_Z 1000)) 2) " kB"
  else String.append (num_toFixed (num_div (num_of_Z size) (num_of_Z 1000000)) 2) " MB".

Definition renderDifficulty (difficulty : number) : string :=
  let estHashrate := num_div (num_mul difficulty (num_of_Z 0xffffffff)) (num_of_Z 600) in
  let fixed e := num_toFixed (num_div estHashrate (num_of_Z (10 ^ e))) 2 in
  if num_ltb estHashrate (num_of_Z (10 ^ 12)) then String.append (fixed 9) " GH/s"
  else if num_ltb estHashrate (num_of_Z (10 ^ 15)) then String.append (fixed 12) " TH/s"
  else if num_ltb estHashrate (num_of_Z (10 ^ 18)) then String.append (fixed 15) " PH/s"
  else String.append (fixed 18) " EH/s".

Definition renderTimestamp (timestamp : Z) : string := moment_format (num_of_Z (timestamp * 1000)) "ll, LTS".

(** The heading of the column of the date *)
Definition date_heading (offset : Z) : string := concat_all ["Date ("; tzOffset offset; ")"]%string.

Definition dataTable (responsiveHidden : bool) : table block_row :=
  mkTable EmptyString [] false [50; 100; 250; 500; 1000] DEFAULT_ROWS_PER_PAGE None [(0, "desc"%string)]
    [ mkColumn None ["height"%string] None None true desc_asc (λ r, Ok (renderTemplate (height r)));
      mkColumn None ["hash"%string] None (Some "hash"%string) false [] (λ r, Ok (renderHash responsiveHidden (hash r)));
      mkColumn None ["numTxs"%string] None (Some "text-right"%string) true desc_asc (λ r, Ok (renderNumtTxs (numTxs r)));
      mkColumn (Some "age"%string) ["timestamp"%string] None (Some "text-right"%string) false [] (λ r, Ok (renderAge (block_timestamp r)));
      mkColumn None ["difficulty"%string] None (Some "text-right"%string) false [] (λ r, Ok (renderDifficulty (difficulty r)));
      mkColumn None ["size"%string] None (Some "text-right"%string) false [] (λ r, Ok (renderSize (block_size r)));
      mkColumn (Some "responsive"%string) [] None None true [] (λ _, Ok EmptyString) ].

End S.

Definition updateLoading (status : bool) (w : window) : window := with_loading status w.

Definition updateTable (startPosition endPosition : Z) (w : window) : window * list effect :=
  (updateLoading true w, [Load (concat_all ["/api/blocks/"; pretty endPosition; "/"; pretty startPosition]%string)]).

Definition reRenderPage (params : option (list (string * string))) (w : window) : window * list effect :=
  let w := match params with Some params => updateParameters params w | None => w end in
  let '(startPosition, endPosition) := generatePaginationRequestRange w in
  let '(w, effects) := updateTable startPosition endPosition w in
  (generatePaginationUI (generatePaginationUIParams w) w, effects).

Inductive event := Ready | GoToPage (page : Z) | Resize (width : Z) | Length (rows : Z) | Loaded.

Definition step (e : event) (w : window) : window * list effect :=
  match e with
  | Ready =>
      let len := PageLength (rows (getParameters w)) in
      let '(w, effects) := reRenderPage None w in (w, len :: effects)
  | GoToPage page => reRenderPage (Some [("page"%string, pretty page)]) w
  | Resize width =>
      let w := with_width width w in
      (generatePaginationUI (generatePaginationUIParams w) w, [Rebuild "#blocks-table"%string])
  | Length rows' => if rows (getParameters w) =? rows' then (w, []) else reRenderPage (Some [("rows"%string, pretty rows')]) w
  | Loaded => (updateLoading false w, [])
  end.

End BlocksPage.

(** ** [txs.js] *)
Module TxsPage.
Import Common Pagination Tables.

Definition xecDate : Z := 1605441600.
Definition bchDate : Z := 1502193600.

Section S.
Context `{PT : !PageTexts}.

Definition renderHash (row : tx_row) : string := tx_link row (minifyBlockID (txHash row)).
Definition renderSize (size : Z) : string := formatByteSize size.

(** [now] is [Date.now()]. *)
Definition fiveYearsAgo (now : Z) : number := num_sub (num_div (num_of_Z now) (num_of_Z 1000)) (num_of_Z 157800000).

Definition age_icon (image line1 line2 : string) : string :=
  concat_all [h "<div class='age-icon'><img src='/assets/"; image; h "' /><span>"; line1; "<br />"; line2; "</span></div>"]%string.

Definition renderInput (now : Z) (row : tx_row) : string :=
  let txDate := timestamp row in
  let xecIcon := if txDate <? xecDate then age_icon "pre-ecash-icon.png" "Pre-XEC" "(Nov 15, 2020)" else EmptyString in
  let bchIcon := if txDate <? bchDate then age_icon "pre-bch-icon.png" "Pre-BCH" "(Aug 8, 2017)" else EmptyString in
  let fiveIcon := if num_ltb (num_of_Z txDate) (fiveYearsAgo now) then age_icon "five-years-icon.png" "Over Five" "Years Old" else EmptyString in
  concat_all [h "<div class='age-icons-ctn'>"; xecIcon; fiveIcon; bchIcon; h "<div class='input-margin'>"; pretty (numInputs row); "</div></div>"]%string.

Definition renderOutput (row : tx_row) : result string :=
  match row_token row with
  | Some t =>
      let ticker := concat_all [h " <a href='/tx/"; txHash row; h "'>"; tokenTicker t; "</a>"]%string in
      a ← renderAmount (num_of_Z (tokenOutput (stats row))) (Some (decimals t)); Ok (String.append a ticker)
  | None => Ok (String.append (renderSats (num_of_Z (satsOutput (stats row)))) " XEC")
  end.

Definition datatable (now : Z) (blockHash : string) : table tx_row :=
  mkTable EmptyString [] false [50; 100; 250; 500; 1000] DEFAULT_ROWS_PER_PAGE (Some (concat_all ["/api/block/"; blockHash; "/transactions"]%string)) []
    [ mkColumn None ["txHash"; "blockHeight"]%string (Some "ID"%string) (Some "hash"%string) false [] (λ r, Ok (renderHash r));
      mkColumn None ["size"]%string (Some "Size"%string) (Some "text-right"%string) true desc_asc (λ r, Ok (renderSize (size r)));
      mkColumn (Some "fee"%string) [] (Some "Fee"%string) (Some "text-right"%string) true desc_asc (λ r, Ok (renderFee EmptyString r));
      mkColumn None ["numInputs"]%string (Some "Inputs"%string) (Some "text-right"%string) true desc_asc (λ r, Ok (renderInput now r));
      mkColumn None ["numOutputs"]%string (Some "Outputs"%string) (Some "text-right"%string) true desc_asc (λ r, Ok (pretty (numOutputs r)));
      mkColumn None ["satsOutput"]%string (Some "Output Amount"%string) (Some "text-right"%string) true desc_asc renderOutput;
      mkColumn (Some "responsive"%string) [] None None true [] (λ _, Ok EmptyString) ].

End S.

Definition updateLoading (status : bool) (w : window) : window := with_loading status w.

(** [page] is [params.page]. *)
Definition reRenderPage (params : option (list (string * string))) (page : option Z) (w : window) : window * list effect :=
  let '(w, effects) :=
    match params with
    | Some params => (updateParameters params w, match page with Some p => if p =? 0 then [] else [DrawPage p] | None => [] end)
    | None => (w, [])
    end in
  (generatePaginationUI (generatePaginationUIParams w) w, effects).

Inductive event := Ready | GoToPage (page : Z) | Resize (width : Z) | Length (rows : Z) | Loaded.

Definition step (e : event) (w : window) : window * list effect :=
  match e with
  | Ready =>
      let len := PageLength (rows (getParameters w)) in
      let '(w, effects) := reRenderPage None None w in (w, len :: effects)
  | GoToPage page => reRenderPage (Some [("page"%string, pretty page)]) (Some page) w
  | Resize width =>
      let w := with_width width w in
      (generatePaginationUI (generatePaginationUIParams w) w, [Rebuild "#blocks-table"%string])
  | Length rows' => if rows (getParameters w) =? rows' then (w, []) else reRenderPage (Some [("rows"%string, pretty rows')]) None w
  | Loaded => (updateLoading false w, [])
  end.

End TxsPage.

(** ** [address.js] *)
Module AddressPage.
Import Common Pagination Tables.

(** [window.location.pathname.split('/')[2]]; [None] is [undefined]. *)
Definition getAddress (w : window) : option string := split_on "/" (w_pathname w) !! 2%nat.
Definition address_text (w : window) : string := default "undefined"%string (getAddress w).

(** An output of the address, and what the page knows of it and of the tokens there. *)
Record coin := mkCoin { coin_txHash : string; outIdx : Z; satsAmount : Z; tokenAmount : Z; coin_isCoinbase : bool; coin_blockHeight : Z }.
Record balance := mkBalance { utxos : list coin; balance_token : option token }.

Section S.
Context `{PT : !PageTexts}.

Definition renderTxHashCoins (row : coin) : string :=
  concat_all [h "<a href='/tx/"; coin_txHash row; h "'>"; minifyBlockID (coin_txHash row); ":"; pretty (outIdx row);
    if coin_isCoinbase row then h "<div class='ui green horizontal label cointable-coinbase'>Coinbase</div>" else EmptyString; "</a>"]%string.

(** The row up to its amount. *)
Definition coin_row (row : coin) (amount : string) : string :=
  concat_all [h "<div class='coin-row'>"; "<div>"; renderTxHashCoins row; "</div>"; "<div>"; h "<a href='/block-height/"; pretty (coin_blockHeight row); h "'>";
    renderInteger (num_of_Z (coin_blockHeight row)); "</a>"; "</div>"; "<div>"; amount; "</div>"; "</div>"]%string.

(** [token] is [Some (decimals, ticker)] where [type] is ['token']. *)
Definition renderRowsCoins (row : coin) (token : option (option Z * option string)) : result string :=
  match token with
  | Some (decimals, ticker) =>
      a ← renderAmount (num_of_Z (tokenAmount row)) decimals;
      Ok (coin_row row (concat_all [a; " "; default "undefined" ticker]%string))
  | None => Ok (coin_row row (concat_all [renderSats (num_of_Z (satsAmount row)); " XEC"]%string))
  end.

End S.

(** *** The table of coins *)

Record button := mkButton { b_active : bool; b_value : Z; b_label : string }.

(** What is in the page. *)
Record coins := mkCoins { shown : list string; buttons : list button }.

Definition numberPerPage : Z := 10.
Definition numberOfPages (listArray : list string) : Z := - ((- len listArray) / numberPerPage).

Definition number_button (active : bool) (i : Z) : button := mkButton active i (pretty (i + 1)).

Definition buildPagination (listArray : list string) (currPageNum : Z) : list button :=
  let n := numberOfPages listArray in
  if 3 <=? n then
    if currPageNum =? 0 then
      [mkButton false 0 "&#171;"; number_button true currPageNum; number_button false (currPageNum + 1); number_button false (currPageNum + 2); mkButton false (n - 1) "&#187;"]%string
    else if currPageNum =? n - 1 then
      [mkButton false 0 "&#171;"; number_button false (currPageNum - 2); number_button false (currPageNum - 1); number_button true currPageNum; mkButton false (n - 1) "&#187;"]%string
    else
      [mkButton false 0 "&#171;"; number_button false (currPageNum - 1); number_button true currPageNum; number_button false (currPageNum + 1); mkButton false (n - 1) "&#187;"]%string
  else map (λ i, number_button (i =? currPageNum) i) (seqZ 0 n).

(** [listArray.slice(trimStart, trimEnd)] *)
Definition buildPage (listArray : list string) (currPage : Z) : list string :=
  let trimStart := currPage * numberPerPage in
  take (Z.to_nat numberPerPage) (drop (Z.to_nat trimStart) listArray).

Definition show_page (listArray : list string) (page : Z) : coins := mkCoins (buildPage listArray page) (buildPagination listArray page).

(** Loading the table, again each time that it is opened. *)
Definition loadSatsTable (listArray : list string) : coins := show_page listArray 0.

(** A click on the [i]-th button. *)
Definition click_button (listArray : list string) (i : nat) (c : coins) : option coins :=
  b ← buttons c !! i; Some (show_page listArray (b_value b)).

Section S.
Context `{PT : !PageTexts}.

Fixpoint map_result {A B} (f : A → result B) (l : list A) : result (list B) :=
  match l with
  | [] => Ok []
  | x :: l => y ← f x; ys ← map_result f l; Ok (y :: ys)
  end.

(** The rows of the table of coins *)
Definition listArray (main : balance) : result (list string) := map_result (λ row, renderRowsCoins row None) (utxos main).

(** The rows that are added until one throws. *)
Fixpoint append_rows {A} (f : A → result string) (l : list A) : list string * result unit :=
  match l with
  | [] => ([], Ok tt)
  | x :: l => match f x with Ok y => let '(ys, r) := append_rows f l in (y :: ys, r) | Throw e => ([], Throw e) end
  end.

(** Whether the table of a token was loaded, and the rows that are added to it. *)
Definition loadTokenTable (isTokenTableLoaded : bool) (b : balance) : bool * list string * result unit :=
  if isTokenTableLoaded then (true, [], Ok tt)
  else
    let '(rows, r) := append_rows (λ row, renderRowsCoins row (Some (option_map decimals (balance_token b), option_map tokenTicker (balance_token b)))) (utxos b) in
    (is_ok r, rows, r).

(** *** The table of transactions *)

Definition mempool_label : string := h "<div class='ui gray horizontal label'>Mempool</div>".
Definition renderAge (timestamp : Z) : string := if timestamp =? 0 then mempool_label else moment_fromNow (num_of_Z (timestamp * 1000)).
Definition renderTimestamp (timestamp : Z) : string := if timestamp =? 0 then mempool_label else moment_format (num_of_Z (timestamp * 1000)) "ll, LTS".

Definition renderTxID (data : tx_row) : string := tx_link data (renderTxHash (txHash data)).

Definition unconfirmed_label : string := h "<div class='ui red horizontal label'>Unconfirmed</div>".
Definition renderBlockHeight (row : tx_row) : string :=
  if bool_decide (blockHeight row = Some 0) then unconfirmed_label
  else concat_all [h "<a href='/block-height/"; height_text (blockHeight row); h "'>"; renderInteger (height_number (blockHeight row)); "</a>"]%string.

Definition renderSize (size : Z) : string := formatByteSize size.

Definition renderAmountXEC (row : tx_row) : string :=
  if deltaSats (stats row) <? 0 then concat_all ["<span>"; renderSats (num_of_Z (deltaSats (stats row))); " XEC</span>"]%string
  else concat_all [h "<span style='color:#15ee3e'>+"; renderSats (num_of_Z (deltaSats (stats row))); " XEC</span>"]%string.

Definition renderToken (row : tx_row) : result string :=
  match row_token row with
  | Some t =>
      let ticker := concat_all [h " <a href='/tx/"; tokenId t; h "'>"; tokenTicker t; "</a>"]%string in
      a ← renderAmount (num_of_Z (deltaTokens (stats row))) (Some (decimals t)); Ok (String.append a ticker)
  | None => Ok EmptyString
  end.

Definition datatable (offset : Z) (w : window) : table tx_row :=
  mkTable "Bfrtip" [("csv", "Export to CSV")]%string false [50; 100; 200] DEFAULT_ROWS_PER_PAGE (Some (concat_all ["/api/address/"; address_text w; "/transactions"]%string)) []
    [ mkColumn (Some "age"%string) ["timestamp"]%string (Some "Age"%string) None true desc_asc (λ r, Ok (renderAge (timestamp r)));
      mkColumn (Some "timestamp"%string) ["timestamp"]%string (Some (concat_all ["Date (UTC"; tzOffset offset; ")"]%string)) None true desc_asc (λ r, Ok (renderTimestamp (timestamp r)));
      mkColumn (Some "txHash"%string) ["txHash"; "blockHeight"]%string (Some "Transaction ID"%string) (Some "hash"%string) false [] (λ r, Ok (renderTxID r));
      mkColumn (Some "blockHeight"%string) [] (Some "Block Height"%string) None true desc_asc (λ r, Ok (renderBlockHeight r));
      mkColumn (Some "size"%string) ["size"]%string (Some "Size"%string) None true desc_asc (λ r, Ok (renderSize (size r)));
      mkColumn (Some "fee"%string) [] (Some "Fee"%string) (Some "fee"%string) true desc_asc (λ r, Ok (renderFee "&nbsp"%string r));
      mkColumn (Some "numInputs"%string) ["numInputs"]%string (Some "Inputs"%string) None true desc_asc (λ r, Ok (pretty (numInputs r)));
      mkColumn (Some "numOutputs"%string) ["numOutputs"]%string (Some "Outputs"%string) None true desc_asc (λ r, Ok (pretty (numOutputs r)));
      mkColumn (Some "deltaSats"%string) ["deltaSats"]%string (Some "Amount"%string) (Some "text-right"%string) true desc_asc (λ r, Ok (renderAmountXEC r));
      mkColumn (Some "token"%string) [] (Some "Amount Token"%string) None true [] renderToken;
      mkColumn (Some "responsive"%string) [] None None true [] (λ _, Ok EmptyString) ].

End S.

Definition updateTableLoading (isLoading : bool) (w : window) : window := with_loading isLoading w.

(** [new URLSearchParams(request).toString()] of names and numbers *)
Definition query_text (request : list (string * string)) : string :=
  concat_all (tail (concat (map (λ p, ["&"%string; concat_all [p.1; "="%string; p.2]]) request))).

Definition updateTable (paginationRequest : list (string * string)) (w : window) : window * list effect :=
  (updateTableLoading true w, [Load (concat_all ["/api/address/"; address_text w; "/transactions?"; query_text paginationRequest]%string)]).

Definition reRenderPage (params : option (list (string * string))) (w : window) : window * list effect :=
  let w := match params with Some params => updateParameters params w | None => w end in
  let '(w, effects) := updateTable (generatePaginationRequest w) w in
  (generatePaginationUI (generatePaginationUIParams w) w, effects).

Inductive event := Ready | GoToPage (page : Z) | Length (value : string) | Loaded.

Definition step (e : event) (w : window) : window * list effect :=
  match e with
  | Ready => reRenderPage None w
  | GoToPage page => reRenderPage (Some [("page"%string, pretty page)]) w
  | Length value => reRenderPage (Some [("rows", value); ("page", pretty 1)]%string) w
  | Loaded => (updateTableLoading false w, [])
  end.

End AddressPage.
