(* ===== verification/ExplorerLaws.v ===== *)
(** * What the pages of the block explorer show

    The list of pages that is offered for a long list, the ranges of blocks that are asked
    for, the table of the coins of an address, and what is shown of transactions. *)

From stdpp Require Import base tactics list numbers strings pretty sorting.
From Stdlib Require Import Ascii SpecFloat.
From S2P Require Import Prelude JsNumber JsFloat NodeBuffer Encodings JsString JsDecimal JsText BigNumber Validation Explorer.
Import Common Pagination.
Open Scope Z_scope.

Module ExplorerLaws.

(** ** Rounding *)

Lemma pretty_length (n : Z) : 0 <= n → if n <? 10 then strlen (pretty n) = 1 else 2 <= strlen (pretty n).
Proof.
  intros Hn. destruct n as [|p|p]; [done| |lia]. change (pretty (Zpos p)) with (pretty (Npos p)). unfold pretty, pretty_N. rewrite decide_False by done.
  rewrite pretty_N_go_step by lia. destruct (Z.ltb_spec (Zpos p) 10) as [Hp|Hp].
  - rewrite (N.div_small (Npos p) 10), pretty_N_go_0 by lia. done.
  - rewrite pretty_N_go_step by (apply N.div_str_pos; lia).
    assert (H : ∀ n s, strlen s <= strlen (pretty_N_go n s)).
    { clear. intros n. induction (N.lt_wf_0 n) as [n _ IH]. intros s. destruct (decide (n = 0)%N) as [->|Hn]; [by rewrite pretty_N_go_0|].
      rewrite pretty_N_go_step by lia. etrans; [|apply IH, N.div_lt; lia]. unfold strlen. cbn [String.length]. lia. }
    etrans; [|apply H]. unfold strlen. cbn [String.length]. lia.
Qed.

(** The entry of a page that is [inc] away. *)
Definition entry (inc v : Z) : Z := if rounds inc v then rounded v else v.

Lemma entry_spec inc v : 2 <= v → if (10 <=? inc) && (10 <=? v) then entry inc v = 10 * ((v + 5) / 10) else entry inc v = v.
Proof.
  intros Hv. unfold entry, rounds. destruct (Z.leb_spec 10 inc) as [Hi|Hi]; cbn [andb]; [|done]. pose proof (pretty_length v ltac:(lia)) as Hl. destruct (Z.leb_spec 10 v) as [H10|H10].
  - rewrite (proj2 (Z.ltb_ge v 10)) in Hl by lia. rewrite (proj2 (Z.eqb_neq _ 0)) by lia. cbn [negb]. unfold rounded, to_precision.
    replace (strlen (pretty v) - (strlen (pretty v) - 1)) with 1 by lia. change (10 ^ 1) with 10. change (2 * 10) with 20. rewrite Z.mul_comm. f_equal.
    replace (2 * v + 10) with (2 * (v + 5)) by lia. replace 20 with (2 * 10) by lia. by rewrite Z.div_mul_cancel_l.
  - rewrite (proj2 (Z.ltb_lt v 10)) in Hl by lia. rewrite Hl. done.
Qed.

Definition slack (inc : Z) : Z := if inc <? 10 then 0 else 5.

Lemma entry_near inc v : 2 <= v → 2 <= entry inc v ∧ v - slack inc <= entry inc v <= v + slack inc.
Proof.
  intros Hv. pose proof (entry_spec inc v Hv) as E. unfold slack. pose proof (Z_div_mod_eq_full (v + 5) 10). pose proof (Z.mod_pos_bound (v + 5) 10 ltac:(lia)).
  destruct (Z.leb_spec 10 inc), (Z.leb_spec 10 v); cbn [andb] in E; rewrite E; (destruct (Z.ltb_spec inc 10); [|]); lia.
Qed.

Lemma entry_round inc v : 10 <= inc → 2 <= v → entry inc v < 10 ∧ entry inc v = v ∧ v < 10 ∨ 10 <= entry inc v ∧ entry inc v mod 10 = 0 ∧ 10 <= v.
Proof.
  intros Hi Hv. pose proof (entry_spec inc v Hv) as E. rewrite (proj2 (Z.leb_le 10 inc)) in E by lia. cbn [andb] in E. pose proof (Z_div_mod_eq_full (v + 5) 10). pose proof (Z.mod_pos_bound (v + 5) 10 ltac:(lia)).
  destruct (Z.leb_spec 10 v); rewrite E; [right|left; lia]. rewrite Z.mul_comm, Z.mod_mul by lia. lia.
Qed.

(** ** The pages before and after *)

(** Increments whose entries do not meet. *)
Inductive spread : Z → list Z → Prop :=
| spread_nil a : spread a []
| spread_cons a b l : a + slack a + slack b < b → spread b l → spread a (b :: l).

Lemma spread_increments slots : spread 0 (increments_of slots).
Proof. unfold increments_of. destruct slots as [s|]; [destruct (s <=? 6); [|destruct (s <=? 10)]|]; repeat (constructor; [reflexivity|]); constructor. Qed.

Lemma before_cons cp inc l n : pages_before cp (inc :: l) (S n) = if cp - inc <=? 1 then [] else entry inc (cp - inc) :: pages_before cp l n.
Proof. done. Qed.

Lemma after_cons cp max inc l n : 1 <= cp → 0 < inc → pages_after cp max (inc :: l) (S n) =
  if (max <? cp + inc) || rounds inc (cp + inc) && (max <=? entry inc (cp + inc)) then [] else entry inc (cp + inc) :: pages_after cp max l n.
Proof. intros Hc Hi. cbn [pages_after]. unfold entry. destruct (max <? cp + inc); cbn [orb]; [done|]. by destruct (rounds inc (cp + inc)). Qed.

Lemma before_sorted cp a l n : spread a l → Forall (λ x, 2 <= x < cp - a - slack a) (pages_before cp l n) ∧ StronglySorted Z.lt (rev (pages_before cp l n)).
Proof.
  revert a n. induction l as [|b l IH]; intros a [|n] Hs; try (split; constructor). inversion Hs as [|? ? ? Hb Hl]; subst. rewrite before_cons. destruct (Z.leb_spec (cp - b) 1) as [|H1]; [split; constructor|].
  destruct (IH b n Hl) as [F S]. pose proof (entry_near b (cp - b) ltac:(lia)) as [He1 He2]. split.
  - constructor; [lia|]. eapply Forall_impl; [exact F|]. intros x Hx. cbn in Hx. unfold slack in *. repeat destruct (_ <? 10); lia.
  - cbn [rev]. apply StronglySorted_app_2; [|done|repeat constructor]. intros x y Hx ->%list_elem_of_singleton. rewrite list_elem_of_In, <- in_rev, <- list_elem_of_In in Hx. rewrite Forall_forall in F. specialize (F x Hx). cbn in F. lia.
Qed.

Lemma after_sorted cp max a l n : 1 <= cp → 0 <= a → spread a l → Forall (λ x, cp + a + slack a < x <= max) (pages_after cp max l n) ∧ StronglySorted Z.lt (pages_after cp max l n).
Proof.
  intros Hc. revert a n. induction l as [|b l IH]; intros a [|n] Ha Hs; try (split; constructor). inversion Hs as [|? ? ? Hb Hl]; subst.
  assert (Hb0 : 0 < b) by (unfold slack in *; repeat destruct (_ <? 10); lia). rewrite after_cons by done.
  destruct (Z.ltb_spec max (cp + b)) as [|Hm]; cbn [orb]; [split; constructor|]. pose proof (entry_near b (cp + b) ltac:(lia)) as [He1 He2].
  assert (Hle : rounds b (cp + b) && (max <=? entry b (cp + b)) = false → entry b (cp + b) <= max).
  { destruct (rounds b (cp + b)) eqn:Er; cbn [andb]; [intros H%Z.leb_gt; lia|intros _; unfold entry; by rewrite Er]. }
  destruct (rounds _ _ && _); [split; constructor|]. specialize (Hle eq_refl). destruct (IH b n ltac:(lia) Hl) as [F S]. split.
  - constructor; [lia|]. eapply Forall_impl; [exact F|]. intros x Hx. cbn in Hx. unfold slack in *. repeat destruct (_ <? 10); lia.
  - constructor; [done|]. eapply Forall_impl; [exact F|]. intros x Hx. cbn in Hx. lia.
Qed.

(** ** The list without its extension *)

Definition half (slots : option Z) : nat := match slots with Some slots => Z.to_nat (slots / 2) | None => O end.
Definition before (cp : Z) (slots : option Z) : list Z := pages_before cp (increments_of slots) (half slots).
Definition upto (cp : Z) (slots : option Z) : list Z := if cp =? 1 then rev (before cp slots) else rev (before cp slots) ++ [cp].
Definition after (cp max : Z) (slots : option Z) : list Z :=
  pages_after cp max (increments_of slots) (match slots with Some n => Z.to_nat (n - len (upto cp slots)) | None => O end).
Definition near (cp max : Z) (slots : option Z) : list Z :=
  let l := upto cp slots ++ after cp max slots in if cp =? max then removelast l else l.

Lemma array_cases cp max slots : generatePaginationArray cp max slots =
  if match slots with Some n => max <? n | None => false end then seqZ 2 (max - 1)
  else if (max <? 50000) && match slots with Some n => 10 <? n - len (near cp max slots) | None => false end then extended cp (near cp max slots)
  else near cp max slots.
Proof. done. Qed.

Lemma before_in cp slots : Forall (λ x, 2 <= x < cp) (before cp slots) ∧ StronglySorted Z.lt (rev (before cp slots)).
Proof.
  destruct (before_sorted cp 0 _ (half slots) (spread_increments slots)) as [F S]. split; [|exact S]. eapply Forall_impl; [exact F|]. intros x Hx. cbn in Hx. lia.
Qed.

Lemma after_in cp max slots : 1 <= cp → Forall (λ x, cp < x <= max) (after cp max slots) ∧ StronglySorted Z.lt (after cp max slots).
Proof.
  intros Hc. destruct (after_sorted cp max 0 _ (match slots with Some n => Z.to_nat (n - len (upto cp slots)) | None => O end) Hc ltac:(lia) (spread_increments slots)) as [F S].
  split; [|exact S]. eapply Forall_impl; [exact F|]. intros x Hx. cbn in Hx. lia.
Qed.

Lemma after_max cp slots : 1 <= cp → after cp cp slots = [].
Proof. intros Hc. destruct (after_in cp cp slots Hc) as [F _]. destruct (after cp cp slots) as [|x l]; [done|]. apply Forall_cons in F as [? _]. lia. Qed.

(** The pages at hand: those before, the current one unless it is the first or the last, and
    those after. *)
Lemma near_eq cp max slots : 1 <= cp <= max → near cp max slots = rev (before cp slots) ++ (if (cp =? 1) || (cp =? max) then [] else [cp]) ++ after cp max slots.
Proof.
  intros Hc. unfold near, upto. cbv zeta. destruct (Z.eqb_spec cp max) as [<-|Hm]; destruct (Z.eqb_spec cp 1) as [->|H1]; cbn [orb]; rewrite ?after_max, ?app_nil_r by lia; rewrite <- ?app_assoc; try done.
  - destruct (before_in 1 slots) as [F _]. destruct (before 1 slots) as [|x l]; [done|]. apply Forall_cons in F as [? _]. lia.
  - apply removelast_last.
Qed.

Lemma near_sorted cp max slots : 1 <= cp <= max → Forall (λ x, 2 <= x <= max) (near cp max slots) ∧ StronglySorted Z.lt (near cp max slots) ∧ (1 < cp < max → cp ∈ near cp max slots).
Proof.
  intros Hc. rewrite near_eq by done. destruct (before_in cp slots) as [Fb Sb], (after_in cp max slots ltac:(lia)) as [Fa Sa]. set (M := if _ || _ then [] else [cp]).
  assert (HM : Forall (λ x, x = cp ∧ 2 <= x) M) by (subst M; destruct (Z.eqb_spec cp 1), (_ =? max); cbn; repeat constructor; lia).
  assert (SM : StronglySorted Z.lt M) by (subst M; destruct (_ || _); repeat constructor). rewrite Forall_forall in Fb, Fa, HM. split_and!.
  - rewrite Forall_forall. intros x [Hx|[Hx|Hx]%elem_of_app]%elem_of_app.
    + rewrite list_elem_of_In, <- in_rev, <- list_elem_of_In in Hx. specialize (Fb x Hx). cbn in Fb. lia.
    + destruct (HM x Hx). lia.
    + specialize (Fa x Hx). cbn in Fa. lia.
  - apply StronglySorted_app_2; [|done|apply StronglySorted_app_2; [|done|done]].
    + intros x y Hx Hy. rewrite list_elem_of_In, <- in_rev, <- list_elem_of_In in Hx. specialize (Fb x Hx). cbn in Fb. apply elem_of_app in Hy as [Hy|Hy]; [destruct (HM y Hy); lia|specialize (Fa y Hy); cbn in Fa; lia].
    + intros x y Hx Hy. destruct (HM x Hx). specialize (Fa y Hy). cbn in Fa. lia.
  - intros H1. subst M. rewrite (proj2 (Z.eqb_neq cp 1)), (proj2 (Z.eqb_neq cp max)) by lia. cbn [orb]. apply elem_of_app. right. left.
Qed.

(** ** The extension *)

Lemma find_index_spec f l : if find_index f l <? 0 then find_index f l = -1 ∧ Forall (λ x, f x = false) l
  else ∃ l1 x l2, l = l1 ++ x :: l2 ∧ find_index f l = len l1 ∧ f x = true ∧ Forall (λ x, f x = false) l1.
Proof.
  induction l as [|y l IH]; [by split|]. cbn [find_index]. destruct (f y) eqn:Ey; [by exists [], y, l|]. cbv zeta. destruct (find_index f l <? 0) eqn:Ef.
  - destruct IH as [_ F]. split; [done|by constructor].
  - apply Z.ltb_ge in Ef. rewrite (proj2 (Z.ltb_ge _ 0)) by lia. destruct IH as (l1 & x & l2 & -> & E & Ex & F). exists (y :: l1), x, l2. split_and!; [done|rewrite E; unfold len; cbn [length]; lia|done|by constructor].
Qed.

(** The first pages, and then [Y]. *)
Definition ten_pages (Y : list Z) : list Z := seqZ 2 8 ++ (if bool_decide (Y !! 0%nat = Some 10) then [] else [10]) ++ Y.

Lemma slice_drop i l : 0 <= i → slice_from i l = drop (Z.to_nat i) l.
Proof. intros Hi. unfold slice_from. by rewrite (proj2 (Z.ltb_ge i 0)). Qed.

Lemma drop_head (i : nat) (l : list Z) : bool_decide (l !! i = Some 10) = bool_decide (drop i l !! 0%nat = Some 10).
Proof. by rewrite lookup_drop, Nat.add_0_r. Qed.

(** Where the extension cuts the list. *)
Definition cut (cp : Z) (X : list Z) : Z :=
  let indexRound := find_index (λ x, x mod 10 =? 0) X in
  let indexPage := find_index (Z.eqb cp) X in
  if indexRound <=? 0 then 1 else if (indexPage <? indexRound) && (10 <? cp) then indexPage - 2 else indexRound.

Lemma extended_at cp X : 0 <= cut cp X → extended cp X = ten_pages (drop (Z.to_nat (cut cp X)) X).
Proof.
  intros Hi. unfold extended. cbv zeta. fold (cut cp X). rewrite (proj2 (Z.leb_le 0 _)) by done. rewrite slice_drop, drop_head by done. unfold ten_pages.
  by destruct (bool_decide _).
Qed.

Lemma extended_end cp X : cut cp X < 0 → extended cp X = seqZ 2 9 ++ slice_from (cut cp X) X.
Proof. intros Hi. unfold extended. cbv zeta. fold (cut cp X). by rewrite (proj2 (Z.leb_gt 0 _)). Qed.

Lemma ten_pages_sorted max Y : 10 <= max → Forall (λ x, 10 <= x <= max) Y → StronglySorted Z.lt Y →
  Forall (λ x, 2 <= x <= max) (ten_pages Y) ∧ StronglySorted Z.lt (ten_pages Y) ∧ (∀ x, 2 <= x <= 10 → x ∈ ten_pages Y) ∧ (∀ x, x ∈ Y → x ∈ ten_pages Y).
Proof.
  intros Hm F S. set (Y' := (if bool_decide (Y !! 0%nat = Some 10) then [] else [10]) ++ Y).
  assert (HY : Forall (λ x, 10 <= x <= max) Y' ∧ StronglySorted Z.lt Y' ∧ 10 ∈ Y' ∧ (∀ x, x ∈ Y → x ∈ Y')).
  { subst Y'. case_bool_decide as H0; cbn [app].
    - split_and!; [done|done|by eapply list_elem_of_lookup_2|done].
    - split_and!; [constructor; [lia|done]| |left|intros x Hx; by right]. constructor; [done|]. destruct Y as [|y Y]; [constructor|]. cbn in H0.
      apply Forall_cons in F as [? F]. inversion S as [|? ? S' FS]; subst. assert (y ≠ 10) by congruence. constructor; [lia|]. eapply Forall_impl; [exact FS|]. intros z Hz. cbn in Hz. lia. }
  destruct HY as (FY & SY & HY & Hin). unfold ten_pages. fold Y'. split_and!.
  - apply Forall_app. split; [repeat constructor; lia|]. eapply Forall_impl; [exact FY|]. intros x Hx. cbn in Hx. lia.
  - apply StronglySorted_app_2; [|repeat constructor|done]. intros x y [Hx1 Hx2]%elem_of_seqZ Hy. rewrite Forall_forall in FY. specialize (FY y Hy). cbn in FY. lia.
  - intros x Hx. apply elem_of_app. destruct (decide (x = 10)) as [->|]; [by right|left]. apply elem_of_seqZ. lia.
  - intros x Hx. apply elem_of_app. right. by apply Hin.
Qed.

Lemma sorted_mid (l1 : list Z) x l2 : StronglySorted Z.lt (l1 ++ x :: l2) → Forall (λ y, y < x) l1 ∧ Forall (λ y, x < y) l2.
Proof.
  intros S. split.
  - rewrite Forall_forall. intros y Hy. eapply (StronglySorted_app_1_elem_of Z.lt); [exact S|done|left].
  - apply StronglySorted_app_1_r in S. by inversion S.
Qed.

Definition good (cp max : Z) (l : list Z) : Prop := Forall (λ x, 2 <= x <= max) l ∧ StronglySorted Z.lt l ∧ (1 < cp < max → cp ∈ l).

Lemma ten_pages_good cp max Y : 10 <= max → Forall (λ x, 10 <= x <= max) Y → StronglySorted Z.lt Y → (10 < cp < max → cp ∈ Y) → good cp max (ten_pages Y).
Proof.
  intros Hm F S Hc. destruct (ten_pages_sorted max Y Hm F S) as (H1 & H2 & H3 & H4). split_and!; [done|done|]. intros Hcp. destruct (Z.le_gt_cases cp 10); [apply H3; lia|apply H4, Hc; lia].
Qed.

Section Extension.
Context (cp max : Z) (X : list Z) (Hmax : 10 <= max) (FX : Forall (λ x, 2 <= x <= max) X) (SX : StronglySorted Z.lt X) (HX : 1 < cp < max → cp ∈ X).

(** Cutting the list at [i], which is not before a page below ten. *)
Lemma good_cut l1 l2 : X = l1 ++ l2 → cut cp X = len l1 → Forall (λ x, 10 <= x) l2 → (10 < cp < max → cp ∉ l1) → good cp max (extended cp X).
Proof.
  intros E Hi F Hc. rewrite extended_at by (rewrite Hi; unfold len; lia). rewrite Hi. unfold len. rewrite Nat2Z.id, E, drop_app_length. rewrite E in FX, SX. apply Forall_app in FX as [_ F2].
  apply ten_pages_good; [done| |by eapply StronglySorted_app_1_r|].
  - rewrite Forall_forall in F, F2 |- *. intros x Hx. specialize (F x Hx). specialize (F2 x Hx). cbn in F, F2. lia.
  - intros Hcp. specialize (HX ltac:(lia)). rewrite E in HX. apply elem_of_app in HX as [|]; [by destruct (Hc Hcp)|done].
Qed.

Lemma tens x : x ∈ X → x mod 10 = 0 → 10 <= x.
Proof. intros Hx Hm. rewrite Forall_forall in FX. specialize (FX x Hx). cbn in FX. destruct (Z.le_gt_cases 10 x); [done|]. rewrite Z.mod_small in Hm by lia. lia. Qed.

(** A list that starts with a multiple of ten. *)
Lemma good_first x l : X = x :: l → x mod 10 = 0 → x ≠ cp ∨ cp <= 10 → good cp max (extended cp X).
Proof.
  intros E Hx Hn. assert (Hxx : 10 <= x) by (apply tens; [rewrite E; left|done]). apply (good_cut [x] l); [done| | |intros Hcp ->%list_elem_of_singleton; by destruct Hn; [|lia]].
  - unfold cut. rewrite E. cbn [find_index]. by rewrite (proj2 (Z.eqb_eq _ 0)).
  - rewrite E in SX. inversion SX as [|? ? _ F]; subst. eapply Forall_impl; [exact F|]. intros y Hy. cbn in Hy. lia.
Qed.

(** A list that has one, not after the current page. *)
Lemma good_round : let i := find_index (λ x, x mod 10 =? 0) X in 0 < i → cp <= 10 ∨ i <= find_index (Z.eqb cp) X → good cp max (extended cp X).
Proof.
  intros i Hi Hc. pose proof (find_index_spec (λ x, x mod 10 =? 0) X) as Hr. fold i in Hr. rewrite (proj2 (Z.ltb_ge i 0)) in Hr by lia. destruct Hr as (l1 & x & l2 & E & El & Ex & F1).
  assert (Hx : 10 <= x) by (apply tens; [rewrite E; apply elem_of_app; right; left|by apply Z.eqb_eq]). apply (good_cut l1 (x :: l2)); [done| | |].
  - unfold cut. cbv zeta. fold i. rewrite (proj2 (Z.leb_gt i 0)) by lia. destruct Hc as [Hc|Hc]; [rewrite (proj2 (Z.ltb_ge 10 cp)), andb_false_r by lia|rewrite (proj2 (Z.ltb_ge _ i)) by lia]; done.
  - rewrite E in SX. apply sorted_mid in SX as [_ F]. constructor; [done|]. eapply Forall_impl; [exact F|]. intros y Hy. cbn in Hy. lia.
  - intros Hcp Hin. destruct Hc as [Hc|Hc]; [lia|]. pose proof (find_index_spec (Z.eqb cp) X) as Hp. destruct (find_index (Z.eqb cp) X <? 0) eqn:Ep; [lia|]. destruct Hp as (l3 & y & l4 & E' & El' & Ey & F3).
    apply Z.eqb_eq in Ey as <-. rewrite El, El' in Hc. unfold len in Hc. assert (Hl : l1 `prefix_of` l3).
    { rewrite E in E'. apply (f_equal (take (length l1))) in E'. rewrite take_app_length, take_app_le in E' by lia. rewrite E'. by apply prefix_take. }
    destruct Hl as [l5 ->]. rewrite Forall_forall in F3. specialize (F3 cp ltac:(apply elem_of_app; by left)). cbn in F3. by rewrite Z.eqb_refl in F3.
Qed.

End Extension.

(** *** A current page above ten *)

Lemma before_far cp s : 10 < cp → 10 < s → ∃ R, before cp (Some s) = (cp - 1) :: (cp - 2) :: R ∧
  (20 <= cp → ∃ r R', R = r :: R' ∧ r mod 10 = 0 ∧ 10 <= r ∧ (r = 10 → R' = [])) ∧ (12 <= cp < 20 → R = [cp - 10]).
Proof.
  intros Hc Hs. unfold before, half, increments_of. rewrite (proj2 (Z.leb_gt s 6)), (proj2 (Z.leb_gt s 10)) by lia. assert (Hh : ∃ n, Z.to_nat (s / 2) = S (S (S (S n)))).
  { exists (Z.to_nat (s / 2 - 4)). assert (5 <= s / 2) by (apply Z.div_le_lower_bound; lia). lia. } destruct Hh as [n ->].
  rewrite before_cons, (proj2 (Z.leb_gt _ 1)), before_cons, (proj2 (Z.leb_gt _ 1)) by lia. eexists. split; [done|]. split.
  - intros H20. rewrite before_cons, (proj2 (Z.leb_gt _ 1)) by lia. eexists _, _. split; [done|]. destruct (entry_round 10 (cp - 10) ltac:(lia) ltac:(lia)) as [?|(H1 & H2 & _)]; [lia|]. split_and!; [done|done|].
    intros Hr. destruct (entry_near 10 (cp - 10) ltac:(lia)) as [_ [He _]]. change (slack 10) with 5 in He. rewrite before_cons, (proj2 (Z.leb_le _ 1)) by lia. done.
  - intros H20. rewrite before_cons, (proj2 (Z.leb_gt _ 1)), before_cons, (proj2 (Z.leb_le _ 1)) by lia. pose proof (entry_spec 10 (cp - 10) ltac:(lia)) as E. rewrite (proj2 (Z.leb_gt 10 (cp - 10))), andb_false_r in E by lia. by rewrite E.
Qed.

Lemma index_mid cp l1 l2 : StronglySorted Z.lt (l1 ++ cp :: l2) → find_index (Z.eqb cp) (l1 ++ cp :: l2) = len l1.
Proof.
  intros S. apply sorted_mid in S as [F _]. induction F as [|x l Hx F IH]; cbn [find_index app]; [by rewrite Z.eqb_refl|]. rewrite (proj2 (Z.eqb_neq cp x)) by lia. rewrite IH. cbv zeta.
  rewrite (proj2 (Z.ltb_ge _ 0)) by (unfold len; lia). unfold len. cbn [length]. lia.
Qed.

(** The list without multiples of ten up to the current page. *)
Definition roundless (l : list Z) : Prop := Forall (λ x, (x mod 10 =? 0) = false) l.

Lemma no_index l : roundless l → find_index (λ x, x mod 10 =? 0) l = -1.
Proof. intros F. induction F as [|x l Hx F IH]; [done|]. cbn [find_index]. by rewrite Hx, IH. Qed.

Section Far.
Context (cp max : Z) (R T : list Z) (Hc : 10 < cp <= max).
Local Abbreviation X := (rev R ++ (cp - 2) :: (cp - 1) :: T).
Context (FX : Forall (λ x, 2 <= x <= max) X) (SX : StronglySorted Z.lt X) (HX : 1 < cp < max → cp ∈ X).
Context (H20 : 20 <= cp → ∃ r R', R = r :: R' ∧ r mod 10 = 0 ∧ 10 <= r ∧ (r = 10 → R' = [])) (H12 : 12 <= cp < 20 → R = [cp - 10]).

Lemma far_roundless : roundless X → good cp max (extended cp X).
Proof.
  intros F. assert (Hn : ∀ x, x ∈ X → x mod 10 ≠ 0) by (intros x Hx; unfold roundless in F; rewrite Forall_forall in F; by apply Z.eqb_neq, F).
  assert (Hi : cut cp X = 1) by (unfold cut; cbv zeta; by rewrite (no_index _ F)). destruct (Z.le_gt_cases 20 cp) as [H|H].
  { destruct (H20 H) as (r & R' & -> & Hr & _). exfalso. apply (Hn r); [apply elem_of_app; left; cbn [rev]; apply elem_of_app; right; left|done]. }
  assert (H1 : cp ≠ 11) by (intros ->; apply (Hn 10); [apply elem_of_app; right; right; left|done]). assert (H2 : cp ≠ 12) by (intros ->; apply (Hn 10); [apply elem_of_app; right; left|done]).
  pose proof (sorted_mid _ _ _ SX) as [_ F2]. rewrite H12 in * by lia. cbn [rev app] in *. apply (good_cut cp max _ ltac:(lia) FX SX HX [cp - 10] ((cp - 2) :: (cp - 1) :: T)); [done|done| |].
  - constructor; [lia|]. eapply Forall_impl; [exact F2|]. intros y Hy. cbn in Hy. lia.
  - intros _ H0%list_elem_of_singleton. lia.
Qed.

Lemma far_first : find_index (λ x, x mod 10 =? 0) X = 0 → good cp max (extended cp X).
Proof.
  intros Hi. destruct X as [|x l] eqn:E; [by destruct (rev R)|]. apply (good_first cp max _ ltac:(lia) FX SX HX x l); [done| |].
  - revert Hi. cbn [find_index]. destruct (Z.eqb_spec (x mod 10) 0); [done|]. cbv zeta. destruct (find_index _ l <? 0) eqn:Ef; [lia|apply Z.ltb_ge in Ef; lia].
  - left. intros ->. inversion SX as [|? ? _ F]; subst. assert (Hin : cp - 2 ∈ cp :: l) by (rewrite <- E; apply elem_of_app; right; left). apply elem_of_cons in Hin as [|Hin]; [lia|]. rewrite Forall_forall in F. specialize (F _ Hin). cbn in F. lia.
Qed.

(** The current page is not the last one. *)
Lemma far_inside T' : T = cp :: T' → 0 < find_index (λ x, x mod 10 =? 0) X → good cp max (extended cp X).
Proof.
  intros -> Hi. assert (Hp : find_index (Z.eqb cp) (rev R ++ (cp - 2) :: (cp - 1) :: cp :: T') = len (rev R) + 2).
  { change ((cp - 2) :: (cp - 1) :: cp :: T') with ([cp - 2; cp - 1] ++ cp :: T') in *. rewrite app_assoc in *. rewrite index_mid by done. unfold len. rewrite length_app. cbn [length]. lia. }
  destruct (Z.le_gt_cases (find_index (λ x, x mod 10 =? 0) (rev R ++ (cp - 2) :: (cp - 1) :: cp :: T')) (find_index (Z.eqb cp) (rev R ++ (cp - 2) :: (cp - 1) :: cp :: T'))) as [Hle|Hgt]; [by apply (good_round cp max _ ltac:(lia) FX SX HX); [|right]|].
  pose proof (find_index_spec (λ x, x mod 10 =? 0) (rev R ++ (cp - 2) :: (cp - 1) :: cp :: T')) as Hr. rewrite (proj2 (Z.ltb_ge _ 0)) in Hr by lia. destruct Hr as (l1 & x & l2 & E & El & _ & F1). rewrite Forall_forall in F1.
  assert (H11 : cp - 1 ∈ l1).
  { apply list_elem_of_lookup. exists (length (rev R) + 1)%nat. rewrite <- (lookup_app_l l1 (x :: l2)) by (unfold len in *; lia). rewrite <- E, lookup_app_r by lia. by replace (length (rev R) + 1 - length (rev R))%nat with 1%nat by lia. }
  specialize (F1 _ H11). cbn in F1. apply Z.eqb_neq in F1. assert (cp ≠ 11) by (intros ->; done). pose proof (sorted_mid _ _ _ SX) as [F0 F2].
  apply (good_cut cp max _ ltac:(lia) FX SX HX (rev R) ((cp - 2) :: (cp - 1) :: cp :: T')); [done| | |].
  - unfold cut. cbv zeta. rewrite (proj2 (Z.leb_gt _ 0)), (proj2 (Z.ltb_lt _ _)), (proj2 (Z.ltb_lt 10 cp)) by lia. cbn [andb]. lia.
  - constructor; [lia|]. eapply Forall_impl; [exact F2|]. intros y Hy. cbn in Hy. lia.
  - intros _ Hin. rewrite Forall_forall in F0. specialize (F0 _ Hin). cbn in F0. lia.
Qed.

(** The current page is the last one. *)
Lemma far_last : T = [] → cp = max → 13 < cp → 0 < find_index (λ x, x mod 10 =? 0) X → good cp max (extended cp X).
Proof.
  intros -> Em H13 Hi. assert (Hp : find_index (Z.eqb cp) (rev R ++ [cp - 2; cp - 1]) = -1).
  { pose proof (find_index_spec (Z.eqb cp) (rev R ++ [cp - 2; cp - 1])) as Hs. destruct (_ <? 0); [by destruct Hs|]. destruct Hs as (l1 & x & l2 & E & _ & Ex & _). apply Z.eqb_eq in Ex as <-. exfalso.
    assert (Hx : cp ∈ (rev R ++ [cp - 2; cp - 1])) by (rewrite E; apply elem_of_app; right; left). pose proof (sorted_mid _ _ _ SX) as [F0 _]. rewrite Forall_forall in F0. apply elem_of_app in Hx as [Hx|Hx]; [specialize (F0 _ Hx); cbn in F0; lia|].
    apply elem_of_cons in Hx as [|Hx]; [lia|]. apply list_elem_of_singleton in Hx. lia. }
  assert (Hcut : cut cp (rev R ++ [cp - 2; cp - 1]) = -3) by (unfold cut; cbv zeta; rewrite (proj2 (Z.leb_gt _ 0)), Hp, (proj2 (Z.ltb_lt _ _)), (proj2 (Z.ltb_lt 10 cp)) by lia; done).
  destruct (Z.le_gt_cases 20 cp) as [H|H].
  - destruct (H20 H) as (r & R' & -> & Hr & Hr10 & Hr'). assert (Hr2 : r ≠ 10).
    { intros ->. rewrite (Hr' eq_refl) in Hi. cbn [rev app find_index] in Hi. change (10 mod 10 =? 0) with true in Hi. cbv iota in Hi. lia. }
    rewrite extended_end, Hcut by lia. cbn [rev] in *. rewrite <- app_assoc in *. cbn [app] in *.
    assert (Es : slice_from (-3) (rev R' ++ [r; cp - 2; cp - 1]) = [r; cp - 2; cp - 1]).
    { unfold slice_from, len. rewrite length_app. cbn [length]. replace (Z.to_nat _) with (length (rev R')) by (cbn; lia). apply drop_app_length. }
    rewrite Es. apply Forall_app in FX as [_ F2]. apply StronglySorted_app_1_r in SX.
    replace (seqZ 2 9 ++ [r; cp - 2; cp - 1]) with (ten_pages [r; cp - 2; cp - 1]) by (unfold ten_pages; rewrite bool_decide_eq_false_2 by (cbn; congruence); done).
    apply ten_pages_good; [lia| |done|lia]. inversion SX as [|? ? _ F3]; subst. apply Forall_cons in F2 as [? F2]. constructor; [lia|]. rewrite Forall_forall in F3, F2 |- *. intros y Hy. specialize (F3 y Hy). specialize (F2 y Hy). cbn in F3, F2. lia.
  - exfalso. rewrite H12 in Hi by lia. assert (cp = 14 ∨ cp = 15 ∨ cp = 16 ∨ cp = 17 ∨ cp = 18 ∨ cp = 19) as Hcp by lia. clear -Hi Hcp. destruct Hcp as [->|[->|[->|[->|[->| ->]]]]]; vm_compute in Hi; done.
Qed.

End Far.

Lemma far_good cp max s : 10 < cp <= max → s <= max → 10 < s - len (near cp max (Some s)) → good cp max (extended cp (near cp max (Some s))).
Proof.
  intros Hc Hs Hl. destruct (near_sorted cp max (Some s) ltac:(lia)) as (FX & SX & HX). assert (Hl0 : 0 <= len (near cp max (Some s))) by (unfold len; lia).
  destruct (before_far cp s ltac:(lia) ltac:(lia)) as (R & EB & H20 & H12). set (T := (if cp =? max then [] else [cp]) ++ after cp max (Some s)).
  assert (EX : near cp max (Some s) = rev R ++ (cp - 2) :: (cp - 1) :: T).
  { rewrite near_eq, EB by lia. rewrite (proj2 (Z.eqb_neq cp 1)) by lia. cbn [rev orb]. by rewrite <- !app_assoc. }
  rewrite EX in *. pose proof (find_index_spec (λ x, x mod 10 =? 0) (rev R ++ (cp - 2) :: (cp - 1) :: T)) as Hr. destruct (find_index (λ x, x mod 10 =? 0) (rev R ++ (cp - 2) :: (cp - 1) :: T) <? 0) eqn:Ei.
  - destruct Hr as [_ F]. by apply far_roundless.
  - apply Z.ltb_ge in Ei. destruct (Z.eq_dec (find_index (λ x, x mod 10 =? 0) (rev R ++ (cp - 2) :: (cp - 1) :: T)) 0) as [E0|E0]; [by apply far_first|]. subst T. destruct (Z.eqb_spec cp max) as [<-|Hm].
    + apply far_last; try done; [by rewrite after_max by lia| |lia]. revert Hl Hs. rewrite after_max by lia. unfold len. rewrite length_app, length_rev. cbn [length app]. intros Hl Hs.
      destruct (Z.le_gt_cases 20 cp) as [|Hlt]; [lia|]. destruct (Z.le_gt_cases 12 cp); [rewrite H12 in Hl by lia; cbn [length] in Hl; lia|lia].
    + by eapply far_inside; [..|lia].
Qed.

(** *** A current page up to ten *)

(** The cases in which pages are repeated. *)
Definition repeats (cp max : Z) (slots : option Z) : Prop := match slots with Some s => 5 <= cp <= 7 ∧ 16 <= s <= max ∧ max <= 20 | None => False end.

Lemma before_close cp s : 1 <= cp <= 10 → 10 < s → before cp (Some s) = if cp <=? 2 then [] else (cp - 1) :: if cp =? 3 then [] else [cp - 2].
Proof.
  intros Hc Hs. unfold before, half, increments_of. rewrite (proj2 (Z.leb_gt s 6)), (proj2 (Z.leb_gt s 10)) by lia. assert (Hh : ∃ n, Z.to_nat (s / 2) = S (S (S n))).
  { exists (Z.to_nat (s / 2 - 3)). assert (5 <= s / 2) by (apply Z.div_le_lower_bound; lia). lia. } destruct Hh as [n ->].
  rewrite !before_cons. destruct (Z.leb_spec cp 2), (Z.leb_spec (cp - 1) 1); try lia; [done|]. destruct (Z.eqb_spec cp 3), (Z.leb_spec (cp - 2) 1); try lia; [done|]. by rewrite (proj2 (Z.leb_le (cp - 10) 1)) by lia.
Qed.

Lemma upto_close cp s : 1 <= cp <= 10 → 10 < s → len (upto cp (Some s)) = Z.min 3 (cp - 1) ∧ upto cp (Some s) = rev (before cp (Some s)) ++ if cp =? 1 then [] else [cp].
Proof.
  intros Hc Hs. assert (E : upto cp (Some s) = rev (before cp (Some s)) ++ if cp =? 1 then [] else [cp]) by (unfold upto; destruct (cp =? 1); by rewrite ?app_nil_r). split; [|done].
  rewrite E, before_close by done. unfold len. rewrite length_app, length_rev. destruct (Z.leb_spec cp 2), (Z.eqb_spec cp 1), (Z.eqb_spec cp 3); cbn [length]; lia.
Qed.

(** The two pages that follow, and a round one if there is room. *)
Lemma after_close cp max s : 1 <= cp <= 8 → 10 < s <= max → ∃ l, after cp max (Some s) = (cp + 1) :: (cp + 2) :: l ∧
  (cp + 10 <= max → 10 * ((cp + 15) / 10) < max → 10 * ((cp + 15) / 10) ∈ l) ∧ (cp + 10 > max ∨ 10 * ((cp + 15) / 10) >= max → l = []).
Proof.
  intros Hc Hs. unfold after. destruct (upto_close cp s ltac:(lia) ltac:(lia)) as [-> _]. unfold increments_of. rewrite (proj2 (Z.leb_gt s 6)), (proj2 (Z.leb_gt s 10)) by lia.
  assert (Hh : ∃ n, Z.to_nat (s - Z.min 3 (cp - 1)) = S (S (S n))) by (exists (Z.to_nat (s - Z.min 3 (cp - 1) - 3)); lia). destruct Hh as [n ->].
  rewrite after_cons, (proj2 (Z.ltb_ge _ _)), after_cons, (proj2 (Z.ltb_ge _ _)), after_cons by lia.
  change (rounds 1 _) with false. change (rounds 2 _) with false. change (entry 1 ?v) with v. change (entry 2 ?v) with v. cbn [orb andb].
  assert (Hr : rounds 10 (cp + 10) = true). { unfold rounds. pose proof (pretty_length (cp + 10) ltac:(lia)) as H. rewrite (proj2 (Z.ltb_ge _ 10)) in H by lia. rewrite (proj2 (Z.eqb_neq _ 0)) by lia. done. }
  pose proof (entry_spec 10 (cp + 10) ltac:(lia)) as E. rewrite (proj2 (Z.leb_le 10 (cp + 10))) in E by lia. cbn [andb Z.leb Z.compare Pos.compare Pos.compare_cont] in E. replace (cp + 10 + 5) with (cp + 15) in E by lia. rewrite Hr, E. cbn [andb].
  eexists. split; [done|]. split.
  - intros H1 H2. rewrite (proj2 (Z.ltb_ge _ _)), (proj2 (Z.leb_gt _ _)) by lia. left.
  - intros [H|H]; [rewrite (proj2 (Z.ltb_lt _ _)) by lia; done|]. rewrite (proj2 (Z.leb_le max _)), orb_true_r by lia. done.
Qed.

Lemma close_roundless cp max s : 1 <= cp <= 10 → cp <= max → s <= max → 10 < s - len (near cp max (Some s)) → roundless (near cp max (Some s)) → repeats cp max (Some s).
Proof.
  intros Hc Hm Hs Hl F. assert (Hl0 : 0 <= len (near cp max (Some s))) by (unfold len; lia). assert (Hn : ∀ x, x ∈ near cp max (Some s) → x mod 10 ≠ 0) by (intros x Hx; unfold roundless in F; rewrite Forall_forall in F; by apply Z.eqb_neq, F).
  destruct (near_sorted cp max (Some s) ltac:(lia)) as (_ & _ & HX). assert (H10 : cp ≠ 10) by (intros ->; apply (Hn 10); [apply HX; lia|done]).
  assert (EN : near cp max (Some s) = upto cp (Some s) ++ after cp max (Some s)) by (unfold near; by rewrite (proj2 (Z.eqb_neq cp max)) by lia). rewrite EN in *.
  assert (Ha : ∀ x, x ∈ after cp max (Some s) → x mod 10 ≠ 0) by (intros x Hx; apply Hn, elem_of_app; by right).
  assert (H9 : cp ≠ 9). { intros ->. apply (Ha 10); [|done]. unfold after. destruct (upto_close 9 s ltac:(lia) ltac:(lia)) as [-> _]. destruct (Z.to_nat (s - Z.min 3 (9 - 1))) as [|n] eqn:En; [lia|].
    unfold increments_of. rewrite (proj2 (Z.leb_gt s 6)), (proj2 (Z.leb_gt s 10)), after_cons, (proj2 (Z.ltb_ge _ _)) by lia. left. }
  destruct (after_close cp max s ltac:(lia) ltac:(lia)) as (l & El & H1 & H2). assert (H8 : cp ≠ 8) by (intros ->; apply (Ha 10); [rewrite El; right; left|done]).
  assert (Hd : 10 * ((cp + 15) / 10) = if cp <? 5 then 10 else 20).
  { pose proof (Z_div_mod_eq_full (cp + 15) 10). pose proof (Z.mod_pos_bound (cp + 15) 10 ltac:(lia)). destruct (Z.ltb_spec cp 5); lia. }
  assert (Hx : cp + 10 > max ∨ 10 * ((cp + 15) / 10) >= max).
  { destruct (Z.le_gt_cases (cp + 10) max), (Z.lt_ge_cases (10 * ((cp + 15) / 10)) max); [|lia..]. exfalso. apply (Ha (10 * ((cp + 15) / 10))); [rewrite El; do 2 right; by apply H1|]. by rewrite Z.mul_comm, Z.mod_mul. }
  rewrite El, (H2 Hx) in Hl. unfold len in Hl. rewrite length_app in Hl. destruct (upto_close cp s ltac:(lia) ltac:(lia)) as [Hu _]. unfold len in Hu. cbn [length] in Hl. rewrite Hd in Hx. destruct (Z.ltb_spec cp 5); cbn [repeats]; lia.
Qed.

Lemma close_good cp max s : 1 <= cp <= 10 → cp <= max → s <= max → 10 < s - len (near cp max (Some s)) → ~ repeats cp max (Some s) → good cp max (extended cp (near cp max (Some s))).
Proof.
  intros Hc Hm Hs Hl Hr. destruct (near_sorted cp max (Some s) ltac:(lia)) as (FX & SX & HX). assert (Hl0 : 0 <= len (near cp max (Some s))) by (unfold len; lia).
  pose proof (find_index_spec (λ x, x mod 10 =? 0) (near cp max (Some s))) as Hi. destruct (find_index (λ x, x mod 10 =? 0) (near cp max (Some s)) <? 0) eqn:Ei; [destruct Hi as [_ F]; exfalso; apply Hr; by apply close_roundless|].
  apply Z.ltb_ge in Ei. destruct (Z.eq_dec (find_index (λ x, x mod 10 =? 0) (near cp max (Some s))) 0) as [E0|E0].
  - destruct Hi as (l1 & x & l2 & E & El & Ex & _). rewrite E0 in El. destruct l1; [|unfold len in El; cbn [length] in El; lia]. apply (good_first cp max _ ltac:(lia) FX SX HX x l2); [done|by apply Z.eqb_eq|right; lia].
  - apply (good_round cp max _ ltac:(lia) FX SX HX); [lia|left; lia].
Qed.

(** ** The list that is offered *)

(** The pages that [generatePaginationUIParams] offers. *)
Definition offered (cp max : Z) (slots : option Z) : list Z :=
  let l := 1 :: generatePaginationArray cp max slots in if bool_decide (list.last l = Some max) then l else l ++ [max].

Lemma seqZ_sorted a n : StronglySorted Z.lt (seqZ a n).
Proof.
  unfold seqZ. generalize (Z.to_nat n) as k. intros k. cut (∀ i, StronglySorted Z.lt ((λ j : nat, Z.of_nat j + a) <$> seq i k)); [done|]. induction k as [|k IH]; intros i; [constructor|]. cbn. constructor; [apply IH|].
  rewrite Forall_forall. intros x (j & -> & Hj)%list_elem_of_fmap. apply elem_of_seq in Hj. lia.
Qed.

Lemma array_good cp max slots : 1 <= cp <= max → 2 <= max → ~ repeats cp max slots → good cp max (generatePaginationArray cp max slots).
Proof.
  intros Hc Hm Hr. rewrite array_cases. destruct slots as [s|]; [|rewrite andb_false_r; by apply near_sorted]. destruct (Z.ltb_spec max s) as [Hs|Hs].
  - split_and!; [rewrite Forall_forall; intros x Hx%elem_of_seqZ; lia|apply seqZ_sorted|intros H; apply elem_of_seqZ; lia].
  - destruct (max <? 50000); cbn [andb]; [|by apply near_sorted]. destruct (Z.ltb_spec 10 (s - len (near cp max (Some s)))); [|by apply near_sorted].
    destruct (Z.le_gt_cases cp 10); [apply close_good; done || lia|apply far_good; lia].
Qed.

Lemma sorted_last (l : list Z) x m : StronglySorted Z.lt l → list.last l = Some m → x ∈ l → x <= m.
Proof. intros S (l' & ->)%last_Some Hx. apply elem_of_app in Hx as [Hx|Hx%list_elem_of_singleton]; [|lia]. pose proof (StronglySorted_app_1_elem_of _ _ _ _ _ S Hx ltac:(left)). lia. Qed.

(** The cases in which pages are repeated, all of them. *)
Lemma repeats_repeat cp max slots : repeats cp max slots → ~ NoDup (offered cp max slots).
Proof.
  destruct slots as [s|]; [|done]. cbn [repeats]. intros (H1 & H2 & H3).
  assert (Hall : forallb (λ cp, forallb (λ max, forallb (λ s, (max <? s) || negb (bool_decide (NoDup (offered cp max (Some s))))) (seqZ 16 5)) (seqZ 16 5)) (seqZ 5 3) = true) by (vm_compute; reflexivity).
  rewrite forallb_forall in Hall. specialize (Hall cp ltac:(apply list_elem_of_In, elem_of_seqZ; lia)). rewrite forallb_forall in Hall. specialize (Hall max ltac:(apply list_elem_of_In, elem_of_seqZ; lia)).
  rewrite forallb_forall in Hall. specialize (Hall s ltac:(apply list_elem_of_In, elem_of_seqZ; lia)). rewrite (proj2 (Z.ltb_ge max s)) in Hall by lia. cbn [orb] in Hall. by apply negb_true_iff, bool_decide_eq_false in Hall.
Qed.

Lemma offered_good cp max slots : 1 <= cp <= max → 2 <= max →
  1 ∈ offered cp max slots ∧ max ∈ offered cp max slots ∧
  (~ repeats cp max slots → cp ∈ offered cp max slots ∧ Forall (λ x, 1 <= x <= max) (offered cp max slots) ∧ StronglySorted Z.lt (offered cp max slots)) ∧
  (repeats cp max slots → ~ NoDup (offered cp max slots)).
Proof.
  intros Hc Hm. split; [unfold offered; cbv zeta; destruct (bool_decide _); left|]. split.
  { unfold offered. cbv zeta. case_bool_decide as E; [by apply last_Some_elem_of|]. apply elem_of_app. right. left. }
  split; [|apply repeats_repeat]. intros Hr. destruct (array_good cp max slots Hc Hm Hr) as (F & S & H). set (A := generatePaginationArray cp max slots) in *.
  assert (S1 : StronglySorted Z.lt (1 :: A)) by (constructor; [done|]; eapply Forall_impl; [exact F|]; intros x Hx; cbn in Hx; lia). assert (F1 : Forall (λ x, 1 <= x <= max) (1 :: A)) by (constructor; [lia|]; eapply Forall_impl; [exact F|]; intros x Hx; cbn in Hx; lia).
  unfold offered. cbv zeta. fold A. case_bool_decide as E.
  - split_and!; [|done|done]. destruct (decide (cp = 1)) as [->|]; [left|]. destruct (decide (cp = max)) as [->|]; [by apply last_Some_elem_of|]. right. apply H. lia.
  - split_and!.
    + apply elem_of_app. destruct (decide (cp = 1)) as [->|]; [left; left|]. destruct (decide (cp = max)) as [->|]; [right; left|]. left. right. apply H. lia.
    + apply Forall_app. split; [done|]. repeat constructor; lia.
    + apply StronglySorted_app_2; [|done|repeat constructor]. intros x y Hx ->%list_elem_of_singleton. destruct (list.last (1 :: A)) as [m|] eqn:El; [|by apply last_None in El].
      pose proof (sorted_last _ x m S1 El Hx). apply last_Some in El as (l' & El). assert (Hin : m ∈ 1 :: A) by (rewrite El; apply elem_of_app; right; left). rewrite Forall_forall in F1. specialize (F1 m Hin). cbn in F1. assert (m ≠ max) by congruence. lia.
Qed.

(** ** Parameters *)

Lemma parse_int_pretty k : 0 <= k → parse_int (pretty k) = Some k.
Proof.
  intros Hk. unfold parse_int. pose proof (parseInt_pretty k) as Ep. pose proof (pretty_digits k Hk) as F. destruct (pretty k) as [|c s] eqn:E; [done|]. cbn [String.list_ascii_of_string] in F. apply Forall_cons in F as [Hc F].
  destruct (decimal_start c s Hc) as (-> & -> & _). cbn [snd]. destruct s as [|d s]; [destruct c as [[] [] [] [] [] [] [] []]; exact Ep|]. cbn [String.list_ascii_of_string] in F. apply Forall_cons in F as [Hd F].
  assert (Hx : (code d =? 120) || (code d =? 88) = false) by (rewrite (proj2 (Z.eqb_neq _ 120)), (proj2 (Z.eqb_neq _ 88)) by lia; done).
  destruct c as [[] [] [] [] [] [] [] []]; try exact Ep. by rewrite Hx.
Qed.

Lemma get_set l n v m : params_get (set_field n v l) m = if String.eqb n m then Some v else params_get l m.
Proof.
  induction l as [|[a x] l IH]; [done|]. cbn [set_field]. destruct (String.eqb_spec a n) as [->|Ha]; cbn [params_get]; [by destruct (String.eqb n m)|]. rewrite IH. destruct (String.eqb_spec a m) as [->|]; [|done]. destruct (String.eqb_spec n m); [congruence|done].
Qed.

Lemma get_assign ps l m : NoDup (map fst ps) → params_get (assign l ps) m = match params_get ps m with Some v => Some v | None => params_get l m end.
Proof.
  unfold assign. revert l. induction ps as [|[n v] ps IH]; intros l Hd; [done|]. cbn [map fst] in Hd. apply NoDup_cons in Hd as [Hn Hd]. cbn [fold_left fst snd params_get]. rewrite IH, get_set by done.
  destruct (String.eqb_spec n m) as [->|]; [|done]. assert (E : params_get ps m = None); [|by rewrite E]. clear -Hn. induction ps as [|[a x] ps IH]; [done|]. cbn [map fst] in Hn. apply not_elem_of_cons in Hn as [H1 H2]. cbn [params_get]. rewrite (proj2 (String.eqb_neq a m)) by congruence. by apply IH.
Qed.

(** The parameters after an update: those of the update, and then those that were there. *)
Lemma get_update w ps m : NoDup (map fst (w_search w)) → NoDup (map fst ps) →
  params_get (w_search (updateParameters ps w)) m = match params_get ps m with Some v => Some v | None => params_get (w_search w) m end.
Proof. intros H1 H2. cbn [updateParameters with_search w_search]. rewrite !get_assign by done. destruct (params_get ps m), (params_get (w_search w) m); done. Qed.

Lemma human_page w : 1 <= humanPage (getParameters w).
Proof. cbn [getParameters humanPage]. unfold validatePaginationInts. destruct (_ ≫= _); [|unfold DEFAULT_PAGE]; lia. Qed.

Lemma rows_pos w : 1 <= rows (getParameters w).
Proof. cbn [getParameters rows]. unfold validatePaginationInts. destruct (_ ≫= _); [|unfold DEFAULT_ROWS_PER_PAGE]; lia. Qed.

(** C34: the list of pages of the explorer.  For any width of the window, the list that is
    offered has the first page, the current page and the last page, and no page that does not
    exist, each page once and in order.  There is one exception: on a list of sixteen to
    twenty pages with room for sixteen, pages are repeated when the current page is the fifth,
    the sixth or the seventh. *)
Theorem pages_offered w : let p := getParameters w in let max := last_page (w_total w) (rows p) in let slots := determinePaginationSlots (w_width w) max in
  2 <= max → humanPage p <= max → ∃ l, generatePaginationUIParams w = Some (humanPage p, l) ∧ 1 ∈ l ∧ max ∈ l ∧
    (~ repeats (humanPage p) max slots → humanPage p ∈ l ∧ Forall (λ x, 1 <= x <= max) l ∧ StronglySorted Z.lt l) ∧
    (repeats (humanPage p) max slots → ~ NoDup l).
Proof.
  intros p max slots Hm Hp. exists (offered (humanPage p) max slots). split; [unfold generatePaginationUIParams; fold p max; by rewrite (proj2 (Z.eqb_neq max 1)) by lia|].
  apply offered_good; [|done]. split; [apply human_page|done].
Qed.

(** ** The ranges of blocks *)

(** The heights that a page asks for. *)
Definition asks (lo hi : Z) : list effect := [Load (concat_all ["/api/blocks/"; pretty lo; "/"; pretty hi]%string)].

Lemma blocks_request w : ∃ w', BlocksPage.reRenderPage None w = (w', asks (generatePaginationRequestRange w).2 (generatePaginationRequestRange w).1).
Proof. unfold BlocksPage.reRenderPage. destruct (generatePaginationRequestRange w) as [a b]. cbn [fst snd]. by eexists. Qed.

Lemma blocks_update ps w : BlocksPage.reRenderPage (Some ps) w = BlocksPage.reRenderPage None (updateParameters ps w).
Proof. done. Qed.

(** The parameters after going to another page or showing another number of rows. *)
Lemma go_parameters w k : NoDup (map fst (w_search w)) → 1 <= k → let q := getParameters (updateParameters [("page"%string, pretty k)] w) in
  page q = k - 1 ∧ rows q = rows (getParameters w) ∧ start q = start (getParameters w) ∧ last q = last (getParameters w).
Proof.
  intros Hd Hk. assert (Hn : NoDup (map fst [("page"%string, pretty k)])) by (cbn; apply NoDup_singleton). cbv zeta. unfold getParameters. cbn [page rows start last]. rewrite !get_update by done.
  cbn [params_get String.eqb Ascii.eqb Bool.eqb]. unfold validatePaginationInts at 1. cbn [mbind option_bind]. rewrite parse_int_pretty by lia. split_and!; [lia|done..].
Qed.

(** The pages of blocks cover the chain.  Every height from the first one to the last one is
    in the range that some page asks for; a page asks for one block more than the number of
    its rows, or for those that are left, and its last block is the first one of the next
    page. *)
Theorem block_pages w : NoDup (map fst (w_search w)) → let p := getParameters w in 0 <= start p < last p → let n := last_page (last p - start p) (rows p) in
  ∃ range : Z → Z * Z, (∀ k, 1 <= k <= n → (BlocksPage.step (BlocksPage.GoToPage k) w).2 = asks (range k).1 (range k).2 ∧
      start p <= (range k).1 < (range k).2 ∧ (range k).2 <= last p ∧ (range k).2 - (range k).1 <= rows p ∧ (k < n → (range k).2 - (range k).1 = rows p ∧ (range (k + 1)).2 = (range k).1)) ∧
    (∀ x, start p <= x <= last p → ∃ k, 1 <= k <= n ∧ (range k).1 <= x <= (range k).2).
Proof.
  intros Hd p Hp n. pose proof (rows_pos w) as Hr. fold p in Hr. set (r := rows p) in *. set (a := start p) in *. set (b := last p) in *.
  pose proof (Z_div_mod_eq_full (- (b - a)) r) as E. pose proof (Z.mod_pos_bound (- (b - a)) r ltac:(lia)) as Hb. assert (En : n = - (- (b - a) / r)) by done. set (q := - (b - a) / r) in *. set (m := - (b - a) mod r) in *. clearbody q m.
  exists (λ k, (Z.max (b - (k - 1) * r - r) a, b - (k - 1) * r)). cbn [fst snd]. split.
  - intros k Hk. assert (Hkr : (k - 1) * r <= (n - 1) * r) by (apply Z.mul_le_mono_nonneg_r; lia). split_and!; try nia.
    cbn [BlocksPage.step]. rewrite blocks_update. destruct (blocks_request (updateParameters [("page"%string, pretty k)] w)) as [w' ->]. cbn [snd]. destruct (go_parameters w k Hd ltac:(lia)) as (H1 & H2 & H3 & H4).
      unfold generatePaginationRequestRange. cbv zeta. cbn [fst snd]. by rewrite H1, H2, H3, H4.
  - intros x Hx. destruct (Z.eq_dec x b) as [->|Hxb]; [exists 1; nia|]. exists ((b - x - 1) / r + 1). pose proof (Z_div_mod_eq_full (b - x - 1) r) as E'. pose proof (Z.mod_pos_bound (b - x - 1) r ltac:(lia)) as Hb'.
    assert (0 <= (b - x - 1) / r) by (apply Z.div_pos; lia). set (q' := (b - x - 1) / r) in *. set (m' := (b - x - 1) mod r) in *. clearbody q' m'. split; [|nia]. split; [lia|]. destruct (Z.le_gt_cases (q' + 1) n); [done|]. nia.
Qed.

(** A page asks for heights that do not exist.  Showing more rows keeps the number of the page:
    where there are not as many pages any more, the range ends below zero. *)
Theorem rows_out_of_range w r : NoDup (map fst (w_search w)) → let p := getParameters w in 1 <= r → r ≠ rows p → last p < page p * r → start p = 0 →
  ∃ hi, hi < 0 ∧ (BlocksPage.step (BlocksPage.Length r) w).2 = asks 0 hi.
Proof.
  intros Hd p Hr Hn Hl Hs. exists (last p - page p * r). split; [lia|]. cbn [BlocksPage.step]. fold p. rewrite (proj2 (Z.eqb_neq (rows p) r)) by congruence. rewrite blocks_update.
  destruct (blocks_request (updateParameters [("rows"%string, pretty r)] w)) as [w' ->]. cbn [snd]. assert (Hn1 : NoDup (map fst [("rows"%string, pretty r)])) by (cbn; apply NoDup_singleton).
  assert (Hq : let q := getParameters (updateParameters [("rows"%string, pretty r)] w) in page q = page p ∧ rows q = r ∧ start q = 0 ∧ last q = last p).
  { cbv zeta. rewrite <- Hs. unfold p, getParameters. cbn [page rows start last]. rewrite !get_update by done. cbn [params_get String.eqb Ascii.eqb Bool.eqb]. split_and!; [done| |done|done].
    unfold validatePaginationInts. cbn [mbind option_bind]. rewrite parse_int_pretty by lia. lia. }
  destruct Hq as (H1 & H2 & H3 & H4). unfold generatePaginationRequestRange. cbv zeta. cbn [fst snd]. rewrite H1, H2, H3, H4. by rewrite (Z.max_r _ 0) by lia.
Qed.

(** The table of a block draws the page after the one that was asked for: the address has the
    number of the page from one on, and the table counts its pages from zero. *)
Theorem drawn_page w k : NoDup (map fst (w_search w)) → 1 <= k → let '(w', effects) := TxsPage.step (TxsPage.GoToPage k) w in
  effects = [DrawPage (page (getParameters w') + 1)].
Proof.
  intros Hd Hk. cbn [TxsPage.step]. unfold TxsPage.reRenderPage. rewrite (proj2 (Z.eqb_neq k 0)) by lia. set (w1 := updateParameters _ w).
  assert (E : getParameters (generatePaginationUI (generatePaginationUIParams w1) w1) = getParameters w1) by (unfold generatePaginationUI; by destruct (generatePaginationUIParams w1) as [[]|]).
  rewrite E. destruct (go_parameters w k Hd Hk) as (E1 & _). fold w1 in E1. rewrite E1. do 2 f_equal. lia.
Qed.

(** The list of pages stays when it is not needed any more: with all the transactions of an
    address on one page, the page still has the list that it had. *)
Theorem stale_pages w v r : NoDup (map fst (w_search w)) → parse_int v = Some r → 0 < w_total w <= r →
  w_pagination (AddressPage.step (AddressPage.Length v) w).1 = w_pagination w.
Proof.
  intros Hd Hv Hr. cbn [AddressPage.step]. unfold AddressPage.reRenderPage, AddressPage.updateTable. cbn [fst]. unfold generatePaginationUI. set (w1 := AddressPage.updateTableLoading true _).
  assert (E : generatePaginationUIParams w1 = None); [|by rewrite E]. assert (Er : rows (getParameters w1) = r).
  { assert (Hn : NoDup (map fst [("rows"%string, v); ("page"%string, pretty 1)])) by (cbn; apply NoDup_cons; split; [by intros ?%list_elem_of_singleton|apply NoDup_singleton]).
    change (getParameters w1) with (getParameters (updateParameters [("rows"%string, v); ("page"%string, pretty 1)] w)). unfold getParameters. cbn [rows]. rewrite get_update by done. cbn [params_get String.eqb Ascii.eqb Bool.eqb].
    unfold validatePaginationInts. cbn [mbind option_bind]. rewrite Hv. lia. }
  unfold generatePaginationUIParams. cbv zeta. rewrite Er. change (w_total w1) with (w_total w). assert (El : last_page (w_total w) r = 1); [|by rewrite El].
  unfold last_page. assert (- w_total w / r = -1); [|lia]. symmetry. apply (Z.div_unique _ _ _ (r - w_total w)); lia.
Qed.

(** ** The table of coins *)
Section Coins.
Import AddressPage.
Context (L : list string) (HL : L ≠ []).

(** What can be seen by opening the table and pressing its buttons. *)
Inductive viewed : coins → Prop :=
| viewed_load : viewed (loadSatsTable L)
| viewed_click i c c' : viewed c → click_button L i c = Some c' → viewed c'.

Lemma pages_bounds : 1 <= numberOfPages L ∧ 10 * (numberOfPages L - 1) < len L <= 10 * numberOfPages L.
Proof.
  assert (0 < len L) by (unfold len; destruct L; [done|]; cbn [length]; lia). unfold numberOfPages, numberPerPage. pose proof (Z_div_mod_eq_full (- len L) 10). pose proof (Z.mod_pos_bound (- len L) 10 ltac:(lia)). lia.
Qed.

Lemma buttons_in_range i : 0 <= i < numberOfPages L → Forall (λ b, 0 <= b_value b < numberOfPages L) (buildPagination L i).
Proof.
  intros Hi. unfold buildPagination. cbv zeta. destruct (Z.leb_spec 3 (numberOfPages L)).
  - destruct (Z.eqb_spec i 0); [|destruct (Z.eqb_spec i (numberOfPages L - 1))]; repeat constructor; cbn [b_value number_button]; lia.
  - rewrite Forall_forall. intros b Hb. apply list_elem_of_In, in_map_iff in Hb as (j & <- & Hj). apply list_elem_of_In, elem_of_seqZ in Hj. cbn. lia.
Qed.

Lemma next_button i : 0 <= i → i + 1 < numberOfPages L → ∃ j b, buildPagination L i !! j = Some b ∧ b_value b = i + 1.
Proof.
  intros Hi Hn. unfold buildPagination. cbv zeta. destruct (Z.leb_spec 3 (numberOfPages L)).
  - destruct (Z.eqb_spec i 0) as [->|]; [by exists 2%nat, (number_button false 1)|]. rewrite (proj2 (Z.eqb_neq i (numberOfPages L - 1))) by lia. by exists 3%nat, (number_button false (i + 1)).
  - exists (Z.to_nat (i + 1)), (number_button (i + 1 =? i) (i + 1)). split; [|done]. rewrite list_lookup_fmap, lookup_seqZ_lt by lia. cbn. do 2 f_equal; [f_equal|]; lia.
Qed.

Lemma pages_concat (k : nat) : concat (map (buildPage L) (seqZ 0 (Z.of_nat k))) = take (10 * k) L.
Proof.
  induction k as [|k IH]; [done|]. rewrite seqZ_S, map_app, concat_app, IH. cbn [map concat]. rewrite app_nil_r. unfold buildPage, numberPerPage. rewrite Z.add_0_l.
  replace (Z.to_nat (Z.of_nat k * 10)) with (10 * k)%nat by lia. change (Z.to_nat 10) with 10%nat. rewrite take_take_drop. f_equal. lia.
Qed.

(** C38: the table of the coins of an address shows them all.  Whatever buttons are pressed, the
    table shows one of its pages, which is not empty; each page can be reached; and the
    pages one after another are the list of the coins. *)
Theorem coin_pages : (∀ c, viewed c → ∃ i, 0 <= i < numberOfPages L ∧ c = show_page L i ∧ shown c ≠ []) ∧
  (∀ i, 0 <= i < numberOfPages L → viewed (show_page L i)) ∧ concat (map (buildPage L) (seqZ 0 (numberOfPages L))) = L.
Proof.
  pose proof pages_bounds as [Hn Hl]. split_and!.
  - intros c Hc. assert (Hi : ∃ i, 0 <= i < numberOfPages L ∧ c = show_page L i).
    { induction Hc as [|j c c' _ (i & Hi & ->) Hj]; [by exists 0; split; [lia|]|]. unfold click_button in Hj. cbn [buttons show_page] in Hj. destruct (buildPagination L i !! j) as [b|] eqn:Eb; [|done]. injection Hj as <-. exists (b_value b). split; [|done].
      pose proof (buttons_in_range i Hi) as F. rewrite Forall_forall in F. apply F. by eapply list_elem_of_lookup_2. }
    destruct Hi as (i & Hi & ->). exists i. split; [done|]. split; [done|]. cbn [shown show_page]. unfold buildPage, numberPerPage. intros E. apply (f_equal length) in E. rewrite length_take, length_drop in E. cbn [length] in E. unfold len in Hl. lia.
  - intros i Hi. replace i with (Z.of_nat (Z.to_nat i)) in * by lia. generalize (Z.to_nat i) as k, Hi. clear Hi i. intros k. induction k as [|k IH]; intros Hk; [apply viewed_load|].
    destruct (next_button (Z.of_nat k)) as (j & b & Ej & Eb); [lia..|]. apply (viewed_click j (show_page L (Z.of_nat k))); [apply IH; lia|]. unfold click_button. cbn [buttons show_page]. rewrite Ej. cbn [mbind option_bind]. do 2 f_equal. lia.
  - rewrite <- (Z2Nat.id (numberOfPages L)) by lia. rewrite pages_concat. apply take_ge. unfold len in Hl. lia.
Qed.

End Coins.

(** ** Examples *)

Local Definition seventh : window := mkWindow "/blocks" [("page"%string, "7"%string)] 1600 870 EmptyString false.

Lemma pages_offered_witness : ∃ l, generatePaginationUIParams seventh = Some (7, l) ∧ ~ NoDup l.
Proof.
  destruct (pages_offered seventh) as (l & H1 & _ & _ & _ & H2).
  - vm_compute. discriminate.
  - vm_compute. discriminate.
  - exists l. split; [exact H1|]. apply H2. vm_compute. repeat split; discriminate.
Defined.

Lemma block_pages_witness : ∃ range : Z → Z * Z, (BlocksPage.step (BlocksPage.GoToPage 2) seventh).2 = asks (range 2).1 (range 2).2 ∧ (range 3).2 = (range 2).1.
Proof.
  destruct (block_pages seventh) as (range & H & _).
  - vm_compute. apply NoDup_singleton.
  - vm_compute. split; [discriminate|reflexivity].
  - exists range. destruct (H 2) as (H1 & _ & _ & _ & H2); [vm_compute; split; discriminate|]. split; [exact H1|]. apply H2. vm_compute. reflexivity.
Defined.

Local Definition coins_of (n : nat) : list string := map (λ i, pretty (Z.of_nat i)) (seq 0 n).

Lemma coin_pages_witness : viewed (coins_of 25) (AddressPage.show_page (coins_of 25) 2) ∧ concat (map (AddressPage.buildPage (coins_of 25)) (seqZ 0 (AddressPage.numberOfPages (coins_of 25)))) = coins_of 25.
Proof.
  destruct (coin_pages (coins_of 25)) as (_ & H1 & H2).
  - discriminate.
  - split; [apply H1; vm_compute; split; [discriminate|reflexivity]|exact H2].
Defined.

End ExplorerLaws.
